(* ===== verification/_CoqProject ===== *)
-Q . S2P
Prelude.v
Bytes.v
Text.v
StrOps.v
Limits.v
Uri.v
UriProps.v
Tor.v
TorProps.v
Socks.v
Input.v
Ids.v
Validation.v
Frame.v
Members.v
Connections.v
HostNet.v
Queue.v
RateLimit.v
Replay.v
PasswordGuard.v
Transcript.v
Crypto.v
Monad.v
Platform.v
TorManager.v
TorManagerProps.v
Messages.v
Cbor.v
Codec.v
CodecProps.v
Conn.v
RoomTypes.v
Commands.v
View.v
Screens.v
ScreenProps.v
Render.v
RenderProps.v
Session.v
SessionProps.v
Admission.v
AdmissionClient.v
RoomState.v
RoomEpoch.v
RoomChat.v
RoomActor.v
RoomInv.v
RoomSafe.v
RoomVetted.v
RoomEpochInv.v
RoomEpochSafe.v
AdmissionProps.v
RoomTask.v
HostDriver.v
HostInv.v
HostProps.v
Queues.v
JoinDriver.v
JoinProps.v
JoinForms.v
Sessions.v
SessionsProps.v
Program.v
Handshake.v
RoomProps.v
RoomLiveness.v
RoomRelay.v
RoomGates.v
EndToEnd.v
Meeting.v
Entering.v
Chatting.v
Toy.v
Witness.v
ClientWitness.v
WireWitness.v
IoWitness.v
DriverWitness.v
Findings.v
