(* ===== verification/Prelude.v ===== *)
(** * Veilroom, verified: guide to the development

    Veilroom is a terminal program for group chat over Tor.  A host runs a room
    behind an onion service; participants come in with an invitation and a
    password, are accepted by the host one by one, and chat under a group key
    that the host renews whenever the membership changes.  The room exists as
    long as the host's process.

    ** The parts of the program and how they meet

    [src/main.rs] dispatches the arguments to [src/app.rs], which enters the
    terminal and runs the menu.  A session, a host's or a participant's, first
    starts a Tor process of its own ([src/tor]) in a private directory
    ([src/platform.rs]).  A host session is a supervisor ([src/app.rs]) between
    the terminal ([src/ui]), the listener and its connections ([src/net]) and
    the task that owns the room ([src/room]); the supervisor keeps one admission
    flow per connection ([src/admission]) and the host's own chat session
    ([src/chat]).  A join session is a supervisor between the terminal and one
    connection, with the client's half of the flow and its chat session.  What
    goes over a connection are frames of CBOR payloads ([src/protocol]); what
    is signed or encrypted are the layouts of [src/crypto].

    ** The files, in their order

    Foundations.  [Prelude]: integers at their widths, results, lists.
    [Bytes], [Text], [StrOps]: byte strings, strings as lists of Unicode scalar
    values with their UTF-8, the operations of [str].  [Monad]: the
    computations the stateful objects run in, a state, the stream of the random
    source, and an outcome that is a value, an error or a panic; [wp] and the
    [preserves] lemmas are the logic every invariant is proved in.

    Data and leaf components.  [Limits], [Ids], [Validation] (limits.rs,
    constants.rs, ids.rs, state.rs, validation.rs); [Uri], [UriProps] (uri.rs);
    [Members], [Connections], [Queue], [Replay] (with the outbound queue of
    chat/outbound.rs), [RateLimit], [PasswordGuard]: one table, queue or counter each, with the invariant its
    operations keep; [Transcript], [Crypto]: what is signed, identities, key
    wrapping, envelopes.

    The wire.  [Frame]: the codec of frames.  [Messages], [Cbor], [Codec],
    [CodecProps]: the payloads, the strict decoder, every schema, the round
    trip.  [HostNet], [Conn], [Socks]: the listener with its table; a connection's
    task, its handle, and the way of its messages to the supervisor; the SOCKS
    handshake.

    The room.  [RoomTypes]: its events, actions and errors.  [RoomState],
    [RoomEpoch], [RoomChat], [RoomActor]: the record [RoomActor] and the
    methods of room/actor.rs, handler by handler.  [RoomInv], [RoomSafe]:
    the structural invariant, kept by every event.  [RoomVetted]: where
    members come from, and that ids are given out once.  [RoomEpochInv], [RoomEpochSafe]: the invariant of the
    epochs.  [RoomTask]: room/task.rs around the actor.  [RoomProps],
    [RoomLiveness], [RoomRelay], [RoomGates]: the theorems.

    Clients and admission.  [Session], [SessionProps]: chat/session.rs.
    [Admission], [AdmissionClient], [AdmissionProps]: both sides of the flow.
    [Handshake], [EndToEnd]: the sides against each other, and a message from
    one member's session to every other's, on the wire too.  [Meeting],
    [Entering]: the supervisors of both sides over a connection's two queues,
    from the first hello to the participant's screen of the room.  [Chatting]:
    a typed line, from the key to the other members' screens.

    The terminal.  [Commands], [Input], [View], [Screens], [ScreenProps]:
    command lines, fields, the room's screen, every key on every screen.
    [Render], [RenderProps]: what is drawn.

    The program.  [Tor], [TorProps], [Platform], [TorManager],
    [TorManagerProps]: Tor's control protocol, the operating system's part, the
    life of the Tor process.  [HostDriver], [HostInv], [HostProps]: the host's
    supervisor, and the host as a whole.  [Queues]: the host with its two bounded
    channels, and the end of a session.  [JoinDriver], [JoinProps],
    [JoinForms]: the participant's.  [Sessions], [SessionsProps], [Program]:
    whole sessions, the menu around them, the program's start and end.

    Instances.  [Toy] and the files named [*Witness]: concrete
    primitives, and every conditional theorem at a concrete input.  [Findings]:
    where the program differs from its documents, on reachable states.

    A definition has the name of the function, method or type it models; where
    two files of the source use one name, or Rocq has it already, a prefix tells
    which ([tf_] for TextField, [rv_] for RoomView, [ra_] for RoomActor).  A
    [struct] is a record, an [enum] an inductive type with the source's
    variants, a [HashMap] a [gmap], a [Vec] a list.

    ** State machines and how they compose

    - A room's step is [handle_event_at] on an event; [reachable] are the
      states of any sequence of events.
    - A host's is [HostProps.system_step]: the supervisor takes a turn, the
      room's task takes an event, or the accept loop lets a connection in, in
      any order, over the queues between them; what clients send is arbitrary.
      [system_reachable] of it gives [reachable] of the room, so every theorem on
      rooms holds of a running host.  [sy_history] and [sy_handled] log what
      the code does not: each turn with the driver it began with, each event of
      the room with the room that took it.
    - [Queues.queue_step] is the same host with channels of 64 places: the
      supervisor's turn is over when its events have places, the task holds a
      batch until it has one.  [bounded_host_refines] shows it to be a
      refinement of [system_step], so the safety theorems carry over;
      [turns_end_or_deadlock] is about what the bounds do change.
    - A connection's handle, task and abort are [Conn.peer_history]; the
      forwarders between the connections and the supervisor [Conn.inbound_step].
    - A participant's is [join_turn]; [join_reachable] are its states.
    - [Sessions.host_setup] and [join_session] establish the initial states of
      both ([host_setup_starts_system], [join_run_reachable]); [Program.main]
      runs sessions from the menu.
    - [Meeting.pair_move] joins the two supervisors by the messages of one
      connection, in any order of reading and typing.
    - [HostNet.net_step] and [Program.input_move] are places where the
      interleaving is within one component: the listener's table behind its lock,
      and the reader of the terminal against the end of the program.

    ** What the theorems show

    - Who is in: members were admitted with the token, the password and a
      signature, and let in by a request that the host accepted on its screen
      while it was pending in the room ([members_were_admitted],
      [join_needs_credentials], [client_trusts_signed_host],
      [inbound_is_confined], [accept_decides], [locking_seals_the_room]); an
      honest pair gets through, from the form to the room's screen
      ([drivers_meet], [accepted_participant_enters], [honest_admission],
      [early_form_is_sent]).
    - Keys: the lifecycle of an epoch, the distribution of its key to exactly the
      members, its end by acknowledgement or eviction
      ([room_epoch_lifecycle], [transition_distributes_key], [kick_excludes],
      [acks_activate], [stalled_members_are_evicted], [admission_synchronises]).
    - Chat: relayed unchanged to the others, read once, in order, by whom it is
      meant for, and shown to them ([typed_chat_is_shown], [chat_end_to_end], [chat_relay_sound],
      [no_envelope_relayed_twice], [no_envelope_read_twice],
      [membership_spec]). A participant that has entered is in step with the
      room ([accepted_participant_enters]), and two of them follow each other
      ([insiders_follow]), which is what the theorem on chat asks of them.
    - Invariants of the tables ([room_population], [client_view_preserved],
      [listener_safe], [join_session_lifecycle]).
    - The wire: frames and payloads survive any chunking, and what decodes is well
      formed ([transport_faithful], [chunking_is_invisible],
      [decoded_message_ok], [chat_on_the_wire]); queues keep their order and
      their bounds ([peer_queue_in_order], [inbound_in_order]).
    - The host as tasks: bounded channels, the deadlock they admit, and what a
      room's end tells its connections ([bounded_host_refines],
      [turns_end_or_deadlock], [graceful_exit]).
    - The terminal: the password is the one typed twice, commands parse as they
      are printed, every screen is drawn and harms no terminal, a room's lines are
      cut into rows that fit by the widths of their characters ([host_form_refines], [command_roundtrip],
      [every_screen_is_drawn], [messages_are_shown_in_full]).
    - Tor and the program: a start is complete or an error, and returns;
      commands get their own replies; the directory is private; what a session
      leaves behind is removed, but for a directory that was never finished ([tor_start_ready], [tor_start_returns], [commands_in_order],
      [session_dir_is_private], [program_leaves_nothing_behind],
      [leaving_waits_for_the_queue]).
    - Errors: what a failed event costs its connection ([offender_is_dropped]),
      and what becomes of an inadmissible form ([invalid_form_stalls]).

    ** What is assumed

    Code the repository does not contain is a class, its documented behaviour a
    class of laws, and both have an instance the witnesses run on:
    [Primitives]/[PrimitiveLaws] (dalek, hkdf, chacha20poly1305, getrandom),
    [Hashes] (sha2, hmac, argon2), [Nfc] (unicode-normalization),
    [Cbor]/[CborLaws] (minicbor), [UriPrimitives]/[UriPrimitiveLaws] (base64,
    sha3), [ErrorTexts] and [SessionTexts] (texts of derived code),
    [Layouts]/[LayoutLaws] and [Widths]/[WidthLaws] (ratatui, unicode-width).
    The laws are functional: a signature that was made verifies, what was sealed
    opens.  No law says that something is hard to forge; theorems on
    adversaries conclude that a verification has succeeded, not that nobody else
    could have made it succeed.

    The operating system, Tor, the peers and the user are environments: every
    answer they give is an input of the model, without restriction unless a
    theorem names one.  The theorems that something comes about name these:
    [primitives_total], the random source and the cipher do not fail;
    [contributory], a key is one the host can wrap for; [sends_all], the queues
    of the connections take what they are given; [table_shown], a table is one
    the clients accept; [resting], no transition is under way.

    ** Bounds and fuel

    [feed_loop] runs on the length of its buffer, since each frame takes a
    header ([feed_loop_fuel]); [reply_loop] on what is left to read
    ([reply_loop_fuel]); [drain_bits] on the number of bits
    ([drain_bits_spells]); [trim_prefixes] on the length of the argument
    ([trim_start_matches_spec]).  The loops of the Tor manager run on
    [loop_fuel], the iterations their deadline admits and three more; [budget]
    shows that the deadline ends them first, and [tor_start_returns] that fuel
    never does.  [connect_loop], [read_cookie_loop] and [bootstrap_loop] out of
    fuel would be a panic, which is excluded there.  Additions on [u64], [u32],
    [u16] and [Instant] that can leave their type are checked or proved not to.

    ** How time, order and concurrency are modelled

    A call that reads a clock is given its reading; the readings within one
    call, and within one turn of a supervisor, agree.  A loop's [select!] is an
    event chosen by the environment.  The iteration of a [HashMap] has the order
    of [map_to_list].  Each task draws randomness from a stream of its own.
    The room's two channels are unbounded lists in [system_step] and bounded ones,
    with the waiting of both ends, in [Queues]; there the events of a turn are sent
    when the turn has had its other effects, which do not depend on the room.  A
    connection's queues are the bounded ones of [Conn], whose answers are those of
    [env_queue]; the terminal's is [Program]'s.  tokio's tolerance of five milliseconds on an
    interval is not modelled.  A path is the text it is displayed as.

    ** Not modelled, and why

    - The bodies of ratatui's widgets, crossterm's escape sequences and tokio's
      runtime: third-party code.
    - [Debug] implementations, accessors that return a field, [zeroize] and
      the other wiping of memory, which has no functional effect.
    - The scripts and packaging of the repository, and its tests.

    Beyond the theorems: several join sessions against one host's system over
    their connections, where [Meeting], [Entering] and [Chatting] have the moves of
    one connection at a time; the scheduling of the supervisor's timers. *)
From stdpp Require Export base numbers list gmap option tactics.
From Stdlib Require Export Lia.
From Stdlib Require Import Strings.Byte.

(** * Machine integers

    The source keeps ids, epochs and sequence numbers as [u64] and counters
    as [u32]; both are represented by [N].  An increment that leaves the type
    is reported as [None]. *)

Abbreviation u8 := N (only parsing).
Abbreviation u16 := N (only parsing).
Abbreviation u32 := N (only parsing).
Abbreviation u64 := N (only parsing).
Abbreviation usize := N (only parsing).

Definition u32_limit : N := 2 ^ 32.
Definition u64_limit : N := 2 ^ 64.

(** [x + 1] on a [u64], [None] where the result does not fit. *)
Definition succ_u64 (x : u64) : option u64 :=
  if (x + 1 <? u64_limit)%N then Some (x + 1)%N else None.

(** [x + 1] on a [u32]. *)
Definition succ_u32 (x : u32) : option u32 :=
  if (x + 1 <? u32_limit)%N then Some (x + 1)%N else None.

Lemma succ_u64_Some x y : succ_u64 x = Some y ↔ y = (x + 1)%N ∧ (x + 1 < u64_limit)%N.
Proof.
  unfold succ_u64. destruct (N.ltb_spec (x + 1) u64_limit); split; intros; simplify_eq; auto.
  - destruct H0; congruence.
  - lia.
Qed.

Lemma succ_u32_Some x y : succ_u32 x = Some y ↔ y = (x + 1)%N ∧ (x + 1 < u32_limit)%N.
Proof.
  unfold succ_u32. destruct (N.ltb_spec (x + 1) u32_limit); split; intros; simplify_eq; auto.
  - destruct H0; congruence.
  - lia.
Qed.

Lemma succ_u64_lt x : (x + 1 < u64_limit)%N → succ_u64 x = Some (x + 1)%N.
Proof. intros. by apply succ_u64_Some. Qed.

(** * Results

    [Result] is Rust's [Result<A, E>]. *)
Inductive Result (A E : Type) : Type :=
| Ok (a : A)
| Err (e : E).
Arguments Ok {A E} a.
Arguments Err {A E} e.

Definition is_ok {A E} (r : Result A E) : bool :=
  match r with Ok _ => true | Err _ => false end.

Definition result_bind {A B E} (r : Result A E) (f : A → Result B E) : Result B E :=
  match r with Ok a => f a | Err e => Err e end.

Declare Scope result_scope.
Delimit Scope result_scope with result.
Notation "'let?' x ':=' r 'in' k" := (result_bind r (λ x, k))
  (at level 10, x pattern, r at level 100, k at level 200) : result_scope.

Lemma result_bind_Ok {A B E} (r : Result A E) (f : A → Result B E) b :
  result_bind r f = Ok b ↔ ∃ a, r = Ok a ∧ f a = Ok b.
Proof. destruct r; simpl; naive_solver. Qed.

(** * Lists *)

Section lists.
Context {A B : Type}.
Implicit Types (l : list A).

(** The first element satisfying [p], as [Iterator::find]. *)
Fixpoint find_first (p : A → bool) l : option A :=
  match l with
  | [] => None
  | x :: l => if p x then Some x else find_first p l
  end.

(** [Vec::remove] at [Iterator::position]: drops the first element
    satisfying [p] and returns it with the rest. *)
Fixpoint remove_first (p : A → bool) l : option (A * list A) :=
  match l with
  | [] => None
  | x :: l =>
      if p x then Some (x, l)
      else match remove_first p l with
           | Some (y, l') => Some (y, x :: l')
           | None => None
           end
  end.

(** In-place update of the first element satisfying [p], as
    [Iterator::find] on [iter_mut]. *)
Fixpoint update_first (p : A → bool) (f : A → A) l : list A :=
  match l with
  | [] => []
  | x :: l => if p x then f x :: l else x :: update_first p f l
  end.

Lemma find_first_Some p l x : find_first p l = Some x → x ∈ l ∧ p x = true.
Proof.
  induction l as [|y l IH]; simpl; [done|].
  destruct (p y) eqn:E; intros; simplify_eq; [set_solver|].
  destruct IH; [done|]. set_solver.
Qed.

Lemma find_first_None p l : find_first p l = None ↔ ∀ x, x ∈ l → p x = false.
Proof.
  induction l as [|y l IH]; simpl; [set_solver|].
  destruct (p y) eqn:E; split; intros H.
  - done.
  - specialize (H y ltac:(set_solver)). congruence.
  - intros x [->|Hx]%elem_of_cons; [done|]. by apply IH.
  - apply IH. set_solver.
Qed.

Lemma existsb_find_first p l :
  existsb p l = true ↔ is_Some (find_first p l).
Proof.
  induction l as [|y l IH]; simpl; [split; [done|intros [? ?]; done]|].
  destruct (p y); simpl; [split; eauto|done].
Qed.

Lemma remove_first_Some p l x l' :
  remove_first p l = Some (x, l') →
  find_first p l = Some x ∧
  ∃ l1 l2, l = l1 ++ x :: l2 ∧ l' = l1 ++ l2 ∧ ∀ y, y ∈ l1 → p y = false.
Proof.
  revert l'. induction l as [|y l IH]; simpl; intros l' H; [done|].
  destruct (p y) eqn:E; simplify_eq.
  - split; [done|]. exists [], l'. set_solver.
  - destruct (remove_first p l) as [[z l'']|] eqn:E'; simplify_eq.
    destruct (IH l'' eq_refl) as (Hf & l1 & l2 & -> & -> & Hl1).
    split; [done|]. exists (y :: l1), l2. set_solver.
Qed.

Lemma remove_first_None p l : remove_first p l = None ↔ find_first p l = None.
Proof.
  induction l as [|y l IH]; simpl; [done|].
  destruct (p y); [done|]. destruct (remove_first p l) as [[]|]; naive_solver.
Qed.

Lemma remove_first_Permutation p l x l' :
  remove_first p l = Some (x, l') → l ≡ₚ x :: l'.
Proof.
  intros (_ & l1 & l2 & -> & -> & _)%remove_first_Some.
  by rewrite Permutation_middle.
Qed.

Lemma length_update_first p f l : length (update_first p f l) = length l.
Proof. induction l as [|x l IH]; simpl; [done|]. destruct (p x); simpl; auto. Qed.

Lemma fmap_update_first (g : A → B) p f l :
  (∀ x, g (f x) = g x) → g <$> update_first p f l = g <$> l.
Proof.
  intros Hg. induction l as [|x l IH]; simpl; [done|].
  destruct (p x); csimpl; [by rewrite Hg | by rewrite IH].
Qed.
End lists.

(** Keyed lookup in a list whose keys are pairwise distinct. *)
Section keyed.
Context {A K : Type} `{EqDecision K} (key : A → K).

Definition key_is (k : K) (x : A) : bool := bool_decide (key x = k).

Lemma find_first_key_Some l k x :
  find_first (key_is k) l = Some x → x ∈ l ∧ key x = k.
Proof. intros [? ?%bool_decide_eq_true]%find_first_Some. done. Qed.

Lemma find_first_key_None l k :
  find_first (key_is k) l = None ↔ k ∉ key <$> l.
Proof.
  rewrite find_first_None. split.
  - intros H (x & -> & Hx)%list_elem_of_fmap.
    specialize (H x Hx). by apply bool_decide_eq_false in H.
  - intros H x Hx. apply bool_decide_eq_false. intros <-.
    apply H. by apply list_elem_of_fmap_2.
Qed.

Lemma find_first_key_unique l x :
  NoDup (key <$> l) → x ∈ l → find_first (key_is (key x)) l = Some x.
Proof.
  induction l as [|y l IH]; simpl; [set_solver|].
  intros [Hy Hl]%list.NoDup_cons Hx. unfold key_is. case_bool_decide as E.
  - apply elem_of_cons in Hx as [->|Hx]; [done|].
    destruct Hy. rewrite E. by apply list_elem_of_fmap_2.
  - apply elem_of_cons in Hx as [->|Hx]; [done|]. by apply IH.
Qed.

(** Lookup in a duplicate-free list, up to the order of its elements. *)
Lemma find_first_key_perm l x l' k :
  NoDup (key <$> l) → l ≡ₚ x :: l' →
  find_first (key_is k) l' = if bool_decide (k = key x) then None else find_first (key_is k) l.
Proof.
  intros Hnd Hp. assert (Hnd' : NoDup (key <$> (x :: l'))) by (by rewrite <-Hp).
  simpl in Hnd'. apply list.NoDup_cons in Hnd' as [Hx Hnd'].
  case_bool_decide as E; [subst; by apply find_first_key_None|].
  destruct (find_first (key_is k) l) as [y|] eqn:Ey.
  - apply find_first_key_Some in Ey as [Hy <-].
    rewrite Hp in Hy. apply elem_of_cons in Hy as [->|Hy]; [congruence|].
    by apply find_first_key_unique.
  - apply find_first_key_None. apply find_first_key_None in Ey.
    rewrite Hp in Ey. csimpl in Ey. by apply not_elem_of_cons in Ey as [_ ?].
Qed.

Lemma find_first_key_elem l k x :
  NoDup (key <$> l) → find_first (key_is k) l = Some x ↔ x ∈ l ∧ key x = k.
Proof.
  intros Hnd. split; [apply find_first_key_Some|]. intros [Hx <-].
  by apply find_first_key_unique.
Qed.

Lemma find_first_key_app l x k :
  k ∉ key <$> l →
  find_first (key_is k) (l ++ [x]) =
  if bool_decide (key x = k) then Some x else None.
Proof.
  induction l as [|y l IH]; csimpl; intros Hk.
  - unfold key_is. by case_bool_decide.
  - apply not_elem_of_cons in Hk as [Hk ?]. unfold key_is at 1.
    rewrite (bool_decide_eq_false_2 (key y = k)) by congruence. by apply IH.
Qed.

Lemma find_first_key_app_ne l x k :
  key x ≠ k → find_first (key_is k) (l ++ [x]) = find_first (key_is k) l.
Proof.
  intros Hne. induction l as [|y l IH]; simpl; unfold key_is.
  - by case_bool_decide.
  - by case_bool_decide.
Qed.

Lemma remove_first_key_NoDup {C} (g : A → C) l k x l' :
  NoDup (g <$> l) → remove_first (key_is k) l = Some (x, l') →
  NoDup (g <$> l') ∧ g x ∉ g <$> l'.
Proof.
  intros Hnd Hp%remove_first_Permutation. rewrite Hp in Hnd. simpl in Hnd.
  apply list.NoDup_cons in Hnd. naive_solver.
Qed.
End keyed.

(** Appending to a duplicate-free list. *)
Lemma NoDup_snoc {A} (l : list A) x : NoDup l → x ∉ l → NoDup (l ++ [x]).
Proof.
  intros Hl Hx. apply list.NoDup_app. split_and!; [done| |apply NoDup_singleton].
  intros y Hy ->%list_elem_of_singleton. done.
Qed.

Lemma NoDup_fmap_tail {A B} (g : A → B) l x l' :
  l ≡ₚ x :: l' → NoDup (g <$> l) → NoDup (g <$> l').
Proof. intros Hp Hl. rewrite Hp in Hl. by apply NoDup_cons_1_2 in Hl. Qed.

Lemma fmap_snoc {A B} (f : A → B) l x : f <$> (l ++ [x]) = (f <$> l) ++ [f x].
Proof. by rewrite fmap_app. Qed.

(** * Hint database of the development *)
Create HintDb veil.
#[export] Hint Resolve NoDup_snoc : veil.
#[export] Hint Rewrite @fmap_snoc @length_app @length_fmap @length_update_first : veil.

(** Splits a conjunction produced by a decoder or guard and substitutes. *)
Ltac des :=
  repeat match goal with
  | H : _ ∧ _ |- _ => destruct H
  | H : ∃ _, _ |- _ => destruct H
  | H : Ok _ = Ok _ |- _ => injection H as H
  | H : Err _ = Err _ |- _ => injection H as H
  | H : Ok _ = Err _ |- _ => discriminate H
  | H : Err _ = Ok _ |- _ => discriminate H
  end; simplify_eq/=.

(** Case analysis on the scrutinee of the first match of a hypothesis. *)
Ltac case_in H :=
  match type of H with
  | context [match ?x with _ => _ end] =>
      lazymatch x with
      | context [match _ with _ => _ end] => fail
      | _ => destruct x eqn:?
      end
  end; simplify_eq/=.
