(* ===== verification/Bytes.v ===== *)
(** Byte strings and big-endian integers.

    [list byte] is the source's [Vec<u8>], [&[u8]] and [[u8; N]]; the fixed
    arrays carry their length as a hypothesis where a theorem needs it.
    [be_bytes w v] is [to_be_bytes] of a [w]-byte integer and [be_value]
    is [from_be_bytes]. *)
From Stdlib Require Import Strings.Byte.
From Corelib Require Export Init.Byte.
From S2P Require Export Prelude.

#[export] Instance byte_eq_dec : EqDecision byte := Byte.byte_eq_dec.

(** The value of a [u8]. *)
Definition byte_val (b : byte) : u8 := Byte.to_N b.

(** The [u8] with the given value, reduced modulo 256 ([as u8]). *)
Definition byte_of (v : N) : byte :=
  match Byte.of_N (v mod 256) with Some b => b | None => x00 end.

Fixpoint be_bytes (w : nat) (v : N) : list byte :=
  match w with
  | O => []
  | S w => be_bytes w (v / 256) ++ [byte_of v]
  end.

Definition be_value (bs : list byte) : N :=
  foldl (λ acc b, acc * 256 + byte_val b)%N 0%N bs.

Lemma byte_val_lt b : (byte_val b < 256)%N.
Proof. unfold byte_val. pose proof (Byte.to_N_bounded b). lia. Qed.

Lemma byte_of_val b : byte_of (byte_val b) = b.
Proof.
  unfold byte_of. rewrite N.mod_small by apply byte_val_lt.
  unfold byte_val. by rewrite Byte.of_to_N.
Qed.

Lemma byte_val_of v : byte_val (byte_of v) = (v mod 256)%N.
Proof.
  unfold byte_of, byte_val.
  destruct (Byte.of_N (v mod 256)) as [b|] eqn:E.
  - by apply Byte.to_of_N.
  - apply Byte.of_N_None_iff in E. pose proof (N.mod_lt v 256). lia.
Qed.

#[export] Instance byte_val_inj : Inj (=) (=) byte_val.
Proof. intros b1 b2 E. by rewrite <-(byte_of_val b1), <-(byte_of_val b2), E. Qed.

Lemma length_be_bytes w v : length (be_bytes w v) = w.
Proof.
  revert v. induction w as [|w IH]; intros v; simpl; [done|].
  rewrite length_app, IH. simpl. lia.
Qed.

Lemma be_value_snoc bs b : be_value (bs ++ [b]) = (be_value bs * 256 + byte_val b)%N.
Proof. unfold be_value. by rewrite foldl_snoc. Qed.

Lemma be_value_bytes w v : be_value (be_bytes w v) = (v mod 256 ^ N.of_nat w)%N.
Proof.
  revert v. induction w as [|w IH]; intros v.
  - by rewrite N.mod_1_r.
  - cbn [be_bytes]. rewrite be_value_snoc, IH, byte_val_of.
    rewrite Nat2N.inj_succ, N.pow_succ_r by lia.
    rewrite (N.Div0.mod_mul_r v 256). lia.
Qed.

Lemma be_value_lt bs : (be_value bs < 256 ^ N.of_nat (length bs))%N.
Proof.
  induction bs as [|b bs IH] using rev_ind; [done|].
  rewrite be_value_snoc, length_app. simpl.
  rewrite Nat.add_1_r, Nat2N.inj_succ, N.pow_succ_r by lia.
  pose proof (byte_val_lt b). nia.
Qed.

(** Decoding undoes encoding on every value the width can hold. *)
Lemma be_value_bytes_small w v :
  (v < 256 ^ N.of_nat w)%N → be_value (be_bytes w v) = v.
Proof. intros. by rewrite be_value_bytes, N.mod_small. Qed.

Lemma be_bytes_value bs : be_bytes (length bs) (be_value bs) = bs.
Proof.
  induction bs as [|b bs IH] using rev_ind; [done|].
  rewrite length_app, Nat.add_1_r. cbn [be_bytes]. rewrite be_value_snoc.
  pose proof (byte_val_lt b).
  rewrite N.div_add_l, N.div_small, N.add_0_r, IH by lia. f_equal. f_equal.
  apply (inj byte_val). rewrite byte_val_of, N.add_comm, N.Div0.mod_add.
  by apply N.mod_small.
Qed.

Lemma be_bytes_inj w v1 v2 :
  (v1 < 256 ^ N.of_nat w)%N → (v2 < 256 ^ N.of_nat w)%N →
  be_bytes w v1 = be_bytes w v2 → v1 = v2.
Proof. intros H1 H2 E. by rewrite <-(be_value_bytes_small w v1), E, be_value_bytes_small. Qed.

Lemma be_value_app bs1 bs2 :
  be_value (bs1 ++ bs2) = (be_value bs1 * 256 ^ N.of_nat (length bs2) + be_value bs2)%N.
Proof.
  induction bs2 as [|b bs2 IH] using rev_ind.
  - rewrite app_nil_r. simpl. unfold be_value at 3. simpl. lia.
  - rewrite app_assoc, !be_value_snoc, IH, length_app. simpl.
    rewrite Nat.add_1_r, Nat2N.inj_succ, N.pow_succ_r by lia. lia.
Qed.

(** Two concatenations of blocks of equal length agree blockwise. *)
Lemma app_inj_length {A} (l1 l2 k1 k2 : list A) :
  length l1 = length k1 → l1 ++ l2 = k1 ++ k2 → l1 = k1 ∧ l2 = k2.
Proof. apply app_inj_1. Qed.

#[export] Hint Rewrite length_be_bytes : veil.
#[export] Hint Resolve length_be_bytes byte_val_lt : veil.
