(* ===== verification/Text.v ===== *)
(** Rust strings and character classes.

    A [String] or [&str] is the list of its Unicode scalar values ([chars]);
    [utf8] gives its bytes and [from_utf8] is [String::from_utf8].  The
    classes of [src/validation.rs] close the file. *)
From Stdlib Require Import Strings.String Strings.Ascii DecimalN.
From S2P Require Export Prelude Bytes.

Abbreviation rstring := (list N) (only parsing).

(** A string literal of the source (ASCII). *)
Fixpoint lit (s : string) : rstring :=
  match s with
  | EmptyString => []
  | String c s => N_of_ascii c :: lit s
  end.

(** [Display] of an unsigned integer. *)
Fixpoint uint_digits (d : Decimal.uint) : rstring :=
  match d with
  | Decimal.Nil => []
  | Decimal.D0 d => 48%N :: uint_digits d
  | Decimal.D1 d => 49%N :: uint_digits d
  | Decimal.D2 d => 50%N :: uint_digits d
  | Decimal.D3 d => 51%N :: uint_digits d
  | Decimal.D4 d => 52%N :: uint_digits d
  | Decimal.D5 d => 53%N :: uint_digits d
  | Decimal.D6 d => 54%N :: uint_digits d
  | Decimal.D7 d => 55%N :: uint_digits d
  | Decimal.D8 d => 56%N :: uint_digits d
  | Decimal.D9 d => 57%N :: uint_digits d
  end.

Definition display_N (n : N) : rstring := uint_digits (N.to_uint n).

(** [{:02x}] of a byte. *)
Definition hex_digit (d : N) : N := if (d <? 10)%N then 48 + d else 87 + d.
Definition hex2 (b : N) : rstring := [hex_digit (b / 16); hex_digit (b mod 16)].

(** * UTF-8 *)

Definition in_range (lo hi x : N) : bool := (lo <=? x)%N && (x <=? hi)%N.

Definition is_scalar (c : N) : bool := (c <? 0xD800)%N || in_range 0xE000 0x10FFFF c.

Definition utf8_char (c : N) : list byte :=
  if (c <? 0x80)%N then [byte_of c]
  else if (c <? 0x800)%N then [byte_of (0xC0 + c / 64); byte_of (0x80 + c mod 64)]
  else if (c <? 0x10000)%N then
    [byte_of (0xE0 + c / 4096); byte_of (0x80 + (c / 64) mod 64); byte_of (0x80 + c mod 64)]
  else
    [byte_of (0xF0 + c / 262144); byte_of (0x80 + (c / 4096) mod 64);
     byte_of (0x80 + (c / 64) mod 64); byte_of (0x80 + c mod 64)].

(** [str::as_bytes]. *)
Definition utf8 (s : rstring) : list byte := flat_map utf8_char s.

(** [str::len]: the number of UTF-8 bytes. *)
Definition str_len (s : rstring) : N := N.of_nat (length (utf8 s)).

Definition is_cont (b : N) : bool := in_range 0x80 0xBF b.

(** The admissible second byte of a three-byte sequence. *)
Definition second3 (b0 b1 : N) : bool :=
  if (b0 =? 0xE0)%N then in_range 0xA0 0xBF b1
  else if (b0 =? 0xED)%N then in_range 0x80 0x9F b1
  else is_cont b1.

(** The admissible second byte of a four-byte sequence. *)
Definition second4 (b0 b1 : N) : bool :=
  if (b0 =? 0xF0)%N then in_range 0x90 0xBF b1
  else if (b0 =? 0xF4)%N then in_range 0x80 0x8F b1
  else is_cont b1.

Fixpoint from_utf8 (bs : list byte) : option rstring :=
  match bs with
  | [] => Some []
  | b0 :: t0 =>
    let v0 := byte_val b0 in
    if (v0 <? 0x80)%N then cons v0 <$> from_utf8 t0
    else match t0 with
    | [] => None
    | b1 :: t1 =>
      let v1 := byte_val b1 in
      if in_range 0xC2 0xDF v0 then
        if is_cont v1 then cons ((v0 - 0xC0) * 64 + (v1 - 0x80))%N <$> from_utf8 t1
        else None
      else match t1 with
      | [] => None
      | b2 :: t2 =>
        let v2 := byte_val b2 in
        if in_range 0xE0 0xEF v0 then
          if second3 v0 v1 && is_cont v2 then
            cons ((v0 - 0xE0) * 4096 + (v1 - 0x80) * 64 + (v2 - 0x80))%N <$> from_utf8 t2
          else None
        else match t2 with
        | [] => None
        | b3 :: t3 =>
          let v3 := byte_val b3 in
          if in_range 0xF0 0xF4 v0 then
            if second4 v0 v1 && is_cont v2 && is_cont v3 then
              cons ((v0 - 0xF0) * 262144 + (v1 - 0x80) * 4096
                    + (v2 - 0x80) * 64 + (v3 - 0x80))%N <$> from_utf8 t3
            else None
          else None
        end
      end
    end
  end.

(** * Character classes *)

(** [char::is_control]: general category Cc. *)
Definition is_control (c : N) : bool := (c <=? 0x1F)%N || in_range 0x7F 0x9F c.

(** [char::is_whitespace]: the White_Space property. *)
Definition is_whitespace (c : N) : bool :=
  in_range 0x09 0x0D c || (c =? 0x20)%N || (c =? 0x85)%N || (c =? 0xA0)%N
  || (c =? 0x1680)%N || in_range 0x2000 0x200A c || (c =? 0x2028)%N
  || (c =? 0x2029)%N || (c =? 0x202F)%N || (c =? 0x205F)%N || (c =? 0x3000)%N.

Definition is_dangerous_format_char (ch : N) : bool :=
  in_range 0x200B 0x200F ch || in_range 0x202A 0x202E ch
  || in_range 0x2060 0x2064 ch || in_range 0x2066 0x2069 ch || (ch =? 0xFEFF)%N.

Definition is_unsafe_display_char (ch : N) : bool :=
  is_control ch || is_dangerous_format_char ch.

Definition contains_control_char (input : rstring) : bool :=
  existsb is_unsafe_display_char input.

Definition non_empty (s : rstring) : bool :=
  match s with [] => false | _ => true end.

(** * The codec round trip *)

Ltac div_lia := zify; Z.to_euclidean_division_equations; lia.

(** Decides the boolean tests of the codec from linear facts on the bytes. *)
Ltac codec_tests :=
  repeat match goal with
  | |- context [(?x <? ?y)%N] =>
      first [rewrite (proj2 (N.ltb_lt x y)) by div_lia
            |rewrite (proj2 (N.ltb_ge x y)) by div_lia]
  | |- context [(?x <=? ?y)%N] =>
      first [rewrite (proj2 (N.leb_le x y)) by div_lia
            |rewrite (proj2 (N.leb_gt x y)) by div_lia]
  | |- context [(?x =? ?y)%N] =>
      first [rewrite (proj2 (N.eqb_eq x y)) by div_lia
            |rewrite (proj2 (N.eqb_neq x y)) by div_lia]
  end.

Lemma in_range_true lo hi x : in_range lo hi x = true ↔ (lo <= x <= hi)%N.
Proof. unfold in_range. rewrite andb_true_iff, !N.leb_le. done. Qed.

Lemma is_scalar_spec c :
  is_scalar c = true ↔ (c < 0xD800 ∨ 0xE000 <= c <= 0x10FFFF)%N.
Proof. unfold is_scalar. rewrite orb_true_iff, N.ltb_lt, in_range_true. done. Qed.

Lemma byte_val_small v : (v < 256)%N → byte_val (byte_of v) = v.
Proof. intros. by rewrite byte_val_of, N.mod_small. Qed.

Lemma from_utf8_char c rest :
  is_scalar c = true → from_utf8 (utf8_char c ++ rest) = cons c <$> from_utf8 rest.
Proof.
  intros Hc%is_scalar_spec. unfold utf8_char.
  destruct (N.ltb_spec c 0x80) as [H1|H1].
  { cbn [app from_utf8]. rewrite byte_val_small by lia. codec_tests. done. }
  destruct (N.ltb_spec c 0x800) as [H2|H2].
  { cbn [app from_utf8]. rewrite !byte_val_small by div_lia.
    unfold is_cont, in_range. codec_tests. cbn [andb]. do 2 f_equal. div_lia. }
  destruct (N.ltb_spec c 0x10000) as [H3|H3].
  { cbn [app from_utf8]. rewrite !byte_val_small by div_lia.
    unfold second3, is_cont, in_range.
    destruct (N.eqb_spec (224 + c / 4096) 0xE0);
    destruct (N.eqb_spec (224 + c / 4096) 0xED);
    codec_tests; cbn [andb]; codec_tests; cbn [andb]; do 2 f_equal; div_lia. }
  cbn [app from_utf8]. rewrite !byte_val_small by div_lia.
  unfold second4, is_cont, in_range.
  destruct (N.eqb_spec (240 + c / 262144) 0xF0);
  destruct (N.eqb_spec (240 + c / 262144) 0xF4);
  codec_tests; cbn [andb]; codec_tests; cbn [andb]; do 2 f_equal; div_lia.
Qed.

Lemma from_utf8_utf8 s : Forall (λ c, is_scalar c = true) s → from_utf8 (utf8 s) = Some s.
Proof.
  induction 1 as [|c s Hc Hs IH]; [done|].
  unfold utf8. cbn [flat_map]. rewrite from_utf8_char by done.
  fold (utf8 s). by rewrite IH.
Qed.

Lemma utf8_inj s1 s2 :
  Forall (λ c, is_scalar c = true) s1 → Forall (λ c, is_scalar c = true) s2 →
  utf8 s1 = utf8 s2 → s1 = s2.
Proof. intros H1%from_utf8_utf8 H2%from_utf8_utf8 E. congruence. Qed.

