(* ===== verification/StrOps.v ===== *)
(** The [str] operations of Rust's standard library the parsers use, on
    strings as lists of scalar values. *)
From Stdlib Require Import Strings.String Decimal DecimalN DecimalPos DecimalFacts.
From S2P Require Export Text.

(** [char::is_ascii_digit]. A byte of a longer character is no ASCII digit,
    so a test of all bytes is a test of all characters. *)
Definition is_ascii_digit (c : N) : bool := in_range 48 57 c.
Definition all_digits (s : rstring) : bool := forallb is_ascii_digit s.

(** [str::contains] of a character. *)
Definition contains_char (c : N) (s : rstring) : bool := existsb (N.eqb c) s.

(** [str::strip_prefix]. *)
Fixpoint strip_prefix (p s : rstring) : option rstring :=
  match p, s with
  | [], _ => Some s
  | c :: p, d :: s => if (c =? d)%N then strip_prefix p s else None
  | _ :: _, [] => None
  end.

(** [str::strip_suffix]. *)
Definition strip_suffix (p s : rstring) : option rstring :=
  reverse <$> strip_prefix (reverse p) (reverse s).

(** [str::find] of a pattern: the text before and after its first
    occurrence. *)
Fixpoint split_at (p s : rstring) : option (rstring * rstring) :=
  match strip_prefix p s with
  | Some rest => Some ([], rest)
  | None =>
      match s with
      | [] => None
      | c :: s => '(before, after) ← split_at p s; Some (c :: before, after)
      end
  end.

(** [str::split_once] of a character. *)
Fixpoint split_once (c : N) (s : rstring) : option (rstring * rstring) :=
  match s with
  | [] => None
  | d :: s => if (c =? d)%N then Some ([], s) else '(l, r) ← split_once c s; Some (d :: l, r)
  end.

(** [str::rsplit_once] of a character. *)
Definition rsplit_once (c : N) (s : rstring) : option (rstring * rstring) :=
  '(r, l) ← split_once c (reverse s); Some (reverse l, reverse r).

(** [str::split] on a character. *)
Fixpoint split_on (c : N) (s : rstring) : list rstring :=
  match s with
  | [] => [[]]
  | d :: s =>
      if (c =? d)%N then [] :: split_on c s
      else match split_on c s with
           | w :: ws => (d :: w) :: ws
           | [] => [[d]]
           end
  end.

(** [trim_start_matches(char::is_whitespace)]. *)
Fixpoint trim_start (s : rstring) : rstring :=
  match s with
  | c :: s' => if is_whitespace c then trim_start s' else s
  | [] => []
  end.

(** [str::find(char::is_whitespace)]: the text before it and from it on. *)
Fixpoint split_whitespace (s : rstring) : option (rstring * rstring) :=
  match s with
  | [] => None
  | c :: s' =>
      if is_whitespace c then Some ([], s) else '(l, r) ← split_whitespace s'; Some (c :: l, r)
  end.

(** [str::parse] to an unsigned integer: an optional sign, then digits, at
    least one, of a number within the type. *)
Fixpoint parse_digits (limit : N) (s : rstring) (acc : N) : option N :=
  match s with
  | [] => Some acc
  | c :: s =>
      if is_ascii_digit c then
        let acc := (acc * 10 + (c - 48))%N in
        if (acc <? limit)%N then parse_digits limit s acc else None
      else None
  end.

Definition parse_uint (limit : N) (s : rstring) : option N :=
  let digits := default s (strip_prefix [43%N] s) in
  match digits with [] => None | _ => parse_digits limit digits 0 end.

(** * Facts *)

(** Decides a property of concrete strings. *)
Ltac by_compute := apply (bool_decide_unpack _); vm_compute; exact I.

Lemma contains_char_false c s : contains_char c s = false ↔ c ∉ s.
Proof.
  unfold contains_char. induction s as [|d s IH]; simpl; [set_solver|].
  rewrite orb_false_iff, IH, N.eqb_neq. set_solver.
Qed.

Lemma strip_prefix_app p s : strip_prefix p (p ++ s) = Some s.
Proof. induction p as [|c p IH]; [done|]. simpl. by rewrite N.eqb_refl. Qed.

Lemma strip_prefix_Some p s r : strip_prefix p s = Some r → s = p ++ r.
Proof.
  revert s. induction p as [|c p IH]; intros s; simpl; [by intros [= ->]|].
  destruct s as [|d s]; [done|]. destruct (N.eqb_spec c d) as [->|]; [|done]. intros H. by rewrite (IH _ H).
Qed.

Lemma strip_suffix_app p s : strip_suffix p (s ++ p) = Some s.
Proof. unfold strip_suffix. rewrite reverse_app, strip_prefix_app. simpl. by rewrite reverse_involutive. Qed.

Lemma strip_suffix_Some p s r : strip_suffix p s = Some r → s = r ++ p.
Proof.
  unfold strip_suffix. destruct (strip_prefix _ _) as [q|] eqn:E; [|done]. intros [= <-].
  apply strip_prefix_Some in E. rewrite <-(reverse_involutive s), E, reverse_app, reverse_involutive. done.
Qed.

Lemma split_once_app c l r : c ∉ l → split_once c (l ++ c :: r) = Some (l, r).
Proof.
  induction l as [|d l IH]; simpl; [by rewrite N.eqb_refl|]. intros H.
  rewrite (proj2 (N.eqb_neq c d)) by set_solver. rewrite IH by set_solver. done.
Qed.

Lemma split_once_None c s : c ∉ s → split_once c s = None.
Proof.
  induction s as [|d s IH]; simpl; [done|]. intros H.
  rewrite (proj2 (N.eqb_neq c d)) by set_solver. by rewrite IH by set_solver.
Qed.

Lemma split_once_Some c s l r : split_once c s = Some (l, r) → s = l ++ c :: r ∧ c ∉ l.
Proof.
  revert l r. induction s as [|d s IH]; intros l r; simpl; [done|].
  destruct (N.eqb_spec c d) as [->|Hne]; [intros [= <- <-]; set_solver|].
  destruct (split_once c s) as [[l' r']|]; [|done]. simpl. intros [= <- <-].
  destruct (IH _ _ eq_refl) as [-> H]. set_solver.
Qed.

Lemma rsplit_once_app c l r : c ∉ r → rsplit_once c (l ++ c :: r) = Some (l, r).
Proof.
  intros H. unfold rsplit_once. rewrite reverse_app, reverse_cons, <-app_assoc. cbn [app].
  rewrite split_once_app by (by rewrite elem_of_reverse). simpl. by rewrite !reverse_involutive.
Qed.

Lemma split_at_app p c l r : (∀ q, p = c :: q → c ∉ l) → head p = Some c → split_at p (l ++ p ++ r) = Some (l, r).
Proof.
  intros Hl Hp. destruct p as [|c' p]; [done|]. injection Hp as ->. specialize (Hl p eq_refl).
  induction l as [|d l IH]; [cbn; rewrite N.eqb_refl, strip_prefix_app; done|].
  assert (E : ∀ t, strip_prefix (c :: p) (d :: t) = None)
    by (intros t; cbn; rewrite (proj2 (N.eqb_neq c d)) by set_solver; done).
  rewrite <-app_comm_cons. cbn [split_at]. rewrite E, IH by set_solver. done.
Qed.

Lemma split_on_none c s : c ∉ s → split_on c s = [s].
Proof.
  induction s as [|d s IH]; simpl; [done|]. intros H.
  rewrite (proj2 (N.eqb_neq c d)) by set_solver. by rewrite IH by set_solver.
Qed.

Lemma split_on_app c l r : c ∉ l → split_on c (l ++ c :: r) = l :: split_on c r.
Proof.
  induction l as [|d l IH]; simpl; [by rewrite N.eqb_refl|]. intros H.
  rewrite (proj2 (N.eqb_neq c d)) by set_solver. by rewrite IH by set_solver.
Qed.

(** ** Decimal numbers *)

Lemma uint_digits_all d : all_digits (uint_digits d) = true.
Proof. by induction d. Qed.

Lemma of_uint_acc_ge d p : (p <= Pos.of_uint_acc d p)%positive.
Proof.
  revert p. induction d as [|d IH|d IH|d IH|d IH|d IH|d IH|d IH|d IH|d IH|d IH]; intros p;
    cbn [Pos.of_uint_acc]; [lia|..]; (etrans; [|apply IH]); lia.
Qed.

Lemma parse_digits_pos limit d p :
  (N.pos (Pos.of_uint_acc d p) < limit)%N →
  parse_digits limit (uint_digits d) (N.pos p) = Some (N.pos (Pos.of_uint_acc d p)).
Proof.
  revert p.
  induction d as [|d IH|d IH|d IH|d IH|d IH|d IH|d IH|d IH|d IH|d IH]; intros p Hl; [done|..];
    cbn [uint_digits Pos.of_uint_acc] in *;
    match type of Hl with (N.pos (Pos.of_uint_acc _ ?q) < _)%N =>
      pose proof (of_uint_acc_ge d q); cbn [parse_digits is_ascii_digit];
      rewrite <-(IH q Hl); unfold is_ascii_digit;
      rewrite (proj2 (in_range_true _ _ _)) by lia; cbv zeta;
      match goal with |- (if (?a <? _)%N then _ else _) = _ => replace a with (N.pos q) by lia end;
      by rewrite (proj2 (N.ltb_lt _ _)) by lia
    end.
Qed.

Lemma parse_digits_N limit d :
  (0 < limit)%N → (N.of_uint d < limit)%N → parse_digits limit (uint_digits d) 0 = Some (N.of_uint d).
Proof.
  unfold N.of_uint. intros Hpos.
  induction d as [|d IH|d IH|d IH|d IH|d IH|d IH|d IH|d IH|d IH|d IH]; cbn [Pos.of_uint uint_digits];
    intros Hl; [done| |..].
  { cbn [parse_digits]. cbn. rewrite (proj2 (N.ltb_lt _ _)) by done. by apply IH. }
  all: cbn [parse_digits]; match goal with |- context [N.pos (Pos.of_uint_acc ?e ?q)] =>
    pose proof (of_uint_acc_ge e q); rewrite <-(parse_digits_pos _ _ _ Hl) end;
    unfold is_ascii_digit; rewrite (proj2 (in_range_true _ _ _)) by lia; cbv zeta;
    cbn -[N.ltb parse_digits]; by rewrite (proj2 (N.ltb_lt _ _)) by lia.
Qed.

(** A printed number is read back. *)
Lemma display_digits n : all_digits (display_N n) = true.
Proof. apply uint_digits_all. Qed.

Lemma display_not_nil n : display_N n ≠ [].
Proof.
  unfold display_N. intros E. destruct (N.to_uint n) eqn:Eu; try done.
  assert (Hn : n = 0%N) by (rewrite <-(DecimalN.Unsigned.of_to n), Eu; done). by subst n.
Qed.

Lemma digit_not c s : all_digits s = true → is_ascii_digit c = false → c ∉ s.
Proof.
  unfold all_digits. rewrite forallb_forall. intros H Hc Hin%list_elem_of_In. by rewrite H in Hc.
Qed.

Lemma parse_uint_digits limit s :
  all_digits s = true → s ≠ [] → parse_uint limit s = parse_digits limit s 0.
Proof.
  intros Hd Hne. unfold parse_uint. destruct s as [|c s]; [done|].
  assert (Hc : (43 =? c)%N = false) by (apply N.eqb_neq; intros <-; done).
  cbn [strip_prefix]. by rewrite Hc.
Qed.

Lemma parse_display limit n : (n < limit)%N → parse_uint limit (display_N n) = Some n.
Proof.
  intros Hn. rewrite parse_uint_digits by (apply display_digits || apply display_not_nil).
  unfold display_N. pose proof (DecimalN.Unsigned.of_to n) as E.
  rewrite parse_digits_N; rewrite ?E; [done|lia|done].
Qed.

Lemma parse_digits_lt limit s acc n : parse_digits limit s acc = Some n → (acc < limit)%N → (n < limit)%N.
Proof.
  revert acc. induction s as [|c s IH]; intros acc; simpl; [by intros [= <-]|].
  destruct (is_ascii_digit c); [|done]. destruct (N.ltb_spec (acc * 10 + (c - 48)) limit); [|done].
  intros Hp _. by eapply IH.
Qed.

Lemma parse_uint_lt limit s n : parse_uint limit s = Some n → (0 < limit)%N → (n < limit)%N.
Proof.
  unfold parse_uint. intros H Hl. destruct (default s _) as [|c t]; [done|].
  by eapply parse_digits_lt.
Qed.
