(* ===== verification/Limits.v ===== *)
(** [src/limits.rs] and the constants of [src/constants.rs] the other files
    use: resource limits, their validation, per-state timeouts.

    A [Duration] is its number of nanoseconds. *)
From Stdlib Require Import Strings.String.
From S2P Require Export Text.

Definition PROTOCOL_MAJOR_VERSION : u8 := 1.
Definition EPOCH_KEY_LEN : usize := 32.
Definition XCHACHA_NONCE_LEN : usize := 24.
Definition XCHACHA_TAG_LEN : usize := 16.
Definition EPOCH_WRAP_CIPHERTEXT_LEN : usize := EPOCH_KEY_LEN + XCHACHA_TAG_LEN.
Definition CHAT_MIN_CIPHERTEXT_LEN : usize := 1 + XCHACHA_TAG_LEN.
Definition CHAT_MAX_CIPHERTEXT_LEN : usize := 4096 + XCHACHA_TAG_LEN.
Definition ROOM_SESSION_ID_LEN : usize := 32.

(** [std::time::Duration], in nanoseconds. *)
Abbreviation Duration := N (only parsing).
Definition from_secs (s : N) : Duration := s * 1000000000.

Inductive TimeoutKind :=
| TK_ProtocolHandshake | TK_TokenValidation | TK_PasswordVerification
| TK_JoinFormSubmission | TK_HostDecision | TK_EpochAcknowledgement
| TK_Keepalive | TK_GracefulShutdown.

#[export] Instance TimeoutKind_eq_dec : EqDecision TimeoutKind.
Proof. solve_decision. Defined.

Record Limits := {
  max_active_members : usize;
  max_pending_requests : usize;
  max_pre_auth_connections : usize;
  max_frame_size : usize;
  max_chat_text_bytes : usize;
  max_nickname_scalars : usize;
  max_intro_scalars : usize;
  max_cbor_nesting_depth : usize;
  max_cbor_map_entries : usize;
  max_cbor_array_entries : usize;
  max_cbor_text_bytes : usize;
  max_cbor_bytes_len : usize;
}.

Definition Limits_default : Limits := {|
  max_active_members := 16;
  max_pending_requests := 8;
  max_pre_auth_connections := 16;
  max_frame_size := 16 * 1024;
  max_chat_text_bytes := 4096;
  max_nickname_scalars := 32;
  max_intro_scalars := 160;
  max_cbor_nesting_depth := 8;
  max_cbor_map_entries := 64;
  max_cbor_array_entries := 256;
  max_cbor_text_bytes := 4096;
  max_cbor_bytes_len := 4096;
|}.

Definition with_max_active_members (max : usize) : Limits := {|
  max_active_members := max;
  max_pending_requests := max_pending_requests Limits_default;
  max_pre_auth_connections := max_pre_auth_connections Limits_default;
  max_frame_size := max_frame_size Limits_default;
  max_chat_text_bytes := max_chat_text_bytes Limits_default;
  max_nickname_scalars := max_nickname_scalars Limits_default;
  max_intro_scalars := max_intro_scalars Limits_default;
  max_cbor_nesting_depth := max_cbor_nesting_depth Limits_default;
  max_cbor_map_entries := max_cbor_map_entries Limits_default;
  max_cbor_array_entries := max_cbor_array_entries Limits_default;
  max_cbor_text_bytes := max_cbor_text_bytes Limits_default;
  max_cbor_bytes_len := max_cbor_bytes_len Limits_default;
|}.

(** [InvalidLimits] of [src/error.rs]. *)
Inductive InvalidLimits := invalid_limits (message : rstring).

Definition Limits_validate (self : Limits) : Result unit InvalidLimits :=
  if (max_active_members self =? 0)%N then
    Err (invalid_limits (lit "max_active_members must be greater than zero")) else
  if (max_pending_requests self =? 0)%N then
    Err (invalid_limits (lit "max_pending_requests must be greater than zero")) else
  if (max_pre_auth_connections self =? 0)%N then
    Err (invalid_limits (lit "max_pre_auth_connections must be greater than zero")) else
  if (max_frame_size self =? 0)%N then
    Err (invalid_limits (lit "max_frame_size must be greater than zero")) else
  if (max_chat_text_bytes self =? 0)%N then
    Err (invalid_limits (lit "max_chat_text_bytes must be greater than zero")) else
  if (max_nickname_scalars self =? 0)%N then
    Err (invalid_limits (lit "max_nickname_scalars must be greater than zero")) else
  if (max_intro_scalars self =? 0)%N then
    Err (invalid_limits (lit "max_intro_scalars must be greater than zero")) else
  if (max_frame_size self <? max_chat_text_bytes self)%N then
    Err (invalid_limits (lit "max_frame_size must be at least max_chat_text_bytes")) else
  if (max_cbor_nesting_depth self =? 0)%N then
    Err (invalid_limits (lit "max_cbor_nesting_depth must be greater than zero")) else
  if (max_cbor_map_entries self =? 0)%N then
    Err (invalid_limits (lit "max_cbor_map_entries must be greater than zero")) else
  if (max_cbor_array_entries self =? 0)%N then
    Err (invalid_limits (lit "max_cbor_array_entries must be greater than zero")) else
  if (max_cbor_text_bytes self =? 0)%N then
    Err (invalid_limits (lit "max_cbor_text_bytes must be greater than zero")) else
  if (max_cbor_bytes_len self =? 0)%N then
    Err (invalid_limits (lit "max_cbor_bytes_len must be greater than zero")) else
  Ok tt.

Record Timeouts := {
  protocol_handshake : Duration;
  token_validation : Duration;
  password_verification : Duration;
  join_form_submission : Duration;
  host_decision : Duration;
  epoch_acknowledgement : Duration;
  keepalive_interval : Duration;
  graceful_shutdown : Duration;
}.

Definition Timeouts_default : Timeouts := {|
  protocol_handshake := from_secs 30;
  token_validation := from_secs 30;
  password_verification := from_secs 60;
  join_form_submission := from_secs 120;
  host_decision := from_secs 300;
  epoch_acknowledgement := from_secs 30;
  keepalive_interval := from_secs 30;
  graceful_shutdown := from_secs 10;
|}.

Definition Timeouts_get (self : Timeouts) (kind : TimeoutKind) : Duration :=
  match kind with
  | TK_ProtocolHandshake => protocol_handshake self
  | TK_TokenValidation => token_validation self
  | TK_PasswordVerification => password_verification self
  | TK_JoinFormSubmission => join_form_submission self
  | TK_HostDecision => host_decision self
  | TK_EpochAcknowledgement => epoch_acknowledgement self
  | TK_Keepalive => keepalive_interval self
  | TK_GracefulShutdown => graceful_shutdown self
  end.

(** The rate of a member's messages: a burst, and so many a second. *)
Record RateLimit := { burst : u32; sustained_per_second : u32 }.

Definition RateLimit_default : RateLimit := {| burst := 5; sustained_per_second := 1 |}.

Lemma Limits_default_valid : Limits_validate Limits_default = Ok tt.
Proof. reflexivity. Qed.

(** A validated configuration has no zero limit and a frame can hold a full
    chat text. *)
Lemma Limits_validate_Ok l :
  Limits_validate l = Ok tt →
  (0 < max_active_members l ∧ 0 < max_pending_requests l ∧
   0 < max_chat_text_bytes l <= max_frame_size l)%N.
Proof.
  unfold Limits_validate.
  repeat match goal with
  | |- context [(?x =? 0)%N] => destruct (N.eqb_spec x 0); [discriminate|]
  | |- context [(?x <? ?y)%N] => destruct (N.ltb_spec x y); [discriminate|]
  end. lia.
Qed.
