(* ===== verification/Uri.v ===== *)
(** [src/uri.rs] with its errors: the invitation URI, its strict parser and
    its printer, and the checks of an onion address.

    Base64 and SHA3 come from third-party crates: they are the class
    [UriPrimitives], what the code relies on is [UriPrimitiveLaws]. *)
From Stdlib Require Import Strings.String.
From S2P Require Export Limits StrOps.
Local Open Scope result_scope.

(** * Parameters *)

(** base64's [URL_SAFE_NO_PAD] engine and [Sha3_256::digest]. *)
Class UriPrimitives := {
  base64_encode : list byte → rstring;
  base64_decode : rstring → option (list byte);
  sha3_256 : list byte → list byte;
}.

(** The URL-safe alphabet: letters, digits, [-] and [_]. *)
Definition is_base64url (c : N) : bool :=
  in_range 65 90 c || in_range 97 122 c || in_range 48 57 c || (c =? 45)%N || (c =? 95)%N.

Class UriPrimitiveLaws `{UriPrimitives} := {
  base64_roundtrip bs : base64_decode (base64_encode bs) = Some bs;
  base64_alphabet bs : Forall (λ c, is_base64url c = true) (base64_encode bs);
  base64_not_nil bs : bs ≠ [] → base64_encode bs ≠ [];
}.

(** * Data *)

Definition INVITATION_SCHEME : rstring := lit "veilroom".
Definition URI_PARAM_VERSION : rstring := lit "v".
Definition URI_PARAM_TOKEN : rstring := lit "token".
Definition ONION_V3_BODY_LENGTH : usize := 56.
Definition ONION_V3_SUFFIX : rstring := lit ".onion".
Definition ONION_V3_ALPHABET : rstring := lit "abcdefghijklmnopqrstuvwxyz234567".
Definition MIN_TOKEN_BYTES : usize := 16.
Definition MAX_TOKEN_BYTES : usize := 32.
Definition URI_DELIMITER : rstring := lit "://".

Inductive UriError :=
| UE_InvalidScheme
| UE_UserInfoNotAllowed
| UE_FragmentNotAllowed
| UE_PathNotAllowed
| UE_MalformedOnionAddress
| UE_InvalidOnionAlphabet
| UE_MissingPort
| UE_InvalidPort
| UE_MissingVersion
| UE_InvalidVersion
| UE_UnsupportedVersion (found : u8)
| UE_MissingToken
| UE_InvalidToken
| UE_InvalidTokenLength (found : usize)
| UE_UnknownQueryParameter (name : rstring)
| UE_DuplicateQueryParameter (name : rstring)
| UE_InvalidQueryParameter (name : rstring).

(** A strictly validated invitation. *)
Record Invitation := { inv_onion_address : rstring; inv_port : u16; inv_token : list byte }.

(** * Onion addresses *)

(** The inner loop of [decode_base32]: whole bytes leave the accumulator.
    Every turn takes 8 of the [bits], so [bits] turns are enough. *)
Fixpoint drain_bits (fuel : nat) (accumulator bits : N) (output : list byte) : N * N * list byte :=
  match fuel with
  | O => (accumulator, bits, output)
  | S fuel =>
      if (8 <=? bits)%N then
        let bits := (bits - 8)%N in
        drain_bits fuel (N.land accumulator (N.shiftl 1 bits - 1)) bits
          (output ++ [byte_of (N.shiftr accumulator bits)])
      else (accumulator, bits, output)
  end.

Definition base32_value (byte : N) : option N :=
  if in_range 97 122 byte then Some (byte - 97)%N
  else if in_range 50 55 byte then Some (byte - 50 + 26)%N
  else None.

(** The outer loop, with the [u32] accumulator cut to its width. *)
Fixpoint decode_base32_loop (text : list byte) (accumulator bits : N) (output : list byte)
    : option (N * N * list byte) :=
  match text with
  | [] => Some (accumulator, bits, output)
  | byte :: text =>
      value ← base32_value (byte_val byte);
      let accumulator := N.lor (N.shiftl accumulator 5 mod u32_limit) value in
      let bits := (bits + 5)%N in
      let '(accumulator, bits, output) := drain_bits (N.to_nat bits) accumulator bits output in
      decode_base32_loop text accumulator bits output
  end.

Definition decode_base32 (text : rstring) : option (list byte) :=
  '(accumulator, bits, output) ← decode_base32_loop (utf8 text) 0 0 [];
  if negb (bits =? 0)%N && negb (accumulator =? 0)%N then None else Some output.

Section uri.
Context `{UriPrimitives}.

Definition is_valid_onion_v3_body (body : rstring) : bool :=
  match decode_base32 body with
  | None => false
  | Some decoded =>
      if negb (length decoded =? 35)%nat || negb (byte_val (nth 34 decoded Byte.x00) =? 3)%N then false
      else
        let checksum_input := utf8 (lit ".onion checksum") ++ take 32 decoded ++ [byte_of 3] in
        let digest := sha3_256 checksum_input in
        bool_decide (take 2 (drop 32 decoded) = take 2 digest)
  end.

Definition validate_onion_address (address : rstring) : Result () UriError :=
  match strip_suffix ONION_V3_SUFFIX address with
  | None => Err UE_MalformedOnionAddress
  | Some body =>
      if negb (str_len body =? ONION_V3_BODY_LENGTH)%N then Err UE_MalformedOnionAddress
      else if negb (forallb (λ b, bool_decide (b ∈ utf8 ONION_V3_ALPHABET)) (utf8 body)) then
        Err UE_InvalidOnionAlphabet
      else if negb (is_valid_onion_v3_body body) then Err UE_MalformedOnionAddress
      else Ok ()
  end.

(** * The invitation *)

Definition token_length_ok (token : list byte) : bool :=
  in_range MIN_TOKEN_BYTES MAX_TOKEN_BYTES (N.of_nat (length token)).

Definition Invitation_new (onion_address : rstring) (port : u16) (token : list byte)
    : Result Invitation UriError :=
  let? _ := validate_onion_address onion_address in
  if (port =? 0)%N then Err UE_InvalidPort
  else if negb (token_length_ok token) then Err (UE_InvalidTokenLength (N.of_nat (length token)))
  else Ok {| inv_onion_address := onion_address; inv_port := port; inv_token := token |}.

Definition to_uri_string (inv : Invitation) : rstring :=
  INVITATION_SCHEME ++ lit "://" ++ inv_onion_address inv ++ lit ":" ++ display_N (inv_port inv)
  ++ lit "?" ++ URI_PARAM_VERSION ++ lit "=" ++ display_N PROTOCOL_MAJOR_VERSION
  ++ lit "&" ++ URI_PARAM_TOKEN ++ lit "=" ++ base64_encode (inv_token inv).

(** Characters of the grammar. *)
Definition ch_hash : N := 35.
Definition ch_at : N := 64.
Definition ch_colon : N := 58.
Definition ch_slash : N := 47.
Definition ch_question : N := 63.
Definition ch_amp : N := 38.
Definition ch_eq : N := 61.

Definition parse_port (text : rstring) : Result u16 UriError :=
  if negb (non_empty text) then Err UE_MissingPort
  else if negb (all_digits text) then Err UE_InvalidPort
  else match parse_uint 65536 text with
       | None => Err UE_InvalidPort
       | Some port => if (port =? 0)%N then Err UE_InvalidPort else Ok port
       end.

(** One query parameter; its name is already known to be new. *)
Definition parse_param (name value : rstring) (version : option u8) (token : option (list byte))
    : Result (option u8 * option (list byte)) UriError :=
  if bool_decide (name = URI_PARAM_VERSION) then
    if negb (all_digits value) then Err UE_InvalidVersion
    else match parse_uint 256 value with
         | None => Err UE_InvalidVersion
         | Some v => Ok (Some v, token)
         end
  else if bool_decide (name = URI_PARAM_TOKEN) then
    match base64_decode value with
    | None => Err UE_InvalidToken
    | Some decoded =>
        if negb (token_length_ok decoded) then Err (UE_InvalidTokenLength (N.of_nat (length decoded)))
        else Ok (version, Some decoded)
    end
  else Err (UE_UnknownQueryParameter name).

(** The loop over the query's parameters. *)
Fixpoint parse_params (params : list rstring) (version : option u8) (token : option (list byte))
    (seen_names : list rstring) : Result (option u8 * option (list byte)) UriError :=
  match params with
  | [] => Ok (version, token)
  | parameter :: params =>
      match split_once ch_eq parameter with
      | None => Err (UE_InvalidQueryParameter parameter)
      | Some (name, value) =>
          if negb (non_empty name) || negb (non_empty value) then Err (UE_InvalidQueryParameter name)
          else if bool_decide (name ∈ seen_names) then Err (UE_DuplicateQueryParameter name)
          else
            let? (version, token) := parse_param name value version token in
            parse_params params version token (seen_names ++ [name])
      end
  end.

(** [Option::ok_or]. *)
Definition ok_or_uri {A} (o : option A) (e : UriError) : Result A UriError :=
  match o with Some a => Ok a | None => Err e end.

Definition parse_query (query : rstring) : Result (list byte) UriError :=
  if negb (non_empty query) then Err UE_MissingVersion else
  let? (version, token) := parse_params (split_on ch_amp query) None None [] in
  let? version := ok_or_uri version UE_MissingVersion in
  if negb (version =? PROTOCOL_MAJOR_VERSION)%N then Err (UE_UnsupportedVersion version)
  else ok_or_uri token UE_MissingToken.

Definition parse_invitation (input : rstring) : Result Invitation UriError :=
  if contains_char ch_hash input then Err UE_FragmentNotAllowed else
  match split_at URI_DELIMITER input with
  | None => Err UE_InvalidScheme
  | Some (scheme, rest) =>
      if contains_char ch_at scheme || contains_char ch_colon scheme then Err UE_UserInfoNotAllowed
      else if negb (bool_decide (scheme = INVITATION_SCHEME)) then Err UE_InvalidScheme
      else
        let '(authority, query) := default (rest, []) (split_once ch_question rest) in
        if contains_char ch_slash authority then Err UE_PathNotAllowed else
        let? (host, port_text) := ok_or_uri (rsplit_once ch_colon authority) UE_MissingPort in
        let? _ := validate_onion_address host in
        let? port := parse_port port_text in
        let? token := parse_query query in
        Ok {| inv_onion_address := host; inv_port := port; inv_token := token |}
  end.
End uri.
