(* ===== verification/UriProps.v ===== *)
(** Facts of [Uri]: what the base32 decoder computes, which characters a
    valid address and a token are made of, and the round trip between
    [to_uri_string] and [parse_invitation]. *)
From Stdlib Require Import Strings.String.
From S2P Require Export Uri.
Local Open Scope result_scope.
Local Open Scope N_scope.

(** * Base32 *)

(** The number a list of digits spells in a base, most significant first. *)
Definition big_endian (base : N) (digits : list N) : N :=
  fold_left (λ acc d, acc * base + d) digits 0.

Lemma big_endian_app base l d : big_endian base (l ++ [d]) = big_endian base l * base + d.
Proof. unfold big_endian. by rewrite fold_left_app. Qed.

Lemma big_endian_bound base l :
  Forall (λ d, d < base) l → big_endian base l < base ^ N.of_nat (length l).
Proof.
  induction l as [|d l IH] using rev_ind; [cbn; lia|]. intros [Hl Hd]%Forall_app.
  specialize (IH Hl). apply Forall_cons_1 in Hd as [Hd _]. cbn beta in Hd.
  rewrite big_endian_app, length_app, Nat2N.inj_add, N.pow_add_r.
  change (base ^ N.of_nat (length [d])) with (base ^ 1). rewrite N.pow_1_r. nia.
Qed.

Lemma big_endian_inj base l1 l2 :
  Forall (λ d, d < base) l1 → Forall (λ d, d < base) l2 → length l1 = length l2 →
  big_endian base l1 = big_endian base l2 → l1 = l2.
Proof.
  revert l2. induction l1 as [|d l1 IH] using rev_ind; intros l2 H1 H2 Hlen He.
  { by destruct l2. }
  destruct (exists_last (l := l2)) as (l2' & d' & ->); [intros ->; rewrite length_app in Hlen; simpl in Hlen; lia|].
  apply Forall_app in H1 as [H1 [Hd _]%Forall_cons_1], H2 as [H2 [Hd' _]%Forall_cons_1].
  rewrite !length_app in Hlen. simpl in Hlen. rewrite !big_endian_app in He.
  cbn beta in *. rewrite !(N.mul_comm _ base) in He. apply (N.div_mod_unique base) in He as [E ->]; [|done..].
  f_equal. apply IH; [done..|lia|done].
Qed.

Definition byte_vals (bs : list byte) : list N := map byte_val bs.

(** A turn of the inner loop: the accumulator gives up its top byte. *)
Lemma drain_bits_step acc bits :
  acc < 2 ^ (bits + 8) →
  acc = byte_val (byte_of (N.shiftr acc bits)) * 2 ^ bits + N.land acc (N.shiftl 1 bits - 1)
  ∧ N.land acc (N.shiftl 1 bits - 1) < 2 ^ bits.
Proof.
  intros Ha. rewrite N.shiftr_div_pow2, N.shiftl_1_l, N.sub_1_r, <-N.ones_equiv, N.land_ones.
  assert (0 < 2 ^ bits) by (apply N.neq_0_lt_0, N.pow_nonzero; lia).
  rewrite byte_val_small.
  - split; [|apply N.mod_lt; lia]. pose proof (N.div_mod acc (2 ^ bits)). lia.
  - apply N.Div0.div_lt_upper_bound. rewrite N.pow_add_r in Ha. change (2 ^ 8) with 256 in Ha. lia.
Qed.

(** What the loops keep: the bytes put out and the accumulator spell the
    digits read so far, and fewer than eight bits wait. *)
Record spells (digits : list N) (acc bits : N) (out : list byte) : Prop := {
  sp_value : big_endian 32 digits = big_endian 256 (byte_vals out) * 2 ^ bits + acc;
  sp_bits : 5 * N.of_nat (length digits) = 8 * N.of_nat (length out) + bits;
  sp_acc : acc < 2 ^ bits;
}.

Lemma spells_emit digits acc bits out :
  spells digits acc (bits + 8) out →
  spells digits (N.land acc (N.shiftl 1 bits - 1)) bits (out ++ [byte_of (N.shiftr acc bits)]).
Proof.
  intros [Hv Hb Ha]. destruct (drain_bits_step acc bits Ha) as [E Hlt]. split; [|rewrite length_app; simpl; lia|done].
  unfold byte_vals. rewrite map_app. cbn [map]. rewrite big_endian_app, Hv.
  rewrite E at 1. rewrite N.pow_add_r. change (2 ^ 8) with 256. unfold byte_vals. lia.
Qed.

Lemma drain_bits_spells fuel digits acc bits out acc' bits' out' :
  drain_bits fuel acc bits out = (acc', bits', out') → (N.to_nat bits <= fuel)%nat →
  spells digits acc bits out → spells digits acc' bits' out' ∧ bits' < 8.
Proof.
  revert acc bits out. induction fuel as [|fuel IH]; intros acc bits out; simpl.
  { intros [= <- <- <-] Hf Hs. split; [done|lia]. }
  destruct (N.leb_spec 8 bits) as [Hb|Hb].
  - intros H Hf Hs. eapply IH; [exact H|lia|]. apply spells_emit. by replace (bits - 8 + 8) with bits by lia.
  - intros [= <- <- <-] Hf Hs. by split.
Qed.

Lemma base32_value_bound b v : base32_value b = Some v → v < 32.
Proof.
  unfold base32_value. destruct (in_range 97 122 b) eqn:E1; [apply in_range_true in E1; intros [= <-]; lia|].
  destruct (in_range 50 55 b) eqn:E2; [apply in_range_true in E2; intros [= <-]; lia|done].
Qed.

Lemma lor_shift5 acc v : v < 32 → N.lor (N.shiftl acc 5) v = acc * 32 + v.
Proof.
  intros Hv. rewrite N.shiftl_mul_pow2. change (2 ^ 5) with 32.
  assert (Hz : N.land (acc * 32) v = 0).
  { change 32 with (2 ^ 5). rewrite <-N.shiftl_mul_pow2. apply N.bits_inj_0. intros n. rewrite N.land_spec.
    destruct (N.lt_ge_cases n 5) as [Hn|Hn]; [by rewrite N.shiftl_spec_low|].
    rewrite (N.bits_above_log2 v n), andb_false_r; [done|].
    destruct (N.eq_dec v 0) as [->|]; [cbn; lia|]. apply N.log2_lt_pow2; [lia|].
    eapply N.lt_le_trans; [exact Hv|]. change 32 with (2 ^ 5). by apply N.pow_le_mono_r. }
  rewrite <-N.lxor_lor by done. by rewrite <-N.add_nocarry_lxor.
Qed.

(** One more digit; the accumulator never leaves its 32 bits. *)
Lemma spells_digit digits acc bits out v :
  spells digits acc bits out → bits < 8 → v < 32 →
  spells (digits ++ [v]) (N.lor (N.shiftl acc 5 mod u32_limit) v) (bits + 5) out.
Proof.
  intros [Hv Hb Ha] Hbits Hlt.
  assert (2 ^ bits <= 2 ^ 7) by (apply N.pow_le_mono_r; lia). change (2 ^ 7) with 128 in *.
  rewrite N.mod_small by (rewrite N.shiftl_mul_pow2; change (2 ^ 5) with 32; cbv [u32_limit]; cbn; lia).
  rewrite lor_shift5 by done. split.
  - rewrite big_endian_app, Hv, N.pow_add_r. change (2 ^ 5) with 32. lia.
  - rewrite length_app. simpl. lia.
  - rewrite N.pow_add_r. change (2 ^ 5) with 32. lia.
Qed.

Lemma decode_base32_loop_spec text digits acc bits out :
  spells digits acc bits out → bits < 8 →
  match mapM (λ b, base32_value (byte_val b)) text, decode_base32_loop text acc bits out with
  | Some vs, Some (acc', bits', out') => spells (digits ++ vs) acc' bits' out' ∧ bits' < 8
  | None, None => True
  | _, _ => False
  end.
Proof.
  revert digits acc bits out. induction text as [|b text IH]; intros digits acc bits out Hs Hb.
  { cbn. by rewrite app_nil_r. }
  cbn [mapM decode_base32_loop]. destruct (base32_value (byte_val b)) as [v|] eqn:Ev; [|done].
  cbn [mbind option_bind]. destruct (drain_bits _ _ _ _) as [[acc1 bits1] out1] eqn:Ed.
  apply (drain_bits_spells _ (digits ++ [v])) in Ed as [Hs' Hb'];
    [|done|by apply spells_digit; [..|eapply base32_value_bound]].
  specialize (IH _ _ _ _ Hs' Hb').
  destruct (mapM _ text) as [vs|]; cbn [mbind option_bind];
    destruct (decode_base32_loop text acc1 bits1 out1) as [[[??]?]|]; try done.
  by rewrite <-app_assoc in IH.
Qed.

Lemma byte_vals_bound bs : Forall (λ d, d < 256) (byte_vals bs).
Proof. apply Forall_map, Forall_forall. intros b _. apply byte_val_lt. Qed.

Lemma byte_vals_inj bs1 bs2 : byte_vals bs1 = byte_vals bs2 → bs1 = bs2.
Proof. apply (list_fmap_eq_inj byte_val). intros b1 b2 E. by rewrite <-(byte_of_val b1), E, byte_of_val. Qed.

(** The bytes of [out] are the number the digits of [text] spell, without
    the trailing bits that do not fill a byte; those are zero. *)
Definition base32_spells (text : rstring) (out : list byte) : Prop :=
  ∃ vs spare, mapM (λ b, base32_value (byte_val b)) (utf8 text) = Some vs
    ∧ 5 * N.of_nat (length vs) = 8 * N.of_nat (length out) + spare ∧ spare < 8
    ∧ big_endian 32 vs = big_endian 256 (byte_vals out) * 2 ^ spare.

(** The base32 decoder computes the RFC 4648 value: it returns exactly the
    bytes whose big-endian number the base-32 digits spell, and rejects a foreign
    character and non-zero bits in the incomplete last byte; its 32-bit accumulator
    never overflows. *)
Theorem decode_base32_value text out : decode_base32 text = Some out ↔ base32_spells text out.
Proof.
  pose proof (decode_base32_loop_spec (utf8 text) [] 0 0 []) as Hs.
  specialize (Hs ltac:(by split) ltac:(lia)). unfold decode_base32, base32_spells.
  destruct (mapM _ (utf8 text)) as [vs|], (decode_base32_loop _ _ _ _) as [[[acc bits] out']|]; try done;
    [|split; [done|by intros (? & ? & ? & _)]].
  destruct Hs as [[Hv Hb Ha] Hbits]. cbn [app mbind option_bind] in *. split.
  - intros H. exists vs, bits. destruct (N.eqb_spec acc 0) as [->|Hacc].
    + rewrite andb_false_r in H. injection H as <-. rewrite N.add_0_r in Hv. done.
    + destruct (N.eqb_spec bits 0) as [->|]; [cbn in Ha; lia|done].
  - intros (vs' & spare & [= <-] & Hlen & Hspare & Hval).
    assert (spare = bits) as -> by lia. assert (length out' = length out) as Hl by lia.
    assert (0 < 2 ^ bits) by (apply N.neq_0_lt_0, N.pow_nonzero; lia).
    rewrite Hv, !(N.mul_comm _ (2 ^ bits)), <-(N.add_0_r (_ * big_endian 256 (byte_vals out))) in Hval.
    apply (N.div_mod_unique (2 ^ bits)) in Hval as [E ->]; [|done..].
    rewrite andb_false_r. f_equal. apply byte_vals_inj.
    eapply big_endian_inj; [apply byte_vals_bound..| |done]. unfold byte_vals. by rewrite !length_map.
Qed.

(** * The characters of a valid invitation *)

(** A string whose bytes are all ASCII has ASCII characters only. *)
Lemma utf8_ascii s :
  Forall (λ b, byte_val b < 128) (utf8 s) → Forall (λ c, c < 128) s ∧ utf8 s = map byte_of s.
Proof.
  assert (Hlast : ∀ x, ¬ byte_val (byte_of (0x80 + x mod 64)) < 128)
    by (intros x; assert (H : x mod 64 < 64) by (by apply N.mod_lt); revert H; generalize (x mod 64); intros m Hm; rewrite byte_val_small by lia; lia).
  induction s as [|c s IH]; [done|]. unfold utf8. cbn [flat_map]. fold (utf8 s).
  intros [Hc Hs]%Forall_app. destruct (IH Hs) as [Hs' ->]. unfold utf8_char in *.
  destruct (N.ltb_spec c 0x80); [by split; [constructor|]|].
  exfalso. apply (Hlast c). rewrite Forall_forall in Hc. apply Hc.
  destruct (c <? 0x800); [|destruct (c <? 0x10000)]; cbn [In]; tauto.
Qed.

Definition is_onion_char (c : N) : bool := in_range 97 122 c || in_range 50 55 c || (c =? 46).

Lemma byte_of_inj_ascii c d : c < 128 → d < 128 → byte_of c = byte_of d → c = d.
Proof. intros Hc Hd E. by rewrite <-(byte_val_small c), <-(byte_val_small d), E by lia. Qed.

Lemma alphabet_chars body :
  forallb (λ b, bool_decide (b ∈ utf8 ONION_V3_ALPHABET)) (utf8 body) = true →
  Forall (λ c, c ∈ ONION_V3_ALPHABET) body.
Proof.
  intros H. assert (Hin : Forall (λ b, b ∈ utf8 ONION_V3_ALPHABET) (utf8 body)).
  { apply Forall_forall. intros b Hb. rewrite forallb_forall in H. specialize (H b Hb). by apply bool_decide_eq_true_1 in H. }
  assert (Ha : Forall (λ b, byte_val b < 128) (utf8 ONION_V3_ALPHABET)) by (apply (bool_decide_unpack _); vm_compute; exact I).
  assert (Hb : Forall (λ b, byte_val b < 128) (utf8 body)).
  { refine (Forall_impl _ _ Hin). intros b Hb%list_elem_of_In. by rewrite Forall_forall in Ha; apply Ha. }
  destruct (utf8_ascii _ Hb) as [Hc Eb]. destruct (utf8_ascii _ Ha) as [Hc' Ea].
  rewrite Eb, Ea, Forall_map in Hin. rewrite Forall_forall in *. intros c Hcin.
  specialize (Hin c Hcin). apply list_elem_of_In, in_map_iff in Hin as (d & E & Hd).
  apply byte_of_inj_ascii in E as <-; [by apply list_elem_of_In|by apply Hc'|by apply Hc].
Qed.

Section uri_props.
Context `{UriPrimitiveLaws}.

(** The characters a valid address does not have. *)
Definition is_delimiter (c : N) : bool :=
  existsb (N.eqb c) [ch_hash; ch_at; ch_colon; ch_slash; ch_question; ch_amp; ch_eq].

Lemma not_delimiter c : 37 < c → c ≠ 38 → c ≠ 47 → c ≠ 58 → c ≠ 61 → c ≠ 63 → c ≠ 64 → is_delimiter c = false.
Proof. intros. unfold is_delimiter. cbn [existsb]. rewrite !orb_false_iff, !N.eqb_neq. repeat split; cbv; lia. Qed.

Lemma no_delimiter c s : Forall (λ d, is_delimiter d = false) s → is_delimiter c = true → c ∉ s.
Proof. intros Hs Hc Hin%list_elem_of_In. rewrite Forall_forall in Hs. by rewrite Hs in Hc. Qed.

Lemma alphabet_no_delimiter : Forall (λ d, is_delimiter d = false) ONION_V3_ALPHABET.
Proof. by_compute. Qed.

Lemma onion_no_delimiter s : validate_onion_address s = Ok () → Forall (λ d, is_delimiter d = false) s.
Proof.
  unfold validate_onion_address. destruct (strip_suffix _ s) as [body|] eqn:E; [|done].
  apply strip_suffix_Some in E as ->. destruct (negb (str_len body =? _)); [done|].
  destruct (forallb _ _) eqn:Ea; [|done]. intros _. apply Forall_app. split.
  - refine (Forall_impl _ _ (alphabet_chars _ Ea)). intros c Hc%list_elem_of_In.
    pose proof alphabet_no_delimiter as Hall. rewrite Forall_forall in Hall. by apply Hall.
  - by_compute.
Qed.

Lemma digits_no_delimiter s : all_digits s = true → Forall (λ d, is_delimiter d = false) s.
Proof.
  unfold all_digits. rewrite forallb_forall, Forall_forall. intros Hd c Hc.
  specialize (Hd c Hc). apply in_range_true in Hd. apply not_delimiter; lia.
Qed.

Lemma base64_no_delimiter bs : Forall (λ d, is_delimiter d = false) (base64_encode bs).
Proof.
  refine (Forall_impl _ _ (base64_alphabet bs)). intros c Hc. unfold is_base64url in Hc.
  rewrite !orb_true_iff, !in_range_true, !N.eqb_eq in Hc. apply not_delimiter; lia.
Qed.

Lemma parse_port_display port : (0 < port)%N → (port < 65536)%N → parse_port (display_N port) = Ok port.
Proof.
  intros Hp Hlt. unfold parse_port. rewrite display_digits, parse_display by done.
  assert (non_empty (display_N port) = true) as ->.
  { pose proof (display_not_nil port). by destruct (display_N port). }
  cbn [negb]. by rewrite (proj2 (N.eqb_neq port 0)) by lia.
Qed.

Lemma parse_port_Ok s port :
  parse_port s = Ok port → (0 < port < 65536)%N.
Proof.
  unfold parse_port. destruct (negb (non_empty s)); [done|]. destruct (negb (all_digits s)); [done|].
  destruct (parse_uint 65536 s) as [p|] eqn:E; [|done]. destruct (N.eqb_spec p 0); [done|].
  intros [= <-]. apply parse_uint_lt in E; lia.
Qed.

(** The query [to_uri_string] writes. *)
Lemma parse_query_printed token :
  token_length_ok token = true →
  parse_query (URI_PARAM_VERSION ++ lit "=" ++ display_N PROTOCOL_MAJOR_VERSION
    ++ lit "&" ++ URI_PARAM_TOKEN ++ lit "=" ++ base64_encode token) = Ok token.
Proof.
  intros Ht. unfold parse_query.
  assert (Hne : non_empty (base64_encode token) = true).
  { destruct (base64_encode token) eqn:E; [|done]. exfalso. eapply base64_not_nil; [|exact E].
    intros ->. done. }
  change (_ ++ _ ++ _ ++ _ ++ _ ++ _ ++ base64_encode token)
    with (lit "v=1" ++ ch_amp :: lit "token=" ++ base64_encode token).
  rewrite split_on_app by by_compute.
  assert (Hamp : ch_amp ∉ lit "token=" ++ base64_encode token).
  { rewrite elem_of_app. intros [Hin|Hin]; revert Hin; [by_compute|].
    by apply no_delimiter; [apply base64_no_delimiter|]. }
  rewrite split_on_none by done. cbn [parse_params].
  change (split_once ch_eq (lit "v=1")) with (Some (lit "v", lit "1")).
  change (lit "token=" ++ base64_encode token) with (lit "token" ++ ch_eq :: base64_encode token).
  rewrite split_once_app by by_compute. rewrite Hne. unfold parse_param.
  change (parse_uint 256 (lit "1")) with (Some 1). cbn.
  rewrite base64_roundtrip, Ht. done.
Qed.

Definition token_option_ok (token : option (list byte)) : Prop :=
  ∀ t, token = Some t → token_length_ok t = true.

Lemma parse_param_token name value version token version' token' :
  parse_param name value version token = Ok (version', token') →
  token_option_ok token → token_option_ok token'.
Proof.
  unfold parse_param. destruct (bool_decide (name = URI_PARAM_VERSION)).
  { destruct (negb _); [done|]. destruct (parse_uint _ _); [|done]. by intros [= <- <-]. }
  destruct (bool_decide (name = URI_PARAM_TOKEN)); [|done].
  destruct (base64_decode value) as [d|]; [|done]. destruct (token_length_ok d) eqn:E; [|done].
  intros [= <- <-] _ t [= <-]. done.
Qed.

Lemma parse_params_token params version token seen version' token' :
  parse_params params version token seen = Ok (version', token') →
  token_option_ok token → token_option_ok token'.
Proof.
  revert version token seen. induction params as [|p params IH]; intros version token seen; cbn [parse_params].
  { by intros [= <- <-]. }
  destruct (split_once ch_eq p) as [[name value]|]; [|done]. destruct (_ || _); [done|].
  destruct (bool_decide _); [done|]. intros ((v1 & t1) & Hp & Hr)%result_bind_Ok Ht.
  eapply IH; [exact Hr|]. by eapply parse_param_token.
Qed.

Lemma parse_query_token query token : parse_query query = Ok token → token_length_ok token = true.
Proof.
  unfold parse_query. destruct (negb _); [done|].
  intros ((version & token') & Hp & (v & Hv & Ht)%result_bind_Ok)%result_bind_Ok.
  destruct (negb _); [done|]. destruct token' as [t|]; [|done]. injection Ht as ->.
  eapply parse_params_token in Hp; [|by intros ? [=]]. by apply Hp.
Qed.

(** Parsing and construction validate alike: what the parser accepts, the
    constructor accepts as it is, with a port and a token in their ranges. *)
Theorem parsed_invitation_valid s inv :
  parse_invitation s = Ok inv →
  Invitation_new (inv_onion_address inv) (inv_port inv) (inv_token inv) = Ok inv
  ∧ 0 < inv_port inv < 65536.
Proof.
  unfold parse_invitation, Invitation_new.
  destruct (contains_char _ _); [done|]. destruct (split_at _ _) as [[scheme rest]|]; [|done].
  destruct (_ || _); [done|]. destruct (negb _); [done|].
  destruct (default _ _) as [authority query]. destruct (contains_char _ _); [done|].
  intros ((host & port_text) & _ & Hv)%result_bind_Ok.
  apply result_bind_Ok in Hv as ([] & Ha & (port & Hp%parse_port_Ok & (token & Ht%parse_query_token & Hr)%result_bind_Ok)%result_bind_Ok).
  injection Hr as <-. cbn [inv_onion_address inv_port inv_token]. rewrite Ha. cbn [result_bind].
  rewrite (proj2 (N.eqb_neq port 0)) by lia. rewrite Ht. done.
Qed.

(** What is printed for an address, a port and a token parses back to them. *)
Lemma printed_parses onion_address port token :
  port < 65536 → port ≠ 0 → validate_onion_address onion_address = Ok tt → token_length_ok token = true →
  let inv := {| inv_onion_address := onion_address; inv_port := port; inv_token := token |} in
  parse_invitation (to_uri_string inv) = Ok inv.
Proof.
  intros Hport Hp Ha Ht. cbv zeta.
  pose proof (onion_no_delimiter _ Ha) as Hd. 
  unfold to_uri_string, parse_invitation. cbn [inv_onion_address inv_port inv_token].
  set (query := URI_PARAM_VERSION ++ _).
  assert (Hq : ch_hash ∉ query).
  { change query with (lit "v=1&token=" ++ base64_encode token). intros [Hin|Hin]%elem_of_app; revert Hin; [by_compute|].
    by apply no_delimiter; [apply base64_no_delimiter|]. }
  assert (Hauth : ∀ c, is_delimiter c = true → c ≠ ch_colon → c ∉ onion_address ++ ch_colon :: display_N port).
  { intros c Hc Hne. rewrite elem_of_app, elem_of_cons. intros [|[|]]; [by eapply no_delimiter|done|].
    by eapply (no_delimiter c (display_N port)); [apply digits_no_delimiter, display_digits|..]. }
  change (lit "://" ++ onion_address ++ lit ":" ++ display_N port ++ lit "?" ++ query)
    with (URI_DELIMITER ++ onion_address ++ ch_colon :: display_N port ++ ch_question :: query).
  replace (onion_address ++ ch_colon :: display_N port ++ ch_question :: query)
    with ((onion_address ++ ch_colon :: display_N port) ++ ch_question :: query) by (by rewrite <-app_assoc).
  rewrite (proj2 (contains_char_false _ _)).
  2:{ intros [Hin|[Hin|[Hin|[Hin|Hin]%elem_of_cons]%elem_of_app]%elem_of_app]%elem_of_app; revert Hin;
      [by_compute..|by apply Hauth|done|done]. }
  rewrite (split_at_app URI_DELIMITER ch_colon); [|intros q _; by_compute|done].
  change (contains_char ch_at INVITATION_SCHEME || contains_char ch_colon INVITATION_SCHEME) with false.
  rewrite bool_decide_eq_true_2 by done. cbn [negb]. rewrite split_once_app by (by apply Hauth). cbn [from_option id].
  rewrite (proj2 (contains_char_false _ _)) by (by apply Hauth).
  rewrite rsplit_once_app by (apply no_delimiter; [apply digits_no_delimiter, display_digits|done]).
  cbn [ok_or_uri result_bind]. rewrite Ha. cbn [result_bind]. rewrite parse_port_display by lia. cbn [result_bind].
  unfold query. rewrite parse_query_printed by done. done.
Qed.

(** The URI an invitation prints parses back to the same invitation. *)
Theorem invitation_roundtrip onion_address port token inv :
  port < 65536 → Invitation_new onion_address port token = Ok inv →
  parse_invitation (to_uri_string inv) = Ok inv.
Proof.
  intros Hport. unfold Invitation_new. intros ([] & Ha & Hn)%result_bind_Ok.
  destruct (N.eqb_spec port 0) as [|Hp]; [done|]. destruct (token_length_ok token) eqn:Ht; [|done].
  injection Hn as <-. by apply printed_parses.
Qed.
End uri_props.
