(* ===== verification/Tor.v ===== *)
(** [src/tor/parser.rs] and [src/tor/control.rs]: the Tor control protocol,
    from bytes to replies.

    The socket is the environment's: the reads it answers, in order, are a
    list that every operation consumes from the front; an operation that
    needs more than is left is pending, which for a command is its
    timeout. *)
From Stdlib Require Import Strings.String.
From S2P Require Export Limits StrOps.

(** * Lines and replies *)

Inductive LineKind := LK_Continuation | LK_Data | LK_Last.

Record ControlLine := { cl_code : u16; cl_kind : LineKind; cl_data : rstring }.

Inductive ParserError :=
| TP_MalformedLine
| TP_CodeMismatch (expected found : u16)
| TP_UnexpectedDataBlock
| TP_UnexpectedDataTerminator
| TP_ReplyTooLarge.

Record Reply := { re_code : u16; re_lines : list rstring }.

Definition Reply_is_ok (r : Reply) : bool := (re_code r =? 250)%N.

Definition Reply_first_line (r : Reply) : rstring := default [] (head (re_lines r)).

Definition LineKind_of (separator : N) : option LineKind :=
  if (separator =? 45)%N then Some LK_Continuation
  else if (separator =? 43)%N then Some LK_Data
  else if (separator =? 32)%N then Some LK_Last
  else None.

(** The source looks at the first four bytes; a byte of a longer character
    is neither a digit nor a separator, so the first four characters
    decide. *)
Definition parse_control_line (line : rstring) : option ControlLine :=
  if (str_len line <? 4)%N then None else
  match line with
  | c0 :: c1 :: c2 :: separator :: data =>
      if is_ascii_digit c0 && is_ascii_digit c1 && is_ascii_digit c2 then
        code ← parse_uint 65536 [c0; c1; c2];
        kind ← LineKind_of separator;
        Some {| cl_code := code; cl_kind := kind; cl_data := data |}
      else None
  | _ => None
  end.

(** * Assembling a reply *)

Record ReplyAccumulator := {
  acc_code : option u16;
  acc_lines : list rstring;
  acc_in_data_block : bool;
}.

Definition ReplyAccumulator_new : ReplyAccumulator :=
  {| acc_code := None; acc_lines := []; acc_in_data_block := false |}.

Definition MAX_REPLY_LINES : usize := 1024.
Definition MAX_REPLY_BYTES : usize := 1024 * 1024.

Definition lines_bytes (lines : list rstring) : N := foldr (λ l n, str_len l + n)%N 0%N lines.

Definition push_line (a : ReplyAccumulator) (line : rstring) : Result unit ParserError * ReplyAccumulator :=
  let bytes := (lines_bytes (acc_lines a) + str_len line)%N in
  if (MAX_REPLY_LINES <=? N.of_nat (length (acc_lines a)))%N || (MAX_REPLY_BYTES <? bytes)%N
  then (Err TP_ReplyTooLarge, a)
  else (Ok tt, {| acc_code := acc_code a; acc_lines := acc_lines a ++ [line];
                  acc_in_data_block := acc_in_data_block a |}).

Definition take_reply (a : ReplyAccumulator) : Reply * ReplyAccumulator :=
  ({| re_code := default 0%N (acc_code a); re_lines := acc_lines a |}, ReplyAccumulator_new).

Definition set_code (code : u16) (a : ReplyAccumulator) : ReplyAccumulator :=
  {| acc_code := Some code; acc_lines := acc_lines a; acc_in_data_block := acc_in_data_block a |}.

Definition set_data_block (b : bool) (a : ReplyAccumulator) : ReplyAccumulator :=
  {| acc_code := acc_code a; acc_lines := acc_lines a; acc_in_data_block := b |}.

Definition begin_reply (a : ReplyAccumulator) (line : ControlLine) : Result unit ParserError * ReplyAccumulator :=
  match push_line (set_code (cl_code line) a) (cl_data line) with
  | (Err e, a) => (Err e, a)
  | (Ok _, a) => (Ok tt, set_data_block match cl_kind line with LK_Data => true | _ => false end a)
  end.

(** [.map(|_| None)] of a step that completes no reply. *)
Definition unfinished (x : Result unit ParserError * ReplyAccumulator)
    : Result (option Reply) ParserError * ReplyAccumulator :=
  (match x.1 with Ok _ => Ok None | Err e => Err e end, x.2).

Definition feed_data_line (a : ReplyAccumulator) (raw_line : rstring)
    : Result (option Reply) ParserError * ReplyAccumulator :=
  if negb (acc_in_data_block a) then (Err TP_UnexpectedDataTerminator, a)
  else if bool_decide (raw_line = lit ".") then (Ok None, set_data_block false a)
  else
    let line := match strip_prefix (lit "..") raw_line with Some _ => drop 1 raw_line | None => raw_line end in
    unfinished (push_line a line).

Definition feed_line (a : ReplyAccumulator) (line : ControlLine)
    : Result (option Reply) ParserError * ReplyAccumulator :=
  match acc_code a with
  | Some expected =>
      if negb (cl_code line =? expected)%N then (Err (TP_CodeMismatch expected (cl_code line)), a)
      else match cl_kind line with
           | LK_Last =>
               match push_line a (cl_data line) with
               | (Err e, a) => (Err e, a)
               | (Ok _, a) => let (reply, a) := take_reply a in (Ok (Some reply), a)
               end
           | LK_Data => (Err TP_UnexpectedDataBlock, a)
           | LK_Continuation => unfinished (push_line a (cl_data line))
           end
  | None =>
      match cl_kind line with
      | LK_Last =>
          match push_line a (cl_data line) with
          | (Err e, a) => (Err e, a)
          | (Ok _, a) =>
              let (reply, a) := take_reply (set_code (cl_code line) a) in (Ok (Some reply), a)
          end
      | LK_Data | LK_Continuation => unfinished (begin_reply a line)
      end
  end.

(** * Reading lines *)

Inductive ControlError :=
| TC_LineTooLong (max : usize)
| TC_Parser (e : ParserError)
| TC_UnexpectedEof
| TC_ConnectTimeout
| TC_CommandTimeout
| TC_Desynchronized
| TC_InvalidCommand
| TC_AuthenticationFailed (reply : Reply)
| TC_Io.

(** What a read of the socket answers; no bytes are the end of the stream. *)
Inductive ReadResult := RD_Bytes (bytes : list byte) | RD_Failed.

Record LineReader := { lr_pending : list byte; lr_buf : list byte; lr_max : usize }.

Definition LineReader_new (max : usize) : LineReader :=
  {| lr_pending := []; lr_buf := []; lr_max := max |}.

Inductive LineOutcome :=
| LO_Line (line : rstring)
| LO_End
| LO_Error (e : ControlError)
| LO_Pending.

(** The bytes before the first line feed and those after it. *)
Fixpoint split_newline (bs : list byte) : option (list byte * list byte) :=
  match bs with
  | [] => None
  | b :: bs =>
      if (byte_val b =? 10)%N then Some ([], bs)
      else '(before, after) ← split_newline bs; Some (b :: before, after)
  end.

Definition finish_line (buf : list byte) : LineOutcome :=
  match from_utf8 buf with
  | None => LO_Error (TC_Parser TP_MalformedLine)
  | Some line => LO_Line (default line (strip_suffix [13%N] line))
  end.

(** The loop of [next_line]. *)
Fixpoint read_line (reads : list ReadResult) (buf : list byte) (max : usize)
    : LineOutcome * LineReader * list ReadResult :=
  let reader buf pending := {| lr_pending := pending; lr_buf := buf; lr_max := max |} in
  match reads with
  | [] => (LO_Pending, reader buf [], [])
  | RD_Failed :: reads => (LO_Error TC_Io, reader buf [], reads)
  | RD_Bytes [] :: reads =>
      (match buf with [] => LO_End | _ => LO_Error TC_UnexpectedEof end, reader buf [], reads)
  | RD_Bytes bytes :: reads =>
      match split_newline bytes with
      | Some (before, after) =>
          let buf := buf ++ before in
          if (max <? N.of_nat (length buf))%N then (LO_Error (TC_LineTooLong max), reader buf [], reads)
          else (finish_line buf, reader buf after, reads)
      | None =>
          let buf := buf ++ bytes in
          if (max <? N.of_nat (length buf))%N then (LO_Error (TC_LineTooLong max), reader buf [], reads)
          else read_line reads buf max
      end
  end.

Definition next_line (r : LineReader) (reads : list ReadResult) : LineOutcome * LineReader * list ReadResult :=
  match split_newline (lr_pending r) with
  | Some (before, after) =>
      (finish_line before, {| lr_pending := after; lr_buf := before; lr_max := lr_max r |}, reads)
  | None => read_line reads (lr_pending r) (lr_max r)
  end.

(** * Commands *)

Definition MAX_CONTROL_LINE_BYTES : usize := 4096.

(** A connected client, with all it has written. *)
Record ControlClient := { cc_reader : LineReader; cc_written : list byte; cc_poisoned : bool }.

Definition ControlClient_connected : ControlClient :=
  {| cc_reader := LineReader_new MAX_CONTROL_LINE_BYTES; cc_written := []; cc_poisoned := false |}.

Inductive WriteResult := WR_Done | WR_Failed | WR_Pending.

(** One line of a reply: what the loop of [command_inner] does with it. *)
Definition accumulate (a : ReplyAccumulator) (line : rstring)
    : Result (option Reply) ParserError * ReplyAccumulator :=
  if acc_in_data_block a then feed_data_line a line else
  match parse_control_line line with
  | None =>
      (Err (if bool_decide (line = lit ".") then TP_UnexpectedDataTerminator else TP_MalformedLine), a)
  | Some line => feed_line a line
  end.

(** The loop of [command_inner]; [None] is a reply that is still awaited.
    Every turn takes a line feed from what there is to read, so the bytes
    are fuel enough ([reply_loop_fuel]). *)
Fixpoint reply_loop (fuel : nat) (a : ReplyAccumulator) (r : LineReader) (reads : list ReadResult)
    : option (Result Reply ControlError) * LineReader * list ReadResult :=
  match fuel with
  | O => (None, r, reads)
  | S fuel =>
      match next_line r reads with
      | (LO_Pending, r, reads) => (None, r, reads)
      | (LO_End, r, reads) => (Some (Err TC_UnexpectedEof), r, reads)
      | (LO_Error e, r, reads) => (Some (Err e), r, reads)
      | (LO_Line line, r, reads) =>
          match accumulate a line with
          | (Err e, _) => (Some (Err (TC_Parser e)), r, reads)
          | (Ok (Some reply), _) => (Some (Ok reply), r, reads)
          | (Ok None, a) => reply_loop fuel a r reads
          end
      end
  end.

Definition read_bytes (reads : list ReadResult) : nat :=
  sum_list_with (λ r, match r with RD_Bytes bs => length bs | RD_Failed => O end) reads.

Definition available (r : LineReader) (reads : list ReadResult) : nat :=
  length (lr_pending r) + read_bytes reads.

(** [command] within its ten seconds; [reads] is what arrives in them. *)
Definition command (command : rstring) (write : WriteResult) (c : ControlClient) (reads : list ReadResult)
    : Result Reply ControlError * ControlClient * list ReadResult :=
  if cc_poisoned c then (Err TC_Desynchronized, c, reads) else
  if existsb (λ ch, (ch =? 13)%N || (ch =? 10)%N) command then (Err TC_InvalidCommand, c, reads) else
  let poison c := {| cc_reader := cc_reader c; cc_written := cc_written c; cc_poisoned := true |} in
  match write with
  | WR_Failed => (Err TC_Io, c, reads)
  | WR_Pending => (Err TC_CommandTimeout, poison c, reads)
  | WR_Done =>
      let '(result, r, reads) :=
        reply_loop (S (available (cc_reader c) reads)) ReplyAccumulator_new (cc_reader c) reads in
      let c := {| cc_reader := r; cc_written := cc_written c ++ utf8 (command ++ [13%N; 10%N]);
                  cc_poisoned := false |} in
      match result with
      | Some result => (result, c, reads)
      | None => (Err TC_CommandTimeout, poison c, reads)
      end
  end.

(** [str::contains] of a string. *)
Definition contains (p s : rstring) : bool := match split_at p s with Some _ => true | None => false end.

Definition authenticate (cookie_hex : rstring) (write : WriteResult) (c : ControlClient)
    (reads : list ReadResult) : Result unit ControlError * ControlClient * list ReadResult :=
  let '(result, c, reads) := command (lit "AUTHENTICATE " ++ cookie_hex) write c reads in
  (match result with
   | Err e => Err e
   | Ok reply =>
       if Reply_is_ok reply then Ok tt
       else if (re_code reply =? 513)%N && contains (lit "authenticated") (Reply_first_line reply) then Ok tt
       else Err (TC_AuthenticationFailed reply)
   end, c, reads).
