(* ===== verification/TorProps.v ===== *)
(** The Tor control client: however the socket cuts the stream, it sees the
    lines that were sent; well-formed replies are assembled to what they say;
    and every command gets its own reply, until one times out. *)
From Stdlib Require Import Strings.String Strings.Byte.
From S2P Require Export Tor.

(** * Lines of a stream *)

Definition ends_line : list byte := [x0d; x0a].

(** A line as it is sent. *)
Definition line_bytes (line : rstring) : list byte := utf8 line ++ ends_line.

(** A line that can be sent: characters, no line break among them, within
    the limit. *)
Definition sendable (max : usize) (line : rstring) : Prop :=
  Forall (λ c, is_scalar c = true) line ∧ 10%N ∉ line ∧ 13%N ∉ line ∧ (str_len line < max)%N.

Lemma utf8_app s t : utf8 (s ++ t) = utf8 s ++ utf8 t.
Proof. apply flat_map_app. Qed.

Lemma split_newline_app a b :
  split_newline (a ++ b) = match split_newline a with
                           | Some (x, y) => Some (x, y ++ b)
                           | None => '(x, y) ← split_newline b; Some (a ++ x, y)
                           end.
Proof.
  induction a as [|c a IH]; simpl; [by destruct (split_newline b) as [[]|]|].
  destruct (byte_val c =? 10)%N; [done|]. rewrite IH. destruct (split_newline a) as [[]|]; [done|].
  by destruct (split_newline b) as [[]|].
Qed.

Lemma split_newline_none bs : Forall (λ b, byte_val b ≠ 10%N) bs → split_newline bs = None.
Proof. induction 1 as [|b bs Hb _ IH]; [done|]. simpl. by rewrite (proj2 (N.eqb_neq _ _)), IH. Qed.

(** A line feed is no part of a longer character. *)
Lemma utf8_char_no_newline c : is_scalar c = true → c ≠ 10%N → Forall (λ b, byte_val b ≠ 10%N) (utf8_char c).
Proof.
  intros Hc%is_scalar_spec Hne. unfold utf8_char.
  destruct (N.ltb_spec c 0x80); [|destruct (N.ltb_spec c 0x800); [|destruct (N.ltb_spec c 0x10000)]];
    repeat constructor; rewrite byte_val_small by div_lia; try done; div_lia.
Qed.

Lemma utf8_no_newline s :
  Forall (λ c, is_scalar c = true) s → 10%N ∉ s → Forall (λ b, byte_val b ≠ 10%N) (utf8 s).
Proof.
  induction 1 as [|c s Hc _ IH]; [constructor|]. intros Hn. unfold utf8. cbn [flat_map].
  apply Forall_app. split; [apply utf8_char_no_newline; set_solver|]. apply IH. set_solver.
Qed.

Lemma split_line max line more :
  sendable max line → split_newline (line_bytes line ++ more) = Some (utf8 line ++ [x0d], more).
Proof.
  intros (Hs & Hn & _ & _). unfold line_bytes, ends_line. rewrite <-app_assoc, split_newline_app.
  by rewrite split_newline_none by (by apply utf8_no_newline).
Qed.

Lemma finish_sent_line max line : sendable max line → finish_line (utf8 line ++ [x0d]) = LO_Line line.
Proof.
  intros (Hs & _ & _ & _). unfold finish_line. change [x0d] with (utf8 [13%N]). rewrite <-utf8_app, from_utf8_utf8.
  - by rewrite strip_suffix_app.
  - apply Forall_app. split; [done|]. by repeat constructor.
Qed.

(** Reads that bring bytes. *)
Definition brings (chunks : list (list byte)) : list ReadResult := RD_Bytes <$> chunks.

(** What is still to be read: the stream without what was consumed. *)
Definition remains (r : LineReader) (chunks : list (list byte)) : list byte :=
  lr_pending r ++ concat chunks.

Lemma read_line_spec max chunks buf before after :
  Forall (λ c, c ≠ []) chunks → split_newline buf = None →
  split_newline (buf ++ concat chunks) = Some (before, after) → (N.of_nat (length before) <= max)%N →
  ∃ r chunks', read_line (brings chunks) buf max = (finish_line before, r, brings chunks') ∧
    remains r chunks' = after ∧ lr_max r = max ∧ Forall (λ c, c ≠ []) chunks'.
Proof.
  intros Hc. revert buf. induction Hc as [|c chunks Hne Hc IH]; intros buf Hb Hs Hl; simpl in Hs.
  { rewrite app_nil_r in Hs. by rewrite Hs in Hb. }
  cbn [brings fmap list_fmap read_line]. destruct c as [|b c]; [done|].
  rewrite app_assoc, split_newline_app, split_newline_app, Hb in Hs.
  destruct (split_newline (b :: c)) as [[x y]|] eqn:E; cbn [mbind option_bind] in Hs.
  - injection Hs as <- <-. rewrite (proj2 (N.ltb_ge _ _)) by done.
    eexists _, chunks. split; [done|]. by repeat split.
  - destruct (split_newline (concat chunks)) as [[x y]|] eqn:Ec; [|done].
    cbn [mbind option_bind] in Hs. injection Hs as <- <-.
    rewrite (proj2 (N.ltb_ge _ _)) by (revert Hl; rewrite !length_app; lia).
    apply IH; [by rewrite split_newline_app, Hb, E| |done].
    by rewrite split_newline_app, split_newline_app, Hb, E, Ec.
Qed.

Lemma next_line_spec r chunks before after :
  Forall (λ c, c ≠ []) chunks → split_newline (remains r chunks) = Some (before, after) →
  (N.of_nat (length before) <= lr_max r)%N →
  ∃ r' chunks', next_line r (brings chunks) = (finish_line before, r', brings chunks') ∧
    remains r' chunks' = after ∧ lr_max r' = lr_max r ∧ Forall (λ c, c ≠ []) chunks'.
Proof.
  intros Hc Hs Hl. unfold next_line, remains in *. rewrite split_newline_app in Hs.
  destruct (split_newline (lr_pending r)) as [[x y]|] eqn:E.
  - injection Hs as <- <-. eexists _, chunks. split; [done|]. by repeat split.
  - eapply read_line_spec; [done..| |done]. by rewrite split_newline_app, E.
Qed.

(** The reader sees the lines that were sent, however the stream is cut. *)
Lemma next_line_sent r chunks line more :
  Forall (λ c, c ≠ []) chunks → remains r chunks = line_bytes line ++ more → sendable (lr_max r) line →
  ∃ r' chunks', next_line r (brings chunks) = (LO_Line line, r', brings chunks') ∧
    remains r' chunks' = more ∧ lr_max r' = lr_max r ∧ Forall (λ c, c ≠ []) chunks'.
Proof.
  intros Hc He Hs. pose proof (split_line _ _ more Hs) as Hl. rewrite <-He in Hl.
  destruct (next_line_spec _ _ _ _ Hc Hl) as (r' & chunks' & Hn & H).
  { destruct Hs as (_ & _ & _ & Hlen). unfold str_len in Hlen. rewrite length_app. simpl. lia. }
  exists r', chunks'. by rewrite (finish_sent_line _ _ Hs) in Hn.
Qed.

(** * From lines to replies *)

(** The reply a list of lines starts with, or the error it stops at, with
    the lines left. *)
Fixpoint assemble (a : ReplyAccumulator) (lines : list rstring)
    : option (Result Reply ParserError * list rstring) :=
  match lines with
  | [] => None
  | l :: lines =>
      match accumulate a l with
      | (Err e, _) => Some (Err e, lines)
      | (Ok (Some reply), _) => Some (Ok reply, lines)
      | (Ok None, a) => assemble a lines
      end
  end.

Definition of_parser (r : Result Reply ParserError) : Result Reply ControlError :=
  match r with Ok reply => Ok reply | Err e => Err (TC_Parser e) end.

Lemma reply_loop_assembles lines : ∀ fuel a r chunks more result rest,
  Forall (sendable (lr_max r)) lines → Forall (λ c, c ≠ []) chunks →
  remains r chunks = flat_map line_bytes lines ++ more →
  assemble a lines = Some (result, rest) → length lines <= fuel →
  ∃ r' chunks', reply_loop fuel a r (brings chunks) = (Some (of_parser result), r', brings chunks') ∧
    remains r' chunks' = flat_map line_bytes rest ++ more ∧ lr_max r' = lr_max r ∧
    Forall (λ c, c ≠ []) chunks'.
Proof.
  induction lines as [|l lines IH]; [done|]. intros [|fuel] a r chunks more result rest Hl Hc Hr Ha Hf; [simpl in Hf; lia|].
  apply list.Forall_cons in Hl as [Hs Hl]. cbn [flat_map] in Hr. rewrite <-app_assoc in Hr.
  destruct (next_line_sent _ _ _ _ Hc Hr Hs) as (r' & chunks' & Hn & Hr' & Hm & Hc').
  cbn [reply_loop assemble] in *. rewrite Hn.
  destruct (accumulate a l) as [[[reply|]|e] a'].
  - injection Ha as <- <-. eexists _, _. done.
  - rewrite <-Hm in Hl. rewrite <-Hm. eapply IH; [done..|simpl in Hf; lia].
  - injection Ha as <- <-. eexists _, _. done.
Qed.

(** A reply as the protocol sends it: a data block if there is one, lines
    that continue, a last line. *)
Record WireReply := {
  w_code : u16;
  w_block : option (rstring * list rstring);
  w_lines : list rstring;
  w_last : rstring;
}.

Definition code_digits (code : u16) : rstring :=
  [48 + code / 100; 48 + code / 10 mod 10; 48 + code mod 10]%N.

(** Dot stuffing. *)
Definition stuffed (line : rstring) : rstring :=
  match strip_prefix (lit ".") line with Some _ => lit "." ++ line | None => line end.

Definition wire_lines (w : WireReply) : list rstring :=
  match w_block w with
  | Some (first, block) => (code_digits (w_code w) ++ lit "+" ++ first) :: (stuffed <$> block) ++ [lit "."]
  | None => []
  end
  ++ ((λ l, code_digits (w_code w) ++ lit "-" ++ l) <$> w_lines w)
  ++ [code_digits (w_code w) ++ lit " " ++ w_last w].

Definition wire_bytes (w : WireReply) : list byte := flat_map line_bytes (wire_lines w).

(** What it says. *)
Definition reply_of (w : WireReply) : Reply := {|
  re_code := w_code w;
  re_lines := match w_block w with Some (first, block) => first :: block | None => [] end ++ w_lines w ++ [w_last w];
|}.

(** A reply within the client's limits. *)
Record wire_ok (w : WireReply) : Prop := {
  wo_code : (w_code w < 1000)%N;
  wo_lines : Forall (sendable MAX_CONTROL_LINE_BYTES) (wire_lines w);
  wo_count : (N.of_nat (length (re_lines (reply_of w))) <= MAX_REPLY_LINES)%N;
  wo_bytes : (lines_bytes (re_lines (reply_of w)) <= MAX_REPLY_BYTES)%N;
}.

Lemma utf8_length s : length s <= length (utf8 s).
Proof.
  induction s as [|c s IH]; [done|]. unfold utf8 in *. cbn [flat_map length]. rewrite length_app.
  assert (1 <= length (utf8_char c)); [|lia].
  unfold utf8_char. repeat case_match; simpl; lia.
Qed.

Lemma digit_char d : (d < 10)%N → is_ascii_digit (48 + d) = true.
Proof. intros. unfold is_ascii_digit. apply in_range_true. lia. Qed.

Lemma parse_digit limit d s acc :
  (d < 10)%N → (acc * 10 + d < limit)%N →
  parse_digits limit (48 + d :: s)%N acc = parse_digits limit s (acc * 10 + d).
Proof.
  intros Hd Hl. cbn [parse_digits]. rewrite digit_char by done. cbv zeta.
  replace (acc * 10 + (48 + d - 48))%N with (acc * 10 + d)%N by lia. by rewrite (proj2 (N.ltb_lt _ _)).
Qed.

Lemma code_digit code : (code < 1000)%N → (code / 100 < 10 ∧ code / 10 mod 10 < 10 ∧ code mod 10 < 10)%N.
Proof. intros H. split_and!; [div_lia|by apply N.mod_lt..]. Qed.

Lemma parse_code_digits code : (code < 1000)%N → parse_uint 65536 (code_digits code) = Some code.
Proof.
  intros Hc. destruct (code_digit code Hc) as (H1 & H2 & H3). rewrite parse_uint_digits; [|by cbn [all_digits forallb code_digits]; rewrite !digit_char|done].
  unfold code_digits. rewrite !parse_digit by lia. cbn [parse_digits]. f_equal. div_lia.
Qed.

Lemma parse_code code separator kind data :
  (code < 1000)%N → LineKind_of separator = Some kind →
  parse_control_line (code_digits code ++ separator :: data)
    = Some {| cl_code := code; cl_kind := kind; cl_data := data |}.
Proof.
  intros Hc Hk. destruct (code_digit code Hc) as (H1 & H2 & H3). unfold parse_control_line.
  pose proof (utf8_length (code_digits code ++ separator :: data)) as Hl. simpl in Hl.
  rewrite (proj2 (N.ltb_ge _ _)) by (unfold str_len; simpl; lia).
  cbn [app code_digits]. rewrite !digit_char by done. cbn [andb].
  change [(48 + code / 100)%N; _; _] with (code_digits code). rewrite parse_code_digits by done.
  cbn [mbind option_bind]. by rewrite Hk.
Qed.

(** ** The accumulator on well-formed lines *)

(** Lines that fit one after the other. *)
Definition fits (lines : list rstring) : Prop :=
  (N.of_nat (length lines) <= MAX_REPLY_LINES)%N ∧ (lines_bytes lines <= MAX_REPLY_BYTES)%N.

Lemma lines_bytes_app l1 l2 : lines_bytes (l1 ++ l2) = (lines_bytes l1 + lines_bytes l2)%N.
Proof. induction l1 as [|l l1 IH]; simpl; [done|]. rewrite IH. lia. Qed.

Lemma push_line_ok a line rest :
  fits (acc_lines a ++ line :: rest) →
  push_line a line = (Ok tt, {| acc_code := acc_code a; acc_lines := acc_lines a ++ [line];
                                acc_in_data_block := acc_in_data_block a |}).
Proof.
  intros [Hn Hb]. rewrite lines_bytes_app in Hb. rewrite length_app in Hn. simpl in *. unfold push_line.
  rewrite (proj2 (N.leb_gt _ _)) by lia. by rewrite (proj2 (N.ltb_ge _ _)) by lia.
Qed.

Definition mid (code : option u16) (lines : list rstring) (block : bool) : ReplyAccumulator :=
  {| acc_code := code; acc_lines := lines; acc_in_data_block := block |}.

Lemma accumulate_last code0 code lines data :
  (code < 1000)%N → code0 = None ∨ code0 = Some code → fits (lines ++ [data]) →
  (accumulate (mid code0 lines false) (code_digits code ++ lit " " ++ data)).1
    = Ok (Some {| re_code := code; re_lines := lines ++ [data] |}).
Proof.
  intros Hc H0 Hf. unfold accumulate. cbn [acc_in_data_block mid].
  change (lit " " ++ data) with (32%N :: data). rewrite (parse_code _ _ LK_Last) by done. unfold feed_line.
  destruct H0 as [->| ->]; cbn [acc_code mid cl_code cl_kind]; rewrite ?N.eqb_refl; cbn [negb cl_data];
    by rewrite (push_line_ok (mid _ lines false) _ []).
Qed.

Lemma accumulate_continuation code0 code lines data rest :
  (code < 1000)%N → code0 = None ∨ code0 = Some code → fits (lines ++ data :: rest) →
  accumulate (mid code0 lines false) (code_digits code ++ lit "-" ++ data)
    = (Ok None, mid (Some code) (lines ++ [data]) false).
Proof.
  intros Hc H0 Hf. unfold accumulate. cbn [acc_in_data_block mid].
  change (lit "-" ++ data) with (45%N :: data). rewrite (parse_code _ _ LK_Continuation) by done. unfold feed_line.
  destruct H0 as [->| ->]; cbn [acc_code mid cl_code cl_kind]; rewrite ?N.eqb_refl; cbn [negb cl_data].
  - unfold begin_reply. cbn [set_code cl_code cl_data]. by rewrite (push_line_ok (set_code code (mid None lines false)) _ rest).
  - by rewrite (push_line_ok (mid (Some code) lines false) _ rest).
Qed.

(** The lines that continue and the last line, after [lines]. *)
Lemma assemble_tail code conts last : ∀ code0 lines rest,
  (code < 1000)%N → code0 = None ∨ code0 = Some code → fits (lines ++ conts ++ [last]) →
  assemble (mid code0 lines false)
    (((λ l, code_digits code ++ lit "-" ++ l) <$> conts) ++ ((code_digits code ++ lit " " ++ last) :: rest))
    = Some (Ok {| re_code := code; re_lines := lines ++ conts ++ [last] |}, rest).
Proof.
  induction conts as [|c conts IH]; intros code0 lines rest Hc H0 Hf; cbn [fmap list_fmap app assemble].
  - pose proof (accumulate_last _ _ _ _ Hc H0 Hf) as Ha. destruct (accumulate _ _) as [r a]. cbn [fst] in Ha. by subst.
  - cbn [app] in Hf. rewrite (accumulate_continuation _ _ _ _ (conts ++ [last])) by done.
    rewrite (IH (Some code)); [by rewrite <-app_assoc|done|by right|by rewrite <-app_assoc].
Qed.

Lemma accumulate_block code lines block_line rest :
  fits (lines ++ block_line :: rest) → stuffed block_line ≠ lit "." →
  accumulate (mid (Some code) lines true) (stuffed block_line) = (Ok None, mid (Some code) (lines ++ [block_line]) true).
Proof.
  intros Hf Hd. unfold accumulate. cbn [acc_in_data_block mid]. unfold feed_data_line. cbn [acc_in_data_block negb].
  rewrite bool_decide_eq_false_2 by done.
  assert (match strip_prefix (lit "..") (stuffed block_line) with
          | Some _ => drop 1 (stuffed block_line) | None => stuffed block_line end = block_line) as ->.
  { unfold stuffed. change (lit ".") with [46%N]. change (lit "..") with [46%N; 46%N]. destruct block_line as [|c l]; [done|].
    cbn [strip_prefix]. destruct (N.eqb_spec 46 c) as [<-|Hne]; [done|].
    cbn [strip_prefix]. by rewrite (proj2 (N.eqb_neq 46 c)). }
  by rewrite (push_line_ok (mid (Some code) lines true) _ rest).
Qed.

Lemma stuffed_not_end l : stuffed l ≠ lit ".".
Proof.
  unfold stuffed. change (lit ".") with [46%N]. destruct l as [|c l]; [done|]. cbn [strip_prefix].
  destruct (N.eqb_spec 46 c) as [<-|Hne]; [by destruct l|]. congruence.
Qed.

Lemma assemble_block code block : ∀ lines rest tail,
  fits (lines ++ block ++ rest) →
  assemble (mid (Some code) lines true) ((stuffed <$> block) ++ (lit "." :: tail))
    = assemble (mid (Some code) (lines ++ block) false) tail.
Proof.
  induction block as [|l block IH]; intros lines rest tail Hf; cbn [fmap list_fmap app assemble].
  - by rewrite app_nil_r.
  - cbn [app] in Hf. rewrite (accumulate_block _ _ _ (block ++ rest)) by (done || apply stuffed_not_end).
    rewrite (IH _ rest) by (by rewrite <-app_assoc). by rewrite <-app_assoc.
Qed.

(** The accumulator reads a well-formed reply as what it says, and stops
    after it. *)
Lemma assemble_wire w rest :
  wire_ok w → assemble ReplyAccumulator_new (wire_lines w ++ rest) = Some (Ok (reply_of w), rest).
Proof.
  intros [Hc _ Hn Hb]. assert (Hf : fits (re_lines (reply_of w))) by done. clear Hn Hb. revert Hf.
  unfold wire_lines, reply_of. cbn [re_lines re_code]. destruct (w_block w) as [[first block]|]; intros Hf.
  - rewrite <-!app_assoc. cbn [app]. rewrite <-!app_assoc. cbn [assemble].
    assert (Ha : accumulate ReplyAccumulator_new (code_digits (w_code w) ++ lit "+" ++ first)
      = (Ok None, mid (Some (w_code w)) [first] true)).
    { unfold accumulate. cbn [acc_in_data_block ReplyAccumulator_new].
      change (lit "+" ++ first) with (43%N :: first). rewrite (parse_code _ _ LK_Data) by done.
      unfold feed_line. cbn [acc_code ReplyAccumulator_new cl_kind]. unfold begin_reply. cbn [cl_code cl_data cl_kind].
      by rewrite (push_line_ok (set_code (w_code w) ReplyAccumulator_new) first _ Hf). }
    rewrite Ha. cbn [app]. rewrite (assemble_block _ _ _ (w_lines w ++ [w_last w])) by done.
    rewrite assemble_tail; [|done|by right|by rewrite <-app_assoc]. by rewrite <-!app_assoc.
  - cbn [app]. rewrite <-!app_assoc. apply (assemble_tail _ _ _ None []); [done|by left|done].
Qed.

(** * Commands and their replies *)

Fixpoint run_commands (cmds : list rstring) (c : ControlClient) (reads : list ReadResult)
    : list (Result Reply ControlError) * ControlClient :=
  match cmds with
  | [] => ([], c)
  | cmd :: cmds =>
      let '(result, c, reads) := command cmd WR_Done c reads in
      let '(results, c) := run_commands cmds c reads in
      (result :: results, c)
  end.

(** A command without a line break. *)
Definition command_valid (cmd : rstring) : Prop :=
  existsb (λ ch, (ch =? 13)%N || (ch =? 10)%N) cmd = false.

(** A client between two commands. *)
Definition client_ready (c : ControlClient) : Prop :=
  cc_poisoned c = false ∧ lr_max (cc_reader c) = MAX_CONTROL_LINE_BYTES.

Lemma sum_brings chunks : read_bytes (brings chunks) = length (concat chunks).
Proof. unfold read_bytes. induction chunks as [|c chunks IH]; [done|].
  cbn. rewrite length_app. f_equal. apply IH. Qed.

Lemma length_lines lines : length lines <= length (flat_map line_bytes lines).
Proof.
  induction lines as [|l lines IH]; [done|]. cbn [flat_map length]. rewrite length_app.
  unfold line_bytes at 1. rewrite length_app. simpl. lia.
Qed.

Lemma command_reply cmd w c chunks more :
  command_valid cmd → wire_ok w → client_ready c → Forall (λ k, k ≠ []) chunks →
  remains (cc_reader c) chunks = wire_bytes w ++ more →
  ∃ c' chunks', command cmd WR_Done c (brings chunks) = (Ok (reply_of w), c', brings chunks') ∧
    remains (cc_reader c') chunks' = more ∧ client_ready c' ∧ Forall (λ k, k ≠ []) chunks' ∧
    cc_written c' = cc_written c ++ utf8 (cmd ++ [13%N; 10%N]).
Proof.
  intros Hv Hw [Hp Hm] Hc Hr. unfold command. rewrite Hp, Hv.
  pose proof (assemble_wire w [] Hw) as Ha. rewrite app_nil_r in Ha.
  edestruct (reply_loop_assembles (wire_lines w) (S (available (cc_reader c) (brings chunks)))
    ReplyAccumulator_new (cc_reader c) chunks more) as (r' & chunks' & Hl & Hr' & Hm' & Hc');
    [rewrite Hm; apply Hw|done|exact Hr|exact Ha| |].
  { unfold available. rewrite sum_brings, <-length_app. change (_ ++ concat chunks) with (remains (cc_reader c) chunks).
    rewrite Hr, length_app. pose proof (length_lines (wire_lines w)). unfold wire_bytes. lia. }
  rewrite Hl. eexists _, chunks'. split; [reflexivity|]. repeat split; [done|by cbn; rewrite Hm'|done].
Qed.

(** C33.  Every Tor command gets its own reply: however the socket cuts the bytes,
    and whether a reply is one line, several, or a data block with escaped lines, the
    commands return what the well-formed replies say, in order, and the client has
    written the commands and nothing else. *)
Theorem commands_in_order cmds ws chunks :
  Forall2 (λ cmd w, command_valid cmd ∧ wire_ok w) cmds ws →
  Forall (λ k, k ≠ []) chunks → concat chunks = flat_map wire_bytes ws →
  (run_commands cmds ControlClient_connected (brings chunks)).1 = (λ w, Ok (reply_of w)) <$> ws ∧
  cc_written (run_commands cmds ControlClient_connected (brings chunks)).2
    = flat_map (λ cmd, utf8 (cmd ++ [13%N; 10%N])) cmds.
Proof.
  intros Hall Hc He.
  assert (Hgen : ∀ c chunks, client_ready c → Forall (λ k, k ≠ []) chunks →
    remains (cc_reader c) chunks = flat_map wire_bytes ws →
    (run_commands cmds c (brings chunks)).1 = (λ w, Ok (reply_of w)) <$> ws ∧
    cc_written (run_commands cmds c (brings chunks)).2
      = cc_written c ++ flat_map (λ cmd, utf8 (cmd ++ [13%N; 10%N])) cmds).
  { clear chunks Hc He. induction Hall as [|cmd w cmds ws [Hv Hw] _ IH]; intros c chunks Hr Hc He; simpl.
    { by rewrite app_nil_r. }
    destruct (command_reply _ _ _ _ _ Hv Hw Hr Hc He) as (c' & chunks' & Hcmd & He' & Hr' & Hc' & Hwr).
    rewrite Hcmd. destruct (IH c' chunks' Hr' Hc' He') as [H1 H2].
    destruct (run_commands cmds c' (brings chunks')) as [results c'']. simpl in *. subst results.
    split; [done|]. by rewrite H2, Hwr, <-app_assoc. }
  by apply (Hgen ControlClient_connected).
Qed.

(** The loop reports no timeout of its own. *)
Lemma read_line_no_timeout reads buf max : (read_line reads buf max).1.1 ≠ LO_Error TC_CommandTimeout.
Proof.
  assert (Hf : ∀ b, finish_line b ≠ LO_Error TC_CommandTimeout).
  { intros b. unfold finish_line. by destruct (from_utf8 b). }
  revert buf. induction reads as [|[[|b bs]|] reads IH]; intros buf; cbn [read_line]; try done; [by destruct buf|].
  destruct (split_newline (b :: bs)) as [[]|]; destruct (_ <? _)%N; try done; apply Hf.
Qed.

Lemma next_line_no_timeout r reads : (next_line r reads).1.1 ≠ LO_Error TC_CommandTimeout.
Proof.
  unfold next_line. destruct (split_newline _) as [[before after]|]; [|apply read_line_no_timeout].
  unfold finish_line. by destruct (from_utf8 before).
Qed.

Lemma reply_loop_no_timeout fuel a r reads :
  (reply_loop fuel a r reads).1.1 ≠ Some (Err TC_CommandTimeout).
Proof.
  revert a r reads. induction fuel as [|fuel IH]; intros a r reads; cbn [reply_loop]; [done|].
  pose proof (next_line_no_timeout r reads) as Hn.
  destruct (next_line r reads) as [[[line| |e|] r'] reads']; try done; [|simpl in *; congruence].
  destruct (accumulate a line) as [[[reply|]|e] a']; [done|apply IH|done].
Qed.

(** After a timeout the connection is never used again: every command is
    refused, reads nothing and writes nothing. *)
Theorem timeout_poisons cmd write c reads c' reads' :
  command cmd write c reads = (Err TC_CommandTimeout, c', reads') →
  ∀ cmd' write' reads'', command cmd' write' c' reads'' = (Err TC_Desynchronized, c', reads'').
Proof.
  intros H cmd' write' reads''. assert (Hp : cc_poisoned c' = true); [|by unfold command; rewrite Hp].
  revert H. unfold command. destruct (cc_poisoned c) eqn:E; [done|]. destruct (existsb _ _); [done|].
  destruct write; [|done|by intros [= <- _]].
  pose proof (reply_loop_no_timeout (S (available (cc_reader c) reads)) ReplyAccumulator_new (cc_reader c) reads) as Hn.
  destruct (reply_loop _ _ _ _) as [[[result|] r] rs]; [|by intros [= <- _]].
  intros [= -> _ _]. done.
Qed.

(** ** Bounds *)

(** A read fills at most the scratch buffer. *)
Definition read_small (r : ReadResult) : Prop :=
  match r with RD_Bytes bs => length bs <= 512 | RD_Failed => True end.

(** What the reader holds. *)
Definition reader_bounded (r : LineReader) : Prop :=
  length (lr_pending r) < 512 ∧ (N.of_nat (length (lr_buf r)) <= lr_max r + 512)%N ∧ (512 <= lr_max r)%N.

Lemma split_newline_length bs before after :
  split_newline bs = Some (before, after) → length bs = length before + 1 + length after.
Proof.
  revert before. induction bs as [|b bs IH]; intros before; simpl; [done|].
  destruct (byte_val b =? 10)%N; [by intros [= <- <-]|]. destruct (split_newline bs) as [[x y]|]; [|done].
  simpl. intros [= <- <-]. simpl. rewrite (IH x eq_refl). lia.
Qed.

Lemma read_line_bounded reads buf max :
  Forall read_small reads → (N.of_nat (length buf) <= max)%N → (512 <= max)%N →
  reader_bounded (read_line reads buf max).1.2 ∧ lr_max (read_line reads buf max).1.2 = max ∧
  Forall read_small (read_line reads buf max).2.
Proof.
  intros Hr. revert buf. induction Hr as [|[bs|] reads Hb Hr IH]; intros buf Hbuf Hm; cbn [read_line].
  - unfold reader_bounded. simpl. split_and!; [lia..|done|done].
  - destruct bs as [|b bs]; [unfold reader_bounded; simpl; split_and!; [lia..|done|done]|].
    destruct (split_newline (b :: bs)) as [[x y]|] eqn:E.
    + apply split_newline_length in E. simpl in Hb, E.
      destruct (_ <? _)%N; unfold reader_bounded; simpl; rewrite length_app; split_and!; try done; lia.
    + destruct (N.ltb_spec max (N.of_nat (length (buf ++ b :: bs)))) as [Hl|Hl]; [|by apply IH].
      unfold reader_bounded. simpl in *. rewrite length_app in *. simpl in *. split_and!; try done; lia.
  - unfold reader_bounded. simpl. split_and!; [lia..|done|done].
Qed.

(** Memory is bounded: whatever the endpoint sends, the reader never holds
    more than a line of the limit and one read. *)
Theorem line_reader_bounded r reads :
  reader_bounded r → Forall read_small reads →
  reader_bounded (next_line r reads).1.2 ∧ lr_max (next_line r reads).1.2 = lr_max r ∧
  Forall read_small (next_line r reads).2.
Proof.
  intros (Hp & Hb & Hm) Hr. unfold next_line.
  destruct (split_newline (lr_pending r)) as [[x y]|] eqn:E; [|apply read_line_bounded; [done|lia|done]].
  apply split_newline_length in E. unfold reader_bounded. simpl. split_and!; try done; lia.
Qed.

(** ** Fuel *)

Lemma finish_line_line b line : finish_line b = LO_Line line → is_Some (from_utf8 b).
Proof. unfold finish_line. destruct (from_utf8 b); [by eexists|done]. Qed.

Lemma read_line_takes reads buf max line r' reads' :
  read_line reads buf max = (LO_Line line, r', reads') → available r' reads' < read_bytes reads.
Proof.
  revert buf. induction reads as [|[[|b bs]|] reads IH]; intros buf; cbn [read_line]; try done; [by destruct buf|].
  unfold available. destruct (split_newline (b :: bs)) as [[x y]|] eqn:E.
  - apply split_newline_length in E. destruct (_ <? _)%N; [done|]. intros [= _ <- <-].
    unfold read_bytes. simpl in *. lia.
  - destruct (_ <? _)%N; [done|]. intros H%IH. unfold available, read_bytes in *. simpl. lia.
Qed.

Lemma next_line_takes r reads line r' reads' :
  next_line r reads = (LO_Line line, r', reads') → available r' reads' < available r reads.
Proof.
  unfold next_line. destruct (split_newline (lr_pending r)) as [[x y]|] eqn:E.
  - apply split_newline_length in E. intros [= _ <- <-]. unfold available. simpl. lia.
  - intros H%read_line_takes. unfold available in *. lia.
Qed.

(** The bytes there are to read are fuel enough: more fuel changes
    nothing. *)
Lemma reply_loop_fuel fuel1 fuel2 a r reads :
  available r reads < fuel1 → available r reads < fuel2 →
  reply_loop fuel1 a r reads = reply_loop fuel2 a r reads.
Proof.
  revert fuel2 a r reads. induction fuel1 as [|fuel1 IH]; [lia|]. intros [|fuel2] a r reads H1 H2; [lia|].
  cbn [reply_loop]. destruct (next_line r reads) as [[[line| |e|] r'] reads'] eqn:E; try done.
  apply next_line_takes in E. destruct (accumulate a line) as [[[reply|]|e] a']; [done| |done].
  apply IH; lia.
Qed.

(** ** A reply that does not parse *)

(** What is left of a reply after an error is read as the next one: here
    the second command is answered by the end of the first command's
    reply. *)
Definition mixed_reply : list byte :=
  flat_map line_bytes [lit "250-one"; lit "251 two"; lit "250 stale"; lit "250 fresh"].

Lemma stale_reply_after_error :
  (run_commands [lit "A"; lit "B"] ControlClient_connected [RD_Bytes mixed_reply]).1
    = [Err (TC_Parser (TP_CodeMismatch 250 251)); Ok {| re_code := 250; re_lines := [lit "stale"] |}].
Proof. vm_compute. reflexivity. Qed.
