(* ===== verification/Socks.v ===== *)
(** [src/net/socks.rs]: the SOCKS5 handshake on a connected stream.

    The proxy is the bytes it sends before it closes, and whether it takes
    the two writes; the handshake returns its result, what it wrote and the
    bytes it left for the tunnel. Error values keep the kind and the data of
    the [io::Error], not its text. *)
From S2P Require Export Text.

Inductive SocksError :=
| SO_AddressTooLong
| SO_MethodRejected (greeting : list byte)
| SO_MalformedReply (header : list byte)
| SO_Refused (code : N)
| SO_UnknownAddressType (other : N)
| SO_UnexpectedEof
| SO_Io.

(** [read_exact]. *)
Definition read_exact (n : nat) (input : list byte) : option (list byte * list byte) :=
  if (length input <? n)%nat then None else Some (take n input, drop n input).

Definition byte_at (i : nat) (bs : list byte) : N := byte_val (nth i bs Byte.x00).

(** The CONNECT request. *)
Definition connect_request (onion_address : rstring) (port : u16) : list byte :=
  map byte_of [0x05; 0x01; 0x00; 0x03; str_len onion_address]%N ++ utf8 onion_address ++ be_bytes 2 port.

Definition greeting_request : list byte := map byte_of [0x05; 0x01; 0x00]%N.

(** How much of the reply follows its header, and what is left after the
    length byte of a domain name. *)
Definition reply_tail (address_type : N) (input : list byte) : Result (nat * list byte) SocksError :=
  if (address_type =? 0x01)%N then Ok (4 + 2, input)%nat
  else if (address_type =? 0x03)%N then
    match read_exact 1 input with
    | None => Err SO_UnexpectedEof
    | Some (len, input) => Ok (N.to_nat (byte_at 0 len) + 2, input)%nat
    end
  else if (address_type =? 0x04)%N then Ok (16 + 2, input)%nat
  else Err (SO_UnknownAddressType address_type).

(** After the request: the reply. *)
Definition read_reply (input : list byte) : Result (list byte) SocksError :=
  match read_exact 4 input with
  | None => Err SO_UnexpectedEof
  | Some (header, input) =>
      if negb (byte_at 0 header =? 0x05)%N then Err (SO_MalformedReply header)
      else if negb (byte_at 1 header =? 0x00)%N then Err (SO_Refused (byte_at 1 header))
      else match reply_tail (byte_at 3 header) input with
           | Err e => Err e
           | Ok (tail, input) =>
               match read_exact tail input with
               | None => Err SO_UnexpectedEof
               | Some (_, input) => Ok input
               end
           end
  end.

(** What was written, and the bytes left for the tunnel or the error. *)
Definition socks_handshake (onion_address : rstring) (port : u16) (takes : bool * bool) (input : list byte)
    : Result (list byte) SocksError * list byte :=
  if (255 <? str_len onion_address)%N then (Err SO_AddressTooLong, [])
  else if negb takes.1 then (Err SO_Io, [])
  else match read_exact 2 input with
       | None => (Err SO_UnexpectedEof, greeting_request)
       | Some (greeting, input) =>
           if negb (bool_decide (greeting = map byte_of [0x05; 0x00]%N))
           then (Err (SO_MethodRejected greeting), greeting_request)
           else if negb takes.2 then (Err SO_Io, greeting_request)
           else (read_reply input, greeting_request ++ connect_request onion_address port)
       end.

(** * Correctness *)

(** The bound address of a reply, by its type. *)
Inductive BoundAddress := BA_V4 (bytes : list byte) | BA_Domain (bytes : list byte) | BA_V6 (bytes : list byte).

Definition bound_ok (b : BoundAddress) : Prop :=
  match b with
  | BA_V4 bs => length bs = 4%nat
  | BA_V6 bs => length bs = 16%nat
  | BA_Domain bs => length bs < 256
  end.

Definition bound_type (b : BoundAddress) : N :=
  match b with BA_V4 _ => 1 | BA_Domain _ => 3 | BA_V6 _ => 4 end.

Definition bound_bytes (b : BoundAddress) : list byte :=
  match b with
  | BA_V4 bs | BA_V6 bs => bs
  | BA_Domain bs => byte_of (N.of_nat (length bs)) :: bs
  end.

(** What RFC 1928 has a proxy answer: the method, and a reply with its code,
    its bound address and its port. *)
Definition proxy_bytes (reserved : byte) (b : BoundAddress) (port : list byte) (code : N) : list byte :=
  map byte_of [0x05; 0x00]%N ++ [byte_of 5; byte_of code; reserved; byte_of (bound_type b)] ++ bound_bytes b ++ port.

(** A proxy's reading of a CONNECT to a name. *)
Definition read_request (input : list byte) : option (list byte * N) :=
  '(head, input) ← read_exact 5 input;
  if bool_decide (take 4 head = map byte_of [0x05; 0x01; 0x00; 0x03]%N) then
    '(name, input) ← read_exact (N.to_nat (byte_at 4 head)) input;
    '(port, input) ← read_exact 2 input;
    match input with [] => Some (name, be_value port) | _ => None end
  else None.

Lemma read_exact_app n a b : length a = n → read_exact n (a ++ b) = Some (a, b).
Proof.
  intros <-. unfold read_exact. rewrite (proj2 (Nat.ltb_ge _ _)) by (rewrite length_app; lia).
  by rewrite take_app_length, drop_app_length.
Qed.

Lemma read_exact_Some n input a b : read_exact n input = Some (a, b) → input = a ++ b ∧ length a = n.
Proof.
  unfold read_exact. destruct (Nat.ltb_spec (length input) n); [done|]. intros [= <- <-].
  split; [by rewrite take_drop|]. rewrite length_take. lia.
Qed.

Lemma byte_of_small v : (v < 256)%N → byte_val (byte_of v) = v.
Proof. apply byte_val_small. Qed.

(** The tail of a reply is exactly its bound address and port. *)
Lemma reply_tail_bound b port rest :
  bound_ok b → length port = 2%nat →
  ∃ tail input, reply_tail (bound_type b) (bound_bytes b ++ port ++ rest) = Ok (tail, input) ∧
    read_exact tail input = Some (match b with BA_V4 bs | BA_Domain bs | BA_V6 bs => bs end ++ port, rest).
Proof.
  intros Hb Hp. destruct b as [bs|bs|bs]; cbn [bound_ok bound_bytes bound_type] in *; unfold reply_tail.
  - eexists _, _. split; [done|]. rewrite app_assoc. apply read_exact_app. rewrite length_app. lia.
  - cbn. rewrite drop_0. eexists _, _. split; [done|]. rewrite app_assoc. apply read_exact_app.
    rewrite length_app. unfold byte_at. cbn [nth]. rewrite byte_of_small by lia. lia.
  - eexists _, _. split; [done|]. rewrite app_assoc. apply read_exact_app. rewrite length_app. lia.
Qed.

(** A handshake with a conforming proxy writes the greeting and a request that
    names exactly the address and the port, succeeds exactly when the reply's code is
    zero, and leaves the tunnel's bytes, all of them and nothing else, whatever address
    the proxy reports. *)
Theorem socks_transparent onion_address port reserved b bport code tunnel :
  (str_len onion_address <= 255)%N → (port < 65536)%N → bound_ok b → length bport = 2%nat → (code < 256)%N →
  let '(result, written) :=
    socks_handshake onion_address port (true, true) (proxy_bytes reserved b bport code ++ tunnel) in
  (∃ request, written = greeting_request ++ request ∧ read_request request = Some (utf8 onion_address, port)) ∧
  result = if (code =? 0)%N then Ok tunnel else Err (SO_Refused code).
Proof.
  intros Ha Hport Hb Hbp Hcode. unfold socks_handshake. rewrite (proj2 (N.ltb_ge _ _)) by done. cbn [fst snd negb].
  unfold proxy_bytes. rewrite <-!app_assoc, read_exact_app by done. rewrite bool_decide_eq_true_2 by done. cbn [negb].
  split.
  - eexists. split; [done|]. unfold read_request, connect_request. rewrite read_exact_app by done.
    cbn [mbind option_bind]. rewrite bool_decide_eq_true_2 by done. unfold byte_at. cbn [nth map].
    unfold str_len in *. rewrite byte_of_small by lia. rewrite read_exact_app by lia. cbn [mbind option_bind].
    rewrite <-(app_nil_r (be_bytes 2 port)), read_exact_app by (by rewrite length_be_bytes). cbn [mbind option_bind].
    by rewrite be_value_bytes_small.
  - unfold read_reply. rewrite (read_exact_app 4 [_; _; _; _]) by done. unfold byte_at. cbn [nth].
    rewrite (byte_of_small 5), (byte_of_small code) by done. cbn [negb N.eqb Pos.eqb].
    destruct (N.eqb_spec code 0) as [->|]; [|done]. cbn [negb].
    rewrite byte_of_small by (by destruct b).
    destruct (reply_tail_bound b bport tunnel Hb Hbp) as (tail & input & -> & ->). done.
Qed.

Lemma reply_tail_consumes t input tail input' :
  reply_tail t input = Ok (tail, input') →
  (t = 1 ∨ t = 3 ∨ t = 4)%N ∧ ∃ len, input = len ++ input'.
Proof.
  unfold reply_tail. destruct (N.eqb_spec t 1); [intros [= <- <-]; split; [lia|by exists []]|].
  destruct (N.eqb_spec t 3).
  { destruct (read_exact 1 input) as [[len rest]|] eqn:E; [|done]. intros [= <- <-].
    apply read_exact_Some in E as [-> _]. split; [lia|by exists len]. }
  destruct (N.eqb_spec t 4); [intros [= <- <-]; split; [lia|by exists []]|done].
Qed.

(** A tunnel is opened only for a proxy that chose no authentication and
    answered version 5 with code zero, and it starts within what the proxy
    sent, after that answer. *)
Theorem socks_needs_success onion_address port takes input rest written :
  socks_handshake onion_address port takes input = (Ok rest, written) →
  ∃ reserved address_type reply, input = map byte_of [0x05; 0x00]%N
    ++ [byte_of 5; byte_of 0; reserved; byte_of address_type] ++ reply ++ rest
  ∧ (address_type = 1 ∨ address_type = 3 ∨ address_type = 4)%N.
Proof.
  unfold socks_handshake. destruct (_ <? _)%N; [done|]. destruct takes as [[] []]; cbn [fst snd negb]; [| |done..];
    destruct (read_exact 2 input) as [[greeting input1]|] eqn:E1; try done;
    destruct (bool_decide_reflect (greeting = map byte_of [0x05; 0x00]%N)) as [->|]; try done; cbn [negb].
  unfold read_reply. destruct (read_exact 4 input1) as [[header input2]|] eqn:E2; [|done].
  destruct (N.eqb_spec (byte_at 0 header) 5) as [H0|]; [|done].
  destruct (N.eqb_spec (byte_at 1 header) 0) as [H1|]; [|done]. cbn [negb].
  destruct (reply_tail (byte_at 3 header) input2) as [[tail input3]|] eqn:Et; [|done].
  destruct (read_exact tail input3) as [[bound input4]|] eqn:E3; [|done]. intros [= -> _].
  apply read_exact_Some in E1 as [-> _], E2 as [-> Hl], E3 as [-> _].
  apply reply_tail_consumes in Et as [Ht [len ->]].
  destruct header as [|b0 [|b1 [|b2 [|b3 [|]]]]]; try done. unfold byte_at in *. cbn [nth] in *.
  exists b2, (byte_val b3), (len ++ bound). split; [|done].
  by rewrite <-H0, <-H1, !byte_of_val, <-!app_assoc.
Qed.
