(* ===== verification/Input.v ===== *)
(** [src/ui/input.rs] and [src/ui/sanitize.rs]: the editable fields of the
    terminal and the scrubbing of displayed text.

    A [TextField] keeps a [String] and a cursor in bytes; slicing a string
    off a character boundary panics, so the operations are partial
    ([None]). [field_refines] shows that they never are: a field is a zipper
    of characters. A [SecretField] keeps the bytes of its characters. *)
From S2P Require Export Limits StrOps.

(** * Strings by byte index *)

Definition char_len (c : N) : N := N.of_nat (length (utf8_char c)).

(** [&s[..n]] and [&s[n..]]; [None] off a boundary or out of range. *)
Fixpoint split_bytes (n : N) (s : rstring) : option (rstring * rstring) :=
  if (n =? 0)%N then Some ([], s) else
  match s with
  | [] => None
  | c :: s =>
      if (n <? char_len c)%N then None
      else '(l, r) ← split_bytes (n - char_len c) s; Some (c :: l, r)
  end.

(** [String::insert] and [String::drain]. *)
Definition string_insert (i : N) (ch : N) (s : rstring) : option rstring :=
  '(l, r) ← split_bytes i s; Some (l ++ ch :: r).

Definition string_drain (i j : N) (s : rstring) : option rstring :=
  '(l, _) ← split_bytes i s; '(_, r) ← split_bytes j s; if (i <=? j)%N then Some (l ++ r) else None.

(** [char_indices().next_back()]: the index of the last character. *)
Fixpoint last_index (s : rstring) : option N :=
  match s with
  | [] => None
  | c :: s => Some match last_index s with Some i => char_len c + i | None => 0 end%N
  end.

(** [char_indices().nth(1)]: the index of the second character. *)
Definition second_index (s : rstring) : option N :=
  match s with c :: _ :: _ => Some (char_len c) | _ => None end.

(** * Text fields *)

Record TextField := { tf_text : rstring; tf_cursor : usize; tf_max_bytes : usize; tf_complete : bool }.

Definition TextField_new (max_bytes : usize) : TextField :=
  {| tf_text := []; tf_cursor := 0; tf_max_bytes := max_bytes; tf_complete := false |}.

Definition tf_set (text : rstring) (cursor : usize) (f : TextField) : TextField :=
  {| tf_text := text; tf_cursor := cursor; tf_max_bytes := tf_max_bytes f; tf_complete := tf_complete f |}.

Definition tf_insert_char (ch : N) (f : TextField) : option (bool * TextField) :=
  if tf_complete f || is_unsafe_display_char ch then Some (false, f)
  else if (tf_max_bytes f <? str_len (tf_text f) + char_len ch)%N then Some (false, f)
  else
    text ← string_insert (tf_cursor f) ch (tf_text f);
    Some (true, tf_set text (tf_cursor f + char_len ch)%N f).

Fixpoint tf_insert_text (text : rstring) (f : TextField) : option TextField :=
  match text with
  | [] => Some f
  | ch :: text => '(_, f) ← tf_insert_char ch f; tf_insert_text text f
  end.

Definition tf_backspace (f : TextField) : option TextField :=
  if tf_complete f || (tf_cursor f =? 0)%N then Some f else
  '(before, _) ← split_bytes (tf_cursor f) (tf_text f);
  let prev := default 0%N (last_index before) in
  text ← string_drain prev (tf_cursor f) (tf_text f);
  Some (tf_set text prev f).

Definition tf_delete (f : TextField) : option TextField :=
  if tf_complete f || (str_len (tf_text f) <=? tf_cursor f)%N then Some f else
  '(_, after) ← split_bytes (tf_cursor f) (tf_text f);
  let next := match second_index after with
              | Some index => (tf_cursor f + index)%N
              | None => str_len (tf_text f)
              end in
  text ← string_drain (tf_cursor f) next (tf_text f);
  Some (tf_set text (tf_cursor f) f).

Definition tf_move_left (f : TextField) : option TextField :=
  if tf_complete f || (tf_cursor f =? 0)%N then Some f else
  '(before, _) ← split_bytes (tf_cursor f) (tf_text f);
  Some (tf_set (tf_text f) (default 0%N (last_index before)) f).

Definition tf_move_right (f : TextField) : option TextField :=
  if tf_complete f || (str_len (tf_text f) <=? tf_cursor f)%N then Some f else
  '(_, after) ← split_bytes (tf_cursor f) (tf_text f);
  Some (tf_set (tf_text f) match second_index after with
                           | Some index => (tf_cursor f + index)%N
                           | None => str_len (tf_text f)
                           end f).

Definition tf_move_home (f : TextField) : TextField :=
  if tf_complete f then f else tf_set (tf_text f) 0 f.

Definition tf_move_end (f : TextField) : TextField :=
  if tf_complete f then f else tf_set (tf_text f) (str_len (tf_text f)) f.

Definition tf_clear (f : TextField) : TextField := TextField_new (tf_max_bytes f).

Definition tf_reopen (f : TextField) : TextField :=
  {| tf_text := tf_text f; tf_cursor := str_len (tf_text f); tf_max_bytes := tf_max_bytes f; tf_complete := false |}.

(** [Some] is [Submit::Value]; [Submit::Cancel] is never produced here. *)
Definition tf_submit (f : TextField) : option rstring * TextField :=
  if tf_complete f then (None, f)
  else if negb (non_empty (tf_text f)) then (None, f)
  else (Some (tf_text f), {| tf_text := tf_text f; tf_cursor := tf_cursor f;
                             tf_max_bytes := tf_max_bytes f; tf_complete := true |}).

(** ** The edits of a user *)

Inductive Edit :=
| ED_Insert (ch : N)
| ED_Paste (text : rstring)
| ED_Backspace
| ED_Delete
| ED_Left
| ED_Right
| ED_Home
| ED_End
| ED_Clear
| ED_Reopen
| ED_Submit.

Definition tf_edit (e : Edit) (f : TextField) : option TextField :=
  match e with
  | ED_Insert ch => snd <$> tf_insert_char ch f
  | ED_Paste text => tf_insert_text text f
  | ED_Backspace => tf_backspace f
  | ED_Delete => tf_delete f
  | ED_Left => tf_move_left f
  | ED_Right => tf_move_right f
  | ED_Home => Some (tf_move_home f)
  | ED_End => Some (tf_move_end f)
  | ED_Clear => Some (tf_clear f)
  | ED_Reopen => Some (tf_reopen f)
  | ED_Submit => Some (tf_submit f).2
  end.

Fixpoint tf_edits (es : list Edit) (f : TextField) : option TextField :=
  match es with
  | [] => Some f
  | e :: es => f ← tf_edit e f; tf_edits es f
  end.

(** ** The specification: characters around a cursor *)

Record Line := { ln_before : rstring; ln_after : rstring; ln_done : bool }.

Definition Line_new : Line := {| ln_before := []; ln_after := []; ln_done := false |}.

Definition line_insert (max : usize) (l : Line) (ch : N) : Line :=
  if ln_done l || is_unsafe_display_char ch
     || (max <? str_len (ln_before l ++ ln_after l) + char_len ch)%N then l
  else {| ln_before := ln_before l ++ [ch]; ln_after := ln_after l; ln_done := false |}.

Definition line_edit (max : usize) (e : Edit) (l : Line) : Line :=
  let text := ln_before l ++ ln_after l in
  let moved before after := {| ln_before := before; ln_after := after; ln_done := false |} in
  match e with
  | ED_Insert ch => line_insert max l ch
  | ED_Paste text => foldl (line_insert max) l text
  | ED_Clear => Line_new
  | ED_Reopen => moved text []
  | _ =>
      if ln_done l then l else
      match e with
      | ED_Backspace => moved (removelast (ln_before l)) (ln_after l)
      | ED_Delete => moved (ln_before l) (tail (ln_after l))
      | ED_Left => match list.last (ln_before l) with
                   | Some c => moved (removelast (ln_before l)) (c :: ln_after l)
                   | None => l
                   end
      | ED_Right => match ln_after l with
                    | c :: after => moved (ln_before l ++ [c]) after
                    | [] => l
                    end
      | ED_Home => moved [] text
      | ED_End => moved text []
      | ED_Submit => {| ln_before := ln_before l; ln_after := ln_after l; ln_done := non_empty text |}
      | _ => l
      end
  end.

(** A field shows a line. *)
Record shows (f : TextField) (l : Line) : Prop := {
  sh_text : tf_text f = ln_before l ++ ln_after l;
  sh_cursor : tf_cursor f = str_len (ln_before l);
  sh_done : tf_complete f = ln_done l;
}.

Lemma char_len_pos c : (0 < char_len c)%N.
Proof. unfold char_len, utf8_char. repeat case_match; simpl; lia. Qed.

Lemma str_len_cons c s : str_len (c :: s) = (char_len c + str_len s)%N.
Proof. unfold str_len, char_len, utf8. cbn [flat_map]. rewrite length_app. lia. Qed.

Lemma str_len_single c : str_len [c] = char_len c.
Proof. rewrite str_len_cons. change (str_len []) with 0%N. lia. Qed.

Lemma str_len_app s t : str_len (s ++ t) = (str_len s + str_len t)%N.
Proof. unfold str_len, utf8. rewrite flat_map_app, length_app. lia. Qed.

Lemma split_bytes_app l r : split_bytes (str_len l) (l ++ r) = Some (l, r).
Proof.
  induction l as [|c l IH]; [by destruct r|]. rewrite str_len_cons. pose proof (char_len_pos c).
  cbn [app split_bytes]. rewrite (proj2 (N.eqb_neq _ _)) by lia. rewrite (proj2 (N.ltb_ge _ _)) by lia.
  rewrite N.add_comm, N.add_sub. by rewrite IH.
Qed.

Lemma last_index_snoc s c : last_index (s ++ [c]) = Some (str_len s).
Proof. induction s as [|d s IH]; [done|]. cbn [app last_index]. by rewrite IH, str_len_cons. Qed.

Lemma str_len_zero s : str_len s = 0%N → s = [].
Proof. destruct s as [|c s]; [done|]. rewrite str_len_cons. pose proof (char_len_pos c). lia. Qed.

Lemma str_len_snoc_nz s c : (str_len (s ++ [c]) =? 0)%N = false.
Proof. apply N.eqb_neq. rewrite str_len_app, str_len_cons. pose proof (char_len_pos c). lia. Qed.

Lemma string_drain_app l m r :
  string_drain (str_len l) (str_len l + str_len m) (l ++ m ++ r) = Some (l ++ r).
Proof.
  unfold string_drain. rewrite split_bytes_app. cbn [mbind option_bind].
  rewrite <-str_len_app, (app_assoc l m r), split_bytes_app. cbn [mbind option_bind].
  by rewrite (proj2 (N.leb_le _ _)) by (rewrite str_len_app; lia).
Qed.

(** Where the next character starts. *)
Lemma next_index before c after :
  match second_index (c :: after) with
  | Some index => (str_len before + index)%N
  | None => str_len (before ++ c :: after)
  end = (str_len before + str_len [c])%N.
Proof. destruct after as [|d after]; cbn [second_index]; by rewrite ?str_len_app, str_len_single. Qed.

Lemma not_at_end before c after :
  (str_len (before ++ c :: after) <=? str_len before)%N = false.
Proof. apply N.leb_gt. rewrite str_len_app, str_len_cons. pose proof (char_len_pos c). lia. Qed.

Lemma insert_shows f l ch :
  shows f l → ∃ b f', tf_insert_char ch f = Some (b, f') ∧ shows f' (line_insert (tf_max_bytes f) l ch) ∧
    tf_max_bytes f' = tf_max_bytes f.
Proof.
  intros [Ht Hc Hd]. unfold tf_insert_char, line_insert. rewrite Hd, Ht.
  destruct (ln_done l || is_unsafe_display_char ch) eqn:Eb; [by eexists _, _|]. cbn [orb].
  apply orb_false_iff in Eb as [Eb _].
  destruct (_ <? _)%N; [by eexists _, _|]. unfold string_insert. rewrite Hc, split_bytes_app. cbn [mbind option_bind].
  eexists _, _. split; [done|]. split; [|done]. constructor; simpl; [by rewrite <-app_assoc| |by rewrite Hd].
  by rewrite str_len_app, str_len_single.
Qed.

Lemma paste_shows text : ∀ f l,
  shows f l → ∃ f', tf_insert_text text f = Some f' ∧ shows f' (foldl (line_insert (tf_max_bytes f)) l text) ∧
    tf_max_bytes f' = tf_max_bytes f.
Proof.
  induction text as [|ch text IH]; intros f l Hs; [by exists f|].
  destruct (insert_shows f l ch Hs) as (b & f1 & Hi & Hs1 & Hm). cbn [tf_insert_text foldl]. rewrite Hi.
  cbn [mbind option_bind]. destruct (IH f1 _ Hs1) as (f2 & Ht & Hs2 & Hm2).
  exists f2. rewrite Hm in Hs2, Hm2. by split_and!.
Qed.

Lemma exists_snoc (s : rstring) : s = [] ∨ ∃ t c, s = t ++ [c].
Proof. destruct s as [|t c] using rev_ind; [by left|]. right. eauto. Qed.

Lemma edit_shows e f l :
  shows f l → ∃ f', tf_edit e f = Some f' ∧ shows f' (line_edit (tf_max_bytes f) e l) ∧
    tf_max_bytes f' = tf_max_bytes f.
Proof.
  intros Hs. pose proof Hs as [Ht Hc Hd].
  destruct e as [ch|text| | | | | | | | |]; cbn [tf_edit line_edit].
  - destruct (insert_shows f l ch Hs) as (b & f1 & -> & H1 & H2). by exists f1.
  - by apply paste_shows.
  - unfold tf_backspace. rewrite Hd, Hc. destruct (ln_done l) eqn:Ed; [by exists f|]. cbn [orb].
    destruct (exists_snoc (ln_before l)) as [Eb|(b & c & Eb)]; rewrite Eb in *.
    { exists f. split; [done|]. split; [|done]. by constructor. }
    rewrite str_len_snoc_nz, Ht, split_bytes_app. cbn [mbind option_bind]. rewrite last_index_snoc. cbn [from_option id].
    rewrite str_len_app, <-app_assoc, string_drain_app. cbn [mbind option_bind].
    eexists. split; [done|]. split; [|done]. constructor; cbn [tf_set tf_text tf_cursor tf_complete ln_before ln_after ln_done];
      by rewrite ?removelast_last.
  - unfold tf_delete. rewrite Hd, Hc. destruct (ln_done l) eqn:Ed; [by exists f|]. cbn [orb]. rewrite Ht.
    destruct (ln_after l) as [|c after] eqn:Ea.
    { rewrite app_nil_r, N.leb_refl. exists f. split; [done|]. split; [|done]. constructor; simpl; [by rewrite Ht|done..]. }
    rewrite not_at_end, split_bytes_app. cbn [mbind option_bind]. rewrite next_index.
    change (c :: after) with ([c] ++ after). rewrite string_drain_app. cbn [mbind option_bind].
    eexists. split; [done|]. split; [|done]. by constructor.
  - unfold tf_move_left. rewrite Hd, Hc. destruct (ln_done l) eqn:Ed; [by exists f|]. cbn [orb].
    destruct (exists_snoc (ln_before l)) as [Eb|(b & c & Eb)]; rewrite Eb in *.
    { exists f. split; [done|]. split; [|done]. cbn. constructor; congruence. }
    rewrite str_len_snoc_nz, Ht, split_bytes_app. cbn [mbind option_bind]. rewrite last_index_snoc, last_snoc. cbn [from_option id].
    eexists. split; [done|]. split; [|done]. constructor; cbn [tf_set tf_text tf_cursor tf_complete ln_before ln_after ln_done];
      rewrite ?removelast_last, <-?app_assoc; done.
  - unfold tf_move_right. rewrite Hd, Hc. destruct (ln_done l) eqn:Ed; [by exists f|]. cbn [orb]. rewrite Ht.
    destruct (ln_after l) as [|c after] eqn:Ea.
    { rewrite app_nil_r, N.leb_refl. exists f. split; [done|]. split; [|done]. constructor; congruence. }
    rewrite not_at_end, split_bytes_app. cbn [mbind option_bind]. rewrite next_index, <-str_len_app.
    eexists. split; [done|]. split; [|done]. constructor; cbn [tf_set tf_text tf_cursor tf_complete ln_before ln_after ln_done];
      rewrite <-?app_assoc; done.
  - exists (tf_move_home f). unfold tf_move_home. rewrite Hd. destruct (ln_done l) eqn:Ed; (split; [done|]; split; [|done]);
      [done|]. by constructor.
  - exists (tf_move_end f). unfold tf_move_end. rewrite Hd. destruct (ln_done l) eqn:Ed; (split; [done|]; split; [|done]);
      [done|]. constructor; cbn [tf_set tf_text tf_cursor tf_complete ln_before ln_after ln_done];
      rewrite ?app_nil_r; congruence.
  - exists (tf_clear f). by split; [|split].
  - exists (tf_reopen f). split; [done|]. split; [|done]. constructor; simpl; rewrite ?app_nil_r; congruence.
  - exists (tf_submit f).2. unfold tf_submit. rewrite Hd. destruct (ln_done l) eqn:Ed; (split; [done|]); [done|].
    rewrite <-Ht. destruct (non_empty (tf_text f)); (split; [|done]); by constructor.
Qed.

(** What a line never holds. *)
Definition line_ok (max : usize) (l : Line) : Prop :=
  (str_len (ln_before l ++ ln_after l) <= max)%N ∧ contains_control_char (ln_before l ++ ln_after l) = false.

(** Dropping characters keeps it. *)
Lemma line_ok_drop max s c t :
  (str_len (s ++ c :: t) <= max)%N ∧ contains_control_char (s ++ c :: t) = false →
  (str_len (s ++ t) <= max)%N ∧ contains_control_char (s ++ t) = false.
Proof.
  unfold contains_control_char. rewrite !str_len_app, str_len_cons, !existsb_app. cbn [existsb].
  rewrite !orb_false_iff. intros [H1 (H2 & _ & H3)]. split; [lia|done].
Qed.

Lemma insert_line_ok max l ch : line_ok max l → line_ok max (line_insert max l ch).
Proof.
  unfold line_insert. intros Hok. destruct (_ || _) eqn:E; [done|].
  apply orb_false_iff in E as [[_ Hch]%orb_false_iff Hlen%N.ltb_ge].
  destruct Hok as [_ Hc]. unfold line_ok, contains_control_char in *. cbn [ln_before ln_after].
  rewrite <-app_assoc, !existsb_app in *. cbn [existsb app] in *. rewrite Hch.
  rewrite str_len_app in *. rewrite str_len_cons. split; [lia|]. done.
Qed.

Lemma edit_line_ok max e l : line_ok max l → line_ok max (line_edit max e l).
Proof.
  intros Hok. destruct e as [ch|text| | | | | | | | |]; cbn [line_edit].
  - by apply insert_line_ok.
  - revert l Hok. induction text as [|ch text IH]; [done|]. intros l Hok. apply IH. by apply insert_line_ok.
  - destruct (ln_done l); [done|]. unfold line_ok in *. cbn [ln_before ln_after].
    destruct (exists_snoc (ln_before l)) as [E|(b & c & E)]; rewrite E in *; [done|].
    rewrite removelast_last. rewrite <-app_assoc in Hok. by eapply line_ok_drop.
  - destruct (ln_done l); [done|]. unfold line_ok in *. cbn [ln_before ln_after].
    destruct (ln_after l) as [|c after]; [done|]. by eapply line_ok_drop.
  - destruct (ln_done l); [done|]. unfold line_ok in *. cbn [ln_before ln_after].
    destruct (exists_snoc (ln_before l)) as [E|(b & c & E)]; rewrite E in *; [by simpl; rewrite E|].
    rewrite last_snoc. cbn [ln_before ln_after]. rewrite removelast_last. by rewrite <-app_assoc in Hok.
  - destruct (ln_done l); [done|]. unfold line_ok in *. cbn [ln_before ln_after].
    destruct (ln_after l) as [|c after] eqn:E; [by rewrite E|]. cbn [ln_before ln_after]. by rewrite <-app_assoc.
  - by destruct (ln_done l).
  - unfold line_ok in *. destruct (ln_done l); [done|]. cbn [ln_before ln_after]. by rewrite app_nil_r.
  - by split; [apply N.le_0_l|].
  - unfold line_ok in *. cbn [ln_before ln_after]. by rewrite app_nil_r.
  - by destruct (ln_done l).
Qed.

(** A text field is a line of characters with a cursor: no sequence of keys
    and pasted texts makes its byte cursor leave a character boundary, so editing never
    panics, and the text stays within the byte limit and free of unsafe characters. *)
Theorem field_refines max es :
  ∃ f, tf_edits es (TextField_new max) = Some f ∧
    let l := foldl (λ l e, line_edit max e l) Line_new es in
    shows f l ∧ line_ok max l.
Proof.
  assert (H : ∀ f l, tf_max_bytes f = max → shows f l → line_ok max l →
    ∃ f', tf_edits es f = Some f' ∧ let l' := foldl (λ l e, line_edit max e l) l es in
      shows f' l' ∧ line_ok max l').
  { induction es as [|e es IH]; intros f l Hm Hs Hok; [by exists f|]. cbn [tf_edits foldl].
    destruct (edit_shows e f l Hs) as (f1 & -> & Hs1 & Hm1). rewrite Hm in *. cbn [mbind option_bind].
    apply IH; [done..|by apply edit_line_ok]. }
  apply H; [done|by constructor|]. by split; [apply N.le_0_l|].
Qed.

(** * Secret fields *)

Record SecretField := { sf_bytes : list byte; sf_max_bytes : usize; sf_complete : bool }.

Definition SecretField_new (max_bytes : usize) : SecretField :=
  {| sf_bytes := []; sf_max_bytes := max_bytes; sf_complete := false |}.

Definition sf_set (bytes : list byte) (f : SecretField) : SecretField :=
  {| sf_bytes := bytes; sf_max_bytes := sf_max_bytes f; sf_complete := sf_complete f |}.

Definition sf_push_char (ch : N) (f : SecretField) : bool * SecretField :=
  if sf_complete f || is_unsafe_display_char ch then (false, f)
  else if (sf_max_bytes f <? N.of_nat (length (sf_bytes f)) + char_len ch)%N then (false, f)
  else (true, sf_set (sf_bytes f ++ utf8_char ch) f).

Definition sf_push_text (text : rstring) (f : SecretField) : SecretField :=
  foldl (λ f ch, (sf_push_char ch f).2) f text.

(** [byte & 0b1100_0000 == 0b1000_0000]. *)
Definition is_continuation (b : byte) : bool := (N.land (byte_val b) 0xC0 =? 0x80)%N.

(** [iter().rev().take_while(..).count()]. *)
Fixpoint count_while (p : byte → bool) (bs : list byte) : nat :=
  match bs with b :: bs => if p b then S (count_while p bs) else O | [] => O end.

(** The subtraction underflows, and panics, on continuation bytes alone. *)
Definition sf_pop (f : SecretField) : option SecretField :=
  match sf_bytes f with
  | [] => Some f
  | _ =>
      if sf_complete f then Some f else
      let last_char_start := count_while is_continuation (reverse (sf_bytes f)) in
      let len := length (sf_bytes f) in
      if (len <? last_char_start + 1)%nat then None
      else Some (sf_set (take (len - last_char_start - 1) (sf_bytes f)) f)
  end.

Definition sf_clear (f : SecretField) : SecretField := SecretField_new (sf_max_bytes f).

Definition sf_submit (f : SecretField) : option (list byte) * SecretField :=
  if sf_complete f then (None, f)
  else match sf_bytes f with
       | [] => (None, f)
       | bytes => (Some bytes, {| sf_bytes := []; sf_max_bytes := sf_max_bytes f; sf_complete := true |})
       end.

(** The number of bullets. *)
Definition sf_masked (f : SecretField) : nat :=
  length (List.filter (λ b, negb (is_continuation b)) (sf_bytes f)).

Definition sf_take_value (f : SecretField) : option (list byte) * SecretField :=
  if sf_complete f then (Some (sf_bytes f), sf_set [] f) else (None, f).

Definition sf_as_bytes (f : SecretField) : option (list byte) :=
  if sf_complete f then Some (sf_bytes f) else None.

(** * Displayed text *)

Definition sanitize_for_display (input : rstring) : rstring :=
  flat_map (λ ch, if is_unsafe_display_char ch
                  then if (ch =? 9)%N || (ch =? 10)%N || (ch =? 13)%N then [32%N] else []
                  else [ch]) input.

(** Nothing unsafe reaches the terminal, safe text is shown as it is, and
    scrubbing twice changes nothing. *)
Theorem sanitized_safe s :
  contains_control_char (sanitize_for_display s) = false ∧
  (contains_control_char s = false → sanitize_for_display s = s) ∧
  sanitize_for_display (sanitize_for_display s) = sanitize_for_display s.
Proof.
  assert (Hsafe : ∀ s, contains_control_char (sanitize_for_display s) = false).
  { clear s. intros s. unfold contains_control_char, sanitize_for_display.
    induction s as [|c s IH]; [done|]. cbn [flat_map]. rewrite existsb_app, IH, orb_false_r.
    destruct (is_unsafe_display_char c) eqn:E; [|by cbn; rewrite E].
    by destruct (_ || _). }
  assert (Hid : ∀ s, contains_control_char s = false → sanitize_for_display s = s).
  { clear s. intros s. unfold contains_control_char, sanitize_for_display.
    induction s as [|c s IH]; [done|]. cbn [existsb flat_map]. intros [Hc Hs]%orb_false_iff.
    rewrite Hc. cbn [app]. f_equal. by apply IH. }
  split; [done|]. split; [apply Hid|]. by apply Hid.
Qed.

(** ** A secret field is its characters *)

Lemma is_continuation_range b : is_continuation b = is_cont (byte_val b).
Proof. by destruct b. Qed.

Lemma utf8_char_shape c :
  is_scalar c = true →
  ∃ lead rest, utf8_char c = lead :: rest ∧ is_continuation lead = false ∧
    Forall (λ b, is_continuation b = true) rest.
Proof.
  assert (Hc : ∀ v, (v < 64)%N → is_continuation (byte_of (0x80 + v)) = true).
  { intros v Hv. rewrite is_continuation_range, byte_val_small by lia. apply in_range_true. lia. }
  assert (Hl : ∀ v, (v < 0x80)%N ∨ (0xC0 <= v < 256)%N → is_continuation (byte_of v) = false).
  { intros v Hv. rewrite is_continuation_range, byte_val_small by lia. unfold is_cont, in_range.
    rewrite andb_false_iff, !N.leb_gt. lia. }
  assert (Hm : ∀ v, (v mod 64 < 64)%N) by (intros v; by apply N.mod_lt).
  intros Hs%is_scalar_spec. unfold utf8_char.
  destruct (N.ltb_spec c 0x80); [eexists _, _; split; [done|]; split; [apply Hl; lia|constructor]|].
  destruct (N.ltb_spec c 0x800); [|destruct (N.ltb_spec c 0x10000)];
    (eexists _, _; split; [done|]; split; [apply Hl; right; div_lia|]; repeat constructor; apply Hc, Hm).
Qed.

(** A secret field holds the characters [s]. *)
Record holds (f : SecretField) (s : rstring) : Prop := {
  ho_bytes : sf_bytes f = utf8 s;
  ho_chars : Forall (λ c, is_scalar c = true) s;
}.

Lemma count_while_app p a b :
  Forall (λ x, p x = true) a → count_while p (a ++ b) = (length a + count_while p b)%nat.
Proof. induction 1 as [|x a Hx _ IH]; [done|]. simpl. by rewrite Hx, IH. Qed.

Lemma pop_holds f s c :
  holds f (s ++ [c]) → sf_complete f = false → ∃ f', sf_pop f = Some f' ∧ holds f' s.
Proof.
  intros [Hb Hs] Hf. apply list.Forall_app in Hs as [Hs [Hc _]%list.Forall_cons].
  destruct (utf8_char_shape c Hc) as (lead & rest & Eu & Hl & Hr).
  assert (Eb : sf_bytes f = utf8 s ++ lead :: rest).
  { rewrite Hb. unfold utf8. rewrite flat_map_app. cbn [flat_map]. by rewrite Eu, app_nil_r. }
  unfold sf_pop. rewrite Eb, Hf.
  assert (Hcount : count_while is_continuation (reverse (utf8 s ++ lead :: rest)) = length rest).
  { rewrite reverse_app, reverse_cons, <-app_assoc, count_while_app, length_reverse by (by apply Forall_reverse).
    simpl. rewrite Hl. lia. }
  rewrite Hcount. rewrite (proj2 (Nat.ltb_ge _ _)) by (rewrite length_app; simpl; lia).
  replace (length (utf8 s ++ lead :: rest) - length rest - 1) with (length (utf8 s))
    by (rewrite length_app; simpl; lia).
  rewrite take_app_length. exists (sf_set (utf8 s) f).
  split; [by destruct (utf8 s)|]. by constructor.
Qed.

Lemma masked_holds f s : holds f s → sf_masked f = length s.
Proof.
  intros [Hb Hs]. unfold sf_masked. rewrite Hb. clear Hb. induction Hs as [|c s Hc _ IH]; [done|].
  unfold utf8. cbn [flat_map]. rewrite List.filter_app, length_app. fold (utf8 s). rewrite IH.
  destruct (utf8_char_shape c Hc) as (lead & rest & -> & Hl & Hr). cbn [List.filter]. rewrite Hl. cbn [negb length].
  assert (List.filter (λ b, negb (is_continuation b)) rest = []) as ->; [|simpl; lia].
  induction Hr as [|b rest Hb _ IHr]; [done|]. simpl. by rewrite Hb.
Qed.

Inductive SecretEdit := SE_Push (ch : N) | SE_Paste (text : rstring) | SE_Pop | SE_Clear.

Definition sf_edit (e : SecretEdit) (f : SecretField) : option SecretField :=
  match e with
  | SE_Push ch => Some (sf_push_char ch f).2
  | SE_Paste text => Some (sf_push_text text f)
  | SE_Pop => sf_pop f
  | SE_Clear => Some (sf_clear f)
  end.

(** The characters typed are characters. *)
Definition edit_chars (e : SecretEdit) : rstring :=
  match e with SE_Push ch => [ch] | SE_Paste text => text | _ => [] end.

Definition secret_insert (max : usize) (s : rstring) (ch : N) : rstring :=
  if is_unsafe_display_char ch || (max <? str_len s + char_len ch)%N then s else s ++ [ch].

Definition secret_edit (max : usize) (e : SecretEdit) (s : rstring) : rstring :=
  match e with
  | SE_Push ch => secret_insert max s ch
  | SE_Paste text => foldl (secret_insert max) s text
  | SE_Pop => removelast s
  | SE_Clear => []
  end.

Fixpoint sf_edits (es : list SecretEdit) (f : SecretField) : option SecretField :=
  match es with [] => Some f | e :: es => f ← sf_edit e f; sf_edits es f end.

Lemma push_holds f s ch :
  holds f s → is_scalar ch = true → sf_complete f = false →
  holds (sf_push_char ch f).2 (secret_insert (sf_max_bytes f) s ch) ∧
  sf_max_bytes (sf_push_char ch f).2 = sf_max_bytes f ∧ sf_complete (sf_push_char ch f).2 = false.
Proof.
  intros [Hb Hs] Hch Hf. unfold sf_push_char, secret_insert. rewrite Hf, Hb. cbn [orb]. fold (str_len s).
  destruct (is_unsafe_display_char ch); [done|]. cbn [orb]. destruct (_ <? _)%N; [done|].
  split; [|done]. constructor; simpl.
  - unfold utf8. rewrite flat_map_app. cbn [flat_map]. by rewrite app_nil_r.
  - apply list.Forall_app. split; [done|]. by constructor.
Qed.

Lemma secret_insert_len max s ch : (str_len s <= max)%N → (str_len (secret_insert max s ch) <= max)%N.
Proof.
  intros Hl. unfold secret_insert. destruct (_ || _) eqn:E; [done|].
  apply orb_false_iff in E as [_ Hlen%N.ltb_ge]. by rewrite str_len_app, str_len_single.
Qed.

Lemma secret_edit_holds max e f s :
  Forall (λ c, is_scalar c = true) (edit_chars e) → sf_max_bytes f = max → sf_complete f = false → holds f s →
  (str_len s <= max)%N →
  ∃ f1, sf_edit e f = Some f1 ∧ sf_max_bytes f1 = max ∧ sf_complete f1 = false ∧
    holds f1 (secret_edit max e s) ∧ (str_len (secret_edit max e s) <= max)%N.
Proof.
  intros He Hm Hf Hh Hl. destruct e as [ch|text| |]; cbn [sf_edit secret_edit edit_chars] in *.
  - apply list.Forall_cons in He as [Hch _]. destruct (push_holds f s ch Hh Hch Hf) as (H1 & H2 & H3).
    rewrite Hm in *. eexists. split; [done|]. by split_and!; [..|apply secret_insert_len].
  - exists (sf_push_text text f). split; [done|]. unfold sf_push_text. revert f s Hm Hf Hh Hl.
    induction He as [|ch text Hch _ IH]; intros f s Hm Hf Hh Hl; [done|]. cbn [foldl].
    destruct (push_holds f s ch Hh Hch Hf) as (H1 & H2 & H3). rewrite Hm in *.
    by apply IH; [..|apply secret_insert_len].
  - destruct (exists_snoc s) as [->|(t & c & ->)].
    + exists f. unfold sf_pop. by rewrite (ho_bytes _ _ Hh).
    + destruct (pop_holds f t c Hh Hf) as (f1 & Hp & Hh1). exists f1. rewrite removelast_last.
      rewrite str_len_app in Hl. split_and!; [done|..|done|lia]; revert Hp; unfold sf_pop; rewrite Hf;
        destruct (sf_bytes f); try (intros [= <-]; done); case_match; [done|by intros [= <-]..].
  - exists (sf_clear f). split_and!; [done..|by constructor|apply N.le_0_l].
Qed.

(** Typing a password never panics, and the field holds the bytes of the
    characters that are left: the last one is what [pop] removes, whatever
    its width, the display has one bullet for each, and submitting hands out
    exactly their UTF-8 and leaves nothing behind. *)
Theorem secret_refines max es :
  Forall (λ e, Forall (λ c, is_scalar c = true) (edit_chars e)) es →
  ∃ f, sf_edits es (SecretField_new max) = Some f ∧
    let s := foldl (λ s e, secret_edit max e s) [] es in
    holds f s ∧ sf_masked f = length s ∧ (str_len s <= max)%N ∧
    (s ≠ [] → (sf_submit f).1 = Some (utf8 s) ∧ sf_bytes (sf_submit f).2 = []).
Proof.
  intros Hes.
  assert (H : ∀ f s, sf_max_bytes f = max → sf_complete f = false → holds f s → (str_len s <= max)%N →
    ∃ f', sf_edits es f = Some f' ∧ sf_complete f' = false ∧
      let s' := foldl (λ s e, secret_edit max e s) s es in holds f' s' ∧ (str_len s' <= max)%N).
  { induction Hes as [|e es He _ IH]; intros f s Hm Hf Hh Hl; [by exists f|]. cbn [sf_edits foldl].
    assert (Hstep : ∃ f1, sf_edit e f = Some f1 ∧ sf_max_bytes f1 = max ∧ sf_complete f1 = false ∧
      holds f1 (secret_edit max e s) ∧ (str_len (secret_edit max e s) <= max)%N) by (by apply secret_edit_holds).
    destruct Hstep as (f1 & -> & Hm1 & Hf1 & Hh1 & Hl1). cbn [mbind option_bind]. by apply IH. }
  destruct (H (SecretField_new max) [] eq_refl eq_refl) as (f & Hrun & Hf & Hh & Hl); [by constructor|apply N.le_0_l|].
  exists f. split; [done|]. split; [done|]. split; [by apply masked_holds|]. split; [done|].
  intros Hne. unfold sf_submit. rewrite Hf, (ho_bytes _ _ Hh).
  assert (utf8 (foldl (λ s e, secret_edit max e s) [] es) ≠ []) as Hu.
  { intros E. apply Hne, str_len_zero. unfold str_len. by rewrite E. }
  by destruct (utf8 _).
Qed.
