(* ===== verification/Ids.v ===== *)
(** Wire identifiers and the state tables: [src/protocol/ids.rs],
    [src/state.rs], the join policy of [src/admission/mod.rs] and the color
    palette of [src/command.rs]. *)
From S2P Require Export Prelude.

Inductive MessageType :=
| MT_HostHello
| MT_ClientHello
| MT_TokenVerify
| MT_PasswordChallenge
| MT_ChallengeProof
| MT_JoinRequest
| MT_JoinAccepted
| MT_JoinRejected
| MT_MemberJoined
| MT_MemberLeft
| MT_MemberKicked
| MT_JoinPolicyChanged
| MT_MemberSnapshot
| MT_ChatMessage
| MT_ColorChange
| MT_TimeoutRequest
| MT_TimeoutChanged
| MT_EpochWrap
| MT_EpochAck
| MT_Keepalive
| MT_Error
| MT_Shutdown.

#[export] Instance MessageType_eq_dec : EqDecision MessageType.
Proof. solve_decision. Defined.

Definition MessageType_from_u8 (id : u8) : option MessageType :=
  match id with
  | 0x01 => Some MT_HostHello
  | 0x02 => Some MT_ClientHello
  | 0x03 => Some MT_TokenVerify
  | 0x04 => Some MT_PasswordChallenge
  | 0x05 => Some MT_ChallengeProof
  | 0x06 => Some MT_JoinRequest
  | 0x07 => Some MT_JoinAccepted
  | 0x08 => Some MT_JoinRejected
  | 0x20 => Some MT_MemberJoined
  | 0x21 => Some MT_MemberLeft
  | 0x22 => Some MT_MemberKicked
  | 0x23 => Some MT_JoinPolicyChanged
  | 0x24 => Some MT_MemberSnapshot
  | 0x40 => Some MT_ChatMessage
  | 0x41 => Some MT_ColorChange
  | 0x42 => Some MT_TimeoutRequest
  | 0x43 => Some MT_TimeoutChanged
  | 0x60 => Some MT_EpochWrap
  | 0x61 => Some MT_EpochAck
  | 0x80 => Some MT_Keepalive
  | 0x81 => Some MT_Error
  | 0x82 => Some MT_Shutdown
  | _ => None
  end%N.

Definition MessageType_as_u8 (self : MessageType) : u8 :=
  match self with
  | MT_HostHello => 0x01
  | MT_ClientHello => 0x02
  | MT_TokenVerify => 0x03
  | MT_PasswordChallenge => 0x04
  | MT_ChallengeProof => 0x05
  | MT_JoinRequest => 0x06
  | MT_JoinAccepted => 0x07
  | MT_JoinRejected => 0x08
  | MT_MemberJoined => 0x20
  | MT_MemberLeft => 0x21
  | MT_MemberKicked => 0x22
  | MT_JoinPolicyChanged => 0x23
  | MT_MemberSnapshot => 0x24
  | MT_ChatMessage => 0x40
  | MT_ColorChange => 0x41
  | MT_TimeoutRequest => 0x42
  | MT_TimeoutChanged => 0x43
  | MT_EpochWrap => 0x60
  | MT_EpochAck => 0x61
  | MT_Keepalive => 0x80
  | MT_Error => 0x81
  | MT_Shutdown => 0x82
  end%N.

Inductive MessageClass :=
| MC_Handshake | MC_Authentication | MC_Join | MC_Membership | MC_Chat
| MC_Epoch | MC_Control.

#[export] Instance MessageClass_eq_dec : EqDecision MessageClass.
Proof. solve_decision. Defined.

Definition MessageType_class (self : MessageType) : MessageClass :=
  match self with
  | MT_HostHello | MT_ClientHello => MC_Handshake
  | MT_TokenVerify | MT_PasswordChallenge | MT_ChallengeProof => MC_Authentication
  | MT_JoinRequest | MT_JoinAccepted | MT_JoinRejected => MC_Join
  | MT_MemberJoined | MT_MemberLeft | MT_MemberKicked | MT_JoinPolicyChanged
  | MT_MemberSnapshot => MC_Membership
  | MT_ChatMessage | MT_ColorChange | MT_TimeoutRequest | MT_TimeoutChanged => MC_Chat
  | MT_EpochWrap | MT_EpochAck => MC_Epoch
  | MT_Keepalive | MT_Error | MT_Shutdown => MC_Control
  end.

Inductive ErrorCode :=
| EC_ProtocolViolation
| EC_UnsupportedVersion
| EC_InvalidInvitation
| EC_RoomLocked
| EC_InvalidPasswordProof
| EC_ConnectionTimeout
| EC_RoomClosed
| EC_RateLimited
| EC_Internal.

#[export] Instance ErrorCode_eq_dec : EqDecision ErrorCode.
Proof. solve_decision. Defined.

Definition ErrorCode_from_u8 (code : u8) : option ErrorCode :=
  match code with
  | 1 => Some EC_ProtocolViolation
  | 2 => Some EC_UnsupportedVersion
  | 3 => Some EC_InvalidInvitation
  | 4 => Some EC_RoomLocked
  | 5 => Some EC_InvalidPasswordProof
  | 6 => Some EC_ConnectionTimeout
  | 7 => Some EC_RoomClosed
  | 8 => Some EC_RateLimited
  | 9 => Some EC_Internal
  | _ => None
  end%N.

Definition ErrorCode_is_recoverable (self : ErrorCode) : bool :=
  match self with EC_RateLimited => true | _ => false end.

Definition ErrorCode_as_u8 (self : ErrorCode) : u8 :=
  match self with
  | EC_ProtocolViolation => 1
  | EC_UnsupportedVersion => 2
  | EC_InvalidInvitation => 3
  | EC_RoomLocked => 4
  | EC_InvalidPasswordProof => 5
  | EC_ConnectionTimeout => 6
  | EC_RoomClosed => 7
  | EC_RateLimited => 8
  | EC_Internal => 9
  end%N.

(** * Connection and room states *)

Inductive ConnectionState :=
| CS_Disconnected | CS_TorConnecting | CS_ProtocolHandshake | CS_PreAuth
| CS_PasswordVerified | CS_JoinPending | CS_Active | CS_Closing.

Inductive RoomState :=
| RS_Creating | RS_Open | RS_Locked | RS_EpochTransition | RS_InviteRotating
| RS_Closing | RS_Destroyed.

#[export] Instance ConnectionState_eq_dec : EqDecision ConnectionState.
Proof. solve_decision. Defined.
#[export] Instance RoomState_eq_dec : EqDecision RoomState.
Proof. solve_decision. Defined.

(** [ConnectionState::accepts]: the message classes legal in each state. *)
Definition ConnectionState_accepts (self : ConnectionState) (class : MessageClass) : bool :=
  match self, class with
  | CS_ProtocolHandshake, (MC_Handshake | MC_Control)
  | CS_PreAuth, (MC_Authentication | MC_Control)
  | CS_PasswordVerified, (MC_Join | MC_Control)
  | CS_JoinPending, MC_Control
  | CS_Active, (MC_Membership | MC_Chat | MC_Epoch | MC_Control)
  | CS_Closing, MC_Control => true
  | _, _ => false
  end.

Definition RoomState_accepts_join_requests (self : RoomState) : bool :=
  match self with RS_Open => true | _ => false end.

Inductive JoinPolicy := JP_Open | JP_Locked.

#[export] Instance JoinPolicy_eq_dec : EqDecision JoinPolicy.
Proof. solve_decision. Defined.

Definition allows_join_requests (self : JoinPolicy) : bool :=
  match self with JP_Open => true | JP_Locked => false end.

(** * Colors *)

Inductive ColorChoice := Red | Green | Yellow | Blue | Magenta | Cyan | White.

#[export] Instance ColorChoice_eq_dec : EqDecision ColorChoice.
Proof. solve_decision. Defined.

Definition ColorChoice_default : ColorChoice := White.

Definition ColorChoice_ALL : list ColorChoice :=
  [Red; Green; Yellow; Blue; Magenta; Cyan; White].

Definition ColorChoice_as_index (self : ColorChoice) : u8 :=
  match self with
  | Red => 0 | Green => 1 | Yellow => 2 | Blue => 3 | Magenta => 4
  | Cyan => 5 | White => 6
  end%N.

Definition ColorChoice_from_index (index : u8) : option ColorChoice :=
  match index with
  | 0 => Some Red | 1 => Some Green | 2 => Some Yellow | 3 => Some Blue
  | 4 => Some Magenta | 5 => Some Cyan | 6 => Some White
  | _ => None
  end%N.

(** * Registries *)

Lemma MessageType_from_as_u8 t : MessageType_from_u8 (MessageType_as_u8 t) = Some t.
Proof. by destruct t. Qed.

Lemma MessageType_as_from_u8 id t :
  MessageType_from_u8 id = Some t → MessageType_as_u8 t = id.
Proof.
  unfold MessageType_from_u8. intros H.
  repeat (case_match; simplify_eq; try reflexivity).
Qed.

Lemma MessageType_as_u8_bounds t : (0 < MessageType_as_u8 t < 256)%N.
Proof. destruct t; simpl; lia. Qed.

(** The wire ids of message types, error codes and colors are bijective with
    their enumerations: an id is never shared and a foreign id is refused. *)
Theorem registry_roundtrip :
  (∀ id t, MessageType_from_u8 id = Some t ↔ MessageType_as_u8 t = id) ∧
  (∀ code e, ErrorCode_from_u8 code = Some e ↔ ErrorCode_as_u8 e = code) ∧
  (∀ i c, ColorChoice_from_index i = Some c ↔ ColorChoice_as_index c = i).
Proof.
  split_and!; intros x y; (split; [|intros <-; by destruct y]).
  - apply MessageType_as_from_u8.
  - unfold ErrorCode_from_u8. intros H. repeat (case_match; simplify_eq; try reflexivity).
  - unfold ColorChoice_from_index. intros H. repeat (case_match; simplify_eq; try reflexivity).
Qed.

(** A connection accepts no application message before the socket is up;
    control messages are legal from the handshake on; each later class belongs to
    exactly one stage of admission. *)
Theorem accepts_spec s c :
  ConnectionState_accepts s c = true ↔
  match c with
  | MC_Control => s ≠ CS_Disconnected ∧ s ≠ CS_TorConnecting
  | MC_Handshake => s = CS_ProtocolHandshake
  | MC_Authentication => s = CS_PreAuth
  | MC_Join => s = CS_PasswordVerified
  | MC_Membership | MC_Chat | MC_Epoch => s = CS_Active
  end.
Proof. destruct s, c; simpl; naive_solver. Qed.
