(* ===== verification/Validation.v ===== *)
(** [src/validation.rs]: nicknames, introductions and chat text.

    [validate_nickname] normalizes with NFC (the [unicode-normalization]
    crate, the interface [Nfc]), rejects unsafe characters and collapses
    spaces; its theorems describe the accepted nicknames. *)
From S2P Require Export Text Limits.

(** * Validation *)

(** [ValidationError] of [src/error.rs]. *)
Inductive ValidationError :=
| EmptyNickname
| ControlCharacterNotAllowed
| NicknameTooLong (max : usize)
| ExoticWhitespaceNotAllowed
| NotSingleLine
| IntroTooLong (max : usize)
| ChatTextTooLong (max_bytes : usize).

(** [str::split(' ')]. *)
Fixpoint split_spaces (s : rstring) : list rstring :=
  match s with
  | [] => [[]]
  | c :: s =>
      if (c =? 32)%N then [] :: split_spaces s
      else match split_spaces s with
           | [] => [[c]]
           | w :: ws => (c :: w) :: ws
           end
  end.

(** The body of the [for word in ...] loop. *)
Definition push_word (out word : rstring) : rstring :=
  (if non_empty out then out ++ [32%N] else out) ++ word.

Definition collapse_spaces (input : rstring) : rstring :=
  foldl push_word [] (List.filter non_empty (split_spaces input)).

(** The NFC normalization of [unicode-normalization]. *)
Class Nfc := nfc : rstring → rstring.

Section validate.
Context `{Nfc}.

Definition validate_nickname (input : rstring) (limits : Limits)
    : Result rstring ValidationError :=
  if negb (non_empty input) then Err EmptyNickname else
  let composed := nfc input in
  if contains_control_char composed then Err ControlCharacterNotAllowed else
  if existsb (λ ch, is_whitespace ch && negb (ch =? 32)%N) composed
  then Err ExoticWhitespaceNotAllowed else
  let normalized := collapse_spaces composed in
  if negb (non_empty normalized) then Err EmptyNickname else
  if (max_nickname_scalars limits <? N.of_nat (length normalized))%N
  then Err (NicknameTooLong (max_nickname_scalars limits))
  else Ok normalized.
End validate.

Definition validate_intro (input : rstring) (limits : Limits)
    : Result unit ValidationError :=
  if negb (non_empty input) then Ok tt else
  if existsb (λ ch, (ch =? 10)%N || (ch =? 13)%N) input then Err NotSingleLine else
  if contains_control_char input then Err ControlCharacterNotAllowed else
  if (max_intro_scalars limits <? N.of_nat (length input))%N
  then Err (IntroTooLong (max_intro_scalars limits))
  else Ok tt.

Definition validate_chat_text (input : rstring) (limits : Limits)
    : Result unit ValidationError :=
  if contains_control_char input then Err ControlCharacterNotAllowed else
  if (max_chat_text_bytes limits <? str_len input)%N
  then Err (ChatTextTooLong (max_chat_text_bytes limits))
  else Ok tt.

(** * Words *)

(** The space-separated words of a string; a nickname is determined by
    them. *)
Definition words (s : rstring) : list rstring := List.filter non_empty (split_spaces s).

Definition no_space (w : rstring) : Prop := Forall (λ c, c ≠ 32%N) w.

Definition join_words (ws : list rstring) : rstring :=
  match ws with [] => [] | w :: ws => w ++ flat_map (cons 32%N) ws end.

Lemma non_empty_true s : non_empty s = true ↔ s ≠ [].
Proof. destruct s; naive_solver. Qed.

Lemma split_spaces_no_space s : Forall no_space (split_spaces s).
Proof.
  induction s as [|c s IH]; simpl; [repeat constructor|].
  destruct (N.eqb_spec c 32); [by repeat constructor|].
  destruct (split_spaces s) as [|w ws]; [by repeat constructor|].
  apply list.Forall_cons in IH as [? ?]. constructor; [by constructor|done].
Qed.

Lemma split_spaces_not_nil s : split_spaces s ≠ [].
Proof. destruct s as [|c s]; simpl; [done|]. destruct (c =? 32)%N; [done|]. by destruct (split_spaces s). Qed.

Lemma split_spaces_word w : no_space w → split_spaces w = [w].
Proof.
  induction 1 as [|c w Hc Hw IH]; simpl; [done|].
  rewrite (proj2 (N.eqb_neq _ _) Hc). by rewrite IH.
Qed.

Lemma split_spaces_app w s :
  no_space w → split_spaces (w ++ 32%N :: s) = w :: split_spaces s.
Proof.
  induction 1 as [|c w Hc Hw IH]; simpl; [done|].
  rewrite (proj2 (N.eqb_neq _ _) Hc). by rewrite IH.
Qed.

Lemma split_spaces_join w ws :
  Forall no_space (w :: ws) → split_spaces (join_words (w :: ws)) = w :: ws.
Proof.
  revert w. induction ws as [|v ws IH]; intros w [Hw Hws]%list.Forall_cons; simpl.
  - rewrite app_nil_r. by apply split_spaces_word.
  - rewrite split_spaces_app by done. f_equal. by apply (IH v).
Qed.

Lemma words_spec s : Forall (λ w, no_space w ∧ w ≠ []) (words s).
Proof.
  pose proof (split_spaces_no_space s) as H. unfold words.
  induction H as [|w ws Hw _ IH]; simpl; [constructor|].
  destruct (non_empty w) eqn:E; [|done].
  constructor; [|done]. split; [done|]. by apply non_empty_true.
Qed.

Lemma foldl_push_word out ws :
  out ≠ [] → foldl push_word out ws = out ++ flat_map (cons 32%N) ws.
Proof.
  revert out. induction ws as [|w ws IH]; intros out Ho; simpl; [by rewrite app_nil_r|].
  assert (push_word out w = out ++ 32%N :: w) as ->.
  { unfold push_word. rewrite (proj2 (non_empty_true _) Ho). by rewrite <-app_assoc. }
  rewrite IH by (by destruct out). by rewrite <-app_assoc.
Qed.

Lemma collapse_spaces_join s : collapse_spaces s = join_words (words s).
Proof.
  unfold collapse_spaces. fold (words s).
  pose proof (words_spec s) as H. destruct (words s) as [|w ws]; [done|].
  apply list.Forall_cons in H as [[_ Hw] _]. simpl.
  by apply foldl_push_word.
Qed.

Lemma filter_non_empty ws :
  Forall (λ w, no_space w ∧ w ≠ []) ws → List.filter non_empty ws = ws.
Proof.
  induction 1 as [|w ws [_ Hw] _ IH]; simpl; [done|].
  rewrite (proj2 (non_empty_true _) Hw). by rewrite IH.
Qed.

(** Collapsing keeps the words and nothing else. *)
Lemma words_collapse s : words (collapse_spaces s) = words s.
Proof.
  rewrite collapse_spaces_join. pose proof (words_spec s) as H.
  destruct (words s) as [|w ws] eqn:E; [done|].
  unfold words. rewrite split_spaces_join.
  - by apply filter_non_empty.
  - eapply list.Forall_impl; [exact H|]. naive_solver.
Qed.

Lemma collapse_spaces_idemp s : collapse_spaces (collapse_spaces s) = collapse_spaces s.
Proof.
  rewrite (collapse_spaces_join (collapse_spaces s)), words_collapse.
  symmetry. apply collapse_spaces_join.
Qed.

Lemma join_words_elem c ws : c ∈ join_words ws → c = 32%N ∨ ∃ w, w ∈ ws ∧ c ∈ w.
Proof.
  destruct ws as [|w ws]; simpl; [by intros ?%elem_of_nil|].
  intros [Hw|Hc]%elem_of_app; [right; exists w; split; [by apply elem_of_cons; left|done]|].
  induction ws as [|v ws IH]; simpl in Hc; [by apply elem_of_nil in Hc|].
  apply elem_of_cons in Hc as [->|[Hv|Hc]%elem_of_app].
  - by left.
  - right. exists v. split; [|done]. apply elem_of_cons. right. apply elem_of_cons. by left.
  - destruct (IH Hc) as [?|(u & Hu & ?)]; [by left|]. right. exists u. split; [|done].
    apply elem_of_cons in Hu as [->|Hu]; apply elem_of_cons; [by left|right].
    apply elem_of_cons. by right.
Qed.

Lemma split_spaces_elem c w s : w ∈ split_spaces s → c ∈ w → c ∈ s.
Proof.
  revert w. induction s as [|d s IH]; simpl; intros w Hw Hc;
    [by apply list_elem_of_singleton in Hw as ->|].
  destruct (d =? 32)%N.
  - apply elem_of_cons in Hw as [->|Hw]; [by apply elem_of_nil in Hc|].
    apply elem_of_cons. right. by eapply IH.
  - destruct (split_spaces s) as [|v vs].
    + apply list_elem_of_singleton in Hw as ->.
      apply list_elem_of_singleton in Hc as ->. apply elem_of_cons. by left.
    + apply elem_of_cons in Hw as [->|Hw]; apply elem_of_cons.
      * apply elem_of_cons in Hc as [->|Hc]; [by left|right].
        apply (IH v); [apply elem_of_cons; by left|done].
      * right. apply (IH w); [apply elem_of_cons; by right|done].
Qed.

Lemma collapse_spaces_elem c s : c ∈ collapse_spaces s → c = 32%N ∨ c ∈ s.
Proof.
  rewrite collapse_spaces_join. intros [?|(w & Hw & Hc)]%join_words_elem; [by left|].
  right. unfold words in Hw. rewrite list_elem_of_In in Hw.
  apply List.filter_In in Hw as [Hw%list_elem_of_In _]. by eapply split_spaces_elem.
Qed.

Lemma existsb_false {A} (p : A → bool) l :
  existsb p l = false ↔ ∀ x, x ∈ l → p x = false.
Proof.
  induction l as [|y l IH]; simpl; [set_solver|].
  rewrite orb_false_iff, IH. set_solver.
Qed.

(** * Accepted nicknames *)

(** What the member table and the terminal rely on: a nickname is non-empty,
    within the limit, shows no control or format character, has no
    whitespace but single inner spaces, and is the join of its words. *)
Definition nickname_ok (limits : Limits) (n : rstring) : Prop :=
  n ≠ [] ∧ (N.of_nat (length n) <= max_nickname_scalars limits)%N ∧
  contains_control_char n = false ∧
  (∀ c, c ∈ n → is_whitespace c = true → c = 32%N) ∧
  n = join_words (words n).

Section validate_facts.
Context `{Nfc}.

(** A nickname passes exactly when its NFC form is free of unsafe
    characters and exotic whitespace and its words, joined by single
    spaces, are non-empty and short enough; the result is that join. *)
Lemma validate_nickname_iff input limits n :
  validate_nickname input limits = Ok n ↔
  input ≠ [] ∧ contains_control_char (nfc input) = false ∧
  (∀ c, c ∈ nfc input → is_whitespace c = true → c = 32%N) ∧
  n = join_words (words (nfc input)) ∧ nickname_ok limits n.
Proof.
  unfold validate_nickname. rewrite collapse_spaces_join.
  set (j := join_words (words (nfc input))).
  assert (Hj : words (nfc input) = words j).
  { unfold j. by rewrite <-collapse_spaces_join, words_collapse. }
  assert (Hsub : ∀ c, c ∈ j → c = 32%N ∨ c ∈ nfc input).
  { intros c. unfold j. rewrite <-collapse_spaces_join. apply collapse_spaces_elem. }
  destruct (non_empty input) eqn:E1; simpl; [apply non_empty_true in E1|destruct input; naive_solver].
  destruct (contains_control_char (nfc input)) eqn:E2; [naive_solver|].
  destruct (existsb _ (nfc input)) eqn:E3.
  { split; [done|]. intros (_ & _ & Hws & _). apply existsb_exists in E3 as (c & Hc & Hb).
    apply andb_true_iff in Hb as [Hb1 Hb2]. apply list_elem_of_In in Hc.
    rewrite (Hws c Hc Hb1) in Hb2. done. }
  rewrite existsb_false in E3.
  assert (Hws : ∀ c, c ∈ nfc input → is_whitespace c = true → c = 32%N).
  { intros c Hc Hb. specialize (E3 c Hc). rewrite Hb in E3. simpl in E3.
    destruct (N.eqb_spec c 32); done. }
  destruct (non_empty j) eqn:E4; simpl; [apply non_empty_true in E4|].
  2:{ split; [done|]. intros (_ & _ & _ & -> & Hn & _). destruct j; done. }
  destruct (N.ltb_spec (max_nickname_scalars limits) (N.of_nat (length j))).
  { split; [done|]. intros (_ & _ & _ & -> & _ & Hl & _). lia. }
  split; [|naive_solver]. intros [= <-]. split_and!; [done..|].
  split_and!; [done|done| | |by rewrite <-Hj].
  - apply existsb_false. intros c [->|Hc]%Hsub; [done|].
    unfold contains_control_char in E2. rewrite existsb_false in E2. by apply E2.
  - intros c [->|Hc]%Hsub; auto.
Qed.

(** A nickname is accepted exactly when its normal form has no control
    character and no whitespace but spaces and its words, joined by single spaces, form
    a well-formed nickname, which is then the result; two accepted inputs give one
    nickname exactly when they have the same words. *)
Theorem validate_nickname_spec input limits n :
  (validate_nickname input limits = Ok n ↔
    input ≠ [] ∧ contains_control_char (nfc input) = false ∧
    (∀ c, c ∈ nfc input → is_whitespace c = true → c = 32%N) ∧
    n = join_words (words (nfc input)) ∧ nickname_ok limits n) ∧
  (validate_nickname input limits = Ok n →
    ∀ input' n', validate_nickname input' limits = Ok n' →
      (n = n' ↔ words (nfc input) = words (nfc input'))).
Proof.
  split; [apply validate_nickname_iff|].
  intros (_ & _ & _ & E1 & _)%validate_nickname_iff input' n' (_ & _ & _ & E2 & _)%validate_nickname_iff.
  split; [|congruence]. intros ->.
  rewrite <-(words_collapse (nfc input)), <-(words_collapse (nfc input')), !collapse_spaces_join.
  congruence.
Qed.
End validate_facts.

Lemma validate_chat_text_Ok input limits :
  validate_chat_text input limits = Ok tt ↔
  contains_control_char input = false ∧ (str_len input <= max_chat_text_bytes limits)%N.
Proof.
  unfold validate_chat_text. destruct (contains_control_char input); [naive_solver|].
  destruct (N.ltb_spec (max_chat_text_bytes limits) (str_len input)); naive_solver lia.
Qed.
