(* ===== verification/Frame.v ===== *)
(** [src/protocol/frame.rs]: the length-prefixed frame codec.

    [frame_step] is one iteration of the loop of [FrameDecoder::feed]; the
    loop runs on the length of the buffer as fuel, which suffices because
    each produced frame consumes at least the header ([feed_loop_fuel]). *)
From S2P Require Export Bytes Limits Ids.

Definition FRAME_HEADER_LEN : usize := 8.
Definition LENGTH_FIELD_LEN : usize := 4.
Definition MIN_FRAME_BODY_LEN : usize := 4.

Inductive FrameError :=
| FrameTooLarge (declared : u64) (max : usize)
| PayloadTooLarge (length : usize) (max : usize)
| FrameTooShort (min : usize)
| UnexpectedEof
| UnsupportedVersion (found : u8)
| UnknownMessageType (id : u8)
| NonZeroFlags (flags : u16).

Record Frame := { frame_type : MessageType; payload : list byte }.

Definition encode_frame (t : MessageType) (p : list byte) (limits : Limits)
    : Result (list byte) FrameError :=
  let body_len := (N.of_nat (length p) + MIN_FRAME_BODY_LEN)%N in
  if (max_frame_size limits <? body_len)%N
  then Err (PayloadTooLarge body_len (max_frame_size limits))
  else Ok (be_bytes 4 (body_len mod u32_limit) ++ [byte_of PROTOCOL_MAJOR_VERSION]
           ++ [byte_of (MessageType_as_u8 t)] ++ be_bytes 2 0 ++ p).

Definition Frame_encode (self : Frame) (limits : Limits) : Result (list byte) FrameError :=
  encode_frame (frame_type self) (payload self) limits.

Record FrameDecoder := { buf : list byte; decoder_max : usize }.

Definition FrameDecoder_new (limits : Limits) : FrameDecoder :=
  {| buf := []; decoder_max := max_frame_size limits |}.

(** The outcome of one iteration: wait for more bytes, deliver a frame and
    the drained buffer, or fail. *)
Inductive FrameStep :=
| NeedMore
| Deliver (f : Frame) (rest : list byte)
| Reject (e : FrameError).

Definition frame_step (max : usize) (b : list byte) : FrameStep :=
  if (N.of_nat (length b) <? FRAME_HEADER_LEN)%N then NeedMore else
  let declared := be_value (take 4 b) in
  if (max <? declared)%N then Reject (FrameTooLarge declared max) else
  if (declared <? MIN_FRAME_BODY_LEN)%N then Reject (FrameTooShort MIN_FRAME_BODY_LEN) else
  let total := (LENGTH_FIELD_LEN + declared)%N in
  if (N.of_nat (length b) <? total)%N then NeedMore else
  let body := drop 4 (take (N.to_nat total) b) in
  match body with
  | v :: t :: f1 :: f2 :: p =>
      if negb (byte_val v =? PROTOCOL_MAJOR_VERSION)%N
      then Reject (UnsupportedVersion (byte_val v)) else
      match MessageType_from_u8 (byte_val t) with
      | None => Reject (UnknownMessageType (byte_val t))
      | Some t =>
          let flags := be_value [f1; f2] in
          if negb (flags =? 0)%N then Reject (NonZeroFlags flags)
          else Deliver {| frame_type := t; payload := p |} (drop (N.to_nat total) b)
      end
  | _ => NeedMore
  end.

Fixpoint feed_loop (fuel : nat) (max : usize) (b : list byte) (frames : list Frame)
    : Result (list Frame) FrameError * list byte :=
  match fuel with
  | O => (Ok frames, b)
  | S fuel =>
      match frame_step max b with
      | NeedMore => (Ok frames, b)
      | Reject e => (Err e, b)
      | Deliver f rest => feed_loop fuel max rest (frames ++ [f])
      end
  end.

Definition feed (self : FrameDecoder) (data : list byte)
    : Result (list Frame) FrameError * FrameDecoder :=
  let b := buf self ++ data in
  let (r, b') := feed_loop (length b) (decoder_max self) b [] in
  (r, {| buf := b'; decoder_max := decoder_max self |}).

Definition finish (self : FrameDecoder) : Result unit FrameError :=
  match buf self with [] => Ok tt | _ => Err UnexpectedEof end.

(** Feeding a sequence of chunks; an error ends the connection. *)
Fixpoint feed_all (self : FrameDecoder) (chunks : list (list byte))
    : Result (list Frame) FrameError * FrameDecoder :=
  match chunks with
  | [] => (Ok [], self)
  | c :: cs =>
      match feed self c with
      | (Err e, d) => (Err e, d)
      | (Ok fs, d) =>
          match feed_all d cs with
          | (Ok gs, d') => (Ok (fs ++ gs), d')
          | (Err e, d') => (Err e, d')
          end
      end
  end.

(** * One iteration *)

Lemma frame_step_Deliver max b f rest :
  frame_step max b = Deliver f rest →
  ∃ pre, b = pre ++ rest ∧ 8 <= length pre ∧
    ∀ x, frame_step max (b ++ x) = Deliver f (rest ++ x).
Proof.
  unfold frame_step. set (total := (LENGTH_FIELD_LEN + be_value (take 4 b))%N).
  destruct (N.ltb_spec (N.of_nat (length b)) FRAME_HEADER_LEN) as [|Hh]; [done|].
  destruct (max <? be_value (take 4 b))%N eqn:Emax; [done|].
  destruct (N.ltb_spec (be_value (take 4 b)) MIN_FRAME_BODY_LEN) as [|Hmin]; [done|].
  destruct (N.ltb_spec (N.of_nat (length b)) total) as [|Ht]; [done|].
  unfold FRAME_HEADER_LEN, LENGTH_FIELD_LEN, MIN_FRAME_BODY_LEN in *.
  intros H. exists (take (N.to_nat total) b).
  assert (Hrest : rest = drop (N.to_nat total) b).
  { repeat (case_match; simplify_eq); done. }
  split_and!; [by rewrite Hrest, take_drop|rewrite length_take; unfold total; lia|].
  intros x.
  rewrite (proj2 (N.ltb_ge (N.of_nat (length (b ++ x))) 8)) by (rewrite length_app; lia).
  rewrite (take_app_le b x 4) by lia. rewrite Emax.
  rewrite (proj2 (N.ltb_ge (be_value (take 4 b)) 4)) by lia. fold total.
  rewrite (proj2 (N.ltb_ge (N.of_nat (length (b ++ x))) total)) by (rewrite length_app; lia).
  rewrite (take_app_le b x) by lia. rewrite (drop_app_le b x) by lia.
  repeat (case_match; simplify_eq); done.
Qed.

Lemma frame_step_Reject max b e x :
  frame_step max b = Reject e → frame_step max (b ++ x) = Reject e.
Proof.
  unfold frame_step. set (total := (LENGTH_FIELD_LEN + be_value (take 4 b))%N).
  destruct (N.ltb_spec (N.of_nat (length b)) FRAME_HEADER_LEN) as [|Hh]; [done|].
  unfold FRAME_HEADER_LEN, LENGTH_FIELD_LEN, MIN_FRAME_BODY_LEN in *.
  rewrite (proj2 (N.ltb_ge (N.of_nat (length (b ++ x))) 8)) by (rewrite length_app; lia).
  rewrite (take_app_le b x 4) by lia.
  destruct (max <? be_value (take 4 b))%N eqn:Emax; [done|].
  destruct (N.ltb_spec (be_value (take 4 b)) 4) as [|Hmin]; [done|].
  fold total.
  destruct (N.ltb_spec (N.of_nat (length b)) total) as [|Ht]; [done|].
  rewrite (proj2 (N.ltb_ge (N.of_nat (length (b ++ x))) total)) by (rewrite length_app; lia).
  rewrite (take_app_le b x) by lia.
  repeat (case_match; simplify_eq); done.
Qed.

(** A buffer that waits for more bytes holds less than one frame. *)
Lemma frame_step_NeedMore max b :
  frame_step max b = NeedMore → (N.of_nat (length b) < N.max 8 (4 + max))%N.
Proof.
  unfold frame_step, FRAME_HEADER_LEN, LENGTH_FIELD_LEN, MIN_FRAME_BODY_LEN.
  destruct (N.ltb_spec (N.of_nat (length b)) 8) as [|Hh]; [lia|].
  destruct (N.ltb_spec max (be_value (take 4 b))); [done|].
  destruct (N.ltb_spec (be_value (take 4 b)) 4) as [|Hmin]; [done|].
  set (total := (4 + be_value (take 4 b))%N).
  destruct (N.ltb_spec (N.of_nat (length b)) total) as [|Ht]; [lia|].
  assert (4 <= length (drop 4 (take (N.to_nat total) b))).
  { rewrite length_drop, length_take. unfold total in *. lia. }
  repeat (case_match; simplify_eq/=; try done); simpl in *; lia.
Qed.

(** * The loop *)

Lemma feed_loop_frames fuel max b fs gs :
  feed_loop fuel max b (fs ++ gs) =
  match feed_loop fuel max b gs with
  | (Ok hs, b') => (Ok (fs ++ hs), b')
  | (Err e, b') => (Err e, b')
  end.
Proof.
  revert b gs. induction fuel as [|fuel IH]; intros b gs; simpl; [done|].
  destruct (frame_step max b); [done| |done].
  by rewrite <-app_assoc, IH.
Qed.

(** Any fuel at least the buffer length gives the same result. *)
Lemma feed_loop_fuel fuel max b fs :
  length b <= fuel → feed_loop fuel max b fs = feed_loop (length b) max b fs.
Proof.
  revert b fs. induction fuel as [fuel IH] using (well_founded_induction Wf_nat.lt_wf).
  intros b fs Hf. destruct fuel as [|fuel]; [destruct b; [done|simpl in Hf; lia]|].
  destruct b as [|c b]; [reflexivity|].
  simpl. destruct (frame_step max (c :: b)) as [|f rest|e] eqn:E; [done| |done].
  apply frame_step_Deliver in E as (pre & Hpre & Hlen & _).
  assert (length (c :: b) = length pre + length rest) by (by rewrite Hpre, length_app).
  simpl in *. rewrite (IH fuel), (IH (length b)) by lia. done.
Qed.

Lemma feed_loop_length fuel max b fs r b' :
  feed_loop fuel max b fs = (r, b') → length b' <= length b.
Proof.
  revert b fs. induction fuel as [|fuel IH]; simpl; intros b fs E; [by simplify_eq|].
  destruct (frame_step max b) as [|f rest|] eqn:E'; simplify_eq; [done| |done].
  apply frame_step_Deliver in E' as (pre & -> & ? & _).
  apply IH in E. rewrite length_app. lia.
Qed.

Lemma feed_loop_app fuel max b x fs :
  length b + length x <= fuel →
  feed_loop fuel max (b ++ x) fs =
  match feed_loop fuel max b fs with
  | (Err e, b') => (Err e, b' ++ x)
  | (Ok gs, b') => feed_loop fuel max (b' ++ x) gs
  end.
Proof.
  revert b fs. induction fuel as [|fuel IH]; intros b fs Hf.
  { simpl. done. }
  simpl. destruct (frame_step max b) as [|f rest|e] eqn:E.
  - done.
  - pose proof E as (pre & Hpre & Hlen & Hx)%frame_step_Deliver. rewrite Hx.
    assert (length b = length pre + length rest) by (by rewrite Hpre, length_app).
    rewrite IH by lia.
    destruct (feed_loop fuel max rest (fs ++ [f])) as [[gs|e] b'] eqn:El; [|done].
    assert (length b' <= length rest) by (by eapply feed_loop_length).
    change (feed_loop fuel max (b' ++ x) gs = feed_loop (S fuel) max (b' ++ x) gs).
    rewrite (feed_loop_fuel fuel), (feed_loop_fuel (S fuel)); rewrite ?length_app; try lia.
    done.
  - by rewrite (frame_step_Reject _ _ _ _ E).
Qed.

Lemma feed_loop_stops fuel max b fs gs b' :
  length b <= fuel → feed_loop fuel max b fs = (Ok gs, b') → frame_step max b' = NeedMore.
Proof.
  revert b fs. induction fuel as [|fuel IH]; intros b fs Hf; simpl.
  - intros. destruct b; simpl in *; [|lia]. by simplify_eq.
  - destruct (frame_step max b) as [|f rest|e] eqn:E; intros; simplify_eq; [done|].
    apply frame_step_Deliver in E as (pre & -> & ? & _).
    rewrite length_app in Hf. eapply IH; [|done]. lia.
Qed.

(** * The decoder *)

(** A decoder between two calls: no complete frame is left in its buffer. *)
Definition settled (d : FrameDecoder) : Prop := frame_step (decoder_max d) (buf d) = NeedMore.

Lemma settled_new limits : settled (FrameDecoder_new limits).
Proof. reflexivity. Qed.

Lemma feed_settled d x fs d' :
  feed d x = (Ok fs, d') → settled d' ∧ decoder_max d' = decoder_max d.
Proof.
  unfold feed, settled. destruct (feed_loop _ _ _ _) as [r b'] eqn:E.
  intros [= -> <-]. simpl. split; [|done]. eapply feed_loop_stops; [|exact E]. done.
Qed.

Lemma feed_app d x y :
  feed d (x ++ y) =
  match feed d x with
  | (Err e, d') => (Err e, {| buf := buf d' ++ y; decoder_max := decoder_max d |})
  | (Ok fs, d') =>
      match feed d' y with
      | (Ok gs, d'') => (Ok (fs ++ gs), d'')
      | (Err e, d'') => (Err e, d'')
      end
  end.
Proof.
  unfold feed. rewrite app_assoc. set (b := buf d ++ x).
  rewrite (feed_loop_app _ _ b y) by (rewrite length_app; lia).
  rewrite (feed_loop_fuel (length (b ++ y)) _ b) by (rewrite length_app; lia).
  destruct (feed_loop (length b) (decoder_max d) b []) as [[fs|e] b'] eqn:E; [|done]. simpl.
  assert (length b' <= length b) by (by eapply feed_loop_length).
  rewrite (feed_loop_fuel (length (b ++ y))) by (rewrite !length_app; lia).
  rewrite <-(app_nil_r fs) at 1. rewrite feed_loop_frames.
  by destruct (feed_loop _ _ (b' ++ y) []) as [[gs|e] b''].
Qed.

(** Feeding chunks is feeding their concatenation. *)
Lemma feed_all_concat d chunks :
  settled d →
  fst (feed_all d chunks) = fst (feed d (concat chunks)) ∧
  (is_ok (fst (feed d (concat chunks))) = true →
   snd (feed_all d chunks) = snd (feed d (concat chunks))).
Proof.
  revert d. induction chunks as [|c cs IH]; intros d Hd; simpl.
  - unfold feed. rewrite app_nil_r.
    assert (feed_loop (length (buf d)) (decoder_max d) (buf d) [] = (Ok [], buf d)) as ->.
    { destruct (length (buf d)); simpl; [done|]. by rewrite Hd. }
    simpl. split; [done|]. intros _. by destruct d.
  - rewrite feed_app. destruct (feed d c) as [[fs|e] d'] eqn:E; [|done].
    apply feed_settled in E as [Hd' _]. destruct (IH d' Hd') as [IH1 IH2].
    destruct (feed_all d' cs) as [r1 d1]; destruct (feed d' (concat cs)) as [r2 d2].
    simpl in *. subst r1. destruct r2; simpl in *; [|done]. split; [done|].
    intros _. by apply IH2.
Qed.

(** C39.  The decoder sees a byte stream, not reads: two ways to cut the same stream
    give the same frames or the same error, and the same decoder state on success. *)
Theorem chunking_is_invisible limits chunks chunks' :
  concat chunks = concat chunks' →
  fst (feed_all (FrameDecoder_new limits) chunks) =
    fst (feed_all (FrameDecoder_new limits) chunks') ∧
  (is_ok (fst (feed_all (FrameDecoder_new limits) chunks)) = true →
   snd (feed_all (FrameDecoder_new limits) chunks) =
     snd (feed_all (FrameDecoder_new limits) chunks')).
Proof.
  intros E. destruct (feed_all_concat _ chunks (settled_new limits)) as [H1 H2].
  destruct (feed_all_concat _ chunks' (settled_new limits)) as [H1' H2'].
  rewrite <-E in *. split; [congruence|]. rewrite H1. intros H. by rewrite H2, H2'.
Qed.

(** Between calls the decoder buffers less than one maximal frame. *)
Theorem feed_buffer_bound d x fs d' :
  feed d x = (Ok fs, d') → (N.of_nat (length (buf d')) < N.max 8 (4 + decoder_max d))%N.
Proof. intros H. apply feed_settled in H as [Hs <-]. by apply frame_step_NeedMore. Qed.

Lemma encode_frame_Ok t p limits bs :
  encode_frame t p limits = Ok bs →
  (N.of_nat (length p) + 4 <= max_frame_size limits)%N ∧
  bs = be_bytes 4 ((N.of_nat (length p) + 4) mod u32_limit) ++ byte_of 1
       :: byte_of (MessageType_as_u8 t) :: be_bytes 2 0 ++ p.
Proof.
  unfold encode_frame, MIN_FRAME_BODY_LEN.
  destruct (N.ltb_spec (max_frame_size limits) (N.of_nat (length p) + 4)); [done|].
  intros [= <-]. done.
Qed.

(** The first frame of a stream that starts with an encoded frame. *)
Lemma frame_step_encode t p limits bs rest :
  (max_frame_size limits < u32_limit)%N → encode_frame t p limits = Ok bs →
  frame_step (max_frame_size limits) (bs ++ rest) =
  Deliver {| frame_type := t; payload := p |} rest.
Proof.
  intros Hlim [Hlen ->]%encode_frame_Ok. unfold u32_limit in *.
  set (n := (N.of_nat (length p) + 4)%N) in *.
  rewrite N.mod_small by (unfold u32_limit; lia).
  set (hd := be_bytes 4 n). assert (Hhd : length hd = 4) by apply length_be_bytes.
  unfold frame_step, FRAME_HEADER_LEN, LENGTH_FIELD_LEN, MIN_FRAME_BODY_LEN.
  rewrite <-app_assoc. cbn [app].
  set (body := byte_of 1 :: byte_of (MessageType_as_u8 t) :: be_bytes 2 0 ++ p).
  change (byte_of 1 :: byte_of (MessageType_as_u8 t) :: (be_bytes 2 0 ++ p) ++ rest)
    with (body ++ rest).
  assert (Hbody : length body = N.to_nat n) by (unfold body, n; simpl; lia).
  assert (Hv : be_value hd = n) by (apply be_value_bytes_small; simpl; lia).
  rewrite (proj2 (N.ltb_ge _ 8)) by (rewrite !length_app, Hhd, Hbody; lia).
  rewrite take_app_length' by done. rewrite Hv.
  rewrite (proj2 (N.ltb_ge _ _)) by lia. rewrite (proj2 (N.ltb_ge _ 4)) by lia.
  rewrite (proj2 (N.ltb_ge _ (4 + n))) by (rewrite !length_app, Hhd, Hbody; lia).
  rewrite app_assoc.
  assert (Hpre : length (hd ++ body) = N.to_nat (4 + n)) by (rewrite length_app; lia).
  rewrite take_app_length' by done. rewrite (drop_app_length' (hd ++ body) rest) by done.
  rewrite drop_app_length' by done.
  unfold body. cbn [be_bytes app]. rewrite !byte_val_of.
  rewrite (N.mod_small (MessageType_as_u8 t)) by (pose proof (MessageType_as_u8_bounds t); lia).
  by rewrite MessageType_from_as_u8.
Qed.

(** The wire bytes of a list of frames. *)
Fixpoint encode_all (fs : list Frame) (limits : Limits) : Result (list byte) FrameError :=
  match fs with
  | [] => Ok []
  | f :: fs =>
      (let? b := Frame_encode f limits in
       let? bs := encode_all fs limits in Ok (b ++ bs))%result
  end.

Lemma feed_encode_all fs limits bs :
  (max_frame_size limits < u32_limit)%N → encode_all fs limits = Ok bs →
  feed (FrameDecoder_new limits) bs = (Ok fs, FrameDecoder_new limits).
Proof.
  intros Hlim. revert bs. induction fs as [|f fs IH]; intros bs; simpl.
  { by intros [= <-]. }
  intros (b & Hb & (bs' & Hbs' & [= <-])%result_bind_Ok)%result_bind_Ok.
  specialize (IH _ Hbs'). unfold feed in *. simpl in *.
  pose proof (frame_step_encode _ _ _ _ bs' Hlim Hb) as Hstep.
  assert (1 <= length b).
  { apply encode_frame_Ok in Hb as [_ ->]. rewrite length_app, length_be_bytes. lia. }
  assert (∃ n, length (b ++ bs') = S n ∧ length bs' <= n) as (n & -> & Hn).
  { exists (pred (length (b ++ bs'))). rewrite length_app. lia. }
  cbn [feed_loop]. rewrite Hstep.
  rewrite <-(app_nil_r ([] ++ _)), feed_loop_frames, feed_loop_fuel by done.
  destruct (feed_loop (length bs') _ bs' []) as [r b'] eqn:E. simplify_eq/=.
  rewrite H1. by destruct f.
Qed.

(** Any sequence of frames that encodes is decoded to itself, however the
    stream is cut into chunks, and leaves nothing behind. *)
Theorem frame_roundtrip fs limits chunks :
  (max_frame_size limits < u32_limit)%N →
  encode_all fs limits = Ok (concat chunks) →
  feed_all (FrameDecoder_new limits) chunks = (Ok fs, FrameDecoder_new limits) ∧
  finish (snd (feed_all (FrameDecoder_new limits) chunks)) = Ok tt.
Proof.
  intros Hlim Henc. pose proof (feed_encode_all _ _ _ Hlim Henc) as Hf.
  destruct (feed_all_concat _ chunks (settled_new limits)) as [H1 H2].
  rewrite Hf in H1, H2. specialize (H2 eq_refl).
  destruct (feed_all _ chunks) as [r d]. simpl in *. by subst.
Qed.

(** A header announcing more than the limit is rejected as soon as it is
    complete, before any of its body is buffered. *)
Theorem feed_rejects_oversize d x :
  (8 <= length (buf d ++ x))%nat →
  (decoder_max d < be_value (take 4 (buf d ++ x)))%N →
  fst (feed d x) = Err (FrameTooLarge (be_value (take 4 (buf d ++ x))) (decoder_max d)).
Proof.
  intros Hlen Hbig. unfold feed.
  destruct (length (buf d ++ x)) as [|n] eqn:E; [lia|]. simpl.
  unfold frame_step, FRAME_HEADER_LEN. rewrite E.
  rewrite (proj2 (N.ltb_ge _ 8)) by lia. by rewrite (proj2 (N.ltb_lt _ _)) by lia.
Qed.
