(* ===== verification/Members.v ===== *)
(** [src/room/member.rs]: the bounded table of active members.

    The table is the [Vec] of members in insertion order; [table_ok] is its
    invariant (distinct ids, nicknames, connections and keys, ids below the
    next one). *)
From Stdlib Require Import Strings.String.
From S2P Require Export Text Limits Ids.

(** Newtype ids of [src/event.rs]. *)
Abbreviation ConnectionId := N (only parsing).
Abbreviation MemberId := N (only parsing).
Abbreviation RequestId := N (only parsing).

Record Member := {
  member_id : MemberId;
  connection : ConnectionId;
  nickname : rstring;
  color : ColorChoice;
  is_host : bool;
  ed25519_pubkey : list byte;
  x25519_pubkey : list byte;
  joined_epoch : u64;
}.

Record MemberInfo := {
  info_member_id : MemberId;
  info_nickname : rstring;
  info_color : ColorChoice;
  info_is_host : bool;
}.

Definition MemberInfo_from (m : Member) : MemberInfo := {|
  info_member_id := member_id m;
  info_nickname := nickname m;
  info_color := color m;
  info_is_host := is_host m;
|}.

Inductive MemberError :=
| ME_Full (max : usize)
| ME_NicknameTaken (nickname : rstring)
| ME_ConnectionTaken (connection : ConnectionId)
| ME_IdentityTaken
| ME_UnknownId (id : MemberId).

(** [Display] of [MemberError]. *)
Definition MemberError_to_string (e : MemberError) : rstring :=
  match e with
  | ME_Full max => lit "the room is full (maximum " ++ display_N max ++ lit " members)"
  | ME_NicknameTaken n => lit "nickname `" ++ n ++ lit "` is already in use"
  | ME_ConnectionTaken c => lit "connection " ++ display_N c ++ lit " is already active"
  | ME_IdentityTaken => lit "the ephemeral member identity is already active"
  | ME_UnknownId id => lit "no member with id " ++ display_N id
  end.

Record MemberTable := {
  table_limit : usize;
  table_next_id : u64;
  table_members : list Member;
}.

Definition MemberTable_new (limits : Limits) : MemberTable :=
  {| table_limit := max_active_members limits; table_next_id := 1; table_members := [] |}.

Definition table_len (self : MemberTable) : usize := N.of_nat (length (table_members self)).

Definition is_full (self : MemberTable) : bool := (table_limit self <=? table_len self)%N.

Definition add_host (self : MemberTable) (c : ConnectionId) (n : rstring)
    (ed x : list byte) : Member * MemberTable :=
  let member := {| member_id := 0; connection := c; nickname := n;
    color := ColorChoice_default; is_host := true;
    ed25519_pubkey := ed; x25519_pubkey := x; joined_epoch := 1 |} in
  (member, {| table_limit := table_limit self; table_next_id := table_next_id self;
              table_members := table_members self ++ [member] |}).

Definition by_id (self : MemberTable) (id : MemberId) : option Member :=
  find_first (key_is member_id id) (table_members self).

Definition by_nickname (self : MemberTable) (n : rstring) : option Member :=
  find_first (key_is nickname n) (table_members self).

Definition by_connection (self : MemberTable) (c : ConnectionId) : option Member :=
  find_first (key_is connection c) (table_members self).

Definition nickname_taken (self : MemberTable) (n : rstring) : bool :=
  existsb (key_is nickname n) (table_members self).

(** [MemberTable::add]; [None] where the id counter overflows. *)
Definition add (self : MemberTable) (c : ConnectionId) (n : rstring)
    (ed x : list byte) (epoch : u64) : option (Result (Member * MemberTable) MemberError) :=
  if is_full self then Some (Err (ME_Full (table_limit self))) else
  if nickname_taken self n then Some (Err (ME_NicknameTaken n)) else
  if by_connection self c is Some _ then Some (Err (ME_ConnectionTaken c)) else
  if existsb (λ m, key_is ed25519_pubkey ed m || key_is x25519_pubkey x m)
       (table_members self)
  then Some (Err ME_IdentityTaken) else
  let member := {| member_id := table_next_id self; connection := c; nickname := n;
    color := ColorChoice_default; is_host := false;
    ed25519_pubkey := ed; x25519_pubkey := x; joined_epoch := epoch |} in
  match succ_u64 (table_next_id self) with
  | None => None
  | Some next =>
      Some (Ok (member, {| table_limit := table_limit self; table_next_id := next;
                           table_members := table_members self ++ [member] |}))
  end.

(** [MemberTable::remove]. *)
Definition remove (self : MemberTable) (id : MemberId) : option (Member * MemberTable) :=
  match remove_first (key_is member_id id) (table_members self) with
  | None => None
  | Some (m, ms) =>
      Some (m, {| table_limit := table_limit self; table_next_id := table_next_id self;
                  table_members := ms |})
  end.

(** [if let Some(member) = by_id_mut(id) { member.color = color }]. *)
Definition set_color_of (c : ColorChoice) (m : Member) : Member := {|
  member_id := member_id m; connection := connection m; nickname := nickname m;
  color := c; is_host := is_host m; ed25519_pubkey := ed25519_pubkey m;
  x25519_pubkey := x25519_pubkey m; joined_epoch := joined_epoch m |}.

Definition set_color (self : MemberTable) (id : MemberId) (c : ColorChoice) : MemberTable := {|
  table_limit := table_limit self; table_next_id := table_next_id self;
  table_members := update_first (key_is member_id id) (set_color_of c) (table_members self) |}.

(** * Invariant *)

Record table_ok (t : MemberTable) : Prop := {
  tok_ids : NoDup (member_id <$> table_members t);
  tok_nicks : NoDup (nickname <$> table_members t);
  tok_conns : NoDup (connection <$> table_members t);
  tok_ed : NoDup (ed25519_pubkey <$> table_members t);
  tok_x : NoDup (x25519_pubkey <$> table_members t);
  tok_fresh : Forall (λ m, member_id m < table_next_id t)%N (table_members t);
  tok_next : (0 < table_next_id t)%N;
  tok_len : (table_len t <= N.max 1 (table_limit t))%N;
}.

(** The host is the first row, is member 0 and is the only row flagged as
    host. *)
Definition host_row (t : MemberTable) (c : ConnectionId) : Prop :=
  ∃ h ms, table_members t = h :: ms ∧ member_id h = 0%N ∧ connection h = c ∧
    is_host h = true ∧ Forall (λ m, is_host m = false ∧ 0 < member_id m)%N ms.

Lemma by_id_Some t id m : by_id t id = Some m → m ∈ table_members t ∧ member_id m = id.
Proof. apply find_first_key_Some. Qed.

Lemma by_connection_Some t c m :
  by_connection t c = Some m → m ∈ table_members t ∧ connection m = c.
Proof. apply find_first_key_Some. Qed.

Lemma by_id_elem t m : table_ok t → m ∈ table_members t → by_id t (member_id m) = Some m.
Proof. intros []. by apply find_first_key_unique. Qed.

Lemma by_connection_elem t m :
  table_ok t → m ∈ table_members t → by_connection t (connection m) = Some m.
Proof. intros []. by apply find_first_key_unique. Qed.

Lemma by_nickname_elem t m :
  table_ok t → m ∈ table_members t → by_nickname t (nickname m) = Some m.
Proof. intros []. by apply find_first_key_unique. Qed.

Lemma nickname_taken_false t n : nickname_taken t n = false → n ∉ (nickname <$> table_members t).
Proof.
  unfold nickname_taken. intros H. apply find_first_key_None.
  destruct (find_first _ _) eqn:E; [|done].
  assert (existsb (key_is nickname n) (table_members t) = true) by
    (apply existsb_find_first; by rewrite E). congruence.
Qed.

Lemma existsb_false_elem {A} (p : A → bool) l x : existsb p l = false → x ∈ l → p x = false.
Proof.
  intros H Hx. destruct (p x) eqn:E; [|done].
  assert (existsb p l = true); [|congruence].
  apply existsb_exists. exists x. by rewrite <-list_elem_of_In.
Qed.

(** Everything a successful [add] guarantees about the new row. *)
Lemma add_Ok t c n ed x epoch m t' :
  add t c n ed x epoch = Some (Ok (m, t')) →
  (table_len t < table_limit t)%N ∧
  n ∉ (nickname <$> table_members t) ∧ c ∉ (connection <$> table_members t) ∧
  ed ∉ (ed25519_pubkey <$> table_members t) ∧ x ∉ (x25519_pubkey <$> table_members t) ∧
  m = {| member_id := table_next_id t; connection := c; nickname := n;
         color := ColorChoice_default; is_host := false;
         ed25519_pubkey := ed; x25519_pubkey := x; joined_epoch := epoch |} ∧
  t' = {| table_limit := table_limit t; table_next_id := table_next_id t + 1;
          table_members := table_members t ++ [m] |} ∧
  (table_next_id t + 1 < u64_limit)%N.
Proof.
  unfold add, is_full. destruct (N.leb_spec (table_limit t) (table_len t)); [done|].
  destruct (nickname_taken t n) eqn:En; [done|].
  destruct (by_connection t c) eqn:Ec; [done|].
  destruct (existsb _ (table_members t)) eqn:Ek; [done|].
  destruct (succ_u64 (table_next_id t)) as [next|] eqn:Es; [|done].
  apply succ_u64_Some in Es as [-> ?]. intros [= <- <-].
  assert (Hk : ∀ k, k ∈ table_members t → ed25519_pubkey k ≠ ed ∧ x25519_pubkey k ≠ x).
  { intros k Hk. pose proof (existsb_false_elem _ _ _ Ek Hk) as [Ha Hb]%orb_false_iff.
    by apply bool_decide_eq_false in Ha, Hb. }
  split_and!; [done|by apply nickname_taken_false|by apply find_first_key_None| | |done..].
  - intros (k & -> & ?)%list_elem_of_fmap. by eapply (proj1 (Hk k _)).
  - intros (k & -> & ?)%list_elem_of_fmap. by eapply (proj2 (Hk k _)).
  Unshelve. all: done.
Qed.

Lemma add_preserves_ok t c n ed x epoch m t' :
  table_ok t → add t c n ed x epoch = Some (Ok (m, t')) → table_ok t'.
Proof.
  intros [] (Hlen & Hn & Hc & Hed & Hx & -> & -> & Hnext)%add_Ok.
  constructor; simpl; rewrite ?fmap_snoc; auto with veil.
  - apply NoDup_snoc; [done|]. simpl. intros (k & Hk & Hin)%list_elem_of_fmap.
    rewrite list.Forall_forall in tok_fresh0. specialize (tok_fresh0 k Hin). simpl in *. lia.
  - apply list.Forall_app. split.
    + eapply list.Forall_impl; [done|]. simpl. lia.
    + constructor; [simpl; lia|constructor].
  - lia.
  - unfold table_len in *. simpl. rewrite length_app. simpl. lia.
Qed.

Lemma add_host_row t c n ed x epoch m t' hc :
  table_ok t → host_row t hc → add t c n ed x epoch = Some (Ok (m, t')) →
  host_row t' hc ∧ m ∈ table_members t' ∧ c ≠ hc.
Proof.
  intros [] (h & ms & Ht & H0 & Hhc & Hh & Hms) (_ & _ & Hc & _ & _ & -> & -> & _)%add_Ok.
  split_and!.
  - exists h, (ms ++ [{| member_id := table_next_id t; connection := c; nickname := n;
         color := ColorChoice_default; is_host := false;
         ed25519_pubkey := ed; x25519_pubkey := x; joined_epoch := epoch |}]).
    rewrite Ht. split_and!; auto. apply list.Forall_app. split; [done|].
    by repeat constructor.
  - simpl. apply elem_of_app. right. by apply list_elem_of_singleton.
  - intros ->. apply Hc. rewrite Ht. csimpl. rewrite Hhc. apply elem_of_cons. by left.
Qed.

Lemma remove_Some t id m t' :
  remove t id = Some (m, t') →
  by_id t id = Some m ∧ table_members t ≡ₚ m :: table_members t' ∧
  member_id m = id ∧ table_limit t' = table_limit t ∧ table_next_id t' = table_next_id t.
Proof.
  unfold remove. destruct (remove_first _ _) as [[m' ms]|] eqn:E; [|done].
  intros [= <- <-]. pose proof (remove_first_Some _ _ _ _ E) as [Hf _].
  pose proof (find_first_key_Some _ _ _ _ Hf) as [_ ?].
  split_and!; [done| |done..]. simpl. by eapply remove_first_Permutation.
Qed.

Lemma remove_None t id : remove t id = None ↔ by_id t id = None.
Proof.
  unfold remove, by_id. rewrite <-remove_first_None.
  destruct (remove_first _ _) as [[]|]; naive_solver.
Qed.

Lemma remove_preserves_ok t id m t' : table_ok t → remove t id = Some (m, t') → table_ok t'.
Proof.
  intros [] (_ & Hp & _ & Hl & Hn)%remove_Some.
  constructor; rewrite ?Hl, ?Hn; auto.
  1-5: by eapply NoDup_fmap_tail.
  - rewrite Hp in tok_fresh0. by apply list.Forall_cons in tok_fresh0 as [_ ?].
  - apply Permutation_length in Hp. unfold table_len in *. simpl in Hp. lia.
Qed.

Lemma remove_host_row t id m t' hc :
  host_row t hc → remove t id = Some (m, t') → id ≠ 0%N → host_row t' hc ∧ is_host m = false.
Proof.
  intros (h & ms & Ht & H0 & Hc & Hh & Hms). unfold remove. rewrite Ht. cbn [remove_first].
  unfold key_is at 1. intros Hrm Hid. rewrite bool_decide_eq_false_2 in Hrm by congruence.
  destruct (remove_first _ ms) as [[k ms']|] eqn:E; simplify_eq/=.
  apply remove_first_Permutation in E. rewrite E in Hms.
  apply list.Forall_cons in Hms as [[? ?] Hms]. split; [|done]. by exists h, ms'.
Qed.

Lemma host_row_by_id t hc : table_ok t → host_row t hc → ∃ h, by_id t 0 = Some h ∧ connection h = hc ∧ is_host h = true.
Proof.
  intros _ (h & ms & Ht & H0 & Hc & Hh & _). exists h. unfold by_id. rewrite Ht. simpl.
  unfold key_is. by rewrite bool_decide_eq_true_2.
Qed.

(** The host flag and member 0 are the same thing. *)
Lemma host_row_is_host t hc m :
  host_row t hc → m ∈ table_members t → is_host m = true ↔ member_id m = 0%N.
Proof.
  intros (h & ms & Ht & H0 & _ & Hh & Hms) Hm. rewrite Ht in Hm.
  apply elem_of_cons in Hm as [->|Hm]; [naive_solver|].
  rewrite list.Forall_forall in Hms. destruct (Hms m Hm) as [-> ?]. split; [done|lia].
Qed.

Lemma set_color_members t id c :
  (∀ (B : Type) (g : Member → B), (∀ m, g (set_color_of c m) = g m) →
     g <$> table_members (set_color t id c) = g <$> table_members t).
Proof. intros B g Hg. simpl. by apply fmap_update_first. Qed.

Lemma Forall_fmap_eq {A B} (g : A → B) (P : B → Prop) l l' :
  g <$> l = g <$> l' → Forall (λ x, P (g x)) l → Forall (λ x, P (g x)) l'.
Proof. intros E H. apply Forall_fmap. rewrite <-E. by apply Forall_fmap. Qed.

Lemma set_color_ok t id c : table_ok t → table_ok (set_color t id c).
Proof.
  intros []. constructor; rewrite ?set_color_members by done; try done.
  - eapply (Forall_fmap_eq member_id (λ i, i < table_next_id t)%N); [|done].
    symmetry. by apply set_color_members.
  - unfold table_len. simpl. by rewrite length_update_first.
Qed.

Lemma set_color_host_row t id c hc : host_row t hc → host_row (set_color t id c) hc.
Proof.
  intros (h & ms & Ht & H0 & Hc & Hh & Hms). unfold host_row, set_color.
  simpl. rewrite Ht. simpl. destruct (key_is member_id id h).
  - exists (set_color_of c h), ms. done.
  - exists h, (update_first (key_is member_id id) (set_color_of c) ms). split_and!; try done.
    eapply (Forall_fmap_eq (λ m, (is_host m, member_id m)) (λ p, p.1 = false ∧ 0 < p.2)%N); [|done].
    symmetry. by apply fmap_update_first.
Qed.
