(* ===== verification/Connections.v ===== *)
(** [src/room/connections.rs]: the room's per-connection registry.

    The [HashMap] is a [gmap]; where the source iterates over it the order is
    unspecified and the model takes the order of [map_to_list]. *)
From S2P Require Export Members.

Inductive ConnectionRole :=
| CR_Admission
| CR_Pending (request_id : RequestId)
| CR_Member (member_id : MemberId).

Record ConnectionEntry := {
  entry_id : ConnectionId;
  password_verified : bool;
  role : ConnectionRole;
}.

Abbreviation Connections := (gmap ConnectionId ConnectionEntry) (only parsing).

Definition register (self : Connections) (id : ConnectionId) : Connections :=
  match self !! id with
  | Some _ => self
  | None => <[id := {| entry_id := id; password_verified := false; role := CR_Admission |}]> self
  end.

Definition mark_password_verified (self : Connections) (id : ConnectionId) : option Connections :=
  match self !! id with
  | None => None
  | Some e => Some (<[id := {| entry_id := entry_id e; password_verified := true;
                               role := role e |}]> self)
  end.

Definition set_role (self : Connections) (id : ConnectionId) (r : ConnectionRole)
    : option Connections :=
  match self !! id with
  | None => None
  | Some e => Some (<[id := {| entry_id := entry_id e;
                               password_verified := password_verified e; role := r |}]> self)
  end.

Definition attach_request (self : Connections) (id : ConnectionId) (rid : RequestId) :=
  set_role self id (CR_Pending rid).

Definition promote (self : Connections) (id : ConnectionId) (mid : MemberId) :=
  set_role self id (CR_Member mid).

(** The room drops the [Option<()>] of some calls: the registry is then
    unchanged where the connection is unknown. *)
Definition or_same (self : Connections) (o : option Connections) : Connections :=
  match o with Some cs => cs | None => self end.

Definition conn_request_id (self : Connections) (id : ConnectionId) : option RequestId :=
  match self !! id with
  | Some e => match role e with CR_Pending rid => Some rid | _ => None end
  | None => None
  end.

Definition conn_member_id (self : Connections) (id : ConnectionId) : option MemberId :=
  match self !! id with
  | Some e => match role e with CR_Member mid => Some mid | _ => None end
  | None => None
  end.

Definition conn_remove (self : Connections) (id : ConnectionId) : Connections := delete id self.

Definition is_member_entry (e : ConnectionEntry) : bool :=
  match role e with CR_Member _ => true | _ => false end.

Definition non_member_ids (self : Connections) : list ConnectionId :=
  (List.filter (λ p, negb (is_member_entry (snd p))) (map_to_list self)).*1.

Definition conn_ids (self : Connections) : list ConnectionId := (map_to_list self).*1.

(** * Facts *)

(** The entry records its own key. *)
Definition entries_ok (cs : Connections) : Prop := ∀ c e, cs !! c = Some e → entry_id e = c.

(** What a connection is to the room: the request it waits for and the
    member it carries. *)
Definition role_view (cs : Connections) (c : ConnectionId)
    : option RequestId * option MemberId :=
  (conn_request_id cs c, conn_member_id cs c).

Lemma elem_of_non_member_ids cs c :
  c ∈ non_member_ids cs ↔ ∃ e, cs !! c = Some e ∧ is_member_entry e = false.
Proof.
  unfold non_member_ids. rewrite list_elem_of_fmap. split.
  - intros ([c' e] & -> & Hin). rewrite list_elem_of_In in Hin.
    apply List.filter_In in Hin as [Hin Hb]. rewrite <-list_elem_of_In in Hin.
    apply elem_of_map_to_list in Hin. exists e. split; [done|].
    simpl in Hb. by destruct (is_member_entry e).
  - intros (e & He & Hb). exists (c, e). split; [done|].
    rewrite list_elem_of_In. apply List.filter_In. rewrite <-list_elem_of_In.
    split; [by apply elem_of_map_to_list|]. simpl. by rewrite Hb.
Qed.

Lemma elem_of_conn_ids cs c : c ∈ conn_ids cs ↔ is_Some (cs !! c).
Proof.
  unfold conn_ids. rewrite list_elem_of_fmap. split.
  - intros ([c' e] & -> & Hin%elem_of_map_to_list). eauto.
  - intros [e He]. exists (c, e). split; [done|]. by apply elem_of_map_to_list.
Qed.

Lemma NoDup_conn_ids cs : NoDup (conn_ids cs).
Proof. apply NoDup_fst_map_to_list. Qed.

Lemma role_view_register cs id c : role_view (register cs id) c = role_view cs c.
Proof.
  unfold role_view, conn_request_id, conn_member_id, register.
  destruct (cs !! id) eqn:E; [done|]. destruct (decide (id = c)) as [->|].
  - by rewrite lookup_insert_eq, E.
  - by rewrite lookup_insert_ne.
Qed.

Lemma role_view_verified cs id c :
  role_view (or_same cs (mark_password_verified cs id)) c = role_view cs c.
Proof.
  unfold role_view, conn_request_id, conn_member_id, mark_password_verified.
  destruct (cs !! id) as [e|] eqn:E; simpl; [|done]. destruct (decide (id = c)) as [->|].
  - by rewrite lookup_insert_eq, E.
  - by rewrite lookup_insert_ne.
Qed.

Definition view_of_role (r : ConnectionRole) : option RequestId * option MemberId :=
  match r with
  | CR_Admission => (None, None)
  | CR_Pending rid => (Some rid, None)
  | CR_Member mid => (None, Some mid)
  end.

Lemma role_view_lookup cs c e : cs !! c = Some e → role_view cs c = view_of_role (role e).
Proof.
  intros E. unfold role_view, conn_request_id, conn_member_id. rewrite E.
  by destruct (role e).
Qed.

Lemma role_view_set_role cs id r cs' c :
  set_role cs id r = Some cs' →
  role_view cs' c = if bool_decide (c = id) then view_of_role r else role_view cs c.
Proof.
  unfold set_role. destruct (cs !! id) as [e|] eqn:E; [|done]. intros [= <-].
  case_bool_decide as Hc.
  - subst. by erewrite role_view_lookup by apply lookup_insert_eq.
  - unfold role_view, conn_request_id, conn_member_id. by rewrite lookup_insert_ne.
Qed.

Lemma set_role_Some cs id r : is_Some (cs !! id) → is_Some (set_role cs id r).
Proof. intros [e E]. unfold set_role. rewrite E. eauto. Qed.

Lemma role_view_remove cs id c :
  role_view (conn_remove cs id) c = if bool_decide (c = id) then (None, None) else role_view cs c.
Proof.
  unfold role_view, conn_request_id, conn_member_id, conn_remove. case_bool_decide as Hc.
  - subst. by rewrite lookup_delete_eq.
  - by rewrite lookup_delete_ne.
Qed.

Lemma entries_ok_register cs id : entries_ok cs → entries_ok (register cs id).
Proof.
  unfold entries_ok, register. intros H c e. destruct (cs !! id) eqn:E; [apply H|].
  destruct (decide (id = c)) as [->|]; [rewrite lookup_insert_eq; naive_solver|].
  rewrite lookup_insert_ne by done. apply H.
Qed.

Lemma entries_ok_verified cs id :
  entries_ok cs → entries_ok (or_same cs (mark_password_verified cs id)).
Proof.
  unfold entries_ok, mark_password_verified. intros H c e.
  destruct (cs !! id) as [e'|] eqn:E; simpl; [|apply H].
  destruct (decide (id = c)) as [->|]; [rewrite lookup_insert_eq; naive_solver|].
  rewrite lookup_insert_ne by done. apply H.
Qed.

Lemma entries_ok_set_role cs id r cs' :
  entries_ok cs → set_role cs id r = Some cs' → entries_ok cs'.
Proof.
  unfold entries_ok, set_role. intros H. destruct (cs !! id) as [e'|] eqn:E; [|done].
  intros [= <-] c e. destruct (decide (id = c)) as [->|]; [rewrite lookup_insert_eq; naive_solver|].
  rewrite lookup_insert_ne by done. apply H.
Qed.

Lemma entries_ok_remove cs id : entries_ok cs → entries_ok (conn_remove cs id).
Proof.
  unfold entries_ok, conn_remove. intros H c e.
  destruct (decide (id = c)) as [->|]; [by rewrite lookup_delete_eq|].
  rewrite lookup_delete_ne by done. apply H.
Qed.

#[export] Hint Resolve entries_ok_register entries_ok_verified entries_ok_set_role
  entries_ok_remove : veil.

(** Deleting a list of connections. *)
Definition remove_all (cs : Connections) (ids : list ConnectionId) : Connections :=
  foldl conn_remove cs ids.

Lemma remove_all_lookup cs ids c :
  remove_all cs ids !! c = if bool_decide (c ∈ ids) then None else cs !! c.
Proof.
  revert cs. induction ids as [|i ids IH]; intros cs; simpl; [done|].
  rewrite IH. unfold conn_remove. destruct (decide (c = i)) as [->|Hne].
  - rewrite lookup_delete_eq, (bool_decide_eq_true_2 (i ∈ i :: ids)) by (apply elem_of_cons; by left).
    by case_bool_decide.
  - rewrite lookup_delete_ne by done. erewrite bool_decide_ext; [done|].
    rewrite elem_of_cons. naive_solver.
Qed.

Lemma entries_ok_remove_all cs ids : entries_ok cs → entries_ok (remove_all cs ids).
Proof.
  revert cs. induction ids as [|i ids IH]; intros cs H; simpl; [done|].
  apply IH. by apply entries_ok_remove.
Qed.
