(* ===== verification/HostNet.v ===== *)
(** [src/net/host.rs]: the host's listener and its table of live
    connections.

    The accept loop runs beside the supervisor; they share the table behind
    a lock. A step is one section that holds the lock, or an accept that
    fails, so the loop's budget check and its registration are two steps
    with the supervisor's between them. *)
From Stdlib Require Import Sorting.Sorted.
From S2P Require Export Members.

Definition MAX_CONSECUTIVE_ACCEPT_ERRORS : u32 := 64.

(** Where the accept loop is: waiting for a client, about to register one
    it has found within the budget, or returned. *)
Inductive AcceptLoop := AL_Accepting | AL_Registering | AL_Retired.

(** A live connection is its [admitted] flag; its task is [Conn]'s. *)
Record HostNetwork := {
  hn_peers : gmap ConnectionId bool;
  hn_next_id : u64;
  hn_consecutive_errors : u32;
  hn_loop : AcceptLoop;
  hn_stopped : bool;
}.

Definition HostNetwork_new : HostNetwork := {|
  hn_peers := ∅; hn_next_id := 1; hn_consecutive_errors := 0; hn_loop := AL_Accepting; hn_stopped := false |}.

Definition with_peers (f : gmap ConnectionId bool → gmap ConnectionId bool) (n : HostNetwork) : HostNetwork := {|
  hn_peers := f (hn_peers n); hn_next_id := hn_next_id n; hn_consecutive_errors := hn_consecutive_errors n;
  hn_loop := hn_loop n; hn_stopped := hn_stopped n |}.

Definition with_loop (errors : u32) (l : AcceptLoop) (n : HostNetwork) : HostNetwork := {|
  hn_peers := hn_peers n; hn_next_id := hn_next_id n; hn_consecutive_errors := errors;
  hn_loop := l; hn_stopped := hn_stopped n |}.

Definition pre_auth_count (peers : gmap ConnectionId bool) : N :=
  N.of_nat (size (filter (λ p, p.2 = false) peers)).

Definition pre_auth_connections (n : HostNetwork) : N := pre_auth_count (hn_peers n).

(** ** The supervisor *)

Definition mark_admitted (connection : ConnectionId) : HostNetwork → HostNetwork :=
  with_peers (alter (λ _, true) connection).

Definition net_close (connection : ConnectionId) : HostNetwork → HostNetwork :=
  with_peers (delete connection).

Definition close_all : HostNetwork → HostNetwork := with_peers (λ _, ∅).

Inductive PeerSendError := PS_QueueFull | PS_Closed.

(** [PeerConnection::send], given what the connection's queue answers, and
    [send_to] on top of it. *)
Inductive TrySend := TS_Sent | TS_Full | TS_Closed.

Definition peer_send (queue : TrySend) : Result unit PeerSendError :=
  match queue with TS_Sent => Ok tt | TS_Full => Err PS_QueueFull | TS_Closed => Err PS_Closed end.

Definition send_to (connection : ConnectionId) (queue : TrySend) (n : HostNetwork) : Result unit PeerSendError :=
  match hn_peers n !! connection with None => Err PS_Closed | Some _ => peer_send queue end.

(** The task is aborted where it waits; a registration under way ends
    first. *)
Definition net_stop (n : HostNetwork) : HostNetwork := {|
  hn_peers := hn_peers n; hn_next_id := hn_next_id n; hn_consecutive_errors := hn_consecutive_errors n;
  hn_loop := match hn_loop n with AL_Registering => AL_Registering | _ => AL_Retired end; hn_stopped := true |}.

(** ** The accept loop *)

(** A client connects: the budget check. *)
Definition net_accepted (max_pre_auth : usize) (n : HostNetwork) : HostNetwork :=
  if (max_pre_auth <=? pre_auth_connections n)%N then with_loop 0 AL_Accepting n
  else with_loop 0 AL_Registering n.

(** An accept fails. *)
Definition accept_failed (n : HostNetwork) : HostNetwork :=
  let errors := (hn_consecutive_errors n + 1)%N in
  with_loop errors (if (MAX_CONSECUTIVE_ACCEPT_ERRORS <=? errors)%N then AL_Retired else AL_Accepting) n.

(** The registration; [None] where the counter of ids would leave [u64]. *)
Definition register_peer (n : HostNetwork) : option (ConnectionId * HostNetwork) :=
  next_id ← succ_u64 (hn_next_id n);
  Some (hn_next_id n, {|
    hn_peers := <[hn_next_id n := false]> (hn_peers n); hn_next_id := next_id;
    hn_consecutive_errors := hn_consecutive_errors n;
    hn_loop := if hn_stopped n then AL_Retired else AL_Accepting; hn_stopped := hn_stopped n |}).

(** * Steps *)

Inductive NetEvent :=
| NE_MarkAdmitted (connection : ConnectionId)
| NE_Close (connection : ConnectionId)
| NE_CloseAll
| NE_Stop
| NE_Accepted
| NE_AcceptFailed
| NE_Registered (connection : ConnectionId).

Inductive net_step (max_pre_auth : usize) : HostNetwork → NetEvent → HostNetwork → Prop :=
| step_mark n c : net_step max_pre_auth n (NE_MarkAdmitted c) (mark_admitted c n)
| step_close n c : net_step max_pre_auth n (NE_Close c) (net_close c n)
| step_close_all n : net_step max_pre_auth n NE_CloseAll (close_all n)
| step_stop n : net_step max_pre_auth n NE_Stop (net_stop n)
| step_accepted n : hn_loop n = AL_Accepting → net_step max_pre_auth n NE_Accepted (net_accepted max_pre_auth n)
| step_failed n : hn_loop n = AL_Accepting → net_step max_pre_auth n NE_AcceptFailed (accept_failed n)
| step_registered n c n' :
    hn_loop n = AL_Registering → register_peer n = Some (c, n') →
    net_step max_pre_auth n (NE_Registered c) n'.

Inductive net_run (max_pre_auth : usize) : list NetEvent → HostNetwork → Prop :=
| run_new : net_run max_pre_auth [] HostNetwork_new
| run_step evs n ev n' :
    net_run max_pre_auth evs n → net_step max_pre_auth n ev n' → net_run max_pre_auth (evs ++ [ev]) n'.

(** ** Budget, identifiers, life of the listener *)

Lemma pre_auth_count_mono peers peers' :
  (∀ i, peers' !! i = Some false → peers !! i = Some false) →
  (pre_auth_count peers' <= pre_auth_count peers)%N.
Proof.
  intros H. unfold pre_auth_count. enough (size (filter (λ p, p.2 = false) peers') <= size (filter (λ p, p.2 = false) peers)) by lia.
  apply map_subseteq_size, map_subseteq_spec.
  intros i x. rewrite !map_lookup_filter_Some. simpl. intros [Hi ->]. split; [by apply H|done].
Qed.

Lemma pre_auth_count_register peers c :
  (pre_auth_count (<[c := false]> peers) <= pre_auth_count peers + 1)%N.
Proof.
  unfold pre_auth_count. rewrite map_filter_insert_True by done. rewrite map_size_insert.
  case_match; cbn [id]; lia.
Qed.

(** The identifiers given out, in order. *)
Definition registered (evs : list NetEvent) : list ConnectionId :=
  omap (λ ev, match ev with NE_Registered c => Some c | _ => None end) evs.

(** The failures of [accept] since the last client. *)
Definition failures (evs : list NetEvent) : N :=
  foldl (λ n ev, match ev with NE_Accepted => 0 | NE_AcceptFailed => n + 1 | _ => n end)%N 0%N evs.

Record net_ok (max_pre_auth : usize) (evs : list NetEvent) (n : HostNetwork) : Prop := {
  no_budget : (pre_auth_connections n <= max_pre_auth)%N;
  no_room : hn_loop n = AL_Registering → (pre_auth_connections n < max_pre_auth)%N;
  no_next : (0 < hn_next_id n)%N ∧ Forall (λ c, 0 < c < hn_next_id n)%N (registered evs);
  no_sorted : StronglySorted N.lt (registered evs);
  no_known : ∀ c, is_Some (hn_peers n !! c) → c ∈ registered evs;
  no_errors : hn_consecutive_errors n = failures evs;
  no_retired : hn_loop n = AL_Retired → NE_Stop ∈ evs ∨ (MAX_CONSECUTIVE_ACCEPT_ERRORS <= failures evs)%N;
  no_stopped : hn_stopped n = true → NE_Stop ∈ evs;
}.

Lemma registered_app evs1 evs2 : registered (evs1 ++ evs2) = registered evs1 ++ registered evs2.
Proof. apply omap_app. Qed.

Lemma failures_snoc evs ev :
  failures (evs ++ [ev]) = match ev with NE_Accepted => 0 | NE_AcceptFailed => failures evs + 1 | _ => failures evs end%N.
Proof. unfold failures. by rewrite foldl_app. Qed.

Lemma sorted_snoc l c : StronglySorted N.lt l → Forall (λ d, 0 < d < c)%N l → StronglySorted N.lt (l ++ [c]).
Proof.
  induction 1 as [|d l Hs IH Hd]; intros Hc; simpl; [by repeat constructor|].
  apply list.Forall_cons in Hc as [[_ Hdc] Hc]. constructor; [by apply IH|].
  apply list.Forall_app. split; [done|]. by repeat constructor.
Qed.

(** A step of the supervisor on the table only removes or admits. *)
Lemma net_ok_peers max_pre_auth evs n ev f :
  match ev with NE_MarkAdmitted _ | NE_Close _ | NE_CloseAll => True | _ => False end →
  (∀ i, f (hn_peers n) !! i = Some false → hn_peers n !! i = Some false) →
  (∀ i, is_Some (f (hn_peers n) !! i) → is_Some (hn_peers n !! i)) →
  net_ok max_pre_auth evs n → net_ok max_pre_auth (evs ++ [ev]) (with_peers f n).
Proof.
  intros Hev Hf Hd [Hb Hr Hn Hs Hk He Hre Hst].
  assert (registered (evs ++ [ev]) = registered evs) as E by (rewrite registered_app; destruct ev; try done; apply app_nil_r).
  assert (failures (evs ++ [ev]) = failures evs) as Ef by (rewrite failures_snoc; by destruct ev).
  pose proof (pre_auth_count_mono _ _ Hf) as Hm. unfold pre_auth_connections in *.
  constructor; rewrite ?E, ?Ef; unfold pre_auth_connections in *;
    cbn [with_peers hn_peers hn_next_id hn_consecutive_errors hn_loop hn_stopped]; try done.
  - lia.
  - intros Hl. specialize (Hr Hl). lia.
  - intros c Hc. apply Hk. by apply Hd.
  - intros Hl. destruct (Hre Hl); [left; set_solver|by right].
  - intros Hl. set_solver.
Qed.

Lemma net_step_ok max_pre_auth evs n ev n' :
  net_step max_pre_auth n ev n' → net_ok max_pre_auth evs n → net_ok max_pre_auth (evs ++ [ev]) n'.
Proof.
  intros Hstep Hok. destruct Hstep as [n c|n c|n|n|n Hl|n Hl|n c n' Hl Hreg].
  - apply net_ok_peers; [done|..|done]; intros i; destruct (decide (i = c)) as [->|];
      rewrite ?lookup_alter_eq, ?lookup_alter_ne by done; try done; by destruct (hn_peers n !! c).
  - apply net_ok_peers; [done|..|done]; intros i; destruct (decide (i = c)) as [->|];
      rewrite ?lookup_delete_eq, ?lookup_delete_ne by done; try done; by intros [? [=]].
  - apply net_ok_peers; [done|..|done]; intros i; rewrite lookup_empty; try done; by intros [? [=]].
  - destruct Hok as [Hb Hr Hn Hs Hk He Hre Hst].
    constructor; rewrite ?registered_app, ?failures_snoc, ?app_nil_r; simpl; rewrite ?app_nil_r; try done; [|set_solver..].
    by destruct (hn_loop n).
  - destruct Hok as [Hb Hr Hn Hs Hk He Hre Hst]. unfold net_accepted.
    destruct (N.leb_spec max_pre_auth (pre_auth_connections n));
      constructor; rewrite ?registered_app, ?failures_snoc; simpl; rewrite ?app_nil_r; try done; set_solver.
  - destruct Hok as [Hb Hr Hn Hs Hk He Hre Hst]. unfold accept_failed.
    constructor; rewrite ?registered_app, ?failures_snoc; simpl; rewrite ?app_nil_r; rewrite ?He; try done.
    + by destruct (_ <=? _)%N.
    + destruct (N.leb_spec MAX_CONSECUTIVE_ACCEPT_ERRORS (failures evs + 1)); [intros _; by right|done].
    + set_solver.
  - destruct Hok as [Hb Hr [Hpos Hn] Hs Hk He Hre Hst]. unfold register_peer in Hreg.
    destruct (succ_u64 (hn_next_id n)) as [next|] eqn:En; [|done]. injection Hreg as <- <-.
    apply succ_u64_Some in En as [-> _]. specialize (Hr Hl).
    constructor; rewrite ?registered_app, ?failures_snoc; unfold pre_auth_connections in *;
      cbn [hn_peers hn_next_id hn_consecutive_errors hn_loop hn_stopped]; try done.
    + pose proof (pre_auth_count_register (hn_peers n) (hn_next_id n)). lia.
    + by destruct (hn_stopped n).
    + split; [lia|]. apply list.Forall_app. split; [|repeat constructor; lia].
      eapply list.Forall_impl; [exact Hn|]. simpl. lia.
    + by apply sorted_snoc.
    + intros c. destruct (decide (c = hn_next_id n)) as [->|Hne]; [set_solver|].
      rewrite lookup_insert_ne by done. intros Hc%Hk. set_solver.
    + destruct (hn_stopped n); [|done]. intros _. left. set_solver.
    + set_solver.
Qed.

Lemma net_run_ok max_pre_auth evs n : net_run max_pre_auth evs n → net_ok max_pre_auth evs n.
Proof.
  induction 1 as [|evs n ev n' _ IH Hstep]; [|by eapply net_step_ok].
  constructor; simpl; try done; [|by constructor|by intros c [? Hc]].
  unfold pre_auth_connections, pre_auth_count. simpl. rewrite map_filter_empty, map_size_empty. lia.
Qed.

(** C34.  Whatever clients and the supervisor do, and however their steps interleave
    with the accept loop's: the connections not yet admitted stay within the budget, the
    identifiers given out are new, increasing and never the host's own, and the listener
    is retired only when it is stopped or has failed 64 times in a row. *)
Theorem listener_safe max_pre_auth evs n :
  net_run max_pre_auth evs n →
  (pre_auth_connections n <= max_pre_auth)%N ∧
  StronglySorted N.lt (registered evs) ∧ Forall (λ c, 0 < c)%N (registered evs) ∧
  (∀ c, is_Some (hn_peers n !! c) → c ∈ registered evs) ∧
  (hn_loop n = AL_Retired → NE_Stop ∈ evs ∨ (MAX_CONSECUTIVE_ACCEPT_ERRORS <= failures evs)%N).
Proof.
  intros [Hb _ [_ Hn] Hs Hk _ Hre _]%net_run_ok. split_and!; try done.
  eapply list.Forall_impl; [exact Hn|]. simpl. tauto.
Qed.
