(* ===== verification/Queue.v ===== *)
(** [src/admission/queue.rs]: the bounded join-request queue.

    Request ids are allocated from one counter, shared by join requests and
    timeout requests. *)
From S2P Require Export Members.

Record JoinApplication := {
  app_nickname : rstring;
  app_introduction : option rstring;
  app_ed25519_pubkey : list byte;
  app_x25519_pubkey : list byte;
  app_signature : list byte;
}.

Record JoinRequest := {
  request_id : RequestId;
  request_connection : ConnectionId;
  application : JoinApplication;
}.

Inductive QueueError :=
| QE_Full (max : usize)
| QE_Unknown (id : RequestId).

Record JoinRequestQueue := {
  queue_limit : usize;
  queue_next_id : u64;
  pending : list JoinRequest;
}.

Definition JoinRequestQueue_new (limits : Limits) : JoinRequestQueue :=
  {| queue_limit := max_pending_requests limits; queue_next_id := 0; pending := [] |}.

Definition with_capacity (limit : usize) : JoinRequestQueue :=
  {| queue_limit := limit; queue_next_id := 0; pending := [] |}.

Definition queue_len (self : JoinRequestQueue) : usize := N.of_nat (length (pending self)).

(** [allocate_id]; [None] where the counter overflows. *)
Definition allocate_id (self : JoinRequestQueue) : option (RequestId * JoinRequestQueue) :=
  match succ_u64 (queue_next_id self) with
  | None => None
  | Some next =>
      Some (queue_next_id self,
            {| queue_limit := queue_limit self; queue_next_id := next;
               pending := pending self |})
  end.

Definition push (self : JoinRequestQueue) (c : ConnectionId) (app : JoinApplication)
    : option (Result (RequestId * JoinRequestQueue) QueueError) :=
  if (queue_limit self <=? queue_len self)%N then Some (Err (QE_Full (queue_limit self))) else
  match allocate_id self with
  | None => None
  | Some (id, q) =>
      Some (Ok (id, {| queue_limit := queue_limit q; queue_next_id := queue_next_id q;
        pending := pending q ++
          [{| request_id := id; request_connection := c; application := app |}] |}))
  end.

Definition take_request (self : JoinRequestQueue) (id : RequestId)
    : Result (JoinRequest * JoinRequestQueue) QueueError :=
  match remove_first (key_is request_id id) (pending self) with
  | None => Err (QE_Unknown id)
  | Some (r, rs) =>
      Ok (r, {| queue_limit := queue_limit self; queue_next_id := queue_next_id self;
                pending := rs |})
  end.

Definition drain (self : JoinRequestQueue) : list JoinRequest * JoinRequestQueue :=
  (pending self, {| queue_limit := queue_limit self; queue_next_id := queue_next_id self;
                    pending := [] |}).

(** * Facts *)

Lemma allocate_id_Some q id q' :
  allocate_id q = Some (id, q') →
  id = queue_next_id q ∧ (id + 1 < u64_limit)%N ∧
  q' = {| queue_limit := queue_limit q; queue_next_id := id + 1; pending := pending q |}.
Proof.
  unfold allocate_id. destruct (succ_u64 _) eqn:E; [|done].
  apply succ_u64_Some in E as [-> ?]. by intros [= <- <-].
Qed.

Lemma push_Ok q c app id q' :
  push q c app = Some (Ok (id, q')) →
  (queue_len q < queue_limit q)%N ∧ id = queue_next_id q ∧
  q' = {| queue_limit := queue_limit q; queue_next_id := id + 1;
          pending := pending q ++
            [{| request_id := id; request_connection := c; application := app |}] |}.
Proof.
  unfold push. destruct (N.leb_spec (queue_limit q) (queue_len q)); [done|].
  destruct (allocate_id q) as [[i q1]|] eqn:E; [|done].
  apply allocate_id_Some in E as (-> & _ & ->). by intros [= <- <-].
Qed.

Lemma take_request_Ok q id r q' :
  take_request q id = Ok (r, q') →
  remove_first (key_is request_id id) (pending q) = Some (r, pending q') ∧
  request_id r = id ∧ pending q ≡ₚ r :: pending q' ∧
  queue_limit q' = queue_limit q ∧ queue_next_id q' = queue_next_id q.
Proof.
  unfold take_request. destruct (remove_first _ _) as [[r' rs]|] eqn:E; [|done].
  intros [= <- <-]. simpl.
  pose proof (remove_first_Some _ _ _ _ E) as [Hf _].
  pose proof (find_first_key_Some _ _ _ _ Hf) as [_ ?].
  split_and!; [done|done|by eapply remove_first_Permutation|done|done].
Qed.

(** A pushed application gets a fresh id, is found under it once with the
    connection and application it was pushed with, and is unknown afterwards. *)
Theorem push_take q c app id q' :
  NoDup (request_id <$> pending q) →
  Forall (λ r, request_id r < queue_next_id q)%N (pending q) →
  push q c app = Some (Ok (id, q')) →
  ∃ r q'', take_request q' id = Ok (r, q'') ∧
    r = {| request_id := id; request_connection := c; application := app |} ∧
    pending q'' = pending q ∧ take_request q'' id = Err (QE_Unknown id).
Proof.
  intros Hnd Hlt (Hlen & -> & ->)%push_Ok. unfold take_request. simpl.
  assert (Hnone : remove_first (key_is request_id (queue_next_id q)) (pending q) = None).
  { apply remove_first_None, find_first_key_None. intros (r & E & Hr)%list_elem_of_fmap.
    rewrite list.Forall_forall in Hlt. specialize (Hlt r Hr). simpl in Hlt. lia. }
  assert (Happ : ∀ x rs, request_id x = queue_next_id q →
    remove_first (key_is request_id (queue_next_id q)) rs = None →
    remove_first (key_is request_id (queue_next_id q)) (rs ++ [x]) = Some (x, rs)).
  { intros x rs Hx. induction rs as [|y rs IH]; simpl.
    - intros _. unfold key_is. by rewrite bool_decide_eq_true_2.
    - destruct (key_is request_id (queue_next_id q) y); [done|].
      destruct (remove_first _ rs) as [[]|]; [done|]. intros _. by rewrite IH. }
  rewrite Happ by done. eexists _, _. split_and!; [done..|]. simpl. by rewrite Hnone.
Qed.
