(* ===== verification/RateLimit.v ===== *)
(** [src/chat/ratelimit.rs]: the token-bucket rate limiter.

    The bucket is kept in [f64]; the model computes with the IEEE-754
    binary64 operations of [SpecFloat] (53 bits of precision, exponent range
    1024), so rounding is the program's. *)
From Stdlib Require Import ZArith SpecFloat.
From S2P Require Export Limits.

Abbreviation f64 := spec_float (only parsing).

Definition f64_prec : Z := 53.
Definition f64_emax : Z := 1024.

Definition f64_of_N (n : N) : f64 := binary_normalize f64_prec f64_emax (Z.of_N n) 0 false.
Definition f64_add : f64 → f64 → f64 := SFadd f64_prec f64_emax.
Definition f64_sub : f64 → f64 → f64 := SFsub f64_prec f64_emax.
Definition f64_mul : f64 → f64 → f64 := SFmul f64_prec f64_emax.
Definition f64_div : f64 → f64 → f64 := SFdiv f64_prec f64_emax.

Definition is_nan (x : f64) : bool := match x with S754_nan => true | _ => false end.

(** [f64::min]: a NaN argument gives the other one. *)
Definition f64_min (x y : f64) : f64 :=
  if is_nan x then y else if is_nan y then x else if SFltb y x then y else x.

(** [Duration::as_secs_f64]. *)
Definition as_secs_f64 (d : Duration) : f64 :=
  f64_add (f64_of_N (d / 1000000000))
          (f64_div (f64_of_N (d mod 1000000000)) (f64_of_N 1000000000)).

Record RateLimiter := {
  capacity : f64;
  tokens : f64;
  refill_per_second : f64;
  last_refill : Duration;
  consecutive_violations : u32;
}.

Definition RateLimiter_new (burst sustained_per_second : u32) : RateLimiter := {|
  capacity := f64_of_N burst;
  tokens := f64_of_N burst;
  refill_per_second := f64_of_N sustained_per_second;
  last_refill := 0;
  consecutive_violations := 0;
|}.

Definition refill (self : RateLimiter) (now : Duration) : RateLimiter :=
  let elapsed := (now - last_refill self)%N in
  if (elapsed =? 0)%N then self else {|
    capacity := capacity self;
    tokens := f64_min (f64_add (tokens self) (f64_mul (as_secs_f64 elapsed) (refill_per_second self)))
                      (capacity self);
    refill_per_second := refill_per_second self;
    last_refill := now;
    consecutive_violations := consecutive_violations self;
  |}.

Definition f64_one : f64 := f64_of_N 1.

(** [RateLimiter::allow]; [None] where the violation counter overflows. *)
Definition allow (self : RateLimiter) (now : Duration) : option (bool * RateLimiter) :=
  let self := refill self now in
  if SFleb f64_one (tokens self) then
    Some (true, {|
      capacity := capacity self; tokens := f64_sub (tokens self) f64_one;
      refill_per_second := refill_per_second self; last_refill := last_refill self;
      consecutive_violations := 0 |})
  else
    match succ_u32 (consecutive_violations self) with
    | None => None
    | Some v =>
        Some (false, {|
          capacity := capacity self; tokens := tokens self;
          refill_per_second := refill_per_second self; last_refill := last_refill self;
          consecutive_violations := v |})
    end.

Definition is_abusive (self : RateLimiter) (termination_threshold : u32) : bool :=
  (termination_threshold <=? consecutive_violations self)%N.

(** * Floating-point order *)

Lemma SFcompare_swap x y :
  SFcompare y x = CompOpp <$> SFcompare x y.
Proof.
  assert (Hz : ∀ a b, Z.compare b a = CompOpp (Z.compare a b)) by (intros; apply Z.compare_antisym).
  assert (Hp : ∀ a b, Pos.compare_cont Eq b a = CompOpp (Pos.compare_cont Eq a b))
    by (intros; apply (Pos.compare_antisym)).
  destruct x as [[]|[]| |[] mx ex], y as [[]|[]| |[] my ey]; simpl; try done;
    rewrite (Hz ex ey), (Hp mx my);
    destruct (Z.compare ex ey); simpl; try done;
    by destruct (Pos.compare_cont Eq mx my).
Qed.

Lemma SFcompare_refl x : is_nan x = false → SFcompare x x = Some Eq.
Proof.
  destruct x as [[]|[]| |[] m e]; simpl; try done;
    rewrite Z.compare_refl; (assert (Pos.compare_cont Eq m m = Eq) as -> by apply Pos.compare_refl); done.
Qed.

Lemma SFcompare_total x y : is_nan x = false → is_nan y = false → is_Some (SFcompare x y).
Proof.
  destruct x as [[]|[]| |[] mx ex], y as [[]|[]| |[] my ey]; simpl; try done; intros; eauto;
    destruct (Z.compare ex ey); eauto.
Qed.

Lemma SFltb_false_SFleb x y :
  is_nan x = false → is_nan y = false → SFltb y x = false → SFleb x y = true.
Proof.
  intros Hx Hy. unfold SFltb, SFleb. rewrite (SFcompare_swap x y).
  destruct (SFcompare_total x y Hx Hy) as [c ->]. by destruct c.
Qed.

Lemma f64_min_le x c : is_nan c = false → SFleb (f64_min x c) c = true.
Proof.
  intros Hc. unfold f64_min. destruct (is_nan x) eqn:Hx.
  - unfold SFleb. by rewrite SFcompare_refl.
  - rewrite Hc. destruct (SFltb c x) eqn:E.
    + unfold SFleb. by rewrite SFcompare_refl.
    + by apply SFltb_false_SFleb.
Qed.

(** * The bucket *)

(** A full bucket bound: the capacity is a number and the tokens never
    exceed it at a refill. *)
Definition limiter_ok (l : RateLimiter) : Prop :=
  is_nan (capacity l) = false ∧ SFleb (tokens l) (capacity l) = true.

Lemma refill_ok l now : limiter_ok l → limiter_ok (refill l now).
Proof.
  intros [H1 H2]. unfold refill. destruct (_ =? 0)%N; [done|].
  split; [done|]. by apply f64_min_le.
Qed.

Lemma refill_same_instant l now : refill (refill l now) now = refill l now.
Proof.
  unfold refill at 1. destruct (N.eqb_spec (now - last_refill (refill l now)) 0); [done|].
  unfold refill in n. destruct (N.eqb_spec (now - last_refill l) 0); [|simpl in n]; lia.
Qed.

(** A refused message spends no token, and nothing more is allowed before the
    clock has passed the last refill. *)
Theorem denied_until_clock_advances l now l' :
  allow l now = Some (false, l') →
  tokens l' = tokens (refill l now) ∧
  ∀ now', (now' <= N.max now (last_refill l))%N →
    allow l' now' =
    match succ_u32 (consecutive_violations l') with
    | None => None
    | Some v => Some (false, {|
          capacity := capacity l'; tokens := tokens l';
          refill_per_second := refill_per_second l'; last_refill := last_refill l';
          consecutive_violations := v |})
    end.
Proof.
  unfold allow at 1. destruct (SFleb f64_one (tokens (refill l now))) eqn:E; [done|].
  destruct (succ_u32 _) as [v|] eqn:Ev; [|done]. intros [= <-]. split; [done|].
  intros now' Hnow. unfold allow. set (l' := Build_RateLimiter _ _ _ _ v).
  assert (refill l' now' = l') as ->.
  { unfold refill at 1. unfold l'. simpl.
    assert (last_refill (refill l now) = N.max now (last_refill l)) as ->.
    { unfold refill. destruct (N.eqb_spec (now - last_refill l) 0); simpl; lia. }
    by rewrite (proj2 (N.eqb_eq _ _)) by lia. }
  simpl. by rewrite E.
Qed.

(** [n] calls at one instant: the verdicts in order. *)
Fixpoint allow_n (l : RateLimiter) (now : Duration) (n : nat) : option (list bool * RateLimiter) :=
  match n with
  | O => Some ([], l)
  | S n =>
      match allow l now with
      | None => None
      | Some (ok, l') =>
          match allow_n l' now n with
          | None => None
          | Some (oks, l'') => Some (ok :: oks, l'')
          end
      end
  end.

Definition drained (v : u32) : RateLimiter := {|
  capacity := f64_of_N 5; tokens := f64_sub f64_one f64_one;
  refill_per_second := f64_one; last_refill := 0; consecutive_violations := v |}.

Lemma allow_n_drained v n :
  (v + N.of_nat n < u32_limit)%N →
  allow_n (drained v) 0 n = Some (replicate n false, drained (v + N.of_nat n)).
Proof.
  revert v. induction n as [|n IH]; intros v Hv.
  - simpl. by rewrite N.add_0_r.
  - cbn [allow_n].
    assert (allow (drained v) 0 = Some (false, drained (v + 1))) as ->.
    { unfold allow. change (refill (drained v) 0) with (drained v).
      change (SFleb f64_one (tokens (drained v))) with false. simpl.
      unfold succ_u32. by rewrite (proj2 (N.ltb_lt _ _)) by lia. }
    rewrite IH by lia. simpl. do 3 f_equal. lia.
Qed.

Lemma allow_n_app l now m n :
  allow_n l now (m + n) =
  match allow_n l now m with
  | None => None
  | Some (oks, l') =>
      match allow_n l' now n with
      | None => None
      | Some (oks', l'') => Some (oks ++ oks', l'')
      end
  end.
Proof.
  revert l. induction m as [|m IH]; intros l; simpl.
  - by destruct (allow_n l now n) as [[]|].
  - destruct (allow l now) as [[ok l']|]; [|done]. rewrite IH.
    destruct (allow_n l' now m) as [[oks l'']|]; [|done].
    by destruct (allow_n l'' now n) as [[]|].
Qed.

Lemma allow_n_burst : allow_n (RateLimiter_new 5 1) 0 5 = Some (replicate 5 true, drained 0).
Proof. vm_compute. reflexivity. Qed.

(** A fresh limiter of capacity five allows a burst of five and then refuses,
    counting consecutive violations exactly; it reports abuse from the tenth on. *)
Theorem burst_then_deny n :
  (N.of_nat n < u32_limit)%N →
  ∃ l, allow_n (RateLimiter_new 5 1) 0 (5 + n) = Some (replicate 5 true ++ replicate n false, l) ∧
    consecutive_violations l = N.of_nat n ∧
    (is_abusive l 10 = true ↔ 10 <= n).
Proof.
  intros Hn. exists (drained (N.of_nat n)). split_and!; [|done|].
  - by rewrite allow_n_app, allow_n_burst, allow_n_drained.
  - unfold is_abusive. simpl. rewrite N.leb_le. lia.
Qed.
