(* ===== verification/Replay.v ===== *)
(** [src/chat/replay.rs]: the per-sender, per-epoch replay tracker; and
    [src/chat/outbound.rs]: the bounded outgoing queue of a connection. *)
From Stdlib Require Import Sorting.Sorted.
From S2P Require Export Members Prelude.

Abbreviation ReplayTracker := (gmap (MemberId * u64) u64) (only parsing).

Definition ReplayTracker_new : ReplayTracker := ∅.

Definition accept (self : ReplayTracker) (sender : MemberId) (epoch sequence : u64)
    : bool * ReplayTracker :=
  let key := (sender, epoch) in
  match self !! key with
  | Some last =>
      if (sequence <=? last)%N then (false, self) else (true, <[key := sequence]> self)
  | None => (true, <[key := sequence]> self)
  end.

Definition last_accepted (self : ReplayTracker) (sender : MemberId) (epoch : u64) : option u64 :=
  self !! (sender, epoch).

Definition retain_epoch (self : ReplayTracker) (current_epoch : u64) : ReplayTracker :=
  filter (λ p, snd (fst p) = current_epoch) self.

(** Is [sequence] fresh for the tracker, as [accept] decides it. *)
Definition fresh_sequence (self : ReplayTracker) (sender : MemberId) (epoch sequence : u64) : Prop :=
  ∀ last, self !! (sender, epoch) = Some last → (last < sequence)%N.

Lemma accept_spec t s e q :
  let (ok, t') := accept t s e q in
  (ok = true ↔ fresh_sequence t s e q) ∧
  (ok = true → t' = <[(s, e) := q]> t) ∧ (ok = false → t' = t).
Proof.
  unfold accept, fresh_sequence. destruct (t !! (s, e)) as [last|] eqn:E; [|naive_solver].
  destruct (N.leb_spec q last) as [H|H]; split_and!; try done; [|naive_solver].
  split; [done|]. intros Hf. specialize (Hf last eq_refl). lia.
Qed.

Lemma accept_true t s e q t' :
  accept t s e q = (true, t') → fresh_sequence t s e q ∧ t' = <[(s, e) := q]> t.
Proof. pose proof (accept_spec t s e q). destruct (accept _ _ _ _). naive_solver. Qed.

(** What a window ends at was there, or is what was just offered. *)
Lemma accept_last t s e q last :
  last_accepted (snd (accept t s e q)) s e = Some last → last = q ∨ last_accepted t s e = Some last.
Proof.
  unfold accept, last_accepted. destruct (t !! (s, e)) as [l|] eqn:E.
  - destruct (q <=? l)%N; cbn [snd]; [rewrite E; by right|]. rewrite lookup_insert_eq. intros [= <-]. by left.
  - cbn [snd]. rewrite lookup_insert_eq. intros [= <-]. by left.
Qed.

Lemma retain_epoch_lookup t cur s e :
  last_accepted (retain_epoch t cur) s e =
  if bool_decide (e = cur) then last_accepted t s e else None.
Proof.
  unfold last_accepted, retain_epoch. case_bool_decide as He.
  - destruct (t !! (s, e)) as [v|] eqn:E.
    + by apply map_lookup_filter_Some.
    + apply map_lookup_filter_None. by left.
  - apply map_lookup_filter_None. right. naive_solver.
Qed.

(** A run of the tracker: the sequences accepted from [s] in epoch [e]. *)
Fixpoint accepted_of (t : ReplayTracker) (ops : list (MemberId * u64 * u64))
    (s : MemberId) (e : u64) : list u64 :=
  match ops with
  | [] => []
  | (s', e', q) :: ops =>
      let (ok, t') := accept t s' e' q in
      if ok && bool_decide ((s', e') = (s, e)) then q :: accepted_of t' ops s e
      else accepted_of t' ops s e
  end.

Lemma accepted_of_sorted t ops s e :
  Sorted N.lt (accepted_of t ops s e) ∧
  (∀ last, t !! (s, e) = Some last → Forall (λ q, last < q)%N (accepted_of t ops s e)).
Proof.
  revert t. induction ops as [|[[s' e'] q] ops IH]; intros t; simpl; [by split; constructor|].
  destruct (accept t s' e' q) as [ok t'] eqn:E.
  pose proof (accept_spec t s' e' q) as Hs. rewrite E in Hs. destruct Hs as (Hok & Ht & Hf).
  destruct ok; simpl; [|rewrite (Hf eq_refl); apply IH].
  rewrite (Ht eq_refl). specialize (proj1 Hok eq_refl) as Hfresh.
  destruct (IH (<[(s', e') := q]> t)) as [Hsort Hlt].
  case_bool_decide as Hk; simplify_eq.
  - specialize (Hlt q ltac:(by rewrite lookup_insert_eq)). split.
    + constructor; [done|]. destruct (accepted_of _ ops s e); constructor.
      by apply list.Forall_cons in Hlt as [? _].
    + intros last Hl. specialize (Hfresh last Hl). constructor; [done|].
      eapply list.Forall_impl; [done|]. simpl. lia.
  - split; [done|]. intros last Hl. apply Hlt. by rewrite lookup_insert_ne.
Qed.

(** Over any history, the sequence numbers the tracker accepts from one sender
    in one epoch are strictly increasing. *)
Theorem replay_strictly_increasing ops s e :
  StronglySorted N.lt (accepted_of ReplayTracker_new ops s e).
Proof.
  apply Sorted_StronglySorted; [intros ???; lia|]. apply accepted_of_sorted.
Qed.

Record OutboundQueue (T : Type) := { out_capacity : usize; items : list T }.
Arguments out_capacity {T} _.
Arguments items {T} _.

Section outbound.
Context {T : Type}.
Implicit Types (self : OutboundQueue T).

Definition OutboundQueue_new (capacity : usize) : OutboundQueue T :=
  {| out_capacity := capacity; items := [] |}.

Definition out_is_full self : bool := (out_capacity self <=? N.of_nat (length (items self)))%N.

(** [Err(QueueFull)] is [None]: the queue is untouched. *)
Definition out_push self (item : T) : option (OutboundQueue T) :=
  if out_is_full self then None
  else Some {| out_capacity := out_capacity self; items := items self ++ [item] |}.

Definition out_pop self : option (T * OutboundQueue T) :=
  match items self with
  | [] => None
  | x :: xs => Some (x, {| out_capacity := out_capacity self; items := xs |})
  end.

(** A run of pushes and pops: the accepted items, the delivered ones and
    the final queue. *)
Inductive OutOp := Push (x : T) | Pop.

Fixpoint out_run self (ops : list OutOp) : list T * list T * OutboundQueue T :=
  match ops with
  | [] => ([], [], self)
  | Push x :: ops =>
      match out_push self x with
      | None => out_run self ops
      | Some q => let '(ins, outs, q') := out_run q ops in (x :: ins, outs, q')
      end
  | Pop :: ops =>
      match out_pop self with
      | None => out_run self ops
      | Some (x, q) => let '(ins, outs, q') := out_run q ops in (ins, x :: outs, q')
      end
  end.

(** The outbound queue is a bounded FIFO: over any run what comes out is what
    was accepted, in order, and the bound is never exceeded. *)
Theorem out_run_fifo self ops :
  (N.of_nat (length (items self)) <= out_capacity self)%N →
  let '(ins, outs, q) := out_run self ops in
  items self ++ ins = outs ++ items q ∧ out_capacity q = out_capacity self ∧
  (N.of_nat (length (items q)) <= out_capacity self)%N.
Proof.
  revert self. induction ops as [|[x|] ops IH]; intros self Hself; simpl.
  - by rewrite app_nil_r.
  - unfold out_push, out_is_full.
    destruct (N.leb_spec (out_capacity self) (N.of_nat (length (items self)))); [by apply IH|].
    set (q := {| out_capacity := out_capacity self; items := items self ++ [x] |}).
    assert (N.of_nat (length (items q)) <= out_capacity q)%N as Hq.
    { simpl. rewrite length_app. simpl. lia. }
    specialize (IH q Hq). destruct (out_run q ops) as [[ins outs] q'].
    simpl in IH. rewrite <-app_assoc in IH. done.
  - unfold out_pop. destruct (items self) as [|x xs] eqn:E.
    + specialize (IH self). rewrite E in IH. by apply IH.
    + set (q := {| out_capacity := out_capacity self; items := xs |}).
      assert (N.of_nat (length (items q)) <= out_capacity q)%N as Hq.
      { simpl in *. lia. }
      specialize (IH q Hq). destruct (out_run q ops) as [[ins outs] q'].
      simpl in *. destruct IH as (-> & ? & ?). done.
Qed.
End outbound.
