(* ===== verification/PasswordGuard.v ===== *)
(** [src/admission/guard.rs]: the room-lifetime brake on password guessing.

    An [Instant] is a number of nanoseconds; [checked_add] fails past
    [instant_limit]. *)
From S2P Require Export Limits.

Definition PASSWORD_FAILURE_THRESHOLD : u32 := 5.
Definition PASSWORD_LOCKOUT_BASE : Duration := from_secs 30.
Definition PASSWORD_LOCKOUT_MAX : Duration := from_secs (15 * 60).

Abbreviation Instant := N (only parsing).

(** The range of [Instant] (64-bit signed seconds). *)
Definition instant_limit : N := 2 ^ 63 * 1000000000.

Definition checked_add (now : Instant) (d : Duration) : option Instant :=
  if (now + d <? instant_limit)%N then Some (now + d)%N else None.

Record PasswordGuard := {
  failures : u32;
  lockouts : u32;
  locked_until : option Instant;
}.

Definition PasswordGuard_new : PasswordGuard :=
  {| failures := 0; lockouts := 0; locked_until := None |}.

(** [Duration::checked_mul] succeeds: the seconds of the product fit 64
    bits for every 32-bit factor of the base window. *)
Definition next_window (self : PasswordGuard) : Duration :=
  let shift := N.min (lockouts self) 31 in
  N.min (PASSWORD_LOCKOUT_BASE * N.shiftl 1 shift) PASSWORD_LOCKOUT_MAX.

(** [record_failure]; [None] where a counter overflows. *)
Definition record_failure (self : PasswordGuard) (now : Instant)
    : option (option Duration * PasswordGuard) :=
  match succ_u32 (failures self) with
  | None => None
  | Some f =>
      if negb (f mod PASSWORD_FAILURE_THRESHOLD =? 0)%N then
        Some (None, {| failures := f; lockouts := lockouts self;
                       locked_until := locked_until self |})
      else
        let window := next_window self in
        match succ_u32 (lockouts self) with
        | None => None
        | Some l =>
            Some (Some window, {| failures := f; lockouts := l;
              locked_until := match checked_add now window with
                              | Some u => Some u
                              | None => locked_until self
                              end |})
        end
  end.

Definition is_locked (self : PasswordGuard) (now : Instant) : bool :=
  match locked_until self with Some until => (now <? until)%N | None => false end.

Definition remaining (self : PasswordGuard) (now : Instant) : option Duration :=
  match locked_until self with
  | Some until => if (now <? until)%N then Some (until - now)%N else None
  | None => None
  end.

(** * Windows *)

(** The window of the [n]-th lockout. *)
Definition window (n : N) : Duration := next_window {| failures := 0; lockouts := n; locked_until := None |}.

Lemma next_window_eq g : next_window g = window (lockouts g).
Proof. unfold window, next_window. cbn [lockouts]. reflexivity. Qed.

(** The windows are 30, 60, 120, 240 and 480 seconds, then 15 minutes. *)
Lemma window_doubles_and_saturates n :
  window n = if (n <? 5)%N then (PASSWORD_LOCKOUT_BASE * 2 ^ n)%N else PASSWORD_LOCKOUT_MAX.
Proof.
  unfold window, next_window. simpl lockouts. rewrite N.shiftl_1_l.
  destruct (N.ltb_spec n 5) as [H|H].
  - assert (n = 0 ∨ n = 1 ∨ n = 2 ∨ n = 3 ∨ n = 4)%N as [->|[->|[->|[->| ->]]]] by lia; reflexivity.
  - apply N.min_r. assert (2 ^ 5 <= 2 ^ N.min n 31)%N by (apply N.pow_le_mono_r; lia).
    unfold PASSWORD_LOCKOUT_BASE, PASSWORD_LOCKOUT_MAX, from_secs. lia.
Qed.

Lemma window_le n : (PASSWORD_LOCKOUT_BASE <= window n <= PASSWORD_LOCKOUT_MAX)%N.
Proof.
  unfold window, next_window. simpl lockouts. rewrite N.shiftl_1_l.
  assert (1 <= 2 ^ N.min n 31)%N by (pose proof (N.pow_nonzero 2 (N.min n 31)); lia).
  unfold PASSWORD_LOCKOUT_BASE, PASSWORD_LOCKOUT_MAX, from_secs. lia.
Qed.

(** * Guessing under the gate *)

(** A history of failed proofs, each made while the gate was open and the
    clock did not go back. *)
Inductive guesses (start : Instant) : PasswordGuard → Instant → Prop :=
| guesses_none : guesses start PasswordGuard_new start
| guesses_fail g now now' w g' :
    guesses start g now → (now <= now')%N → is_locked g now' = false →
    record_failure g now' = Some (w, g') → guesses start g' now'.

(** The total length of the first [n] windows. *)
Fixpoint windows_upto (n : nat) : Duration :=
  match n with O => 0 | S n => windows_upto n + window (N.of_nat n) end%N.

(** The invariant of a gated history; the last line is the brake: every
    window but the running one has been waited for. *)
Lemma guesses_spec start g now :
  guesses start g now → (now + PASSWORD_LOCKOUT_MAX < instant_limit)%N →
  lockouts g = (failures g / 5)%N ∧
  match locked_until g with
  | None => lockouts g = 0%N
  | Some u => (start + windows_upto (N.to_nat (lockouts g)) <= u)%N ∧
      (u <= now + PASSWORD_LOCKOUT_MAX)%N
  end ∧
  (start + windows_upto (N.to_nat ((failures g - 1) / 5)) <= now)%N.
Proof.
  induction 1 as [|g now now' w g' Hg IH Hle Hopen Hrec]; intros Hlim.
  { split_and!; [done..|]. change (start + 0 <= start)%N. lia. }
  destruct IH as (Hl & Hu & Hw); [lia|].
  assert (Hpast : (start + windows_upto (N.to_nat (lockouts g)) <= now')%N).
  { unfold is_locked in Hopen. destruct (locked_until g) as [u|].
    - destruct (N.ltb_spec now' u); [done|]. lia.
    - rewrite Hu in Hl |- *.
      assert ((failures g - 1) / 5 = 0)%N as E.
      { clear -Hl. zify. Z.to_euclidean_division_equations. lia. }
      rewrite E in Hw. simpl in *. lia. }
  unfold record_failure in Hrec.
  destruct (succ_u32 (failures g)) as [f|] eqn:Ef; [|done].
  apply succ_u32_Some in Ef as [-> ?].
  assert (Hpred : ((failures g + 1 - 1) / 5 = lockouts g)%N) by (rewrite Hl; f_equal; lia).
  unfold PASSWORD_FAILURE_THRESHOLD in Hrec.
  destruct (N.eqb_spec ((failures g + 1) mod 5) 0) as [E|E]; cbn [negb] in Hrec.
  - destruct (succ_u32 (lockouts g)) as [l|] eqn:El; [|done]. apply succ_u32_Some in El as [-> ?].
    simplify_eq/=. rewrite next_window_eq, Hpred.
    pose proof (window_le (lockouts g)). unfold checked_add.
    rewrite (proj2 (N.ltb_lt _ _)) by lia.
    rewrite N.add_1_r, N2Nat.inj_succ. cbn [windows_upto]. rewrite N2Nat.id.
    split_and!; [|lia..].
    rewrite Hl. zify. Z.to_euclidean_division_equations. lia.
  - simplify_eq/=. rewrite Hpred. split_and!; [|destruct (locked_until g); lia|done].
    rewrite Hl. zify. Z.to_euclidean_division_equations. lia.
Qed.

Lemma windows_upto_saturated n :
  (930000000000 + N.of_nat n * PASSWORD_LOCKOUT_MAX)%N = windows_upto (5 + n).
Proof.
  induction n as [|n IH]; [reflexivity|].
  rewrite Nat.add_succ_r. cbn [windows_upto]. rewrite <-IH, window_doubles_and_saturates.
  rewrite (proj2 (N.ltb_ge _ 5)) by lia. lia.
Qed.

(** Online guessing is slow: whatever the attacker's schedule and however many
    connections it uses, to have made n failed attempts it must have waited out every
    lockout window but the last, so that past 25 failures each further five cost a full
    maximal window. *)
Theorem guessing_is_braked start g now :
  guesses start g now → (now + PASSWORD_LOCKOUT_MAX < instant_limit)%N →
  (start + windows_upto (N.to_nat ((failures g - 1) / 5)) <= now)%N ∧
  (25 < failures g →
   start + 930000000000 + ((failures g - 1) / 5 - 5) * PASSWORD_LOCKOUT_MAX <= now)%N.
Proof.
  intros Hg Hlim. destruct (guesses_spec _ _ _ Hg Hlim) as (_ & _ & Hw).
  split; [done|]. intros Hf.
  assert (5 <= (failures g - 1) / 5)%N.
  { clear -Hf. zify. Z.to_euclidean_division_equations. lia. }
  etrans; [|exact Hw].
  replace (N.to_nat ((failures g - 1) / 5)) with (5 + N.to_nat ((failures g - 1) / 5 - 5)) by lia.
  rewrite <-windows_upto_saturated, N2Nat.id. lia.
Qed.

(** Every fifth failure locks the guard for exactly the announced window, and
    the remaining time it reports is exact. *)
Theorem threshold_failure_locks g now w g' :
  record_failure g now = Some (Some w, g') → (now + PASSWORD_LOCKOUT_MAX < instant_limit)%N →
  w = window (lockouts g) ∧ (failures g' mod 5 = 0)%N ∧
  ∀ t, (now <= t)%N → is_locked g' t = (t <? now + w)%N ∧
    remaining g' t = if (t <? now + w)%N then Some (now + w - t)%N else None.
Proof.
  intros Hrec Hlim. unfold record_failure in Hrec.
  destruct (succ_u32 (failures g)) as [f|]; [|done].
  unfold PASSWORD_FAILURE_THRESHOLD in Hrec.
  destruct (N.eqb_spec (f mod 5) 0); cbn [negb] in Hrec; [|done].
  destruct (succ_u32 (lockouts g)) as [l|]; [|done]. simplify_eq/=.
  pose proof (window_le (lockouts g)) as Hw. rewrite next_window_eq.
  unfold is_locked, remaining, checked_add. simpl.
  rewrite (proj2 (N.ltb_lt (now + _) _)) by lia.
  split_and!; [reflexivity|assumption|]. intros t _. split; reflexivity.
Qed.
