(* ===== verification/Transcript.v ===== *)
(** [src/crypto/transcript.rs]: canonical signature transcripts, and the two
    byte layouts of [src/crypto/chat.rs].

    A builder is its buffer; each method appends.  The theorems say that the
    signed bytes determine what was signed. *)
From Stdlib Require Import Strings.String.
From S2P Require Export Bytes Text Ids.

Definition HOST_HELLO_LABEL : rstring := lit "VEILROOM-HOST-HELLO-V1".
Definition JOIN_REQUEST_LABEL : rstring := lit "VEILROOM-JOIN-REQUEST-V1".
Definition ROOM_EVENT_LABEL : rstring := lit "VEILROOM-ROOM-EVENT-V1".
Definition CHAT_MESSAGE_LABEL : rstring := lit "VEILROOM-CHAT-MESSAGE-V1".
Definition EPOCH_WRAP_LABEL : rstring := lit "VEILROOM-EPOCH-WRAP-V1".
Definition MEMBER_WRAP_KEY_LABEL : rstring := lit "VEILROOM-MEMBER-WRAP-KEY-V1".
Definition CHAT_AAD_LABEL : rstring := lit "VEILROOM-CHAT-AAD-V1".

(** * The builder *)

Abbreviation TranscriptBuilder := (list byte) (only parsing).

Definition tb_new : TranscriptBuilder := [].
Definition tb_u8 (value : u8) (b : TranscriptBuilder) : TranscriptBuilder := b ++ [byte_of value].
Definition tb_u16 (value : u16) (b : TranscriptBuilder) : TranscriptBuilder := b ++ be_bytes 2 value.
Definition tb_u32 (value : u32) (b : TranscriptBuilder) : TranscriptBuilder := b ++ be_bytes 4 value.
Definition tb_u64 (value : u64) (b : TranscriptBuilder) : TranscriptBuilder := b ++ be_bytes 8 value.
Definition tb_bytes (bs : list byte) (b : TranscriptBuilder) : TranscriptBuilder :=
  (b ++ be_bytes 4 (N.of_nat (length bs) mod u32_limit)) ++ bs.
Definition tb_label (label : rstring) (b : TranscriptBuilder) : TranscriptBuilder :=
  tb_bytes (utf8 label) b.
Definition tb_fixed (bs : list byte) (b : TranscriptBuilder) : TranscriptBuilder := b ++ bs.

Notation "b ▷ f" := (f b) (at level 50, left associativity, only parsing) : result_scope.
Local Open Scope result_scope.

(** * Transcripts *)

Definition room_event_transcript (version : u8) (room_session_id : list byte)
    (sequence epoch : u64) (event_type : u8) (body : list byte) : list byte :=
  tb_new ▷ tb_label ROOM_EVENT_LABEL ▷ tb_u8 version ▷ tb_fixed room_session_id
  ▷ tb_u64 sequence ▷ tb_u64 epoch ▷ tb_u8 event_type ▷ tb_bytes body.

Definition member_joined_body (member_id : u64) (nickname : rstring) (ed25519_pubkey : list byte)
    : list byte :=
  tb_new ▷ tb_u64 member_id ▷ tb_bytes (utf8 nickname) ▷ tb_fixed ed25519_pubkey.

Definition member_gone_body (member_id : u64) : list byte := tb_new ▷ tb_u64 member_id.

Definition join_policy_body (open : bool) : list byte := [byte_of (if open then 1 else 0)].

Record SnapshotBodyMember := {
  sb_member_id : u64;
  sb_nickname : rstring;
  sb_color_index : u8;
  sb_is_host : bool;
  sb_ed25519_pubkey : list byte;
}.

(** One turn of the loop of [member_snapshot_body]. *)
Definition snapshot_row (b : TranscriptBuilder) (m : SnapshotBodyMember) : TranscriptBuilder :=
  b ▷ tb_u64 (sb_member_id m) ▷ tb_bytes (utf8 (sb_nickname m)) ▷ tb_u8 (sb_color_index m)
  ▷ tb_u8 (if sb_is_host m then 1 else 0)%N ▷ tb_fixed (sb_ed25519_pubkey m).

Definition member_snapshot_body (members : list SnapshotBodyMember) : list byte :=
  foldl snapshot_row (tb_new ▷ tb_u64 (N.of_nat (length members))) members.

Record HostHelloTranscriptInput := {
  hh_version : u8;
  hh_onion_address : rstring;
  hh_virtual_port : u16;
  hh_room_session_id : list byte;
  hh_host_ed25519_pubkey : list byte;
  hh_host_x25519_pubkey : list byte;
  hh_client_nonce : list byte;
  hh_server_nonce : list byte;
  hh_token_hash : list byte;
  hh_offered_version : u8;
  hh_client_features : u32;
}.

Definition host_hello_transcript (input : HostHelloTranscriptInput) : list byte :=
  tb_new ▷ tb_label HOST_HELLO_LABEL ▷ tb_u8 (hh_version input)
  ▷ tb_bytes (utf8 (hh_onion_address input)) ▷ tb_u16 (hh_virtual_port input)
  ▷ tb_fixed (hh_room_session_id input) ▷ tb_fixed (hh_host_ed25519_pubkey input)
  ▷ tb_fixed (hh_host_x25519_pubkey input) ▷ tb_fixed (hh_client_nonce input)
  ▷ tb_fixed (hh_server_nonce input) ▷ tb_fixed (hh_token_hash input)
  ▷ tb_u8 (hh_offered_version input) ▷ tb_u32 (hh_client_features input).

Record JoinRequestTranscriptInput := {
  jr_version : u8;
  jr_room_session_id : list byte;
  jr_client_nonce : list byte;
  jr_server_nonce : list byte;
  jr_nickname : rstring;
  jr_introduction_hash : list byte;
  jr_participant_ed25519_pubkey : list byte;
  jr_participant_x25519_pubkey : list byte;
  jr_onion_address : rstring;
  jr_token_hash : list byte;
}.

Definition join_request_transcript (input : JoinRequestTranscriptInput) : list byte :=
  tb_new ▷ tb_label JOIN_REQUEST_LABEL ▷ tb_u8 (jr_version input)
  ▷ tb_fixed (jr_room_session_id input) ▷ tb_fixed (jr_client_nonce input)
  ▷ tb_fixed (jr_server_nonce input) ▷ tb_bytes (utf8 (jr_nickname input))
  ▷ tb_fixed (jr_introduction_hash input) ▷ tb_fixed (jr_participant_ed25519_pubkey input)
  ▷ tb_fixed (jr_participant_x25519_pubkey input) ▷ tb_bytes (utf8 (jr_onion_address input))
  ▷ tb_fixed (jr_token_hash input).

(** [chat_aad] and [chat_transcript] of [src/crypto/chat.rs]. *)
Definition chat_aad (version : u8) (room_session_id : list byte)
    (epoch sender_id sender_sequence : u64) (message_type : u8) : list byte :=
  utf8 CHAT_AAD_LABEL ++ [byte_of version] ++ room_session_id ++ be_bytes 8 epoch
  ++ be_bytes 8 sender_id ++ be_bytes 8 sender_sequence ++ [byte_of message_type].

Definition chat_transcript (version : u8) (room_session_id : list byte)
    (epoch sender_id sender_sequence : u64) (message_type : u8)
    (nonce ciphertext : list byte) : list byte :=
  tb_new ▷ tb_label CHAT_MESSAGE_LABEL ▷ tb_u8 version ▷ tb_fixed room_session_id
  ▷ tb_u64 epoch ▷ tb_u64 sender_id ▷ tb_u64 sender_sequence ▷ tb_u8 message_type
  ▷ tb_fixed nonce ▷ tb_bytes ciphertext.

(** * Reading a field back *)

Definition is_u8 (v : N) : Prop := (v < 256)%N.
Definition is_u64 (v : N) : Prop := (v < u64_limit)%N.

(** A string short enough for its length to fit the [u32] prefix. *)
Definition short (bs : list byte) : Prop := (N.of_nat (length bs) < u32_limit)%N.

(** A length-prefixed string. *)
Definition field (bs : list byte) : list byte :=
  be_bytes 4 (N.of_nat (length bs) mod u32_limit) ++ bs.

Lemma tb_bytes_field bs b : tb_bytes bs b = b ++ field bs.
Proof. unfold tb_bytes, field. by rewrite app_assoc. Qed.

Lemma field_inj b1 b2 r1 r2 :
  short b1 → short b2 → field b1 ++ r1 = field b2 ++ r2 → b1 = b2 ∧ r1 = r2.
Proof.
  unfold short, field, u32_limit. intros H1 H2. rewrite <-!app_assoc. intros E.
  apply app_inj_length in E as [E1 E2]; [|by rewrite !length_be_bytes].
  apply be_bytes_inj in E1; [|simpl; by apply N.mod_lt..].
  rewrite !N.mod_small in E1 by done.
  apply app_inj_length in E2; [done|lia].
Qed.

Lemma u64_inj v1 v2 r1 r2 :
  is_u64 v1 → is_u64 v2 → be_bytes 8 v1 ++ r1 = be_bytes 8 v2 ++ r2 → v1 = v2 ∧ r1 = r2.
Proof.
  intros H1 H2 E. apply app_inj_length in E as [E ->]; [|by rewrite !length_be_bytes].
  split; [|done]. by apply be_bytes_inj in E.
Qed.

Lemma u8_inj v1 v2 r1 r2 :
  is_u8 v1 → is_u8 v2 → byte_of v1 :: r1 = byte_of v2 :: r2 → v1 = v2 ∧ r1 = r2.
Proof.
  intros H1 H2 E. injection E as E ->. split; [|done].
  apply (f_equal byte_val) in E. by rewrite !byte_val_of, !N.mod_small in E.
Qed.

Lemma fixed_inj (b1 b2 r1 r2 : list byte) n :
  length b1 = n → length b2 = n → b1 ++ r1 = b2 ++ r2 → b1 = b2 ∧ r1 = r2.
Proof. intros <- H2 E. by apply app_inj_length in E. Qed.

(** Right-associated form of a built transcript. *)
Ltac unfold_builder :=
  unfold tb_label, tb_u8, tb_u16, tb_u32, tb_u64, tb_fixed, tb_new in *;
  rewrite ?tb_bytes_field in *; rewrite <-?app_assoc in *; cbn [app] in *.

(** Peels the fields of two equal transcripts off a hypothesis. *)
Ltac peel E :=
  repeat match type of E with
  | be_bytes 8 _ ++ _ = be_bytes 8 _ ++ _ =>
      apply u64_inj in E as [? E]; [|assumption..]
  | field _ ++ _ = field _ ++ _ => apply field_inj in E as [? E]; [|assumption..]
  | byte_of _ :: _ = byte_of _ :: _ => apply u8_inj in E as [? E]; [|assumption..]
  | ?a ++ _ = ?b ++ _ => eapply fixed_inj in E as [? E]; [|eassumption..]
  end.

(** * Room events *)

(** The transcript of a host broadcast determines its session, sequence,
    epoch, type and body. *)
Theorem room_event_transcript_inj v1 s1 q1 e1 t1 b1 v2 s2 q2 e2 t2 b2 :
  is_u8 v1 → is_u8 v2 → length s1 = 32 → length s2 = 32 →
  is_u64 q1 → is_u64 q2 → is_u64 e1 → is_u64 e2 → is_u8 t1 → is_u8 t2 → short b1 → short b2 →
  room_event_transcript v1 s1 q1 e1 t1 b1 = room_event_transcript v2 s2 q2 e2 t2 b2 →
  v1 = v2 ∧ s1 = s2 ∧ q1 = q2 ∧ e1 = e2 ∧ t1 = t2 ∧ b1 = b2.
Proof.
  intros. match goal with H : _ = room_event_transcript _ _ _ _ _ _ |- _ => rename H into E end.
  unfold room_event_transcript in E. unfold_builder.
  apply app_inj_length in E as [_ E]; [|done].
  rewrite <-(app_nil_r (field b1)), <-(app_nil_r (field b2)) in E. peel E. done.
Qed.

(** The signed chat transcript determines every field: no two different
    messages share a signature's bytes. *)
Theorem chat_transcript_inj v1 s1 e1 i1 q1 t1 n1 c1 v2 s2 e2 i2 q2 t2 n2 c2 :
  is_u8 v1 → is_u8 v2 → length s1 = 32 → length s2 = 32 →
  is_u64 e1 → is_u64 e2 → is_u64 i1 → is_u64 i2 → is_u64 q1 → is_u64 q2 →
  is_u8 t1 → is_u8 t2 → length n1 = 24 → length n2 = 24 → short c1 → short c2 →
  chat_transcript v1 s1 e1 i1 q1 t1 n1 c1 = chat_transcript v2 s2 e2 i2 q2 t2 n2 c2 →
  (v1, s1, e1, i1, q1, t1, n1, c1) = (v2, s2, e2, i2, q2, t2, n2, c2).
Proof.
  intros. match goal with H : _ = chat_transcript _ _ _ _ _ _ _ _ |- _ => rename H into E end.
  unfold chat_transcript in E. unfold_builder.
  apply app_inj_length in E as [_ E]; [|done].
  rewrite <-(app_nil_r (field c1)), <-(app_nil_r (field c2)) in E. peel E. congruence.
Qed.

(** * Bodies *)

Lemma member_gone_body_inj i1 i2 :
  is_u64 i1 → is_u64 i2 → member_gone_body i1 = member_gone_body i2 → i1 = i2.
Proof. intros H1 H2 E. by apply be_bytes_inj in E. Qed.

(** A nickname the table may hold: valid scalars, short encoding. *)
Definition text_ok (s : rstring) : Prop :=
  Forall (λ c, is_scalar c = true) s ∧ short (utf8 s).

Lemma member_joined_body_inj i1 n1 k1 i2 n2 k2 :
  is_u64 i1 → is_u64 i2 → text_ok n1 → text_ok n2 →
  member_joined_body i1 n1 k1 = member_joined_body i2 n2 k2 → i1 = i2 ∧ n1 = n2 ∧ k1 = k2.
Proof.
  intros ?? [??] [??] E. unfold member_joined_body in E. unfold_builder. peel E.
  split_and!; [done| |done]. by apply utf8_inj.
Qed.

Definition body_row (m : SnapshotBodyMember) : list byte :=
  be_bytes 8 (sb_member_id m) ++ field (utf8 (sb_nickname m)) ++ byte_of (sb_color_index m)
  :: byte_of (if sb_is_host m then 1 else 0) :: sb_ed25519_pubkey m.

Lemma body_row_app m rest :
  body_row m ++ rest =
  be_bytes 8 (sb_member_id m) ++ field (utf8 (sb_nickname m)) ++ byte_of (sb_color_index m)
  :: byte_of (if sb_is_host m then 1 else 0) :: sb_ed25519_pubkey m ++ rest.
Proof. unfold body_row. by rewrite <-!app_assoc. Qed.

Lemma member_snapshot_body_rows ms :
  member_snapshot_body ms = be_bytes 8 (N.of_nat (length ms)) ++ flat_map body_row ms.
Proof.
  assert (H : ∀ b, foldl snapshot_row b ms = b ++ flat_map body_row ms).
  { induction ms as [|m ms IH]; intros b; simpl; [by rewrite app_nil_r|].
    rewrite IH. unfold snapshot_row, body_row. unfold_builder. done. }
  apply H.
Qed.

Definition body_member_ok (m : SnapshotBodyMember) : Prop :=
  is_u64 (sb_member_id m) ∧ text_ok (sb_nickname m) ∧ is_u8 (sb_color_index m) ∧
  length (sb_ed25519_pubkey m) = 32.

Lemma flag_u8 (b : bool) : is_u8 (if b then 1 else 0)%N.
Proof. unfold is_u8. destruct b; lia. Qed.

(** The signed body of a member snapshot determines the whole member list. *)
Theorem member_snapshot_body_inj ms1 ms2 :
  is_u64 (N.of_nat (length ms1)) → is_u64 (N.of_nat (length ms2)) →
  Forall body_member_ok ms1 → Forall body_member_ok ms2 →
  member_snapshot_body ms1 = member_snapshot_body ms2 → ms1 = ms2.
Proof.
  rewrite !member_snapshot_body_rows. intros ?? H1 H2 E. peel E.
  assert (Hlen : length ms1 = length ms2) by lia. clear -H1 H2 E Hlen. revert ms2 H2 E Hlen.
  induction H1 as [|m1 ms1 (Hi & [Hs Hn] & Hc & Hk) _ IH]; intros [|m2 ms2] H2 E Hlen;
    cbn [length flat_map] in *; [done..|].
  apply list.Forall_cons in H2 as [(Hi' & [Hs' Hn'] & Hc' & Hk') H2].
  rewrite !body_row_app in E.
  apply u64_inj in E as [Ei E]; [|done..]. apply field_inj in E as [En E]; [|done..].
  apply u8_inj in E as [Ec E]; [|done..].
  apply u8_inj in E as [Eh E]; [|apply flag_u8..].
  eapply fixed_inj in E as [Ek E]; [|done..].
  f_equal; [|apply IH; auto].
  apply utf8_inj in En; [|done..].
  assert (sb_is_host m1 = sb_is_host m2) by (by destruct (sb_is_host m1), (sb_is_host m2)).
  destruct m1, m2; simplify_eq/=. congruence.
Qed.

(** * Domain separation *)

(** The four signed transcripts and the bytes each starts with. *)
Inductive Signed :=
| Signed_host_hello (i : HostHelloTranscriptInput)
| Signed_join_request (i : JoinRequestTranscriptInput)
| Signed_room_event (v : u8) (s : list byte) (q e : u64) (t : u8) (b : list byte)
| Signed_chat (v : u8) (s : list byte) (e i q : u64) (t : u8) (n c : list byte).

Definition signed_bytes (s : Signed) : list byte :=
  match s with
  | Signed_host_hello i => host_hello_transcript i
  | Signed_join_request i => join_request_transcript i
  | Signed_room_event v s q e t b => room_event_transcript v s q e t b
  | Signed_chat v s e i q t n c => chat_transcript v s e i q t n c
  end.

Definition signed_label (s : Signed) : rstring :=
  match s with
  | Signed_host_hello _ => HOST_HELLO_LABEL
  | Signed_join_request _ => JOIN_REQUEST_LABEL
  | Signed_room_event _ _ _ _ _ _ => ROOM_EVENT_LABEL
  | Signed_chat _ _ _ _ _ _ _ _ => CHAT_MESSAGE_LABEL
  end.

Lemma signed_bytes_label s : ∃ rest, signed_bytes s = field (utf8 (signed_label s)) ++ rest.
Proof.
  destruct s; simpl; unfold host_hello_transcript, join_request_transcript,
    room_event_transcript, chat_transcript; unfold_builder; eexists; reflexivity.
Qed.

(** Equal signed bytes are of the same kind: a signature on a hello, an
    application, a broadcast or a chat message cannot be presented as one of another
    kind. *)
Theorem transcripts_domain_separated s1 s2 :
  signed_bytes s1 = signed_bytes s2 → signed_label s1 = signed_label s2.
Proof.
  destruct (signed_bytes_label s1) as [r1 ->], (signed_bytes_label s2) as [r2 ->].
  intros E. assert (Hshort : ∀ s, short (utf8 (signed_label s))) by (by intros []).
  apply field_inj in E as [E _]; [|done..].
  apply utf8_inj in E; [done|destruct s1|destruct s2]; repeat constructor.
Qed.
