(* ===== verification/Crypto.v ===== *)
(** [src/crypto/mod.rs], [src/crypto/identity.rs], [src/crypto/chat.rs] and
    [src/protocol/session.rs]: randomness, identities, epoch-key wrapping and
    chat envelopes.

    The primitives come from third-party crates: they are the operations of
    the class [Primitives], and what the code relies on is the class
    [PrimitiveLaws].  The OS random source is read in order: a position in
    the stream is passed along and advanced by each read. *)
From S2P Require Export Transcript Limits.

(** * Primitives *)

(** The operations of getrandom, ed25519-dalek, x25519-dalek, hkdf and
    chacha20poly1305 the source calls. *)
Class Primitives := {
  getrandom : nat → nat → option (list byte);
  ed_public : list byte → list byte;
  ed_sign : list byte → list byte → list byte;
  ed_verify : list byte → list byte → list byte → bool;
  x_public : list byte → list byte;
  x_diffie_hellman : list byte → list byte → list byte;
  x_was_contributory : list byte → bool;
  hkdf_sha256 : list byte → list byte → list byte → nat → list byte;
  aead_encrypt : list byte → list byte → list byte → list byte → option (list byte);
  aead_decrypt : list byte → list byte → list byte → list byte → option (list byte);
}.

(** Their documented behaviour. *)
Class PrimitiveLaws `{Primitives} := {
  getrandom_length i n bs : getrandom i n = Some bs → length bs = n;
  ed_sign_length sk m : length (ed_sign sk m) = 64;
  ed_verify_sign sk m : ed_verify (ed_public sk) m (ed_sign sk m) = true;
  x_dh_comm a b : x_diffie_hellman a (x_public b) = x_diffie_hellman b (x_public a);
  hkdf_length salt ikm info n : length (hkdf_sha256 salt ikm info n) = n;
  aead_length k n a m c : aead_encrypt k n a m = Some c → length c = length m + 16;
  aead_roundtrip k n a m c : aead_encrypt k n a m = Some c → aead_decrypt k n a c = Some m;
}.

(** [CryptoError]; the third-party error values are dropped. *)
Inductive CryptoError :=
| CY_Randomness
| CY_Argon2
| CY_InvalidHmacKey
| CY_Aead
| CY_Hkdf
| CY_InvalidEpochKeyLength
| CY_NonContributoryX25519.

(** The position in the OS random stream. *)
Abbreviation Rng := nat (only parsing).

(** Key and identifier types of the source over 32 raw bytes. *)
Abbreviation EpochKey := (list byte) (only parsing).
Abbreviation MemberWrapKey := (list byte) (only parsing).
Abbreviation RoomSessionId := (list byte) (only parsing).

Record EpochEnvelope := { ee_nonce : list byte; ee_ciphertext : list byte }.

Record SealedEnvelope := {
  sealed_nonce : list byte;
  sealed_ciphertext : list byte;
  sealed_signature : list byte;
}.

Inductive ChatOpenError := CO_InvalidSignature | CO_Decrypt (e : CryptoError).

(** A host or member identity: an Ed25519 seed and an X25519 secret. *)
Record HostIdentity := { host_ed25519 : list byte; host_x25519 : list byte }.
Record MemberIdentity := { member_ed25519 : list byte; member_x25519 : list byte }.

Section crypto.
Context `{Primitives}.

Definition random_bytes (n : nat) (rng : Rng) : Result (list byte) CryptoError * Rng :=
  match getrandom rng n with
  | Some bs => (Ok bs, S rng)
  | None => (Err CY_Randomness, S rng)
  end.

(** [EpochKey::generate] and [RoomSessionId::generate]. *)
Definition EpochKey_generate (rng : Rng) : Result EpochKey CryptoError * Rng :=
  random_bytes 32 rng.

Definition RoomSessionId_generate (rng : Rng) : Result RoomSessionId CryptoError * Rng :=
  random_bytes 32 rng.

(** [HostIdentity::sign], [MemberIdentity::sign] and the public keys. *)
Definition host_sign (self : HostIdentity) (message : list byte) : list byte :=
  ed_sign (host_ed25519 self) message.
Definition host_ed25519_pubkey (self : HostIdentity) : list byte := ed_public (host_ed25519 self).
Definition host_x25519_pubkey (self : HostIdentity) : list byte := x_public (host_x25519 self).

Definition member_sign (self : MemberIdentity) (message : list byte) : list byte :=
  ed_sign (member_ed25519 self) message.
Definition member_ed25519_pubkey (self : MemberIdentity) : list byte :=
  ed_public (member_ed25519 self).
Definition member_x25519_pubkey (self : MemberIdentity) : list byte :=
  x_public (member_x25519 self).

Definition verify_ed25519 (pubkey message signature : list byte) : bool :=
  ed_verify pubkey message signature.

(** [MemberWrapKey::derive_checked]. *)
Definition derive_checked (shared : list byte) (room_session_id : list byte) (member_id : u64)
    : Result MemberWrapKey CryptoError :=
  if negb (x_was_contributory shared) then Err CY_NonContributoryX25519
  else Ok (hkdf_sha256 room_session_id shared
             (utf8 MEMBER_WRAP_KEY_LABEL ++ be_bytes 8 member_id) 32).

(** [HostIdentity::try_wrap_key_for], through
    [MemberWrapKey::try_derive_host]. *)
Definition host_try_wrap_key_for (self : HostIdentity) (member_x25519_pubkey : list byte)
    (room_session_id : list byte) (member_id : u64) : Result MemberWrapKey CryptoError :=
  derive_checked (x_diffie_hellman (host_x25519 self) member_x25519_pubkey)
    room_session_id member_id.

(** [MemberIdentity::try_wrap_key_for], through
    [MemberWrapKey::try_derive_member]. *)
Definition member_try_wrap_key_for (self : MemberIdentity) (host_x25519_pubkey : list byte)
    (room_session_id : list byte) (member_id : u64) : Result MemberWrapKey CryptoError :=
  derive_checked (x_diffie_hellman (member_x25519 self) host_x25519_pubkey)
    room_session_id member_id.

Definition epoch_aad (epoch : u64) (room_session_id : list byte) : list byte :=
  utf8 EPOCH_WRAP_LABEL ++ room_session_id ++ be_bytes 8 epoch.

Definition wrap_epoch_key (wrap_key : MemberWrapKey) (epoch_key : EpochKey) (epoch : u64)
    (room_session_id : list byte) (rng : Rng) : Result EpochEnvelope CryptoError * Rng :=
  match random_bytes 24 rng with
  | (Err e, rng) => (Err e, rng)
  | (Ok nonce, rng) =>
      match aead_encrypt wrap_key nonce (epoch_aad epoch room_session_id) epoch_key with
      | None => (Err CY_Aead, rng)
      | Some ciphertext => (Ok {| ee_nonce := nonce; ee_ciphertext := ciphertext |}, rng)
      end
  end.

Definition unwrap_epoch_key (wrap_key : MemberWrapKey) (epoch : u64)
    (room_session_id nonce ciphertext : list byte) : Result EpochKey CryptoError :=
  match aead_decrypt wrap_key nonce (epoch_aad epoch room_session_id) ciphertext with
  | None => Err CY_Aead
  | Some plaintext =>
      if bool_decide (length plaintext = 32) then Ok plaintext
      else Err CY_InvalidEpochKeyLength
  end.

Definition seal_envelope (epoch_key : EpochKey) (identity : MemberIdentity) (version : u8)
    (room_session_id : list byte) (epoch sender_id sender_sequence : u64) (message_type : u8)
    (plaintext : list byte) (rng : Rng) : Result SealedEnvelope CryptoError * Rng :=
  match random_bytes 24 rng with
  | (Err e, rng) => (Err e, rng)
  | (Ok nonce, rng) =>
      let aad := chat_aad version room_session_id epoch sender_id sender_sequence message_type in
      match aead_encrypt epoch_key nonce aad plaintext with
      | None => (Err CY_Aead, rng)
      | Some ciphertext =>
          let transcript := chat_transcript version room_session_id epoch sender_id
            sender_sequence message_type nonce ciphertext in
          (Ok {| sealed_nonce := nonce; sealed_ciphertext := ciphertext;
                 sealed_signature := member_sign identity transcript |}, rng)
      end
  end.

Definition open_envelope (epoch_key : EpochKey) (sender_ed25519_pubkey : list byte) (version : u8)
    (room_session_id : list byte) (epoch sender_id sender_sequence : u64) (message_type : u8)
    (nonce ciphertext signature : list byte) : Result (list byte) ChatOpenError :=
  let transcript := chat_transcript version room_session_id epoch sender_id sender_sequence
    message_type nonce ciphertext in
  if negb (verify_ed25519 sender_ed25519_pubkey transcript signature)
  then Err CO_InvalidSignature else
  let aad := chat_aad version room_session_id epoch sender_id sender_sequence message_type in
  match aead_decrypt epoch_key nonce aad ciphertext with
  | None => Err (CO_Decrypt CY_Aead)
  | Some plaintext => Ok plaintext
  end.

(** * Facts *)

Context `{!PrimitiveLaws}.

Lemma random_bytes_Ok n rng bs rng' :
  random_bytes n rng = (Ok bs, rng') → length bs = n.
Proof.
  unfold random_bytes. destruct (getrandom rng n) eqn:E; [|done].
  intros [= <- _]. by eapply getrandom_length.
Qed.

Lemma wrap_epoch_key_Ok wk k epoch s rng env rng' :
  wrap_epoch_key wk k epoch s rng = (Ok env, rng') →
  length (ee_nonce env) = 24 ∧ length (ee_ciphertext env) = length k + 16 ∧
  aead_encrypt wk (ee_nonce env) (epoch_aad epoch s) k = Some (ee_ciphertext env).
Proof.
  unfold wrap_epoch_key. destruct (random_bytes 24 rng) as [[n|] r] eqn:Er; [|done].
  destruct (aead_encrypt _ _ _ _) as [c|] eqn:Ec; [|done]. intros [= <- _]. simpl.
  split_and!; [by eapply random_bytes_Ok|by eapply aead_length|done].
Qed.

(** The two ends derive one wrapping key. *)
Lemma wrap_keys_agree (host : HostIdentity) (m : MemberIdentity) s id :
  host_try_wrap_key_for host (member_x25519_pubkey m) s id =
  member_try_wrap_key_for m (host_x25519_pubkey host) s id.
Proof.
  unfold host_try_wrap_key_for, member_try_wrap_key_for, member_x25519_pubkey, host_x25519_pubkey.
  by rewrite x_dh_comm.
Qed.

(** What the host wraps, the member unwraps. *)
Lemma epoch_key_roundtrip host m s id wk k epoch rng env rng' :
  length k = 32 →
  host_try_wrap_key_for host (member_x25519_pubkey m) s id = Ok wk →
  wrap_epoch_key wk k epoch s rng = (Ok env, rng') →
  ∃ wk', member_try_wrap_key_for m (host_x25519_pubkey host) s id = Ok wk' ∧
    unwrap_epoch_key wk' epoch s (ee_nonce env) (ee_ciphertext env) = Ok k.
Proof.
  intros Hk Hwk (_ & _ & Henc)%wrap_epoch_key_Ok. exists wk.
  rewrite <-wrap_keys_agree. split; [done|].
  unfold unwrap_epoch_key. rewrite (aead_roundtrip _ _ _ _ _ Henc).
  by rewrite bool_decide_eq_true_2.
Qed.

(** What a member seals opens under its public key. *)
Lemma seal_open key ident v s epoch id seq t p rng env rng' :
  seal_envelope key ident v s epoch id seq t p rng = (Ok env, rng') →
  open_envelope key (member_ed25519_pubkey ident) v s epoch id seq t
    (sealed_nonce env) (sealed_ciphertext env) (sealed_signature env) = Ok p ∧
  length (sealed_nonce env) = 24 ∧ length (sealed_ciphertext env) = length p + 16 ∧
  length (sealed_signature env) = 64.
Proof.
  unfold seal_envelope. destruct (random_bytes 24 rng) as [[n|] r] eqn:Er; [|done].
  destruct (aead_encrypt _ _ _ _) as [c|] eqn:Ec; [|done]. intros [= <- _]. simpl.
  split_and!; [|by eapply random_bytes_Ok|by eapply aead_length|apply ed_sign_length].
  unfold open_envelope, verify_ed25519, member_ed25519_pubkey, member_sign.
  rewrite ed_verify_sign. simpl. by rewrite (aead_roundtrip _ _ _ _ _ Ec).
Qed.
(** What a member seals, everyone with the group key and the member's public
    key opens to the same plaintext; the parts have their wire lengths. *)
Theorem chat_envelope_roundtrip key ident v s epoch id seq t p rng env rng' :
  seal_envelope key ident v s epoch id seq t p rng = (Ok env, rng') →
  open_envelope key (member_ed25519_pubkey ident) v s epoch id seq t
    (sealed_nonce env) (sealed_ciphertext env) (sealed_signature env) = Ok p ∧
  length (sealed_nonce env) = 24 ∧ length (sealed_ciphertext env) = length p + 16 ∧
  length (sealed_signature env) = 64.
Proof. apply seal_open. Qed.
End crypto.
