(* ===== verification/Monad.v ===== *)
(** The monad the stateful objects of the program run in.

    A method of an object (the room actor, a client session, a handshake) is
    a computation over the object and the OS random stream that returns a
    value, fails with an error (the [?] operator) or panics: an [expect], an
    [unreachable!] or an integer increment that leaves its type.  The state
    is kept on failure, as in the source. *)
From S2P Require Export Crypto.

(** * The monad *)

Inductive Outcome (E A : Type) : Type :=
| Done (a : A)
| Fail (e : E)
| Panic.
Arguments Done {E A} a.
Arguments Fail {E A} e.
Arguments Panic {E A}.

(** A method of an object of type [X] that fails with errors of type [E]. *)
Definition Comp (X E A : Type) : Type := X * Rng → Outcome E A * (X * Rng).

#[export] Instance M_ret {X E} : MRet (Comp X E) := λ A a s, (Done a, s).

#[export] Instance M_bind {X E} : MBind (Comp X E) := λ A B f m s,
  match m s with
  | (Done a, s') => f a s'
  | (Fail e, s') => (Fail e, s')
  | (Panic, s') => (Panic, s')
  end.

Section operations.
Context {X E : Type}.

(** Early return with an error. *)
Definition fail {A} (e : E) : Comp X E A := λ s, (Fail e, s).

Definition panic {A} : Comp X E A := λ s, (Panic, s).

(** The current object, as a snapshot. *)
Definition self : Comp X E X := λ s, (Done s.1, s).

Definition modify (f : X → X) : Comp X E unit := λ s, (Done tt, (f s.1, s.2)).

(** [expect] and checked arithmetic. *)
Definition expect {A} (o : option A) : Comp X E A :=
  match o with Some a => mret a | None => panic end.

(** [ok_or(e)?]. *)
Definition ok_or {A} (o : option A) (e : E) : Comp X E A :=
  match o with Some a => mret a | None => fail e end.

(** [map_err(f)?]. *)
Definition try_ {A E'} (f : E' → E) (r : Result A E') : Comp X E A :=
  match r with Ok a => mret a | Err e => fail (f e) end.

(** A fallible read of the OS random stream. *)
Definition draw_err {A} (f : CryptoError → E) (g : Rng → Result A CryptoError * Rng)
    : Comp X E A := λ s,
  match g s.2 with
  | (Ok a, rng) => (Done a, (s.1, rng))
  | (Err e, rng) => (Fail (f e), (s.1, rng))
  end.

(** The same, its failure a value. *)
Definition draw_result {A E'} (g : Rng → Result A E' * Rng) : Comp X E (Result A E') := λ s,
  let '(r, rng) := g s.2 in (Done r, (s.1, rng)).

(** A method of a part of the object, its failure caught. *)
Definition zoom {Y E' A} (get : X → Y) (put : Y → X → X) (m : Comp Y E' A) : Comp X E (Result A E') := λ s,
  match m (get s.1, s.2) with
  | (Done a, (y, rng)) => (Done (Ok a), (put y s.1, rng))
  | (Fail e, (y, rng)) => (Done (Err e), (put y s.1, rng))
  | (Panic, (y, rng)) => (Panic, (put y s.1, rng))
  end.
End operations.

(** * Reasoning *)

(** [wp m Q s]: running [m] from [s] ends in an outcome and state
    satisfying [Q]. *)
Definition wp {X E A} (m : Comp X E A) (Q : Outcome E A → X * Rng → Prop) (s : X * Rng) : Prop :=
  Q (fst (m s)) (snd (m s)).

(** The postcondition of a bind, from that of its continuation. *)
Definition bind_post {X E A B} (f : A → Comp X E B) (Q : Outcome E B → X * Rng → Prop)
    (o : Outcome E A) (s : X * Rng) : Prop :=
  match o with
  | Done a => wp (f a) Q s
  | Fail e => Q (Fail e) s
  | Panic => Q Panic s
  end.

Section wp.
Context {X E A B : Type}.
Implicit Types (Q : Outcome E B → X * Rng → Prop) (s : X * Rng).
Local Abbreviation M := (Comp X E).

Lemma wp_bind (m : M A) (f : A → M B) Q s : wp (m ≫= f) Q s ↔ wp m (bind_post f Q) s.
Proof. unfold wp, bind_post, mbind, M_bind, wp. by destruct (m s) as [[] ?]. Qed.

Lemma wp_ret (b : B) Q s : wp (mret b) Q s ↔ Q (Done b) s.
Proof. done. Qed.

Lemma wp_fail e Q s : wp (fail e) Q s ↔ Q (Fail e) s.
Proof. done. Qed.

Lemma wp_panic Q s : wp panic Q s ↔ Q Panic s.
Proof. done. Qed.

Lemma wp_run (m : M B) Q s o s' : m s = (o, s') → wp m Q s → Q o s'.
Proof. unfold wp. by intros ->. Qed.

Lemma wp_mono (m : M B) Q Q' s : (∀ o s', Q o s' → Q' o s') → wp m Q s → wp m Q' s.
Proof. unfold wp. auto. Qed.

Lemma wp_self (f : X → M B) Q s : wp (self ≫= f) Q s ↔ wp (f s.1) Q s.
Proof. done. Qed.

Lemma wp_modify g (f : unit → M B) Q s :
  wp (modify g ≫= f) Q s ↔ wp (f tt) Q (g s.1, s.2).
Proof. done. Qed.

Lemma wp_expect (o : option A) (f : A → M B) Q s :
  wp (expect o ≫= f) Q s ↔ match o with Some a => wp (f a) Q s | None => Q Panic s end.
Proof. by destruct o. Qed.

Lemma wp_ok_or (o : option A) e (f : A → M B) Q s :
  wp (ok_or o e ≫= f) Q s ↔ match o with Some a => wp (f a) Q s | None => Q (Fail e) s end.
Proof. by destruct o. Qed.

Lemma wp_try {E'} (g : E' → E) (r : Result A E') (f : A → M B) Q s :
  wp (try_ g r ≫= f) Q s ↔
  match r with Ok a => wp (f a) Q s | Err e => Q (Fail (g e)) s end.
Proof. by destruct r. Qed.

Lemma wp_draw (w : CryptoError → E) (g : Rng → Result A CryptoError * Rng) (f : A → M B) Q s :
  wp (draw_err w g ≫= f) Q s ↔
  match g s.2 with
  | (Ok a, rng) => wp (f a) Q (s.1, rng)
  | (Err e, rng) => Q (Fail (w e)) (s.1, rng)
  end.
Proof.
  unfold wp, draw_err, mbind, M_bind. destruct s as [a r]. simpl. by destruct (g r) as [[] ?].
Qed.
End wp.

Lemma wp_modify_last {X E} g (Q : Outcome E unit → X * Rng → Prop) s :
  wp (modify g) Q s ↔ Q (Done tt) (g s.1, s.2).
Proof. done. Qed.

(** One step of a computation in a [wp] goal. *)
Ltac wp_step :=
  first
  [ rewrite wp_self | rewrite wp_modify | rewrite wp_expect | rewrite wp_ok_or
  | rewrite wp_try | rewrite wp_draw | rewrite wp_modify_last | rewrite wp_ret | rewrite wp_fail | rewrite wp_panic ];
  cbn [fst snd].

(** [keeps f m]: [m] leaves the view [f] of the actor as it was, on every
    outcome. *)
Definition keeps {X E B} (f : X → B) {A} (m : Comp X E A) : Prop :=
  ∀ s, f (snd (m s)).1 = f s.1.

(** [preserves I m]: [m] run where [I] holds ends where [I] holds, unless it
    panics. *)
Definition preserves {X E} (I : X → Prop) {A} (m : Comp X E A) : Prop :=
  ∀ s, I s.1 → wp m (λ o s', o ≠ Panic → I s'.1) s.

Section keeps.
Context {X E T : Type} (f : X → T).
Local Abbreviation M := (Comp X E).

Lemma keeps_bind {A B} (m : M A) (k : A → M B) :
  keeps f m → (∀ a, keeps f (k a)) → keeps f (m ≫= k).
Proof.
  intros Hm Hk s. unfold mbind, M_bind. specialize (Hm s).
  destruct (m s) as [[a|e|] s'] eqn:Em; simpl in *; try done. by rewrite Hk.
Qed.

Lemma keeps_ret {A} (a : A) : keeps f (mret a : M A).
Proof. done. Qed.

Lemma keeps_fail {A} e : keeps f (fail (A := A) e : M A).
Proof. done. Qed.

Lemma keeps_panic {A} : keeps f (panic : M A).
Proof. done. Qed.

Lemma keeps_self : keeps f (self : M X).
Proof. done. Qed.

Lemma keeps_modify g : (∀ a, f (g a) = f a) → keeps f (modify g : M unit).
Proof. intros H s. apply H. Qed.

Lemma keeps_expect {A} (o : option A) : keeps f (expect o : M A).
Proof. by destruct o. Qed.

Lemma keeps_ok_or {A} (o : option A) e : keeps f (ok_or o e : M A).
Proof. by destruct o. Qed.

Lemma keeps_try {A E'} (g : E' → E) (r : Result A E') : keeps f (try_ g r : M A).
Proof. by destruct r. Qed.

Lemma keeps_draw {A} w (g : Rng → Result A CryptoError * Rng) : keeps f (draw_err w g : M A).
Proof. intros s. unfold draw_err. by destruct (g s.2) as [[] ?]. Qed.

Lemma keeps_preserves {A} (I : X → Prop) (m : M A) :
  (∀ a a', f a = f a' → I a → I a') → keeps f m → preserves I m.
Proof. intros HI Hm s Hs _. eapply HI; [|done]. symmetry. apply Hm. Qed.

Lemma keeps_wp {A} (m : M A) Q s :
  keeps f m → (∀ o s', f s'.1 = f s.1 → Q o s') → wp m Q s.
Proof. intros Hm HQ. apply HQ, Hm. Qed.
End keeps.

#[export] Hint Resolve keeps_ret keeps_fail keeps_panic keeps_self keeps_expect keeps_ok_or
  keeps_try keeps_draw : keeps.

(** Proves [keeps f m] by the structure of [m]. *)
Ltac keeps_step :=
  match goal with
  | |- keeps _ (_ ≫= _) => apply keeps_bind; [|intros]
  | |- keeps _ (modify _) => apply keeps_modify; intros; reflexivity
  | |- keeps _ (match ?x with _ => _ end) => destruct x
  | |- keeps _ (let '(_, _) := ?x in _) => destruct x
  | |- keeps _ (let _ := _ in _) => cbv zeta
  | |- _ => solve [auto with keeps]
  end.

Ltac solve_keeps := intros; repeat keeps_step.

Section preserves.
Context {X E : Type} (I : X → Prop).
Local Abbreviation M := (Comp X E).

Lemma preserves_wp {A} (m : M A) s :
  preserves I m → I s.1 → wp m (λ o s', o ≠ Panic → I s'.1) s.
Proof. auto. Qed.

Lemma preserves_bind {A B} (m : M A) (k : A → M B) :
  preserves I m → (∀ a, preserves I (k a)) → preserves I (m ≫= k).
Proof.
  intros Hm Hk s Hs. apply wp_bind. eapply wp_mono; [|by apply Hm].
  intros [a|e|] s' H; simpl; [apply Hk; auto|intros _; by apply H|done].
Qed.

Lemma preserves_self {A} (k : X → M A) :
  (∀ a, I a → preserves I (k a)) → preserves I (self ≫= k).
Proof. intros Hk s Hs. apply wp_self. by apply Hk. Qed.

Lemma preserves_ret {A} (a : A) : preserves I (mret a : M A).
Proof. by intros s Hs _. Qed.

Lemma preserves_fail {A} e : preserves I (fail e : M A).
Proof. by intros s Hs _. Qed.

Lemma preserves_modify g : (∀ a, I a → I (g a)) → preserves I (modify g : M unit).
Proof. intros H s Hs _. by apply H. Qed.

Lemma preserves_expect {A} (o : option A) : preserves I (expect o : M A).
Proof. by destruct o; intros s Hs ?. Qed.

Lemma preserves_expect_bind {A B} (o : option A) (k : A → M B) :
  (∀ a, o = Some a → preserves I (k a)) → preserves I (expect o ≫= k).
Proof. intros Hk s Hs. rewrite wp_expect. destruct o; [by apply Hk|by intros ?]. Qed.

Lemma preserves_try_bind {A B E'} (g : E' → E) (r : Result A E') (k : A → M B) :
  (∀ a, r = Ok a → preserves I (k a)) → preserves I (try_ g r ≫= k).
Proof. intros Hk s Hs. rewrite wp_try. destruct r; [by apply Hk|by intros _]. Qed.

Lemma preserves_ok_or {A} (o : option A) e : preserves I (ok_or o e : M A).
Proof. by destruct o; intros s Hs ?. Qed.

Lemma preserves_try {A E'} (g : E' → E) (r : Result A E') : preserves I (try_ g r : M A).
Proof. by destruct r; intros s Hs ?. Qed.

Lemma preserves_draw {A} w (g : Rng → Result A CryptoError * Rng) :
  preserves I (draw_err w g : M A).
Proof. intros s Hs. unfold wp, draw_err. by destruct (g s.2) as [[] ?]. Qed.

Lemma preserves_panic {A} : preserves I (panic : M A).
Proof. by intros s Hs ?. Qed.
End preserves.

#[export] Hint Resolve preserves_ret preserves_fail preserves_panic preserves_expect
  preserves_ok_or preserves_try preserves_draw : preserves.
