(* ===== verification/Platform.v ===== *)
(** [src/platform.rs]: who the process runs as, and the session's directory.

    The operating system is the environment's: it answers every call, and the
    calls are logged in the order in which they are made. A path is the text
    it is displayed as; [create_session_dir] admits ASCII only, so a path that
    is no text goes no further than that. *)
From Stdlib Require Import Strings.String.
From S2P Require Export Monad StrOps.

(** * Strings *)

Section split.
Context (sep : N → bool).

(** [str::split] on a predicate. *)
Fixpoint split_by (s : rstring) : list rstring :=
  match s with
  | [] => [[]]
  | c :: s =>
      if sep c then [] :: split_by s
      else match split_by s with w :: ws => (c :: w) :: ws | [] => [[c]] end
  end.

(** [split_whitespace] and its like: the pieces that are not empty. *)
Definition split_fields (s : rstring) : list rstring := List.filter non_empty (split_by s).
End split.

Definition is_ascii_whitespace (c : N) : bool := existsb (N.eqb c) [32; 9; 10; 12; 13]%N.

(** [str::lines]: the carriage return of a line that is ended is dropped, and
    what follows the last line feed is a line only where there is something. *)
Fixpoint ended_lines (parts : list rstring) : list rstring :=
  match parts with
  | [] => []
  | [last] => if non_empty last then [last] else []
  | line :: parts => default line (strip_suffix [13%N] line) :: ended_lines parts
  end.

Definition str_lines (s : rstring) : list rstring := ended_lines (split_on 10 s).

(** [char::is_ascii_alphanumeric]. *)
Definition is_ascii_alphanumeric (c : N) : bool := in_range 48 57 c || in_range 65 90 c || in_range 97 122 c.

(** * The operating system *)

Inductive IoErrorKind := IO_NotFound | IO_ConnectionRefused | IO_AlreadyExists | IO_Other.

Record Metadata := { md_is_symlink : bool; md_is_dir : bool; md_uid : u32; md_mode : u32 }.

(** The calls that change the file system. *)
Inductive FsCall :=
| FC_CreateDirs (path : rstring) (mode : u32)
| FC_CreateDir (path : rstring) (mode : u32)
| FC_SetMode (path : rstring) (mode : u32)
| FC_CreateNew (path : rstring) (mode : u32)
| FC_Write (path : rstring) (bytes : list byte)
| FC_RemoveAll (path : rstring).

Inductive PlatformError :=
| PF_NoRuntimeDirectory
| PF_SessionCollision (path : rstring)
| PF_LockCollision (path : rstring)
| PF_Randomness
| PF_Io (kind : IoErrorKind)
| PF_UnsafeRuntimeDirectory (reason : rstring).

(** * The effective user *)

(** The field of the line of [/proc/self/status]; [None] where there is no
    such line. *)
Definition uid_line (status : rstring) : option rstring :=
  List.find (λ line, match strip_prefix (lit "Uid:") line with Some _ => true | None => false end) (str_lines status).

Definition uid_field (line : rstring) : option rstring := split_fields is_whitespace line !! 2.

(** [status] is what reading the file gives, [None] a failure. *)
Definition is_running_as_root (status : option rstring) : bool :=
  match status with
  | Some status =>
      match uid_line status with
      | Some line => bool_decide (uid_field line = Some (lit "0"))
      | None => true
      end
  | None => true
  end.

Definition effective_uid (status : option rstring) : option u32 :=
  status ← status; line ← uid_line status; value ← uid_field line; parse_uint u32_limit value.

(** * The runtime directory *)

Definition is_absolute (path : rstring) : bool := match path with c :: _ => (c =? 47)%N | [] => false end.

(** [mode & 0o077 != 0]. *)
Definition broader_than_owner (mode : u32) : bool := negb (N.land mode 63 =? 0)%N.

Definition validate_runtime_root (path : rstring) (metadata : Result Metadata IoErrorKind) (status : option rstring)
    : Result unit PlatformError :=
  if negb (is_absolute path) then Err (PF_UnsafeRuntimeDirectory (lit "path is not absolute")) else
  match metadata with
  | Err kind => Err (PF_Io kind)
  | Ok metadata =>
      if md_is_symlink metadata || negb (md_is_dir metadata) then
        Err (PF_UnsafeRuntimeDirectory (lit "path is not a real directory"))
      else match effective_uid status with
           | None => Err (PF_UnsafeRuntimeDirectory (lit "effective uid unavailable"))
           | Some uid =>
               if negb (md_uid metadata =? uid)%N then
                 Err (PF_UnsafeRuntimeDirectory (lit "directory is owned by another user"))
               else if broader_than_owner (md_mode metadata) then
                 Err (PF_UnsafeRuntimeDirectory (lit "directory permissions are broader than 0700"))
               else Ok tt
           end
  end.

Definition runtime_root (env_value : option rstring) : option rstring :=
  value ← env_value; if non_empty value then Some value else None.

(** [Path::join] with a relative name. *)
Definition path_join (path name : rstring) : rstring :=
  match list.last path with
  | None => name
  | Some c => if (c =? 47)%N then path ++ name else path ++ [47%N] ++ name
  end.

Definition hex (bytes : list byte) : rstring := flat_map (λ b, hex2 (byte_val b)) bytes.

(** What the path may be made of, lest it split a control command. *)
Definition is_control_safe (c : N) : bool :=
  is_ascii_alphanumeric c || existsb (N.eqb c) (lit "/_-.").

Section session_dir.
Context `{Primitives} (fs : FsCall → Result unit IoErrorKind).

(** A call, logged, with what it answers. *)
Definition fs_call {E} (c : FsCall) : Comp (list FsCall) E (Result unit IoErrorKind) :=
  modify (λ log, log ++ [c]);; mret (fs c).

Abbreviation PM := (Comp (list FsCall) PlatformError) (only parsing).

Definition fs_try (c : FsCall) : PM unit := r ← fs_call c; try_ PF_Io r.

(** A call that fails with [collision] where the path is there already. *)
Definition fs_new (c : FsCall) (collision : PlatformError) : PM unit :=
  r ← fs_call c;
  match r with
  | Ok _ => mret tt
  | Err IO_AlreadyExists => fail collision
  | Err kind => fail (PF_Io kind)
  end.

(** 0o700 and 0o600. *)
Definition MODE_0700 : u32 := 448.
Definition MODE_0600 : u32 := 384.

Definition set_dir_mode_0700 (dir : rstring) : PM unit := fs_try (FC_SetMode dir MODE_0700).

Definition create_session_dir (root : rstring) : PM rstring :=
  if negb (forallb is_control_safe root) then
    fail (PF_UnsafeRuntimeDirectory (lit "path contains characters unsafe for the Tor control protocol"))
  else
    let veilroom_root := path_join root (lit "veilroom") in
    fs_try (FC_CreateDirs veilroom_root MODE_0700);;
    set_dir_mode_0700 veilroom_root;;
    random ← draw_err (λ _, PF_Randomness) (random_bytes 16);
    let session_dir := path_join veilroom_root (lit "session-" ++ hex random) in
    fs_new (FC_CreateDir session_dir MODE_0700) (PF_SessionCollision session_dir);;
    set_dir_mode_0700 session_dir;;
    let lock_file := path_join session_dir (lit "lock") in
    fs_new (FC_CreateNew lock_file MODE_0600) (PF_LockCollision lock_file);;
    mret session_dir.
End session_dir.

(** * [src/platform/clipboard.rs] *)

Inductive ClipboardError := CB_NoBackend | CB_Spawn (kind : IoErrorKind) | CB_Write (kind : IoErrorKind) | CB_Exit | CB_Timeout.

(** A clipboard tool that was started, and what it was given to read where
    all of it was written. *)
Record ClipCall := { cc_backend : rstring; cc_args : list rstring; cc_stdin : option (list byte) }.

(** What the tools answer: to their start, to the writing of the text, and to
    the wait for their end, which tells whether they succeeded. *)
Record ClipEnv := {
  cl_spawn : rstring → Result unit IoErrorKind;
  cl_write : rstring → Result unit IoErrorKind;
  cl_wait : rstring → Result bool IoErrorKind;
}.

Definition detect_backends (wayland_display display : bool) : list rstring :=
  let backends :=
    (if wayland_display then [lit "wl-copy"] else [])
    ++ (if display then [lit "xclip"; lit "xsel"] else []) in
  match backends with [] => [lit "wl-copy"; lit "xclip"; lit "xsel"] | _ => backends end.

(** [Path::file_name] of a path that ends in a name. *)
Definition file_name (path : rstring) : rstring :=
  match rsplit_once 47 path with Some (_, name) => name | None => path end.

Definition backend_args (backend : rstring) : list rstring :=
  let name := file_name backend in
  if bool_decide (name = lit "wl-copy") then [lit "--type"; lit "text/plain;charset=utf-8"]
  else if bool_decide (name = lit "xclip") then [lit "-selection"; lit "clipboard"; lit "-in"]
  else if bool_decide (name = lit "xsel") then [lit "--clipboard"; lit "--input"]
  else [].

Section clipboard.
Context (env : ClipEnv).

Definition spawn_backend (backend text : rstring) : Result unit ClipboardError * list ClipCall :=
  let call stdin := [{| cc_backend := backend; cc_args := backend_args backend; cc_stdin := stdin |}] in
  match cl_spawn env backend with
  | Err IO_NotFound => (Err CB_NoBackend, [])
  | Err kind => (Err (CB_Spawn kind), [])
  | Ok _ =>
      match cl_write env backend with
      | Err kind => (Err (CB_Write kind), call None)
      | Ok _ =>
          (match cl_wait env backend with
           | Err kind => Err (CB_Spawn kind)
           | Ok true => Ok tt
           | Ok false => Err CB_Exit
           end, call (Some (utf8 text)))
      end
  end.

(** The loop of [copy_to_clipboard_with_backends]. *)
Fixpoint try_backends (text : rstring) (backends : list rstring) (last_error : option ClipboardError)
    : Result unit ClipboardError * list ClipCall :=
  match backends with
  | [] => (Err (default CB_NoBackend last_error), [])
  | backend :: backends =>
      match spawn_backend backend text with
      | (Ok _, log) => (Ok tt, log)
      | (Err error, log) =>
          let '(result, log') := try_backends text backends (Some error) in (result, log ++ log')
      end
  end.

Definition copy_to_clipboard_with_backends (text : rstring) (backends : list rstring) :=
  try_backends text backends None.

Definition copy_to_clipboard (wayland_display display : bool) (text : rstring) :=
  copy_to_clipboard_with_backends text (detect_backends wayland_display display).

(** [copy_to_clipboard_async]: the copying that is over within two seconds,
    or not; the tools it has started go on either way. *)
Definition copy_to_clipboard_async (in_time wayland_display display : bool) (text : rstring)
    : Result unit ClipboardError * list ClipCall :=
  let '(result, log) := copy_to_clipboard wayland_display display text in
  (if in_time then result else Err CB_Timeout, log).

(** ** A copy is of the whole text *)

(** The call of a tool that succeeds. *)
Definition copied (backend text : rstring) : ClipCall :=
  {| cc_backend := backend; cc_args := backend_args backend; cc_stdin := Some (utf8 text) |}.

Lemma spawn_backend_Ok backend text log :
  spawn_backend backend text = (Ok tt, log) → cl_wait env backend = Ok true ∧ log = [copied backend text].
Proof. unfold spawn_backend. repeat case_match; by intros [= <-]. Qed.

Lemma try_backends_Ok text backends last log :
  try_backends text backends last = (Ok tt, log) →
  ∃ before backend after log', backends = before ++ backend :: after ∧
    Forall (λ b, ∃ e, (spawn_backend b text).1 = Err e) before ∧
    cl_wait env backend = Ok true ∧ log = log' ++ [copied backend text] ∧
    Forall (λ call, cc_backend call ∈ before) log'.
Proof.
  revert last log. induction backends as [|b backends IH]; intros last log; cbn [try_backends]; [done|].
  assert (Hcalls : Forall (λ call, cc_backend call = b) (spawn_backend b text).2).
  { unfold spawn_backend. repeat case_match; by repeat constructor. }
  destruct (spawn_backend b text) as [[[]|e] log1] eqn:Eb.
  - intros [= <-]. apply spawn_backend_Ok in Eb as [Hw ->]. by exists [], b, backends, [].
  - destruct (try_backends text backends (Some e)) as [r log2] eqn:Et. intros [= -> <-].
    destruct (IH _ _ Et) as (before & backend & after & log' & -> & Hb & Hw & -> & Hl).
    exists (b :: before), backend, after, (log1 ++ log'). split_and!; [done| |done|by rewrite <-app_assoc|].
    + constructor; [|done]. exists e. by rewrite Eb.
    + apply list.Forall_app. split; (eapply list.Forall_impl; [done|]); [intros x ->|]; set_solver.
Qed.

(** Copying to the clipboard succeeds with the first tool that does, which was given the
    whole text and told, where it has to be, to set the clipboard and not another
    selection; no tool is started after it. *)
Theorem copy_is_complete wayland display text log :
  copy_to_clipboard wayland display text = (Ok tt, log) →
  ∃ backend args, list.last log = Some {| cc_backend := backend; cc_args := args; cc_stdin := Some (utf8 text) |} ∧
    cl_wait env backend = Ok true ∧
    (backend, args) ∈
      [(lit "wl-copy", [lit "--type"; lit "text/plain;charset=utf-8"]);
       (lit "xclip", [lit "-selection"; lit "clipboard"; lit "-in"]); (lit "xsel", [lit "--clipboard"; lit "--input"])].
Proof.
  intros Hcopy. destruct (try_backends_Ok _ _ _ _ Hcopy) as (before & backend & after & log' & Hb & _ & Hw & -> & _).
  exists backend, (backend_args backend). rewrite last_snoc. split_and!; [done|done|].
  assert (Hin : backend ∈ [lit "wl-copy"; lit "xclip"; lit "xsel"]).
  { assert (Hin : backend ∈ detect_backends wayland display) by (rewrite Hb; set_solver).
    revert Hin. generalize backend. clear. intros b. destruct wayland, display; cbn -[lit]; set_solver. }
  clear -Hin. revert Hin. rewrite !elem_of_cons, elem_of_nil.
  intros [->|[->|[->|[]]]]; [left|right; left|do 2 right; left]; reflexivity.
Qed.
End clipboard.
