(* ===== verification/TorManager.v ===== *)
(** [src/tor/manager.rs]: the Tor process of a session, from its start to its
    end; and [ControlClient::connect] of [src/tor/control.rs].

    What the process, its sockets, the file system and the clock do is the
    environment's ([TorEnv]); the answers that can differ from one call to the
    next are indexed by the number of calls made before. What is done to the
    outside is logged. Time is a count of nanoseconds: a call takes as long as
    the environment says, a sleep at least as long as it is asked for. *)
From Stdlib Require Import Strings.String.
From S2P Require Export PasswordGuard Platform Tor Uri.

(** * Data *)

Record TorConfig := {
  tor_binary : option rstring;
  bootstrap_timeout : Duration;
  control_connect_timeout : Duration;
  child_exit_timeout : Duration;
}.

Definition TorConfig_default : TorConfig := {|
  tor_binary := None; bootstrap_timeout := from_secs 120; control_connect_timeout := from_secs 30;
  child_exit_timeout := from_secs 10 |}.

Inductive TorError :=
| TE_Platform (e : PlatformError)
| TE_RunningAsRoot
| TE_TorBinaryNotFound
| TE_SpawnFailed (kind : IoErrorKind)
| TE_Control (e : ControlError)
| TE_Cookie (reason : rstring)
| TE_BootstrapTimeout (timeout : Duration)
| TE_CommandFailed (command : rstring) (reply : Reply)
| TE_InvalidServiceId
| TE_InvalidOnionAddress (address : rstring)
| TE_InvalidVirtualPort
| TE_NoControlConnection
| TE_TorExited
| TE_ChildExitTimeout (timeout : Duration)
| TE_Io (kind : IoErrorKind).

Record SessionPaths := {
  session_dir : rstring;
  tor_data : rstring;
  control_socket : rstring;
  socks_socket : rstring;
  chat_socket : rstring;
  lock_file : rstring;
  tor_log : rstring;
}.

Record OnionService := { on_onion_address : rstring; on_virtual_port : u16 }.

(** [child] is a handle: whether the manager owns a process. *)
Record TorManager := {
  tm_config : TorConfig;
  tm_paths : SessionPaths;
  tm_child : bool;
  tm_control : option ControlClient;
  tm_onion : option OnionService;
}.

(** * The environment *)

Inductive ChildWait := CW_Exited | CW_Failed (kind : IoErrorKind) | CW_TimedOut.

(** What happens on the control socket while a command runs: how the write
    goes, what arrives, and how long it takes. *)
Record CommandIO := { ci_write : WriteResult; ci_reads : list ReadResult; ci_took : Duration }.

Record TorEnv := {
  tv_is_file : rstring → bool;
  tv_path : option rstring;
  tv_status : option rstring;
  tv_spawn : Result unit IoErrorKind;
  tv_connect : nat → Result unit IoErrorKind * Duration;
  tv_cookie : nat → Result (list byte) IoErrorKind * Duration;
  tv_metadata : Result Metadata IoErrorKind;
  tv_exited : nat → Result bool IoErrorKind;
  tv_command : nat → CommandIO;
  tv_late : nat → Duration;
  tv_wait : ChildWait;
  tv_kill : Result unit IoErrorKind;
  tv_fs : FsCall → Result unit IoErrorKind;
}.

(** What is done to the outside. *)
Inductive TorAction :=
| TA_Spawn (binary : rstring) (args : list rstring)
| TA_Command (text : rstring)
| TA_Wait
| TA_Kill
| TA_Fs (c : FsCall).

(** The manager, the clock, the number of calls made, what has arrived on the
    control socket and was not read, the percentages reported, the log. *)
Record TorSession := {
  ts_manager : TorManager;
  ts_clock : N;
  ts_calls : nat;
  ts_socket : list ReadResult;
  ts_progress : list u8;
  ts_log : list TorAction;
}.

(** Field assignment. *)
Definition ts_put_manager (v : TorManager) (s : TorSession) : TorSession := {|
  ts_manager := v; ts_clock := ts_clock s; ts_calls := ts_calls s; ts_socket := ts_socket s;
  ts_progress := ts_progress s; ts_log := ts_log s |}.
Definition ts_put_clock (v : N) (s : TorSession) : TorSession := {|
  ts_manager := ts_manager s; ts_clock := v; ts_calls := ts_calls s; ts_socket := ts_socket s;
  ts_progress := ts_progress s; ts_log := ts_log s |}.
Definition ts_put_calls (v : nat) (s : TorSession) : TorSession := {|
  ts_manager := ts_manager s; ts_clock := ts_clock s; ts_calls := v; ts_socket := ts_socket s;
  ts_progress := ts_progress s; ts_log := ts_log s |}.
Definition ts_put_socket (v : list ReadResult) (s : TorSession) : TorSession := {|
  ts_manager := ts_manager s; ts_clock := ts_clock s; ts_calls := ts_calls s; ts_socket := v;
  ts_progress := ts_progress s; ts_log := ts_log s |}.
Definition ts_put_progress (v : list u8) (s : TorSession) : TorSession := {|
  ts_manager := ts_manager s; ts_clock := ts_clock s; ts_calls := ts_calls s; ts_socket := ts_socket s;
  ts_progress := v; ts_log := ts_log s |}.
Definition ts_put_log (v : list TorAction) (s : TorSession) : TorSession := {|
  ts_manager := ts_manager s; ts_clock := ts_clock s; ts_calls := ts_calls s; ts_socket := ts_socket s;
  ts_progress := ts_progress s; ts_log := v |}.

Definition put_child (v : bool) (m : TorManager) : TorManager := {|
  tm_config := tm_config m; tm_paths := tm_paths m; tm_child := v; tm_control := tm_control m; tm_onion := tm_onion m |}.
Definition put_control (v : option ControlClient) (m : TorManager) : TorManager := {|
  tm_config := tm_config m; tm_paths := tm_paths m; tm_child := tm_child m; tm_control := v; tm_onion := tm_onion m |}.
Definition put_onion (v : option OnionService) (m : TorManager) : TorManager := {|
  tm_config := tm_config m; tm_paths := tm_paths m; tm_child := tm_child m; tm_control := tm_control m; tm_onion := v |}.

Definition upd_manager (f : TorManager → TorManager) (s : TorSession) : TorSession :=
  ts_put_manager (f (ts_manager s)) s.

Abbreviation TM := (Comp TorSession TorError) (only parsing).

(** * Preparing *)

Definition session_paths (dir : rstring) : SessionPaths := {|
  session_dir := dir;
  tor_data := path_join dir (lit "tor-data");
  control_socket := path_join dir (lit "control.sock");
  socks_socket := path_join dir (lit "socks.sock");
  chat_socket := path_join dir (lit "chat.sock");
  lock_file := path_join dir (lit "lock");
  tor_log := path_join dir (lit "tor.log") |}.

Section prepare.
Context `{Primitives} (fs : FsCall → Result unit IoErrorKind).

Abbreviation PTM := (Comp (list FsCall) TorError) (only parsing).

Definition prepare_with (root : rstring) (config : TorConfig) (status : option rstring) : PTM TorManager :=
  if is_running_as_root status then fail TE_RunningAsRoot else
  dir ← zoom id (λ log _, log) (create_session_dir fs root);
  dir ← try_ TE_Platform dir;
  mret {| tm_config := config; tm_paths := session_paths dir; tm_child := false; tm_control := None; tm_onion := None |}.

(** [XDG_RUNTIME_DIR], and what looking at its directory answers. *)
Definition prepare_with_binary (binary : option rstring) (env_value : option rstring)
    (metadata : Result Metadata IoErrorKind) (status : option rstring) : PTM TorManager :=
  root ← ok_or (runtime_root env_value) (TE_Platform PF_NoRuntimeDirectory);
  try_ TE_Platform (validate_runtime_root root metadata status);;
  prepare_with root
    {| tor_binary := binary; bootstrap_timeout := bootstrap_timeout TorConfig_default;
       control_connect_timeout := control_connect_timeout TorConfig_default;
       child_exit_timeout := child_exit_timeout TorConfig_default |} status.

Definition prepare_in (root : rstring) (status : option rstring) : PTM TorManager :=
  prepare_with root TorConfig_default status.

Definition prepare (env_value : option rstring) (metadata : Result Metadata IoErrorKind) (status : option rstring)
    : PTM TorManager :=
  root ← ok_or (runtime_root env_value) (TE_Platform PF_NoRuntimeDirectory);
  try_ TE_Platform (validate_runtime_root root metadata status);;
  prepare_in root status.
End prepare.

(** * Helpers of the start *)

Definition split_paths (value : rstring) : list rstring := split_on 58 value.

Definition resolve_tor_binary (is_file : rstring → bool) (path : option rstring) (explicit : option rstring)
    : Result rstring TorError :=
  match explicit with
  | Some path => if is_file path then Ok path else Err TE_TorBinaryNotFound
  | None =>
      match List.find is_file ((λ dir, path_join dir (lit "tor")) <$> split_paths (default [] path)) with
      | Some candidate => Ok candidate
      | None => Err TE_TorBinaryNotFound
      end
  end.

Definition spawn_args (paths : SessionPaths) : list rstring :=
  [ lit "--DataDirectory"; tor_data paths; lit "--ControlSocket"; control_socket paths;
    lit "--SocksPort"; lit "unix:" ++ socks_socket paths; lit "--CookieAuthentication"; lit "1";
    lit "--SafeLogging"; lit "1"; lit "--AvoidDiskWrites"; lit "1"; lit "--Log"; lit "notice stderr" ].

(** [find_map(|x| x.strip_prefix(p))]. *)
Fixpoint find_prefixed (p : rstring) (l : list rstring) : option rstring :=
  match l with
  | [] => None
  | s :: l => match strip_prefix p s with Some rest => Some rest | None => find_prefixed p l end
  end.

Definition bootstrap_progress (reply : Reply) : option u8 :=
  value ← find_prefixed (lit "PROGRESS=") (flat_map (split_fields is_ascii_whitespace) (re_lines reply));
  percent ← parse_uint 256 value;
  if (percent <=? 100)%N then Some percent else None.

Definition cookie_path (paths : SessionPaths) : rstring := path_join (tor_data paths) (lit "control_auth_cookie").

Definition millis (n : N) : Duration := n * 1000000.

(** The check of the address Tor gave out. *)
Definition is_valid_onion_address `{UriPrimitives} (address : rstring) : bool :=
  match strip_suffix (lit ".onion") address with
  | None => false
  | Some body =>
      (str_len body =? 56)%N && forallb (λ b, bool_decide (b ∈ utf8 ONION_V3_ALPHABET)) (utf8 body)
      && is_valid_onion_v3_body body
  end.

(** * The session *)

Section manager.
Context (env : TorEnv).

(** ** Calls of the environment *)

Definition next_call : TM nat :=
  s ← self; modify (ts_put_calls (S (ts_calls s)));; mret (ts_calls s).

Definition clock : TM Instant := s ← self; mret (ts_clock s).
Definition advance (d : Duration) : TM unit := modify (λ s, ts_put_clock (ts_clock s + d) s).
Definition log_action (a : TorAction) : TM unit := modify (λ s, ts_put_log (ts_log s ++ [a]) s).

Definition sleep (d : Duration) : TM unit := n ← next_call; advance (d + tv_late env n)%N.

(** A [tokio::time::Interval] with [MissedTickBehavior::Delay], by the time
    of its next tick: the first is immediate, and each is a period, or more,
    after the one before. *)
Definition interval_tick (period : Duration) (next : Instant) : TM Instant :=
  n ← next_call;
  now ← clock;
  let t := (N.max now next + tv_late env n)%N in
  modify (ts_put_clock t);;
  mret (t + period)%N.

(** ** Connecting to the control socket *)

(** The loop of [ControlClient::connect]. *)
Fixpoint connect_loop (fuel : nat) (deadline next : Instant) : TM unit :=
  match fuel with
  | O => panic
  | S fuel =>
      n ← next_call;
      let '(r, took) := tv_connect env n in
      advance took;;
      match r with
      | Ok _ => modify (upd_manager (put_control (Some ControlClient_connected)))
      | Err kind =>
          now ← clock;
          if (deadline <=? now)%N then
            fail (TE_Control match kind with
                             | IO_NotFound | IO_ConnectionRefused => TC_ConnectTimeout
                             | _ => TC_Io
                             end)
          else next ← interval_tick (millis 100) next; connect_loop fuel deadline next
      end
  end.

(** A tick every [period] within [timeout], the immediate one included. *)
Definition loop_fuel (timeout period : Duration) : nat := S (S (S (N.to_nat (timeout / period)))).

Definition control_connect : TM unit :=
  s ← self;
  let timeout := control_connect_timeout (tm_config (ts_manager s)) in
  connect_loop (loop_fuel timeout (millis 100)) (ts_clock s + timeout)%N (ts_clock s).

(** ** Commands *)

Definition COMMAND_TIMEOUT : Duration := from_secs 10.

Definition is_command_timeout {A} (r : Result A ControlError) : bool :=
  match r with Err TC_CommandTimeout => true | _ => false end.

(** A call on the control client, which gives up after [COMMAND_TIMEOUT] and
    is then poisoned; [None] where [limit] comes first: the call is dropped,
    with what it has read of a line. *)
Definition control_call {A} (limit : option Instant) (text : rstring)
    (f : WriteResult → ControlClient → list ReadResult → Result A ControlError * ControlClient * list ReadResult)
    : TM (option (Result A ControlError)) :=
  s ← self;
  c ← ok_or (tm_control (ts_manager s)) TE_NoControlConnection;
  n ← next_call;
  log_action (TA_Command text);;
  let io := tv_command env n in
  let now := ts_clock s in
  let until := (now + COMMAND_TIMEOUT)%N in
  let dropped := match limit with Some d => (d <? until)%N | None => false end in
  let stop := if dropped then N.max now (default until limit) else until in
  let '(r, c', rest) := f (ci_write io) c (ts_socket s ++ ci_reads io) in
  modify (ts_put_socket rest);;
  if is_command_timeout r then
    modify (ts_put_clock stop);;
    (if dropped then
       modify (upd_manager (put_control (Some {| cc_reader := cc_reader c'; cc_written := cc_written c';
                                                 cc_poisoned := cc_poisoned c |})));;
       mret None
     else modify (upd_manager (put_control (Some c')));; mret (Some r))
  else
    modify (ts_put_clock (N.min (now + ci_took io) stop));;
    modify (upd_manager (put_control (Some c')));;
    mret (Some r).

Definition control_command (text : rstring) : TM (Result Reply ControlError) :=
  r ← control_call None text (command text);
  mret (default (Err TC_CommandTimeout) r).

Definition control_authenticate (cookie_hex : rstring) : TM (Result unit ControlError) :=
  r ← control_call None (lit "AUTHENTICATE " ++ cookie_hex) (authenticate cookie_hex);
  mret (default (Err TC_CommandTimeout) r).

(** ** The cookie *)

Definition check_cookie_file (metadata : Metadata) : TM unit :=
  match effective_uid (tv_status env) with
  | None => fail (TE_Cookie (lit "effective uid unavailable"))
  | Some uid =>
      if negb (md_uid metadata =? uid)%N then fail (TE_Cookie (lit "cookie is owned by another user"))
      else if broader_than_owner (md_mode metadata) then
        fail (TE_Cookie (lit "cookie permissions are broader than 0600"))
      else mret tt
  end.

Fixpoint read_cookie_loop (fuel : nat) (deadline : Instant) : TM rstring :=
  match fuel with
  | O => panic
  | S fuel =>
      n ← next_call;
      let '(r, took) := tv_cookie env n in
      advance took;;
      match r with
      | Ok cookie =>
          if (length cookie =? 32)%nat then
            metadata ← try_ TE_Io (tv_metadata env);
            check_cookie_file metadata;;
            mret (hex cookie)
          else fail (TE_Cookie (lit "cookie has an unexpected length"))
      | Err IO_NotFound =>
          now ← clock;
          if (deadline <=? now)%N then fail (TE_Cookie (lit "cookie did not appear in time"))
          else sleep (millis 100);; read_cookie_loop fuel deadline
      | Err kind => fail (TE_Io kind)
      end
  end.

Definition read_cookie_hex : TM rstring :=
  s ← self;
  let timeout := control_connect_timeout (tm_config (ts_manager s)) in
  read_cookie_loop (loop_fuel timeout (millis 100)) (ts_clock s + timeout)%N.

(** ** Starting *)

Definition ensure_child_alive : TM bool :=
  s ← self;
  if tm_child (ts_manager s) then n ← next_call; try_ TE_Io (tv_exited env n) else mret false.

Definition has_exited : TM bool := ensure_child_alive.

Definition GETINFO_BOOTSTRAP : rstring := lit "GETINFO status/bootstrap-phase".

Definition report_progress (percent : option u8) : TM unit :=
  match percent with
  | Some percent => modify (λ s, ts_put_progress (ts_progress s ++ [percent]) s)
  | None => mret tt
  end.

(** One turn of the loop of [wait_for_bootstrap]: what it has seen. *)
Definition poll_bootstrap (timeout : Duration) (deadline : Instant) : TM (option u8) :=
  exited ← ensure_child_alive;
  if exited : bool then fail TE_TorExited else
  r ← control_call (Some deadline) GETINFO_BOOTSTRAP (command GETINFO_BOOTSTRAP);
  r ← ok_or r (TE_BootstrapTimeout timeout);
  reply ← try_ TE_Control r;
  report_progress (bootstrap_progress reply);;
  mret (bootstrap_progress reply).

Fixpoint bootstrap_loop (fuel : nat) (timeout : Duration) (deadline next : Instant) : TM unit :=
  match fuel with
  | O => panic
  | S fuel =>
      percent ← poll_bootstrap timeout deadline;
      if bool_decide (percent = Some 100%N) then mret tt else
      now ← clock;
      if (deadline <=? now)%N then fail (TE_BootstrapTimeout timeout) else
      next ← interval_tick (millis 500) next;
      bootstrap_loop fuel timeout deadline next
  end.

Definition wait_for_bootstrap : TM unit :=
  s ← self;
  let timeout := bootstrap_timeout (tm_config (ts_manager s)) in
  bootstrap_loop (loop_fuel timeout (millis 500)) timeout (ts_clock s + timeout)%N (ts_clock s).

Definition authenticate_and_bootstrap : TM unit :=
  cookie_hex ← read_cookie_hex;
  r ← control_authenticate cookie_hex;
  try_ TE_Control r;;
  wait_for_bootstrap.

Definition start_with_progress : TM unit :=
  s ← self;
  let m := ts_manager s in
  binary ← try_ id (resolve_tor_binary (tv_is_file env) (tv_path env) (tor_binary (tm_config m)));
  log_action (TA_Spawn binary (spawn_args (tm_paths m)));;
  try_ TE_Io (tv_spawn env);;
  modify (upd_manager (put_child true));;
  control_connect;;
  authenticate_and_bootstrap.

(** Without a process of its own, over a connection that is there. *)
Definition start_with_control (control : ControlClient) : TM unit :=
  modify (upd_manager (put_control (Some control)));;
  authenticate_and_bootstrap.

(** ** The onion service *)

Definition add_onion_command (virtual_port : u16) (paths : SessionPaths) : rstring :=
  lit "ADD_ONION NEW:ED25519-V3 Flags=DiscardPK Port=" ++ display_N virtual_port ++ lit ",unix:" ++ chat_socket paths.

Definition add_onion `{UriPrimitives} (virtual_port : u16) : TM OnionService :=
  if (virtual_port =? 0)%N then fail TE_InvalidVirtualPort else
  s ← self;
  let command := add_onion_command virtual_port (tm_paths (ts_manager s)) in
  r ← control_command command;
  reply ← try_ TE_Control r;
  if negb (Reply_is_ok reply) then fail (TE_CommandFailed command reply) else
  service_id ← ok_or (find_prefixed (lit "ServiceID=") (re_lines reply)) TE_InvalidServiceId;
  if negb (str_len service_id =? 56)%N then fail TE_InvalidServiceId else
  let onion_address := service_id ++ lit ".onion" in
  if negb (is_valid_onion_address onion_address) then fail (TE_InvalidOnionAddress onion_address) else
  let service := {| on_onion_address := onion_address; on_virtual_port := virtual_port |} in
  modify (upd_manager (put_onion (Some service)));;
  mret service.

(** ** The end *)

Definition tor_fs (c : FsCall) : TM (Result unit IoErrorKind) := log_action (TA_Fs c);; mret (tv_fs env c).

(** The commands that end the service and the process; their failures are
    ignored. *)
Definition shutdown_commands : TM unit :=
  s ← self;
  match tm_control (ts_manager s) with
  | None => mret tt
  | Some _ =>
      match tm_onion (ts_manager s) with
      | Some onion =>
          let service_id := default (on_onion_address onion) (strip_suffix (lit ".onion") (on_onion_address onion)) in
          control_command (lit "DEL_ONION " ++ service_id);; mret tt
      | None => mret tt
      end;;
      control_command (lit "SIGNAL SHUTDOWN");; mret tt
  end.

(** Waiting for the process to end, which is killed where it does not. *)
Definition reap_child : TM (Result unit TorError) :=
  s ← self;
  let timeout := child_exit_timeout (tm_config (ts_manager s)) in
  if tm_child (ts_manager s) then
    modify (upd_manager (put_child false));;
    log_action TA_Wait;;
    match tv_wait env with
    | CW_Exited => mret (Ok tt)
    | CW_Failed kind => mret (Err (TE_Io kind))
    | CW_TimedOut =>
        advance timeout;;
        log_action TA_Kill;;
        log_action TA_Wait;;
        mret (Err match tv_kill env with Err kind => TE_Io kind | Ok _ => TE_ChildExitTimeout timeout end)
    end
  else mret (Ok tt).

Definition wipe_cookie_file (paths : SessionPaths) : TM unit :=
  tor_fs (FC_Write (cookie_path paths) (replicate 32 Byte.x00));; mret tt.

Definition shutdown : TM unit :=
  shutdown_commands;;
  modify (upd_manager (λ m, put_onion None (put_control None m)));;
  result ← reap_child;
  s ← self;
  wipe_cookie_file (tm_paths (ts_manager s));;
  tor_fs (FC_RemoveAll (session_dir (tm_paths (ts_manager s))));;
  try_ id result.

(** [Drop]: a process that is still owned is killed. *)
Definition TorManager_drop : TM unit :=
  s ← self;
  if tm_child (ts_manager s) then modify (upd_manager (put_child false));; log_action TA_Kill else mret tt.
End manager.

Definition TorSession_new (m : TorManager) (now : Instant) : TorSession := {|
  ts_manager := m; ts_clock := now; ts_calls := 0; ts_socket := []; ts_progress := []; ts_log := [] |}.
