(* ===== verification/TorManagerProps.v ===== *)
(** What the Tor manager guarantees: the session that is ready, the loops that
    end, the onion service that is given out, the end that leaves nothing. *)
From Stdlib Require Import Strings.String.
From S2P Require Export TorManager UriProps TorProps.

(** * Loops with a deadline *)

(** Turns that are at least [P] apart, from the time of the next one: what is
    left of the fuel reaches the deadline. *)
Definition budget (P deadline clock next : N) (fuel : nat) : Prop :=
  fuel ≠ O ∧ (0 < P ∧ deadline + 2 * P <= next + N.of_nat fuel * P ∧ next <= clock + P)%N.

Lemma budget_start P timeout now : (0 < P)%N → budget P (now + timeout) now now (loop_fuel timeout P).
Proof.
  intros HP. unfold budget, loop_fuel. split; [done|]. split_and!; [done| |lia].
  rewrite !Nat2N.inj_succ, N2Nat.id. pose proof (N.div_mod timeout P ltac:(lia)) as Hd.
  pose proof (N.mod_upper_bound timeout P ltac:(lia)). nia.
Qed.

Lemma budget_step P deadline clock next fuel now t :
  budget P deadline clock next (S fuel) → (clock <= now)%N → (now < deadline)%N → (next <= t)%N →
  budget P deadline t (t + P) fuel.
Proof. unfold budget. rewrite Nat2N.inj_succ. intros (_ & HP & H1 & H2) Hc Hd Ht. destruct fuel; split_and!; nia. Qed.

(** * Calls *)

(** The calls of the session leave alone what they do not name. *)
Definition same_session (s s' : TorSession) : Prop :=
  tm_config (ts_manager s') = tm_config (ts_manager s) ∧ tm_paths (ts_manager s') = tm_paths (ts_manager s) ∧
  tm_child (ts_manager s') = tm_child (ts_manager s) ∧ tm_onion (ts_manager s') = tm_onion (ts_manager s) ∧
  (ts_clock s <= ts_clock s')%N.

Lemma same_session_refl s : same_session s s.
Proof. by split_and!. Qed.
Lemma same_session_trans s1 s2 s3 : same_session s1 s2 → same_session s2 s3 → same_session s1 s3.
Proof. unfold same_session. intros (-> & -> & -> & -> & ?) (-> & -> & -> & -> & ?). split_and!; try done. lia. Qed.

(** A call on the control client: it is of the client the manager has, and
    what it succeeds with is what the client's operation makes of what is
    left on the socket and what comes in. *)
Definition call_post {A} (env : TorEnv) (text : rstring) (f : WriteResult → ControlClient → list ReadResult →
    Result A ControlError * ControlClient * list ReadResult) (s : TorSession)
    (o : Outcome TorError (option (Result A ControlError))) (s' : TorSession) : Prop :=
  match o with
  | Done r => ∃ c c', tm_control (ts_manager s) = Some c ∧ tm_control (ts_manager s') = Some c' ∧
      same_session s s' ∧ ts_log s' = ts_log s ++ [TA_Command text] ∧ ts_progress s' = ts_progress s ∧
      let io := tv_command env (ts_calls s) in
      ∀ a, r = Some (Ok a) → f (ci_write io) c (ts_socket s ++ ci_reads io) = (Ok a, c', ts_socket s')
  | Fail e => e = TE_NoControlConnection ∧ tm_control (ts_manager s) = None ∧ s' = s
  | Panic => False
  end.

Lemma control_call_wp {A} env limit text f s :
  wp (control_call (A := A) env limit text f) (λ o s', call_post env text f s.1 o s'.1) s.
Proof.
  unfold control_call. repeat wp_step. destruct (tm_control (ts_manager s.1)) as [c|] eqn:Ec; [|by split_and!].
  unfold next_call, log_action. rewrite wp_bind. repeat wp_step. cbn [bind_post]. repeat wp_step.
  set (io := tv_command env _).
  match goal with |- context [f (ci_write io) c ?r] => destruct (f (ci_write io) c r) as [[res c'] rest] eqn:Ef end.
  repeat wp_step. destruct (is_command_timeout res) eqn:Et.
  - repeat wp_step.
    match goal with |- wp (if ?b then _ else _) _ _ => destruct b eqn:Eb end; repeat wp_step; cbn;
      eexists c, _; split_and!; try done; try (by intros a [=]); cbn.
    + split_and!; try done. cbn. destruct limit as [d|]; [cbn; lia|done].
    + split_and!; try done. cbn. lia.
    + intros a [= ->]. done.
  - repeat wp_step. cbn. eexists c, _. split_and!; try done; cbn.
    + split_and!; try done. cbn. destruct limit as [d|]; [destruct (d <? _)%N; cbn|]; lia.
    + intros a [= ->]. done.
Qed.

(** What a command that is answered has written. *)
Lemma command_answered text w c reads reply c' rest :
  command text w c reads = (Ok reply, c', rest) →
  cc_poisoned c = false ∧ cc_poisoned c' = false ∧
  cc_written c' = cc_written c ++ utf8 (text ++ [13%N; 10%N]).
Proof.
  unfold command. destruct (cc_poisoned c); [done|]. destruct (existsb _ text); [done|]. destruct w; [|done|done].
  destruct (reply_loop _ _ _ _) as [[[result|] r] rs]; [|done]. by intros [= -> <- _].
Qed.

(** The replies to AUTHENTICATE that let the client on: Tor's consent, or that
    it was authenticated already. *)
Definition lets_in (reply : Reply) : Prop :=
  Reply_is_ok reply = true ∨ re_code reply = 513%N ∧ contains (lit "authenticated") (Reply_first_line reply) = true.

Lemma authenticate_answered cookie w c reads c' rest :
  authenticate cookie w c reads = (Ok tt, c', rest) →
  (∃ reply, command (lit "AUTHENTICATE " ++ cookie) w c reads = (Ok reply, c', rest) ∧ lets_in reply) ∧
  cc_poisoned c = false ∧ cc_poisoned c' = false ∧
  cc_written c' = cc_written c ++ utf8 ((lit "AUTHENTICATE " ++ cookie) ++ [13%N; 10%N]).
Proof.
  unfold authenticate. destruct (command _ w c reads) as [[[reply|e] c1] rs] eqn:E; [|done].
  intros Hrun. assert (c1 = c' ∧ rs = rest ∧ lets_in reply) as (-> & -> & Hl).
  { revert Hrun. unfold lets_in. destruct (Reply_is_ok reply); [intros [= <- <-]; auto|].
    destruct (N.eqb_spec (re_code reply) 513); cbn [andb]; [|done]. destruct (contains _ _) eqn:Ec; [|done]. intros [= <- <-]. auto. }
  split; [by exists reply|]. by apply command_answered in E.
Qed.

(** * The loops of the start *)

Section start.
Context (env : TorEnv).

Definition quiet (s s' : TorSession) : Prop :=
  same_session s s' ∧ ts_log s' = ts_log s ∧ ts_progress s' = ts_progress s ∧ ts_socket s' = ts_socket s.

Lemma quiet_refl s : quiet s s.
Proof. by split_and!; [apply same_session_refl|..]. Qed.
Lemma quiet_trans s1 s2 s3 : quiet s1 s2 → quiet s2 s3 → quiet s1 s3.
Proof. intros (H1 & H2 & H3 & H4) (G1 & G2 & G3 & G4). split_and!; [by eapply same_session_trans|congruence..]. Qed.

Lemma quiet_clock s t : (ts_clock s <= t)%N → quiet s (ts_put_clock t (ts_put_calls (S (ts_calls s)) s)).
Proof. intros H. by split_and!. Qed.

Ltac quiet_step :=
  unfold quiet, same_session; cbn; split_and!; try done; try lia; try (intros; congruence).

(** A wait of an interval, in one step. *)
Lemma interval_tick_wp {B} P next (f : Instant → Comp TorSession TorError B) Q s :
  (∀ t s', (next <= t)%N → (ts_clock s.1 <= t)%N → ts_clock s'.1 = t → quiet s.1 s'.1 →
     ts_manager s'.1 = ts_manager s.1 → wp (f (t + P)%N) Q s') →
  wp (interval_tick env P next ≫= f) Q s.
Proof.
  intros H. unfold interval_tick, next_call, clock. rewrite wp_bind. rewrite wp_bind. repeat wp_step. cbn [bind_post].
  rewrite wp_bind. repeat wp_step. cbn [bind_post]. repeat wp_step. cbn [bind_post].
  apply H; cbn; [lia|lia|done|apply quiet_clock; cbn; lia|done].
Qed.

Definition connected_post (s : TorSession) (o : Outcome TorError unit) (s' : TorSession) : Prop :=
  o ≠ Panic ∧ quiet s s' ∧ (o = Done tt → tm_control (ts_manager s') = Some ControlClient_connected).

Lemma connect_loop_wp fuel deadline : ∀ next s,
  budget (millis 100) deadline (ts_clock s.1) next fuel →
  wp (connect_loop env fuel deadline next) (λ o s', connected_post s.1 o s'.1) s.
Proof.
  induction fuel as [|fuel IH]; intros next s Hb; [by destruct Hb|]. cbn [connect_loop]. unfold next_call, advance, clock.
  rewrite wp_bind. repeat wp_step. cbn [bind_post]. destruct (tv_connect env _) as [r took]. repeat wp_step.
  destruct r as [[]|kind].
  { repeat wp_step. unfold connected_post. by quiet_step. }
  rewrite wp_bind. repeat wp_step. cbn [bind_post].
  match goal with |- context [(deadline <=? ?t)%N] => destruct (N.leb_spec deadline t) as [Hd|Hd] end.
  { repeat wp_step. unfold connected_post. by quiet_step. }
  apply interval_tick_wp. intros t s' Ht Hc Ht' Hq Hm. eapply wp_mono; [|apply IH].
  - intros o s'' (H1 & H2 & H3). split_and!; [done| |done]. eapply quiet_trans; [|exact H2].
    eapply quiet_trans; [|exact Hq]. by quiet_step.
  - rewrite Ht'. eapply budget_step; [done| |exact Hd|done]. cbn in Hc |- *. lia.
Qed.

Lemma control_connect_wp s : wp (control_connect env) (λ o s', connected_post s.1 o s'.1) s.
Proof. unfold control_connect. repeat wp_step. by apply connect_loop_wp, budget_start. Qed.

(** The cookie that was read is the whole file, of the user alone. *)
Definition cookie_ok (cookie_hex : rstring) : Prop :=
  ∃ n cookie md uid, (tv_cookie env n).1 = Ok cookie ∧ length cookie = 32 ∧ cookie_hex = hex cookie ∧
    tv_metadata env = Ok md ∧ effective_uid (tv_status env) = Some uid ∧ md_uid md = uid ∧
    broader_than_owner (md_mode md) = false.

Definition cookie_post (s : TorSession) (o : Outcome TorError rstring) (s' : TorSession) : Prop :=
  o ≠ Panic ∧ quiet s s' ∧ tm_control (ts_manager s') = tm_control (ts_manager s) ∧ ∀ h, o = Done h → cookie_ok h.

Lemma read_cookie_loop_wp fuel deadline : ∀ s,
  budget (millis 100) deadline (ts_clock s.1) (ts_clock s.1 + millis 100) fuel →
  wp (read_cookie_loop env fuel deadline) (λ o s', cookie_post s.1 o s'.1) s.
Proof.
  induction fuel as [|fuel IH]; intros s Hb; [by destruct Hb|]. cbn [read_cookie_loop]. unfold next_call, advance, clock.
  rewrite wp_bind. repeat wp_step. cbn [bind_post]. destruct (tv_cookie env _) as [r took] eqn:Er. repeat wp_step.
  assert (Hq : ∀ t, quiet s.1 (ts_put_clock (ts_clock s.1 + t) (ts_put_calls (S (ts_calls s.1)) s.1))).
  { intros t. apply quiet_clock. lia. }
  assert (Hfail : ∀ e t, cookie_post s.1 (Fail e) (ts_put_clock (ts_clock s.1 + t) (ts_put_calls (S (ts_calls s.1)) s.1))).
  { intros e t. by split_and!. }
  destruct r as [cookie|kind].
  - destruct (Nat.eqb_spec (length cookie) 32) as [Hl|]; [|apply Hfail]. repeat wp_step.
    destruct (tv_metadata env) as [md|k] eqn:Emd; [|apply Hfail]. unfold check_cookie_file. rewrite wp_bind.
    destruct (effective_uid _) as [uid|] eqn:Eu; [|apply Hfail]. destruct (N.eqb_spec (md_uid md) uid); [|apply Hfail].
    cbn [negb]. destruct (broader_than_owner _) eqn:Eb; [apply Hfail|]. repeat wp_step. cbn [bind_post]. repeat wp_step.
    split_and!; [done|apply Hq|done|]. intros h [= <-]. exists (ts_calls s.1), cookie, md, uid. by rewrite Er.
  - assert (Hcase : kind = IO_NotFound ∨ kind ≠ IO_NotFound) by (destruct kind; auto).
    destruct Hcase as [->|Hk]; [|destruct kind; try done; apply Hfail]. rewrite wp_bind. repeat wp_step. cbn [bind_post].
    match goal with |- context [(deadline <=? ?t)%N] => destruct (N.leb_spec deadline t) as [Hd|Hd] end; [apply Hfail|].
    unfold sleep, next_call, advance. rewrite wp_bind. rewrite wp_bind. repeat wp_step. cbn [bind_post]. repeat wp_step. cbn [bind_post].
    eapply wp_mono; [|apply IH; cbn; eapply budget_step; [exact Hb| |exact Hd|]; cbn; lia].
    intros o s'' (H1 & H2 & H3 & H4). split_and!; [done| |done|done]. eapply quiet_trans; [apply (Hq took)|].
    eapply quiet_trans; [|exact H2]. by quiet_step.
Qed.

Lemma read_cookie_hex_wp s : wp (read_cookie_hex env) (λ o s', cookie_post s.1 o s'.1) s.
Proof.
  unfold read_cookie_hex. repeat wp_step. apply read_cookie_loop_wp.
  pose proof (budget_start (millis 100) (control_connect_timeout (tm_config (ts_manager s.1))) (ts_clock s.1) eq_refl).
  unfold budget in *. unfold millis in *. lia.
Qed.

(** ** Waiting for the bootstrap *)

Definition alive_seen (s : TorSession) : Prop := tm_child (ts_manager s) = true → ∃ n, tv_exited env n = Ok false.

Lemma ensure_child_alive_wp s (Q : Outcome TorError bool → TorSession * Rng → Prop) :
  (∀ o s', o ≠ Panic → quiet s.1 s'.1 → ts_manager s'.1 = ts_manager s.1 →
     (o = Done false → alive_seen s.1) → Q o s') →
  wp (ensure_child_alive env) Q s.
Proof.
  intros H. unfold ensure_child_alive. repeat wp_step. destruct (tm_child (ts_manager s.1)) eqn:Ec.
  - unfold next_call. rewrite wp_bind. repeat wp_step. cbn [bind_post]. unfold wp, try_.
    destruct (tv_exited env (ts_calls s.1)) as [b|k] eqn:E; cbn; apply H; try done; try by quiet_step.
    intros [= ->] _. by eexists.
  - repeat wp_step. apply H; [done|apply quiet_refl|done|]. intros _. unfold alive_seen. by rewrite Ec.
Qed.

(** The client wrote [bytes] and got its replies. *)
Definition spoke (bytes : list byte) (s s' : TorSession) : Prop :=
  ∃ c c', tm_control (ts_manager s) = Some c ∧ tm_control (ts_manager s') = Some c' ∧
    cc_poisoned c' = false ∧ cc_written c' = cc_written c ++ bytes.

Lemma spoke_trans b1 b2 s1 s2 s3 : spoke b1 s1 s2 → spoke b2 s2 s3 → spoke (b1 ++ b2) s1 s3.
Proof.
  intros (c1 & c2 & E1 & E2 & _ & W1) (c2' & c3 & E2' & E3 & P & W2). rewrite E2 in E2'. injection E2' as <-.
  exists c1, c3. split_and!; try done. by rewrite W2, W1, <-app_assoc.
Qed.

Definition getinfo_bytes : list byte := utf8 (GETINFO_BOOTSTRAP ++ [13%N; 10%N]).
Definition reported (percent : option u8) : list u8 := match percent with Some p => [p] | None => [] end.

Lemma bootstrap_progress_bound reply p : bootstrap_progress reply = Some p → (p <= 100)%N.
Proof.
  unfold bootstrap_progress. intros (value & _ & H)%bind_Some. apply bind_Some in H as (percent & _ & H).
  destruct (N.leb_spec percent 100); [|done]. by injection H as <-.
Qed.

(** Tor's reply to the last question for its phase, read off the control
    socket, is the one that gives this percentage. *)
Definition phase_told (percent : option u8) (s' : TorSession) : Prop :=
  ∃ n c socket reply c', let io := tv_command env n in
    command GETINFO_BOOTSTRAP (ci_write io) c (socket ++ ci_reads io) = (Ok reply, c', ts_socket s') ∧
    bootstrap_progress reply = percent ∧ tm_control (ts_manager s') = Some c'.

(** A turn: at most one command, and what it reports. *)
Definition poll_post (s : TorSession) (o : Outcome TorError (option u8)) (s' : TorSession) : Prop :=
  o ≠ Panic ∧ same_session s s' ∧
  (∃ k, k <= 1 ∧ ts_log s' = ts_log s ++ repeat (TA_Command GETINFO_BOOTSTRAP) k) ∧
  ∀ percent, o = Done percent →
    ts_log s' = ts_log s ++ [TA_Command GETINFO_BOOTSTRAP] ∧ ts_progress s' = ts_progress s ++ reported percent ∧
    (∀ p, percent = Some p → (p <= 100)%N) ∧ spoke getinfo_bytes s s' ∧ alive_seen s ∧ phase_told percent s'.

Lemma poll_bootstrap_wp timeout deadline s :
  wp (poll_bootstrap env timeout deadline) (λ o s', poll_post s.1 o s'.1) s.
Proof.
  unfold poll_bootstrap. rewrite wp_bind. apply ensure_child_alive_wp. intros o s1 Ho (Hs & Hlog & Hp & _) Hm Ha.
  assert (Hstop : ∀ (o : Outcome TorError (option u8)), o ≠ Panic → (∀ x, o ≠ Done x) → poll_post s.1 o s1.1).
  { intros o' H1 H2. split_and!; [done|done|exists 0; split; [lia|by rewrite app_nil_r]|intros x Hx; by destruct (H2 x)]. }
  destruct o as [[]|e|]; cbn [bind_post]; [repeat wp_step; by apply Hstop| |by apply Hstop|done].
  rewrite wp_bind. eapply wp_mono; [|apply control_call_wp]. intros [r|e|] s2; cbn [call_post]; [|intros (-> & _ & Heq); cbn [bind_post]; rewrite Heq; by apply Hstop|done].
  intros (c & c' & E1 & E2 & Hs2 & Hlog2 & Hp2 & Hok). cbn [bind_post].
  assert (Hs' : same_session s.1 s2.1) by (by eapply same_session_trans).
  assert (Hl : ts_log s2.1 = ts_log s.1 ++ [TA_Command GETINFO_BOOTSTRAP]) by (by rewrite Hlog2, Hlog).
  assert (Hstop2 : ∀ (o : Outcome TorError (option u8)), o ≠ Panic → (∀ x, o ≠ Done x) → poll_post s.1 o s2.1).
  { intros o' H1 H2. split_and!; [done|done|by exists 1|intros x Hx; by destruct (H2 x)]. }
  repeat wp_step. destruct r as [r|]; [|by apply Hstop2]. repeat wp_step. destruct r as [reply|e]; [|by apply Hstop2].
  pose proof (Hok reply eq_refl) as Hcmd. pose proof Hcmd as (_ & Hpo & Hw)%command_answered.
  assert (Hsp : spoke getinfo_bytes s.1 s2.1).
  { exists c, c'. split_and!; try done. by rewrite <-Hm. }
  assert (Hdone : ∀ s', same_session s2.1 s' → ts_log s' = ts_log s2.1 →
    tm_control (ts_manager s') = tm_control (ts_manager s2.1) → ts_socket s' = ts_socket s2.1 →
    ts_progress s' = ts_progress s2.1 ++ reported (bootstrap_progress reply) →
    poll_post s.1 (Done (bootstrap_progress reply)) s').
  { intros s' H1 H2 H3 H5 H4. split_and!; [done|by eapply same_session_trans|exists 1; split; [lia|by rewrite H2]|].
    intros percent [= <-]. split_and!; [congruence|by rewrite H4, Hp2, Hp|by intros p ?%bootstrap_progress_bound| |by apply Ha|].
    - destruct Hsp as (c1 & c2 & ? & ? & ? & ?). exists c1, c2. rewrite H3. done.
    - exists (ts_calls s1.1), c, (ts_socket s1.1), reply, c'. rewrite H5, H3. by split_and!. }
  rewrite wp_bind. unfold report_progress.
  destruct (bootstrap_progress reply) as [p|] eqn:Eb; cbn [reported] in Hdone |- *; repeat wp_step; cbn [bind_post];
    repeat wp_step; apply Hdone; cbn; try done; try by rewrite app_nil_r.
Qed.

(** The loop: the turns it took and how they ended. *)
Definition bootstrap_post (turns : nat) (s : TorSession) (o : Outcome TorError unit) (s' : TorSession) : Prop :=
  o ≠ Panic ∧ same_session s s' ∧
  ∃ k, k <= turns ∧ ts_log s' = ts_log s ++ repeat (TA_Command GETINFO_BOOTSTRAP) k ∧
    (o = Done tt → 1 <= k ∧ alive_seen s ∧ spoke (concat (repeat getinfo_bytes k)) s s' ∧ phase_told (Some 100%N) s' ∧
       ∃ before, ts_progress s' = ts_progress s ++ before ++ [100%N] ∧ Forall (λ p, p <= 100)%N before).

Lemma bootstrap_loop_wp timeout fuel deadline : ∀ next s,
  budget (millis 500) deadline (ts_clock s.1) next fuel →
  wp (bootstrap_loop env fuel timeout deadline next) (λ o s', bootstrap_post fuel s.1 o s'.1) s.
Proof.
  induction fuel as [|fuel IH]; intros next s Hb; [by destruct Hb|]. cbn [bootstrap_loop]. rewrite wp_bind.
  eapply wp_mono; [|apply poll_bootstrap_wp]. intros o s1 (Ho & Hs & (k & Hk & Hlog) & Hdone).
  destruct o as [percent|e|]; [|cbn [bind_post]; split_and!; try done; exists k; split_and!; [lia|done|done]|done].
  destruct (Hdone percent eq_refl) as (Hl & Hp & Hle & Hsp & Ha & Htold). cbn [bind_post]. clear k Hk Hlog Hdone.
  case_bool_decide as H100.
  { repeat wp_step. split_and!; try done. exists 1. split_and!; [lia|done|]. intros _. split_and!; [lia|done| |congruence|].
    - cbn [repeat concat]. by rewrite app_nil_r.
    - exists []. rewrite Hp, H100. by split. }
  unfold clock. rewrite wp_bind. repeat wp_step. cbn [bind_post].
  destruct (N.leb_spec deadline (ts_clock s1.1)) as [Hd|Hd].
  { repeat wp_step. split_and!; try done. exists 1. split_and!; [lia|done|done]. }
  apply interval_tick_wp. intros t s2 Ht Hc Ht' (Hs2 & Hl2 & Hp2 & _) Hm.
  eapply wp_mono; [|apply IH; rewrite Ht'; eapply budget_step; [exact Hb| |exact Hd|done]; apply Hs].
  intros o s3 (Ho3 & Hs3 & k & Hk & Hlog & Hdone). split_and!; [done|eapply same_session_trans; [|done]; by eapply same_session_trans|].
  exists (S k). split_and!; [lia|by rewrite Hlog, Hl2, Hl, <-app_assoc|].
  intros ->. destruct (Hdone eq_refl) as (Hk1 & _ & Hsp3 & Htold3 & before & Hpr & Hall). split_and!; [lia|done| |exact Htold3|].
  - cbn [repeat concat]. eapply spoke_trans; [exact Hsp|]. unfold spoke in *. by rewrite Hm in Hsp3.
  - exists (reported percent ++ before). split; [by rewrite Hpr, Hp2, Hp, <-!app_assoc|]. apply list.Forall_app_2; [|done].
    destruct percent as [p|]; [|done]. by apply list.Forall_singleton, Hle.
Qed.

Lemma wait_for_bootstrap_wp s :
  wp (wait_for_bootstrap env)
    (λ o s', bootstrap_post (loop_fuel (bootstrap_timeout (tm_config (ts_manager s.1))) (millis 500)) s.1 o s'.1) s.
Proof. unfold wait_for_bootstrap. repeat wp_step. by apply bootstrap_loop_wp, budget_start. Qed.

(** ** The whole start *)

Definition auth_command (cookie_hex : rstring) : rstring := lit "AUTHENTICATE " ++ cookie_hex.

(** What is done, in order, and how many polls it takes. *)
Definition start_log (binary cookie_hex : rstring) (paths : SessionPaths) (k : nat) : list TorAction :=
  [TA_Spawn binary (spawn_args paths); TA_Command (auth_command cookie_hex)]
  ++ repeat (TA_Command GETINFO_BOOTSTRAP) k.

Definition max_polls (s : TorSession) : nat :=
  loop_fuel (bootstrap_timeout (tm_config (ts_manager s))) (millis 500).

Record started (binary cookie_hex : rstring) (k : nat) (s s' : TorSession) : Prop := {
  st_binary : resolve_tor_binary (tv_is_file env) (tv_path env) (tor_binary (tm_config (ts_manager s))) = Ok binary;
  st_spawned : tv_spawn env = Ok tt ∧ tm_child (ts_manager s') = true;
  st_alive : ∃ n, tv_exited env n = Ok false;
  st_cookie : cookie_ok cookie_hex;
  st_log : ts_log s' = ts_log s ++ start_log binary cookie_hex (tm_paths (ts_manager s)) k;
  st_authenticated : ∃ n reply c rest, let io := tv_command env n in
    command (auth_command cookie_hex) (ci_write io) ControlClient_connected (ts_socket s ++ ci_reads io) = (Ok reply, c, rest) ∧
    lets_in reply;
  st_bootstrapped : phase_told (Some 100%N) s';
  st_client : ∃ c, tm_control (ts_manager s') = Some c ∧ cc_poisoned c = false ∧
    cc_written c = utf8 (auth_command cookie_hex ++ [13%N; 10%N]) ++ concat (repeat getinfo_bytes k);
  st_progress : ∃ before, ts_progress s' = ts_progress s ++ before ++ [100%N] ∧ Forall (λ p, p <= 100)%N before;
}.

Definition start_post (s : TorSession) (o : Outcome TorError unit) (s' : TorSession) : Prop :=
  o ≠ Panic ∧ tm_config (ts_manager s') = tm_config (ts_manager s) ∧ tm_paths (ts_manager s') = tm_paths (ts_manager s) ∧
  tm_onion (ts_manager s') = tm_onion (ts_manager s) ∧
  length (ts_log s') <= length (ts_log s) + 2 + max_polls s ∧
  (ts_log s' = ts_log s ∧ tm_child (ts_manager s') = tm_child (ts_manager s) ∨ (tv_spawn env = Ok tt → tm_child (ts_manager s') = true)) ∧
  (o = Done tt → ∃ binary cookie_hex k, started binary cookie_hex k s s' ∧ 1 <= k <= max_polls s).

Lemma start_wp s : wp (start_with_progress env) (λ o s', start_post s.1 o s'.1) s.
Proof.
  unfold start_with_progress. rewrite wp_self, wp_try. cbv zeta.
  assert (Hstop : ∀ (o : Outcome TorError unit) s', o ≠ Panic → o ≠ Done tt →
    tm_config (ts_manager s') = tm_config (ts_manager s.1) → tm_paths (ts_manager s') = tm_paths (ts_manager s.1) →
    tm_onion (ts_manager s') = tm_onion (ts_manager s.1) → length (ts_log s') <= length (ts_log s.1) + 2 →
    (ts_log s' = ts_log s.1 ∧ tm_child (ts_manager s') = tm_child (ts_manager s.1) ∨ (tv_spawn env = Ok tt → tm_child (ts_manager s') = true)) →
    start_post s.1 o s').
  { intros o s' H1 H2 H3 H4 H5 H6 H7. split_and!; try done. lia. }
  destruct (resolve_tor_binary _ _ _) as [binary|e] eqn:Eb; [|apply Hstop; try done; [lia|by left]].
  unfold log_action. rewrite wp_modify, wp_try. destruct (tv_spawn env) as [[]|k] eqn:Es.
  2:{ apply Hstop; try done; [|by right]. cbn. rewrite length_app. cbn. lia. }
  rewrite wp_modify. cbn [fst snd]. rewrite wp_bind. eapply wp_mono; [|apply control_connect_wp]. cbn [fst snd].
  intros o s1 (Ho & (Hs1 & Hl1 & Hp1 & Hk1) & Hc1). cbn in Hl1, Hp1, Hk1. destruct Hs1 as (Hcf & Hpa & Hch & Hon & _). cbn in Hcf, Hpa, Hch, Hon.
  assert (Hlen : length (ts_log s1.1) <= length (ts_log s.1) + 1) by (rewrite Hl1, length_app; cbn; lia).
  destruct o as [[]|e|]; cbn [bind_post]; [|apply Hstop; try done; [lia|by right]|done]. specialize (Hc1 eq_refl).
  unfold authenticate_and_bootstrap. rewrite wp_bind. eapply wp_mono; [|apply read_cookie_hex_wp].
  intros o s2 (Ho2 & (Hs2 & Hl2 & Hp2 & Hk2) & Hc2 & Hck). destruct Hs2 as (Hcf2 & Hpa2 & Hch2 & Hon2 & _).
  destruct o as [h|e|]; cbn [bind_post]; [|apply Hstop; try done; try congruence; [rewrite Hl2; lia|right; congruence]|done].
  specialize (Hck h eq_refl). unfold control_authenticate. rewrite !wp_bind. eapply wp_mono; [|apply control_call_wp].
  intros [r|e|] s3; cbn [call_post]; [|intros (_ & H & _); congruence|done].
  intros (c & c' & E1 & E2 & (Hcf3 & Hpa3 & Hch3 & Hon3 & _) & Hl3 & Hp3 & Hok). cbn [bind_post]. rewrite wp_ret. cbn [bind_post].
  assert (Hlen3 : length (ts_log s3.1) <= length (ts_log s.1) + 2) by (rewrite Hl3, length_app, Hl2; cbn; lia).
  rewrite wp_try. destruct r as [[[]|e]|]; cbn [default from_option id]; [|apply Hstop; try done; try congruence; right; congruence..].
  destruct (authenticate_answered _ _ _ _ _ _ (Hok tt eq_refl)) as ((reply & Hreply & Hlets) & _ & Hpo & Hw).
  eapply wp_mono; [|apply wait_for_bootstrap_wp].
  intros o s4 (Ho4 & (Hcf4 & Hpa4 & Hch4 & Hon4 & _) & k & Hk & Hl4 & Hdone).
  assert (Hmax : loop_fuel (bootstrap_timeout (tm_config (ts_manager s3.1))) (millis 500) = max_polls s.1) by (unfold max_polls; congruence).
  rewrite Hmax in Hk. split_and!; [done|congruence|congruence|congruence| | |].
  { rewrite Hl4, length_app, repeat_length. lia. }
  { right. congruence. }
  intros ->. destruct (Hdone eq_refl) as (Hk3 & Hal & (c2 & c3 & E3 & E4 & Hpo4 & Hw4) & Htold & before & Hpr & Hall).
  assert (Hcc : c = ControlClient_connected) by congruence. subst c. assert (c2 = c') by congruence. subst c2.
  exists binary, h, k. split; [|lia]. constructor; try done.
  - split; [done|]. congruence.
  - apply Hal. congruence.
  - rewrite Hl4, Hl3, Hl2, Hl1. cbn [fst snd ts_log ts_put_log upd_manager ts_put_manager]. unfold start_log. by rewrite <-!app_assoc.
  - eexists (ts_calls s2.1), reply, c', _. rewrite <-Hk1, <-Hk2. by split.
  - exists c3. split_and!; [done|done|]. by rewrite Hw4, Hw.
  - exists before. split; [|done]. rewrite Hpr, Hp3, Hp2, Hp1. done.
Qed.
End start.

(** C31.  The start of Tor succeeds only with a process that is ready. The binary is
    the one that was asked for, or the first on the path; its process was spawned and
    seen alive; the cookie is a whole one in a file of the user alone; the client
    authenticated with it, first: the reply read off the control socket was Tor's
    consent, or that it was authenticated already; then it asked for the bootstrap
    phase, within the polls that the timeout allows, until the reply to the last
    question gave one hundred per cent; it has written nothing else and is not poisoned.
    *)
Theorem tor_start_ready env m now rng s' rng' :
  start_with_progress env (TorSession_new m now, rng) = (Done tt, (s', rng')) →
  ∃ binary cookie_hex k, started env binary cookie_hex k (TorSession_new m now) s' ∧
    1 <= k <= loop_fuel (bootstrap_timeout (tm_config m)) (millis 500) ∧ tm_paths (ts_manager s') = tm_paths m.
Proof.
  intros Hrun. pose proof (start_wp env (TorSession_new m now, rng)) as Hw. unfold wp in Hw. rewrite Hrun in Hw.
  cbn [fst snd] in Hw. destruct Hw as (_ & _ & Hpa & _ & _ & _ & H). destruct (H eq_refl) as (b & h & k & Hs & Hk).
  by exists b, h, k.
Qed.

(** C32.  The start always returns: whatever the sockets, the cookie and the process
    do, and however late the timers are, none of its loops takes more turns than its
    timeout has periods, and three more; and all that it does, the process it spawns,
    the command that authenticates and the questions for the phase, comes to at most
    five actions and one for each half second of its timeout. *)
Theorem tor_start_returns env s :
  (start_with_progress env s).1 ≠ Panic ∧
  length (ts_log (start_with_progress env s).2.1) <=
    length (ts_log s.1) + 2 + loop_fuel (bootstrap_timeout (tm_config (ts_manager s.1))) (millis 500).
Proof. pose proof (start_wp env s) as (H1 & _ & _ & _ & H2 & _ & _). by split. Qed.

(** * The session's directory *)

Section prepare.
Context `{PR : !Primitives}.

Lemma path_join_safe p n : forallb is_control_safe p = true → forallb is_control_safe n = true →
  forallb is_control_safe (path_join p n) = true.
Proof.
  intros Hp Hn. unfold path_join. destruct (list.last p) as [c|]; [|done]. destruct (c =? 47)%N; rewrite !forallb_app, Hp, Hn; done.
Qed.

Lemma hex_digit_safe d : (d < 16)%N → is_control_safe (hex_digit d) = true.
Proof.
  intros Hd. assert (Hall : forallb (λ d, is_control_safe (hex_digit d)) (N.of_nat <$> seq 0 16) = true) by done.
  rewrite forallb_forall in Hall. apply Hall. rewrite <-(N2Nat.id d). apply in_map, in_seq. lia.
Qed.

Lemma hex_safe bs : forallb is_control_safe (hex bs) = true.
Proof.
  induction bs as [|b bs IH]; [done|]. unfold hex in *. cbn [flat_map]. rewrite forallb_app, IH, andb_true_r.
  pose proof (byte_val_lt b). unfold hex2. cbn [forallb]. rewrite !hex_digit_safe; [done|div_lia..].
Qed.

(** What [create_session_dir] did where it succeeded. *)
Record dir_created (fs : FsCall → Result unit IoErrorKind) (root dir : rstring) (log log' : list FsCall) : Prop := {
  dc_root : forallb is_control_safe root = true;
  dc_name : ∃ random, length random = 16 ∧
    dir = path_join (path_join root (lit "veilroom")) (lit "session-" ++ hex random);
  dc_log : log' = log ++ [FC_CreateDirs (path_join root (lit "veilroom")) 448; FC_SetMode (path_join root (lit "veilroom")) 448;
                          FC_CreateDir dir 448; FC_SetMode dir 448; FC_CreateNew (path_join dir (lit "lock")) 384];
  dc_done : Forall (λ c, c ∈ log ∨ fs c = Ok tt) log';
}.

(** What it left where it failed: no session directory at all, or one that it
    made and could not close to others or lock, its last call. *)
Definition no_directory (fs : FsCall → Result unit IoErrorKind) (log : list FsCall) : Prop :=
  ∀ dir mode, FC_CreateDir dir mode ∈ log → fs (FC_CreateDir dir mode) ≠ Ok tt.

Definition half_made (fs : FsCall → Result unit IoErrorKind) (log : list FsCall) : Prop :=
  ∃ before dir, no_directory fs before ∧ fs (FC_CreateDir dir 448) = Ok tt ∧
    ((∃ kind, log = before ++ [FC_CreateDir dir 448; FC_SetMode dir 448] ∧ fs (FC_SetMode dir 448) = Err kind) ∨
     (∃ kind, log = before ++ [FC_CreateDir dir 448; FC_SetMode dir 448; FC_CreateNew (path_join dir (lit "lock")) 384] ∧
        fs (FC_SetMode dir 448) = Ok tt ∧ fs (FC_CreateNew (path_join dir (lit "lock")) 384) = Err kind)).

Definition unprepared (fs : FsCall → Result unit IoErrorKind) (log : list FsCall) : Prop :=
  no_directory fs log ∨ half_made fs log.

Lemma unprepared_nil fs : unprepared fs [].
Proof. left. by intros dir mode ?%not_elem_of_nil. Qed.

Lemma wp_fs_try {B} fs c (f : unit → Comp (list FsCall) PlatformError B) Q s :
  wp (fs_try fs c ≫= f) Q s ↔
  match fs c with Ok _ => wp (f tt) Q (s.1 ++ [c], s.2) | Err k => Q (Fail (PF_Io k)) (s.1 ++ [c], s.2) end.
Proof. unfold fs_try, fs_call. rewrite !wp_bind. repeat wp_step. cbn [bind_post]. unfold wp at 1, try_. by destruct (fs c) as [[]|]. Qed.

Lemma wp_fs_new {B} fs c e (f : unit → Comp (list FsCall) PlatformError B) Q s :
  wp (fs_new fs c e ≫= f) Q s ↔
  match fs c with
  | Ok _ => wp (f tt) Q (s.1 ++ [c], s.2)
  | Err k => Q (Fail match k with IO_AlreadyExists => e | _ => PF_Io k end) (s.1 ++ [c], s.2)
  end.
Proof. unfold fs_new, fs_call. rewrite !wp_bind. repeat wp_step. cbn [bind_post]. by destruct (fs c) as [[]|[]]. Qed.

Lemma create_session_dir_wp `{PL : !PrimitiveLaws} fs root rng :
  wp (create_session_dir fs root) (λ o s', o ≠ Panic ∧ (∀ dir, o = Done dir → dir_created fs root dir [] s'.1) ∧
    (∀ e, o = Fail e → unprepared fs s'.1)) ([], rng).
Proof.
  assert (Hno : ∀ l, forallb (λ c, match c with FC_CreateDir _ _ => false | _ => true end) l = true → no_directory fs l).
  { intros l Hl dir mode Hin. rewrite forallb_forall in Hl. apply list_elem_of_In in Hin. by specialize (Hl _ Hin). }
  assert (Hfail : ∀ (o : Outcome PlatformError rstring) e l, o = Fail e → unprepared fs l →
    o ≠ Panic ∧ (∀ dir, o = Done dir → dir_created fs root dir [] l) ∧ (∀ e, o = Fail e → unprepared fs l)).
  { intros o e l -> Hl. by split_and!. }
  unfold create_session_dir. destruct (forallb is_control_safe root) eqn:Er; cbn [negb]; [|eapply Hfail; [done|]; apply unprepared_nil].
  unfold set_dir_mode_0700. rewrite wp_fs_try. destruct (fs (FC_CreateDirs _ _)) as [[]|] eqn:E1; [|eapply Hfail; [done|]; left; by apply Hno].
  rewrite wp_fs_try. destruct (fs (FC_SetMode _ _)) as [[]|] eqn:E2; [|eapply Hfail; [done|]; left; by apply Hno]. cbn [fst snd].
  rewrite wp_draw. cbn [fst snd]. destruct (random_bytes 16 rng) as [[random|] r] eqn:Ed; [|eapply Hfail; [done|]; left; by apply Hno].
  set (dir := path_join (path_join root _) _). set (before := ([] ++ _) ++ _).
  assert (Hb : no_directory fs before) by by apply Hno.
  rewrite wp_fs_new. cbn [fst snd]. destruct (fs (FC_CreateDir dir _)) as [[]|k] eqn:E3.
  2: { eapply Hfail; [done|]. left. intros d m [Hin|Hin%list_elem_of_singleton]%elem_of_app; [by apply Hb|].
       unfold MODE_0700 in *. injection Hin as -> ->. congruence. }
  rewrite wp_fs_try. cbn [fst snd]. destruct (fs (FC_SetMode dir _)) as [[]|k] eqn:E4.
  2: { eapply Hfail; [done|]. right. exists before, dir. split_and!; [done|done|]. left. exists k. by rewrite <-app_assoc. }
  rewrite wp_fs_new. cbn [fst snd]. destruct (fs (FC_CreateNew _ _)) as [[]|k] eqn:E5.
  2: { eapply Hfail; [done|]. right. exists before, dir. split_and!; [done|done|]. right. exists k. by rewrite <-!app_assoc. }
  rewrite wp_ret. split_and!; [done| |done]. intros dir' [= <-]. cbn [fst snd]. apply random_bytes_Ok in Ed.
  constructor; [done| | |].
  - exists random. split; [|done]. by apply Ed.
  - unfold before. by rewrite <-!app_assoc.
  - unfold before. rewrite <-!app_assoc. repeat (apply list.Forall_cons; split; [by right|]). done.
Qed.

Lemma dir_created_safe fs root dir log log' : dir_created fs root dir log log' → forallb is_control_safe dir = true.
Proof. intros [Hr (random & _ & ->) _ _]. apply path_join_safe; [by apply path_join_safe|]. rewrite forallb_app. by rewrite hex_safe. Qed.

(** What preparing has found and done where it succeeded. *)
Record prepared (fs : FsCall → Result unit IoErrorKind) (env_value : option rstring)
    (metadata : Result Metadata IoErrorKind) (status : option rstring) (m : TorManager) (log : list FsCall)
    (root dir : rstring) : Prop := {
  pd_root : env_value = Some root ∧ is_absolute root = true;
  pd_user : is_running_as_root status = false;
  pd_private : ∃ md uid, metadata = Ok md ∧ md_is_symlink md = false ∧ md_is_dir md = true ∧
    effective_uid status = Some uid ∧ md_uid md = uid ∧ broader_than_owner (md_mode md) = false;
  pd_created : dir_created fs root dir [] log;
  pd_manager : tm_paths m = session_paths dir ∧ tm_child m = false;
}.

Lemma prepare_wp `{PL : !PrimitiveLaws} fs binary env_value metadata status rng :
  wp (prepare_with_binary fs binary env_value metadata status) (λ o s', o ≠ Panic ∧ (∀ m, o = Done m →
    ∃ root dir, prepared fs env_value metadata status m s'.1 root dir) ∧ (∀ e, o = Fail e → unprepared fs s'.1)) ([], rng).
Proof.
  assert (Hfail : ∀ (o : Outcome TorError TorManager) e, o = Fail e → o ≠ Panic ∧ (∀ m, o = Done m →
    ∃ root dir, prepared fs env_value metadata status m [] root dir) ∧ (∀ e, o = Fail e → unprepared fs [])).
  { intros o e ->. split_and!; [done|done|]. intros _ _. apply unprepared_nil. }
  unfold prepare_with_binary. rewrite wp_ok_or. unfold runtime_root. destruct env_value as [value|]; [|by eapply Hfail]. cbn [mbind option_bind].
  destruct (non_empty value); [|by eapply Hfail]. rewrite wp_try. unfold validate_runtime_root.
  destruct (is_absolute value) eqn:E1; cbn [negb]; [|by eapply Hfail]. destruct metadata as [md|k]; [|by eapply Hfail].
  destruct (md_is_symlink md) eqn:E2; [by eapply Hfail|]. destruct (md_is_dir md) eqn:E3; cbn [orb negb]; [|by eapply Hfail].
  destruct (effective_uid status) as [uid|] eqn:E4; [|by eapply Hfail].
  destruct (N.eqb_spec (md_uid md) uid) as [E5|]; cbn [negb]; [|by eapply Hfail].
  destruct (broader_than_owner _) eqn:E6; [by eapply Hfail|]. unfold prepare_with.
  destruct (is_running_as_root status) eqn:E7; [by eapply Hfail|].
  rewrite wp_bind. unfold wp at 1, zoom. cbn [fst snd id].
  pose proof (create_session_dir_wp fs value rng) as Hw. unfold wp in Hw.
  destruct (create_session_dir fs value ([], rng)) as [[dir|e|] [log' r']]; cbn [fst snd] in *; cbn [bind_post];
    destruct Hw as (Hp & Hok & Herr); [| |by destruct Hp]; cbn [fst snd]; rewrite wp_try.
  - rewrite wp_ret. split_and!; [done| |done]. intros m' [= <-].
    exists value, dir. constructor; try done; [by exists md, uid|by apply Hok].
  - split_and!; [done|done|]. intros _ _. by eapply Herr.
Qed.

(** Tor is prepared only in a directory that is the session's own. The runtime
    directory is an absolute, real directory of the effective user, closed to everyone
    else, and the user is not root; the session's directory was created in it,
    exclusively, under a random name, closed to everyone else, with its lock; and every
    path of the session is made of characters that cannot split a control command. *)
Theorem session_dir_is_private `{PL : !PrimitiveLaws} fs binary env_value metadata status rng m log rng' :
  prepare_with_binary fs binary env_value metadata status ([], rng) = (Done m, (log, rng')) →
  (∃ root dir, prepared fs env_value metadata status m log root dir) ∧
  Forall (λ p, forallb is_control_safe p = true)
    [session_dir (tm_paths m); tor_data (tm_paths m); control_socket (tm_paths m); socks_socket (tm_paths m);
     chat_socket (tm_paths m); lock_file (tm_paths m)].
Proof.
  intros Hrun. pose proof (prepare_wp fs binary env_value metadata status rng) as Hw. unfold wp in Hw. rewrite Hrun in Hw.
  destruct (proj1 (proj2 Hw) m eq_refl) as (root & dir & Hp). split; [by exists root, dir|].
  destruct Hp as [_ _ _ Hd [-> _]]. apply dir_created_safe in Hd.
  repeat constructor; cbn; try apply path_join_safe; done.
Qed.
End prepare.

(** * The onion service *)

Section onion.
Context `{UP : !UriPrimitives} (env : TorEnv).

Lemma find_prefixed_Some p l r : find_prefixed p l = Some r → ∃ s, s ∈ l ∧ s = p ++ r.
Proof.
  induction l as [|s l IH]; cbn [find_prefixed]; [done|]. destruct (strip_prefix p s) as [rest|] eqn:E.
  - intros [= ->]. apply strip_prefix_Some in E as ->. eexists. split; [apply list_elem_of_here|done].
  - intros H. destruct (IH H) as (s' & Hs & ->). eexists. split; [by apply list_elem_of_further|done].
Qed.

Lemma valid_onion_validates address : is_valid_onion_address address = true → validate_onion_address address = Ok tt.
Proof.
  unfold is_valid_onion_address, validate_onion_address, ONION_V3_SUFFIX, ONION_V3_BODY_LENGTH.
  destruct (strip_suffix (lit ".onion") address) as [body|]; [|done].
  intros [[H1 H2]%andb_prop H3]%andb_prop. by rewrite H1, H2, H3.
Qed.

Lemma safe_not c s : is_control_safe c = false → forallb is_control_safe s = true → c ∉ s.
Proof.
  intros Hc Hs Hin. rewrite forallb_forall in Hs. apply list_elem_of_In in Hin. specialize (Hs _ Hin). congruence.
Qed.

(** The command has the four words it is meant to have, on one line. *)
Lemma add_onion_words port paths : forallb is_control_safe (chat_socket paths) = true →
  split_on 32 (add_onion_command port paths) =
    [lit "ADD_ONION"; lit "NEW:ED25519-V3"; lit "Flags=DiscardPK";
     lit "Port=" ++ display_N port ++ lit ",unix:" ++ chat_socket paths] ∧
  existsb (λ ch, (ch =? 13)%N || (ch =? 10)%N) (add_onion_command port paths) = false.
Proof.
  intros Hp. set (port_word := lit "Port=" ++ display_N port ++ lit ",unix:" ++ chat_socket paths).
  assert (Hno : ∀ c, is_control_safe c = false → is_ascii_digit c = false → c ∉ lit "Port=" → c ∉ lit ",unix:" → c ∉ port_word).
  { intros c H1 H2 H3 H4. unfold port_word. rewrite !elem_of_app. intros [H|[H|[H|H]]]; try contradiction.
    - by apply (digit_not c _ (display_digits port)).
    - by apply (safe_not c (chat_socket paths)). }
  assert (Hcmd : add_onion_command port paths =
    lit "ADD_ONION" ++ 32%N :: lit "NEW:ED25519-V3" ++ 32%N :: lit "Flags=DiscardPK" ++ 32%N :: port_word) by done.
  split.
  - rewrite Hcmd. rewrite !split_on_app by by_compute. rewrite split_on_none; [done|]. apply Hno; by_compute.
  - assert (Hn : ∀ c, c ∉ lit "ADD_ONION NEW:ED25519-V3 Flags=DiscardPK " → c ∉ port_word → c ∉ add_onion_command port paths).
    { intros c H1 H2. rewrite Hcmd.
      change (c ∉ lit "ADD_ONION NEW:ED25519-V3 Flags=DiscardPK " ++ port_word). by rewrite elem_of_app; intros [|]. }
    apply not_true_iff_false. intros (ch & Hin & Hch)%existsb_exists. apply list_elem_of_In in Hin. revert Hin.
    apply orb_prop in Hch as [->%N.eqb_eq| ->%N.eqb_eq]; apply Hn; try by_compute; apply Hno; by_compute.
Qed.

(** An onion service is given out only with an address that every invitation
    can carry: three checks later it is the address that the invitation's own validation
    admits. It is the service Tor named in its reply to one command of four words, which
    nothing in the session's path can split, and it is remembered for the end of the
    session. *)
Theorem onion_service_is_valid port s service s' :
  forallb is_control_safe (chat_socket (tm_paths (ts_manager s.1))) = true →
  add_onion env port s = (Done service, s') →
  port ≠ 0%N ∧ on_virtual_port service = port ∧ tm_onion (ts_manager s'.1) = Some service ∧
  (∀ token, token_length_ok token = true →
     Invitation_new (on_onion_address service) port token
       = Ok {| inv_onion_address := on_onion_address service; inv_port := port; inv_token := token |}) ∧
  ∃ command id reply, ts_log s'.1 = ts_log s.1 ++ [TA_Command command] ∧
    split_on 32 command = [lit "ADD_ONION"; lit "NEW:ED25519-V3"; lit "Flags=DiscardPK";
      lit "Port=" ++ display_N port ++ lit ",unix:" ++ chat_socket (tm_paths (ts_manager s.1))] ∧
    existsb (λ ch, (ch =? 13)%N || (ch =? 10)%N) command = false ∧
    Reply_is_ok reply = true ∧ (lit "ServiceID=" ++ id) ∈ re_lines reply ∧ on_onion_address service = id ++ lit ".onion" ∧
    ∃ c c' rest, tm_control (ts_manager s.1) = Some c ∧ let io := tv_command env (ts_calls s.1) in
      Tor.command command (ci_write io) c (ts_socket s.1 ++ ci_reads io) = (Ok reply, c', rest).
Proof.
  intros Hsafe Hrun. revert Hrun. enough (wp (add_onion env port) (λ o s', ∀ service, o = Done service →
    port ≠ 0%N ∧ on_virtual_port service = port ∧ tm_onion (ts_manager s'.1) = Some service ∧
    validate_onion_address (on_onion_address service) = Ok tt ∧
    let cmd := add_onion_command port (tm_paths (ts_manager s.1)) in
    ∃ id reply, ts_log s'.1 = ts_log s.1 ++ [TA_Command cmd] ∧ Reply_is_ok reply = true ∧
      (lit "ServiceID=" ++ id) ∈ re_lines reply ∧ on_onion_address service = id ++ lit ".onion" ∧
      ∃ c c' rest, tm_control (ts_manager s.1) = Some c ∧ let io := tv_command env (ts_calls s.1) in
        Tor.command cmd (ci_write io) c (ts_socket s.1 ++ ci_reads io) = (Ok reply, c', rest)) s) as Hw.
  { intros Hrun. unfold wp in Hw. rewrite Hrun in Hw.
    destruct (Hw _ eq_refl) as (H1 & H2 & H3 & H4 & id & reply & H5 & H6 & H7 & H8 & H9).
    destruct (add_onion_words port _ Hsafe) as [Hws Hcr]. split_and!; [done..| |by eexists _, id, reply].
    intros token Ht. unfold Invitation_new. rewrite H4. cbn [result_bind]. rewrite (proj2 (N.eqb_neq port 0) H1). by rewrite Ht. }
  unfold add_onion. destruct (N.eqb_spec port 0) as [|Hport]; [done|]. rewrite wp_self. cbv zeta. unfold control_command.
  rewrite !wp_bind. eapply wp_mono; [|apply control_call_wp]. intros [r|e|] s1; cbn [call_post bind_post]; [|done|done].
  intros (c & c' & E1 & E2 & Hs1 & Hl & _ & Hok). rewrite wp_ret. cbn [bind_post]. rewrite wp_try.
  destruct r as [[reply|e]|]; cbn [default from_option id]; [|done|done].
  destruct (Reply_is_ok reply) eqn:Er; cbn [negb]; [|done]. rewrite wp_ok_or.
  destruct (find_prefixed _ _) as [service_id|] eqn:Ef; [|done]. destruct (str_len service_id =? 56)%N; cbn [negb]; [|done].
  destruct (is_valid_onion_address _) eqn:Ev; cbn [negb]; [|done]. rewrite wp_modify, wp_ret. cbn [fst snd].
  intros service' [= <-]. cbn. split_and!; [done|done|done|by apply valid_onion_validates|].
  apply find_prefixed_Some in Ef as (line & Hin & ->). 
  exists service_id, reply. split_and!; try done. eexists c, c', _. split; [done|by apply Hok].
Qed.
End onion.

(** * The end *)

(** What is asked of Tor at the end, and what is done about its process. *)
Definition end_commands (m : TorManager) : list TorAction :=
  match tm_control m with
  | None => []
  | Some _ =>
      match tm_onion m with
      | Some onion => [TA_Command (lit "DEL_ONION " ++ default (on_onion_address onion)
                                     (strip_suffix (lit ".onion") (on_onion_address onion)))]
      | None => []
      end ++ [TA_Command (lit "SIGNAL SHUTDOWN")]
  end.

Definition end_process (env : TorEnv) (m : TorManager) : list TorAction :=
  if tm_child m then TA_Wait :: match tv_wait env with CW_TimedOut => [TA_Kill; TA_Wait] | _ => [] end else [].

Definition end_result (env : TorEnv) (m : TorManager) : Outcome TorError unit :=
  if tm_child m then
    match tv_wait env, tv_kill env with
    | CW_Exited, _ => Done tt
    | CW_Failed kind, _ | CW_TimedOut, Err kind => Fail (TE_Io kind)
    | CW_TimedOut, Ok _ => Fail (TE_ChildExitTimeout (child_exit_timeout (tm_config m)))
    end
  else Done tt.

Lemma control_command_wp env text s c :
  tm_control (ts_manager s.1) = Some c →
  wp (control_command env text) (λ o s', (∃ r, o = Done r) ∧ same_session s.1 s'.1 ∧ is_Some (tm_control (ts_manager s'.1)) ∧
    ts_log s'.1 = ts_log s.1 ++ [TA_Command text]) s.
Proof.
  intros Hc. unfold control_command. rewrite wp_bind. eapply wp_mono; [|apply control_call_wp].
  intros [r|e|] s1; cbn [call_post bind_post]; [|intros (_ & H & _); congruence|done].
  intros (c0 & c' & _ & E2 & Hs & Hl & _). rewrite wp_ret. split_and!; [by eexists|done|by eexists|done].
Qed.

Lemma shutdown_commands_wp env s :
  wp (shutdown_commands env) (λ o s', o = Done tt ∧ same_session s.1 s'.1 ∧
    ts_log s'.1 = ts_log s.1 ++ end_commands (ts_manager s.1)) s.
Proof.
  unfold shutdown_commands, end_commands. rewrite wp_self.
  destruct (tm_control (ts_manager s.1)) as [c|] eqn:Ec; [|rewrite wp_ret; split_and!; [done|apply same_session_refl|by rewrite app_nil_r]].
  assert (Hlast : ∀ s1, is_Some (tm_control (ts_manager s1.1)) → same_session s.1 s1.1 →
    wp (control_command env (lit "SIGNAL SHUTDOWN");; mret tt) (λ o s', o = Done tt ∧ same_session s.1 s'.1 ∧
      ts_log s'.1 = ts_log s1.1 ++ [TA_Command (lit "SIGNAL SHUTDOWN")]) s1).
  { intros s1 [c1 Hc1] Hs1. rewrite wp_bind. eapply wp_mono; [|by eapply control_command_wp].
    intros o s2 ([r ->] & Hs2 & _ & Hl2). cbn [bind_post]. rewrite wp_ret. split_and!; [done|by eapply same_session_trans|done]. }
  rewrite wp_bind. destruct (tm_onion _) as [onion|].
  - rewrite wp_bind. eapply wp_mono; [|by eapply control_command_wp]. intros o s1 ([r ->] & Hs1 & Hc1 & Hl1).
    cbn [bind_post]. rewrite wp_ret. cbn [bind_post]. eapply wp_mono; [|by apply Hlast].
    intros o s2 (-> & Hs2 & Hl2). split_and!; [done|done|]. by rewrite Hl2, Hl1, <-app_assoc.
  - rewrite wp_ret. cbn [bind_post]. eapply wp_mono; [|apply Hlast; [by rewrite Ec|apply same_session_refl]].
    intros o s2 (-> & Hs2 & Hl2). by split_and!.
Qed.

(** The end leaves nothing behind. Whatever the control connection answers,
    its poisoned state included, the service is deleted and Tor is asked to
    go, the process is waited for and, where it stays, killed and waited for;
    only then the cookie is overwritten and, last, the session's directory
    removed. The manager is left without process, connection and service, and
    the error, if any, is that of the process. *)
Lemma shutdown_run env s :
  let m := ts_manager s.1 in
  let s' := (shutdown env s).2 in
  (shutdown env s).1 = end_result env m ∧
  ts_log s'.1 = ts_log s.1 ++ end_commands m ++ end_process env m
    ++ [TA_Fs (FC_Write (cookie_path (tm_paths m)) (replicate 32 Byte.x00)); TA_Fs (FC_RemoveAll (session_dir (tm_paths m)))] ∧
  tm_child (ts_manager s'.1) = false ∧ tm_control (ts_manager s'.1) = None ∧ tm_onion (ts_manager s'.1) = None.
Proof.
  cbv zeta. enough (wp (shutdown env) (λ o s', o = end_result env (ts_manager s.1) ∧
    ts_log s'.1 = ts_log s.1 ++ end_commands (ts_manager s.1) ++ end_process env (ts_manager s.1)
      ++ [TA_Fs (FC_Write (cookie_path (tm_paths (ts_manager s.1))) (replicate 32 Byte.x00));
          TA_Fs (FC_RemoveAll (session_dir (tm_paths (ts_manager s.1))))] ∧
    tm_child (ts_manager s'.1) = false ∧ tm_control (ts_manager s'.1) = None ∧ tm_onion (ts_manager s'.1) = None) s) as Hw.
  { exact Hw. }
  unfold shutdown. rewrite wp_bind. eapply wp_mono; [|apply shutdown_commands_wp].
  intros o s1 (-> & (Hcf & Hpa & Hch & _) & Hl). cbn [bind_post]. rewrite wp_modify, wp_bind. unfold reap_child, end_process, end_result.
  rewrite wp_self. cbn [fst snd upd_manager ts_put_manager ts_manager put_control put_onion tm_child tm_config].
  rewrite Hch, Hcf. unfold wipe_cookie_file, tor_fs, log_action, advance.
  assert (Hend : ∀ (r : Result unit TorError) s2 l, tm_child (ts_manager s2.1) = false → tm_control (ts_manager s2.1) = None →
    tm_onion (ts_manager s2.1) = None → tm_paths (ts_manager s2.1) = tm_paths (ts_manager s.1) →
    ts_log s2.1 = ts_log s1.1 ++ l →
    bind_post (λ result, s ← self; wipe_cookie_file env (tm_paths (ts_manager s));;
      tor_fs env (FC_RemoveAll (session_dir (tm_paths (ts_manager s))));; try_ id result)
      (λ o s', o = (match r with Ok a => Done a | Err e => Fail e end) ∧
      ts_log s'.1 = ts_log s.1 ++ end_commands (ts_manager s.1) ++ l
        ++ [TA_Fs (FC_Write (cookie_path (tm_paths (ts_manager s.1))) (replicate 32 Byte.x00));
            TA_Fs (FC_RemoveAll (session_dir (tm_paths (ts_manager s.1))))] ∧
      tm_child (ts_manager s'.1) = false ∧ tm_control (ts_manager s'.1) = None ∧ tm_onion (ts_manager s'.1) = None) (Done r) s2).
  { intros r s2 l H1 H2 H3 H4 H5. cbn [bind_post]. rewrite wp_self. unfold wipe_cookie_file, tor_fs, log_action.
    repeat first [wp_step | progress cbn [bind_post] | rewrite wp_bind].
    unfold wp, try_. rewrite H4. destruct r as [a|e]; cbn; rewrite H5, Hl, <-!app_assoc; by split_and!. }
  unfold wipe_cookie_file, tor_fs, log_action in Hend.
  destruct (tm_child (ts_manager s.1)) eqn:Ech.
  - rewrite !wp_modify. cbn [fst snd]. destruct (tv_wait env) as [|kind|].
    + rewrite wp_ret. by apply (Hend (Ok tt) _ [TA_Wait]).
    + rewrite wp_ret. by apply (Hend (Err (TE_Io kind)) _ [TA_Wait]).
    + rewrite !wp_modify, wp_ret. cbn [fst snd].
      destruct (tv_kill env) as [[]|k];
        [apply (Hend (Err (TE_ChildExitTimeout (child_exit_timeout (tm_config (ts_manager s.1))))) _ [TA_Wait; TA_Kill; TA_Wait])
        |apply (Hend (Err (TE_Io k)) _ [TA_Wait; TA_Kill; TA_Wait])]; try done; cbn; by rewrite <-!app_assoc.
  - rewrite wp_ret. apply (Hend (Ok tt) _ []); try done; cbn; by rewrite app_nil_r.
Qed.
