(* ===== verification/Messages.v ===== *)
(** Typed protocol messages: the data of [src/protocol/messages.rs],
    [handshake.rs], [membership.rs], [epoch.rs] and [chat.rs] and their
    validating constructors. *)
From Stdlib Require Import Strings.String.
From S2P Require Export Validation Frame Crypto.

(** * Errors *)

(** [StrictError]; an error of the CBOR crate is its text. *)
Inductive StrictError :=
| SE_Cbor (detail : rstring)
| SE_IndefiniteNotAllowed
| SE_NestingTooDeep (limit : usize)
| SE_MapTooLarge (declared : u64) (limit : usize)
| SE_ArrayTooLarge (declared : u64) (limit : usize)
| SE_DuplicateMapKey (key : u64)
| SE_TextTooLong (length : usize) (limit : usize)
| SE_BytesTooLong (length : usize) (limit : usize)
| SE_TrailingData.

Inductive ProtocolError :=
| PE_Frame (e : FrameError)
| PE_Cbor (e : StrictError)
| PE_Encode
| PE_UnknownField (field : u64)
| PE_MissingField (field : u64)
| PE_InvalidField (field : u64) (detail : rstring)
| PE_Validation (e : ValidationError)
| PE_UnknownErrorCode (code : u8)
| PE_InvalidReasonText
| PE_ReasonTooLong (length : usize) (max : usize).

Definition MAX_ERROR_REASON_BYTES : usize := 256.
Definition MAX_REJECT_REASON_BYTES : usize := 256.

(** * Control messages *)

Record ErrorMessage := { em_code : ErrorCode; em_reason : option rstring }.

Definition validate_reason (reason : rstring) : Result unit ProtocolError :=
  if (MAX_ERROR_REASON_BYTES <? str_len reason)%N
  then Err (PE_ReasonTooLong (str_len reason) MAX_ERROR_REASON_BYTES) else
  if contains_control_char reason then Err PE_InvalidReasonText else Ok tt.

Definition ErrorMessage_new (code : ErrorCode) (reason : option rstring)
    : Result ErrorMessage ProtocolError :=
  match reason with
  | Some reason =>
      if negb (non_empty reason) then Ok {| em_code := code; em_reason := None |}
      else match validate_reason reason with
           | Err e => Err e
           | Ok _ => Ok {| em_code := code; em_reason := Some reason |}
           end
  | None => Ok {| em_code := code; em_reason := None |}
  end.

(** * Handshake and admission messages *)

Record ClientHello := { ch_version : u8; ch_client_nonce : list byte; ch_features : u32 }.

Record HostHello := {
  hello_version : u8;
  hello_room_session_id : RoomSessionId;
  hello_host_ed25519_pubkey : list byte;
  hello_host_x25519_pubkey : list byte;
  hello_server_nonce : list byte;
  hello_host_signature : list byte;
}.

Record TokenVerify := { tv_token : list byte }.

Record PasswordChallenge := {
  pc_m_cost : u32; pc_t_cost : u32; pc_p_cost : u8;
  pc_salt : list byte; pc_challenge_nonce : list byte;
}.

Definition TokenVerify_new (token : list byte) : Result TokenVerify ProtocolError :=
  let len := N.of_nat (length token) in
  if negb (in_range 16 32 len) then
    Err (PE_InvalidField 1 (lit "token must be 16..=32 bytes, found " ++ display_N len))
  else Ok {| tv_token := token |}.

Record ChallengeProof := { cp_proof : list byte }.

Record JoinRequestMessage := {
  jm_nickname : rstring;
  jm_introduction : option rstring;
  jm_ed25519_pubkey : list byte;
  jm_x25519_pubkey : list byte;
  jm_signature : list byte;
}.

Definition JoinRequestMessage_new `{Nfc} (nickname : rstring) (introduction : option rstring)
    (ed25519_pubkey x25519_pubkey signature : list byte) : Result JoinRequestMessage ProtocolError :=
  match validate_nickname nickname Limits_default with
  | Err e => Err (PE_Validation e)
  | Ok nickname =>
      match
        match introduction with
        | Some introduction => validate_intro introduction Limits_default
        | None => Ok tt
        end
      with
      | Err e => Err (PE_Validation e)
      | Ok _ => Ok {| jm_nickname := nickname; jm_introduction := introduction;
                      jm_ed25519_pubkey := ed25519_pubkey; jm_x25519_pubkey := x25519_pubkey;
                      jm_signature := signature |}
      end
  end.

Record JoinAccepted := { ja_member_id : u64 }.
Record JoinRejected := { jr_reason : option rstring }.

Definition JoinRejected_new (reason : option rstring) : Result JoinRejected ProtocolError :=
  match reason with
  | Some reason =>
      if negb (non_empty reason) then Ok {| jr_reason := None |} else
      if (MAX_REJECT_REASON_BYTES <? str_len reason)%N then
        Err (PE_InvalidField 1 (lit "reason must be at most " ++ display_N MAX_REJECT_REASON_BYTES
               ++ lit " bytes, found " ++ display_N (str_len reason))) else
      if contains_control_char reason then
        Err (PE_InvalidField 1 (lit "reason contains control characters")) else
      Ok {| jr_reason := Some reason |}
  | None => Ok {| jr_reason := None |}
  end.

(** * Membership broadcasts *)

Record SnapshotMember := {
  sm_member_id : u64;
  sm_nickname : rstring;
  sm_color : u8;
  sm_is_host : bool;
  sm_ed25519_pubkey : list byte;
}.

Record MemberJoined := {
  mj_sequence : u64; mj_epoch : u64; mj_member_id : u64; mj_nickname : rstring;
  mj_ed25519_pubkey : list byte; mj_signature : list byte;
}.

Record MemberLeft := {
  ml_sequence : u64; ml_epoch : u64; ml_member_id : u64; ml_signature : list byte }.

Record MemberKicked := {
  mk_sequence : u64; mk_epoch : u64; mk_member_id : u64; mk_signature : list byte }.

Record JoinPolicyChanged := {
  jp_sequence : u64; jp_epoch : u64; jp_open : bool; jp_signature : list byte }.

Record MemberSnapshot := {
  ms_sequence : u64; ms_epoch : u64; ms_members : list SnapshotMember; ms_signature : list byte }.

(** The signed form of a snapshot row; the room and the session both build
    it. *)
Definition snapshot_body_member (m : SnapshotMember) : SnapshotBodyMember := {|
  sb_member_id := sm_member_id m; sb_nickname := sm_nickname m;
  sb_color_index := sm_color m; sb_is_host := sm_is_host m;
  sb_ed25519_pubkey := sm_ed25519_pubkey m |}.

(** * Epoch and chat messages *)

Record EpochWrap := { ew_epoch : u64; ew_nonce : list byte; ew_ciphertext : list byte }.

Definition EpochWrap_new (epoch : u64) (nonce ciphertext : list byte)
    : Result EpochWrap ProtocolError :=
  if negb (N.of_nat (length ciphertext) =? EPOCH_WRAP_CIPHERTEXT_LEN)%N then
    Err (PE_InvalidField 3 (lit "ciphertext must be " ++ display_N EPOCH_WRAP_CIPHERTEXT_LEN
           ++ lit " bytes, found " ++ display_N (N.of_nat (length ciphertext))))
  else Ok {| ew_epoch := epoch; ew_nonce := nonce; ew_ciphertext := ciphertext |}.

Record EpochAckMessage := { ea_epoch : u64 }.

Record EncryptedEnvelope := {
  env_epoch : u64;
  env_sender_id : u64;
  env_sender_sequence : u64;
  env_nonce : list byte;
  env_ciphertext : list byte;
  env_signature : list byte;
}.

Definition EncryptedEnvelope_new (epoch sender_id sender_sequence : u64)
    (nonce ciphertext signature : list byte) : Result EncryptedEnvelope ProtocolError :=
  let len := N.of_nat (length ciphertext) in
  if negb (in_range CHAT_MIN_CIPHERTEXT_LEN CHAT_MAX_CIPHERTEXT_LEN len) then
    Err (PE_InvalidField 5 (lit "ciphertext must be " ++ display_N CHAT_MIN_CIPHERTEXT_LEN
           ++ lit "..=" ++ display_N CHAT_MAX_CIPHERTEXT_LEN ++ lit " bytes, found " ++ display_N len))
  else Ok {| env_epoch := epoch; env_sender_id := sender_id;
             env_sender_sequence := sender_sequence; env_nonce := nonce;
             env_ciphertext := ciphertext; env_signature := signature |}.

(** * Messages *)

Inductive Message :=
| M_Keepalive
| M_Error (m : ErrorMessage)
| M_Shutdown
| M_HostHello (m : HostHello)
| M_ClientHello (m : ClientHello)
| M_TokenVerify (m : TokenVerify)
| M_PasswordChallenge (m : PasswordChallenge)
| M_ChallengeProof (m : ChallengeProof)
| M_JoinRequest (m : JoinRequestMessage)
| M_JoinAccepted (m : JoinAccepted)
| M_JoinRejected (m : JoinRejected)
| M_EpochWrap (m : EpochWrap)
| M_EpochAck (m : EpochAckMessage)
| M_MemberJoined (m : MemberJoined)
| M_MemberLeft (m : MemberLeft)
| M_MemberKicked (m : MemberKicked)
| M_JoinPolicyChanged (m : JoinPolicyChanged)
| M_MemberSnapshot (m : MemberSnapshot)
| M_ChatMessage (m : EncryptedEnvelope)
| M_ColorChange (m : EncryptedEnvelope)
| M_TimeoutRequest (m : EncryptedEnvelope)
| M_TimeoutChanged (m : EncryptedEnvelope).

Definition Message_type (self : Message) : MessageType :=
  match self with
  | M_Keepalive => MT_Keepalive
  | M_Error _ => MT_Error
  | M_Shutdown => MT_Shutdown
  | M_HostHello _ => MT_HostHello
  | M_ClientHello _ => MT_ClientHello
  | M_TokenVerify _ => MT_TokenVerify
  | M_PasswordChallenge _ => MT_PasswordChallenge
  | M_ChallengeProof _ => MT_ChallengeProof
  | M_JoinRequest _ => MT_JoinRequest
  | M_JoinAccepted _ => MT_JoinAccepted
  | M_JoinRejected _ => MT_JoinRejected
  | M_EpochWrap _ => MT_EpochWrap
  | M_EpochAck _ => MT_EpochAck
  | M_MemberJoined _ => MT_MemberJoined
  | M_MemberLeft _ => MT_MemberLeft
  | M_MemberKicked _ => MT_MemberKicked
  | M_JoinPolicyChanged _ => MT_JoinPolicyChanged
  | M_MemberSnapshot _ => MT_MemberSnapshot
  | M_ChatMessage _ => MT_ChatMessage
  | M_ColorChange _ => MT_ColorChange
  | M_TimeoutRequest _ => MT_TimeoutRequest
  | M_TimeoutChanged _ => MT_TimeoutChanged
  end.

(** * Facts *)

Lemma ErrorMessage_new_Ok code reason m :
  ErrorMessage_new code reason = Ok m →
  em_code m = code ∧
  ∀ r, em_reason m = Some r →
    reason = Some r ∧ r ≠ [] ∧ (str_len r <= MAX_ERROR_REASON_BYTES)%N ∧
    contains_control_char r = false.
Proof.
  unfold ErrorMessage_new, validate_reason. destruct reason as [[|c s]|].
  - intros [= <-]. done.
  - cbn [non_empty negb].
    destruct (N.ltb_spec MAX_ERROR_REASON_BYTES (str_len (c :: s))); [done|].
    destruct (contains_control_char (c :: s)) eqn:E; [done|].
    intros [= <-]. split; [done|]. intros r [= <-]. done.
  - intros [= <-]. done.
Qed.

Lemma EpochWrap_new_Ok epoch nonce ct :
  length ct = 48 → EpochWrap_new epoch nonce ct =
  Ok {| ew_epoch := epoch; ew_nonce := nonce; ew_ciphertext := ct |}.
Proof. intros H. unfold EpochWrap_new. by rewrite H. Qed.

Lemma EpochWrap_new_inv epoch nonce ct w :
  EpochWrap_new epoch nonce ct = Ok w →
  w = {| ew_epoch := epoch; ew_nonce := nonce; ew_ciphertext := ct |}.
Proof. unfold EpochWrap_new. destruct (negb _); [done|]. by intros [= <-]. Qed.
