(* ===== verification/Cbor.v ===== *)
(** [src/protocol/strict.rs]: the strict CBOR decoder, over an abstract CBOR
    codec.

    [reads] says what a decoder makes of an encoding, [yields] what is known
    of anything it accepts; both are compositional, so a schema's round trip
    and its type theorem follow its text. *)
From Stdlib Require Import Strings.String.
From S2P Require Export Messages.

(** The operations of minicbor the source calls. A reader takes the remaining
    input and returns the value and what is left of the input, or the text of
    its error; a writer returns the bytes it appends. A map or array header
    without a length announces an indefinite one. *)
Class Cbor := {
  cbor_u8 : list byte → Result (u8 * list byte) rstring;
  cbor_u16 : list byte → Result (u16 * list byte) rstring;
  cbor_u32 : list byte → Result (u32 * list byte) rstring;
  cbor_u64 : list byte → Result (u64 * list byte) rstring;
  cbor_bool : list byte → Result (bool * list byte) rstring;
  cbor_null : list byte → Result (unit * list byte) rstring;
  cbor_str : list byte → Result (rstring * list byte) rstring;
  cbor_bytes : list byte → Result (list byte * list byte) rstring;
  cbor_map : list byte → Result (option u64 * list byte) rstring;
  cbor_array : list byte → Result (option u64 * list byte) rstring;
  put_u8 : u8 → list byte;
  put_u32 : u32 → list byte;
  put_u64 : u64 → list byte;
  put_bool : bool → list byte;
  put_str : rstring → list byte;
  put_bytes : list byte → list byte;
  put_map : u64 → list byte;
  put_array : u64 → list byte;
}.

Definition scalars (s : rstring) : Prop := Forall (λ c, is_scalar c = true) s.

(** A reader that looks no further than the item it reads. *)
Definition prefix_read {A} (read : list byte → Result (A * list byte) rstring) : Prop :=
  ∀ bs a rest x, read bs = Ok (a, rest) → read (bs ++ x) = Ok (a, rest ++ x).

(** What is relied on of the codec: readers invert writers, whatever follows
    (an unsigned integer of any width is read at any width it fits), stay
    within the type they return, and read one item only. *)
Class CborLaws `{Cbor} : Prop := {
  read_put_u8 n rest : (n < 256)%N → cbor_u8 (put_u8 n ++ rest) = Ok (n, rest);
  read_put_u32 n rest : (n < u32_limit)%N → cbor_u32 (put_u32 n ++ rest) = Ok (n, rest);
  read_put_u64 n rest : (n < u64_limit)%N → cbor_u64 (put_u64 n ++ rest) = Ok (n, rest);
  read_put_key n rest : (n < 256)%N → cbor_u64 (put_u8 n ++ rest) = Ok (n, rest);
  read_put_bool b rest : cbor_bool (put_bool b ++ rest) = Ok (b, rest);
  read_put_str s rest : scalars s → (str_len s < u64_limit)%N →
    cbor_str (put_str s ++ rest) = Ok (s, rest);
  read_put_bytes bs rest : (N.of_nat (length bs) < u64_limit)%N →
    cbor_bytes (put_bytes bs ++ rest) = Ok (bs, rest);
  read_put_map n rest : (n < u64_limit)%N → cbor_map (put_map n ++ rest) = Ok (Some n, rest);
  read_put_array n rest : (n < u64_limit)%N → cbor_array (put_array n ++ rest) = Ok (Some n, rest);
  u8_range bs n rest : cbor_u8 bs = Ok (n, rest) → (n < 256)%N;
  u32_range bs n rest : cbor_u32 bs = Ok (n, rest) → (n < u32_limit)%N;
  u64_range bs n rest : cbor_u64 bs = Ok (n, rest) → (n < u64_limit)%N;
  str_scalars bs s rest : cbor_str bs = Ok (s, rest) → scalars s;
  u8_prefix : prefix_read cbor_u8;
  u32_prefix : prefix_read cbor_u32;
  u64_prefix : prefix_read cbor_u64;
  bool_prefix : prefix_read cbor_bool;
  str_prefix : prefix_read cbor_str;
  bytes_prefix : prefix_read cbor_bytes;
  map_prefix : prefix_read cbor_map;
  array_prefix : prefix_read cbor_array;
}.

(** * The strict decoder *)

(** [StrictDecoder]: the input not yet read, the nesting depth and the
    limits. *)
Record StrictDecoder := { sd_inner : list byte; sd_depth : usize; sd_limits : Limits }.

Definition StrictDecoder_new (input : list byte) (limits : Limits) : StrictDecoder :=
  {| sd_inner := input; sd_depth := 0; sd_limits := limits |}.

(** A decoding step; an error ends the decoding, so it carries no state. *)
Definition Dec (E A : Type) : Type := StrictDecoder → Result (A * StrictDecoder) E.

#[export] Instance Dec_ret {E} : MRet (Dec E) := λ A a d, Ok (a, d).
#[export] Instance Dec_bind {E} : MBind (Dec E) := λ A B f m d,
  match m d with Ok (a, d') => f a d' | Err e => Err e end.

Definition refuse {E A} (e : E) : Dec E A := λ _, Err e.

(** [ok_or(e)?] and [map_err(f)?]. *)
Definition required {E A} (o : option A) (e : E) : Dec E A :=
  match o with Some a => mret a | None => refuse e end.

Definition lift {E E' A} (f : E → E') (r : Result A E) : Dec E' A :=
  match r with Ok a => mret a | Err e => refuse (f e) end.

(** The [From] conversion of [?]. *)
Definition convert {E E' A} (from : E → E') (m : Dec E A) : Dec E' A := λ d,
  match m d with Ok r => Ok r | Err e => Err (from e) end.

(** A read of the underlying decoder. *)
Definition read {A} (r : list byte → Result (A * list byte) rstring) : Dec StrictError A := λ d,
  match r (sd_inner d) with
  | Ok (a, rest) => Ok (a, {| sd_inner := rest; sd_depth := sd_depth d; sd_limits := sd_limits d |})
  | Err e => Err (SE_Cbor e)
  end.

Definition the_limits {E} : Dec E Limits := λ d, Ok (sd_limits d, d).

Definition set_depth {E} (f : usize → usize) : Dec E unit := λ d,
  Ok (tt, {| sd_inner := sd_inner d; sd_depth := f (sd_depth d); sd_limits := sd_limits d |}).

Inductive ContainerKind := CK_Map | CK_Array.

Section strict.
Context `{Cbor}.

Definition strict_u8 : Dec StrictError u8 := read cbor_u8.
Definition strict_u16 : Dec StrictError u16 := read cbor_u16.
Definition strict_u32 : Dec StrictError u32 := read cbor_u32.
Definition strict_u64 : Dec StrictError u64 := read cbor_u64.
Definition strict_bool : Dec StrictError bool := read cbor_bool.
Definition strict_null : Dec StrictError unit := read cbor_null.

Definition strict_str : Dec StrictError rstring :=
  text ← read cbor_str;
  l ← the_limits;
  if (max_cbor_text_bytes l <? str_len text)%N
  then refuse (SE_TextTooLong (str_len text) (max_cbor_text_bytes l)) else
  mret text.

Definition strict_bytes : Dec StrictError (list byte) :=
  bytes ← read cbor_bytes;
  l ← the_limits;
  let len := N.of_nat (length bytes) in
  if (max_cbor_bytes_len l <? len)%N then refuse (SE_BytesTooLong len (max_cbor_bytes_len l)) else
  mret bytes.

Definition enter_container (declared : u64) (limit : usize) (kind : ContainerKind)
    : Dec StrictError unit := λ d,
  if (max_cbor_nesting_depth (sd_limits d) <=? sd_depth d)%N
  then Err (SE_NestingTooDeep (max_cbor_nesting_depth (sd_limits d))) else
  if (limit <? declared)%N then
    Err match kind with
        | CK_Map => SE_MapTooLarge declared limit
        | CK_Array => SE_ArrayTooLarge declared limit
        end else
  set_depth (λ n, n + 1)%N d.

Section containers.
Context {E A : Type} (from : StrictError → E).

(** The closures of the source write the variables they capture; here they
    take and return them. *)
Fixpoint read_map_entries (declared : nat) (seen : list u64) (entries : A → u64 → Dec E A)
    (captured : A) : Dec E A :=
  match declared with
  | O => mret captured
  | S declared =>
      key ← convert from strict_u64;
      if existsb (N.eqb key) seen then refuse (from (SE_DuplicateMapKey key)) else
      captured ← entries captured key;
      read_map_entries declared (seen ++ [key]) entries captured
  end.

Definition map_entries (entries : A → u64 → Dec E A) (captured : A) : Dec E A :=
  declared ← convert from (read cbor_map);
  declared ← required declared (from SE_IndefiniteNotAllowed);
  l ← the_limits;
  convert from (enter_container declared (max_cbor_map_entries l) CK_Map);;
  result ← read_map_entries (N.to_nat declared) [] entries captured;
  set_depth (λ n, n - 1)%N;;
  mret result.

Fixpoint read_array_entries (declared : nat) (elements : A → Dec E A) (captured : A) : Dec E A :=
  match declared with
  | O => mret captured
  | S declared =>
      captured ← elements captured;
      read_array_entries declared elements captured
  end.

Definition array_entries (elements : A → Dec E A) (captured : A) : Dec E A :=
  declared ← convert from (read cbor_array);
  declared ← required declared (from SE_IndefiniteNotAllowed);
  l ← the_limits;
  convert from (enter_container declared (max_cbor_array_entries l) CK_Array);;
  result ← read_array_entries (N.to_nat declared) elements captured;
  set_depth (λ n, n - 1)%N;;
  mret result.
End containers.

Definition strict_finish (d : StrictDecoder) : Result unit StrictError :=
  match sd_inner d with [] => Ok tt | _ => Err SE_TrailingData end.
End strict.

(** * Reasoning *)

Section reasoning.
Context `{CL : CborLaws}.

(** [reads dp m bs a]: at nesting depth [dp], [m] reads [bs] as [a], whatever
    follows, and leaves the depth as it was. *)
Definition reads {E A} (L : Limits) (dp : usize) (m : Dec E A) (bs : list byte) (a : A) : Prop :=
  ∀ rest, m {| sd_inner := bs ++ rest; sd_depth := dp; sd_limits := L |} =
    Ok (a, {| sd_inner := rest; sd_depth := dp; sd_limits := L |}).

(** [yields m P]: what [m] accepts satisfies [P]. *)
Definition yields {E A} (m : Dec E A) (P : A → Prop) : Prop :=
  ∀ d a d', m d = Ok (a, d') → P a.

(** [stable m]: [m] reads one item; input after it does not matter. *)
Definition more (x : list byte) (d : StrictDecoder) : StrictDecoder :=
  {| sd_inner := sd_inner d ++ x; sd_depth := sd_depth d; sd_limits := sd_limits d |}.

Definition stable {E A} (m : Dec E A) : Prop :=
  ∀ d a d' x, m d = Ok (a, d') → m (more x d) = Ok (a, more x d').

(** ** Round trips *)

Section reads.
Context {L : Limits} {dp : usize}.

Lemma reads_ret {E A} (a : A) : reads L dp (mret a : Dec E A) [] a.
Proof. done. Qed.

Lemma reads_bind {E A B} (m : Dec E A) (f : A → Dec E B) bs cs a b :
  reads L dp m bs a → reads L dp (f a) cs b → reads L dp (m ≫= f) (bs ++ cs) b.
Proof.
  intros Hm Hf rest. unfold mbind, Dec_bind. rewrite <-app_assoc, Hm. apply Hf.
Qed.

(** A step that reads nothing. *)
Lemma reads_bind_nil {E A B} (m : Dec E A) (f : A → Dec E B) cs a b :
  reads L dp m [] a → reads L dp (f a) cs b → reads L dp (m ≫= f) cs b.
Proof. intros Hm Hf. by apply (reads_bind m f [] cs a). Qed.

(** A last step that reads nothing. *)
Lemma reads_map {E A B} (m : Dec E A) (f : A → Dec E B) bs a b :
  reads L dp m bs a → reads L dp (f a) [] b → reads L dp (m ≫= f) bs b.
Proof. intros Hm Hf. rewrite <-(app_nil_r bs). by apply (reads_bind m f bs [] a). Qed.

Lemma reads_limits {E} : reads L dp (the_limits : Dec E _) [] L.
Proof. done. Qed.

Lemma reads_convert {E E' A} (from : E → E') (m : Dec E A) bs a :
  reads L dp m bs a → reads L dp (convert from m) bs a.
Proof. intros Hm rest. unfold convert. by rewrite Hm. Qed.

Lemma reads_read {A} (r : list byte → Result (A * list byte) rstring) bs a :
  (∀ rest, r (bs ++ rest) = Ok (a, rest)) → reads L dp (read r) bs a.
Proof. intros Hr rest. unfold read. simpl. by rewrite Hr. Qed.

Lemma reads_u8 n : (n < 256)%N → reads L dp strict_u8 (put_u8 n) n.
Proof. intros. apply reads_read. intros. by apply read_put_u8. Qed.

Lemma reads_u32 n : (n < u32_limit)%N → reads L dp strict_u32 (put_u32 n) n.
Proof. intros. apply reads_read. intros. by apply read_put_u32. Qed.

Lemma reads_u64 n : (n < u64_limit)%N → reads L dp strict_u64 (put_u64 n) n.
Proof. intros. apply reads_read. intros. by apply read_put_u64. Qed.

Lemma reads_bool b : reads L dp strict_bool (put_bool b) b.
Proof. apply reads_read. intros. by apply read_put_bool. Qed.

Lemma reads_str s :
  scalars s → (str_len s < u64_limit)%N → (str_len s <= max_cbor_text_bytes L)%N →
  reads L dp strict_str (put_str s) s.
Proof.
  intros Hs Hl Hm. eapply reads_map; [apply reads_read; intros; by apply read_put_str|].
  eapply reads_bind_nil; [apply reads_limits|]. by rewrite (proj2 (N.ltb_ge _ _)).
Qed.

Lemma reads_bytes bs :
  (N.of_nat (length bs) < u64_limit)%N → (N.of_nat (length bs) <= max_cbor_bytes_len L)%N →
  reads L dp strict_bytes (put_bytes bs) bs.
Proof.
  intros Hl Hm. eapply reads_map; [apply reads_read; intros; by apply read_put_bytes|].
  eapply reads_bind_nil; [apply reads_limits|]. cbv zeta. by rewrite (proj2 (N.ltb_ge _ _)).
Qed.
End reads.

(** ** Containers

    A map is written as its entries, each a key and the bytes the closure
    reads for it. *)
Section containers.
Context {E A : Type} {L : Limits} {dp : usize} (from : StrictError → E).
Context (entries : A → u64 → Dec E A).

Lemma reads_entries_nil seen c : reads L dp (read_map_entries from 0 seen entries c) [] c.
Proof. done. Qed.

Lemma reads_entries_cons n seen k v bs c c1 c2 :
  (k < 256)%N → existsb (N.eqb k) seen = false → reads L dp (entries c k) v c1 →
  reads L dp (read_map_entries from n (seen ++ [k]) entries c1) bs c2 →
  reads L dp (read_map_entries from (S n) seen entries c) (put_u8 k ++ v ++ bs) c2.
Proof.
  intros Hk Hseen Hv Hn. cbn [read_map_entries].
  eapply reads_bind; [apply reads_convert, reads_read; intros; by apply read_put_key|].
  rewrite Hseen. by eapply reads_bind.
Qed.

Lemma reads_entries_last seen k v c c1 :
  (k < 256)%N → existsb (N.eqb k) seen = false → reads L dp (entries c k) v c1 →
  reads L dp (read_map_entries from 1 seen entries c) (put_u8 k ++ v) c1.
Proof.
  intros. rewrite <-(app_nil_r v). eapply reads_entries_cons; [done..|]. apply reads_entries_nil.
Qed.

(** The header of a container that fits the limits. *)
Lemma reads_enter n limit kind :
  (dp < max_cbor_nesting_depth L)%N → (n <= limit)%N → ∀ rest,
  enter_container n limit kind {| sd_inner := rest; sd_depth := dp; sd_limits := L |}
    = Ok (tt, {| sd_inner := rest; sd_depth := dp + 1; sd_limits := L |}).
Proof.
  intros Hd Hn rest. unfold enter_container. simpl.
  rewrite (proj2 (N.leb_gt _ _)), (proj2 (N.ltb_ge _ _)) by done. done.
Qed.
End containers.

Lemma reads_map_entries {E A} L dp (from : StrictError → E) (entries : A → u64 → Dec E A) n bs c c' :
  (dp < max_cbor_nesting_depth L)%N → (n <= max_cbor_map_entries L)%N → (n < u64_limit)%N →
  reads L (dp + 1) (read_map_entries from (N.to_nat n) [] entries c) bs c' →
  reads L dp (map_entries from entries c) (put_map n ++ bs) c'.
Proof.
  intros Hd Hn Hl Hr rest. unfold map_entries, mbind, Dec_bind, convert, read, the_limits.
  rewrite <-app_assoc. cbn [sd_inner sd_depth sd_limits]. rewrite read_put_map by done.
  cbn [required mret Dec_ret sd_inner sd_depth sd_limits]. rewrite reads_enter by done.
  rewrite Hr. unfold set_depth. cbn -[N.add N.sub]. by rewrite N.add_sub.
Qed.

(** An array whose elements are pushed one by one. *)
Lemma reads_elements {E A} L dp (m : Dec E A) (put : A → list byte) xs acc :
  Forall (λ x, reads L dp m (put x) x) xs →
  reads L dp (read_array_entries (length xs) (λ acc, x ← m; mret (acc ++ [x])) acc)
    (flat_map put xs) (acc ++ xs).
Proof.
  intros Hxs. revert acc. induction Hxs as [|x xs Hx _ IH]; intros acc; [rewrite app_nil_r; apply reads_ret|].
  cbn [length read_array_entries flat_map]. eapply reads_bind; [eapply reads_map; [exact Hx|apply reads_ret]|].
  replace (acc ++ x :: xs) with ((acc ++ [x]) ++ xs) by (by rewrite <-app_assoc). apply IH.
Qed.

Lemma reads_array_entries {E A} L dp (from : StrictError → E) (m : Dec E A) (put : A → list byte) xs :
  let n := N.of_nat (length xs) in
  (dp < max_cbor_nesting_depth L)%N → (n <= max_cbor_array_entries L)%N → (n < u64_limit)%N →
  Forall (λ x, reads L (dp + 1) m (put x) x) xs →
  reads L dp (array_entries from (λ acc, x ← m; mret (acc ++ [x])) [])
    (put_array n ++ flat_map put xs) xs.
Proof.
  intros n Hd Hn Hl Hxs rest. unfold array_entries, mbind at 1, Dec_bind at 1, convert, read.
  rewrite <-app_assoc. cbn [sd_inner sd_depth sd_limits]. rewrite read_put_array by done.
  unfold mbind at 1, Dec_bind at 1, required, mret at 1, Dec_ret at 1.
  unfold mbind at 1, Dec_bind at 1, the_limits at 1.
  unfold mbind at 1, Dec_bind at 1, convert. cbn [sd_limits]. rewrite reads_enter by done.
  unfold mbind at 1, Dec_bind at 1. unfold n. rewrite Nat2N.id.
  rewrite (reads_elements L (dp + 1) m put xs [] Hxs).
  unfold set_depth, mbind, Dec_bind, mret, Dec_ret. cbn -[N.add N.sub]. by rewrite N.add_sub.
Qed.

(** ** Refusals *)

(** [refuses L dp m bs e]: [m] fails with [e] on an input that starts with
    [bs]. *)
Definition refuses {E A} (L : Limits) (dp : usize) (m : Dec E A) (bs : list byte) (e : E) : Prop :=
  ∀ rest, m {| sd_inner := bs ++ rest; sd_depth := dp; sd_limits := L |} = Err e.

Lemma refuses_bind {E A B} L dp (m : Dec E A) (f : A → Dec E B) bs e :
  refuses L dp m bs e → refuses L dp (m ≫= f) bs e.
Proof. intros Hm rest. unfold mbind, Dec_bind. by rewrite Hm. Qed.

Lemma refuses_entries_here {E A} L dp (from : StrictError → E) (entries : A → u64 → Dec E A) n seen k v bs c e :
  (k < 256)%N → existsb (N.eqb k) seen = false → refuses L dp (entries c k) v e →
  refuses L dp (read_map_entries from (S n) seen entries c) (put_u8 k ++ v ++ bs) e.
Proof.
  intros Hk Hseen Hv rest. cbn [read_map_entries]. unfold mbind, Dec_bind.
  rewrite <-!app_assoc.
  rewrite (reads_convert from strict_u64 (put_u8 k) k); [|apply reads_read; intros; by apply read_put_key].
  rewrite Hseen. by rewrite Hv.
Qed.

Lemma refuses_entries_cons {E A} L dp (from : StrictError → E) (entries : A → u64 → Dec E A) n seen k v bs c c1 e :
  (k < 256)%N → existsb (N.eqb k) seen = false → reads L dp (entries c k) v c1 →
  refuses L dp (read_map_entries from n (seen ++ [k]) entries c1) bs e →
  refuses L dp (read_map_entries from (S n) seen entries c) (put_u8 k ++ v ++ bs) e.
Proof.
  intros Hk Hseen Hv Hn rest. cbn [read_map_entries]. unfold mbind, Dec_bind.
  rewrite <-!app_assoc.
  rewrite (reads_convert from strict_u64 (put_u8 k) k); [|apply reads_read; intros; by apply read_put_key].
  rewrite Hseen, Hv. apply Hn.
Qed.

Lemma refuses_map_entries {E A} L dp (from : StrictError → E) (entries : A → u64 → Dec E A) n k bs c e :
  (dp < max_cbor_nesting_depth L)%N → (n <= max_cbor_map_entries L)%N → (n < u64_limit)%N →
  N.to_nat n = k → refuses L (dp + 1) (read_map_entries from k [] entries c) bs e →
  refuses L dp (map_entries from entries c) (put_map n ++ bs) e.
Proof.
  intros Hd Hn Hl <- Hr rest. unfold map_entries, mbind, Dec_bind, convert, read, the_limits.
  rewrite <-app_assoc. cbn [sd_inner sd_depth sd_limits]. rewrite read_put_map by done.
  cbn [required mret Dec_ret sd_inner sd_depth sd_limits]. rewrite reads_enter by done. by rewrite Hr.
Qed.

(** ** Types *)

Lemma yields_ret {E A} (a : A) (P : A → Prop) : P a → yields (mret a : Dec E A) P.
Proof. by intros Ha d b d' [= <- _]. Qed.

Lemma yields_refuse {E A} (e : E) (P : A → Prop) : yields (refuse e) P.
Proof. done. Qed.

Lemma yields_bind {E A B} (m : Dec E A) (f : A → Dec E B) (P : A → Prop) Q :
  yields m P → (∀ a, P a → yields (f a) Q) → yields (m ≫= f) Q.
Proof.
  intros Hm Hf d b d'. unfold mbind, Dec_bind. destruct (m d) as [[a d1]|] eqn:E'; [|done].
  apply Hf. by eapply Hm.
Qed.

Lemma yields_any {E A} (m : Dec E A) : yields m (λ _, True).
Proof. done. Qed.

Lemma yields_convert {E E' A} (from : E → E') (m : Dec E A) P : yields m P → yields (convert from m) P.
Proof.
  intros Hm d a d'. unfold convert. destruct (m d) as [[b d1]|] eqn:E'' ; [|done].
  intros [= <- <-]. by eapply Hm.
Qed.

Lemma yields_required {E A} (o : option A) (e : E) (P : A → Prop) :
  (∀ a, o = Some a → P a) → yields (required o e) P.
Proof. intros Ho d a d'. destruct o as [b|]; [|done]. intros [= <- _]. by apply Ho. Qed.

Lemma yields_lift {E E' A} (f : E → E') (r : Result A E) (P : A → Prop) :
  (∀ a, r = Ok a → P a) → yields (lift f r) P.
Proof. intros Hr d a d'. destruct r as [b|]; [|done]. intros [= <- _]. by apply Hr. Qed.

Lemma yields_read {A} (r : list byte → Result (A * list byte) rstring) (P : A → Prop) :
  (∀ bs a rest, r bs = Ok (a, rest) → P a) → yields (read r) P.
Proof.
  intros Hr d a d'. unfold read. destruct (r (sd_inner d)) as [[b rest]|] eqn:E; [|done].
  intros [= <- _]. by eapply Hr.
Qed.

Lemma yields_u8 : yields strict_u8 (λ n, n < 256)%N.
Proof. apply yields_read, u8_range. Qed.

Lemma yields_u32 : yields strict_u32 (λ n, n < u32_limit)%N.
Proof. apply yields_read, u32_range. Qed.

Lemma yields_u64 : yields strict_u64 (λ n, n < u64_limit)%N.
Proof. apply yields_read, u64_range. Qed.

Lemma yields_str : yields strict_str scalars.
Proof.
  eapply yields_bind; [apply yields_read, str_scalars|]. intros s Hs.
  eapply yields_bind; [apply yields_any|]. intros l _. destruct (_ <? _)%N; [done|].
  by apply yields_ret.
Qed.

(** An invariant of the captured variables. *)
Lemma yields_entries {E A} (from : StrictError → E) (entries : A → u64 → Dec E A) (I : A → Prop) n seen c :
  I c → (∀ c k, I c → yields (entries c k) I) → yields (read_map_entries from n seen entries c) I.
Proof.
  intros Hc He. revert seen c Hc. induction n as [|n IH]; intros seen c Hc; [by apply yields_ret|].
  cbn [read_map_entries]. eapply yields_bind; [apply yields_any|]. intros k _.
  destruct (existsb _ _); [done|]. eapply yields_bind; [by apply He|]. intros c' Hc'. by apply IH.
Qed.

Lemma yields_map_entries {E A} (from : StrictError → E) (entries : A → u64 → Dec E A) (I : A → Prop) c :
  I c → (∀ c k, I c → yields (entries c k) I) → yields (map_entries from entries c) I.
Proof.
  intros Hc He. unfold map_entries. do 4 (eapply yields_bind; [apply yields_any|]; intros ? _).
  eapply yields_bind; [by apply yields_entries|]. intros r Hr.
  eapply yields_bind; [apply yields_any|]. intros _ _. by apply yields_ret.
Qed.

Lemma yields_array_entries {E A} (from : StrictError → E) (m : Dec E A) (P : A → Prop) :
  yields m P → yields (array_entries from (λ acc, x ← m; mret (acc ++ [x])) []) (Forall P).
Proof.
  intros Hm. unfold array_entries. do 4 (eapply yields_bind; [apply yields_any|]; intros ? _).
  eapply yields_bind.
  - assert (Hn : ∀ n acc, Forall P acc →
      yields (read_array_entries n (λ acc, x ← m; mret (acc ++ [x])) acc : Dec E _) (Forall P));
      [|by apply Hn].
    induction n as [|n IH]; intros acc Hacc; [by apply yields_ret|]. cbn [read_array_entries].
    eapply yields_bind; [|apply IH]. eapply yields_bind; [exact Hm|]. intros x Hx.
    apply yields_ret, list.Forall_app. by split; [|constructor].
  - intros r Hr. eapply yields_bind; [apply yields_any|]. intros _ _. by apply yields_ret.
Qed.

(** ** One item *)

Lemma stable_ret {E A} (a : A) : stable (mret a : Dec E A).
Proof. by intros d b d' x [= <- <-]. Qed.

Lemma stable_refuse {E A} (e : E) : stable (refuse e : Dec E A).
Proof. done. Qed.

Lemma stable_bind {E A B} (m : Dec E A) (f : A → Dec E B) :
  stable m → (∀ a, stable (f a)) → stable (m ≫= f).
Proof.
  intros Hm Hf d b d' x. unfold mbind, Dec_bind. destruct (m d) as [[a d1]|] eqn:E'; [|done].
  rewrite (Hm _ _ _ x E'). apply Hf.
Qed.

Lemma stable_convert {E E' A} (from : E → E') (m : Dec E A) : stable m → stable (convert from m).
Proof.
  intros Hm d a d' x. unfold convert. destruct (m d) as [[b d1]|] eqn:E''; [|done].
  intros [= <- <-]. by rewrite (Hm _ _ _ x E'').
Qed.

Lemma stable_required {E A} (o : option A) (e : E) : stable (required o e).
Proof. destruct o; [apply stable_ret|done]. Qed.

Lemma stable_lift {E E' A} (f : E → E') (r : Result A E) : stable (lift f r).
Proof. destruct r; [apply stable_ret|done]. Qed.

Lemma stable_read {A} (r : list byte → Result (A * list byte) rstring) :
  prefix_read r → stable (read r).
Proof.
  intros Hr d a d' x. unfold read. destruct (r (sd_inner d)) as [[b rest]|] eqn:E; [|done].
  intros [= <- <-]. cbn [more sd_inner]. by rewrite (Hr _ _ _ x E).
Qed.

Lemma stable_limits {E} : stable (the_limits : Dec E _).
Proof. by intros d a d' x [= <- <-]. Qed.

Lemma stable_depth {E} f : stable (set_depth f : Dec E _).
Proof. by intros d a d' x [= <- <-]. Qed.

Lemma stable_enter n limit kind : stable (enter_container n limit kind).
Proof.
  intros d a d' x. unfold enter_container. cbn [more sd_depth sd_limits].
  destruct (_ <=? _)%N; [done|]. destruct (_ <? _)%N; [done|]. apply stable_depth.
Qed.

Lemma stable_if {E A} (b : bool) (m1 m2 : Dec E A) : stable m1 → stable m2 → stable (if b then m1 else m2).
Proof. by destruct b. Qed.
End reasoning.

Create HintDb stable.
#[export] Hint Resolve u8_prefix u32_prefix u64_prefix bool_prefix str_prefix bytes_prefix
  map_prefix array_prefix : stable.
#[export] Hint Resolve stable_ret stable_refuse stable_required stable_lift stable_limits
  stable_depth stable_enter : stable.

Ltac solve_stable :=
  repeat first
    [ solve [eauto 3 with stable]
    | apply stable_bind; [|intros ?] | apply stable_convert | apply stable_if | apply stable_read ].

Section stable.
Context `{CL : CborLaws}.

Lemma stable_u8 : stable strict_u8. Proof. apply stable_read, u8_prefix. Qed.
Lemma stable_u32 : stable strict_u32. Proof. apply stable_read, u32_prefix. Qed.
Lemma stable_u64 : stable strict_u64. Proof. apply stable_read, u64_prefix. Qed.
Lemma stable_bool : stable strict_bool. Proof. apply stable_read, bool_prefix. Qed.
Lemma stable_str : stable strict_str. Proof. unfold strict_str. solve_stable. Qed.
Lemma stable_bytes : stable strict_bytes.
Proof. unfold strict_bytes. solve_stable. Qed.

Lemma stable_map_entries {E A} (from : StrictError → E) (entries : A → u64 → Dec E A) c :
  (∀ c k, stable (entries c k)) → stable (map_entries from entries c).
Proof.
  intros He. unfold map_entries. solve_stable.
  generalize (@nil u64), c. induction (N.to_nat _) as [|n IH]; intros seen c'; [apply stable_ret|].
  cbn [read_map_entries]. solve_stable.
Qed.

Lemma stable_array_entries {E A} (from : StrictError → E) (m : A → Dec E A) c :
  (∀ c, stable (m c)) → stable (array_entries from m c).
Proof.
  intros Hm. unfold array_entries. solve_stable.
  generalize c. induction (N.to_nat _) as [|n IH]; intros c'; [apply stable_ret|].
  cbn [read_array_entries]. solve_stable.
Qed.
End stable.

#[export] Hint Resolve stable_u8 stable_u32 stable_u64 stable_bool stable_str stable_bytes : stable.
