(* ===== verification/Codec.v ===== *)
(** The payload schemas: the [strict_decode] and [encode] methods of
    [src/protocol/messages.rs], [handshake.rs], [membership.rs], [epoch.rs]
    and [chat.rs], and the message codec on top of them.

    A schema's closure is a function [*_entry] of the captured variables, a
    tuple in the order of their declaration, and the key. An encoder is the
    bytes it appends: writing into a buffer cannot fail. *)
From Stdlib Require Import Strings.String.
From S2P Require Export Cbor.

Definition NONCE_LEN : usize := 16.
Definition SALT_LEN : usize := 16.
Definition HMAC_LEN : usize := 32.
Definition ED25519_PUBKEY_LEN : usize := 32.
Definition X25519_PUBKEY_LEN : usize := 32.
Definition ED25519_SIGNATURE_LEN : usize := 64.

(** The [?] of a strict read in a schema. *)
Notation "'try!' m" := (convert PE_Cbor m) (at level 9, only parsing).

Abbreviation PDec := (Dec ProtocolError) (only parsing).

Section schemas.
Context `{Cbor} `{Nfc}.

(** [bytes.try_into().map_err(..)?]: exactly [n] bytes. *)
Definition exactly (n : usize) (error : usize → ProtocolError) (bytes : list byte) : PDec (list byte) :=
  let len := N.of_nat (length bytes) in
  if (len =? n)%N then mret bytes else refuse (error len).

Definition fixed_bytes (n : usize) (field : u64) : PDec (list byte) :=
  bytes ← try! strict_bytes;
  exactly n (λ len, PE_InvalidField field
    (lit "expected " ++ display_N n ++ lit " bytes, found " ++ display_N len)) bytes.

Definition encode_fixed (field : u64) (bytes : list byte) : list byte :=
  put_u8 (field mod 256) ++ put_bytes bytes.

Definition missing {A} (o : option A) (field : u64) : PDec A := required o (PE_MissingField field).

(** [decoder.map_entries(|decoder, key| ..)?] *)
Definition fields {A} (entries : A → u64 → PDec A) (captured : A) : PDec A :=
  map_entries PE_Cbor entries captured.

(** ** Control messages *)

Definition empty_entry (captured : unit) (key : u64) : PDec unit := refuse (PE_UnknownField key).
Definition Keepalive_strict_decode : PDec unit := fields empty_entry tt.
Definition Keepalive_encode : list byte := put_map 0.
Definition Shutdown_strict_decode : PDec unit := fields empty_entry tt.
Definition Shutdown_encode : list byte := put_map 0.

Definition ErrorMessage_entry (captured : option ErrorCode * option rstring) (key : u64)
    : PDec (option ErrorCode * option rstring) :=
  let '(code, reason) := captured in
  match key with
  | 1%N =>
      raw ← try! strict_u8;
      code ← required (ErrorCode_from_u8 raw) (PE_UnknownErrorCode raw);
      mret (Some code, reason)
  | 2%N =>
      text ← try! strict_str;
      lift id (validate_reason text);;
      mret (code, Some text)
  | other => refuse (PE_UnknownField other)
  end.

Definition ErrorMessage_strict_decode : PDec ErrorMessage :=
  '(code, reason) ← fields ErrorMessage_entry (None, None);
  code ← missing code 1;
  mret {| em_code := code; em_reason := reason |}.

Definition ErrorMessage_encode (self : ErrorMessage) : list byte :=
  put_map (if em_reason self then 2 else 1) ++ put_u8 1 ++ put_u8 (ErrorCode_as_u8 (em_code self))
  ++ match em_reason self with Some reason => put_u8 2 ++ put_str reason | None => [] end.

(** ** Handshake and admission *)

Definition ClientHello_entry (captured : option u8 * option (list byte) * option u32) (key : u64)
    : PDec (option u8 * option (list byte) * option u32) :=
  let '(version, client_nonce, features) := captured in
  match key with
  | 1%N => version ← try! strict_u8; mret (Some version, client_nonce, features)
  | 2%N => client_nonce ← fixed_bytes NONCE_LEN key; mret (version, Some client_nonce, features)
  | 3%N => features ← try! strict_u32; mret (version, client_nonce, Some features)
  | other => refuse (PE_UnknownField other)
  end.

Definition ClientHello_strict_decode : PDec ClientHello :=
  '(version, client_nonce, features) ← fields ClientHello_entry (None, None, None);
  version ← missing version 1;
  client_nonce ← missing client_nonce 2;
  features ← missing features 3;
  mret {| ch_version := version; ch_client_nonce := client_nonce; ch_features := features |}.

Definition ClientHello_encode (self : ClientHello) : list byte :=
  put_map 3 ++ put_u8 1 ++ put_u8 (ch_version self)
  ++ encode_fixed 2 (ch_client_nonce self)
  ++ put_u8 3 ++ put_u32 (ch_features self).

Definition HostHello_fields : Type :=
  option u8 * option (list byte) * option (list byte) * option (list byte) * option (list byte)
  * option (list byte).

Definition HostHello_entry (captured : HostHello_fields) (key : u64) : PDec HostHello_fields :=
  let '(version, room_session_id, host_pubkey, host_x25519_pubkey, server_nonce, signature) := captured in
  match key with
  | 1%N => version ← try! strict_u8;
      mret (Some version, room_session_id, host_pubkey, host_x25519_pubkey, server_nonce, signature)
  | 2%N => room_session_id ← fixed_bytes ROOM_SESSION_ID_LEN key;
      mret (version, Some room_session_id, host_pubkey, host_x25519_pubkey, server_nonce, signature)
  | 3%N => host_pubkey ← fixed_bytes ED25519_PUBKEY_LEN key;
      mret (version, room_session_id, Some host_pubkey, host_x25519_pubkey, server_nonce, signature)
  | 4%N => host_x25519_pubkey ← fixed_bytes X25519_PUBKEY_LEN key;
      mret (version, room_session_id, host_pubkey, Some host_x25519_pubkey, server_nonce, signature)
  | 5%N => server_nonce ← fixed_bytes NONCE_LEN key;
      mret (version, room_session_id, host_pubkey, host_x25519_pubkey, Some server_nonce, signature)
  | 6%N => signature ← fixed_bytes ED25519_SIGNATURE_LEN key;
      mret (version, room_session_id, host_pubkey, host_x25519_pubkey, server_nonce, Some signature)
  | other => refuse (PE_UnknownField other)
  end.

Definition HostHello_strict_decode : PDec HostHello :=
  '(version, room_session_id, host_pubkey, host_x25519_pubkey, server_nonce, signature) ←
    fields HostHello_entry (None, None, None, None, None, None);
  version ← missing version 1;
  room_session_id ← missing room_session_id 2;
  host_pubkey ← missing host_pubkey 3;
  host_x25519_pubkey ← missing host_x25519_pubkey 4;
  server_nonce ← missing server_nonce 5;
  signature ← missing signature 6;
  mret {| hello_version := version; hello_room_session_id := room_session_id;
          hello_host_ed25519_pubkey := host_pubkey; hello_host_x25519_pubkey := host_x25519_pubkey;
          hello_server_nonce := server_nonce; hello_host_signature := signature |}.

Definition HostHello_encode (self : HostHello) : list byte :=
  put_map 6 ++ put_u8 1 ++ put_u8 (hello_version self)
  ++ encode_fixed 2 (hello_room_session_id self)
  ++ encode_fixed 3 (hello_host_ed25519_pubkey self)
  ++ encode_fixed 4 (hello_host_x25519_pubkey self)
  ++ encode_fixed 5 (hello_server_nonce self)
  ++ encode_fixed 6 (hello_host_signature self).

Definition TokenVerify_entry (token : option (list byte)) (key : u64) : PDec (option (list byte)) :=
  match key with
  | 1%N => token ← try! strict_bytes; mret (Some token)
  | other => refuse (PE_UnknownField other)
  end.

Definition TokenVerify_strict_decode : PDec TokenVerify :=
  token ← fields TokenVerify_entry None;
  token ← missing token 1;
  lift id (TokenVerify_new token).

Definition TokenVerify_encode (self : TokenVerify) : list byte :=
  put_map 1 ++ put_u8 1 ++ put_bytes (tv_token self).

Definition PasswordChallenge_fields : Type :=
  option u32 * option u32 * option u8 * option (list byte) * option (list byte).

Definition PasswordChallenge_entry (captured : PasswordChallenge_fields) (key : u64)
    : PDec PasswordChallenge_fields :=
  let '(m_cost, t_cost, p_cost, salt, challenge_nonce) := captured in
  match key with
  | 1%N => m_cost ← try! strict_u32; mret (Some m_cost, t_cost, p_cost, salt, challenge_nonce)
  | 2%N => t_cost ← try! strict_u32; mret (m_cost, Some t_cost, p_cost, salt, challenge_nonce)
  | 3%N => p_cost ← try! strict_u8; mret (m_cost, t_cost, Some p_cost, salt, challenge_nonce)
  | 4%N => salt ← fixed_bytes SALT_LEN key; mret (m_cost, t_cost, p_cost, Some salt, challenge_nonce)
  | 5%N => challenge_nonce ← fixed_bytes NONCE_LEN key;
      mret (m_cost, t_cost, p_cost, salt, Some challenge_nonce)
  | other => refuse (PE_UnknownField other)
  end.

Definition PasswordChallenge_strict_decode : PDec PasswordChallenge :=
  '(m_cost, t_cost, p_cost, salt, challenge_nonce) ←
    fields PasswordChallenge_entry (None, None, None, None, None);
  m_cost ← missing m_cost 1;
  t_cost ← missing t_cost 2;
  p_cost ← missing p_cost 3;
  salt ← missing salt 4;
  challenge_nonce ← missing challenge_nonce 5;
  mret {| pc_m_cost := m_cost; pc_t_cost := t_cost; pc_p_cost := p_cost; pc_salt := salt;
          pc_challenge_nonce := challenge_nonce |}.

Definition PasswordChallenge_encode (self : PasswordChallenge) : list byte :=
  put_map 5 ++ put_u8 1 ++ put_u32 (pc_m_cost self)
  ++ put_u8 2 ++ put_u32 (pc_t_cost self)
  ++ put_u8 3 ++ put_u8 (pc_p_cost self)
  ++ encode_fixed 4 (pc_salt self)
  ++ encode_fixed 5 (pc_challenge_nonce self).

Definition ChallengeProof_entry (proof : option (list byte)) (key : u64) : PDec (option (list byte)) :=
  match key with
  | 1%N => proof ← fixed_bytes HMAC_LEN key; mret (Some proof)
  | other => refuse (PE_UnknownField other)
  end.

Definition ChallengeProof_strict_decode : PDec ChallengeProof :=
  proof ← fields ChallengeProof_entry None;
  proof ← missing proof 1;
  mret {| cp_proof := proof |}.

Definition ChallengeProof_encode (self : ChallengeProof) : list byte :=
  put_map 1 ++ encode_fixed 1 (cp_proof self).

Definition JoinRequest_fields : Type :=
  option rstring * option rstring * option (list byte) * option (list byte) * option (list byte).

Definition JoinRequest_entry (captured : JoinRequest_fields) (key : u64) : PDec JoinRequest_fields :=
  let '(nickname, introduction, ed25519_pubkey, x25519_pubkey, signature) := captured in
  match key with
  | 1%N => nickname ← try! strict_str;
      mret (Some nickname, introduction, ed25519_pubkey, x25519_pubkey, signature)
  | 2%N => introduction ← try! strict_str;
      mret (nickname, Some introduction, ed25519_pubkey, x25519_pubkey, signature)
  | 3%N => ed25519_pubkey ← fixed_bytes ED25519_PUBKEY_LEN key;
      mret (nickname, introduction, Some ed25519_pubkey, x25519_pubkey, signature)
  | 4%N => x25519_pubkey ← fixed_bytes X25519_PUBKEY_LEN key;
      mret (nickname, introduction, ed25519_pubkey, Some x25519_pubkey, signature)
  | 5%N => signature ← fixed_bytes ED25519_SIGNATURE_LEN key;
      mret (nickname, introduction, ed25519_pubkey, x25519_pubkey, Some signature)
  | other => refuse (PE_UnknownField other)
  end.

Definition JoinRequest_strict_decode : PDec JoinRequestMessage :=
  '(nickname, introduction, ed25519_pubkey, x25519_pubkey, signature) ←
    fields JoinRequest_entry (None, None, None, None, None);
  nickname ← missing nickname 1;
  ed25519_pubkey ← missing ed25519_pubkey 3;
  x25519_pubkey ← missing x25519_pubkey 4;
  signature ← missing signature 5;
  lift id (JoinRequestMessage_new nickname introduction ed25519_pubkey x25519_pubkey signature).

Definition JoinRequest_encode (self : JoinRequestMessage) : list byte :=
  put_map (if jm_introduction self then 5 else 4) ++ put_u8 1 ++ put_str (jm_nickname self)
  ++ match jm_introduction self with
     | Some introduction => put_u8 2 ++ put_str introduction | None => [] end
  ++ encode_fixed 3 (jm_ed25519_pubkey self)
  ++ encode_fixed 4 (jm_x25519_pubkey self)
  ++ encode_fixed 5 (jm_signature self).

Definition JoinAccepted_entry (member_id : option u64) (key : u64) : PDec (option u64) :=
  match key with
  | 1%N => member_id ← try! strict_u64; mret (Some member_id)
  | other => refuse (PE_UnknownField other)
  end.

Definition JoinAccepted_strict_decode : PDec JoinAccepted :=
  member_id ← fields JoinAccepted_entry None;
  member_id ← missing member_id 1;
  mret {| ja_member_id := member_id |}.

Definition JoinAccepted_encode (self : JoinAccepted) : list byte :=
  put_map 1 ++ put_u8 1 ++ put_u64 (ja_member_id self).

Definition JoinRejected_entry (reason : option rstring) (key : u64) : PDec (option rstring) :=
  match key with
  | 1%N => reason ← try! strict_str; mret (Some reason)
  | other => refuse (PE_UnknownField other)
  end.

Definition JoinRejected_strict_decode : PDec JoinRejected :=
  reason ← fields JoinRejected_entry None;
  lift id (JoinRejected_new reason).

Definition JoinRejected_encode (self : JoinRejected) : list byte :=
  match jr_reason self with
  | Some reason => put_map 1 ++ put_u8 1 ++ put_str reason
  | None => put_map 0
  end.

(** ** Membership broadcasts *)

Definition pubkey_error : ProtocolError :=
  PE_InvalidField 5 (lit "ed25519 pubkey must be " ++ display_N ED25519_PUBKEY_LEN ++ lit " bytes").

Definition SnapshotMember_fields : Type :=
  option u64 * option rstring * option u8 * option bool * option (list byte).

Definition SnapshotMember_entry (captured : SnapshotMember_fields) (key : u64)
    : PDec SnapshotMember_fields :=
  let '(member_id, nickname, color, is_host, pubkey) := captured in
  match key with
  | 1%N => member_id ← try! strict_u64; mret (Some member_id, nickname, color, is_host, pubkey)
  | 2%N => nickname ← try! strict_str; mret (member_id, Some nickname, color, is_host, pubkey)
  | 3%N => color ← try! strict_u8; mret (member_id, nickname, Some color, is_host, pubkey)
  | 4%N => is_host ← try! strict_bool; mret (member_id, nickname, color, Some is_host, pubkey)
  | 5%N =>
      bytes ← try! strict_bytes;
      pubkey ← exactly ED25519_PUBKEY_LEN (λ _, pubkey_error) bytes;
      mret (member_id, nickname, color, is_host, Some pubkey)
  | other => refuse (PE_UnknownField other)
  end.

Definition SnapshotMember_strict_decode : PDec SnapshotMember :=
  '(member_id, nickname, color, is_host, pubkey) ←
    fields SnapshotMember_entry (None, None, None, None, None);
  member_id ← missing member_id 1;
  nickname ← missing nickname 2;
  color ← missing color 3;
  is_host ← missing is_host 4;
  pubkey ← missing pubkey 5;
  mret {| sm_member_id := member_id; sm_nickname := nickname; sm_color := color;
          sm_is_host := is_host; sm_ed25519_pubkey := pubkey |}.

Definition SnapshotMember_encode (self : SnapshotMember) : list byte :=
  put_map 5 ++ put_u8 1 ++ put_u64 (sm_member_id self)
  ++ put_u8 2 ++ put_str (sm_nickname self)
  ++ put_u8 3 ++ put_u8 (sm_color self)
  ++ put_u8 4 ++ put_bool (sm_is_host self)
  ++ put_u8 5 ++ put_bytes (sm_ed25519_pubkey self).

Definition read_signature (field : u64) : PDec (list byte) :=
  bytes ← try! strict_bytes;
  exactly 64 (λ _, PE_InvalidField field (lit "signature must be 64 bytes")) bytes.

Definition MemberJoined_fields : Type :=
  option u64 * option u64 * option u64 * option rstring * option (list byte) * option (list byte).

Definition MemberJoined_entry (captured : MemberJoined_fields) (key : u64) : PDec MemberJoined_fields :=
  let '(sequence, epoch, member_id, nickname, pubkey, signature) := captured in
  match key with
  | 1%N => sequence ← try! strict_u64;
      mret (Some sequence, epoch, member_id, nickname, pubkey, signature)
  | 2%N => epoch ← try! strict_u64;
      mret (sequence, Some epoch, member_id, nickname, pubkey, signature)
  | 3%N => member_id ← try! strict_u64;
      mret (sequence, epoch, Some member_id, nickname, pubkey, signature)
  | 4%N => nickname ← try! strict_str;
      mret (sequence, epoch, member_id, Some nickname, pubkey, signature)
  | 5%N =>
      bytes ← try! strict_bytes;
      pubkey ← exactly ED25519_PUBKEY_LEN (λ _, pubkey_error) bytes;
      mret (sequence, epoch, member_id, nickname, Some pubkey, signature)
  | 6%N => signature ← read_signature key;
      mret (sequence, epoch, member_id, nickname, pubkey, Some signature)
  | other => refuse (PE_UnknownField other)
  end.

Definition MemberJoined_strict_decode : PDec MemberJoined :=
  '(sequence, epoch, member_id, nickname, pubkey, signature) ←
    fields MemberJoined_entry (None, None, None, None, None, None);
  sequence ← missing sequence 1;
  epoch ← missing epoch 2;
  member_id ← missing member_id 3;
  nickname ← missing nickname 4;
  pubkey ← missing pubkey 5;
  signature ← missing signature 6;
  mret {| mj_sequence := sequence; mj_epoch := epoch; mj_member_id := member_id;
          mj_nickname := nickname; mj_ed25519_pubkey := pubkey; mj_signature := signature |}.

Definition MemberJoined_encode (self : MemberJoined) : list byte :=
  put_map 6 ++ put_u8 1 ++ put_u64 (mj_sequence self)
  ++ put_u8 2 ++ put_u64 (mj_epoch self)
  ++ put_u8 3 ++ put_u64 (mj_member_id self)
  ++ put_u8 4 ++ put_str (mj_nickname self)
  ++ put_u8 5 ++ put_bytes (mj_ed25519_pubkey self)
  ++ put_u8 6 ++ put_bytes (mj_signature self).

Definition gone_fields : Type := option u64 * option u64 * option u64 * option (list byte).

Definition gone_entry (captured : gone_fields) (key : u64) : PDec gone_fields :=
  let '(sequence, epoch, member_id, signature) := captured in
  match key with
  | 1%N => sequence ← try! strict_u64; mret (Some sequence, epoch, member_id, signature)
  | 2%N => epoch ← try! strict_u64; mret (sequence, Some epoch, member_id, signature)
  | 3%N => member_id ← try! strict_u64; mret (sequence, epoch, Some member_id, signature)
  | 4%N => signature ← read_signature key; mret (sequence, epoch, member_id, Some signature)
  | other => refuse (PE_UnknownField other)
  end.

Definition decode_gone : PDec (u64 * u64 * u64 * list byte) :=
  '(sequence, epoch, member_id, signature) ← fields gone_entry (None, None, None, None);
  sequence ← missing sequence 1;
  epoch ← missing epoch 2;
  member_id ← missing member_id 3;
  signature ← missing signature 4;
  mret (sequence, epoch, member_id, signature).

Definition encode_gone (sequence epoch member_id : u64) (signature : list byte) : list byte :=
  put_map 4 ++ put_u8 1 ++ put_u64 sequence
  ++ put_u8 2 ++ put_u64 epoch
  ++ put_u8 3 ++ put_u64 member_id
  ++ put_u8 4 ++ put_bytes signature.

Definition MemberLeft_strict_decode : PDec MemberLeft :=
  '(sequence, epoch, member_id, signature) ← decode_gone;
  mret {| ml_sequence := sequence; ml_epoch := epoch; ml_member_id := member_id;
          ml_signature := signature |}.

Definition MemberLeft_encode (self : MemberLeft) : list byte :=
  encode_gone (ml_sequence self) (ml_epoch self) (ml_member_id self) (ml_signature self).

Definition MemberKicked_strict_decode : PDec MemberKicked :=
  '(sequence, epoch, member_id, signature) ← decode_gone;
  mret {| mk_sequence := sequence; mk_epoch := epoch; mk_member_id := member_id;
          mk_signature := signature |}.

Definition MemberKicked_encode (self : MemberKicked) : list byte :=
  encode_gone (mk_sequence self) (mk_epoch self) (mk_member_id self) (mk_signature self).

Definition JoinPolicyChanged_fields : Type :=
  option u64 * option u64 * option bool * option (list byte).

Definition JoinPolicyChanged_entry (captured : JoinPolicyChanged_fields) (key : u64)
    : PDec JoinPolicyChanged_fields :=
  let '(sequence, epoch, open, signature) := captured in
  match key with
  | 1%N => sequence ← try! strict_u64; mret (Some sequence, epoch, open, signature)
  | 2%N => epoch ← try! strict_u64; mret (sequence, Some epoch, open, signature)
  | 3%N => open ← try! strict_bool; mret (sequence, epoch, Some open, signature)
  | 4%N => signature ← read_signature key; mret (sequence, epoch, open, Some signature)
  | other => refuse (PE_UnknownField other)
  end.

Definition JoinPolicyChanged_strict_decode : PDec JoinPolicyChanged :=
  '(sequence, epoch, open, signature) ← fields JoinPolicyChanged_entry (None, None, None, None);
  sequence ← missing sequence 1;
  epoch ← missing epoch 2;
  open ← missing open 3;
  signature ← missing signature 4;
  mret {| jp_sequence := sequence; jp_epoch := epoch; jp_open := open; jp_signature := signature |}.

Definition JoinPolicyChanged_encode (self : JoinPolicyChanged) : list byte :=
  put_map 4 ++ put_u8 1 ++ put_u64 (jp_sequence self)
  ++ put_u8 2 ++ put_u64 (jp_epoch self)
  ++ put_u8 3 ++ put_bool (jp_open self)
  ++ put_u8 4 ++ put_bytes (jp_signature self).

Definition MemberSnapshot_fields : Type :=
  option u64 * option u64 * option (list SnapshotMember) * option (list byte).

Definition MemberSnapshot_entry (captured : MemberSnapshot_fields) (key : u64)
    : PDec MemberSnapshot_fields :=
  let '(sequence, epoch, members, signature) := captured in
  match key with
  | 1%N => sequence ← try! strict_u64; mret (Some sequence, epoch, members, signature)
  | 2%N => epoch ← try! strict_u64; mret (sequence, Some epoch, members, signature)
  | 3%N =>
      decoded ← array_entries PE_Cbor
        (λ decoded, member ← SnapshotMember_strict_decode; mret (decoded ++ [member])) [];
      mret (sequence, epoch, Some decoded, signature)
  | 4%N => signature ← read_signature key; mret (sequence, epoch, members, Some signature)
  | other => refuse (PE_UnknownField other)
  end.

Definition MemberSnapshot_strict_decode : PDec MemberSnapshot :=
  '(sequence, epoch, members, signature) ← fields MemberSnapshot_entry (None, None, None, None);
  sequence ← missing sequence 1;
  epoch ← missing epoch 2;
  members ← missing members 3;
  signature ← missing signature 4;
  mret {| ms_sequence := sequence; ms_epoch := epoch; ms_members := members;
          ms_signature := signature |}.

Definition MemberSnapshot_encode (self : MemberSnapshot) : list byte :=
  put_map 4 ++ put_u8 1 ++ put_u64 (ms_sequence self)
  ++ put_u8 2 ++ put_u64 (ms_epoch self)
  ++ put_u8 3 ++ (put_array (N.of_nat (length (ms_members self)))
                  ++ flat_map SnapshotMember_encode (ms_members self))
  ++ put_u8 4 ++ put_bytes (ms_signature self).

(** ** Epochs and chat *)

Definition nonce_error (field : u64) (len : usize) : ProtocolError :=
  PE_InvalidField field (lit "nonce must be " ++ display_N XCHACHA_NONCE_LEN
    ++ lit " bytes, found " ++ display_N len).

Definition EpochWrap_entry (captured : option u64 * option (list byte) * option (list byte)) (key : u64)
    : PDec (option u64 * option (list byte) * option (list byte)) :=
  let '(epoch, nonce, ciphertext) := captured in
  match key with
  | 1%N => epoch ← try! strict_u64; mret (Some epoch, nonce, ciphertext)
  | 2%N =>
      bytes ← try! strict_bytes;
      nonce ← exactly XCHACHA_NONCE_LEN (nonce_error 2) bytes;
      mret (epoch, Some nonce, ciphertext)
  | 3%N => ciphertext ← try! strict_bytes; mret (epoch, nonce, Some ciphertext)
  | other => refuse (PE_UnknownField other)
  end.

Definition EpochWrap_strict_decode : PDec EpochWrap :=
  '(epoch, nonce, ciphertext) ← fields EpochWrap_entry (None, None, None);
  epoch ← missing epoch 1;
  nonce ← missing nonce 2;
  ciphertext ← missing ciphertext 3;
  lift id (EpochWrap_new epoch nonce ciphertext).

Definition EpochWrap_encode (self : EpochWrap) : list byte :=
  put_map 3 ++ put_u8 1 ++ put_u64 (ew_epoch self)
  ++ put_u8 2 ++ put_bytes (ew_nonce self)
  ++ put_u8 3 ++ put_bytes (ew_ciphertext self).

Definition EpochAck_entry (epoch : option u64) (key : u64) : PDec (option u64) :=
  match key with
  | 1%N => epoch ← try! strict_u64; mret (Some epoch)
  | other => refuse (PE_UnknownField other)
  end.

Definition EpochAck_strict_decode : PDec EpochAckMessage :=
  epoch ← fields EpochAck_entry None;
  epoch ← missing epoch 1;
  mret {| ea_epoch := epoch |}.

Definition EpochAck_encode (self : EpochAckMessage) : list byte :=
  put_map 1 ++ put_u8 1 ++ put_u64 (ea_epoch self).

Definition EncryptedEnvelope_fields : Type :=
  option u64 * option u64 * option u64 * option (list byte) * option (list byte) * option (list byte).

Definition EncryptedEnvelope_entry (captured : EncryptedEnvelope_fields) (key : u64)
    : PDec EncryptedEnvelope_fields :=
  let '(epoch, sender_id, sender_sequence, nonce, ciphertext, signature) := captured in
  match key with
  | 1%N => epoch ← try! strict_u64;
      mret (Some epoch, sender_id, sender_sequence, nonce, ciphertext, signature)
  | 2%N => sender_id ← try! strict_u64;
      mret (epoch, Some sender_id, sender_sequence, nonce, ciphertext, signature)
  | 3%N => sender_sequence ← try! strict_u64;
      mret (epoch, sender_id, Some sender_sequence, nonce, ciphertext, signature)
  | 4%N =>
      bytes ← try! strict_bytes;
      nonce ← exactly XCHACHA_NONCE_LEN (nonce_error 4) bytes;
      mret (epoch, sender_id, sender_sequence, Some nonce, ciphertext, signature)
  | 5%N => ciphertext ← try! strict_bytes;
      mret (epoch, sender_id, sender_sequence, nonce, Some ciphertext, signature)
  | 6%N =>
      bytes ← try! strict_bytes;
      signature ← exactly ED25519_SIGNATURE_LEN (λ _, PE_InvalidField 6
        (lit "signature must be " ++ display_N ED25519_SIGNATURE_LEN ++ lit " bytes")) bytes;
      mret (epoch, sender_id, sender_sequence, nonce, ciphertext, Some signature)
  | other => refuse (PE_UnknownField other)
  end.

Definition EncryptedEnvelope_strict_decode : PDec EncryptedEnvelope :=
  '(epoch, sender_id, sender_sequence, nonce, ciphertext, signature) ←
    fields EncryptedEnvelope_entry (None, None, None, None, None, None);
  epoch ← missing epoch 1;
  sender_id ← missing sender_id 2;
  sender_sequence ← missing sender_sequence 3;
  nonce ← missing nonce 4;
  ciphertext ← missing ciphertext 5;
  signature ← missing signature 6;
  lift id (EncryptedEnvelope_new epoch sender_id sender_sequence nonce ciphertext signature).

Definition EncryptedEnvelope_encode (self : EncryptedEnvelope) : list byte :=
  put_map 6 ++ put_u8 1 ++ put_u64 (env_epoch self)
  ++ put_u8 2 ++ put_u64 (env_sender_id self)
  ++ put_u8 3 ++ put_u64 (env_sender_sequence self)
  ++ put_u8 4 ++ put_bytes (env_nonce self)
  ++ put_u8 5 ++ put_bytes (env_ciphertext self)
  ++ put_u8 6 ++ put_bytes (env_signature self).

(** ** Messages *)

Definition decode_message_body {A} (frame : Frame) (schema : PDec A) (limits : Limits)
    : Result A ProtocolError :=
  match schema (StrictDecoder_new (payload frame) limits) with
  | Err e => Err e
  | Ok (value, decoder) =>
      match strict_finish decoder with Err e => Err (PE_Cbor e) | Ok _ => Ok value end
  end.

(** The schema of a message type, and the [Ok(Self::..)] around it. *)
Definition schema_of (t : MessageType) : PDec Message :=
  match t with
  | MT_Keepalive => Keepalive_strict_decode;; mret M_Keepalive
  | MT_Error => m ← ErrorMessage_strict_decode; mret (M_Error m)
  | MT_Shutdown => Shutdown_strict_decode;; mret M_Shutdown
  | MT_HostHello => m ← HostHello_strict_decode; mret (M_HostHello m)
  | MT_ClientHello => m ← ClientHello_strict_decode; mret (M_ClientHello m)
  | MT_TokenVerify => m ← TokenVerify_strict_decode; mret (M_TokenVerify m)
  | MT_PasswordChallenge => m ← PasswordChallenge_strict_decode; mret (M_PasswordChallenge m)
  | MT_ChallengeProof => m ← ChallengeProof_strict_decode; mret (M_ChallengeProof m)
  | MT_JoinRequest => m ← JoinRequest_strict_decode; mret (M_JoinRequest m)
  | MT_JoinAccepted => m ← JoinAccepted_strict_decode; mret (M_JoinAccepted m)
  | MT_JoinRejected => m ← JoinRejected_strict_decode; mret (M_JoinRejected m)
  | MT_EpochWrap => m ← EpochWrap_strict_decode; mret (M_EpochWrap m)
  | MT_EpochAck => m ← EpochAck_strict_decode; mret (M_EpochAck m)
  | MT_MemberJoined => m ← MemberJoined_strict_decode; mret (M_MemberJoined m)
  | MT_MemberLeft => m ← MemberLeft_strict_decode; mret (M_MemberLeft m)
  | MT_MemberKicked => m ← MemberKicked_strict_decode; mret (M_MemberKicked m)
  | MT_JoinPolicyChanged => m ← JoinPolicyChanged_strict_decode; mret (M_JoinPolicyChanged m)
  | MT_MemberSnapshot => m ← MemberSnapshot_strict_decode; mret (M_MemberSnapshot m)
  | MT_ChatMessage => m ← EncryptedEnvelope_strict_decode; mret (M_ChatMessage m)
  | MT_ColorChange => m ← EncryptedEnvelope_strict_decode; mret (M_ColorChange m)
  | MT_TimeoutRequest => m ← EncryptedEnvelope_strict_decode; mret (M_TimeoutRequest m)
  | MT_TimeoutChanged => m ← EncryptedEnvelope_strict_decode; mret (M_TimeoutChanged m)
  end.

Definition Message_decode (frame : Frame) (limits : Limits) : Result Message ProtocolError :=
  decode_message_body frame (schema_of (frame_type frame)) limits.

Definition encode_body (self : Message) : list byte :=
  match self with
  | M_Keepalive => Keepalive_encode
  | M_Error m => ErrorMessage_encode m
  | M_Shutdown => Shutdown_encode
  | M_HostHello m => HostHello_encode m
  | M_ClientHello m => ClientHello_encode m
  | M_TokenVerify m => TokenVerify_encode m
  | M_PasswordChallenge m => PasswordChallenge_encode m
  | M_ChallengeProof m => ChallengeProof_encode m
  | M_JoinRequest m => JoinRequest_encode m
  | M_JoinAccepted m => JoinAccepted_encode m
  | M_JoinRejected m => JoinRejected_encode m
  | M_EpochWrap m => EpochWrap_encode m
  | M_EpochAck m => EpochAck_encode m
  | M_MemberJoined m => MemberJoined_encode m
  | M_MemberLeft m => MemberLeft_encode m
  | M_MemberKicked m => MemberKicked_encode m
  | M_JoinPolicyChanged m => JoinPolicyChanged_encode m
  | M_MemberSnapshot m => MemberSnapshot_encode m
  | M_ChatMessage m => EncryptedEnvelope_encode m
  | M_ColorChange m => EncryptedEnvelope_encode m
  | M_TimeoutRequest m => EncryptedEnvelope_encode m
  | M_TimeoutChanged m => EncryptedEnvelope_encode m
  end.

Definition Message_encode (self : Message) (limits : Limits) : Result (list byte) ProtocolError :=
  match encode_frame (Message_type self) (encode_body self) limits with
  | Err e => Err (PE_Frame e)
  | Ok bytes => Ok bytes
  end.
End schemas.
