(* ===== verification/CodecProps.v ===== *)
(** The wire format: what a message encodes to is decoded to the message,
    whatever is decoded is well formed, and an encoding is self-delimiting. *)
From Stdlib Require Import Strings.String.
From S2P Require Export Codec.

Definition sized (n : usize) (bs : list byte) : Prop := N.of_nat (length bs) = n.
Definition u64_ok (n : N) : Prop := (n < u64_limit)%N.

Section props.
Context `{CL : CborLaws} `{NF : !Nfc}.

(** * Well-formed messages *)

Definition reason_ok (r : rstring) : Prop :=
  scalars r ∧ (str_len r <= 256)%N ∧ contains_control_char r = false.

Definition snapshot_member_ok (m : SnapshotMember) : Prop :=
  u64_ok (sm_member_id m) ∧ scalars (sm_nickname m) ∧ (sm_color m < 256)%N ∧
  sized 32 (sm_ed25519_pubkey m).

Definition envelope_ok (e : EncryptedEnvelope) : Prop :=
  u64_ok (env_epoch e) ∧ u64_ok (env_sender_id e) ∧ u64_ok (env_sender_sequence e) ∧
  sized 24 (env_nonce e) ∧ in_range 17 4112 (N.of_nat (length (env_ciphertext e))) = true ∧
  sized 64 (env_signature e).

(** The invariants of the payload types: integers of their width, fields of
    their sizes, texts that passed their validation. *)
Definition message_ok (m : Message) : Prop :=
  match m with
  | M_Keepalive | M_Shutdown => True
  | M_Error e => ∀ r, em_reason e = Some r → reason_ok r
  | M_HostHello h => (hello_version h < 256)%N ∧ sized 32 (hello_room_session_id h) ∧
      sized 32 (hello_host_ed25519_pubkey h) ∧ sized 32 (hello_host_x25519_pubkey h) ∧
      sized 16 (hello_server_nonce h) ∧ sized 64 (hello_host_signature h)
  | M_ClientHello h => (ch_version h < 256)%N ∧ sized 16 (ch_client_nonce h) ∧
      (ch_features h < u32_limit)%N
  | M_TokenVerify t => in_range 16 32 (N.of_nat (length (tv_token t))) = true
  | M_PasswordChallenge c => (pc_m_cost c < u32_limit)%N ∧ (pc_t_cost c < u32_limit)%N ∧
      (pc_p_cost c < 256)%N ∧ sized 16 (pc_salt c) ∧ sized 16 (pc_challenge_nonce c)
  | M_ChallengeProof p => sized 32 (cp_proof p)
  | M_JoinRequest j =>
      (∃ raw, scalars raw ∧ validate_nickname raw Limits_default = Ok (jm_nickname j)) ∧
      (∀ i, jm_introduction j = Some i → scalars i ∧ validate_intro i Limits_default = Ok tt) ∧
      sized 32 (jm_ed25519_pubkey j) ∧ sized 32 (jm_x25519_pubkey j) ∧ sized 64 (jm_signature j)
  | M_JoinAccepted a => u64_ok (ja_member_id a)
  | M_JoinRejected j => ∀ r, jr_reason j = Some r → r ≠ [] ∧ reason_ok r
  | M_EpochWrap w => u64_ok (ew_epoch w) ∧ sized 24 (ew_nonce w) ∧ sized 48 (ew_ciphertext w)
  | M_EpochAck a => u64_ok (ea_epoch a)
  | M_MemberJoined e => u64_ok (mj_sequence e) ∧ u64_ok (mj_epoch e) ∧ u64_ok (mj_member_id e) ∧
      scalars (mj_nickname e) ∧ sized 32 (mj_ed25519_pubkey e) ∧ sized 64 (mj_signature e)
  | M_MemberLeft e => u64_ok (ml_sequence e) ∧ u64_ok (ml_epoch e) ∧ u64_ok (ml_member_id e) ∧
      sized 64 (ml_signature e)
  | M_MemberKicked e => u64_ok (mk_sequence e) ∧ u64_ok (mk_epoch e) ∧ u64_ok (mk_member_id e) ∧
      sized 64 (mk_signature e)
  | M_JoinPolicyChanged e => u64_ok (jp_sequence e) ∧ u64_ok (jp_epoch e) ∧ sized 64 (jp_signature e)
  | M_MemberSnapshot e => u64_ok (ms_sequence e) ∧ u64_ok (ms_epoch e) ∧
      Forall snapshot_member_ok (ms_members e) ∧ sized 64 (ms_signature e)
  | M_ChatMessage e | M_ColorChange e | M_TimeoutRequest e | M_TimeoutChanged e => envelope_ok e
  end.

(** What a receiver with the default limits takes besides: texts, byte
    strings and arrays within the CBOR limits, and a nickname in its normal
    form. *)
Definition within_limits (m : Message) : Prop :=
  match m with
  | M_JoinRequest j => scalars (jm_nickname j) ∧
      validate_nickname (jm_nickname j) Limits_default = Ok (jm_nickname j)
  | M_MemberJoined e => (str_len (mj_nickname e) <= 4096)%N
  | M_MemberSnapshot e => (N.of_nat (length (ms_members e)) <= 256)%N ∧
      Forall (λ k, str_len (sm_nickname k) <= 4096)%N (ms_members e)
  | M_ChatMessage e | M_ColorChange e | M_TimeoutRequest e | M_TimeoutChanged e =>
      (N.of_nat (length (env_ciphertext e)) <= 4096)%N
  | _ => True
  end.

(** * Round trip *)

Section reads.
Context {dp : usize}.
Abbreviation R := (reads Limits_default dp).

Lemma reads_lift {A} (r : Result A ProtocolError) a : r = Ok a → R (lift id r) [] a.
Proof. by intros ->. Qed.

Lemma reads_exactly n err bs : sized n bs → R (exactly n err bs) [] bs.
Proof. intros Hs rest. unfold exactly. by rewrite Hs, N.eqb_refl. Qed.

Lemma reads_byte_string bs :
  (N.of_nat (length bs) <= 4096)%N → R (convert PE_Cbor strict_bytes) (put_bytes bs) bs.
Proof. intros Hn. apply reads_convert, reads_bytes; [|done]. unfold u64_limit. lia. Qed.

Lemma reads_sized_bytes n bs :
  sized n bs → (n <= 4096)%N → R (convert PE_Cbor strict_bytes) (put_bytes bs) bs.
Proof. intros Hs Hn. apply reads_byte_string. by rewrite Hs. Qed.

Lemma reads_fixed n field bs :
  sized n bs → (n <= 4096)%N → R (fixed_bytes n field) (put_bytes bs) bs.
Proof.
  intros Hs Hn. unfold fixed_bytes. eapply reads_map; [by eapply reads_sized_bytes|].
  by apply reads_exactly.
Qed.

Lemma reads_signature field bs : sized 64 bs → R (read_signature field) (put_bytes bs) bs.
Proof.
  intros Hs. unfold read_signature. eapply reads_map; [by eapply reads_sized_bytes|].
  by apply reads_exactly.
Qed.

Lemma reads_text s : scalars s → (str_len s <= 4096)%N → R (convert PE_Cbor strict_str) (put_str s) s.
Proof.
  intros Hs Hl. apply reads_convert, reads_str; [done| |done]. unfold u64_limit. lia.
Qed.

Lemma reads_fields {A} (entries : A → u64 → Dec ProtocolError A) n k bs c c' :
  (dp <= 2)%N → (n <= 64)%N → N.to_nat n = k →
  reads Limits_default (dp + 1) (read_map_entries PE_Cbor k [] entries c) bs c' →
  R (fields entries c) (put_map n ++ bs) c'.
Proof.
  intros Hdp Hn <-. apply reads_map_entries; [simpl; lia|done|unfold u64_limit; lia].
Qed.
End reads.

Lemma encode_fixed_small field bs : (field < 256)%N → encode_fixed field bs = put_u8 field ++ put_bytes bs.
Proof. intros. unfold encode_fixed. by rewrite N.mod_small. Qed.
End props.

Ltac reads_side := solve [eassumption | done | by vm_compute | lia].

(** Reads one value: the goal is [reads _ _ (entry captured key) bytes _]. *)
Ltac reads_value :=
  first
    [ eapply reads_map;
      [ first [ apply reads_convert, reads_u8 | apply reads_convert, reads_u32
              | apply reads_convert, reads_u64 | apply reads_convert, reads_bool
              | apply reads_text | apply reads_signature
              | apply reads_fixed | eapply reads_sized_bytes; [eassumption|]
              | apply reads_byte_string ]; reads_side
      | first [ apply reads_ret
              | eapply reads_bind_nil; [apply reads_exactly; reads_side | apply reads_ret] ] ] ].

Ltac reads_entry :=
  first
    [ eapply reads_entries_last; [done|reflexivity|cbn beta iota; reads_value]
    | eapply reads_entries_cons; [done|reflexivity|cbn beta iota; reads_value|] ].

(** The required fields, all present. *)
Ltac reads_required := repeat (eapply reads_bind_nil; [apply reads_ret|]).

(** A schema: a map whose entries are read in order, then the record. *)
Ltac reads_schema :=
  rewrite ?encode_fixed_small by done; rewrite <-?app_assoc;
  eapply reads_map; [eapply reads_fields; [done|done|cbv; reflexivity|]; repeat reads_entry|].

Section schemas.
Context `{CL : CborLaws} `{NF : !Nfc}.
Context {dp : usize} (Hdp : (dp <= 2)%N).
Abbreviation R := (reads Limits_default dp).

Lemma reads_ClientHello m :
  message_ok (M_ClientHello m) → R ClientHello_strict_decode (ClientHello_encode m) m.
Proof.
  destruct m. intros (H1 & H2 & H3). unfold ClientHello_strict_decode, ClientHello_encode, ClientHello_entry.
  simpl in *. reads_schema. by intros rest.
Qed.

Lemma reads_HostHello m :
  message_ok (M_HostHello m) → R HostHello_strict_decode (HostHello_encode m) m.
Proof.
  destruct m. intros (H1 & H2 & H3 & H4 & H5 & H6).
  unfold HostHello_strict_decode, HostHello_encode, HostHello_entry. simpl in *.
  reads_schema. by intros rest.
Qed.

Lemma reads_PasswordChallenge m :
  message_ok (M_PasswordChallenge m) → R PasswordChallenge_strict_decode (PasswordChallenge_encode m) m.
Proof.
  destruct m. intros (H1 & H2 & H3 & H4 & H5).
  unfold PasswordChallenge_strict_decode, PasswordChallenge_encode, PasswordChallenge_entry.
  simpl in *. reads_schema. by intros rest.
Qed.

Lemma reads_ChallengeProof m :
  message_ok (M_ChallengeProof m) → R ChallengeProof_strict_decode (ChallengeProof_encode m) m.
Proof.
  destruct m. intros H1.
  unfold ChallengeProof_strict_decode, ChallengeProof_encode, ChallengeProof_entry.
  simpl in *. reads_schema. by intros rest.
Qed.

Lemma reads_JoinAccepted m :
  message_ok (M_JoinAccepted m) → R JoinAccepted_strict_decode (JoinAccepted_encode m) m.
Proof.
  destruct m. intros H1.
  unfold JoinAccepted_strict_decode, JoinAccepted_encode, JoinAccepted_entry.
  simpl in *. reads_schema. by intros rest.
Qed.

Lemma reads_EpochAck m :
  message_ok (M_EpochAck m) → R EpochAck_strict_decode (EpochAck_encode m) m.
Proof.
  destruct m. intros H1. unfold EpochAck_strict_decode, EpochAck_encode, EpochAck_entry.
  simpl in *. reads_schema. by intros rest.
Qed.

Lemma reads_gone sequence epoch member_id signature :
  u64_ok sequence → u64_ok epoch → u64_ok member_id → sized 64 signature →
  R decode_gone (encode_gone sequence epoch member_id signature) (sequence, epoch, member_id, signature).
Proof.
  intros. unfold decode_gone, encode_gone, gone_entry. reads_schema. by intros rest.
Qed.

Lemma reads_JoinPolicyChanged m :
  message_ok (M_JoinPolicyChanged m) → R JoinPolicyChanged_strict_decode (JoinPolicyChanged_encode m) m.
Proof.
  destruct m. intros (H1 & H2 & H3).
  unfold JoinPolicyChanged_strict_decode, JoinPolicyChanged_encode, JoinPolicyChanged_entry.
  simpl in *. reads_schema. by intros rest.
Qed.

Lemma reads_MemberJoined m :
  message_ok (M_MemberJoined m) → within_limits (M_MemberJoined m) →
  R MemberJoined_strict_decode (MemberJoined_encode m) m.
Proof.
  destruct m. intros (H1 & H2 & H3 & H4 & H5 & H6) H7.
  unfold MemberJoined_strict_decode, MemberJoined_encode, MemberJoined_entry.
  simpl in *. reads_schema. by intros rest.
Qed.

Lemma reads_SnapshotMember m :
  snapshot_member_ok m → (str_len (sm_nickname m) <= 4096)%N →
  R SnapshotMember_strict_decode (SnapshotMember_encode m) m.
Proof.
  destruct m. intros (H1 & H2 & H3 & H4) H5.
  unfold SnapshotMember_strict_decode, SnapshotMember_encode, SnapshotMember_entry.
  simpl in *. reads_schema. by intros rest.
Qed.

Lemma reads_TokenVerify m :
  message_ok (M_TokenVerify m) → R TokenVerify_strict_decode (TokenVerify_encode m) m.
Proof.
  destruct m as [token]. intros H1. unfold TokenVerify_strict_decode, TokenVerify_encode, TokenVerify_entry.
  simpl in *. pose proof H1 as [_ H2]%in_range_true.
  eapply reads_map; [eapply reads_fields; [done|done|cbv; reflexivity|]; reads_entry|].
  reads_required. apply reads_lift. unfold TokenVerify_new. by rewrite H1.
Qed.

Lemma reads_EpochWrap m :
  message_ok (M_EpochWrap m) → R EpochWrap_strict_decode (EpochWrap_encode m) m.
Proof.
  destruct m as [epoch nonce ct]. intros (H1 & H2 & H3).
  unfold EpochWrap_strict_decode, EpochWrap_encode, EpochWrap_entry. simpl in *. reads_schema.
  reads_required. apply reads_lift, EpochWrap_new_Ok. unfold sized in H3. lia.
Qed.

Lemma reads_EncryptedEnvelope m :
  envelope_ok m → (N.of_nat (length (env_ciphertext m)) <= 4096)%N →
  R EncryptedEnvelope_strict_decode (EncryptedEnvelope_encode m) m.
Proof.
  destruct m. intros (H1 & H2 & H3 & H4 & H5 & H6) H7.
  unfold EncryptedEnvelope_strict_decode, EncryptedEnvelope_encode, EncryptedEnvelope_entry.
  simpl in *. apply in_range_true in H5 as H8. reads_schema.
  reads_required. apply reads_lift. unfold EncryptedEnvelope_new.
  change (in_range CHAT_MIN_CIPHERTEXT_LEN CHAT_MAX_CIPHERTEXT_LEN) with (in_range 17 4112).
  by rewrite H5.
Qed.

End schemas.

Section messages.
Context `{CL : CborLaws} `{NF : !Nfc}.
Abbreviation R := (reads Limits_default 0).

Lemma reads_MemberSnapshot m :
  message_ok (M_MemberSnapshot m) → within_limits (M_MemberSnapshot m) →
  R MemberSnapshot_strict_decode (MemberSnapshot_encode m) m.
Proof.
  destruct m as [q e ms sig]. intros (H1 & H2 & H3 & H4) [H5 H6].
  unfold MemberSnapshot_strict_decode, MemberSnapshot_encode, MemberSnapshot_entry. simpl in *.
  rewrite <-?app_assoc.
  eapply reads_map; [eapply reads_fields; [done|done|cbv; reflexivity|]|].
  - reads_entry. reads_entry. rewrite (app_assoc (put_array _)).
    eapply reads_entries_cons; [done|reflexivity|cbn beta iota|].
    { eapply reads_map; [|apply reads_ret]. apply reads_array_entries; [done|done|unfold u64_limit; lia|].
      apply list.Forall_forall. intros k Hk. rewrite list.Forall_forall in H3, H6.
      apply reads_SnapshotMember; auto. }
    reads_entry.
  - by intros rest.
Qed.

Lemma str_len_scalars s : (str_len s <= 4 * N.of_nat (length s))%N.
Proof.
  unfold str_len. induction s as [|c s IH]; [done|]. unfold utf8 in *. cbn [flat_map].
  rewrite length_app. cbn [length].
  assert (length (utf8_char c) <= 4) by (unfold utf8_char; repeat case_match; simpl; lia). lia.
Qed.

Lemma reads_nickname n :
  scalars n → validate_nickname n Limits_default = Ok n →
  reads Limits_default 1 (convert PE_Cbor strict_str) (put_str n) n.
Proof.
  intros Hs (_ & _ & _ & _ & _ & Hl & _)%validate_nickname_iff. apply reads_text; [done|].
  pose proof (str_len_scalars n). simpl in Hl. lia.
Qed.

Lemma validate_intro_length i : validate_intro i Limits_default = Ok tt → (N.of_nat (length i) <= 160)%N.
Proof.
  unfold validate_intro. destruct i as [|c i]; [simpl; lia|]. cbn [non_empty negb].
  destruct (existsb _ _); [done|]. destruct (contains_control_char _); [done|].
  destruct (N.ltb_spec (max_intro_scalars Limits_default) (N.of_nat (length (c :: i)))); [done|].
  by simpl in *.
Qed.

Lemma reads_intro i :
  scalars i → validate_intro i Limits_default = Ok tt →
  reads Limits_default 1 (convert PE_Cbor strict_str) (put_str i) i.
Proof.
  intros Hs Hl%validate_intro_length. apply reads_text; [done|]. pose proof (str_len_scalars i). lia.
Qed.

Lemma reads_JoinRequest m :
  message_ok (M_JoinRequest m) → within_limits (M_JoinRequest m) →
  R JoinRequest_strict_decode (JoinRequest_encode m) m.
Proof.
  destruct m as [n i ed x sig]. intros (_ & Hi & H3 & H4 & H5) [H1 H2].
  unfold JoinRequest_strict_decode, JoinRequest_encode, JoinRequest_entry.
  cbn [jm_nickname jm_introduction jm_ed25519_pubkey jm_x25519_pubkey jm_signature] in *.
  rewrite !encode_fixed_small by done.
  destruct i as [i|]; rewrite <-?app_assoc, ?app_nil_l;
    (eapply reads_map; [eapply reads_fields; [done|done|cbv; reflexivity|]|]).
  - eapply reads_entries_cons; [done|reflexivity|cbn beta iota; eapply reads_map;
      [by apply reads_nickname|apply reads_ret]|].
    destruct (Hi i eq_refl) as [Hs Hv].
    eapply reads_entries_cons; [done|reflexivity|cbn beta iota; eapply reads_map;
      [by apply reads_intro|apply reads_ret]|]. repeat reads_entry.
  - reads_required. apply reads_lift. unfold JoinRequestMessage_new. rewrite H2.
    by rewrite (proj2 (Hi i eq_refl)).
  - eapply reads_entries_cons; [done|reflexivity|cbn beta iota; eapply reads_map;
      [by apply reads_nickname|apply reads_ret]|]. repeat reads_entry.
  - reads_required. apply reads_lift. unfold JoinRequestMessage_new. by rewrite H2.
Qed.

Lemma reads_reason r : reason_ok r → reads Limits_default 1 (convert PE_Cbor strict_str) (put_str r) r.
Proof. intros (Hs & Hl & _). apply reads_text; [done|lia]. Qed.

Lemma reads_JoinRejected m :
  message_ok (M_JoinRejected m) → R JoinRejected_strict_decode (JoinRejected_encode m) m.
Proof.
  destruct m as [[r|]]; intros Hm; unfold JoinRejected_strict_decode, JoinRejected_encode,
    JoinRejected_entry; cbn [jr_reason].
  - destruct (Hm r eq_refl) as [Hne Hr].
    eapply reads_map; [eapply reads_fields; [done|done|cbv; reflexivity|]|].
    + eapply reads_entries_last; [done|reflexivity|]. eapply reads_map; [by apply reads_reason|apply reads_ret].
    + apply reads_lift. destruct Hr as (_ & Hl & Hc). destruct r as [|c r]; [done|].
      unfold JoinRejected_new. cbn [non_empty negb]. rewrite (proj2 (N.ltb_ge _ _)) by done. by rewrite Hc.
  - rewrite <-(app_nil_r (put_map 0)).
    eapply reads_map; [eapply reads_fields; [done|done|cbv; reflexivity|apply reads_entries_nil]|].
    by intros rest.
Qed.

Lemma ErrorCode_from_as c : ErrorCode_from_u8 (ErrorCode_as_u8 c) = Some c.
Proof. by destruct c. Qed.

Lemma reads_code c reason :
  reads Limits_default 1 (ErrorMessage_entry (None, reason) 1) (put_u8 (ErrorCode_as_u8 c)) (Some c, reason).
Proof.
  unfold ErrorMessage_entry. eapply reads_map; [apply reads_convert, reads_u8; by destruct c|].
  eapply reads_bind_nil; [|apply reads_ret]. intros rest. by rewrite ErrorCode_from_as.
Qed.

Lemma reads_ErrorMessage m :
  message_ok (M_Error m) → R ErrorMessage_strict_decode (ErrorMessage_encode m) m.
Proof.
  destruct m as [c [r|]]; intros Hm; unfold ErrorMessage_strict_decode, ErrorMessage_encode;
    cbn [em_code em_reason].
  - specialize (Hm r eq_refl) as Hr.
    eapply reads_map; [eapply reads_fields; [done|done|cbv; reflexivity|]|].
    + eapply reads_entries_cons; [done|reflexivity|apply reads_code|].
      eapply reads_entries_last; [done|reflexivity|]. cbn [ErrorMessage_entry].
      eapply reads_map; [by apply reads_reason|]. eapply reads_bind_nil; [|apply reads_ret].
      destruct Hr as (_ & Hl & Hc). apply (reads_lift _ tt). unfold validate_reason.
      rewrite (proj2 (N.ltb_ge _ _)) by done. by rewrite Hc.
    + by intros rest.
  - rewrite app_nil_r.
    eapply reads_map; [eapply reads_fields; [done|done|cbv; reflexivity|]|].
    + eapply reads_entries_last; [done|reflexivity|]. apply reads_code.
    + by intros rest.
Qed.

Lemma reads_empty : R (fields empty_entry tt) (put_map 0) tt.
Proof.
  rewrite <-(app_nil_r (put_map 0)).
  eapply reads_fields; [done|done|cbv; reflexivity|apply reads_entries_nil].
Qed.

(** The schema of a message's type reads its body as the message. *)
Lemma reads_message m :
  message_ok m → within_limits m → R (schema_of (Message_type m)) (encode_body m) m.
Proof.
  intros Hm Hw. destruct m; cbn [Message_type schema_of encode_body];
    (eapply reads_map; [|apply reads_ret]).
  - apply reads_empty.
  - by apply reads_ErrorMessage.
  - apply reads_empty.
  - by apply reads_HostHello.
  - by apply reads_ClientHello.
  - by apply reads_TokenVerify.
  - by apply reads_PasswordChallenge.
  - by apply reads_ChallengeProof.
  - by apply reads_JoinRequest.
  - by apply reads_JoinAccepted.
  - by apply reads_JoinRejected.
  - by apply reads_EpochWrap.
  - by apply reads_EpochAck.
  - by apply reads_MemberJoined.
  - destruct Hm as (? & ? & ? & ?). eapply reads_map; [by apply reads_gone|]. by destruct m.
  - destruct Hm as (? & ? & ? & ?). eapply reads_map; [by apply reads_gone|]. by destruct m.
  - by apply reads_JoinPolicyChanged.
  - by apply reads_MemberSnapshot.
  - by apply reads_EncryptedEnvelope.
  - by apply reads_EncryptedEnvelope.
  - by apply reads_EncryptedEnvelope.
  - by apply reads_EncryptedEnvelope.
Qed.
End messages.

(** * Types *)

(** A captured variable, set or not. *)
Definition opt {A} (P : A → Prop) (o : option A) : Prop := match o with Some a => P a | None => True end.

Section yields.
Context `{CL : CborLaws} `{NF : !Nfc}.

Lemma yields_exactly n err bs : yields (exactly n err bs) (sized n).
Proof.
  unfold exactly. cbv zeta. destruct (N.eqb_spec (N.of_nat (length bs)) n); [by apply yields_ret|done].
Qed.

Lemma yields_then {E A B} (m : Dec E A) (f : A → Dec E B) P : (∀ a, yields (f a) P) → yields (m ≫= f) P.
Proof. intros Hf. eapply yields_bind; [apply yields_any|auto]. Qed.

Lemma yields_fixed n field : yields (fixed_bytes n field) (sized n).
Proof. apply yields_then. intros bs. apply yields_exactly. Qed.

Lemma yields_signature field : yields (read_signature field) (sized 64).
Proof. apply yields_then. intros bs. apply yields_exactly. Qed.

Lemma yields_fields {A} (entries : A → u64 → Dec ProtocolError A) (I : A → Prop) c :
  I c → (∀ c k, I c → yields (entries c k) I) → yields (fields entries c) I.
Proof. apply yields_map_entries. Qed.

Lemma yields_missing {A} (o : option A) field (P : A → Prop) : opt P o → yields (missing o field) P.
Proof. intros Ho. apply yields_required. by intros a ->. Qed.

Lemma yields_lift_id {A} (r : Result A ProtocolError) (P : A → Prop) :
  (∀ a, r = Ok a → P a) → yields (lift id r) P.
Proof. apply yields_lift. Qed.
End yields.

(** One entry: what its read yields, then the captured variables. *)
Ltac yields_value :=
  first [ apply yields_convert, yields_u8 | apply yields_convert, yields_u32
        | apply yields_convert, yields_u64 | apply yields_convert, yields_str
        | apply yields_fixed | apply yields_signature | apply yields_any ].

Ltac yields_entry :=
  first
    [ apply yields_refuse
    | apply yields_ret; simpl in *; tauto
    | eapply yields_bind; [yields_value|intros ? ?; apply yields_ret; simpl in *; tauto]
    | eapply yields_bind; [yields_value|intros ? _];
      eapply yields_bind; [first [apply yields_exactly|yields_value]
                          |intros ? ?; apply yields_ret; simpl in *; tauto] ].

(** The cases of a key. *)
Ltac yields_entries :=
  let c := fresh "c" in let k := fresh "k" in let Hc := fresh "Hc" in
  intros c k Hc; destruct_and?;
  repeat match goal with x : (_ * _)%type |- _ => destruct x end;
  cbn beta iota in *;
  repeat match goal with |- yields (match ?x with _ => _ end) _ => destruct x end; yields_entry.

Ltac yields_required :=
  repeat (eapply yields_bind; [apply yields_missing; eassumption|intros ? ?]).

Section types.
Context `{CL : CborLaws} `{NF : !Nfc}.

Abbreviation u64o := (opt u64_ok) (only parsing).

Lemma yields_ClientHello : yields ClientHello_strict_decode (λ m, message_ok (M_ClientHello m)).
Proof.
  eapply yields_bind;
    [apply (yields_fields _ (λ '(v, n, f), opt (λ v, v < 256)%N v ∧ opt (sized 16) n
       ∧ opt (λ f, f < u32_limit)%N f)); [done|unfold ClientHello_entry; yields_entries]|].
  intros [[v n] f] (? & ? & ?). yields_required. by apply yields_ret.
Qed.

Lemma yields_HostHello : yields HostHello_strict_decode (λ m, message_ok (M_HostHello m)).
Proof.
  eapply yields_bind;
    [apply (yields_fields _ (λ '(v, id, ed, x, n, s), opt (λ v, v < 256)%N v ∧ opt (sized 32) id
       ∧ opt (sized 32) ed ∧ opt (sized 32) x ∧ opt (sized 16) n ∧ opt (sized 64) s));
     [done|unfold HostHello_entry; yields_entries]|].
  intros [[[[[v id] ed] x] n] s] (? & ? & ? & ? & ? & ?). yields_required. by apply yields_ret.
Qed.

Lemma yields_TokenVerify : yields TokenVerify_strict_decode (λ m, message_ok (M_TokenVerify m)).
Proof.
  apply yields_then. intros o. apply yields_then. intros token. apply yields_lift_id.
  intros m. unfold TokenVerify_new. destruct (in_range _ _ _) eqn:E; [|done]. by intros [= <-].
Qed.

Lemma yields_PasswordChallenge :
  yields PasswordChallenge_strict_decode (λ m, message_ok (M_PasswordChallenge m)).
Proof.
  eapply yields_bind;
    [apply (yields_fields _ (λ '(m, t, p, s, n), opt (λ v, v < u32_limit)%N m ∧
       opt (λ v, v < u32_limit)%N t ∧ opt (λ v, v < 256)%N p ∧ opt (sized 16) s ∧ opt (sized 16) n));
     [done|unfold PasswordChallenge_entry; yields_entries]|].
  intros [[[[m t] p] s] n] (? & ? & ? & ? & ?). yields_required. by apply yields_ret.
Qed.

Lemma yields_ChallengeProof : yields ChallengeProof_strict_decode (λ m, message_ok (M_ChallengeProof m)).
Proof.
  eapply yields_bind; [apply (yields_fields _ (opt (sized 32)));
    [done|unfold ChallengeProof_entry; yields_entries]|].
  intros o Ho. yields_required. by apply yields_ret.
Qed.

Lemma JoinRequestMessage_new_Ok n i ed x sig m :
  JoinRequestMessage_new n i ed x sig = Ok m →
  validate_nickname n Limits_default = Ok (jm_nickname m) ∧ jm_introduction m = i ∧
  (∀ t, i = Some t → validate_intro t Limits_default = Ok tt) ∧
  jm_ed25519_pubkey m = ed ∧ jm_x25519_pubkey m = x ∧ jm_signature m = sig.
Proof.
  unfold JoinRequestMessage_new. destruct (validate_nickname _ _) as [n'|]; [|done].
  destruct i as [t|]; [|by intros [= <-]].
  destruct (validate_intro _ _) as [[]|] eqn:E; [|done]. intros [= <-]. split_and!; try done.
  by intros ? [= <-].
Qed.

Lemma yields_JoinRequest : yields JoinRequest_strict_decode (λ m, message_ok (M_JoinRequest m)).
Proof.
  eapply yields_bind;
    [apply (yields_fields _ (λ '(n, i, ed, x, s), opt scalars n ∧ opt scalars i ∧ opt (sized 32) ed
       ∧ opt (sized 32) x ∧ opt (sized 64) s));
     [done|unfold JoinRequest_entry; yields_entries]|].
  intros [[[[n i] ed] x] s] (? & Hi & ? & ? & ?). yields_required. apply yields_lift_id.
  intros m (Hn & Hj & Hv & Hed & Hx & Hs)%JoinRequestMessage_new_Ok. simpl. rewrite Hed, Hx, Hs.
  split; [by eexists|]. split; [|done]. intros t Ht. rewrite Hj in Ht. rewrite Ht in Hi, Hv. split; [exact Hi|by apply Hv].
Qed.

Lemma yields_JoinAccepted : yields JoinAccepted_strict_decode (λ m, message_ok (M_JoinAccepted m)).
Proof.
  eapply yields_bind; [apply (yields_fields _ (opt u64_ok));
    [done|unfold JoinAccepted_entry; yields_entries]|].
  intros o Ho. yields_required. by apply yields_ret.
Qed.

Lemma yields_JoinRejected : yields JoinRejected_strict_decode (λ m, message_ok (M_JoinRejected m)).
Proof.
  eapply yields_bind; [apply (yields_fields _ (opt scalars));
    [done|unfold JoinRejected_entry; yields_entries]|].
  intros o Ho. apply yields_lift_id. intros m. unfold JoinRejected_new. destruct o as [r|]; [|by intros [= <-]].
  destruct (non_empty r) eqn:En; [|by intros [= <-]]. cbn [negb].
  destruct (N.ltb_spec MAX_REJECT_REASON_BYTES (str_len r)); [done|].
  destruct (contains_control_char r) eqn:Ec; [done|]. intros [= <-] r' [= <-].
  apply non_empty_true in En. done.
Qed.

Lemma yields_ErrorMessage : yields ErrorMessage_strict_decode (λ m, message_ok (M_Error m)).
Proof.
  eapply yields_bind; [apply (yields_fields _ (λ '(_, r), opt reason_ok r)); [done|]|].
  - intros [c r] k Hr. unfold ErrorMessage_entry.
    repeat match goal with |- yields (match ?x with _ => _ end) _ => destruct x end; try apply yields_refuse.
    + eapply yields_bind; [apply yields_convert, yields_str|]. intros t Ht.
      apply (yields_bind _ _ (λ _, reason_ok t)); [|intros _ Hv; apply yields_ret, Hv].
      apply yields_lift. intros [] Hv. unfold validate_reason in Hv.
      destruct (N.ltb_spec MAX_ERROR_REASON_BYTES (str_len t)); [done|].
      destruct (contains_control_char t) eqn:Ec; [done|]. done.
    + apply yields_then. intros n. apply yields_then. intros ?. by apply yields_ret.
  - intros [c r] Hr. apply yields_then. intros code. apply yields_ret. intros r'. simpl. intros ->. apply Hr.
Qed.

Lemma yields_EpochWrap : yields EpochWrap_strict_decode (λ m, message_ok (M_EpochWrap m)).
Proof.
  eapply yields_bind;
    [apply (yields_fields _ (λ '(e, n, _), opt u64_ok e ∧ opt (sized 24) n));
     [done|unfold EpochWrap_entry; yields_entries]|].
  intros [[e n] c] (? & ?). yields_required. apply yields_then. intros ct. apply yields_lift_id.
  intros m. unfold EpochWrap_new. destruct (N.eqb_spec (N.of_nat (length ct)) EPOCH_WRAP_CIPHERTEXT_LEN); [|done].
  by intros [= <-].
Qed.

Lemma yields_EpochAck : yields EpochAck_strict_decode (λ m, message_ok (M_EpochAck m)).
Proof.
  eapply yields_bind; [apply (yields_fields _ (opt u64_ok));
    [done|unfold EpochAck_entry; yields_entries]|].
  intros o Ho. yields_required. by apply yields_ret.
Qed.

Lemma yields_gone : yields decode_gone (λ '(q, e, id, s), u64_ok q ∧ u64_ok e ∧ u64_ok id ∧ sized 64 s).
Proof.
  eapply yields_bind;
    [apply (yields_fields _ (λ '(q, e, id, s), opt u64_ok q ∧ opt u64_ok e ∧ opt u64_ok id ∧ opt (sized 64) s));
     [done|unfold gone_entry; yields_entries]|].
  intros [[[q e] id] s] (? & ? & ? & ?). yields_required. by apply yields_ret.
Qed.

Lemma yields_JoinPolicyChanged :
  yields JoinPolicyChanged_strict_decode (λ m, message_ok (M_JoinPolicyChanged m)).
Proof.
  eapply yields_bind;
    [apply (yields_fields _ (λ '(q, e, _, s), opt u64_ok q ∧ opt u64_ok e ∧ opt (sized 64) s));
     [done|unfold JoinPolicyChanged_entry; yields_entries]|].
  intros [[[q e] o] s] (? & ? & ?). yields_required. apply yields_then. intros b.
  yields_required. by apply yields_ret.
Qed.

Lemma yields_MemberJoined : yields MemberJoined_strict_decode (λ m, message_ok (M_MemberJoined m)).
Proof.
  eapply yields_bind;
    [apply (yields_fields _ (λ '(q, e, id, n, k, s), opt u64_ok q ∧ opt u64_ok e ∧ opt u64_ok id
       ∧ opt scalars n ∧ opt (sized 32) k ∧ opt (sized 64) s));
     [done|unfold MemberJoined_entry; yields_entries]|].
  intros [[[[[q e] id] n] k] s] (? & ? & ? & ? & ? & ?). yields_required. by apply yields_ret.
Qed.

Lemma yields_SnapshotMember : yields SnapshotMember_strict_decode snapshot_member_ok.
Proof.
  eapply yields_bind;
    [apply (yields_fields _ (λ '(id, n, c, _, k), opt u64_ok id ∧ opt scalars n ∧ opt (λ v, v < 256)%N c
       ∧ opt (sized 32) k));
     [done|unfold SnapshotMember_entry; yields_entries]|].
  intros [[[[id n] c] h] k] (? & ? & ? & ?). yields_required. apply yields_then. intros b.
  yields_required. by apply yields_ret.
Qed.

Lemma yields_MemberSnapshot : yields MemberSnapshot_strict_decode (λ m, message_ok (M_MemberSnapshot m)).
Proof.
  eapply yields_bind;
    [apply (yields_fields _ (λ '(q, e, ms, s), opt u64_ok q ∧ opt u64_ok e
       ∧ opt (Forall snapshot_member_ok) ms ∧ opt (sized 64) s)); [done|]|].
  - intros [[[q e] ms] s] k Hc. destruct_and?. unfold MemberSnapshot_entry.
    repeat match goal with |- yields (match ?x with _ => _ end) _ => destruct x end; try yields_entry.
    eapply yields_bind; [apply yields_array_entries, yields_SnapshotMember|].
    intros ? ?. apply yields_ret. simpl in *. tauto.
  - intros [[[q e] ms] s] (? & ? & ? & ?). yields_required. by apply yields_ret.
Qed.

Lemma yields_EncryptedEnvelope : yields EncryptedEnvelope_strict_decode envelope_ok.
Proof.
  eapply yields_bind;
    [apply (yields_fields _ (λ '(e, id, q, n, _, s), opt u64_ok e ∧ opt u64_ok id ∧ opt u64_ok q
       ∧ opt (sized 24) n ∧ opt (sized 64) s));
     [done|unfold EncryptedEnvelope_entry; yields_entries]|].
  intros [[[[[e id] q] n] c] s] (? & ? & ? & ? & ?). yields_required. apply yields_then. intros ct.
  yields_required. apply yields_lift_id. intros m. unfold EncryptedEnvelope_new.
  destruct (in_range _ _ _) eqn:Er; [|done]. by intros [= <-].
Qed.

Lemma yields_MemberLeft : yields MemberLeft_strict_decode (λ m, message_ok (M_MemberLeft m)).
Proof.
  eapply yields_bind; [apply yields_gone|]. intros [[[q e] id] s] H4. by apply yields_ret.
Qed.

Lemma yields_MemberKicked : yields MemberKicked_strict_decode (λ m, message_ok (M_MemberKicked m)).
Proof.
  eapply yields_bind; [apply yields_gone|]. intros [[[q e] id] s] H4. by apply yields_ret.
Qed.

Lemma yields_message t : yields (schema_of t) (λ m, message_ok m ∧ Message_type m = t).
Proof.
  destruct t; cbn [schema_of];
    (eapply yields_bind;
     [first [ apply yields_HostHello | apply yields_ClientHello | apply yields_TokenVerify
            | apply yields_PasswordChallenge | apply yields_ChallengeProof | apply yields_JoinRequest
            | apply yields_JoinAccepted | apply yields_JoinRejected | apply yields_ErrorMessage
            | apply yields_EpochWrap | apply yields_EpochAck | apply yields_JoinPolicyChanged
            | apply yields_MemberJoined | apply yields_MemberLeft | apply yields_MemberKicked
            | apply yields_MemberSnapshot | apply yields_EncryptedEnvelope | apply yields_any ]
     |intros ? ?; by apply yields_ret]).
Qed.

(** * One item *)

Lemma stable_exactly n err bs : stable (exactly n err bs).
Proof. unfold exactly. cbv zeta. solve_stable. Qed.

Lemma stable_fixed n field : stable (fixed_bytes n field).
Proof. unfold fixed_bytes. solve_stable; apply stable_exactly. Qed.

Lemma stable_signature field : stable (read_signature field).
Proof. unfold read_signature. solve_stable; apply stable_exactly. Qed.
End types.

#[export] Hint Resolve stable_exactly stable_fixed stable_signature : stable.

Ltac stable_schema :=
  unfold fields, missing;
  apply stable_bind;
  [ apply stable_map_entries; intros c k;
    repeat match goal with x : (_ * _)%type |- _ => destruct x end;
    repeat match goal with |- stable (match ?x with _ => _ end) => destruct x end; solve_stable
  | intros c; repeat match goal with x : (_ * _)%type |- _ => destruct x end; solve_stable ].

Section one_item.
Context `{CL : CborLaws} `{NF : !Nfc}.

Lemma stable_empty : stable (fields empty_entry tt).
Proof. apply stable_map_entries. intros. apply stable_refuse. Qed.

Lemma stable_SnapshotMember : stable SnapshotMember_strict_decode.
Proof. unfold SnapshotMember_strict_decode, SnapshotMember_entry. stable_schema. Qed.

Lemma stable_gone : stable decode_gone.
Proof. unfold decode_gone, gone_entry. stable_schema. Qed.

Lemma stable_EncryptedEnvelope : stable EncryptedEnvelope_strict_decode.
Proof. unfold EncryptedEnvelope_strict_decode, EncryptedEnvelope_entry. stable_schema. Qed.

Lemma stable_members :
  stable (array_entries PE_Cbor (λ acc, x ← SnapshotMember_strict_decode; mret (acc ++ [x])) []).
Proof. apply stable_array_entries. intros acc. apply stable_bind; [apply stable_SnapshotMember|solve_stable]. Qed.
Hint Resolve stable_members : stable.

Lemma stable_MemberSnapshot : stable MemberSnapshot_strict_decode.
Proof. unfold MemberSnapshot_strict_decode, MemberSnapshot_entry. stable_schema. Qed.

Lemma stable_message t : stable (schema_of t).
Proof.
  destruct t; cbn [schema_of]; (apply stable_bind; [|intros ?; apply stable_ret]).
  all: try apply stable_empty; try apply stable_MemberSnapshot; try apply stable_EncryptedEnvelope.
  all: try (apply stable_bind; [apply stable_gone|intros [[[q e] id] s]; apply stable_ret]).
  - unfold HostHello_strict_decode, HostHello_entry. stable_schema.
  - unfold ClientHello_strict_decode, ClientHello_entry. stable_schema.
  - unfold TokenVerify_strict_decode, TokenVerify_entry. stable_schema.
  - unfold PasswordChallenge_strict_decode, PasswordChallenge_entry. stable_schema.
  - unfold ChallengeProof_strict_decode, ChallengeProof_entry. stable_schema.
  - unfold JoinRequest_strict_decode, JoinRequest_entry. stable_schema.
  - unfold JoinAccepted_strict_decode, JoinAccepted_entry. stable_schema.
  - unfold JoinRejected_strict_decode, JoinRejected_entry. stable_schema.
  - unfold MemberJoined_strict_decode, MemberJoined_entry. stable_schema.
  - unfold JoinPolicyChanged_strict_decode, JoinPolicyChanged_entry. stable_schema.
  - unfold EpochWrap_strict_decode, EpochWrap_entry. stable_schema.
  - unfold EpochAck_strict_decode, EpochAck_entry. stable_schema.
  - unfold ErrorMessage_strict_decode, ErrorMessage_entry. stable_schema.
Qed.

(** * The codec *)

Lemma decode_encode_body m :
  message_ok m → within_limits m →
  Message_decode {| frame_type := Message_type m; payload := encode_body m |} Limits_default = Ok m.
Proof.
  intros Hm Hw. unfold Message_decode, decode_message_body, StrictDecoder_new. cbn [payload frame_type].
  rewrite <-(app_nil_r (encode_body m)). by rewrite (reads_message m Hm Hw []).
Qed.

(** C30.  Whatever bytes arrive, a message the decoder returns is well formed: it
    has the type of its frame, its keys, nonces, proofs, salts and signatures have their
    exact lengths, its integers their widths, its names and reasons are valid text and
    its ciphertext is within the protocol's bounds. *)
Theorem decoded_message_ok frame limits m :
  Message_decode frame limits = Ok m → message_ok m ∧ Message_type m = frame_type frame.
Proof.
  unfold Message_decode, decode_message_body.
  destruct (schema_of _ _) as [[v d]|] eqn:E; [|done]. destruct (strict_finish d); [|done].
  intros [= ->]. by eapply yields_message.
Qed.

(** A payload is exactly one item: bytes appended to a payload that decodes
    make it refused as trailing data, for every message type. *)
Theorem payload_is_one_item frame limits m extra :
  Message_decode frame limits = Ok m → extra ≠ [] →
  Message_decode {| frame_type := frame_type frame; payload := payload frame ++ extra |} limits
    = Err (PE_Cbor SE_TrailingData).
Proof.
  unfold Message_decode, decode_message_body. cbn [payload frame_type]. intros Hd Hx.
  destruct (schema_of _ _) as [[v d]|] eqn:E; [|done].
  change (StrictDecoder_new (payload frame ++ extra) limits)
    with (more extra (StrictDecoder_new (payload frame) limits)).
  rewrite (stable_message _ _ _ _ extra E). unfold strict_finish in *. cbn [more sd_inner].
  destruct (sd_inner d) as [|b rest]; [|done]. by destruct extra.
Qed.

Lemma refuses_long_bytes dp bs :
  (N.of_nat (length bs) < u64_limit)%N → (4096 < N.of_nat (length bs))%N →
  refuses Limits_default dp (convert PE_Cbor strict_bytes) (put_bytes bs)
    (PE_Cbor (SE_BytesTooLong (N.of_nat (length bs)) 4096)).
Proof.
  intros Hl Hlong rest. unfold convert, strict_bytes, mbind, Dec_bind, read, the_limits.
  cbn [sd_inner sd_depth sd_limits]. rewrite read_put_bytes by done.
  by rewrite (proj2 (N.ltb_lt _ _)).
Qed.

(** An envelope whose ciphertext is longer than the byte strings a decoder
    takes is refused, although it is within the chat layer's own bounds. *)
Lemma long_envelope_refused m :
  envelope_ok m → (4096 < N.of_nat (length (env_ciphertext m)))%N →
  Message_decode {| frame_type := MT_ChatMessage; payload := encode_body (M_ChatMessage m) |} Limits_default
    = Err (PE_Cbor (SE_BytesTooLong (N.of_nat (length (env_ciphertext m))) 4096)).
Proof.
  destruct m as [e id q n ct sig]. intros (H1 & H2 & H3 & H4 & H5 & H6) Hlong.
  cbn [env_epoch env_sender_id env_sender_sequence env_nonce env_ciphertext env_signature] in *.
  apply in_range_true in H5 as [_ H7].
  unfold Message_decode, decode_message_body, StrictDecoder_new. cbn [payload frame_type encode_body schema_of].
  assert (Hr : refuses Limits_default 0 EncryptedEnvelope_strict_decode
    (EncryptedEnvelope_encode {| env_epoch := e; env_sender_id := id; env_sender_sequence := q;
       env_nonce := n; env_ciphertext := ct; env_signature := sig |})
    (PE_Cbor (SE_BytesTooLong (N.of_nat (length ct)) 4096))).
  { unfold EncryptedEnvelope_strict_decode, EncryptedEnvelope_encode.
    cbn [env_epoch env_sender_id env_sender_sequence env_nonce env_ciphertext env_signature].
    apply refuses_bind. unfold fields, EncryptedEnvelope_entry.
    eapply refuses_map_entries; [done|done|done|cbv; reflexivity|].
    do 4 (eapply refuses_entries_cons; [done|reflexivity|cbn beta iota; reads_value|]).
    eapply refuses_entries_here; [done|reflexivity|cbn beta iota].
    apply refuses_bind, refuses_long_bytes; [unfold u64_limit; lia|done]. }
  apply (refuses_bind _ _ _ (λ m, mret (M_ChatMessage m))) in Hr.
  specialize (Hr []). rewrite app_nil_r in Hr. by rewrite Hr.
Qed.
End one_item.
