(* ===== verification/Conn.v ===== *)
(** [src/net/conn.rs] and [src/net/client.rs]: the task that owns one
    connection, between two messages of its environment; the connection's
    handle with its bounded queue; and the way of what it receives to the
    supervisor.

    The socket and the queues are the environment's: an event is what the
    [select!] of the loop picked, with whether the peer took the bytes
    written in it ([ev_writes]) and how many more messages the supervisor
    took before it dropped its end ([ev_takes]; [None] while it has not). A
    step is the supervisor's messages, the bytes written and the decoder of
    the next iteration, or [None] when the task returned. *)
From Stdlib Require Import Strings.String.
From S2P Require Export CodecProps HostNet.

Inductive ConnInput :=
| CN_Tick
| CN_Outbound (message : option Message)
| CN_Read (bytes : list byte)
| CN_ReadFailed.

Record ConnEvent := { ev_input : ConnInput; ev_writes : bool; ev_takes : option nat }.

(** [inbound.send(..)]: what arrived, and whether the channel is still
    open. *)
Definition inbound_send (takes : option nat) (message : option Message)
    : list (option Message) * option (option nat) :=
  match takes with
  | None => ([message], Some None)
  | Some (S k) => ([message], Some (Some k))
  | Some O => ([], None)
  end.

(** [close]: the teardown marker. *)
Definition conn_close (takes : option nat) : list (option Message) := (inbound_send takes None).1.

Record ConnStep := {
  cs_inbound : list (option Message);
  cs_written : list byte;
  cs_next : option FrameDecoder;
}.

(** The reason of the error that answers an undecodable frame. *)
Definition violation_reason : rstring := lit "undecodable frame".

Section conn.
Context `{Cbor} `{Nfc}.

(** [read_frames]: the frames of one read, [Ok None] at end of file. *)
Definition read_frames (bytes : list byte) (decoder : FrameDecoder)
    : Result (option (list Frame)) FrameError * FrameDecoder :=
  match bytes with
  | [] => (match finish decoder with Err e => Err e | Ok _ => Ok None end, decoder)
  | _ =>
      let (r, decoder) := feed decoder bytes in
      (match r with Err e => Err e | Ok frames => Ok (Some frames) end, decoder)
  end.

(** [encode_write]: the bytes written, if the message encodes and the peer
    takes it. *)
Definition encode_write (writes : bool) (message : Message) (limits : Limits) : option (list byte) :=
  match Message_encode message limits with
  | Ok bytes => if writes then Some bytes else None
  | Err _ => None
  end.

Definition violation : Message :=
  M_Error match ErrorMessage_new EC_ProtocolViolation (Some violation_reason) with
          | Ok e => e
          | Err _ => {| em_code := EC_ProtocolViolation; em_reason := None |}
          end.

(** One message the loop writes of its own accord. *)
Definition write_step (message : Message) (limits : Limits) (decoder : FrameDecoder) (ev : ConnEvent)
    : ConnStep :=
  match encode_write (ev_writes ev) message limits with
  | Some bytes => {| cs_inbound := []; cs_written := bytes; cs_next := Some decoder |}
  | None => {| cs_inbound := conn_close (ev_takes ev); cs_written := []; cs_next := None |}
  end.

(** The frames of one read, in order; the first that does not decode ends
    the connection. *)
Fixpoint frames_step (frames : list Frame) (takes : option nat) (limits : Limits) (decoder : FrameDecoder)
    (writes : bool) : ConnStep :=
  match frames with
  | [] => {| cs_inbound := []; cs_written := []; cs_next := Some decoder |}
  | frame :: frames =>
      match Message_decode frame limits with
      | Ok message =>
          match inbound_send takes (Some message) with
          | (arrived, Some takes) =>
              let rest := frames_step frames takes limits decoder writes in
              {| cs_inbound := arrived ++ cs_inbound rest; cs_written := cs_written rest;
                 cs_next := cs_next rest |}
          | (arrived, None) => {| cs_inbound := arrived; cs_written := []; cs_next := None |}
          end
      | Err _ =>
          match inbound_send takes (Some violation) with
          | (arrived, Some takes) =>
              {| cs_inbound := arrived ++ conn_close takes;
                 cs_written := default [] (encode_write writes violation limits); cs_next := None |}
          | (arrived, None) => {| cs_inbound := arrived; cs_written := []; cs_next := None |}
          end
      end
  end.

(** One iteration of the loop of [run]. *)
Definition conn_step (limits : Limits) (ev : ConnEvent) (decoder : FrameDecoder) : ConnStep :=
  let ended := {| cs_inbound := conn_close (ev_takes ev); cs_written := []; cs_next := None |} in
  match ev_input ev with
  | CN_Tick => write_step M_Keepalive limits decoder ev
  | CN_Outbound None => ended
  | CN_Outbound (Some message) => write_step message limits decoder ev
  | CN_Read bytes =>
      match read_frames bytes decoder with
      | (Ok (Some frames), decoder) => frames_step frames (ev_takes ev) limits decoder (ev_writes ev)
      | (Ok None, _) | (Err _, _) => ended
      end
  | CN_ReadFailed => ended
  end.

(** The task over a history; nothing happens once it has returned. *)
Fixpoint conn_run (limits : Limits) (evs : list ConnEvent) (decoder : FrameDecoder) : ConnStep :=
  match evs with
  | [] => {| cs_inbound := []; cs_written := []; cs_next := Some decoder |}
  | ev :: evs =>
      let step := conn_step limits ev decoder in
      match cs_next step with
      | None => step
      | Some decoder =>
          let rest := conn_run limits evs decoder in
          {| cs_inbound := cs_inbound step ++ cs_inbound rest;
             cs_written := cs_written step ++ cs_written rest; cs_next := cs_next rest |}
      end
  end.

(** [PeerConnection::spawn] starts with an empty decoder. *)
Definition conn_task (limits : Limits) (evs : list ConnEvent) : ConnStep :=
  conn_run limits evs (FrameDecoder_new limits).
End conn.

Section transport.
Context `{CL : CborLaws} `{NF : !Nfc}.

(** What an iteration that writes puts on the wire. *)
Definition sends_message (ev : ConnEvent) : option Message :=
  match ev_input ev with
  | CN_Tick => Some M_Keepalive
  | CN_Outbound m => m
  | _ => None
  end.

Definition frame_of (m : Message) : Frame := {| frame_type := Message_type m; payload := encode_body m |}.

Lemma encode_frame_of m limits bs : Message_encode m limits = Ok bs → Frame_encode (frame_of m) limits = Ok bs.
Proof. unfold Message_encode, Frame_encode. simpl. destruct (encode_frame _ _ _); [|done]. by intros [= ->]. Qed.

(** A read writes nothing, unless it ends the connection. *)
Lemma frames_step_quiet limits frames takes d writes d' :
  cs_next (frames_step frames takes limits d writes) = Some d' →
  cs_written (frames_step frames takes limits d writes) = [].
Proof.
  revert takes. induction frames as [|f frames IH]; intros takes; [done|]. cbn [frames_step].
  destruct (Message_decode f limits) as [m|e].
  - destruct (inbound_send takes (Some m)) as [arrived [takes'|]]; [|done]. cbn. apply IH.
  - by destruct (inbound_send takes (Some violation)) as [arrived [takes'|]].
Qed.

(** Whatever it has read, a task that is still alive has written what it was
    to write, in order. *)
Lemma alive_wrote limits evs d d' :
  cs_next (conn_run limits evs d) = Some d' →
  encode_all (frame_of <$> omap sends_message evs) limits = Ok (cs_written (conn_run limits evs d)).
Proof.
  revert d. induction evs as [|ev evs IH]; intros d; [done|]. cbn [conn_run].
  destruct (cs_next (conn_step limits ev d)) as [d1|] eqn:E; [|by rewrite E]. cbn [cs_next cs_written]. intros Hd.
  specialize (IH _ Hd).
  assert (Hw : ∀ m, sends_message ev = Some m → Message_encode m limits = Ok (cs_written (conn_step limits ev d))).
  { intros m Hm. revert E. assert (Hs : conn_step limits ev d = write_step m limits d ev).
    { unfold sends_message, conn_step in *. destruct (ev_input ev); simplify_eq; done. }
    rewrite Hs. unfold write_step, encode_write. destruct (Message_encode m limits) as [bs|e]; [|done].
    by destruct (ev_writes ev). }
  csimpl. destruct (sends_message ev) as [m|] eqn:Em.
  - csimpl. rewrite (encode_frame_of _ _ _ (Hw m eq_refl)), IH. done.
  - rewrite IH. f_equal. replace (cs_written (conn_step limits ev d)) with (@nil byte); [done|]. symmetry.
    unfold sends_message, conn_step in *. destruct (ev_input ev) as [|[m|]|bytes|]; try done.
    destruct (read_frames bytes d) as [[[frames|]|e] d2]; try done. by eapply frames_step_quiet.
Qed.

(** A writer that is still alive has written its messages, in order. *)
Lemma writer_wrote limits evs d d' :
  Forall (λ ev, is_Some (sends_message ev)) evs → cs_next (conn_run limits evs d) = Some d' →
  encode_all (frame_of <$> omap sends_message evs) limits = Ok (cs_written (conn_run limits evs d)) ∧
  cs_inbound (conn_run limits evs d) = [] ∧ d' = d.
Proof.
  intros Hev. revert d d'. induction Hev as [|ev evs [m Hm] _ IH]; intros d d'; simpl; [by intros [= ->]|].
  rewrite Hm. csimpl. assert (Hs : conn_step limits ev d = write_step m limits d ev).
  { unfold sends_message, conn_step in *. destruct (ev_input ev); simplify_eq; done. }
  rewrite Hs. unfold write_step, encode_write. destruct (Message_encode m limits) as [bs|e] eqn:E; [|done].
  destruct (ev_writes ev); [|done]. cbn [cs_next cs_inbound cs_written]. intros Hd.
  destruct (IH _ _ Hd) as (H1 & H2 & H3). rewrite (encode_frame_of _ _ _ E), H1. simpl.
  by rewrite H2.
Qed.

(** A reader of frames that decode forwards the messages, in order. *)
Lemma frames_step_decodes limits frames ms d writes :
  Forall2 (λ f m, Message_decode f limits = Ok m) frames ms →
  frames_step frames None limits d writes =
    {| cs_inbound := Some <$> ms; cs_written := []; cs_next := Some d |}.
Proof.
  induction 1 as [|f m frames ms Hf _ IH]; [done|]. cbn [frames_step]. rewrite Hf. cbn [inbound_send].
  by rewrite IH.
Qed.

Definition read_event (bytes : list byte) : ConnEvent :=
  {| ev_input := CN_Read bytes; ev_writes := true; ev_takes := None |}.

Lemma reader_reads limits chunks frames ms d d' :
  Forall (λ c, c ≠ []) chunks → feed_all d chunks = (Ok frames, d') →
  Forall2 (λ f m, Message_decode f limits = Ok m) frames ms →
  conn_run limits (read_event <$> chunks) d =
    {| cs_inbound := Some <$> ms; cs_written := []; cs_next := Some d' |}.
Proof.
  intros Hc. revert d d' frames ms. induction Hc as [|c cs Hne _ IH]; intros d d' frames ms; csimpl.
  { intros [= <- ->] Hf. by apply Forall2_nil_inv_l in Hf as ->. }
  destruct (feed d c) as [[fs|e] d1] eqn:E; [|done].
  destruct (feed_all d1 cs) as [[gs|e] d2] eqn:Ea; [|done]. intros [= <- <-] (ms1 & ms2 & H1 & H2 & ->)%Forall2_app_inv_l.
  destruct c as [|b c]; [done|]. cbn [conn_run].
  unfold conn_step. cbn [ev_input read_event ev_takes ev_writes]. unfold read_frames.
  rewrite E. rewrite (frames_step_decodes _ _ _ _ _ H1).
  cbn [cs_next cs_inbound cs_written]. rewrite (IH _ _ _ _ Ea H2). cbn. by rewrite fmap_app.
Qed.

Definition transmissible (m : Message) : Prop := message_ok m ∧ within_limits m.

Lemma frames_decode ms :
  Forall transmissible ms →
  Forall2 (λ f m, Message_decode f Limits_default = Ok m) (frame_of <$> ms) ms.
Proof. induction 1 as [|m ms [H1 H2] _ IH]; constructor; [by apply decode_encode_body|done]. Qed.

(** C27.  The transport is faithful: what one connection task wrote, without
    failing, for any sequence of well-formed messages within the limits of the decoder
    (a valid nickname in an application, names and ciphertexts of at most 4096 bytes, so
    no chat message of more than 4080, and at most 256 members in a snapshot), cut into
    reads of any sizes, makes the task at the other end forward exactly those messages,
    in order, and leaves its decoder empty; nothing is written back. *)
Theorem transport_faithful evs chunks d :
  Forall (λ ev, is_Some (sends_message ev)) evs →
  Forall transmissible (omap sends_message evs) →
  cs_next (conn_task Limits_default evs) = Some d →
  concat chunks = cs_written (conn_task Limits_default evs) → Forall (λ c, c ≠ []) chunks →
  conn_task Limits_default (read_event <$> chunks) =
    {| cs_inbound := Some <$> omap sends_message evs; cs_written := [];
       cs_next := Some (FrameDecoder_new Limits_default) |}.
Proof.
  intros Hev Hms Hd Hcat Hne. destruct (writer_wrote _ _ _ _ Hev Hd) as (Henc & _ & _).
  unfold conn_task in Hcat. rewrite <-Hcat in Henc.
  assert (Hlim : (max_frame_size Limits_default < u32_limit)%N) by done.
  pose proof (feed_encode_all _ _ _ Hlim Henc) as Hf.
  destruct (feed_all_concat _ chunks (settled_new Limits_default)) as [H1 H2].
  rewrite Hf in H1, H2. specialize (H2 eq_refl).
  eapply reader_reads; [done| |by apply frames_decode].
  destruct (feed_all _ chunks) as [r d']. simpl in *. by subst.
Qed.

(** A frame that does not decode ends the connection whatever follows it: the
    messages before it are forwarded, then the violation, then the teardown marker; the
    violation is the last thing written. *)
Theorem violation_ends_connection limits frames1 frame frames2 ms e bytes d d' ev :
  ev_input ev = CN_Read bytes → ev_takes ev = None → bytes ≠ [] →
  feed d bytes = (Ok (frames1 ++ frame :: frames2), d') →
  Forall2 (λ f m, Message_decode f limits = Ok m) frames1 ms → Message_decode frame limits = Err e →
  ∀ evs, conn_run limits (ev :: evs) d =
    {| cs_inbound := (Some <$> ms) ++ [Some violation; None];
       cs_written := default [] (encode_write (ev_writes ev) violation limits); cs_next := None |}.
Proof.
  intros Hev Ht Hne Hf Hms He evs. cbn [conn_run]. unfold conn_step. rewrite Hev. unfold read_frames.
  destruct bytes as [|b bytes]; [done|]. rewrite Hf, Ht.
  assert (Hs : frames_step (frames1 ++ frame :: frames2) None limits d' (ev_writes ev) =
    {| cs_inbound := (Some <$> ms) ++ [Some violation; None];
       cs_written := default [] (encode_write (ev_writes ev) violation limits); cs_next := None |}).
  { clear Hf. induction Hms as [|f m fs ms' Hfm _ IH]; cbn [app frames_step].
    - by rewrite He.
    - rewrite Hfm. cbn [inbound_send]. by rewrite IH. }
  by rewrite Hs.
Qed.
End transport.

(** * The handle of a connection *)

Definition KEEPALIVE_INTERVAL : Duration := from_secs 30.
Definition OUTBOUND_QUEUE_CAPACITY : nat := 64.
Definition INBOUND_QUEUE_CAPACITY : nat := 64.

(** [PeerConnection]: the messages that wait in its queue, whether the handle
    was dropped, and the decoder of its task while that runs. *)
Record PeerConnection := {
  pc_outbound : list Message;
  pc_dropped : bool;
  pc_task : option FrameDecoder;
}.

Definition PeerConnection_spawn (limits : Limits) : PeerConnection := {|
  pc_outbound := []; pc_dropped := false; pc_task := Some (FrameDecoder_new limits) |}.

(** What [try_send] answers. *)
Definition outbound_answer (p : PeerConnection) : TrySend :=
  match pc_task p with
  | None => TS_Closed
  | Some _ => if (length (pc_outbound p) <? OUTBOUND_QUEUE_CAPACITY)%nat then TS_Sent else TS_Full
  end.

Definition PeerConnection_send (message : Message) (p : PeerConnection) : Result unit PeerSendError * PeerConnection :=
  (peer_send (outbound_answer p),
   match outbound_answer p with
   | TS_Sent => {| pc_outbound := pc_outbound p ++ [message]; pc_dropped := pc_dropped p; pc_task := pc_task p |}
   | _ => p
   end).

(** [Drop]: the task is told to abort, and the queue has no sender any
    more. *)
Definition PeerConnection_drop (p : PeerConnection) : PeerConnection := {|
  pc_outbound := pc_outbound p; pc_dropped := true; pc_task := pc_task p |}.

(** The abort takes effect where the task next waits. *)
Definition peer_aborted (p : PeerConnection) : option PeerConnection :=
  if pc_dropped p then Some {| pc_outbound := pc_outbound p; pc_dropped := true; pc_task := None |} else None.

Section peer.
Context `{Cbor} `{Nfc}.

(** The event an iteration sees: the outbound arm is ready when a message
    waits, or when the queue has ended. *)
Definition peer_event (ev : ConnEvent) (p : PeerConnection) : option (ConnEvent * list Message) :=
  match ev_input ev, pc_outbound p with
  | CN_Outbound _, message :: rest =>
      Some ({| ev_input := CN_Outbound (Some message); ev_writes := ev_writes ev; ev_takes := ev_takes ev |}, rest)
  | CN_Outbound _, [] =>
      if pc_dropped p then Some ({| ev_input := CN_Outbound None; ev_writes := ev_writes ev; ev_takes := ev_takes ev |}, [])
      else None
  | _, waiting => Some (ev, waiting)
  end.

(** An iteration of the task. *)
Definition peer_task (limits : Limits) (ev : ConnEvent) (p : PeerConnection) : option (ConnEvent * PeerConnection) :=
  d ← pc_task p;
  '(seen, waiting) ← peer_event ev p;
  Some (seen, {| pc_outbound := waiting; pc_dropped := pc_dropped p; pc_task := cs_next (conn_step limits seen d) |}).

(** What may have happened to a handle: the messages it took, and the events
    its task saw. *)
Inductive peer_history (limits : Limits) : list Message → list ConnEvent → PeerConnection → Prop :=
| ph_spawn : peer_history limits [] [] (PeerConnection_spawn limits)
| ph_sent ms evs p m p' :
    peer_history limits ms evs p → pc_dropped p = false → PeerConnection_send m p = (Ok tt, p') →
    peer_history limits (ms ++ [m]) evs p'
| ph_task ms evs p ev seen p' :
    peer_history limits ms evs p → peer_task limits ev p = Some (seen, p') → peer_history limits ms (evs ++ [seen]) p'
| ph_drop ms evs p : peer_history limits ms evs p → peer_history limits ms evs (PeerConnection_drop p)
| ph_abort ms evs p p' : peer_history limits ms evs p → peer_aborted p = Some p' → peer_history limits ms evs p'.

(** The messages of the queue that an event takes. *)
Definition taken (ev : ConnEvent) : option Message := match ev_input ev with CN_Outbound m => m | _ => None end.
End peer.

Section handle.
Context `{CL : CborLaws} `{NF : !Nfc}.

Lemma conn_run_snoc limits evs ev d :
  conn_run limits (evs ++ [ev]) d =
    match cs_next (conn_run limits evs d) with
    | None => conn_run limits evs d
    | Some d' => let step := conn_step limits ev d' in
        {| cs_inbound := cs_inbound (conn_run limits evs d) ++ cs_inbound step;
           cs_written := cs_written (conn_run limits evs d) ++ cs_written step; cs_next := cs_next step |}
    end.
Proof.
  revert d. induction evs as [|e evs IH]; intros d; cbn [app conn_run].
  - cbn. destruct (conn_step limits ev d) as [i w [n|]]; cbn; [by rewrite !app_nil_r|done].
  - destruct (cs_next (conn_step limits e d)) as [d1|] eqn:E; [|by rewrite E]. rewrite IH.
    cbn [cs_next cs_inbound cs_written]. destruct (cs_next (conn_run limits evs d1)) eqn:E2; [cbn; by rewrite !app_assoc|by rewrite E2].
Qed.

Record peer_ok (limits : Limits) (ms : list Message) (evs : list ConnEvent) (p : PeerConnection) : Prop := {
  po_queue : omap taken evs ++ pc_outbound p = ms;
  po_bound : length (pc_outbound p) ≤ OUTBOUND_QUEUE_CAPACITY;
  po_task : ∀ d, pc_task p = Some d → cs_next (conn_task limits evs) = Some d;
}.

Lemma peer_history_ok limits ms evs p : peer_history limits ms evs p → peer_ok limits ms evs p.
Proof.
  induction 1 as [|ms evs p m p' _ [Hq Hb Ht] _ Hs|ms evs p ev seen p' _ [Hq Hb Ht] Hs|ms evs p _ [Hq Hb Ht]|ms evs p p' _ [Hq Hb Ht] Hs].
  - constructor; [done|cbn; unfold OUTBOUND_QUEUE_CAPACITY; lia|]. intros d [= <-]. done.
  - unfold PeerConnection_send, outbound_answer in Hs. destruct (pc_task p) as [d0|] eqn:Ed; [|done].
    destruct (Nat.ltb_spec (length (pc_outbound p)) OUTBOUND_QUEUE_CAPACITY); [|done]. injection Hs as <-.
    constructor; cbn; [by rewrite app_assoc, Hq|rewrite length_app; cbn; lia|]. intros d Hd. by apply Ht.
  - unfold peer_task in Hs. destruct (pc_task p) as [d0|] eqn:Ed; [|done]. cbn [mbind option_bind] in Hs.
    destruct (peer_event ev p) as [[sn waiting]|] eqn:Ee; [|done]. injection Hs as <- <-.
    assert (Hw : option_list (taken sn) ++ waiting = pc_outbound p).
    { revert Ee. unfold peer_event, taken.
      destruct (ev_input ev) eqn:Ei, (pc_outbound p) eqn:Eo, (pc_dropped p); try done; intros [= <- <-]; cbn; rewrite ?Ei; done. }
    constructor; cbn [pc_outbound pc_task].
    + rewrite omap_app, <-app_assoc, <-Hq, <-Hw. f_equal.
    + rewrite <-Hw, length_app in Hb. lia.
    + intros d Hd. unfold conn_task. rewrite conn_run_snoc. unfold conn_task in Ht. by rewrite (Ht d0 eq_refl).
  - by constructor.
  - unfold peer_aborted in Hs. destruct (pc_dropped p); [|done]. injection Hs as <-. by constructor.
Qed.

Lemma taken_sent evs : omap taken evs `sublist_of` omap sends_message evs.
Proof.
  induction evs as [|ev evs IH]; [done|]. csimpl. unfold taken, sends_message at 1.
  destruct (ev_input ev) as [|[m|]| |]; [by constructor|by constructor|done..].
Qed.

(** C28.  A connection's queue. The messages the handle took are, in order, those
    its task has taken up and at most 64 that wait; while the task is alive, what it has
    written is the frames of those it took up, with keepalives between them, and nothing
    else. A message is taken exactly while the task lives and has a place. What waits
    when the handle is dropped need not be written any more. *)
Theorem peer_queue_in_order limits ms evs p :
  peer_history limits ms evs p →
  omap taken evs ++ pc_outbound p = ms ∧ length (pc_outbound p) ≤ OUTBOUND_QUEUE_CAPACITY ∧
  (is_Some (pc_task p) →
     encode_all (frame_of <$> omap sends_message evs) limits = Ok (cs_written (conn_task limits evs)) ∧
     omap taken evs `sublist_of` omap sends_message evs) ∧
  (∀ m, (PeerConnection_send m p).1 = Ok tt ↔ is_Some (pc_task p) ∧ length (pc_outbound p) < OUTBOUND_QUEUE_CAPACITY) ∧
  ∃ p', peer_history limits ms evs p' ∧ pc_outbound p' = pc_outbound p ∧ pc_task p' = None.
Proof.
  intros Hh. pose proof (peer_history_ok _ _ _ _ Hh) as [Hq Hb Ht]. split_and!; [done|done| | |].
  - intros [d Hd]. split; [|apply taken_sent]. eapply alive_wrote. by apply Ht.
  - intros m. unfold PeerConnection_send, outbound_answer. cbn [fst]. destruct (pc_task p) as [d|].
    + destruct (Nat.ltb_spec (length (pc_outbound p)) OUTBOUND_QUEUE_CAPACITY); cbn;
        [split; [intros _; split; [by eexists|lia]|done]|split; [done|intros [_ ?]; lia]].
    + split; [done|]. by intros [[? [=]] _].
  - eexists. split; [eapply ph_abort; [by apply ph_drop|reflexivity]|done].
Qed.
End handle.

(** * To the supervisor *)

(** [ClientNetwork]: the handle, and the messages received that nobody has
    taken. [connect] is [connect_via_socks], then this. *)
Record ClientNetwork := { cn_peer : PeerConnection; cn_inbound : list (option Message) }.

Definition ClientNetwork_from_stream (limits : Limits) : ClientNetwork := {|
  cn_peer := PeerConnection_spawn limits; cn_inbound := [] |}.

Definition ClientNetwork_send (message : Message) (n : ClientNetwork) : Result unit PeerSendError * ClientNetwork :=
  let '(r, p) := PeerConnection_send message (cn_peer n) in (r, {| cn_peer := p; cn_inbound := cn_inbound n |}).

(** [recv]: waits while the channel is empty and has a sender; the task
    holds the only one. *)
Definition ClientNetwork_recv (n : ClientNetwork) : option (option (option Message) * ClientNetwork) :=
  match cn_inbound n with
  | message :: rest => Some (Some message, {| cn_peer := cn_peer n; cn_inbound := rest |})
  | [] => match pc_task (cn_peer n) with Some _ => None | None => Some (None, n) end
  end.

Definition ClientNetwork_close (n : ClientNetwork) : ClientNetwork := {|
  cn_peer := PeerConnection_drop (cn_peer n); cn_inbound := cn_inbound n |}.

(** The host's side: each connection's channel, a forwarder that takes its
    messages one at a time, and the channel all forwarders share. *)
Record Inbound := {
  in_local : gmap ConnectionId (list (option Message));
  in_held : gmap ConnectionId (option Message);
  in_shared : list (ConnectionId * option Message);
}.

Inductive InboundStep :=
| IS_Registered (c : ConnectionId)
| IS_Arrives (c : ConnectionId) (item : option Message)
| IS_Takes (c : ConnectionId)
| IS_Forwards (c : ConnectionId)
| IS_Read.

Definition inbound_step (i : InboundStep) (n : Inbound) : option (Inbound * option (ConnectionId * option Message)) :=
  match i with
  | IS_Registered c =>
      match in_local n !! c with
      | Some _ => None
      | None => Some ({| in_local := <[c := []]> (in_local n); in_held := in_held n; in_shared := in_shared n |}, None)
      end
  | IS_Arrives c item =>
      items ← in_local n !! c;
      if (length items <? INBOUND_QUEUE_CAPACITY)%nat then
        Some ({| in_local := <[c := items ++ [item]]> (in_local n); in_held := in_held n; in_shared := in_shared n |}, None)
      else None
  | IS_Takes c =>
      items ← in_local n !! c;
      match in_held n !! c, items with
      | None, item :: rest =>
          Some ({| in_local := <[c := rest]> (in_local n); in_held := <[c := item]> (in_held n); in_shared := in_shared n |}, None)
      | _, _ => None
      end
  | IS_Forwards c =>
      item ← in_held n !! c;
      if (length (in_shared n) <? INBOUND_QUEUE_CAPACITY)%nat then
        Some ({| in_local := in_local n; in_held := delete c (in_held n); in_shared := in_shared n ++ [(c, item)] |}, None)
      else None
  | IS_Read =>
      match in_shared n with
      | [] => None
      | item :: rest => Some ({| in_local := in_local n; in_held := in_held n; in_shared := rest |}, Some item)
      end
  end.

Definition Inbound_new : Inbound := {| in_local := ∅; in_held := ∅; in_shared := [] |}.

(** A run, with what arrived and what the supervisor has read. *)
Inductive inbound_run : list (ConnectionId * option Message) → list (ConnectionId * option Message) → Inbound → Prop :=
| ir_new : inbound_run [] [] Inbound_new
| ir_step arrived read n i n' out :
    inbound_run arrived read n → inbound_step i n = Some (n', out) →
    inbound_run (arrived ++ match i with IS_Arrives c item => [(c, item)] | _ => [] end) (read ++ option_list out) n'.

(** The items of one connection. *)
Definition of_connection (c : ConnectionId) (items : list (ConnectionId * option Message)) : list (option Message) :=
  omap (λ p, if (p.1 =? c)%N then Some p.2 else None) items.

Lemma of_connection_app c l1 l2 : of_connection c (l1 ++ l2) = of_connection c l1 ++ of_connection c l2.
Proof. apply omap_app. Qed.

Lemma of_connection_one c c' item : of_connection c [(c', item)] = if (c' =? c)%N then [item] else [].
Proof. unfold of_connection. cbn. by destruct (c' =? c)%N. Qed.

(** What waits of a connection, oldest first. *)
Definition waiting_of (c : ConnectionId) (n : Inbound) : list (option Message) :=
  of_connection c (in_shared n) ++ option_list (in_held n !! c) ++ default [] (in_local n !! c).

(** What comes in on a connection reaches the supervisor. Whatever the forwarders'
    order and however full the channels are: of each connection, what the supervisor has
    read and what waits for it are exactly what its task has delivered, in order, with
    nothing lost, doubled or taken for another's; each channel holds 64 at most, and a
    message more waits with each forwarder. *)
Theorem inbound_in_order arrived read n :
  inbound_run arrived read n →
  (∀ c, of_connection c read ++ waiting_of c n = of_connection c arrived) ∧
  length (in_shared n) ≤ INBOUND_QUEUE_CAPACITY ∧
  (∀ c items, in_local n !! c = Some items → length items ≤ INBOUND_QUEUE_CAPACITY) ∧
  (∀ c, is_Some (in_held n !! c) → is_Some (in_local n !! c)).
Proof.
  induction 1 as [|arrived read n i n' out _ (Ho & Hs & Hl & Hh) Hstep].
  { split_and!; try done; [cbn; lia|intros c [? Hc]; done]. }
  destruct i as [c|c item|c|c|]; cbn [inbound_step] in Hstep.
  - destruct (in_local n !! c) eqn:E; [done|]. injection Hstep as <- <-. rewrite !app_nil_r. split_and!; try done; cbn [in_shared in_held in_local].
    + intros c'. rewrite <-(Ho c'). unfold waiting_of. cbn [in_shared in_held in_local]. f_equal. f_equal. f_equal.
      destruct (decide (c' = c)) as [->|]; [by rewrite lookup_insert_eq, E|by rewrite lookup_insert_ne].
    + intros c' items. destruct (decide (c' = c)) as [->|]; [rewrite lookup_insert_eq; intros [= <-]; cbn; lia|].
      rewrite lookup_insert_ne by done. apply Hl.
    + intros c' Hc%Hh. destruct (decide (c' = c)) as [->|]; [by rewrite lookup_insert_eq|by rewrite lookup_insert_ne].
  - destruct (in_local n !! c) as [items|] eqn:E; [|done]. cbn [mbind option_bind] in Hstep.
    destruct (Nat.ltb_spec (length items) INBOUND_QUEUE_CAPACITY); [|done]. injection Hstep as <- <-.
    cbn [option_list]. rewrite app_nil_r. split_and!; try done; cbn [in_shared in_held in_local].
    + intros c'. rewrite of_connection_app, of_connection_one, <-(Ho c'). unfold waiting_of. cbn [in_shared in_held in_local]. rewrite <-!app_assoc. do 3 f_equal.
      destruct (N.eqb_spec c c') as [->|]; [by rewrite lookup_insert_eq, E|by rewrite lookup_insert_ne, app_nil_r].
    + intros c' items'. destruct (decide (c' = c)) as [->|]; [|rewrite lookup_insert_ne by done; apply Hl].
      rewrite lookup_insert_eq. intros [= <-]. rewrite length_app. cbn. lia.
    + intros c' Hc%Hh. destruct (decide (c' = c)) as [->|]; [by rewrite lookup_insert_eq|by rewrite lookup_insert_ne].
  - destruct (in_local n !! c) as [items|] eqn:E; [|done]. cbn [mbind option_bind] in Hstep.
    destruct (in_held n !! c) eqn:Eh; [done|]. destruct items as [|item rest]; [done|]. injection Hstep as <- <-.
    rewrite !app_nil_r. split_and!; try done; cbn [in_shared in_held in_local].
    + intros c'. rewrite <-(Ho c'). unfold waiting_of. cbn [in_shared in_held in_local]. do 2 f_equal.
      destruct (decide (c' = c)) as [->|]; [by rewrite !lookup_insert_eq, E, Eh|by rewrite !lookup_insert_ne].
    + intros c' items'. destruct (decide (c' = c)) as [->|]; [|rewrite lookup_insert_ne by done; apply Hl].
      rewrite lookup_insert_eq. intros [= <-]. pose proof (Hl _ _ E). cbn in *. lia.
    + intros c'. destruct (decide (c' = c)) as [->|]; [rewrite !lookup_insert_eq; by eexists|]. rewrite !lookup_insert_ne by done. apply Hh.
  - destruct (in_held n !! c) as [item|] eqn:E; [|done]. cbn [mbind option_bind] in Hstep.
    destruct (Nat.ltb_spec (length (in_shared n)) INBOUND_QUEUE_CAPACITY); [|done]. injection Hstep as <- <-.
    rewrite !app_nil_r. split_and!; try done; cbn [in_shared in_held in_local].
    + intros c'. rewrite <-(Ho c'). unfold waiting_of. cbn [in_shared in_held in_local]. f_equal. rewrite of_connection_app, of_connection_one, <-app_assoc. f_equal.
      destruct (N.eqb_spec c c') as [->|]; [by rewrite lookup_delete_eq, E|by rewrite lookup_delete_ne].
    + rewrite length_app. cbn. lia.
    + intros c'. destruct (decide (c' = c)) as [->|]; [|rewrite lookup_delete_ne by done; apply Hh].
      intros _. apply Hh. by eexists.
  - destruct (in_shared n) as [|[c item] rest] eqn:E; [done|]. injection Hstep as <- <-. rewrite !app_nil_r.
    split_and!; try done.
    + intros c'. rewrite <-(Ho c'), of_connection_app. unfold waiting_of. rewrite E. cbn [in_shared in_held in_local option_list].
      change ((c, item) :: rest) with ([(c, item)] ++ rest). by rewrite of_connection_app, <-!app_assoc.
    + cbn [in_shared]. cbn [length] in Hs. lia.
Qed.
