(* ===== verification/RoomTypes.v ===== *)
(** The typed inputs and outputs of the room: [src/event.rs],
    [src/room/action.rs], the error types of [src/chat/mod.rs] and
    [src/room/actor.rs]. *)
From Stdlib Require Import Strings.String.
From S2P Require Export Messages Members Connections Queue.

(** * Events *)

Inductive MemberRef :=
| MR_Id (id : MemberId)
| MR_Nickname (nickname : rstring).

Inductive HostCommand :=
| HC_Kick (target : MemberRef)
| HC_NewId
| HC_ReqOn
| HC_ReqOff
| HC_Requests
| HC_Accept (request_id : RequestId)
| HC_Reject (request_id : RequestId).

Inductive MemberCommand :=
| MCmd_Leave
| MCmd_Color (color : ColorChoice)
| MCmd_List
| MCmd_Whois (target : rstring).

Inductive RoomEvent :=
| EV_ClientConnected (connection : ConnectionId)
| EV_PasswordVerified (connection : ConnectionId)
| EV_JoinRequested (connection : ConnectionId) (nickname : rstring)
    (introduction : option rstring) (ed25519_pubkey x25519_pubkey signature : list byte)
| EV_HostAccepted (request_id : RequestId)
| EV_HostRejected (request_id : RequestId)
| EV_ChatReceived (connection : ConnectionId) (message_type : u8) (envelope : EncryptedEnvelope)
| EV_MemberLeft (member : MemberId)
| EV_ConnectionLost (connection : ConnectionId)
| EV_HostCommand (command : HostCommand)
| EV_MemberCommand (connection : ConnectionId) (command : MemberCommand)
| EV_EpochAck (connection : ConnectionId) (epoch : u64)
| EV_CloseRequested
| EV_TimeoutExpired (connection : ConnectionId) (kind : TimeoutKind)
| EV_EpochMaintenance
| EV_TorStopped.

(** * Actions *)

Record RequestInfo := {
  ri_request_id : RequestId;
  ri_connection : ConnectionId;
  ri_nickname : rstring;
  ri_introduction : option rstring;
}.

Record TimeoutRequestInfo := {
  ti_request_id : RequestId;
  ti_member_id : MemberId;
  ti_nickname : rstring;
  ti_seconds : u64;
}.

Inductive HostNotice :=
| HN_JoinRequestPending (request_id : RequestId) (connection : ConnectionId)
    (nickname : rstring) (introduction : option rstring)
| HN_JoinRequestWithdrawn (request_id : RequestId)
| HN_TimeoutRequestPending (request_id : RequestId) (member_id : MemberId)
    (nickname : rstring) (seconds : u64)
| HN_TimeoutRequestAccepted (request_id : RequestId) (seconds : u64)
| HN_TimeoutRequestRejected (request_id : RequestId)
| HN_TimeoutRebroadcast (seconds : u64)
| HN_MemberJoined (member_id : MemberId) (nickname : rstring)
| HN_MemberLeft (member_id : MemberId) (nickname : rstring)
| HN_MemberKicked (member_id : MemberId) (nickname : rstring)
| HN_JoinPolicyChanged (policy : JoinPolicy)
| HN_InvitationRotated (token : list byte)
| HN_RequestsSnapshot (join_requests : list RequestInfo)
    (timeout_requests : list TimeoutRequestInfo)
| HN_ListSnapshot (members : list MemberInfo)
| HN_WhoisResult (member : MemberInfo)
| HN_RoomClosed
| HN_Error (message : rstring).

Inductive RoomAction :=
| SendTo (connection : ConnectionId) (message : Message)
| CloseConnection (connection : ConnectionId)
| NotifyHost (notice : HostNotice).

(** * Errors *)

Inductive ChatError :=
| CE_NoEpochKey
| CE_OldEpoch (found current : u64)
| CE_UnknownSender (sender_id : u64)
| CE_ReplayRejected (sender_id sequence : u64)
| CE_InvalidSignature
| CE_InvalidCiphertext
| CE_InvalidPlaintext (detail : rstring)
| CE_UnknownColor (index : u8).

Inductive RoomError :=
| RE_Queue (e : QueueError)
| RE_Member (e : MemberError)
| RE_UnknownRequest (id : RequestId)
| RE_UnknownMember (target : MemberRef)
| RE_UnknownConnection (connection : ConnectionId)
| RE_HostCannotLeave
| RE_CannotKickHost
| RE_EmptyMemberRef
| RE_PolicyLocked
| RE_NotAMember (connection : ConnectionId)
| RE_RoomClosed
| RE_EpochTransitionInProgress
| RE_OldEpoch (found current : u64)
| RE_ReplayRejected (sender sequence : u64)
| RE_Chat (e : ChatError)
| RE_UnknownColor (index : u8)
| RE_UnsupportedEvent
| RE_InvalidNickname (e : ValidationError)
| RE_Protocol (e : ProtocolError)
| RE_Crypto (e : CryptoError).

Definition is_transient (self : RoomError) : bool :=
  match self with RE_EpochTransitionInProgress => true | _ => false end.

(** [Display] of [ValidationError]. *)
Definition ValidationError_to_string (e : ValidationError) : rstring :=
  match e with
  | EmptyNickname => lit "nickname must not be empty"
  | ControlCharacterNotAllowed =>
      lit "input contains control characters or ANSI escape sequences"
  | NicknameTooLong max =>
      lit "nickname exceeds the limit of " ++ display_N max ++ lit " Unicode scalar values"
  | ExoticWhitespaceNotAllowed =>
      lit "nickname must not contain whitespace other than a plain space"
  | NotSingleLine => lit "introduction must be a single line"
  | IntroTooLong max =>
      lit "introduction exceeds the limit of " ++ display_N max ++ lit " Unicode scalar values"
  | ChatTextTooLong max_bytes =>
      lit "chat message exceeds the limit of " ++ display_N max_bytes ++ lit " UTF-8 bytes"
  end.

(** * Wire numbers

    The message types of the encrypted and the signed messages, which the
    actor and the client session both use. *)

Definition MSG_CHAT : u8 := 0x40.
Definition MSG_COLOR : u8 := 0x41.
Definition MSG_TIMEOUT_REQUEST : u8 := 0x42.
Definition MSG_TIMEOUT_CHANGED : u8 := 0x43.
Definition MSG_MEMBER_JOINED : u8 := 0x20.
Definition MSG_MEMBER_LEFT : u8 := 0x21.
Definition MSG_MEMBER_KICKED : u8 := 0x22.
Definition MSG_JOIN_POLICY_CHANGED : u8 := 0x23.
Definition MSG_MEMBER_SNAPSHOT : u8 := 0x24.

(** [src/command.rs]. *)
Definition MAX_MESSAGE_TIMEOUT_SECONDS : u64 := 3600.

Definition timeout_in_range (seconds : u64) : bool :=
  (1 <=? seconds)%N && (seconds <=? MAX_MESSAGE_TIMEOUT_SECONDS)%N.

(** The connections an action list sends to, and the messages it sends. *)
Definition sends (actions : list RoomAction) : list (ConnectionId * Message) :=
  omap (λ a, match a with SendTo c m => Some (c, m) | _ => None end) actions.

Definition closes (actions : list RoomAction) : list ConnectionId :=
  omap (λ a, match a with CloseConnection c => Some c | _ => None end) actions.

Lemma sends_app l1 l2 : sends (l1 ++ l2) = sends l1 ++ sends l2.
Proof. apply omap_app. Qed.

Lemma closes_app l1 l2 : closes (l1 ++ l2) = closes l1 ++ closes l2.
Proof. apply omap_app. Qed.

#[export] Hint Rewrite sends_app closes_app : veil.
