(* ===== verification/Commands.v ===== *)
(** [src/command.rs]: the parser of the lines a user types.

    The rest of the file's data, the colors, is in [Ids]. The theorems give
    the language: what each command looks like, that the parser reads it
    back, and that a line becomes chat exactly when it is no command. *)
From Stdlib Require Import Strings.String.
From S2P Require Export RoomTypes StrOps.
Local Open Scope result_scope.

(** * Data *)

Inductive KickTarget := KT_Id (id : MemberId) | KT_Nickname (nickname : rstring).

Inductive SlashCommand :=
| SC_Help
| SC_Exit
| SC_Leave
| SC_Color (color : ColorChoice)
| SC_ColorList
| SC_List
| SC_Whois (target : rstring)
| SC_Kick (target : KickTarget)
| SC_NewId
| SC_ReqOn
| SC_ReqOff
| SC_Requests
| SC_Accept (request_id : RequestId)
| SC_Reject (request_id : RequestId)
| SC_Copy
| SC_Clear
| SC_Timeout (seconds : option u64)
| SC_TimeoutRequest (seconds : u64).

Inductive ParsedLine := PL_Command (command : SlashCommand) | PL_Chat (text : rstring).

Inductive CommandError :=
| CE_EmptyLine
| CE_UnknownCommand (name : rstring)
| CE_MissingArgument (command : rstring)
| CE_UnexpectedArgument (command arg : rstring)
| CE_InvalidArgument (command detail : rstring)
| CE_ControlCharacterNotAllowed (command : rstring).

Definition ColorChoice_name (c : ColorChoice) : rstring :=
  match c with
  | Red => lit "red"
  | Green => lit "green"
  | Yellow => lit "yellow"
  | Blue => lit "blue"
  | Magenta => lit "magenta"
  | Cyan => lit "cyan"
  | White => lit "white"
  end.

(** * Arguments *)

(** Equality with a literal of the source. *)
Definition is_lit (text : rstring) (s : string) : bool := bool_decide (text = lit s).

Definition no_args (name args : rstring) (command : SlashCommand) : Result SlashCommand CommandError :=
  if negb (non_empty args) then Ok command else Err (CE_UnexpectedArgument name args).

(** [parse_simple_arg]; [parse_color] and [parse_timeout] open with the same
    two checks. *)
Definition parse_simple_arg (command args : rstring) : Result rstring CommandError :=
  if negb (non_empty args) then Err (CE_MissingArgument command)
  else if contains_control_char args then Err (CE_ControlCharacterNotAllowed command)
  else Ok args.

Definition backquoted (s : rstring) : rstring := lit "`" ++ s ++ lit "`".

Definition parse_color (args : rstring) : Result ColorChoice CommandError :=
  let? args := parse_simple_arg (lit "color") args in
  if is_lit args "red" then Ok Red
  else if is_lit args "green" then Ok Green
  else if is_lit args "yellow" then Ok Yellow
  else if is_lit args "blue" then Ok Blue
  else if is_lit args "magenta" then Ok Magenta
  else if is_lit args "cyan" then Ok Cyan
  else if is_lit args "white" then Ok White
  else Err (CE_InvalidArgument (lit "color") (lit "unknown color " ++ backquoted args)).

Definition parse_timeout (args : rstring) : Result (option u64) CommandError :=
  let? args := parse_simple_arg (lit "timeout") args in
  if is_lit args "off" then Ok None else
  match parse_uint u64_limit args with
  | None => Err (CE_InvalidArgument (lit "timeout")
      (lit "expected a positive number of seconds or `off`, got " ++ backquoted args))
  | Some seconds =>
      if (seconds =? 0)%N then
        Err (CE_InvalidArgument (lit "timeout") (lit "the message lifetime must be at least 1 second"))
      else if (MAX_MESSAGE_TIMEOUT_SECONDS <? seconds)%N then
        Err (CE_InvalidArgument (lit "timeout") (lit "the message lifetime may not exceed "
          ++ display_N MAX_MESSAGE_TIMEOUT_SECONDS ++ lit " seconds"))
      else Ok (Some seconds)
  end.

Definition retarget (error : CommandError) : CommandError :=
  match error with
  | CE_MissingArgument _ => CE_MissingArgument (lit "timeoutreq")
  | CE_ControlCharacterNotAllowed _ => CE_ControlCharacterNotAllowed (lit "timeoutreq")
  | CE_InvalidArgument _ detail => CE_InvalidArgument (lit "timeoutreq") detail
  | other => other
  end.

Definition parse_timeout_request (args : rstring) : Result u64 CommandError :=
  match parse_timeout args with
  | Err error => Err (retarget error)
  | Ok (Some seconds) => Ok seconds
  | Ok None => Err (CE_InvalidArgument (lit "timeoutreq")
      (lit "members must request a positive number of seconds"))
  end.

Definition parse_kick_target (args : rstring) : Result KickTarget CommandError :=
  let? arg := parse_simple_arg (lit "kick") args in
  if all_digits arg then
    match parse_uint u64_limit arg with
    | None => Err (CE_InvalidArgument (lit "kick") (lit "invalid member id " ++ backquoted arg))
    | Some id => Ok (KT_Id id)
    end
  else Ok (KT_Nickname arg).

Definition parse_request_id (command args : rstring) : Result RequestId CommandError :=
  let? arg := parse_simple_arg command args in
  if negb (all_digits arg) then
    Err (CE_InvalidArgument command (lit "expected a numeric request id, got " ++ backquoted arg))
  else match parse_uint u64_limit arg with
       | None => Err (CE_InvalidArgument command (lit "invalid request id " ++ backquoted arg))
       | Some id => Ok id
       end.

(** * Lines *)

(** The [match name]. *)
Definition parse_command (name args : rstring) : Result SlashCommand CommandError :=
  let bare s c := no_args (lit s) args c in
  if is_lit name "help" then bare "help"%string SC_Help
  else if is_lit name "exit" then bare "exit"%string SC_Exit
  else if is_lit name "leave" then bare "leave"%string SC_Leave
  else if is_lit name "list" then bare "list"%string SC_List
  else if is_lit name "newid" then bare "newid"%string SC_NewId
  else if is_lit name "reqon" then bare "reqon"%string SC_ReqOn
  else if is_lit name "reqoff" then bare "reqoff"%string SC_ReqOff
  else if is_lit name "requests" then bare "requests"%string SC_Requests
  else if is_lit name "copy" then bare "copy"%string SC_Copy
  else if is_lit name "clear" then bare "clear"%string SC_Clear
  else if is_lit name "color" then
    if is_lit args "list" then Ok SC_ColorList
    else let? c := parse_color args in Ok (SC_Color c)
  else if is_lit name "timeout" then let? t := parse_timeout args in Ok (SC_Timeout t)
  else if is_lit name "timeoutreq" then let? t := parse_timeout_request args in Ok (SC_TimeoutRequest t)
  else if is_lit name "whois" then let? m := parse_simple_arg (lit "whois") args in Ok (SC_Whois m)
  else if is_lit name "kick" then let? t := parse_kick_target args in Ok (SC_Kick t)
  else if is_lit name "accept" then let? i := parse_request_id (lit "accept") args in Ok (SC_Accept i)
  else if is_lit name "reject" then let? i := parse_request_id (lit "reject") args in Ok (SC_Reject i)
  else Err (CE_UnknownCommand name).

Definition starts_with_whitespace (s : rstring) : bool :=
  match s with c :: _ => is_whitespace c | [] => false end.

(** The name of a command and its arguments. *)
Definition split_command (rest : rstring) : rstring * rstring :=
  let trimmed := trim_start rest in
  match split_whitespace trimmed with
  | Some (name, tail) => (name, trim_start tail)
  | None => (trimmed, [])
  end.

Definition parse_line (line : rstring) : Result ParsedLine CommandError :=
  if negb (non_empty line) then Err CE_EmptyLine else
  match strip_prefix (lit "//") line with
  | Some rest => Ok (PL_Chat (lit "/" ++ rest))
  | None =>
      match strip_prefix (lit "/") line with
      | None => Ok (PL_Chat line)
      | Some rest =>
          if starts_with_whitespace rest then Ok (PL_Chat line) else
          let '(name, args) := split_command rest in
          let? command := parse_command name args in
          Ok (PL_Command command)
      end
  end.

(** * To the room *)

Definition MemberRef_from (target : KickTarget) : MemberRef :=
  match target with KT_Id id => MR_Id id | KT_Nickname nickname => MR_Nickname nickname end.

Definition into_host_command (self : SlashCommand) : option HostCommand :=
  match self with
  | SC_Kick target => Some (HC_Kick (MemberRef_from target))
  | SC_NewId => Some HC_NewId
  | SC_ReqOn => Some HC_ReqOn
  | SC_ReqOff => Some HC_ReqOff
  | SC_Requests => Some HC_Requests
  | SC_Accept request_id => Some (HC_Accept request_id)
  | SC_Reject request_id => Some (HC_Reject request_id)
  | _ => None
  end.

Definition into_member_command (self : SlashCommand) : option MemberCommand :=
  match self with
  | SC_Leave => Some MCmd_Leave
  | SC_Color color => Some (MCmd_Color color)
  | SC_List => Some MCmd_List
  | SC_Whois target => Some (MCmd_Whois target)
  | _ => None
  end.

(** * The language of commands *)

(** An argument as it reaches a command: not empty, without a leading
    whitespace and without control characters. *)
Definition argument_ok (s : rstring) : Prop :=
  s ≠ [] ∧ starts_with_whitespace s = false ∧ contains_control_char s = false.

(** The commands a user can express. *)
Definition command_ok (c : SlashCommand) : Prop :=
  match c with
  | SC_Whois target => argument_ok target
  | SC_Kick (KT_Id id) | SC_Accept id | SC_Reject id => (id < u64_limit)%N
  | SC_Kick (KT_Nickname nickname) => argument_ok nickname ∧ all_digits nickname = false
  | SC_Timeout (Some seconds) | SC_TimeoutRequest seconds =>
      (1 <= seconds <= MAX_MESSAGE_TIMEOUT_SECONDS)%N
  | _ => True
  end.

(** How a command is written: its name and its argument. *)
Definition spelling (c : SlashCommand) : rstring * rstring :=
  match c with
  | SC_Help => (lit "help", [])
  | SC_Exit => (lit "exit", [])
  | SC_Leave => (lit "leave", [])
  | SC_Color color => (lit "color", ColorChoice_name color)
  | SC_ColorList => (lit "color", lit "list")
  | SC_List => (lit "list", [])
  | SC_Whois target => (lit "whois", target)
  | SC_Kick (KT_Id id) => (lit "kick", display_N id)
  | SC_Kick (KT_Nickname nickname) => (lit "kick", nickname)
  | SC_NewId => (lit "newid", [])
  | SC_ReqOn => (lit "reqon", [])
  | SC_ReqOff => (lit "reqoff", [])
  | SC_Requests => (lit "requests", [])
  | SC_Accept id => (lit "accept", display_N id)
  | SC_Reject id => (lit "reject", display_N id)
  | SC_Copy => (lit "copy", [])
  | SC_Clear => (lit "clear", [])
  | SC_Timeout None => (lit "timeout", lit "off")
  | SC_Timeout (Some seconds) => (lit "timeout", display_N seconds)
  | SC_TimeoutRequest seconds => (lit "timeoutreq", display_N seconds)
  end.

Definition written (c : SlashCommand) : rstring :=
  let '(name, args) := spelling c in
  lit "/" ++ name ++ match args with [] => [] | _ => lit " " ++ args end.

Lemma parse_simple_arg_Ok command args a :
  parse_simple_arg command args = Ok a →
  a = args ∧ args ≠ [] ∧ contains_control_char args = false.
Proof.
  unfold parse_simple_arg. destruct args; [done|]. simpl negb. cbv iota.
  destruct (contains_control_char _); [done|]. by intros [= <-].
Qed.

Lemma parse_simple_arg_ok command s :
  s ≠ [] → contains_control_char s = false → parse_simple_arg command s = Ok s.
Proof. unfold parse_simple_arg. destruct s; [done|]. by intros _ ->. Qed.

Lemma digits_no_control s : all_digits s = true → contains_control_char s = false.
Proof.
  unfold all_digits, contains_control_char. induction s as [|c s IH]; [done|]. simpl.
  intros [Hc%in_range_true Hs]%andb_true_iff. rewrite IH, orb_false_r by done.
  unfold is_unsafe_display_char, is_control, is_dangerous_format_char, in_range.
  rewrite !orb_false_iff, !andb_false_iff, !N.leb_gt, N.eqb_neq. lia.
Qed.

Lemma digits_no_whitespace s : all_digits s = true → starts_with_whitespace s = false.
Proof.
  destruct s as [|c s]; [done|]. simpl. intros [Hc%in_range_true _]%andb_true_iff.
  unfold is_whitespace, in_range. rewrite !orb_false_iff, !andb_false_iff, !N.leb_gt, !N.eqb_neq. lia.
Qed.

Lemma parse_timeout_Ok args t :
  parse_timeout args = Ok t → ∀ s, t = Some s → (1 <= s <= MAX_MESSAGE_TIMEOUT_SECONDS)%N.
Proof.
  unfold parse_timeout. intros (a & _ & H)%result_bind_Ok. destruct (is_lit a _); [by injection H as <-|].
  destruct (parse_uint _ a) as [n|]; [|done]. destruct (N.eqb_spec n 0); [done|].
  destruct (N.ltb_spec MAX_MESSAGE_TIMEOUT_SECONDS n); [done|]. injection H as <-. intros s [= ->]. lia.
Qed.

Lemma parse_request_id_Ok command args i : parse_request_id command args = Ok i → (i < u64_limit)%N.
Proof.
  unfold parse_request_id. intros (a & _ & H)%result_bind_Ok. destruct (negb (all_digits a)); [done|].
  destruct (parse_uint u64_limit a) as [n|] eqn:E; [|done]. injection H as ->. by eapply parse_uint_lt.
Qed.

Lemma parse_kick_target_Ok args t :
  starts_with_whitespace args = false → parse_kick_target args = Ok t → command_ok (SC_Kick t).
Proof.
  unfold parse_kick_target. intros Hw (a & (-> & Hne & Hc)%parse_simple_arg_Ok & H)%result_bind_Ok.
  destruct (all_digits args) eqn:Ed; [|injection H as <-; by repeat split].
  destruct (parse_uint u64_limit args) as [n|] eqn:E; [|done]. injection H as <-. by eapply parse_uint_lt.
Qed.

Lemma parse_command_ok name args c :
  starts_with_whitespace args = false → parse_command name args = Ok c → command_ok c.
Proof.
  intros Hw. unfold parse_command, no_args. cbv beta zeta.
  repeat lazymatch goal with
  | |- (if is_lit name _ then _ else _) = _ → _ => destruct (is_lit name _)
  end; try (destruct (negb (non_empty args)); by intros [= <-]).
  - destruct (is_lit args "list"); [by intros [= <-]|]. by intros (? & _ & [= <-])%result_bind_Ok.
  - intros (t & Ht & [= <-])%result_bind_Ok. destruct t as [s|]; [|done]. by eapply parse_timeout_Ok.
  - intros (t & Ht & [= <-])%result_bind_Ok. unfold parse_timeout_request in Ht.
    destruct (parse_timeout args) as [[s|]|] eqn:E; [|done..]. injection Ht as <-. by eapply parse_timeout_Ok.
  - by intros (m & (-> & ? & ?)%parse_simple_arg_Ok & [= <-])%result_bind_Ok.
  - intros (t & Ht & [= <-])%result_bind_Ok. by eapply parse_kick_target_Ok.
  - intros (i & Hi & [= <-])%result_bind_Ok. by eapply parse_request_id_Ok.
  - intros (i & Hi & [= <-])%result_bind_Ok. by eapply parse_request_id_Ok.
Qed.

Lemma trim_start_clean s : starts_with_whitespace (trim_start s) = false.
Proof. induction s as [|c s IH]; [done|]. cbn [trim_start]. destruct (is_whitespace c) eqn:E; [done|]. by simpl. Qed.

Lemma trim_start_id s : starts_with_whitespace s = false → trim_start s = s.
Proof. destruct s as [|c s]; [done|]. simpl. by intros ->. Qed.

Lemma split_command_args rest name args : split_command rest = (name, args) → starts_with_whitespace args = false.
Proof.
  unfold split_command. destruct (split_whitespace _) as [[n tail]|]; intros [= <- <-]; [apply trim_start_clean|done].
Qed.

(** Every command the parser returns is one a user can express: ids are
    64-bit, lifetimes within their bounds, names and nicknames are clean, and
    an all-digit kick target is an id. *)
Theorem parsed_command_ok line c : parse_line line = Ok (PL_Command c) → command_ok c.
Proof.
  unfold parse_line. destruct (negb _); [done|]. destruct (strip_prefix (lit "//") line); [done|].
  destruct (strip_prefix (lit "/") line) as [rest|]; [|done]. destruct (starts_with_whitespace rest); [done|].
  destruct (split_command rest) as [name args] eqn:E. intros (c' & Hc & [= <-])%result_bind_Ok.
  eapply parse_command_ok; [|exact Hc]. by eapply split_command_args.
Qed.

Lemma split_whitespace_none s : Forall (λ c, is_whitespace c = false) s → split_whitespace s = None.
Proof. induction 1 as [|c s Hc _ IH]; [done|]. simpl. by rewrite Hc, IH. Qed.

Lemma split_whitespace_app l c r :
  Forall (λ c, is_whitespace c = false) l → is_whitespace c = true →
  split_whitespace (l ++ c :: r) = Some (l, c :: r).
Proof. intros Hl Hc. induction Hl as [|d l Hd _ IH]; simpl; [by rewrite Hc|]. by rewrite Hd, IH. Qed.

Lemma clean_start s : Forall (λ c, is_whitespace c = false) s → starts_with_whitespace s = false.
Proof. by destruct 1. Qed.

(** A name and an argument are split as they were joined. *)
Lemma split_command_joined name args :
  Forall (λ c, is_whitespace c = false) name → name ≠ [] → starts_with_whitespace args = false →
  split_command (name ++ match args with [] => [] | _ => lit " " ++ args end) = (name, args).
Proof.
  intros Hn Hne Ha. unfold split_command. destruct args as [|a args].
  - rewrite app_nil_r, trim_start_id by (by apply clean_start). by rewrite split_whitespace_none.
  - change (lit " " ++ a :: args) with (32%N :: a :: args).
    rewrite trim_start_id, split_whitespace_app; [|done..|by destruct Hn].
    f_equal. change (trim_start (32%N :: a :: args)) with (trim_start (a :: args)). by apply trim_start_id.
Qed.

Definition command_name (n : rstring) : Prop := Forall (λ c, is_whitespace c = false ∧ c ≠ 47%N) n ∧ n ≠ [].

#[export] Instance command_name_dec n : Decision (command_name n).
Proof. apply _. Defined.

Lemma parse_line_joined name args :
  command_name name → starts_with_whitespace args = false →
  parse_line (lit "/" ++ name ++ match args with [] => [] | _ => lit " " ++ args end) =
    let? command := parse_command name args in Ok (PL_Command command).
Proof.
  intros [Hn Hne] Ha. assert (Hw : Forall (λ c, is_whitespace c = false) name).
  { refine (Forall_impl _ _ Hn). tauto. }
  unfold parse_line. pose proof (split_command_joined name args Hw Hne Ha) as Hs.
  assert (Hc : match name with c :: _ => is_whitespace c = false ∧ (47 =? c)%N = false | [] => False end).
  { destruct name as [|c name]; [done|]. apply Forall_inv in Hn as [? Hc]. by rewrite N.eqb_neq. }
  revert Hs. set (tail := match args with [] => _ | _ => _ end). clearbody tail.
  destruct name as [|c name]; [done|]. destruct Hc as [Hcw Hcs].
  change (strip_prefix (lit "//") (lit "/" ++ (c :: name) ++ tail))
    with (if (47 =? c)%N then Some (name ++ tail) else None).
  change (strip_prefix (lit "/") (lit "/" ++ (c :: name) ++ tail)) with (Some ((c :: name) ++ tail)).
  rewrite Hcs. cbn [negb non_empty lit app starts_with_whitespace]. rewrite Hcw.
  by intros ->.
Qed.

Lemma spelling_ok c :
  command_ok c → command_name (spelling c).1 ∧ starts_with_whitespace (spelling c).2 = false.
Proof.
  intros Hc. split; [destruct c as [| | | | | | |[]| | | | | | | | |[]|]; by_compute|].
  destruct c as [| | |[]| | | |[]| | | | | | | | |[]|]; try reflexivity;
    try (apply digits_no_whitespace, display_digits); [apply Hc|apply Hc].
Qed.

(** Reading back a printed number. *)
Lemma display_argument command n : parse_simple_arg command (display_N n) = Ok (display_N n).
Proof. apply parse_simple_arg_ok; [apply display_not_nil|apply digits_no_control, display_digits]. Qed.

Lemma parse_request_id_display command i : (i < u64_limit)%N → parse_request_id command (display_N i) = Ok i.
Proof.
  intros Hi. unfold parse_request_id. rewrite display_argument. cbn [result_bind].
  by rewrite display_digits, parse_display.
Qed.

Lemma parse_kick_target_spelling t :
  command_ok (SC_Kick t) → parse_kick_target (spelling (SC_Kick t)).2 = Ok t.
Proof.
  unfold parse_kick_target. destruct t as [id|nickname]; cbn [command_ok spelling snd].
  - intros Hi. rewrite display_argument. cbn [result_bind]. by rewrite display_digits, parse_display.
  - intros [(Hne & _ & Hc) Hd]. rewrite parse_simple_arg_ok by done. cbn [result_bind]. by rewrite Hd.
Qed.

Lemma parse_timeout_display s :
  (1 <= s <= MAX_MESSAGE_TIMEOUT_SECONDS)%N → parse_timeout (display_N s) = Ok (Some s).
Proof.
  intros Hs. unfold parse_timeout. rewrite display_argument. cbn [result_bind].
  assert (is_lit (display_N s) "off" = false) as ->.
  { apply bool_decide_eq_false. intros E. pose proof (display_digits s) as Hd. by rewrite E in Hd. }
  rewrite parse_display by (unfold MAX_MESSAGE_TIMEOUT_SECONDS, u64_limit in *; lia).
  rewrite (proj2 (N.eqb_neq s 0)) by lia. by rewrite (proj2 (N.ltb_ge _ _)) by lia.
Qed.

Lemma parse_command_spelling c : command_ok c → parse_command (spelling c).1 (spelling c).2 = Ok c.
Proof.
  intros Hc. destruct c as [| | |[]| | |target|t| | | | |i|i| | |[s|]|s]; try reflexivity; cbn [spelling fst snd].
  - change (result_bind (parse_simple_arg (lit "whois") target) (λ m, Ok (SC_Whois m)) = Ok (SC_Whois target)).
    destruct Hc as (Hne & _ & Hc). by rewrite parse_simple_arg_ok.
  - pose proof (parse_kick_target_spelling t Hc) as Hk.
    transitivity (result_bind (parse_kick_target (spelling (SC_Kick t)).2) (λ t, Ok (SC_Kick t)));
      [by destruct t|by rewrite Hk].
  - change (result_bind (parse_request_id (lit "accept") (display_N i)) (λ i, Ok (SC_Accept i)) = Ok (SC_Accept i)).
    by rewrite parse_request_id_display.
  - change (result_bind (parse_request_id (lit "reject") (display_N i)) (λ i, Ok (SC_Reject i)) = Ok (SC_Reject i)).
    by rewrite parse_request_id_display.
  - change (result_bind (parse_timeout (display_N s)) (λ t, Ok (SC_Timeout t)) = Ok (SC_Timeout (Some s))).
    by rewrite parse_timeout_display.
  - change (result_bind (parse_timeout_request (display_N s)) (λ t, Ok (SC_TimeoutRequest t))
      = Ok (SC_TimeoutRequest s)).
    unfold parse_timeout_request. by rewrite parse_timeout_display.
Qed.

(** C35.  Commands can be typed: what is written for one, name and argument, the
    parser reads back as the command, for all ids of 64 bits, all colors, and all
    lifetimes from one second to an hour, or none; and for all nicknames and members to
    look up that are not empty and hold no leading whitespace and no control character,
    except that a nickname to kick may not consist of digits only, which is read as an
    id. *)
Theorem command_roundtrip c : command_ok c → parse_line (written c) = Ok (PL_Command c).
Proof.
  intros Hc. destruct (spelling_ok c Hc) as [Hn Ha]. unfold written.
  rewrite (surjective_pairing (spelling c)), parse_line_joined, parse_command_spelling; done.
Qed.

(** The line that sends a text as chat: a leading slash is doubled. *)
Definition escaped (text : rstring) : rstring :=
  match strip_prefix (lit "/") text with Some _ => lit "/" ++ text | None => text end.

Lemma strip_slash line :
  strip_prefix (lit "/") line = match line with c :: rest => if (47 =? c)%N then Some rest else None | [] => None end.
Proof. destruct line as [|c rest]; [done|]. change (lit "/") with [47%N]. cbn [strip_prefix]. by destruct rest. Qed.

Lemma strip_slashes line :
  strip_prefix (lit "//") line =
    match strip_prefix (lit "/") line with Some rest => strip_prefix (lit "/") rest | None => None end.
Proof. rewrite strip_slash. change (lit "//") with [47%N; 47%N]. destruct line as [|c rest]; [done|].
  change (lit "/") with [47%N]. cbn [strip_prefix]. by destruct (47 =? c)%N. Qed.

(** What becomes chat: a line with two leading slashes, without the first, and
    a line that starts with no slash or with a slash and a whitespace, as it is; nothing
    else, an unknown or malformed command never; and every text can be sent. *)
Theorem parse_line_chat line text :
  (parse_line line = Ok (PL_Chat text) ↔
    (∃ rest, line = lit "//" ++ rest ∧ text = lit "/" ++ rest)
    ∨ text = line ∧ line ≠ [] ∧ strip_prefix (lit "/") line = None
    ∨ text = line ∧ ∃ rest, line = lit "/" ++ rest ∧ starts_with_whitespace rest = true)
  ∧ (text = [] ∨ parse_line (escaped text) = Ok (PL_Chat text)).
Proof.
  split.
  - unfold parse_line. split.
    + destruct line as [|c line]; [done|]. cbn [negb non_empty].
      destruct (strip_prefix (lit "//") _) as [rest|] eqn:E; [apply strip_prefix_Some in E; intros [= <-]; eauto|].
      destruct (strip_prefix (lit "/") _) as [rest|] eqn:E'; [|intros [= <-]; by right; left].
      destruct (starts_with_whitespace rest) eqn:Ew.
      { intros [= <-]. right; right. split; [done|]. exists rest. split; [by apply strip_prefix_Some in E'|done]. }
      destruct (split_command rest) as [name args]. by intros (? & _ & ?)%result_bind_Ok.
    + intros [(rest & -> & ->)|[(-> & Hne & Hs)|(-> & rest & -> & Hw)]].
      * by rewrite strip_prefix_app.
      * destruct line as [|c line]; [done|]. cbn [negb non_empty]. by rewrite strip_slashes, Hs.
      * rewrite strip_slashes, strip_prefix_app, strip_slash, Hw. destruct rest as [|c rest]; [done|].
        destruct (N.eqb_spec 47 c) as [<-|]; [done|]. done.
  - destruct text as [|c text]; [by left|right]. unfold escaped. rewrite strip_slash.
    destruct (N.eqb_spec 47 c) as [<-|Hne]; unfold parse_line; cbn [negb non_empty].
    + change (lit "/" ++ 47%N :: text) with (lit "//" ++ text). by rewrite strip_prefix_app.
    + rewrite strip_slashes, strip_slash. by rewrite (proj2 (N.eqb_neq 47 c)).
Qed.
