(* ===== verification/View.v ===== *)
(** [src/ui/buffer.rs], [src/ui/notice.rs] and [src/ui/room_view.rs]: the
    bounded buffers of displayed lines and the model of the room screen.

    A call that reads a clock takes its reading as an argument: [ck_instant]
    is [Instant::now()], [ck_system] the seconds of [SystemTime::now()] since
    the epoch ([None] before it). The reads of one call agree. *)
From Stdlib Require Import Strings.String.
From S2P Require Export Commands PasswordGuard Uri Input.

Record Clock := { ck_instant : Instant; ck_system : option u64 }.

(** * Lines *)

Record GmtTimestamp := { seconds_since_midnight : u32 }.

Definition GmtTimestamp_now (now : Clock) : GmtTimestamp :=
  {| seconds_since_midnight := (default 0 (ck_system now) mod 86400)%N |}.

Definition GmtTimestamp_from_hms (hour minute second : u8) : option GmtTimestamp :=
  if (24 <=? hour)%N || (60 <=? minute)%N || (60 <=? second)%N then None
  else Some {| seconds_since_midnight := (hour * 3600 + minute * 60 + second)%N |}.

(** [{:02}]. *)
Definition two_digits (n : N) : rstring := (if (n <? 10)%N then lit "0" else []) ++ display_N n.

Definition GmtTimestamp_to_string (self : GmtTimestamp) : rstring :=
  let s := seconds_since_midnight self in
  two_digits (s / 3600) ++ lit ":" ++ two_digits (s mod 3600 / 60) ++ lit ":" ++ two_digits (s mod 60).

Definition DEFAULT_RENDER_BUFFER_CAPACITY : usize := 256.

Inductive LineStyle :=
| LS_Chat | LS_Notice | LS_Alert | LS_Palette (color : ColorChoice) | LS_Error | LS_Muted.

Record NicknameSpan := { ns_text : rstring; ns_color : ColorChoice }.

Record MessageLine := {
  ml_text : rstring;
  ml_style : LineStyle;
  ml_nickname : option NicknameSpan;
  ml_timestamp : GmtTimestamp;
  ml_created_at : Instant;
  ml_expires_at : option Instant;
}.

(** [VecDeque] bounded by [capacity]: the push both buffers make. *)
Definition bounded_push {A} (capacity : usize) (x : A) (l : list A) : list A :=
  if (capacity =? 0)%N then l
  else (if (N.of_nat (length l) =? capacity)%N then tail l else l) ++ [x].

Record RenderBuffer := { rb_lines : list MessageLine; rb_capacity : usize }.

Definition RenderBuffer_with_capacity (capacity : usize) : RenderBuffer :=
  {| rb_lines := []; rb_capacity := capacity |}.

Definition RenderBuffer_new : RenderBuffer := RenderBuffer_with_capacity DEFAULT_RENDER_BUFFER_CAPACITY.

Definition rb_push (line : MessageLine) (b : RenderBuffer) : RenderBuffer :=
  {| rb_lines := bounded_push (rb_capacity b) line (rb_lines b); rb_capacity := rb_capacity b |}.

Definition rb_extend (lines : list MessageLine) (b : RenderBuffer) : RenderBuffer :=
  foldl (λ b line, rb_push line b) b lines.

Definition rb_clear (b : RenderBuffer) : RenderBuffer := {| rb_lines := []; rb_capacity := rb_capacity b |}.

Definition with_expiry (max_age : option Duration) (line : MessageLine) : MessageLine := {|
  ml_text := ml_text line; ml_style := ml_style line; ml_nickname := ml_nickname line;
  ml_timestamp := ml_timestamp line; ml_created_at := ml_created_at line;
  ml_expires_at := age ← max_age; checked_add (ml_created_at line) age |}.

Definition rb_set_expiry (max_age : option Duration) (b : RenderBuffer) : RenderBuffer :=
  {| rb_lines := with_expiry max_age <$> rb_lines b; rb_capacity := rb_capacity b |}.

(** [expires_at.is_none_or(|deadline| deadline > now)]. *)
Definition not_due (now : Instant) (line : MessageLine) : bool :=
  match ml_expires_at line with None => true | Some deadline => (now <? deadline)%N end.

(** The number of expired lines and the buffer. *)
Definition rb_expire_due (now : Instant) (b : RenderBuffer) : usize * RenderBuffer :=
  let lines := List.filter (not_due now) (rb_lines b) in
  (N.of_nat (length (rb_lines b)) - N.of_nat (length lines),
   {| rb_lines := lines; rb_capacity := rb_capacity b |})%N.

(** [Iterator::min]. *)
Definition min_of (l : list N) : option N :=
  match l with [] => None | x :: l => Some (foldl N.min x l) end.

Definition rb_next_expiry (b : RenderBuffer) : option Instant := min_of (omap ml_expires_at (rb_lines b)).

Definition DEFAULT_NOTICE_CAPACITY : usize := 32.

Record Notice := { no_text : rstring; no_timestamp : GmtTimestamp }.

Record NoticeBuffer := { nb_notices : list Notice; nb_capacity : usize }.

Definition NoticeBuffer_with_capacity (capacity : usize) : NoticeBuffer :=
  {| nb_notices := []; nb_capacity := capacity |}.

Definition NoticeBuffer_new : NoticeBuffer := NoticeBuffer_with_capacity DEFAULT_NOTICE_CAPACITY.

Definition nb_push (text : rstring) (now : Clock) (b : NoticeBuffer) : NoticeBuffer := {|
  nb_notices := bounded_push (nb_capacity b) {| no_text := text; no_timestamp := GmtTimestamp_now now |}
                  (nb_notices b);
  nb_capacity := nb_capacity b |}.

(** * The room view *)

Definition ROOM_INPUT_MAX_BYTES : usize := 4096.

Record MemberLine := {
  mln_member_id : MemberId; mln_nickname : rstring; mln_color : ColorChoice; mln_is_host : bool }.

Inductive RequestKind := RK_Join (introduction : option rstring) | RK_Timeout (seconds : u64).

Record RequestLine := { rl_request_id : RequestId; rl_nickname : rstring; rl_kind : RequestKind }.

Inductive LineSubmit := SL_Done | SL_Rejected.

Inductive RoomViewMode := VM_Host | VM_Member.

Record RoomView := {
  rv_is_host : bool;
  rv_view_mode : RoomViewMode;
  rv_own_nickname : rstring;
  rv_entered_at : Instant;
  rv_invitation : option rstring;
  rv_status : rstring;
  rv_messages : RenderBuffer;
  rv_show_system_messages : bool;
  rv_notices : NoticeBuffer;
  rv_members : list MemberLine;
  rv_requests : list RequestLine;
  rv_input : TextField;
  rv_message_timeout_interval : option u64;
}.

Definition RoomView_new (is_host : bool) (own_nickname : rstring) (now : Clock) : RoomView := {|
  rv_is_host := is_host; rv_view_mode := if is_host then VM_Host else VM_Member;
  rv_own_nickname := own_nickname; rv_entered_at := ck_instant now; rv_invitation := None;
  rv_status := []; rv_messages := RenderBuffer_new; rv_show_system_messages := true;
  rv_notices := NoticeBuffer_new; rv_members := []; rv_requests := [];
  rv_input := TextField_new ROOM_INPUT_MAX_BYTES; rv_message_timeout_interval := None |}.

Definition RoomView_participant (nickname : rstring) (now : Clock) : RoomView := RoomView_new false nickname now.
Definition RoomView_host (nickname : rstring) (now : Clock) : RoomView := RoomView_new true nickname now.

(** ** Assignment of the fields the methods write *)

Definition rv_put_lines (messages : RenderBuffer) (notices : NoticeBuffer) (interval : option u64)
    (v : RoomView) : RoomView := {|
  rv_is_host := rv_is_host v; rv_view_mode := rv_view_mode v; rv_own_nickname := rv_own_nickname v;
  rv_entered_at := rv_entered_at v; rv_invitation := rv_invitation v; rv_status := rv_status v;
  rv_messages := messages; rv_show_system_messages := rv_show_system_messages v;
  rv_notices := notices; rv_members := rv_members v; rv_requests := rv_requests v;
  rv_input := rv_input v; rv_message_timeout_interval := interval |}.

Definition rv_put_messages (m : RenderBuffer) (v : RoomView) : RoomView :=
  rv_put_lines m (rv_notices v) (rv_message_timeout_interval v) v.

Definition rv_put_panels (mode : RoomViewMode) (show : bool) (invitation : option rstring) (status : rstring)
    (members : list MemberLine) (requests : list RequestLine) (v : RoomView) : RoomView := {|
  rv_is_host := rv_is_host v; rv_view_mode := mode; rv_own_nickname := rv_own_nickname v;
  rv_entered_at := rv_entered_at v; rv_invitation := invitation; rv_status := status;
  rv_messages := rv_messages v; rv_show_system_messages := show;
  rv_notices := rv_notices v; rv_members := members; rv_requests := requests;
  rv_input := rv_input v; rv_message_timeout_interval := rv_message_timeout_interval v |}.

Definition rv_put_input (input : TextField) (v : RoomView) : RoomView := {|
  rv_is_host := rv_is_host v; rv_view_mode := rv_view_mode v; rv_own_nickname := rv_own_nickname v;
  rv_entered_at := rv_entered_at v; rv_invitation := rv_invitation v; rv_status := rv_status v;
  rv_messages := rv_messages v; rv_show_system_messages := rv_show_system_messages v;
  rv_notices := rv_notices v; rv_members := rv_members v; rv_requests := rv_requests v;
  rv_input := input; rv_message_timeout_interval := rv_message_timeout_interval v |}.

(** ** Layout *)

Definition uses_host_view (v : RoomView) : bool :=
  rv_is_host v && match rv_view_mode v with VM_Host => true | VM_Member => false end.

Definition participant_count (v : RoomView) : N :=
  let participants := N.of_nat (length (List.filter (λ m, negb (mln_is_host m)) (rv_members v))) in
  if rv_is_host v then participants else N.max participants 1.

Definition put_mode (mode : RoomViewMode) (v : RoomView) : RoomView :=
  rv_put_panels mode (rv_show_system_messages v) (rv_invitation v) (rv_status v) (rv_members v) (rv_requests v) v.

Definition toggle_host_member_view (v : RoomView) : bool * RoomView :=
  if negb (rv_is_host v) then (false, v)
  else (true, put_mode match rv_view_mode v with VM_Host => VM_Member | VM_Member => VM_Host end v).

Definition toggle_system_messages (v : RoomView) : RoomView :=
  rv_put_panels (rv_view_mode v) (negb (rv_show_system_messages v)) (rv_invitation v) (rv_status v)
    (rv_members v) (rv_requests v) v.

(** ** Lifetime of the lines *)

Definition set_message_timeout (interval : option u64) (v : RoomView) : RoomView :=
  let interval := match interval with Some seconds => if (0 <? seconds)%N then Some seconds else None
                                    | None => None end in
  rv_put_lines (rb_set_expiry (from_secs <$> interval) (rv_messages v)) (rv_notices v) interval v.

Definition tick_message_timeout (now : Clock) (v : RoomView) : bool * RoomView :=
  match rv_message_timeout_interval v with
  | None => (false, v)
  | Some _ =>
      let '(expired, messages) := rb_expire_due (ck_instant now) (rv_messages v) in
      ((0 <? expired)%N, rv_put_messages messages v)
  end.

Definition next_message_expiry (v : RoomView) : option Instant := rb_next_expiry (rv_messages v).

(** ** Lines *)

Definition push_message (text : rstring) (style : LineStyle) (nickname : option NicknameSpan)
    (now : Clock) (v : RoomView) : RoomView :=
  rv_put_messages (rb_push {|
    ml_text := text; ml_style := style; ml_nickname := nickname; ml_timestamp := GmtTimestamp_now now;
    ml_created_at := ck_instant now;
    ml_expires_at := seconds ← rv_message_timeout_interval v; checked_add (ck_instant now) (from_secs seconds) |}
    (rv_messages v)) v.

Definition push_chat (nickname : rstring) (color : ColorChoice) (text : rstring) (now : Clock) (v : RoomView)
    : RoomView :=
  let nickname := sanitize_for_display nickname in
  push_message (nickname ++ lit ": " ++ sanitize_for_display text) LS_Chat
    (Some {| ns_text := nickname; ns_color := color |}) now v.

Definition member_by_nickname (v : RoomView) (nickname : rstring) : option MemberLine :=
  find_first (λ m, bool_decide (mln_nickname m = nickname)) (rv_members v).

Definition push_own (text : rstring) (now : Clock) (v : RoomView) : RoomView :=
  let color := default ColorChoice_default (mln_color <$> member_by_nickname v (rv_own_nickname v)) in
  push_chat (rv_own_nickname v) color text now v.

Definition push_system (text : rstring) (now : Clock) (v : RoomView) : RoomView :=
  push_message (sanitize_for_display text) LS_Notice None now v.
Definition push_muted (text : rstring) (now : Clock) (v : RoomView) : RoomView :=
  push_message (sanitize_for_display text) LS_Muted None now v.
Definition push_error (text : rstring) (now : Clock) (v : RoomView) : RoomView :=
  push_message (sanitize_for_display text) LS_Error None now v.

Definition push_color_list (now : Clock) (v : RoomView) : RoomView :=
  foldl (λ v color, push_message (ColorChoice_name color) (LS_Palette color) None now v) v ColorChoice_ALL.

Definition clear_messages (v : RoomView) : RoomView := rv_put_messages (rb_clear (rv_messages v)) v.

Definition view_notice (text : rstring) (now : Clock) (v : RoomView) : RoomView :=
  let text := sanitize_for_display text in
  push_message (lit "! " ++ text) LS_Alert None now
    (rv_put_lines (rv_messages v) (nb_push text now (rv_notices v)) (rv_message_timeout_interval v) v).

(** ** Panels *)

Definition set_members (members : list MemberLine) (v : RoomView) : RoomView :=
  rv_put_panels (rv_view_mode v) (rv_show_system_messages v) (rv_invitation v) (rv_status v)
    members (rv_requests v) v.

Definition set_requests (requests : list RequestLine) (v : RoomView) : RoomView :=
  rv_put_panels (rv_view_mode v) (rv_show_system_messages v) (rv_invitation v) (rv_status v)
    (rv_members v) requests v.

(** An em dash between spaces. *)
Definition dash : rstring := [32; 0x2014; 32]%N.

Definition request_text (request : RequestLine) : rstring :=
  let id := display_N (rl_request_id request) in
  let answers := dash ++ lit "/accept " ++ id ++ lit " or /reject " ++ id in
  match rl_kind request with
  | RK_Join introduction =>
      lit "join request " ++ id ++ lit ": " ++ rl_nickname request
        ++ default [] ((λ text, dash ++ text) <$> introduction) ++ answers
  | RK_Timeout seconds =>
      lit "timeout request " ++ id ++ lit ": " ++ rl_nickname request
        ++ dash ++ display_N seconds ++ lit " seconds" ++ answers
  end.

Definition show_requests (requests : list RequestLine) (now : Clock) (v : RoomView) : RoomView :=
  let lines := match requests with
               | [] => [lit "no pending requests"]
               | _ => (lit "pending requests: " ++ display_N (N.of_nat (length requests)))
                        :: (request_text <$> requests)
               end in
  foldl (λ v line, view_notice line now v) (set_requests requests v) lines.

Definition set_invitation (uri : rstring) (v : RoomView) : RoomView :=
  rv_put_panels (rv_view_mode v) (rv_show_system_messages v) (Some uri) (rv_status v)
    (rv_members v) (rv_requests v) v.

Definition set_status (status : rstring) (v : RoomView) : RoomView :=
  rv_put_panels (rv_view_mode v) (rv_show_system_messages v) (rv_invitation v) status
    (rv_members v) (rv_requests v) v.

Definition submit_line (v : RoomView) : LineSubmit * RoomView :=
  let '(value, input) := tf_submit (rv_input v) in
  match value with
  | Some _ => (SL_Done, rv_put_input (tf_clear input) v)
  | None => (SL_Rejected, rv_put_input input v)
  end.

(** [get] with a range is [None] off a character boundary. *)
Definition preview_invitation (uri : rstring) : rstring :=
  let host := default []
    (rest ← strip_prefix INVITATION_SCHEME uri; rest ← strip_prefix (lit "://") rest;
     head (split_on ch_colon rest)) in
  let shortened :=
    match strip_suffix ONION_V3_SUFFIX host with
    | Some body =>
        if (8 <? str_len body)%N then
          let front := default body (fst <$> split_bytes 4 body) in
          let back := default [] (snd <$> split_bytes (str_len body - 4) body) in
          front ++ [0x2026%N] ++ back ++ ONION_V3_SUFFIX
        else host
    | None => host
    end in
  INVITATION_SCHEME ++ lit "://" ++ shortened ++ [32; 0xB7; 32]%N ++ lit "token: present".

Definition invitation_preview (v : RoomView) : option rstring := preview_invitation <$> rv_invitation v.

(** * What the screen does to a view *)

Inductive ViewOp :=
| VO_ToggleLayout
| VO_ToggleSystem
| VO_SetTimeout (interval : option u64)
| VO_Tick
| VO_Chat (nickname : rstring) (color : ColorChoice) (text : rstring)
| VO_Own (text : rstring)
| VO_System (text : rstring)
| VO_Muted (text : rstring)
| VO_Error (text : rstring)
| VO_ColorList
| VO_Clear
| VO_Notice (text : rstring)
| VO_SetMembers (members : list MemberLine)
| VO_SetRequests (requests : list RequestLine)
| VO_ShowRequests (requests : list RequestLine)
| VO_SetInvitation (uri : rstring)
| VO_SetStatus (status : rstring)
| VO_Edit (e : Edit).

#[export] Instance Edit_eq_dec : EqDecision Edit.
Proof. solve_decision. Defined.

Definition view_op (op : ViewOp) (now : Clock) (v : RoomView) : option RoomView :=
  match op with
  | VO_ToggleLayout => Some (toggle_host_member_view v).2
  | VO_ToggleSystem => Some (toggle_system_messages v)
  | VO_SetTimeout interval => Some (set_message_timeout interval v)
  | VO_Tick => Some (tick_message_timeout now v).2
  | VO_Chat nickname color text => Some (push_chat nickname color text now v)
  | VO_Own text => Some (push_own text now v)
  | VO_System text => Some (push_system text now v)
  | VO_Muted text => Some (push_muted text now v)
  | VO_Error text => Some (push_error text now v)
  | VO_ColorList => Some (push_color_list now v)
  | VO_Clear => Some (clear_messages v)
  | VO_Notice text => Some (view_notice text now v)
  | VO_SetMembers members => Some (set_members members v)
  | VO_SetRequests requests => Some (set_requests requests v)
  | VO_ShowRequests requests => Some (show_requests requests now v)
  | VO_SetInvitation uri => Some (set_invitation uri v)
  | VO_SetStatus status => Some (set_status status v)
  | VO_Edit ED_Submit => Some (submit_line v).2
  | VO_Edit e => input ← tf_edit e (rv_input v); Some (rv_put_input input v)
  end.

Fixpoint view_ops (ops : list (ViewOp * Clock)) (v : RoomView) : option RoomView :=
  match ops with
  | [] => Some v
  | (op, now) :: ops => v ← view_op op now v; view_ops ops v
  end.

(** ** Bounded buffers *)

Lemma bounded_push_length {A} capacity (x : A) l :
  (N.of_nat (length l) <= capacity)%N → (N.of_nat (length (bounded_push capacity x l)) <= capacity)%N.
Proof.
  intros Hl. unfold bounded_push. destruct (N.eqb_spec capacity 0) as [|Hc]; [done|]. rewrite length_app. cbn [length].
  destruct (N.eqb_spec (N.of_nat (length l)) capacity); [|lia]. destruct l; simpl in *; lia.
Qed.

Lemma bounded_push_Forall {A} (P : A → Prop) capacity x l :
  Forall P l → P x → Forall P (bounded_push capacity x l).
Proof.
  intros Hl Hx. unfold bounded_push. destruct (_ =? 0)%N; [done|]. apply list.Forall_app. split; [|by constructor].
  destruct (_ =? _)%N; [|done]. destruct Hl; [constructor|done].
Qed.

(** ** The invariant *)

Definition text_safe (s : rstring) : Prop := contains_control_char s = false.

Lemma text_safe_app s t : text_safe s → text_safe t → text_safe (s ++ t).
Proof. unfold text_safe, contains_control_char. rewrite existsb_app. by intros -> ->. Qed.

Lemma sanitize_safe s : text_safe (sanitize_for_display s).
Proof.
  unfold text_safe, contains_control_char, sanitize_for_display. induction s as [|c s IH]; [done|].
  cbn [flat_map]. rewrite existsb_app, IH, orb_false_r. destruct (is_unsafe_display_char c) eqn:E; [|by cbn; rewrite E].
  by destruct (_ || _).
Qed.

(** A line under a lifetime: nothing unsafe in it, its sender at its start,
    and the deadline its creation gives it. *)
Record message_ok (interval : option u64) (line : MessageLine) : Prop := {
  mo_text : text_safe (ml_text line);
  mo_nickname : ∀ span, ml_nickname line = Some span → ∃ rest, ml_text line = ns_text span ++ rest;
  mo_deadline : ml_expires_at line =
    (seconds ← interval; checked_add (ml_created_at line) (from_secs seconds));
}.

(** The input line is always open. *)
Definition input_ok (f : TextField) : Prop :=
  ∃ l, shows f l ∧ line_ok ROOM_INPUT_MAX_BYTES l ∧ ln_done l = false ∧ tf_max_bytes f = ROOM_INPUT_MAX_BYTES.

Lemma new_input_ok : input_ok (TextField_new ROOM_INPUT_MAX_BYTES).
Proof. exists Line_new. split; [done|]. by split; [split; [apply N.le_0_l|]|]. Qed.

Lemma line_insert_open max l ch : ln_done l = false → ln_done (line_insert max l ch) = false.
Proof. intros Hl. unfold line_insert. by destruct (_ || _). Qed.

Lemma line_edit_open max e l : ln_done l = false → e ≠ ED_Submit → ln_done (line_edit max e l) = false.
Proof.
  intros Hl He. destruct e; cbn [line_edit]; rewrite ?Hl; try done; try (by apply line_insert_open); try (by case_match).
  revert l Hl. induction text as [|ch text IH]; [done|]. intros l Hl. by apply IH, line_insert_open.
Qed.

Lemma input_edit_ok e f :
  input_ok f → e ≠ ED_Submit → ∃ f', tf_edit e f = Some f' ∧ input_ok f'.
Proof.
  intros (l & Hs & Hl & Hd & Hm) He. destruct (edit_shows e _ _ Hs) as (f' & -> & Hf & Hfm). rewrite Hm in *.
  exists f'. split; [done|]. exists (line_edit ROOM_INPUT_MAX_BYTES e l). split_and!; [done|by apply edit_line_ok| |done].
  by apply line_edit_open.
Qed.

Record view_ok (v : RoomView) : Prop := {
  vw_capacity : rb_capacity (rv_messages v) = DEFAULT_RENDER_BUFFER_CAPACITY ∧
    (N.of_nat (length (rb_lines (rv_messages v))) <= DEFAULT_RENDER_BUFFER_CAPACITY)%N;
  vw_lines : Forall (message_ok (rv_message_timeout_interval v)) (rb_lines (rv_messages v));
  vw_notices : nb_capacity (rv_notices v) = DEFAULT_NOTICE_CAPACITY ∧
    (N.of_nat (length (nb_notices (rv_notices v))) <= DEFAULT_NOTICE_CAPACITY)%N ∧
    Forall (λ n, text_safe (no_text n)) (nb_notices (rv_notices v));
  vw_interval : rv_message_timeout_interval v ≠ Some 0%N;
  vw_mode : rv_is_host v = false → rv_view_mode v = VM_Member;
  vw_input : input_ok (rv_input v);
}.

Lemma new_view_ok is_host nickname now : view_ok (RoomView_new is_host nickname now).
Proof.
  constructor; cbn; [done|by apply list.Forall_nil|by split_and!; [| |apply list.Forall_nil]|done|by intros ->|].
  apply new_input_ok.
Qed.

Lemma push_message_ok text style nickname now v :
  view_ok v → text_safe text → (∀ span, nickname = Some span → ∃ rest, text = ns_text span ++ rest) →
  view_ok (push_message text style nickname now v).
Proof.
  intros [[Hc Hl] H2 H3 H4 H5 H6] Ht Hn. constructor; [|simpl|done..].
  - simpl. split; [done|]. rewrite Hc in *. by apply bounded_push_length.
  - apply bounded_push_Forall; [done|]. by constructor.
Qed.

Lemma plain_line_ok text style now v : view_ok v → text_safe text → view_ok (push_message text style None now v).
Proof. intros Hv Ht. by apply push_message_ok. Qed.

Lemma push_chat_ok nickname color text now v : view_ok v → view_ok (push_chat nickname color text now v).
Proof.
  intros Hv. apply push_message_ok; [done| |].
  - apply text_safe_app; [apply sanitize_safe|]. apply text_safe_app; [done|apply sanitize_safe].
  - intros span [= <-]. by eexists.
Qed.

Lemma view_notice_ok text now v : view_ok v → view_ok (view_notice text now v).
Proof.
  intros [H1 H2 (Hc & Hl & Hn) H4 H5 H6]. apply push_message_ok; [|apply text_safe_app; [done|apply sanitize_safe]|done].
  constructor; [done|done| |done..]. simpl. rewrite Hc in *. split; [done|].
  split; [by apply bounded_push_length|]. apply bounded_push_Forall; [done|]. apply sanitize_safe.
Qed.

Lemma foldl_ok {A} (f : RoomView → A → RoomView) l v :
  (∀ v x, view_ok v → view_ok (f v x)) → view_ok v → view_ok (foldl f v l).
Proof. intros Hf. revert v. induction l as [|x l IH]; [done|]. intros v Hv. by apply IH, Hf. Qed.

Lemma put_panels_ok mode show invitation status members requests v :
  view_ok v → (rv_is_host v = false → mode = VM_Member) →
  view_ok (rv_put_panels mode show invitation status members requests v).
Proof. intros [? ? ? ? ? ?] Hm. by constructor. Qed.

Lemma put_input_ok input v :
  view_ok v → input_ok input →
  view_ok (rv_put_input input v).
Proof. intros [? ? ? ? ? ?] Hi. by constructor. Qed.

Lemma filter_length_le {A} (p : A → bool) l : (length (List.filter p l) <= length l)%nat.
Proof. induction l as [|x l IH]; [done|]. simpl. destruct (p x); simpl; lia. Qed.

Lemma Forall_stdfilter {A} (P : A → Prop) p l : Forall P l → Forall P (List.filter p l).
Proof. induction 1 as [|x l Hx _ IH]; [constructor|]. simpl. destruct (p x); [by constructor|done]. Qed.

(** Submitting clears the line. *)
Lemma submit_line_clears v :
  view_ok v → (submit_line v).2 = rv_put_input (TextField_new ROOM_INPUT_MAX_BYTES) v ∨
    tf_text (rv_input v) = [] ∧ (submit_line v).2 = rv_put_input (rv_input v) v.
Proof.
  intros Hv. destruct (vw_input v Hv) as (l & Hs & Hl & Hd & Hm). unfold submit_line, tf_submit, tf_clear.
  rewrite (sh_done _ _ Hs), Hd. destruct (tf_text (rv_input v)) as [|c t]; [by right|]. left. cbn. by rewrite Hm.
Qed.

Lemma submit_line_ok v : view_ok v → view_ok (submit_line v).2.
Proof.
  intros Hv. destruct (submit_line_clears v Hv) as [->|[_ ->]]; apply put_input_ok; [done|apply new_input_ok|done|apply Hv].
Qed.

Lemma view_op_ok op now v : view_ok v → ∃ v', view_op op now v = Some v' ∧ view_ok v'.
Proof.
  intros Hv. destruct op; cbn [view_op]; try (eexists; split; [done|]).
  - unfold toggle_host_member_view. destruct (rv_is_host v) eqn:E; [|done]. apply put_panels_ok; [done|congruence].
  - apply put_panels_ok; [done|apply Hv].
  - destruct Hv as [[Hc Hl] H2 H3 H4 H5 H6]. unfold set_message_timeout.
    set (i := match interval with Some _ => _ | None => _ end). constructor; [| |done| |done|done].
    + cbn. split; [done|]. by rewrite length_fmap.
    + cbn. apply list.Forall_fmap. eapply list.Forall_impl; [exact H2|]. intros line [Ha Hb _]. constructor; [done|done|].
      cbn. by destruct i.
    + cbn. subst i. destruct interval as [s|]; [|done]. destruct (N.ltb_spec 0 s); [|done]. intros [= ->]. lia.
  - unfold tick_message_timeout. destruct (rv_message_timeout_interval v) eqn:E; [|done]. cbn [rb_expire_due snd].
    destruct Hv as [[Hc Hl] H2 H3 H4 H5 H6]. constructor; [| |done..].
    + cbn. split; [done|]. pose proof (filter_length_le (not_due (ck_instant now)) (rb_lines (rv_messages v))). lia.
    + cbn. by apply Forall_stdfilter.
  - by apply push_chat_ok.
  - by apply push_chat_ok.
  - by apply plain_line_ok; [|apply sanitize_safe].
  - by apply plain_line_ok; [|apply sanitize_safe].
  - by apply plain_line_ok; [|apply sanitize_safe].
  - apply foldl_ok; [|done]. intros w c Hw. by apply plain_line_ok; [|destruct c].
  - destruct Hv as [[Hc Hl] H2 H3 H4 H5 H6]. constructor; [|by constructor|done..]. cbn. by rewrite Hc.
  - by apply view_notice_ok.
  - apply put_panels_ok; [done|apply Hv].
  - apply put_panels_ok; [done|apply Hv].
  - apply foldl_ok; [intros; by apply view_notice_ok|]. apply put_panels_ok; [done|apply Hv].
  - apply put_panels_ok; [done|apply Hv].
  - apply put_panels_ok; [done|apply Hv].
  - destruct (decide (e = ED_Submit)) as [->|He]; [eexists; split; [done|]; by apply submit_line_ok|].
    destruct (input_edit_ok e _ (vw_input v Hv) He) as (f & Hr & Hf). exists (rv_put_input f v).
    split; [by destruct e; rewrite ?Hr|by apply put_input_ok].
Qed.

Lemma view_ops_ok ops : ∀ v, view_ok v → ∃ v', view_ops ops v = Some v' ∧ view_ok v'.
Proof.
  induction ops as [|[op now] ops IH]; intros v Hv; [by exists v|]. cbn [view_ops].
  destruct (view_op_ok op now v Hv) as (v1 & -> & H1). cbn [mbind option_bind]. by apply IH.
Qed.

(** The screen of a room, whatever is done to it: at most 256 lines and 32
    notices, no character in them that a terminal could act on, every chat line opening
    with the nickname it is drawn under, every line carrying the deadline that its own
    creation and the current setting give it, the input within its limit, and the host's
    panels out of a participant's reach. *)
Theorem screen_is_safe is_host nickname t0 ops :
  ∃ v, view_ops ops (RoomView_new is_host nickname t0) = Some v ∧ view_ok v.
Proof. apply view_ops_ok, new_view_ok. Qed.

(** ** Expiry *)

Lemma foldl_min_le l x y : (foldl N.min x l <= y)%N ↔ (x <= y)%N ∨ ∃ z, z ∈ l ∧ (z <= y)%N.
Proof.
  revert x. induction l as [|z l IH]; intros x; cbn [foldl].
  - split; [by left|]. intros [|(z & Hz%elem_of_nil & _)]; done.
  - rewrite IH, N.min_le_iff. split.
    + intros [[?|?]|(w & ? & ?)]; [by left|right; exists z|right; exists w]; (split; [set_solver|done]).
    + intros [|(w & [->|Hw]%elem_of_cons & ?)]; [by do 2 left|by left; right|right; eauto].
Qed.

Lemma min_of_le l d y : min_of l = Some d → (d <= y)%N ↔ ∃ z, z ∈ l ∧ (z <= y)%N.
Proof.
  destruct l as [|x l]; [done|]. intros [= <-]. rewrite foldl_min_le. split.
  - intros [?|(z & ? & ?)]; [exists x|exists z]; (split; [set_solver|done]).
  - intros (z & [->|Hz]%elem_of_cons & ?); [by left|right; eauto].
Qed.

Lemma filter_none {A} (p : A → bool) l : (∀ x, x ∈ l → p x = true) → List.filter p l = l.
Proof.
  induction l as [|x l IH]; [done|]. intros H. simpl. rewrite (H x) by set_solver.
  rewrite IH; [done|]. intros y Hy. apply H. set_solver.
Qed.

Lemma filter_some {A} (p : A → bool) l x :
  x ∈ l → p x = false → (length (List.filter p l) < length l)%nat.
Proof.
  intros Hx Hp. induction Hx as [x l|x y l _ IH]; simpl.
  - rewrite Hp. pose proof (filter_length_le p l). lia.
  - specialize (IH Hp). destruct (p y); simpl; lia.
Qed.

(** A line outlives [now] under a lifetime of [seconds]. *)
Definition alive (seconds : u64) (now : Instant) (line : MessageLine) : bool :=
  (now <? ml_created_at line + from_secs seconds)%N
  || (instant_limit <=? ml_created_at line + from_secs seconds)%N.

Lemma not_due_alive seconds now line :
  (now < instant_limit)%N → message_ok (Some seconds) line → not_due now line = alive seconds now line.
Proof.
  intros Hnow [_ _ Hd]. unfold not_due, alive. rewrite Hd. cbn [mbind option_bind]. unfold checked_add.
  destruct (N.ltb_spec (ml_created_at line + from_secs seconds) instant_limit) as [H|H].
  - by rewrite (proj2 (N.leb_gt _ _)), orb_false_r by lia.
  - by rewrite (proj2 (N.leb_le _ _)), orb_true_r by lia.
Qed.

(** The expiry timer: the screen's deadline is that of its earliest line, so a
    tick before it changes nothing, a tick from it on removes something, and what a tick
    leaves is exactly the lines that are younger than the lifetime, in their order,
    however often the lifetime was changed since they were written. *)
Theorem lines_expire_on_time is_host nickname t0 ops v now :
  view_ops ops (RoomView_new is_host nickname t0) = Some v → (ck_instant now < instant_limit)%N →
  let '(removed, v') := tick_message_timeout now v in
  (removed = true ↔ ∃ d, next_message_expiry v = Some d ∧ (d <= ck_instant now)%N) ∧
  rb_lines (rv_messages v') =
    match rv_message_timeout_interval v with
    | None => rb_lines (rv_messages v)
    | Some seconds => List.filter (alive seconds (ck_instant now)) (rb_lines (rv_messages v))
    end ∧
  (removed = false → rb_lines (rv_messages v') = rb_lines (rv_messages v)).
Proof.
  intros Hrun Hnow. destruct (view_ops_ok ops _ (new_view_ok is_host nickname t0)) as (v1 & Hv1 & Hv).
  rewrite Hrun in Hv1. injection Hv1 as <-. pose proof (vw_lines v Hv) as Hl.
  unfold tick_message_timeout, next_message_expiry, rb_next_expiry.
  destruct (rv_message_timeout_interval v) as [s|] eqn:Ei; cycle 1.
  { assert (omap ml_expires_at (rb_lines (rv_messages v)) = []) as ->.
    { induction Hl as [|line l [_ _ Hd] _ IH]; [done|]. cbn. by rewrite Hd. }
    split_and!; [|done..]. split; [done|]. by intros (d & [=] & _). }
  cbn [rb_expire_due rv_put_messages rv_put_lines rv_messages rb_lines].
  set (l := rb_lines (rv_messages v)) in *.
  assert (Hex : (0 < N.of_nat (length l) - N.of_nat (length (List.filter (not_due (ck_instant now)) l)))%N ↔
    ∃ line, line ∈ l ∧ not_due (ck_instant now) line = false).
  { split.
    - intros Hlt. destruct (existsb (λ x, negb (not_due (ck_instant now) x)) l) eqn:E.
      + apply existsb_exists in E as (x & Hx & Hp). exists x. split; [by apply list_elem_of_In|by apply negb_true_iff].
      + rewrite filter_none in Hlt; [lia|]. intros x Hx. apply negb_false_iff. by apply (proj1 (existsb_false _ _) E).
    - intros (x & Hx & Hp). pose proof (filter_some _ _ _ Hx Hp). lia. }
  split_and!.
  - rewrite N.ltb_lt, Hex. split.
    + intros (line & Hin & Hdue). unfold not_due in Hdue. destruct (ml_expires_at line) as [d|] eqn:Ed; [|done].
      apply N.ltb_ge in Hdue. assert (Hd : d ∈ omap ml_expires_at l) by (apply list_elem_of_omap; eauto).
      destruct (min_of _) as [d0|] eqn:Em; [|by destruct (omap ml_expires_at l); [apply elem_of_nil in Hd|]].
      exists d0. split; [done|]. apply (min_of_le _ _ _ Em). eauto.
    + intros (d & Em & Hle). apply (min_of_le _ _ _ Em) in Hle as (z & Hz & Hle).
      apply list_elem_of_omap in Hz as (line & Hin & Ed). exists line. split; [done|]. unfold not_due. rewrite Ed.
      by apply N.ltb_ge.
  - clear Hex. induction Hl as [|line l0 Hm _ IH]; [done|]. simpl. rewrite (not_due_alive s) by done. by rewrite IH.
  - intros Hz%N.ltb_ge. apply filter_none. intros x Hx. destruct (not_due _ x) eqn:E; [done|].
    assert (0 < N.of_nat (length l) - N.of_nat (length (List.filter (not_due (ck_instant now)) l)))%N; [|lia].
    apply Hex. eauto.
Qed.
