(* ===== verification/Screens.v ===== *)
(** [src/ui/screen.rs] and [src/ui/app.rs]: the screens of the application
    and what a key does on each.

    Key codes and modifiers are crossterm's; the model has the ones the
    source names and one constructor for the rest. A key whose handling
    slices a field off a character boundary or reads past the menu panics
    ([None]). *)
From Stdlib Require Import Strings.String.
From S2P Require Export View.

Inductive KeyCode :=
| KC_Char (ch : N)
| KC_Enter | KC_Esc | KC_Backspace | KC_Delete
| KC_Left | KC_Right | KC_Up | KC_Down | KC_Home | KC_End
| KC_Other.

Inductive KeyModifiers := KM_None | KM_Shift | KM_Control | KM_Other.

#[export] Instance KeyModifiers_eq_dec : EqDecision KeyModifiers.
Proof. solve_decision. Defined.

Record KeyEvent := { ke_code : KeyCode; ke_modifiers : KeyModifiers }.

(** * Screens *)

Definition MENU_ITEMS : list rstring :=
  [lit "Host a room"; lit "Join a room"; lit "About Veilroom"; lit "Exit"].

Record MenuModel := { menu_selection : usize }.

Definition MenuModel_default : MenuModel := {| menu_selection := 0 |}.

(** [rem_euclid]. *)
Definition move_selection (delta : Z) (m : MenuModel) : MenuModel :=
  {| menu_selection := Z.to_N ((Z.of_N (menu_selection m) + delta) mod Z.of_nat (length MENU_ITEMS)) |}.

Definition selected_label (m : MenuModel) : option rstring := MENU_ITEMS !! N.to_nat (menu_selection m).

Record TorConnectionModel := { tc_progress : u8 }.

Definition TorConnectionModel_new : TorConnectionModel := {| tc_progress := 0 |}.
Definition set_progress (progress : u8) (m : TorConnectionModel) : TorConnectionModel :=
  {| tc_progress := N.min progress 100 |}.

Inductive HostField := HF_Password | HF_Confirm | HF_Nickname.

Record HostSetupModel := {
  hs_password : SecretField;
  hs_confirm : SecretField;
  hs_nickname : TextField;
  hs_focus : HostField;
  hs_error : option rstring;
  hs_stored : option (list byte);
}.

Definition form_max : usize := (max_nickname_scalars Limits_default * 4)%N.

Definition HostSetupModel_new : HostSetupModel := {|
  hs_password := SecretField_new form_max; hs_confirm := SecretField_new form_max;
  hs_nickname := TextField_new form_max; hs_focus := HF_Password; hs_error := None; hs_stored := None |}.

Definition take_password (m : HostSetupModel) : option (list byte) * HostSetupModel :=
  (hs_stored m, {| hs_password := hs_password m; hs_confirm := hs_confirm m; hs_nickname := hs_nickname m;
                   hs_focus := hs_focus m; hs_error := hs_error m; hs_stored := None |}).

Definition store_password (password : list byte) (m : HostSetupModel) : HostSetupModel := {|
  hs_password := hs_password m; hs_confirm := hs_confirm m; hs_nickname := hs_nickname m;
  hs_focus := hs_focus m; hs_error := hs_error m; hs_stored := Some password |}.

Definition restart_password_entry (m : HostSetupModel) : HostSetupModel := {|
  hs_password := sf_clear (hs_password m); hs_confirm := sf_clear (hs_confirm m); hs_nickname := hs_nickname m;
  hs_focus := HF_Password; hs_error := Some (lit "Enter the room password again."); hs_stored := None |}.

Inductive JoinField := JF_Invitation | JF_Password.

Record JoinSetupModel := {
  js_invitation : TextField; js_password : SecretField; js_focus : JoinField; js_error : option rstring }.

Definition JoinSetupModel_new : JoinSetupModel := {|
  js_invitation := TextField_new 1024; js_password := SecretField_new form_max;
  js_focus := JF_Invitation; js_error := None |}.

Inductive JoinFormField := JFF_Nickname | JFF_Introduction.

Record JoinFormModel := {
  jf_nickname : TextField; jf_introduction : TextField; jf_focus : JoinFormField;
  jf_submitted : bool; jf_error : option rstring }.

Definition JoinFormModel_new : JoinFormModel := {|
  jf_nickname := TextField_new form_max;
  jf_introduction := TextField_new (max_intro_scalars Limits_default * 4)%N;
  jf_focus := JFF_Nickname; jf_submitted := false; jf_error := None |}.

Inductive Screen :=
| SCR_Menu (menu : MenuModel)
| SCR_TorConnecting (model : TorConnectionModel)
| SCR_HostSetup (form : HostSetupModel)
| SCR_JoinSetup (form : JoinSetupModel)
| SCR_JoinForm (form : JoinFormModel)
| SCR_JoinPending
| SCR_Room (view : RoomView)
| SCR_About
| SCR_Message (text : rstring).

(** * Actions *)

Inductive RoomUiAction :=
| RUA_Chat (text : rstring)
| RUA_Command (command : SlashCommand)
| RUA_Error (text : rstring)
| RUA_Leave
| RUA_Exit
| RUA_CopyInvitation (uri : rstring).

Inductive AppAction :=
| AA_None
| AA_Quit
| AA_HostSetupSubmitted (password : list byte) (nickname : rstring)
| AA_JoinSetupSubmitted (invitation : rstring) (password : list byte)
| AA_JoinFormSubmitted (nickname : rstring) (introduction : option rstring)
| AA_Room (action : RoomUiAction).

Record App := { app_screen : Screen; app_quit : bool }.

Definition App_new : App := {| app_screen := SCR_Menu MenuModel_default; app_quit := false |}.

Definition set_screen (s : Screen) (a : App) : App := {| app_screen := s; app_quit := app_quit a |}.
Definition show_message (message : rstring) : App → App := set_screen (SCR_Message message).
Definition back_to_menu : App → App := set_screen (SCR_Menu MenuModel_default).
Definition begin_tor_connection : App → App := set_screen (SCR_TorConnecting TorConnectionModel_new).
Definition set_tor_progress (progress : u8) (a : App) : App :=
  match app_screen a with
  | SCR_TorConnecting m => set_screen (SCR_TorConnecting (set_progress progress m)) a
  | _ => a
  end.
Definition enter_room (view : RoomView) : App → App := set_screen (SCR_Room view).
Definition show_join_pending : App → App := set_screen SCR_JoinPending.

Definition room_view (a : App) : option RoomView :=
  match app_screen a with SCR_Room view => Some view | _ => None end.

(** [if let Some(view) = app.room_view_mut()]. *)
Definition with_room_view (f : RoomView → RoomView) (a : App) : App :=
  match app_screen a with SCR_Room view => set_screen (SCR_Room (f view)) a | _ => a end.

(** * Keys *)

Inductive SecretSubmit := SS_None | SS_Value (password : list byte) | SS_Cancel.

Definition secret_key (field : SecretField) (key : KeyEvent) : option (SecretSubmit * SecretField) :=
  match ke_code key with
  | KC_Enter =>
      let '(value, field) := sf_submit field in
      Some (match value with Some p => SS_Value p | None => SS_None end, field)
  | KC_Esc => Some (SS_Cancel, field)
  | KC_Backspace => field ← sf_pop field; Some (SS_None, field)
  | KC_Char ch => Some (SS_None, (sf_push_char ch field).2)
  | _ => Some (SS_None, field)
  end.

(** A handler's action, the screen it edited and the screen it moves to. *)
Definition KeyResult (S : Type) : Type := AppAction * S * option Screen.

Definition on_menu_key (menu : MenuModel) (key : KeyEvent) : option (KeyResult MenuModel) :=
  match ke_code key with
  | KC_Up | KC_Char 107 => Some (AA_None, move_selection (-1) menu, None)
  | KC_Down | KC_Char 106 => Some (AA_None, move_selection 1 menu, None)
  | KC_Enter =>
      label ← selected_label menu;
      Some (if is_lit label "Host a room" then (AA_None, menu, Some (SCR_HostSetup HostSetupModel_new))
            else if is_lit label "Join a room" then (AA_None, menu, Some (SCR_JoinSetup JoinSetupModel_new))
            else if is_lit label "About Veilroom" then (AA_None, menu, Some SCR_About)
            else (AA_Quit, menu, None))
  | KC_Esc | KC_Char 113 => Some (AA_Quit, menu, None)
  | _ => Some (AA_None, menu, None)
  end.

(** Assignment of the fields the form's keys write. *)
Definition hs_put_entry (password confirm : SecretField) (focus : HostField) (error : option rstring)
    (m : HostSetupModel) : HostSetupModel := {|
  hs_password := password; hs_confirm := confirm; hs_nickname := hs_nickname m; hs_focus := focus;
  hs_error := error; hs_stored := hs_stored m |}.

Definition hs_put_nickname (nickname : TextField) (error : option rstring) (m : HostSetupModel)
    : HostSetupModel := {|
  hs_password := hs_password m; hs_confirm := hs_confirm m; hs_nickname := nickname; hs_focus := hs_focus m;
  hs_error := error; hs_stored := hs_stored m |}.

Definition on_host_setup_key (form : HostSetupModel) (key : KeyEvent) : option (KeyResult HostSetupModel) :=
  let stay form := Some (AA_None, form, None) in
  match hs_focus form with
  | HF_Password =>
      '(r, password) ← secret_key (hs_password form) key;
      let form := hs_put_entry password (hs_confirm form) (hs_focus form) (hs_error form) form in
      match r with
      | SS_Value p => stay (store_password p
          (hs_put_entry (hs_password form) (hs_confirm form) HF_Confirm (hs_error form) form))
      | SS_Cancel => Some (AA_None, form, Some (SCR_Menu MenuModel_default))
      | SS_None => stay form
      end
  | HF_Confirm =>
      '(r, confirm) ← secret_key (hs_confirm form) key;
      let form := hs_put_entry (hs_password form) confirm (hs_focus form) (hs_error form) form in
      match r with
      | SS_Value confirm =>
          if bool_decide (hs_stored form = Some confirm)
          then stay (hs_put_entry (hs_password form) (hs_confirm form) HF_Nickname None form)
          else stay (hs_put_entry (hs_password form) (sf_clear (hs_confirm form)) HF_Confirm
                 (Some (lit "The passwords do not match. Confirm again, or press Esc to re-enter the password."))
                 form)
      | SS_Cancel => stay (restart_password_entry form)
      | SS_None => stay form
      end
  | HF_Nickname =>
      match ke_code key with
      | KC_Enter =>
          let '(value, nickname) := tf_submit (hs_nickname form) in
          match value with
          | Some _ =>
              let form := hs_put_nickname nickname (hs_error form) form in
              let '(password, form) := take_password form in
              Some (AA_HostSetupSubmitted (default [] password) (tf_text nickname), form, None)
          | None => stay (hs_put_nickname nickname (Some (lit "Enter a nickname before continuing.")) form)
          end
      | KC_Esc => stay (restart_password_entry form)
      | KC_Backspace =>
          nickname ← tf_backspace (hs_nickname form); stay (hs_put_nickname nickname (hs_error form) form)
      | KC_Char ch =>
          '(_, nickname) ← tf_insert_char ch (hs_nickname form);
          stay (hs_put_nickname nickname (hs_error form) form)
      | _ => stay form
      end
  end.

Definition js_put (invitation : TextField) (password : SecretField) (focus : JoinField)
    (error : option rstring) : JoinSetupModel :=
  {| js_invitation := invitation; js_password := password; js_focus := focus; js_error := error |}.

Definition on_join_setup_key (form : JoinSetupModel) (key : KeyEvent) : option (KeyResult JoinSetupModel) :=
  let stay form := Some (AA_None, form, None) in
  let put_invitation f := js_put f (js_password form) (js_focus form) (js_error form) in
  match js_focus form with
  | JF_Invitation =>
      match ke_code key with
      | KC_Enter =>
          let '(value, invitation) := tf_submit (js_invitation form) in
          match value with
          | Some _ => stay (js_put invitation (js_password form) JF_Password None)
          | None => stay (js_put invitation (js_password form) (js_focus form)
                            (Some (lit "Paste an invitation URI before continuing.")))
          end
      | KC_Esc => Some (AA_None, form, Some (SCR_Menu MenuModel_default))
      | KC_Backspace => f ← tf_backspace (js_invitation form); stay (put_invitation f)
      | KC_Char ch => '(_, f) ← tf_insert_char ch (js_invitation form); stay (put_invitation f)
      | _ => stay form
      end
  | JF_Password =>
      '(r, password) ← secret_key (js_password form) key;
      let form := js_put (js_invitation form) password (js_focus form) (js_error form) in
      match r with
      | SS_Value p => Some (AA_JoinSetupSubmitted (tf_text (js_invitation form)) p, form, None)
      | SS_Cancel =>
          stay (js_put (tf_reopen (js_invitation form)) (sf_clear (js_password form)) JF_Invitation None)
      | SS_None => stay form
      end
  end.

Definition jf_put (nickname introduction : TextField) (focus : JoinFormField) (submitted : bool)
    (error : option rstring) : JoinFormModel := {|
  jf_nickname := nickname; jf_introduction := introduction; jf_focus := focus;
  jf_submitted := submitted; jf_error := error |}.

Definition on_join_form_key (form : JoinFormModel) (key : KeyEvent) : option (KeyResult JoinFormModel) :=
  let stay form := Some (AA_None, form, None) in
  let put_nickname f := jf_put f (jf_introduction form) (jf_focus form) (jf_submitted form) (jf_error form) in
  let put_introduction f := jf_put (jf_nickname form) f (jf_focus form) (jf_submitted form) (jf_error form) in
  match jf_focus form with
  | JFF_Nickname =>
      match ke_code key with
      | KC_Enter =>
          let '(value, nickname) := tf_submit (jf_nickname form) in
          match value with
          | Some _ => stay (jf_put nickname (jf_introduction form) JFF_Introduction (jf_submitted form) None)
          | None => stay (jf_put nickname (jf_introduction form) (jf_focus form) (jf_submitted form)
                            (Some (lit "Enter a nickname before continuing.")))
          end
      | KC_Esc => Some (AA_Room RUA_Leave, form, None)
      | KC_Backspace => f ← tf_backspace (jf_nickname form); stay (put_nickname f)
      | KC_Char ch => '(_, f) ← tf_insert_char ch (jf_nickname form); stay (put_nickname f)
      | _ => stay form
      end
  | JFF_Introduction =>
      match ke_code key with
      | KC_Enter =>
          if jf_submitted form then stay form else
          let '(introduction, field) :=
            if negb (non_empty (tf_text (jf_introduction form))) then (None, jf_introduction form)
            else let field := (tf_submit (jf_introduction form)).2 in (Some (tf_text field), field) in
          Some (AA_JoinFormSubmitted (tf_text (jf_nickname form)) introduction,
                jf_put (jf_nickname form) field (jf_focus form) true (jf_error form), Some SCR_JoinPending)
      | KC_Esc =>
          if jf_submitted form then stay form
          else stay (jf_put (tf_reopen (jf_nickname form)) (jf_introduction form) JFF_Nickname
                       (jf_submitted form) None)
      | KC_Backspace => f ← tf_backspace (jf_introduction form); stay (put_introduction f)
      | KC_Char ch => '(_, f) ← tf_insert_char ch (jf_introduction form); stay (put_introduction f)
      | _ => stay form
      end
  end.

(** ** The room screen *)

(** [Display] of [CommandError]. *)
Definition CommandError_to_string (e : CommandError) : rstring :=
  match e with
  | CE_EmptyLine => lit "input line is empty"
  | CE_UnknownCommand name => lit "unknown command " ++ backquoted (lit "/" ++ name)
  | CE_MissingArgument command => lit "command " ++ backquoted (lit "/" ++ command) ++ lit " requires an argument"
  | CE_UnexpectedArgument command arg =>
      lit "command " ++ backquoted (lit "/" ++ command) ++ lit " does not accept arguments, got " ++ backquoted arg
  | CE_InvalidArgument command detail =>
      lit "invalid argument for " ++ backquoted (lit "/" ++ command) ++ lit ": " ++ detail
  | CE_ControlCharacterNotAllowed command =>
      lit "argument for " ++ backquoted (lit "/" ++ command)
        ++ lit " contains control characters or ANSI escape sequences"
  end.

Definition help_text : rstring :=
  lit "/help, /exit, /leave, /color <color>, /list, /whois <member>, "
  ++ lit "/kick <member>, /newid, /reqon, /reqoff, /requests, /accept <id>, "
  ++ lit "/reject <id>, /copy, /clear, /timeout <seconds|off>, "
  ++ lit "/timeoutreq <seconds>, /color list; shortcuts: Ctrl-K "
  ++ lit "message filter, Ctrl-T host/member view".

Definition copy_action (v : RoomView) : AppAction :=
  match rv_invitation v with
  | Some uri => AA_Room (RUA_CopyInvitation uri)
  | None => AA_Room (RUA_Error (lit "no invitation is available to copy yet"))
  end.

Definition command_action (command : SlashCommand) (now : Clock) (v : RoomView) : AppAction * RoomView :=
  match command with
  | SC_Help => (AA_None, push_system help_text now v)
  | SC_Copy => (copy_action v, v)
  | SC_ColorList => (AA_None, push_color_list now v)
  | SC_Clear => (AA_None, clear_messages v)
  | SC_Timeout _ =>
      if negb (rv_is_host v)
      then (AA_Room (RUA_Error (lit "that command is only available to the host; use /timeoutreq <seconds>")), v)
      else (AA_Room (RUA_Command command), v)
  | SC_TimeoutRequest _ =>
      if rv_is_host v
      then (AA_Room (RUA_Error (lit "that command is only available to room members")), v)
      else (AA_Room (RUA_Command command), v)
  | SC_Leave =>
      if rv_is_host v
      then (AA_Room (RUA_Error (lit "The host cannot /leave; use /exit to close the room.")), v)
      else (AA_Room RUA_Leave, v)
  | SC_Exit => (AA_Room RUA_Exit, v)
  | other => (AA_Room (RUA_Command other), v)
  end.

(** Enter. *)
Definition room_enter (now : Clock) (v : RoomView) : AppAction * RoomView :=
  let text := tf_text (rv_input v) in
  let v := (submit_line v).2 in
  if negb (non_empty text) then (AA_None, v) else
  match parse_line text with
  | Ok (PL_Chat chat) =>
      if negb (rv_is_host v) then (AA_Room (RUA_Chat chat), v)
      else (AA_Room (RUA_Error
             (lit "the host cannot send chat messages; join the room from a second tab to chat")), v)
  | Ok (PL_Command command) => command_action command now v
  | Err error => (AA_Room (RUA_Error (CommandError_to_string error)), v)
  end.

Definition is_char (key : KeyEvent) (a b : N) : bool :=
  match ke_code key with KC_Char ch => (ch =? a)%N || (ch =? b)%N | _ => false end.

Definition on_room_key (key : KeyEvent) (now : Clock) (v : RoomView) : option (AppAction * RoomView) :=
  let edit (f : option TextField) := input ← f; Some (AA_None, rv_put_input input v) in
  let control := bool_decide (ke_modifiers key = KM_Control) in
  match ke_code key with
  | KC_Enter => Some (room_enter now v)
  | KC_Backspace => edit (tf_backspace (rv_input v))
  | KC_Delete => edit (tf_delete (rv_input v))
  | KC_Left => edit (tf_move_left (rv_input v))
  | KC_Right => edit (tf_move_right (rv_input v))
  | KC_Home => edit (Some (tf_move_home (rv_input v)))
  | KC_End => edit (Some (tf_move_end (rv_input v)))
  | KC_Esc => edit (Some (tf_clear (rv_input v)))
  | KC_Char ch =>
      if is_char key 107 75 && control then Some (AA_None, toggle_system_messages v)
      else if is_char key 116 84 && control then Some (AA_None, (toggle_host_member_view v).2)
      else if control && (ch =? 121)%N then Some (copy_action v, v)
      else if bool_decide (ke_modifiers key = KM_None) || bool_decide (ke_modifiers key = KM_Shift)
      then edit (snd <$> tf_insert_char ch (rv_input v))
      else Some (AA_None, v)
  | _ => Some (AA_None, v)
  end.

(** ** The application *)

(** The action and the screen a key leads to. *)
Definition screen_key (key : KeyEvent) (now : Clock) (s : Screen) : option (AppAction * Screen) :=
  match s with
  | SCR_Menu menu => '(a, m, next) ← on_menu_key menu key; Some (a, default (SCR_Menu m) next)
  | SCR_TorConnecting _ | SCR_JoinPending => Some (AA_None, s)
  | SCR_HostSetup form => '(a, f, next) ← on_host_setup_key form key; Some (a, default (SCR_HostSetup f) next)
  | SCR_JoinSetup form => '(a, f, next) ← on_join_setup_key form key; Some (a, default (SCR_JoinSetup f) next)
  | SCR_JoinForm form => '(a, f, next) ← on_join_form_key form key; Some (a, default (SCR_JoinForm f) next)
  | SCR_Room view => '(a, v) ← on_room_key key now view; Some (a, SCR_Room v)
  | SCR_About | SCR_Message _ => Some (AA_None, SCR_Menu MenuModel_default)
  end.

Definition is_quit (action : AppAction) : bool := match action with AA_Quit => true | _ => false end.

Definition on_key (key : KeyEvent) (now : Clock) (a : App) : option (AppAction * App) :=
  '(action, screen) ← screen_key key now (app_screen a);
  Some (action, {| app_screen := screen; app_quit := app_quit a || is_quit action |}).

Definition screen_paste (text : rstring) (s : Screen) : option Screen :=
  match s with
  | SCR_HostSetup form =>
      match hs_focus form with
      | HF_Password => Some (SCR_HostSetup (hs_put_entry (sf_push_text text (hs_password form))
                         (hs_confirm form) (hs_focus form) (hs_error form) form))
      | HF_Confirm => Some (SCR_HostSetup (hs_put_entry (hs_password form)
                        (sf_push_text text (hs_confirm form)) (hs_focus form) (hs_error form) form))
      | HF_Nickname => f ← tf_insert_text text (hs_nickname form);
                       Some (SCR_HostSetup (hs_put_nickname f (hs_error form) form))
      end
  | SCR_JoinSetup form =>
      match js_focus form with
      | JF_Invitation => f ← tf_insert_text text (js_invitation form);
                         Some (SCR_JoinSetup (js_put f (js_password form) (js_focus form) (js_error form)))
      | JF_Password => Some (SCR_JoinSetup (js_put (js_invitation form)
                         (sf_push_text text (js_password form)) (js_focus form) (js_error form)))
      end
  | SCR_JoinForm form =>
      match jf_focus form with
      | JFF_Nickname => f ← tf_insert_text text (jf_nickname form);
          Some (SCR_JoinForm (jf_put f (jf_introduction form) (jf_focus form) (jf_submitted form) (jf_error form)))
      | JFF_Introduction => f ← tf_insert_text text (jf_introduction form);
          Some (SCR_JoinForm (jf_put (jf_nickname form) f (jf_focus form) (jf_submitted form) (jf_error form)))
      end
  | SCR_Room view => f ← tf_insert_text text (rv_input view); Some (SCR_Room (rv_put_input f view))
  | SCR_Menu _ | SCR_TorConnecting _ | SCR_JoinPending | SCR_About | SCR_Message _ => Some s
  end.

Definition on_paste (text : rstring) (a : App) : option App :=
  s ← screen_paste text (app_screen a); Some (set_screen s a).

Inductive MenuChoice := MC_Host | MC_Join | MC_About | MC_Exit.

Definition selected_menu_choice (a : App) : option MenuChoice :=
  match app_screen a with
  | SCR_Menu _ | SCR_TorConnecting _ => None
  | SCR_HostSetup _ => Some MC_Host
  | SCR_JoinSetup _ | SCR_JoinForm _ | SCR_JoinPending => Some MC_Join
  | SCR_About => Some MC_About
  | SCR_Room _ | SCR_Message _ => None
  end.
