(* ===== verification/ScreenProps.v ===== *)
(** The screens: no key panics, a room password is the one typed twice, and
    what a room screen hands to the supervisor is admissible for its
    participant. *)
From Stdlib Require Import Strings.String.
From S2P Require Export Screens.

(** Keys carry characters. *)
Definition key_ok (key : KeyEvent) : Prop :=
  match ke_code key with KC_Char ch => is_scalar ch = true | _ => True end.

(** * Fields *)

Definition text_field_ok (max : usize) (f : TextField) : Prop :=
  tf_max_bytes f = max ∧ ∃ l, shows f l ∧ line_ok max l.

Definition secret_field_ok (max : usize) (f : SecretField) : Prop :=
  sf_max_bytes f = max ∧ ∃ s, holds f s ∧ (str_len s <= max)%N.

Lemma text_field_new max : text_field_ok max (TextField_new max).
Proof. split; [done|]. exists Line_new. split; [done|]. by split; [apply N.le_0_l|]. Qed.

Lemma secret_field_new max : secret_field_ok max (SecretField_new max).
Proof. split; [done|]. exists []. split; [by constructor|apply N.le_0_l]. Qed.

Lemma text_field_edit max e f :
  text_field_ok max f → ∃ f', tf_edit e f = Some f' ∧ text_field_ok max f'.
Proof.
  intros [Hm (l & Hs & Hl)]. destruct (edit_shows e f l Hs) as (f' & Hr & Hs' & Hm').
  rewrite Hm in *. exists f'. split; [done|]. split; [done|]. exists (line_edit max e l). split; [done|].
  by apply edit_line_ok.
Qed.

Lemma text_field_insert max ch f :
  text_field_ok max f → ∃ b f', tf_insert_char ch f = Some (b, f') ∧ text_field_ok max f'.
Proof.
  intros Hf. destruct (text_field_edit max (ED_Insert ch) f Hf) as (f' & Hr & Hok). simpl in Hr.
  destruct (tf_insert_char ch f) as [[b g]|]; [|done]. injection Hr as ->. by exists b, f'.
Qed.

Lemma text_field_submit max f : text_field_ok max f → text_field_ok max (tf_submit f).2.
Proof. intros Hf. destruct (text_field_edit max ED_Submit f Hf) as (f' & [= <-] & Hok). done. Qed.

Lemma text_field_text max f :
  text_field_ok max f → (str_len (tf_text f) <= max)%N ∧ text_safe (tf_text f).
Proof. intros [_ (l & [-> _ _] & Hl)]. exact Hl. Qed.

Lemma secret_field_edit max e f :
  secret_field_ok max f → Forall (λ c, is_scalar c = true) (edit_chars e) →
  ∃ f', sf_edit e f = Some f' ∧ secret_field_ok max f'.
Proof.
  intros [Hm (s & Hh & Hl)] He. destruct (sf_complete f) eqn:Hc.
  - assert (Hskip : ∀ ch, (sf_push_char ch f).2 = f) by (intros ch; unfold sf_push_char; by rewrite Hc).
    destruct e as [ch|text| |]; cbn [sf_edit].
    + rewrite Hskip. exists f. split; [done|]. split; [done|]. by exists s.
    + exists f. split; [|split; [done|by exists s]]. f_equal. unfold sf_push_text. clear He.
      induction text as [|ch text IH]; [done|]. cbn [foldl]. by rewrite Hskip.
    + exists f. split; [|split; [done|by exists s]]. unfold sf_pop. rewrite Hc. by destruct (sf_bytes f).
    + exists (sf_clear f). split; [done|]. unfold sf_clear. rewrite Hm. apply secret_field_new.
  - destruct (secret_edit_holds max e f s He Hm Hc Hh Hl) as (f1 & Hr & Hm1 & _ & Hh1 & Hl1).
    exists f1. split; [done|]. split; [done|]. eauto.
Qed.

Lemma secret_field_submit max f : secret_field_ok max f → secret_field_ok max (sf_submit f).2.
Proof.
  intros [Hm (s & Hh & Hl)]. unfold sf_submit. destruct (sf_complete f); [split; [done|by exists s]|].
  destruct (sf_bytes f); [split; [done|by exists s]|]. split; [done|]. exists [].
  split; [by constructor|apply N.le_0_l].
Qed.

Lemma secret_key_ok max f key :
  secret_field_ok max f → key_ok key → ∃ r f', secret_key f key = Some (r, f') ∧ secret_field_ok max f'.
Proof.
  intros Hf Hk. unfold secret_key. unfold key_ok in Hk. destruct (ke_code key); try (by eexists _, _).
  - destruct (secret_field_edit max (SE_Push ch) f Hf) as (f' & [= <-] & Hok); [by constructor|].
    by eexists _, _.
  - pose proof (secret_field_submit max f Hf) as Hs. destruct (sf_submit f). by eexists _, _.
  - destruct (secret_field_edit max SE_Pop f Hf) as (f' & Hr & Hok); [by constructor|]. simpl in Hr. rewrite Hr.
    by eexists _, _.
Qed.

Lemma secret_field_paste max text f :
  secret_field_ok max f → Forall (λ c, is_scalar c = true) text → secret_field_ok max (sf_push_text text f).
Proof. intros Hf Ht. by destruct (secret_field_edit max (SE_Paste text) f Hf Ht) as (f' & [= <-] & Hok). Qed.

(** * No key panics *)

Definition screen_ok (s : Screen) : Prop :=
  match s with
  | SCR_Menu m => (menu_selection m < 4)%N
  | SCR_TorConnecting m => (tc_progress m <= 100)%N
  | SCR_HostSetup form =>
      secret_field_ok form_max (hs_password form) ∧ secret_field_ok form_max (hs_confirm form) ∧
      text_field_ok form_max (hs_nickname form)
  | SCR_JoinSetup form => text_field_ok 1024 (js_invitation form) ∧ secret_field_ok form_max (js_password form)
  | SCR_JoinForm form => text_field_ok form_max (jf_nickname form) ∧
      text_field_ok (max_intro_scalars Limits_default * 4) (jf_introduction form)
  | SCR_Room v => view_ok v
  | SCR_JoinPending | SCR_About | SCR_Message _ => True
  end.

(** What drives the application: the terminal, and the supervisor. *)
Inductive AppInput :=
| AI_Key (key : KeyEvent)
| AI_Paste (text : rstring)
| AI_Message (text : rstring)
| AI_BackToMenu
| AI_BeginTor
| AI_TorProgress (progress : u8)
| AI_JoinForm
| AI_JoinPending
| AI_EnterRoom (is_host : bool) (nickname : rstring)
| AI_View (op : ViewOp).

Definition typed_ok (i : AppInput) : Prop :=
  match i with
  | AI_Key key => key_ok key
  | AI_Paste text => Forall (λ c, is_scalar c = true) text
  | _ => True
  end.

Definition app_input (i : AppInput) (now : Clock) (a : App) : option (AppAction * App) :=
  match i with
  | AI_Key key => on_key key now a
  | AI_Paste text => a ← on_paste text a; Some (AA_None, a)
  | AI_Message text => Some (AA_None, show_message text a)
  | AI_BackToMenu => Some (AA_None, back_to_menu a)
  | AI_BeginTor => Some (AA_None, begin_tor_connection a)
  | AI_TorProgress progress => Some (AA_None, set_tor_progress progress a)
  | AI_JoinForm => Some (AA_None, set_screen (SCR_JoinForm JoinFormModel_new) a)
  | AI_JoinPending => Some (AA_None, show_join_pending a)
  | AI_EnterRoom is_host nickname => Some (AA_None, enter_room (RoomView_new is_host nickname now) a)
  | AI_View op =>
      match app_screen a with
      | SCR_Room v => v ← view_op op now v; Some (AA_None, set_screen (SCR_Room v) a)
      | _ => Some (AA_None, a)
      end
  end.

(** The actions of a run. *)
Fixpoint app_run (inputs : list (AppInput * Clock)) (a : App) : option (list AppAction * App) :=
  match inputs with
  | [] => Some ([], a)
  | (i, now) :: inputs =>
      '(action, a) ← app_input i now a; '(actions, a) ← app_run inputs a; Some (action :: actions, a)
  end.

(** A key was handled, and left its own screen and the next one well formed. *)
Definition handled {S} (ok : S → Prop) (r : option (KeyResult S)) : Prop :=
  match r with
  | Some (_, model, next) => ok model ∧ match next with Some s => screen_ok s | None => True end
  | None => False
  end.

Lemma menu_key_ok m key : screen_ok (SCR_Menu m) → handled (λ m, screen_ok (SCR_Menu m)) (on_menu_key m key).
Proof.
  intros Hm. assert (Hmove : ∀ d, screen_ok (SCR_Menu (move_selection d m))).
  { intros d. unfold screen_ok, move_selection, MENU_ITEMS. cbn [menu_selection length].
    pose proof (Z.mod_pos_bound (Z.of_N (menu_selection m) + d) (Z.of_nat 4)). lia. }
  assert (Hstay : ∀ a, handled (λ m, screen_ok (SCR_Menu m)) (Some (a, m, None))) by done.
  assert (Hmv : ∀ d, handled (λ m, screen_ok (SCR_Menu m)) (Some (AA_None, move_selection d m, None))).
  { intros d. split; [apply Hmove|done]. }
  unfold on_menu_key. destruct (ke_code key) as [ch| | | | | | | | | | |]; try apply Hstay; try apply Hmv.
  - repeat (apply Hmv || apply Hstay || case_match).
  - unfold selected_label. assert (Hn : (N.to_nat (menu_selection m) < 4)%nat) by (simpl in Hm; lia).
    destruct (lookup_lt_is_Some_2 MENU_ITEMS (N.to_nat (menu_selection m)) Hn) as [label ->].
    cbn [mbind option_bind]. repeat case_match; (split; [done|]); cbn; split_and?;
      first [done|apply secret_field_new|apply text_field_new].
Qed.

Lemma handled_bind {A S} (ok : S → Prop) (P : A → Prop) (r : option A) k :
  (∃ x, r = Some x ∧ P x) → (∀ x, P x → handled ok (k x)) → handled ok (r ≫= k).
Proof. intros (x & -> & Hx) Hk. by apply Hk. Qed.

Lemma host_key_ok form key :
  screen_ok (SCR_HostSetup form) → key_ok key →
  handled (λ form, screen_ok (SCR_HostSetup form)) (on_host_setup_key form key).
Proof.
  intros (Hp & Hc & Hn) Hk. unfold on_host_setup_key. unfold key_ok in Hk.
  assert (Hrestart : handled (λ form, screen_ok (SCR_HostSetup form))
    (Some (AA_None, restart_password_entry form, None))).
  { split; [|done]. destruct Hp as [Hp _], Hc as [Hc _]. unfold screen_ok, restart_password_entry, sf_clear.
    cbn [hs_password hs_confirm hs_nickname]. rewrite Hp, Hc. by split_and!; try apply secret_field_new. }
  destruct (hs_focus form).
  - destruct (secret_key_ok _ _ _ Hp Hk) as (r & p & -> & Hp'). cbn [mbind option_bind].
    by destruct r.
  - destruct (secret_key_ok _ _ _ Hc Hk) as (r & c & -> & Hc'). cbn [mbind option_bind].
    destruct r as [|p|]; [done| |].
    + case_bool_decide; [done|]. split; [|done]. split_and!; [done| |done]. cbn.
      destruct Hc' as [Hm _]. unfold sf_clear. rewrite Hm. apply secret_field_new.
    + split; [|done]. destruct Hp as [Hp _], Hc' as [Hm _]. unfold screen_ok, restart_password_entry, sf_clear.
      cbn [hs_put_entry hs_password hs_confirm hs_nickname]. rewrite Hp, Hm. by split_and!; try apply secret_field_new.
  - destruct (ke_code key) as [ch| | | | | | | | | | |]; try done.
    + destruct (text_field_insert _ ch _ Hn) as (b & f & -> & Hf). done.
    + pose proof (text_field_submit _ _ Hn) as Hs. destruct (tf_submit _) as [[v|] f]; done.
    + destruct (text_field_edit _ ED_Backspace _ Hn) as (f & Hr & Hf). simpl in Hr. by rewrite Hr.
Qed.

Lemma join_setup_key_ok form key :
  screen_ok (SCR_JoinSetup form) → key_ok key →
  handled (λ form, screen_ok (SCR_JoinSetup form)) (on_join_setup_key form key).
Proof.
  intros (Hi & Hp) Hk. unfold on_join_setup_key. unfold key_ok in Hk. destruct (js_focus form).
  - destruct (ke_code key) as [ch| | | | | | | | | | |]; try done.
    + destruct (text_field_insert _ ch _ Hi) as (b & f & -> & Hf). done.
    + pose proof (text_field_submit _ _ Hi) as Hs. destruct (tf_submit _) as [[v|] f]; done.
    + destruct (text_field_edit _ ED_Backspace _ Hi) as (f & Hr & Hf). simpl in Hr. by rewrite Hr.
  - destruct (secret_key_ok _ _ _ Hp Hk) as (r & p & -> & Hp'). cbn [mbind option_bind].
    destruct r; [done..|]. split; [|done]. destruct (text_field_edit _ ED_Reopen _ Hi) as (f & [= <-] & Hf).
    split; [exact Hf|]. cbn. destruct Hp' as [Hm _]. unfold sf_clear. rewrite Hm. apply secret_field_new.
Qed.

Lemma join_form_key_ok form key :
  screen_ok (SCR_JoinForm form) → key_ok key →
  handled (λ form, screen_ok (SCR_JoinForm form)) (on_join_form_key form key).
Proof.
  intros (Hn & Hi) Hk. unfold on_join_form_key. unfold key_ok in Hk. destruct (jf_focus form).
  - destruct (ke_code key) as [ch| | | | | | | | | | |]; try done.
    + destruct (text_field_insert _ ch _ Hn) as (b & f & -> & Hf). done.
    + pose proof (text_field_submit _ _ Hn) as Hs. destruct (tf_submit _) as [[v|] f]; done.
    + destruct (text_field_edit _ ED_Backspace _ Hn) as (f & Hr & Hf). simpl in Hr. by rewrite Hr.
  - destruct (ke_code key) as [ch| | | | | | | | | | |]; try done.
    + destruct (text_field_insert _ ch _ Hi) as (b & f & -> & Hf). done.
    + destruct (jf_submitted form); [done|]. destruct (negb _); [done|]. split; [|done].
      split; [done|]. by apply text_field_submit.
    + destruct (jf_submitted form); [done|]. split; [|done].
      by destruct (text_field_edit _ ED_Reopen _ Hn) as (f & [= <-] & Hf).
    + destruct (text_field_edit _ ED_Backspace _ Hi) as (f & Hr & Hf). simpl in Hr. by rewrite Hr.
Qed.

(** Keys in a room are view operations. *)
Lemma view_op_Some op now v v' : view_ok v → view_op op now v = Some v' → view_ok v'.
Proof. intros Hv Hr. destruct (view_op_ok op now v Hv) as (w & Hw & Hok). congruence. Qed.

Lemma command_action_ok c now v : view_ok v → view_ok (command_action c now v).2.
Proof.
  intros Hv. destruct c; cbn; try done; try (by case_match).
  - by apply (view_op_Some (VO_System help_text) now v).
  - by apply (view_op_Some VO_ColorList now v).
  - by apply (view_op_Some VO_Clear now v).
Qed.

Lemma room_enter_ok now v : view_ok v → view_ok (room_enter now v).2.
Proof.
  intros Hv. unfold room_enter. pose proof (submit_line_ok v Hv) as Hs. destruct (negb _); [done|].
  destruct (parse_line _) as [[c|t]|e]; [by apply command_action_ok|by destruct (negb _)|done].
Qed.

Lemma room_key_ok v key now :
  view_ok v → ∃ a v', on_room_key key now v = Some (a, v') ∧ view_ok v'.
Proof.
  intros Hv.
  assert (Hedit : ∀ e, e ≠ ED_Submit → ∃ a v', (input ← tf_edit e (rv_input v); Some (AA_None, rv_put_input input v))
    = Some (a, v') ∧ view_ok v').
  { intros e He. destruct (input_edit_ok e _ (vw_input v Hv) He) as (f & -> & Hf). eexists _, _. split; [done|].
    by apply put_input_ok. }
  unfold on_room_key. destruct (ke_code key) as [ch| | | | | | | | | | |]; try (by eexists _, _).
  - destruct (is_char key 107 75 && _).
    { eexists _, _. split; [done|]. by apply (view_op_Some VO_ToggleSystem now v). }
    destruct (is_char key 116 84 && _).
    { eexists _, _. split; [done|]. by apply (view_op_Some VO_ToggleLayout now v). }
    destruct (_ && _); [by eexists _, _|]. destruct (_ || _); [|by eexists _, _]. by apply (Hedit (ED_Insert ch)).
  - eexists _, _. split; [apply f_equal, surjective_pairing|]. by apply room_enter_ok.
  - by apply (Hedit ED_Clear).
  - by apply (Hedit ED_Backspace).
  - by apply (Hedit ED_Delete).
  - by apply (Hedit ED_Left).
  - by apply (Hedit ED_Right).
  - by apply (Hedit ED_Home).
  - by apply (Hedit ED_End).
Qed.

Lemma handled_next {S} (ok : S → Prop) r (wrap : S → Screen) :
  handled ok r → (∀ m, ok m → screen_ok (wrap m)) →
  ∃ a s, ('(a, m, next) ← r; Some (a : AppAction, default (wrap m) next)) = Some (a, s) ∧ screen_ok s.
Proof.
  destruct r as [[[a m] next]|]; [|done]. intros [Hm Hn] Hw. cbn [mbind option_bind].
  eexists _, _. split; [done|]. destruct next; [done|]. by apply Hw.
Qed.

Lemma screen_key_ok key now s :
  screen_ok s → key_ok key → ∃ a s', screen_key key now s = Some (a, s') ∧ screen_ok s'.
Proof.
  intros Hs Hk. destruct s; cbn [screen_key]; try (by eexists _, _).
  - eapply handled_next; [by apply menu_key_ok|done].
  - eapply handled_next; [by apply host_key_ok|done].
  - eapply handled_next; [by apply join_setup_key_ok|done].
  - eapply handled_next; [by apply join_form_key_ok|done].
  - destruct (room_key_ok view key now Hs) as (a & v & -> & Hv). cbn [mbind option_bind]. by eexists _, _.
Qed.

Lemma screen_paste_ok text s :
  screen_ok s → Forall (λ c, is_scalar c = true) text → ∃ s', screen_paste text s = Some s' ∧ screen_ok s'.
Proof.
  intros Hs Ht. assert (Hpaste : ∀ max f, text_field_ok max f →
    ∃ f', tf_insert_text text f = Some f' ∧ text_field_ok max f') by (intros max f; apply (text_field_edit max (ED_Paste text))).
  destruct s as [m|m|form|form|form| |v| |t]; cbn [screen_paste]; try (by eexists).
  - destruct Hs as (Hp & Hc & Hn). destruct (hs_focus form).
    + eexists. split; [done|]. split_and!; [by apply secret_field_paste|done..].
    + eexists. split; [done|]. split_and!; [done|by apply secret_field_paste|done].
    + destruct (Hpaste _ _ Hn) as (f & -> & Hf). by eexists.
  - destruct Hs as (Hi & Hp). destruct (js_focus form).
    + destruct (Hpaste _ _ Hi) as (f & -> & Hf). by eexists.
    + eexists. split; [done|]. split; [done|by apply secret_field_paste].
  - destruct Hs as (Hn & Hi). destruct (jf_focus form).
    + destruct (Hpaste _ _ Hn) as (f & -> & Hf). by eexists.
    + destruct (Hpaste _ _ Hi) as (f & -> & Hf). by eexists.
  - destruct (input_edit_ok (ED_Paste text) _ (vw_input v Hs)) as (f & Hr & Hf); [done|]. cbn [tf_edit] in Hr. rewrite Hr.
    eexists. split; [done|]. by apply put_input_ok.
Qed.

Lemma app_input_ok i now a :
  screen_ok (app_screen a) → typed_ok i →
  ∃ action a', app_input i now a = Some (action, a') ∧ screen_ok (app_screen a').
Proof.
  intros Hs Hi. destruct i; cbn [app_input typed_ok] in *; try (by eexists _, _).
  - unfold on_key. destruct (screen_key_ok key now _ Hs Hi) as (action & s & -> & Hs'). by eexists _, _.
  - unfold on_paste. destruct (screen_paste_ok text _ Hs Hi) as (s & -> & Hs'). by eexists _, _.
  - eexists _, _. split; [done|]. unfold set_tor_progress. destruct (app_screen a) eqn:E; try done; try (by rewrite E).
    simpl. unfold screen_ok, set_progress. simpl. lia.
  - eexists _, _. split; [done|]. split; apply text_field_new.
  - eexists _, _. split; [done|]. apply new_view_ok.
  - destruct (app_screen a) as [| | | | | |v| |] eqn:E; try (eexists _, _; split; [done|by rewrite E]).
    destruct (view_op_ok op now v Hs) as (v' & -> & Hv). by eexists _, _.
Qed.

Lemma app_run_ok inputs : ∀ a,
  screen_ok (app_screen a) → Forall (λ i, typed_ok i.1) inputs →
  ∃ actions a', app_run inputs a = Some (actions, a') ∧ screen_ok (app_screen a').
Proof.
  induction inputs as [|[i now] inputs IH]; intros a Ha Hi; [by exists [], a|].
  apply list.Forall_cons in Hi as [H1 Hi]. cbn [app_run].
  destruct (app_input_ok i now a Ha H1) as (action & a1 & -> & Ha1). cbn [mbind option_bind].
  destruct (IH a1 Ha1 Hi) as (actions & a2 & -> & Ha2). cbn [mbind option_bind]. by eexists _, _.
Qed.

(** The terminal never crashes the application: whatever is typed and
    pasted, and whatever the supervisor shows in between, every key is
    handled, the menu's selection stays on the menu, every field keeps its
    cursor on a character and its limit, and a room's screen stays safe to
    draw. *)
Theorem keys_never_panic inputs :
  Forall (λ i, typed_ok i.1) inputs →
  ∃ actions a, app_run inputs App_new = Some (actions, a) ∧ screen_ok (app_screen a).
Proof. by apply app_run_ok. Qed.

(** * The host's password is typed twice *)

(** What is being entered: the password for the first time, the password
    again, or the nickname, on which stepping back has no effect. *)
Inductive DraftStage :=
| DS_Choose (typed : rstring)
| DS_Confirm (chosen typed : rstring)
| DS_Name (chosen : rstring).

Record Draft := { df_stage : DraftStage; df_name : Line }.

Inductive DraftResult :=
| DR_Editing (d : Draft)
| DR_Abandoned
| DR_Submitted (password nickname : rstring).

Definition draft_put (st : DraftStage) (d : Draft) : DraftResult :=
  DR_Editing {| df_stage := st; df_name := df_name d |}.

(** A key that edits a password. *)
Definition typed_key (key : KeyEvent) (typed : rstring) : rstring :=
  match ke_code key with
  | KC_Char ch => secret_insert form_max typed ch
  | KC_Backspace => removelast typed
  | _ => typed
  end.

Definition draft_key (key : KeyEvent) (d : Draft) : DraftResult :=
  match df_stage d, ke_code key with
  | DS_Choose [], KC_Enter => DR_Editing d
  | DS_Choose typed, KC_Enter => draft_put (DS_Confirm typed []) d
  | DS_Choose _, KC_Esc => DR_Abandoned
  | DS_Choose typed, _ => draft_put (DS_Choose (typed_key key typed)) d
  | DS_Confirm _ [], KC_Enter => DR_Editing d
  | DS_Confirm chosen typed, KC_Enter =>
      draft_put (if bool_decide (typed = chosen) then DS_Name chosen else DS_Confirm chosen []) d
  | DS_Confirm _ _, KC_Esc => draft_put (DS_Choose []) d
  | DS_Confirm chosen typed, _ => draft_put (DS_Confirm chosen (typed_key key typed)) d
  | DS_Name chosen, KC_Enter =>
      let nickname := ln_before (df_name d) ++ ln_after (df_name d) in
      if non_empty nickname then DR_Submitted chosen nickname else DR_Editing d
  | DS_Name _, KC_Esc => draft_put (DS_Choose []) d
  | DS_Name chosen, KC_Backspace =>
      DR_Editing {| df_stage := DS_Name chosen; df_name := line_edit form_max ED_Backspace (df_name d) |}
  | DS_Name chosen, KC_Char ch =>
      DR_Editing {| df_stage := DS_Name chosen; df_name := line_edit form_max (ED_Insert ch) (df_name d) |}
  | DS_Name _, _ => DR_Editing d
  end.

(** A secret field that can be typed in and holds [s]. *)
Record typing (f : SecretField) (s : rstring) : Prop := {
  ty_max : sf_max_bytes f = form_max;
  ty_open : sf_complete f = false;
  ty_holds : holds f s;
  ty_len : (str_len s <= form_max)%N;
}.

Definition chosen_ok (form : HostSetupModel) (chosen : rstring) : Prop :=
  hs_stored form = Some (utf8 chosen) ∧ Forall (λ c, is_scalar c = true) chosen.

(** The form shows the draft. *)
Record drafts (form : HostSetupModel) (d : Draft) : Prop := {
  fd_password : sf_max_bytes (hs_password form) = form_max;
  fd_confirm : sf_max_bytes (hs_confirm form) = form_max;
  fd_name : shows (hs_nickname form) (df_name d) ∧ ln_done (df_name d) = false ∧
    tf_max_bytes (hs_nickname form) = form_max;
  fd_stage : match df_stage d with
    | DS_Choose typed => hs_focus form = HF_Password ∧ typing (hs_password form) typed ∧ typing (hs_confirm form) []
    | DS_Confirm chosen typed => hs_focus form = HF_Confirm ∧ chosen_ok form chosen ∧ typing (hs_confirm form) typed
    | DS_Name chosen => hs_focus form = HF_Nickname ∧ chosen_ok form chosen
    end;
}.

Lemma typing_new f : sf_max_bytes f = form_max → typing (sf_clear f) [].
Proof. intros Hm. constructor; [done|done|by constructor|apply N.le_0_l]. Qed.

Lemma typing_edit f s e :
  typing f s → Forall (λ c, is_scalar c = true) (edit_chars e) →
  ∃ f', sf_edit e f = Some f' ∧ typing f' (secret_edit form_max e s).
Proof.
  intros [Hm Ho Hh Hl] He. destruct (secret_edit_holds _ e f s He Hm Ho Hh Hl) as (f' & Hr & H1 & H2 & H3 & H4).
  exists f'. split; [done|]. by constructor.
Qed.

(** A key on a password field. *)
Lemma secret_key_typing f s key :
  typing f s → key_ok key →
  ∃ r f', secret_key f key = Some (r, f') ∧
    match ke_code key with
    | KC_Enter => match s with
                  | [] => r = SS_None ∧ typing f' []
                  | _ => r = SS_Value (utf8 s) ∧ sf_max_bytes f' = form_max
                  end
    | KC_Esc => r = SS_Cancel ∧ typing f' s
    | _ => r = SS_None ∧ typing f' (typed_key key s)
    end.
Proof.
  intros Ht Hk. unfold secret_key, typed_key. unfold key_ok in Hk.
  destruct (ke_code key) as [ch| | | | | | | | | | |]; try (by eexists _, _).
  - destruct (typing_edit f s (SE_Push ch) Ht) as (f' & [= <-] & Ht'); [by constructor|]. by eexists _, _.
  - unfold sf_submit. rewrite (ty_open _ _ Ht), (ho_bytes _ _ (ty_holds _ _ Ht)).
    destruct s as [|c s]; [by eexists _, _|].
    destruct (utf8 (c :: s)) as [|b bs] eqn:E.
    { assert (str_len (c :: s) = 0%N) as Hz by (unfold str_len; by rewrite E). by apply str_len_zero in Hz. }
    eexists _, _. split; [done|]. split; [done|apply Ht].
  - destruct (typing_edit f s SE_Pop Ht) as (f' & Hr & Ht'); [by constructor|]. simpl in Hr. rewrite Hr.
    by eexists _, _.
Qed.

Lemma restart_drafts form d :
  drafts form d →
  drafts (restart_password_entry form) {| df_stage := DS_Choose []; df_name := df_name d |}.
Proof.
  intros [Hp Hc Hn _]. constructor; [done..|]. cbn. split; [done|].
  split; by apply typing_new.
Qed.

(** The action of the form and the screen after it. *)
Definition agrees (r : DraftResult) (k : option (KeyResult HostSetupModel)) : Prop :=
  match k, r with
  | Some (action, form, next), DR_Editing d => action = AA_None ∧ next = None ∧ drafts form d
  | Some (action, form, next), DR_Abandoned => action = AA_None ∧ next = Some (SCR_Menu MenuModel_default)
  | Some (action, form, next), DR_Submitted password nickname =>
      action = AA_HostSetupSubmitted (utf8 password) nickname ∧ next = None
  | None, _ => False
  end.

Lemma agrees_choose form d typed key :
  drafts form d → df_stage d = DS_Choose typed → key_ok key →
  agrees (draft_key key d) (on_host_setup_key form key).
Proof.
  intros [Hp Hc Hn Hs] Est Hk. rewrite Est in Hs. destruct Hs as (Hf & Htp & Htc).
  unfold on_host_setup_key, draft_key. rewrite Hf, Est.
  destruct (secret_key_typing _ _ _ Htp Hk) as (r & f' & -> & Hr). cbn [mbind option_bind].
  assert (Hsame : ∀ t, typing f' t → drafts (hs_put_entry f' (hs_confirm form) HF_Password (hs_error form) form)
    {| df_stage := DS_Choose t; df_name := df_name d |}).
  { intros t Ht. constructor; [apply Ht|done..]. }
  destruct (ke_code key) as [ch| | | | | | | | | | |] eqn:Ek;
    try (destruct Hr as [-> Ht]; destruct typed; split_and!; try done; by apply Hsame).
  destruct typed as [|c typed].
  - destruct Hr as [-> Ht]. split_and!; [done..|]. replace d with {| df_stage := DS_Choose []; df_name := df_name d |}
      by (destruct d; simpl in *; congruence). by apply Hsame.
  - destruct Hr as [-> Hm]. split_and!; [done..|]. constructor; [done|done|done|]. cbn. split; [done|].
    split; [|done]. split; [done|]. apply Htp.
Qed.

Lemma agrees_confirm form d chosen typed key :
  drafts form d → df_stage d = DS_Confirm chosen typed → key_ok key →
  agrees (draft_key key d) (on_host_setup_key form key).
Proof.
  intros Hd Est Hk. pose proof Hd as [Hp Hc Hn Hs]. rewrite Est in Hs. destruct Hs as (Hf & [Hst Hch] & Htc).
  unfold on_host_setup_key, draft_key. rewrite Hf, Est.
  destruct (secret_key_typing _ _ _ Htc Hk) as (r & f' & -> & Hr). cbn [mbind option_bind].
  assert (Hsame : ∀ t, typing f' t → drafts (hs_put_entry (hs_password form) f' HF_Confirm (hs_error form) form)
    {| df_stage := DS_Confirm chosen t; df_name := df_name d |}).
  { intros t Ht. constructor; [done|apply Ht|done|]. done. }
  destruct (ke_code key) as [ch| | | | | | | | | | |] eqn:Ek;
    try (destruct Hr as [-> Ht]; destruct typed; split_and!; try done; by apply Hsame).
  - destruct typed as [|c typed].
    + destruct Hr as [-> Ht]. split_and!; [done..|].
      replace d with {| df_stage := DS_Confirm chosen []; df_name := df_name d |}
        by (destruct d; simpl in *; congruence). by apply Hsame.
    + destruct Hr as [-> Hm]. cbn [hs_put_entry hs_stored hs_password hs_confirm]. rewrite Hst.
      destruct (decide (c :: typed = chosen)) as [<-|Hne].
      * rewrite !bool_decide_eq_true_2 by done. split_and!; [done..|]. by constructor.
      * rewrite (bool_decide_eq_false_2 (c :: typed = chosen)) by done.
        rewrite bool_decide_eq_false_2 by (intros [= Heq]; apply Hne; symmetry; apply utf8_inj; [done|apply Htc|done]).
        split_and!; [done..|]. constructor; [done|done|done|]. cbn. split; [done|]. split; [done|]. by apply typing_new.
  - destruct Hr as [-> Ht]. assert (agrees (draft_put (DS_Choose []) d) (Some (AA_None,
      restart_password_entry (hs_put_entry (hs_password form) f' HF_Confirm (hs_error form) form), None))).
    { split_and!; [done..|]. apply (Hsame typed) in Ht. by apply restart_drafts in Ht. }
    by destruct typed.
Qed.

Lemma agrees_name form d chosen key :
  drafts form d → df_stage d = DS_Name chosen → agrees (draft_key key d) (on_host_setup_key form key).
Proof.
  intros Hd Est. pose proof Hd as [Hp Hc (Hn & Hdone & Hm) Hs]. rewrite Est in Hs. destruct Hs as (Hf & [Hst Hch]).
  unfold on_host_setup_key, draft_key. rewrite Hf, Est.
  assert (Hset : ∀ f err l, shows f l → ln_done l = false → tf_max_bytes f = form_max →
    drafts (hs_put_nickname f err form) {| df_stage := DS_Name chosen; df_name := l |}).
  { intros f err l H1 H2 H3. by constructor. }
  assert (Hstay : agrees (DR_Editing d) (Some (AA_None, form, None))) by done.
  destruct (ke_code key) as [ch| | | | | | | | | | |]; try exact Hstay.
  - destruct (insert_shows _ _ ch Hn) as (b & f & Hi & Hs & Hm'). rewrite Hm in *.
    rewrite Hi. cbn [mbind option_bind]. split_and!; [done..|]. apply Hset; [done| |congruence].
    cbn. unfold line_insert. rewrite Hdone. by destruct (_ || _).
  - unfold tf_submit. rewrite (sh_done _ _ Hn), Hdone, (sh_text _ _ Hn).
    destruct (non_empty _) eqn:E; cbn [negb].
    + cbn [hs_put_nickname take_password tf_text hs_stored]. rewrite Hst. cbn. done.
    + split_and!; [done..|]. replace d with {| df_stage := DS_Name chosen; df_name := df_name d |}
        by (destruct d; simpl in *; congruence). by apply Hset.
  - split_and!; [done..|]. by apply restart_drafts.
  - destruct (edit_shows ED_Backspace _ _ Hn) as (f & Hi & Hs & Hm'). rewrite Hm in *. cbn [tf_edit] in Hi.
    rewrite Hi. cbn [mbind option_bind]. split_and!; [done..|]. apply Hset; [done| |congruence].
    cbn. by rewrite Hdone.
Qed.

Lemma new_drafts : drafts HostSetupModel_new {| df_stage := DS_Choose []; df_name := Line_new |}.
Proof.
  constructor; [done|done|done|]. cbn. split; [done|].
  split; (constructor; [done|done|by constructor|apply N.le_0_l]).
Qed.

(** Keys on the form until it is left, with what it answers. *)
Fixpoint form_keys (keys : list KeyEvent) (form : HostSetupModel) : option (AppAction * option Screen) :=
  match keys with
  | [] => Some (AA_None, None)
  | key :: keys =>
      '(action, form, next) ← on_host_setup_key form key;
      match action, next with AA_None, None => form_keys keys form | _, _ => Some (action, next) end
  end.

Fixpoint draft_keys (keys : list KeyEvent) (d : Draft) : DraftResult :=
  match keys with
  | [] => DR_Editing d
  | key :: keys => match draft_key key d with DR_Editing d => draft_keys keys d | r => r end
  end.

Definition answer (r : DraftResult) : AppAction * option Screen :=
  match r with
  | DR_Editing _ => (AA_None, None)
  | DR_Abandoned => (AA_None, Some (SCR_Menu MenuModel_default))
  | DR_Submitted password nickname => (AA_HostSetupSubmitted (utf8 password) nickname, None)
  end.

(** C36.  The host setup form is the draft machine [draft_key]: a submission carries
    a password that was typed, then typed again the same, with the nickname of its line;
    a confirmation that differs is asked again, Esc goes back to the first entry, and
    whatever the keys, nothing panics. *)
Theorem host_form_refines keys :
  Forall key_ok keys →
  form_keys keys HostSetupModel_new =
    Some (answer (draft_keys keys {| df_stage := DS_Choose []; df_name := Line_new |})).
Proof.
  intros Hk.
  assert (H : ∀ form d, drafts form d → form_keys keys form = Some (answer (draft_keys keys d)));
    [|apply H, new_drafts].
  induction Hk as [|key keys Hkey _ IH]; intros form d Hd; [done|]. cbn [form_keys draft_keys].
  assert (Ha : agrees (draft_key key d) (on_host_setup_key form key)).
  { destruct (df_stage d) as [typed|chosen typed|chosen] eqn:E;
      [by eapply agrees_choose|by eapply agrees_confirm|by eapply agrees_name]. }
  destruct (on_host_setup_key form key) as [[[action form'] next]|]; [|by destruct (draft_key key d)].
  cbn [mbind option_bind]. destruct (draft_key key d) as [d'| |p n]; cbn [agrees] in Ha.
  - destruct Ha as (-> & -> & Hd'). by apply IH.
  - by destruct Ha as (-> & ->).
  - by destruct Ha as (-> & ->).
Qed.

(** * What a room's keys ask for *)

Lemma parse_line_chat_text line text :
  parse_line line = Ok (PL_Chat text) →
  line ≠ [] ∧ (text = line ∨ ∃ rest, line = lit "//" ++ rest ∧ text = lit "/" ++ rest).
Proof.
  unfold parse_line. destruct line as [|c line]; [done|]. cbn [negb non_empty]. split; [done|]. revert H.
  destruct (strip_prefix (lit "//") _) as [rest|] eqn:E; [apply strip_prefix_Some in E; intros [= <-]; eauto|].
  destruct (strip_prefix (lit "/") _) as [rest|]; [|intros [= <-]; by left].
  destruct (starts_with_whitespace rest); [intros [= <-]; by left|].
  destruct (split_command rest). by intros (c' & _ & [=])%result_bind_Ok.
Qed.

(** What a participant of the room may be handed on as. *)
Definition admissible (v : RoomView) (a : AppAction) : Prop :=
  match a with
  | AA_None | AA_Room (RUA_Error _) | AA_Room RUA_Exit => True
  | AA_Room (RUA_Chat text) =>
      rv_is_host v = false ∧ text ≠ [] ∧ validate_chat_text text Limits_default = Ok tt
  | AA_Room (RUA_Command command) =>
      command_ok command ∧
      match command with
      | SC_Timeout _ => rv_is_host v = true
      | SC_TimeoutRequest _ => rv_is_host v = false
      | SC_Help | SC_Exit | SC_Leave | SC_Copy | SC_Clear | SC_ColorList => False
      | _ => True
      end
  | AA_Room RUA_Leave => rv_is_host v = false
  | AA_Room (RUA_CopyInvitation uri) => rv_invitation v = Some uri
  | AA_Quit | AA_HostSetupSubmitted _ _ | AA_JoinSetupSubmitted _ _ | AA_JoinFormSubmitted _ _ => False
  end.

Lemma copy_admissible v : admissible v (copy_action v).
Proof. unfold copy_action. by destruct (rv_invitation v) eqn:E. Qed.

Lemma chat_line_valid v text :
  view_ok v → parse_line (tf_text (rv_input v)) = Ok (PL_Chat text) →
  text ≠ [] ∧ validate_chat_text text Limits_default = Ok tt.
Proof.
  intros Hv Hp. destruct (vw_input v Hv) as (l & [Ht _ _] & [Hlen Hsafe] & _). rewrite <-Ht in Hlen, Hsafe.
  rewrite validate_chat_text_Ok. change (max_chat_text_bytes Limits_default) with ROOM_INPUT_MAX_BYTES.
  destruct (parse_line_chat_text _ _ Hp) as (Hne & [->|(rest & E & ->)]); [done|]. rewrite E in *.
  unfold contains_control_char in *. rewrite str_len_app, existsb_app in *. split; [done|].
  apply orb_false_iff in Hsafe as [_ Hsafe]. split; [by rewrite Hsafe|].
  enough (str_len (lit "/") <= str_len (lit "//"))%N by lia. by vm_compute.
Qed.

Lemma enter_admissible now v : view_ok v → admissible v (room_enter now v).1.
Proof.
  intros Hv. unfold room_enter.
  assert (Hsame : rv_is_host (submit_line v).2 = rv_is_host v ∧ rv_invitation (submit_line v).2 = rv_invitation v)
    by (destruct (submit_line_clears v Hv) as [->|[_ ->]]; done).
  destruct Hsame as [Hh Hi]. destruct (negb _); [done|].
  destruct (parse_line _) as [[c|t]|e] eqn:E; [|rewrite Hh; destruct (rv_is_host v) eqn:Eh; [done|]|done].
  - pose proof (parsed_command_ok _ _ E) as Hc. unfold command_action, copy_action. rewrite Hh, Hi.
    destruct c; cbn [fst admissible]; try done;
      try (destruct (rv_is_host v) eqn:Eh; cbn [negb fst admissible]; by rewrite ?Eh).
    by destruct (rv_invitation v) eqn:Ei.
  - by split; [|eapply chat_line_valid].
Qed.

(** What a room's screen asks of the supervisor is admissible for its
    participant: a chat text, which the session will not refuse, from a
    participant only and never from the host; the host's room timeout from
    the host only, the member's request of one from a member only; commands
    with arguments in their range; and the whole stored invitation. Enter
    empties the line, and no key changes who the participant is. *)
Theorem keys_are_admissible is_host nickname t0 ops v key now a v' :
  view_ops ops (RoomView_new is_host nickname t0) = Some v →
  on_room_key key now v = Some (a, v') →
  admissible v a ∧ rv_is_host v' = rv_is_host v ∧
  (ke_code key = KC_Enter → tf_text (rv_input v') = []).
Proof.
  intros Hrun Hkey. destruct (view_ops_ok ops _ (new_view_ok is_host nickname t0)) as (v1 & Hv1 & Hv).
  rewrite Hrun in Hv1. injection Hv1 as <-.
  destruct (room_key_ok v key now Hv) as (a0 & v0 & Hk & _). rewrite Hkey in Hk. injection Hk as <- <-.
  revert Hkey. unfold on_room_key.
  assert (Hedit : ∀ f : option TextField, (input ← f; Some (AA_None, rv_put_input input v)) = Some (a, v') →
    a = AA_None ∧ rv_is_host v' = rv_is_host v).
  { intros [f|]; [|done]. by intros [= <- <-]. }
  destruct (ke_code key) as [ch| | | | | | | | | | |] eqn:Ek;
    try (intros [-> ->]%Hedit; done); try (by intros [= <- <-]).
  - destruct (_ && _); [by intros [= <- <-]|]. destruct (is_char key 116 84 && _).
    { intros [= <- <-]. unfold toggle_host_member_view. by destruct (negb _). }
    destruct (_ && _); [intros [= <- <-]; split; [apply copy_admissible|done]|].
    destruct (_ || _); [|by intros [= <- <-]]. by intros [-> ->]%Hedit.
  - intros [= Hr]. pose proof (enter_admissible now v Hv) as Ha. rewrite Hr in Ha. split; [exact Ha|].
    revert Hr. unfold room_enter.
    assert (Hclr : rv_is_host (submit_line v).2 = rv_is_host v ∧ tf_text (rv_input (submit_line v).2) = []).
    { destruct (submit_line_clears v Hv) as [->|[Ht ->]]; [done|]. by split. }
    set (w := (submit_line v).2) in *. clearbody w. destruct Hclr as [Hh Hc].
    destruct (negb _); [by intros [= <- <-]|].
    destruct (parse_line _) as [[c|t]|e]; [|destruct (negb _); by intros [= <- <-]|by intros [= <- <-]].
    unfold command_action. destruct c; try (destruct (rv_is_host w) eqn:Ew); intros [= <- <-]; (split; [by rewrite <-Hh|done]).
Qed.
