(* ===== verification/Render.v ===== *)
(** [src/ui/render.rs]: what is drawn for every screen.

    A drawing is the list of the widgets that are rendered, each with its
    area, in order. Ratatui's solver for layouts and the display widths of
    Unicode are the classes [Layouts] and [Widths]. Areas are of [u16]: an
    addition that leaves it panics ([None]), as do a slice off a character
    boundary, a missing piece of a layout and a gauge past its end. *)
From Stdlib Require Import Strings.String.
From S2P Require Export Screens.

(** * Ratatui *)

Record Rect := { rc_x : u16; rc_y : u16; rc_width : u16; rc_height : u16 }.

Inductive Direction := DR_Vertical | DR_Horizontal.

Inductive Constraint := CN_Length (n : u16) | CN_Min (n : u16) | CN_Percentage (n : u16).

Class Layouts := { layout_split : Direction → u16 → list Constraint → Rect → list Rect }.

Definition within (inner outer : Rect) : Prop :=
  (rc_x outer <= rc_x inner ∧ rc_x inner + rc_width inner <= rc_x outer + rc_width outer ∧
   rc_y outer <= rc_y inner ∧ rc_y inner + rc_height inner <= rc_y outer + rc_height outer)%N.

(** A layout has one piece for each constraint, and without a margin they
    are in its area. Nothing is supposed of the place of the pieces where
    there is a margin: the area may be too small for it. *)
Class LayoutLaws `{Layouts} := {
  split_length d m cs area : length (layout_split d m cs area) = length cs;
  split_within d cs area : Forall (λ r, within r area) (layout_split d 0 cs area);
}.

(** [UnicodeWidthChar] and [UnicodeWidthStr]; a character fills two cells at
    most. *)
Class Widths := { char_width : N → option usize; str_width : rstring → usize }.
Class WidthLaws `{Widths} := { char_width_bound c w : char_width c = Some w → (w <= 2)%N }.

Inductive Color := CL_Red | CL_Green | CL_Yellow | CL_Blue | CL_Magenta | CL_Cyan | CL_Gray | CL_DarkGray.

Record Style := { sty_fg : option Color; sty_bold : bool; sty_reversed : bool }.

#[export] Instance Color_eq_dec : EqDecision Color.
Proof. solve_decision. Defined.
#[export] Instance Style_eq_dec : EqDecision Style.
Proof. solve_decision. Defined.

Definition plain : Style := {| sty_fg := None; sty_bold := false; sty_reversed := false |}.
Definition fg (c : Color) : Style := {| sty_fg := Some c; sty_bold := false; sty_reversed := false |}.
Definition bold : Style := {| sty_fg := None; sty_bold := true; sty_reversed := false |}.
Definition reversed : Style := {| sty_fg := None; sty_bold := false; sty_reversed := true |}.

(** A span of text in a style, and a line of spans. *)
Abbreviation StyledSpan := (rstring * Style)%type (only parsing).
Abbreviation TextLine := (list (rstring * Style)) (only parsing).

Inductive Widget :=
| W_Block (title : TextLine)
| W_Clear
| W_Paragraph (lines : list TextLine) (centered wrapped : bool) (block : option TextLine)
| W_List (items : list TextLine) (block : TextLine)
| W_Gauge (style : Style) (percent : u16) (label : rstring) (block : TextLine).

Abbreviation Scene := (list (Widget * Rect)) (only parsing).

(** [x + y] on a [u16]. *)
Definition add_u16 (x y : u16) : option u16 := if (x + y <? 65536)%N then Some (x + y)%N else None.

(** * Areas *)

Definition centered_area (area : Rect) (width height : u16) : option Rect :=
  let width := N.min width (rc_width area) in
  let height := N.min height (rc_height area) in
  x ← add_u16 (rc_x area) ((rc_width area - width) / 2);
  y ← add_u16 (rc_y area) ((rc_height area - height) / 2);
  Some {| rc_x := x; rc_y := y; rc_width := width; rc_height := height |}.

(** [saturating_add] on a [u16]; subtraction saturates on [N]. *)
Definition sat_add_u16 (x y : u16) : u16 := N.min (x + y) 65535.

Definition footer_row (area : Rect) : Rect := {|
  rc_x := rc_x area; rc_y := sat_add_u16 (rc_y area) (rc_height area - 1);
  rc_width := rc_width area; rc_height := N.min (rc_height area) 1 |}.

Definition inner_area (area : Rect) : option Rect :=
  x ← add_u16 (rc_x area) 1;
  y ← add_u16 (rc_y area) 1;
  Some {| rc_x := x; rc_y := y; rc_width := rc_width area - 2; rc_height := rc_height area - 2 |}.

(** * Text *)

Definition HOST_MARKER : rstring := lit "[HOST]".

Definition member_color (color : ColorChoice) : Color :=
  match color with
  | Red => CL_Red | Green => CL_Green | Yellow => CL_Yellow | Blue => CL_Blue
  | Magenta => CL_Magenta | Cyan => CL_Cyan | White => CL_Gray
  end.

Definition line_style (style : LineStyle) : Style :=
  match style with
  | LS_Chat => plain
  | LS_Notice => fg CL_Cyan
  | LS_Alert => fg CL_Yellow
  | LS_Palette color => fg (member_color color)
  | LS_Error => fg CL_Red
  | LS_Muted => fg CL_DarkGray
  end.

Definition title_block (title : rstring) : TextLine := [(title, bold)].
Definition plain_line (text : rstring) : TextLine := [(text, plain)].

Definition format_elapsed (duration : Duration) : rstring :=
  let seconds := (duration / 1000000000)%N in
  two_digits (seconds / 3600) ++ lit ":" ++ two_digits (seconds mod 3600 / 60) ++ lit ":" ++ two_digits (seconds mod 60).

Section text.
Context `{Widths}.

Definition cell_width (ch : N) : usize := default 0%N (char_width ch).
Definition cells (s : rstring) : N := foldr (λ ch n, cell_width ch + n)%N 0%N s.

(** The loop of [wrap_for_display]. *)
Fixpoint wrap_loop (text : rstring) (width : usize) (chunks : list rstring) (current : rstring) (used : usize)
    : list rstring * rstring :=
  match text with
  | [] => (chunks, current)
  | ch :: text =>
      let ch_width := cell_width ch in
      if (width <? used + ch_width)%N then wrap_loop text width (chunks ++ [current]) [ch] ch_width
      else wrap_loop text width chunks (current ++ [ch]) (used + ch_width)%N
  end.

Definition wrap_for_display (text : rstring) (width : usize) : list rstring :=
  if (width <=? 1)%N || negb (non_empty text) then [text] else
  let '(chunks, current) := wrap_loop text width [] [] 0 in
  if non_empty current then chunks ++ [current] else chunks.

(** The state of [wrap_segments]: the lines that are done, the spans of the
    current one, the run that is pending with its style, the cells used. *)
Record WrapState := {
  ws_lines : list TextLine; ws_current : TextLine; ws_pending : rstring; ws_style : Style; ws_used : usize }.

Definition flush (s : WrapState) : WrapState := {|
  ws_lines := ws_lines s;
  ws_current := if non_empty (ws_pending s) then ws_current s ++ [(ws_pending s, ws_style s)] else ws_current s;
  ws_pending := []; ws_style := ws_style s; ws_used := ws_used s |}.

Definition close_line (s : WrapState) : WrapState := {|
  ws_lines := match ws_current s with [] => ws_lines s | current => ws_lines s ++ [current] end;
  ws_current := []; ws_pending := ws_pending s; ws_style := ws_style s; ws_used := 0 |}.

Definition put_style (style : Style) (s : WrapState) : WrapState := {|
  ws_lines := ws_lines s; ws_current := ws_current s; ws_pending := ws_pending s; ws_style := style;
  ws_used := ws_used s |}.

Definition push_pending (ch : N) (s : WrapState) : WrapState := {|
  ws_lines := ws_lines s; ws_current := ws_current s; ws_pending := ws_pending s ++ [ch]; ws_style := ws_style s;
  ws_used := (ws_used s + cell_width ch)%N |}.

Definition wrap_char (width : usize) (style : Style) (s : WrapState) (ch : N) : WrapState :=
  let s := if bool_decide (style = ws_style s) then s else put_style style (flush s) in
  let s := if (1 <? width)%N && (width <? ws_used s + cell_width ch)%N then close_line (flush s) else s in
  push_pending ch s.

Definition wrap_segment (width : usize) (s : WrapState) (segment : StyledSpan) : WrapState :=
  foldl (wrap_char width segment.2) s segment.1.

Definition wrap_segments (segments : TextLine) (width : usize) : list TextLine :=
  let s := foldl (wrap_segment width)
    {| ws_lines := []; ws_current := []; ws_pending := []; ws_style := plain; ws_used := 0 |} segments in
  ws_lines (close_line (flush s)).

(** The characters from the front that fit, and from the back. *)
Fixpoint take_cells (width used : usize) (s : rstring) : rstring :=
  match s with
  | [] => []
  | ch :: s =>
      if (width <? used + cell_width ch)%N then [] else ch :: take_cells width (used + cell_width ch) s
  end.

Definition input_viewport (text : rstring) (cursor : usize) (width : usize) : option rstring :=
  if negb (non_empty text) || (width =? 0)%N then Some [] else
  let cursor := N.min cursor (str_len text) in
  '(prefix, rest) ← split_bytes cursor text;
  let shown := if (str_width prefix <=? width)%N then prefix else reverse (take_cells width 0 (reverse prefix)) in
  Some (take_cells width 0 (shown ++ rest)).
End text.

Definition ABOUT_TEXT : rstring :=
  lit "Veilroom is free software created to help protect individuals"
  ++ [0x2019]%N ++ lit " right to communicate freely. We believe messaging should be as simple, fast, and private as possible. Yet governments have deemed even this too much for their citizens. -topcuogly".

(** * Screens *)

Section draw.
Context `{Layouts} `{Widths}.

Definition masked (field : SecretField) : rstring := replicate (sf_masked field) 0x2022%N.

(** A paragraph of one line. *)
Definition paragraph (line : TextLine) (centered : bool) : Widget := W_Paragraph [line] centered false None.

Definition render_label (area : Rect) (text : rstring) (error : bool) : Widget * Rect :=
  (paragraph [(text, fg (if error then CL_Red else CL_DarkGray))] false, area).

Definition render_field (area : Rect) (value : rstring) (active : bool) : Widget * Rect :=
  (paragraph [(value, if active then reversed else plain)] false, area).

Definition menu_line (selection index : nat) (label : rstring) : TextLine :=
  if (index =? selection)%nat then [(lit "> " ++ label, bold)] else [(lit "  " ++ label, plain)].

Definition draw_menu (area : Rect) (selection : usize) : option Scene :=
  area ← centered_area area 44 12;
  Some [ (W_List (imap (menu_line (N.to_nat selection)) MENU_ITEMS) (title_block (lit "VEILROOM")), area);
         (paragraph [(lit "up/down select, enter confirm, q quit", fg CL_DarkGray)] true, footer_row area) ].

Definition draw_tor_connection (area : Rect) (progress : u8) : option Scene :=
  area ← centered_area area 44 3;
  if (100 <? progress)%N then None else
  Some [ (W_Gauge (fg CL_Cyan) progress (display_N progress ++ lit "%") (title_block (lit "Connecting to Tor")), area) ].

(** The frame of a form and the rows in it. *)
Definition form_rows (area : Rect) (width height : u16) (rows : nat) : option (Rect * list Rect) :=
  area ← centered_area area width height;
  inner ← inner_area area;
  Some (area, layout_split DR_Vertical 1 (replicate rows (CN_Length 1)) inner).

Definition form_hint (error : option rstring) (text : rstring) : rstring :=
  match error with Some error => sanitize_for_display error | None => text end.

Definition is_error (error : option rstring) : bool := match error with Some _ => true | None => false end.

Definition draw_host_setup (area : Rect) (form : HostSetupModel) : option Scene :=
  '(area, rows) ← form_rows area 56 12 6;
  row0 ← rows !! 0; row1 ← rows !! 1; row2 ← rows !! 2; row3 ← rows !! 3; row4 ← rows !! 4; row5 ← rows !! 5;
  let focused f := match hs_focus form, f with
                   | HF_Password, HF_Password | HF_Confirm, HF_Confirm | HF_Nickname, HF_Nickname => true
                   | _, _ => false end in
  Some [ (W_Block (title_block (lit "Host a room")), area);
         render_label row0 (form_hint (hs_error form) (lit "Enter the room password twice.")) (is_error (hs_error form));
         render_label row1 (lit "Password:") false;
         render_field row2 (masked (hs_password form)) (focused HF_Password);
         render_label row3 (lit "Confirm password:") false;
         render_field row4 (masked (hs_confirm form)) (focused HF_Confirm);
         render_field row5 (lit "Nickname: " ++ sanitize_for_display (tf_text (hs_nickname form))) (focused HF_Nickname) ].

Definition draw_join_setup (area : Rect) (form : JoinSetupModel) : option Scene :=
  '(area, rows) ← form_rows area 64 10 4;
  row0 ← rows !! 0; row1 ← rows !! 1; row2 ← rows !! 2; row3 ← rows !! 3;
  let on_invitation := match js_focus form with JF_Invitation => true | JF_Password => false end in
  Some [ (W_Block (title_block (lit "Join a room")), area);
         render_label row0 (form_hint (js_error form) (lit "Paste the invitation URI from the host.")) (is_error (js_error form));
         render_label row1 (lit "Invitation URI:") false;
         render_field row2 (sanitize_for_display (tf_text (js_invitation form))) on_invitation;
         render_field row3 (lit "Password: " ++ masked (js_password form)) (negb on_invitation) ].

Definition draw_join_form (area : Rect) (form : JoinFormModel) : option Scene :=
  '(area, rows) ← form_rows area 56 9 4;
  row0 ← rows !! 0; row1 ← rows !! 1; row2 ← rows !! 2; row3 ← rows !! 3;
  let on_nickname := match jf_focus form with JFF_Nickname => true | JFF_Introduction => false end in
  Some [ (W_Block (title_block (lit "Join request")), area);
         render_label row0 (form_hint (jf_error form)
           (lit "Complete the join form; the password was verified during the handshake.")) (is_error (jf_error form));
         render_field row1 (lit "Nickname: " ++ sanitize_for_display (tf_text (jf_nickname form))) on_nickname;
         render_field row2 (lit "Introduction: " ++ sanitize_for_display (tf_text (jf_introduction form))) (negb on_nickname);
         render_label row3 (lit "Enter submits, Esc goes back; introduction is optional.") false ].

Definition draw_join_pending (area : Rect) : option Scene :=
  area ← centered_area area 56 7;
  Some [ (W_Paragraph
            [ plain_line (lit "Your join request was sent."); plain_line [];
              [(lit "Waiting for the host to accept or reject it...", fg CL_Yellow)] ]
            true false (Some (title_block (lit "Waiting for host approval"))), area) ].

Definition return_hint (area : Rect) : Widget * Rect :=
  (paragraph [(lit "Press any key to return to the menu.", fg CL_DarkGray)] true, footer_row area).

Definition draw_message (frame : Rect) (text : rstring) : option Scene :=
  let text := sanitize_for_display text in
  area ← centered_area frame 60 5;
  Some [ (W_Clear, frame);
         (W_Paragraph [[(sanitize_for_display text, fg CL_Yellow)]] true true (Some (title_block (lit "VEILROOM"))), area);
         return_hint area ].

Definition draw_about (frame : Rect) : option Scene :=
  area ← centered_area frame 86 9;
  Some [ (W_Clear, frame);
         (W_Paragraph [plain_line ABOUT_TEXT] true true (Some (title_block (lit "About Veilroom"))), area);
         return_hint area ].

(** ** The room *)

Definition room_header (view : RoomView) : rstring :=
  let nickname := sanitize_for_display (rv_own_nickname view) in
  (if rv_is_host view then
     lit "VEILROOM" ++ dash ++ lit "hosting as " ++ nickname ++ dash
     ++ (if uses_host_view view then lit "host view" else lit "member view")
   else lit "VEILROOM" ++ dash ++ lit "joined as " ++ nickname)
  ++ (if non_empty (rv_status view) then dash ++ sanitize_for_display (rv_status view) else [])
  ++ (if rv_show_system_messages view then [] else dash ++ lit "user messages only").

Definition divider_line (height row : N) : TextLine :=
  plain_line [if (row =? 0)%N then 0x252C else if (row + 1 =? height)%N then 0x2534 else 0x2502]%N.

Definition draw_room_header (view : RoomView) (now : Clock) (area : Rect) (header : rstring) : option Scene :=
  let border := (W_Block [], area) in
  if (rc_width area <? 5)%N || (rc_height area <? 3)%N then Some [border] else
  divider_x ← add_u16 (rc_x area) (rc_width area / 2);
  inner_y ← add_u16 (rc_y area) 1;
  left_x ← add_u16 (rc_x area) 1;
  let inner_height := (rc_height area - 2)%N in
  let right_x := sat_add_u16 divider_x 1 in
  let left_half := {| rc_x := left_x; rc_y := inner_y; rc_width := divider_x - left_x; rc_height := inner_height |} in
  let right_half := {| rc_x := right_x; rc_y := inner_y;
    rc_width := sat_add_u16 (rc_x area) (rc_width area) - 1 - right_x; rc_height := inner_height |} in
  Some [ border;
         (W_Paragraph [plain_line []; plain_line header] true false None, left_half);
         (W_Paragraph
            [ plain_line (lit "GMT: " ++ GmtTimestamp_to_string (GmtTimestamp_now now));
              plain_line ((if rv_is_host view then lit "Room uptime" else lit "In room") ++ lit ": "
                ++ format_elapsed (ck_instant now - rv_entered_at view));
              plain_line (lit "Participants: " ++ display_N (participant_count view)) ]
            true false None, right_half);
         (W_Paragraph (map (divider_line (rc_height area)) (map N.of_nat (seq 0 (N.to_nat (rc_height area))))) false false None,
          {| rc_x := divider_x; rc_y := rc_y area; rc_width := 1; rc_height := rc_height area |}) ].

(** The rows of a line of the room. *)
Definition message_rows (inner_width : usize) (line : MessageLine) : list TextLine :=
  let style := line_style (ml_style line) in
  let timestamped := lit "[" ++ GmtTimestamp_to_string (ml_timestamp line) ++ lit "] " in
  match ml_nickname line with
  | Some nickname =>
      let rest := match split_bytes (str_len (ns_text nickname)) (ml_text line) with
                  | Some (_, rest) => rest | None => ml_text line end in
      wrap_segments [(timestamped, style); (ns_text nickname, fg (member_color (ns_color nickname))); (rest, style)]
        inner_width
  | None =>
      map (λ chunk, [(chunk, style)]) (wrap_for_display (timestamped ++ sanitize_for_display (ml_text line)) inner_width)
  end.

Definition is_shown (view : RoomView) (line : MessageLine) : bool :=
  rv_show_system_messages view || match ml_style line with LS_Chat => true | _ => false end.

Definition draw_messages (view : RoomView) (area : Rect) : Widget * Rect :=
  let inner_width := (rc_width area - 2)%N in
  let rows := flat_map (message_rows inner_width) (List.filter (is_shown view) (rb_lines (rv_messages view))) in
  let visible := (rc_height area - 2)%N in
  let skip := (N.of_nat (length rows) - visible)%N in
  (W_List (drop (N.to_nat skip) rows) (plain_line (lit "Messages")), area).

Definition member_item (member : MemberLine) : TextLine :=
  let marker := if mln_is_host member then HOST_MARKER ++ lit " " else [] in
  [ (marker ++ display_N (mln_member_id member) ++ lit " ", fg CL_DarkGray);
    (sanitize_for_display (mln_nickname member), fg (member_color (mln_color member))) ].

Definition request_item (request : RequestLine) : TextLine :=
  let id := display_N (rl_request_id request) in
  let nickname := sanitize_for_display (rl_nickname request) in
  plain_line match rl_kind request with
  | RK_Join introduction =>
      id ++ lit " join" ++ dash ++ nickname
      ++ match introduction with Some intro => lit ": " ++ sanitize_for_display intro | None => [] end
  | RK_Timeout seconds => id ++ lit " timeout" ++ dash ++ nickname ++ lit ": " ++ display_N seconds ++ lit "s"
  end.

Definition draw_host_panels (view : RoomView) (area : Rect) : option Scene :=
  let panels := layout_split DR_Vertical 0 [CN_Percentage 45; CN_Percentage 55] area in
  panel0 ← panels !! 0; panel1 ← panels !! 1;
  Some [ (W_List (map member_item (rv_members view)) (plain_line (lit "Members")), panel0);
         (W_List (map request_item (rv_requests view)) (plain_line (lit "Requests")), panel1) ].

Definition draw_input_line (view : RoomView) (area : Rect) : option (Widget * Rect) :=
  let prompt := if rv_is_host view then lit "host> " else lit "> " in
  let inner_width := (rc_width area - 2)%N in
  visible ← input_viewport (tf_text (rv_input view)) (tf_cursor (rv_input view)) (inner_width - str_width prompt);
  Some (W_Paragraph [[(prompt ++ sanitize_for_display visible, reversed)]] false false (Some (plain_line (lit "Input"))), area).

Definition draw_room (frame : Rect) (now : Clock) (view : RoomView) : option Scene :=
  let chunks := layout_split DR_Vertical 0 [CN_Length 5; CN_Min 3; CN_Length 3] frame in
  chunk0 ← chunks !! 0; chunk1 ← chunks !! 1; chunk2 ← chunks !! 2;
  header ← draw_room_header view now chunk0 (room_header view);
  let body := if uses_host_view view then layout_split DR_Horizontal 0 [CN_Min 20; CN_Percentage 35] chunk1
              else [chunk1] in
  messages_area ← body !! 0;
  panels ← (if uses_host_view view then panel_area ← body !! 1; draw_host_panels view panel_area else Some []);
  input ← draw_input_line view chunk2;
  Some (header ++ [draw_messages view messages_area] ++ panels ++ [input]).

Definition draw (frame : Rect) (now : Clock) (app : App) : option Scene :=
  match app_screen app with
  | SCR_Menu menu => draw_menu frame (menu_selection menu)
  | SCR_TorConnecting connection => draw_tor_connection frame (tc_progress connection)
  | SCR_HostSetup form => draw_host_setup frame form
  | SCR_JoinSetup form => draw_join_setup frame form
  | SCR_JoinForm form => draw_join_form frame form
  | SCR_JoinPending => draw_join_pending frame
  | SCR_Room view => draw_room frame now view
  | SCR_About => draw_about frame
  | SCR_Message text => draw_message frame text
  end.
End draw.
