(* ===== verification/RenderProps.v ===== *)
(** Drawing: every screen can be drawn on every terminal, nothing a terminal
    could act on is in what is drawn, and the lines of a room are shown in
    full in the width there is. *)
From Stdlib Require Import Strings.String.
From S2P Require Export Render ScreenProps.

(** * Safe text *)

Lemma safe_subset s t : text_safe s → (∀ c, c ∈ t → c ∈ s) → text_safe t.
Proof.
  unfold text_safe, contains_control_char. intros Hs Ht. apply existsb_false. intros c Hc.
  apply (proj1 (existsb_false _ _) Hs), Ht, Hc.
Qed.

Lemma digit_char_safe c : is_ascii_digit c = true → is_unsafe_display_char c = false.
Proof.
  intros [H1 H2]%in_range_true. unfold is_unsafe_display_char, is_control, is_dangerous_format_char, in_range.
  repeat match goal with |- context [(?a <=? c)%N] => destruct (N.leb_spec a c); try lia
                    | |- context [(c <=? ?a)%N] => destruct (N.leb_spec c a); try lia
                    | |- context [(c =? ?a)%N] => destruct (N.eqb_spec c a); try lia end; done.
Qed.

Lemma digits_safe s : all_digits s = true → text_safe s.
Proof.
  unfold text_safe, contains_control_char. intros Hs. apply existsb_false. intros c Hc. apply digit_char_safe.
  by apply (proj1 (forallb_forall _ _) Hs), list_elem_of_In.
Qed.

Lemma display_safe n : text_safe (display_N n).
Proof. apply digits_safe, display_digits. Qed.

Lemma two_digits_safe n : text_safe (two_digits n).
Proof. apply text_safe_app; [by destruct (_ <? _)%N|apply display_safe]. Qed.

Create HintDb safe_text discriminated.
#[local] Hint Resolve text_safe_app sanitize_safe display_safe two_digits_safe : safe_text.
#[local] Hint Extern 1 (text_safe (lit _)) => reflexivity : safe_text.

Lemma timestamp_safe t : text_safe (GmtTimestamp_to_string t).
Proof. unfold GmtTimestamp_to_string. auto 10 with safe_text. Qed.
#[local] Hint Resolve timestamp_safe : safe_text.

Lemma header_safe view : text_safe (room_header view).
Proof.
  unfold room_header.
  repeat (apply text_safe_app || apply sanitize_safe || case_match); reflexivity.
Qed.

Lemma elapsed_safe d : text_safe (format_elapsed d).
Proof. unfold format_elapsed. auto 10 with safe_text. Qed.

Lemma masked_safe field : text_safe (masked field).
Proof. unfold masked. induction (sf_masked field) as [|n IH]; [done|exact IH]. Qed.

Lemma form_hint_safe error text : text_safe text → text_safe (form_hint error text).
Proof. destruct error; [intros _; apply sanitize_safe|done]. Qed.

#[local] Hint Resolve header_safe elapsed_safe masked_safe form_hint_safe : safe_text.

(** * What is on the screen *)

Definition line_safe (l : TextLine) : Prop := Forall (λ span, text_safe span.1) l.

(** The lines a widget shows, its title and its label included. *)
Definition widget_lines (w : Widget) : list TextLine :=
  match w with
  | W_Block title => [title]
  | W_Clear => []
  | W_Paragraph lines _ _ block => lines ++ option_list block
  | W_List items block => items ++ [block]
  | W_Gauge _ _ label block => [plain_line label; block]
  end.

Definition scene_safe (s : Scene) : Prop := Forall (λ w, Forall line_safe (widget_lines w.1)) s.

(** * Wrapping *)

(** The characters of a line, each with its style. *)
Definition styled (style : Style) (s : rstring) : list (N * Style) := (λ c, (c, style)) <$> s.
Definition line_chars (l : TextLine) : list (N * Style) := flat_map (λ span, styled span.2 span.1) l.

Lemma line_chars_app l1 l2 : line_chars (l1 ++ l2) = line_chars l1 ++ line_chars l2.
Proof. apply flat_map_app. Qed.

Lemma line_chars_one s style : line_chars [(s, style)] = styled style s.
Proof. apply app_nil_r. Qed.

Lemma line_chars_snoc l s style : line_chars (l ++ [(s, style)]) = line_chars l ++ styled style s.
Proof. by rewrite line_chars_app, line_chars_one. Qed.

Lemma styled_app style s t : styled style (s ++ t) = styled style s ++ styled style t.
Proof. apply fmap_app. Qed.

Definition lines_chars (ls : list TextLine) : list (N * Style) := flat_map line_chars ls.

Lemma lines_chars_app l1 l2 : lines_chars (l1 ++ l2) = lines_chars l1 ++ lines_chars l2.
Proof. apply flat_map_app. Qed.

Lemma lines_chars_snoc ls l : lines_chars (ls ++ [l]) = lines_chars ls ++ line_chars l.
Proof. rewrite lines_chars_app. f_equal. apply app_nil_r. Qed.

Lemma line_safe_chars l : line_safe l ↔ Forall (λ c, is_unsafe_display_char c.1 = false) (line_chars l).
Proof.
  induction l as [|[s style] l IH]; [split; by constructor|]. unfold line_safe in *.
  rewrite list.Forall_cons. cbn [line_chars flat_map fst snd]. fold (line_chars l). rewrite list.Forall_app, IH.
  assert (text_safe s ↔ Forall (λ c, is_unsafe_display_char c.1 = false) (styled style s)) as ->; [|done].
  unfold styled. rewrite list.Forall_fmap. unfold text_safe, contains_control_char. rewrite existsb_false.
  symmetry. apply list.Forall_forall.
Qed.

Lemma lines_safe_chars ls : Forall line_safe ls ↔ Forall (λ c, is_unsafe_display_char c.1 = false) (lines_chars ls).
Proof.
  induction ls as [|l ls IH]; [split; by constructor|]. rewrite list.Forall_cons. cbn [lines_chars flat_map].
  fold (lines_chars ls). by rewrite list.Forall_app, IH, line_safe_chars.
Qed.

Section wrapping.
Context `{WD : !Widths} `{WL : !WidthLaws}.

Lemma cells_app s t : cells (s ++ t) = (cells s + cells t)%N.
Proof. unfold cells. induction s as [|c s IH]; [done|]. simpl. rewrite IH. lia. Qed.

Lemma cell_width_le c : (cell_width c <= 2)%N.
Proof. unfold cell_width. destruct (char_width c) eqn:E; [by apply (char_width_bound c)|simpl; lia]. Qed.

Lemma wrap_loop_spec width text : (1 < width)%N → ∀ chunks current,
  Forall (λ s, cells s <= width)%N chunks → (cells current <= width)%N →
  let '(chunks', current') := wrap_loop text width chunks current (cells current) in
  concat chunks' ++ current' = concat chunks ++ current ++ text ∧
  Forall (λ s, cells s <= width)%N chunks' ∧ (cells current' <= width)%N.
Proof.
  intros Hw. induction text as [|ch text IH]; intros chunks current Hc Hu; cbn [wrap_loop].
  { by rewrite app_nil_r. }
  pose proof (cell_width_le ch) as Hch. assert (Hone : cells [ch] = cell_width ch) by (unfold cells; simpl; lia).
  destruct (N.ltb_spec width (cells current + cell_width ch)) as [Hf|Hf].
  - rewrite <-Hone. specialize (IH (chunks ++ [current]) [ch]). destruct (wrap_loop _ _ _ _ _) as [chunks' current'].
    destruct IH as (IH & IHc & IHu); [by apply list.Forall_app; split; [|constructor]|lia|].
    split; [|done]. rewrite IH, concat_app. cbn [concat]. by rewrite app_nil_r, <-app_assoc.
  - replace (cells current + cell_width ch)%N with (cells (current ++ [ch])) by (rewrite cells_app; lia).
    specialize (IH chunks (current ++ [ch])). destruct (wrap_loop _ _ _ _ _) as [chunks' current'].
    destruct IH as (IH & IHc & IHu); [done|rewrite cells_app; lia|].
    split; [|done]. by rewrite IH, <-app_assoc.
Qed.

(** Wrapping keeps the text and fits the width. *)
Lemma wrap_for_display_spec text width :
  concat (wrap_for_display text width) = text ∧
  ((1 < width)%N → Forall (λ s, cells s <= width)%N (wrap_for_display text width)).
Proof.
  unfold wrap_for_display. destruct (N.leb_spec width 1) as [Hw|Hw]; cbn [orb].
  { split; [apply app_nil_r|lia]. }
  destruct text as [|c text]; [split; [done|]; intros _; repeat constructor; apply N.le_0_l|]. cbn [non_empty negb].
  pose proof (wrap_loop_spec width (c :: text) Hw [] []) as H. change (cells []) with 0%N in H.
  destruct (wrap_loop _ _ _ _ _) as [chunks current].
  destruct H as (H & Hc & Hu); [constructor|apply N.le_0_l|]. cbn in H. destruct current as [|x current]; cbn [non_empty].
  - by rewrite app_nil_r in H.
  - split; [|intros _; apply list.Forall_app; by split; [|constructor]].
    rewrite concat_app. cbn [concat]. by rewrite app_nil_r.
Qed.

(** ** Wrapping of segments *)

Definition line_cells (l : TextLine) : usize := cells (flat_map fst l).

Lemma line_cells_snoc l s style : line_cells (l ++ [(s, style)]) = (line_cells l + cells s)%N.
Proof. unfold line_cells. rewrite flat_map_app, cells_app. cbn [flat_map fst]. by rewrite app_nil_r. Qed.

(** What a state has shown, and that it fits. *)
Definition ws_chars (s : WrapState) : list (N * Style) :=
  lines_chars (ws_lines s) ++ line_chars (ws_current s) ++ styled (ws_style s) (ws_pending s).

Record wrap_ok (width : usize) (s : WrapState) : Prop := {
  wo_lines : (1 < width)%N → Forall (λ l, line_cells l <= width)%N (ws_lines s);
  wo_used : ws_used s = (line_cells (ws_current s) + cells (ws_pending s))%N;
  wo_fits : (1 < width)%N → (ws_used s <= width)%N;
}.

Lemma flush_ok width s :
  wrap_ok width s → wrap_ok width (flush s) ∧ ws_chars (flush s) = ws_chars s ∧ ws_pending (flush s) = [].
Proof.
  intros [Hl Hu Hf]. unfold flush, ws_chars. destruct (ws_pending s) as [|c p] eqn:E; cbn [non_empty].
  - split; [by constructor|done].
  - split; [|cbn [ws_lines ws_current ws_style ws_pending]; by rewrite line_chars_snoc, app_nil_r].
    constructor; [done| |done]. cbn [ws_used ws_current ws_pending]. rewrite line_cells_snoc.
    change (cells []) with 0%N. lia.
Qed.

Lemma close_line_ok width s :
  wrap_ok width s → ws_pending s = [] →
  wrap_ok width (close_line s) ∧ ws_chars (close_line s) = ws_chars s ∧ ws_used (close_line s) = 0%N.
Proof.
  intros [Hl Hu Hf] Hp. unfold close_line, ws_chars. rewrite Hp in *. split_and!; [|..|done].
  - constructor; [|done|intros _; apply N.le_0_l]. intros Hw. specialize (Hl Hw). specialize (Hf Hw). cbn [ws_lines].
    destruct (ws_current s) as [|x l] eqn:E; [done|]. apply list.Forall_app. split; [done|]. constructor; [|constructor]. change (cells []) with 0%N in Hu. lia.
  - cbn [ws_lines ws_current ws_style ws_pending line_chars flat_map app styled fmap list_fmap].
    destruct (ws_current s) as [|x l]; rewrite !app_nil_r; [done|]. by rewrite lines_chars_snoc.
Qed.

Lemma put_style_ok width style s :
  wrap_ok width s → ws_pending s = [] →
  wrap_ok width (put_style style s) ∧ ws_chars (put_style style s) = ws_chars s ∧ ws_style (put_style style s) = style.
Proof. intros [Hl Hu Hf] Hp. split; [by constructor|]. split; [|done]. unfold ws_chars, put_style. simpl. by rewrite Hp. Qed.

Lemma push_pending_ok width ch s :
  wrap_ok width s → ((1 < width)%N → (ws_used s + cell_width ch <= width)%N) →
  wrap_ok width (push_pending ch s) ∧ ws_chars (push_pending ch s) = ws_chars s ++ [(ch, ws_style s)].
Proof.
  intros [Hl Hu Hf] Hw. split.
  - constructor; [done| |done]. cbn [push_pending ws_used ws_current ws_pending].
    rewrite cells_app. cbn [cells foldr]. lia.
  - unfold ws_chars. cbn [push_pending ws_lines ws_current ws_style ws_pending].
    by rewrite styled_app, <-!app_assoc.
Qed.

Lemma wrap_char_ok width style s ch :
  wrap_ok width s →
  wrap_ok width (wrap_char width style s ch) ∧ ws_chars (wrap_char width style s ch) = ws_chars s ++ [(ch, style)].
Proof.
  intros Hs. unfold wrap_char.
  set (s1 := if bool_decide (style = ws_style s) then s else put_style style (flush s)).
  assert (H1 : wrap_ok width s1 ∧ ws_chars s1 = ws_chars s ∧ ws_style s1 = style).
  { subst s1. case_bool_decide as Hst; [by rewrite Hst|].
    destruct (flush_ok _ _ Hs) as (Hf & Hc & Hp). destruct (put_style_ok _ style _ Hf Hp) as (? & ? & ?).
    split_and!; [done|congruence|done]. }
  clearbody s1. destruct H1 as (H1 & Hc1 & Hst). rewrite <-Hst, <-Hc1.
  pose proof (cell_width_le ch). destruct (N.ltb_spec 1 width), (N.ltb_spec width (ws_used s1 + cell_width ch)); cbn [andb];
    [|apply push_pending_ok; [done|lia]..].
  destruct (flush_ok _ _ H1) as (Hf & Hc & Hp). destruct (close_line_ok _ _ Hf Hp) as (Hk & Hkc & Hku).
  destruct (push_pending_ok _ ch _ Hk) as (Hok & Hchars); [lia|]. split; [done|]. by rewrite Hchars, Hkc, Hc.
Qed.

Lemma wrap_segment_ok width segment s :
  wrap_ok width s →
  wrap_ok width (wrap_segment width s segment) ∧
  ws_chars (wrap_segment width s segment) = ws_chars s ++ styled segment.2 segment.1.
Proof.
  destruct segment as [text style]. unfold wrap_segment. cbn [fst snd].
  revert s. induction text as [|ch text IH]; intros s Hs; cbn [foldl]; [by rewrite app_nil_r|].
  destruct (wrap_char_ok width style s ch Hs) as (H1 & Hc1). destruct (IH _ H1) as (H2 & ->).
  split; [done|]. by rewrite Hc1, <-app_assoc.
Qed.

(** Wrapping keeps every character in its style and fits the width. *)
Lemma wrap_segments_spec segments width :
  lines_chars (wrap_segments segments width) = line_chars segments ∧
  ((1 < width)%N → Forall (λ l, line_cells l <= width)%N (wrap_segments segments width)).
Proof.
  unfold wrap_segments. set (s0 := {| ws_lines := []; ws_used := 0 |}).
  assert (H0 : wrap_ok width s0) by (constructor; [constructor|done|intros _; apply N.le_0_l]).
  assert (Hall : ∀ s, wrap_ok width s →
    wrap_ok width (foldl (wrap_segment width) s segments) ∧
    ws_chars (foldl (wrap_segment width) s segments) = ws_chars s ++ line_chars segments).
  { induction segments as [|segment segments IH]; intros s Hs; cbn [foldl]; [by rewrite app_nil_r|].
    destruct (wrap_segment_ok width segment s Hs) as (H1 & Hc1). destruct (IH _ H1) as (H2 & ->).
    split; [done|]. rewrite Hc1, <-app_assoc. done. }
  destruct (Hall s0 H0) as (H1 & Hc1). destruct (flush_ok _ _ H1) as (H2 & Hc2 & Hp).
  destruct (close_line_ok _ _ H2 Hp) as ([Hl _ _] & Hc3 & _). split; [|done].
  rewrite Hc2, Hc1 in Hc3. change (ws_chars s0) with (@nil (N * Style)) in Hc3. cbn [app] in Hc3. rewrite <-Hc3.
  clear -Hp. set (s := flush _) in *. clearbody s. unfold ws_chars, close_line. rewrite Hp. cbn. by rewrite app_nil_r.
Qed.

(** ** The lines of a room *)

(** A line as it should be read: its time, the sender in the sender's color,
    the text. *)
Definition line_spec (line : MessageLine) : list (N * Style) :=
  let style := line_style (ml_style line) in
  styled style (lit "[" ++ GmtTimestamp_to_string (ml_timestamp line) ++ lit "] ") ++
  match ml_nickname line with
  | Some nickname =>
      styled (fg (member_color (ns_color nickname))) (ns_text nickname)
      ++ styled style (drop (length (ns_text nickname)) (ml_text line))
  | None => styled style (ml_text line)
  end.

Lemma chunks_chars style chunks : lines_chars (map (λ chunk, [(chunk, style)]) chunks) = styled style (concat chunks).
Proof.
  induction chunks as [|s chunks IH]; [done|]. cbn [map lines_chars flat_map concat]. fold (lines_chars (map (λ chunk, [(chunk, style)]) chunks)).
  by rewrite IH, line_chars_one, styled_app.
Qed.

Lemma message_rows_spec interval line width :
  message_ok interval line →
  lines_chars (message_rows width line) = line_spec line ∧
  ((1 < width)%N → Forall (λ l, line_cells l <= width)%N (message_rows width line)).
Proof.
  intros [Ht Hn _]. unfold message_rows, line_spec. destruct (ml_nickname line) as [nickname|].
  - destruct (Hn nickname eq_refl) as [rest ->]. rewrite split_bytes_app, drop_app_length.
    destruct (wrap_segments_spec [(lit "[" ++ GmtTimestamp_to_string (ml_timestamp line) ++ lit "] ", line_style (ml_style line));
      (ns_text nickname, fg (member_color (ns_color nickname))); (rest, line_style (ml_style line))] width) as (Hc & Hf).
    split; [|done]. rewrite Hc. cbn [line_chars flat_map fst snd]. by rewrite app_nil_r.
  - rewrite (proj1 (proj2 (sanitized_safe _)) Ht). rewrite chunks_chars.
    destruct (wrap_for_display_spec ((lit "[" ++ GmtTimestamp_to_string (ml_timestamp line) ++ lit "] ") ++ ml_text line) width)
      as (Hc & Hf). rewrite Hc, styled_app. split; [done|]. intros Hw. apply List.Forall_map.
    eapply list.Forall_impl; [by apply Hf|]. intros s Hs. unfold line_cells. cbn [flat_map fst]. by rewrite app_nil_r.
Qed.
End wrapping.

Section drawing.
Context `{WD : !Widths} `{WL : !WidthLaws} `{LY : !Layouts} `{LL : !LayoutLaws}.

(** * Every screen is drawn *)

(** The terminal's area. *)
Definition terminal_area (width height : u16) : Rect :=
  {| rc_x := 0; rc_y := 0; rc_width := width; rc_height := height |}.

Lemma add_u16_Some x y : (x + y < 65536)%N → add_u16 x y = Some (x + y)%N.
Proof. intros H. unfold add_u16. by rewrite (proj2 (N.ltb_lt _ _) H). Qed.

Lemma half_le n : (n / 2 <= n)%N.
Proof. apply N.Div0.div_le_upper_bound. lia. Qed.

(** A centered area has room for its border's offset. *)
Lemma centered_area_ok width height w h :
  (width < 65536)%N → (height < 65536)%N →
  ∃ r, centered_area (terminal_area width height) w h = Some r ∧ (rc_x r < 65535)%N ∧ (rc_y r < 65535)%N.
Proof.
  intros Hw Hh. unfold centered_area, terminal_area. cbn [rc_x rc_y rc_width rc_height].
  assert (Hhalf : ∀ n m, (n < 65536 → (n - N.min m n) / 2 < 65535)%N).
  { intros n m Hn. apply N.Div0.div_lt_upper_bound. lia. }
  pose proof (Hhalf width w Hw). pose proof (Hhalf height h Hh).
  rewrite !add_u16_Some by lia. cbn [mbind option_bind]. eexists. split; [done|]. cbn. lia.
Qed.

Lemma layout_piece d cs area i :
  (i < length cs)%nat → ∃ r, layout_split d 0 cs area !! i = Some r ∧ within r area.
Proof.
  intros Hi. destruct (lookup_lt_is_Some_2 (layout_split d 0 cs area) i) as [r Hr].
  { by rewrite split_length. }
  exists r. split; [done|]. exact (list.Forall_lookup_1 _ _ _ _ (split_within d cs area) Hr).
Qed.

Lemma form_rows_ok width height w h rows :
  (width < 65536)%N → (height < 65536)%N →
  ∃ area l, form_rows (terminal_area width height) w h rows = Some (area, l) ∧ length l = rows.
Proof.
  intros Hw Hh. destruct (centered_area_ok width height w h Hw Hh) as (area & Ha & Hx & Hy). unfold form_rows, inner_area.
  rewrite Ha. cbn [mbind option_bind]. rewrite !add_u16_Some by lia. cbn [mbind option_bind]. eexists _, _. split; [done|].
  by rewrite split_length, length_replicate.
Qed.

(** What a drawing is when it succeeds with nothing unsafe in it. *)
Definition drawn (r : option Scene) : Prop := ∃ scene, r = Some scene ∧ scene_safe scene.

Lemma line_safe_one s style : text_safe s → line_safe [(s, style)].
Proof. intros Hs. by repeat constructor. Qed.

(** ** Safe widgets *)

Definition widget_safe (w : Widget * Rect) : Prop := Forall line_safe (widget_lines w.1).

Lemma block_safe title area : text_safe title → widget_safe (W_Block (title_block title), area).
Proof. intros Ht. apply list.Forall_singleton. by apply line_safe_one. Qed.

Lemma paragraph_safe lines centered wrapped block area :
  Forall line_safe lines → (∀ title, block = Some title → line_safe title) →
  widget_safe (W_Paragraph lines centered wrapped block, area).
Proof.
  intros Hl Hb. apply list.Forall_app. split; [done|]. destruct block as [title|]; [|constructor].
  apply list.Forall_singleton. by apply Hb.
Qed.

Lemma one_line_safe s style centered area : text_safe s → widget_safe (paragraph [(s, style)] centered, area).
Proof. intros Hs. apply paragraph_safe; [|done]. apply list.Forall_singleton. by apply line_safe_one. Qed.

Lemma label_safe area s error : text_safe s → widget_safe (render_label area s error).
Proof. apply one_line_safe. Qed.

Lemma field_safe area s active : text_safe s → widget_safe (render_field area s active).
Proof. apply one_line_safe. Qed.

Lemma list_safe items block area :
  Forall line_safe items → line_safe block → widget_safe (W_List items block, area).
Proof. intros Hi Hb. apply list.Forall_app. split; [done|]. by apply list.Forall_singleton. Qed.

Lemma hint_row_safe area : widget_safe (return_hint area).
Proof. by apply one_line_safe. Qed.

(** Proves that texts, lines and widgets are safe from what they are made of. *)
Ltac safe_text :=
  repeat match goal with
  | |- scene_safe _ => unfold scene_safe
  | |- Forall _ (_ :: _) => apply list.Forall_cons; split
  | |- Forall _ [] => apply list.Forall_nil; exact I
  | |- Forall line_safe (widget_lines (?w, ?a).1) => change (widget_safe (w, a))
  | |- Forall line_safe (widget_lines ?w.1) => change (widget_safe w)
  | |- widget_safe (W_Block _, _) => apply block_safe
  | |- widget_safe (paragraph _ _, _) => apply one_line_safe
  | |- widget_safe (render_label _ _ _) => apply label_safe
  | |- widget_safe (render_field _ _ _) => apply field_safe
  | |- widget_safe (return_hint _) => apply hint_row_safe
  | |- widget_safe (W_Clear, _) => apply list.Forall_nil; exact I
  | |- widget_safe (W_Paragraph _ _ _ _, _) => apply paragraph_safe; [|intros ? [= <-] || done]
  | |- widget_safe (W_List _ _, _) => apply list_safe
  | |- line_safe (title_block _) => apply line_safe_one
  | |- line_safe (plain_line _) => apply line_safe_one
  | |- line_safe [_] => apply line_safe_one
  | |- line_safe (_ :: _) => apply list.Forall_cons; split; cbn [fst]
  | |- text_safe (_ ++ _) => apply text_safe_app
  | |- text_safe (sanitize_for_display _) => apply sanitize_safe
  | |- text_safe (display_N _) => apply display_safe
  | |- text_safe (masked _) => apply masked_safe
  | |- text_safe (GmtTimestamp_to_string _) => apply timestamp_safe
  | |- text_safe (format_elapsed _) => apply elapsed_safe
  | |- text_safe (room_header _) => apply header_safe
  | |- text_safe (form_hint _ _) => apply form_hint_safe
  | |- text_safe (lit _) => vm_compute; reflexivity
  | |- text_safe (_ :: _) => vm_compute; reflexivity
  | |- text_safe [] => reflexivity
  | |- text_safe dash => reflexivity
  | |- text_safe HOST_MARKER => reflexivity
  | |- text_safe ABOUT_TEXT => vm_compute; reflexivity
  | |- text_safe (_, _).1 => cbn [fst]
  | |- text_safe (if ?b then _ else _) => destruct b
  end.

Lemma drawn_form width height w h rows k :
  (width < 65536)%N → (height < 65536)%N →
  (∀ area l, length l = rows → drawn (k (area, l))) →
  drawn (form_rows (terminal_area width height) w h rows ≫= k).
Proof. intros Hw Hh Hk. destruct (form_rows_ok width height w h rows Hw Hh) as (area & l & -> & Hl). by apply Hk. Qed.

Lemma drawn_centered width height w h k :
  (width < 65536)%N → (height < 65536)%N →
  (∀ area, drawn (k area)) → drawn (centered_area (terminal_area width height) w h ≫= k).
Proof. intros Hw Hh Hk. destruct (centered_area_ok width height w h Hw Hh) as (area & -> & _). apply Hk. Qed.

Lemma drawn_Some scene : scene_safe scene → drawn (Some scene).
Proof. intros H. by exists scene. Qed.

(** The rows of a form, one by one. *)
Ltac form_drawn :=
  apply drawn_form; [assumption..|]; intros area l Hl;
  repeat (destruct l as [|? l]; try discriminate Hl); clear Hl;
  cbn [lookup list_lookup mbind option_bind]; apply drawn_Some; safe_text.

Lemma draw_form_ok width height s :
  (width < 65536)%N → (height < 65536)%N →
  match s with
  | SCR_HostSetup form => drawn (draw_host_setup (terminal_area width height) form)
  | SCR_JoinSetup form => drawn (draw_join_setup (terminal_area width height) form)
  | SCR_JoinForm form => drawn (draw_join_form (terminal_area width height) form)
  | _ => True
  end.
Proof.
  intros Hw Hh. destruct s; try done; unfold draw_host_setup, draw_join_setup, draw_join_form; form_drawn.
Qed.

(** ** The room *)

Lemma divider_safe height rows : Forall line_safe (map (divider_line height) rows).
Proof.
  apply List.Forall_map, list.Forall_true. intros row. apply line_safe_one. by repeat case_match.
Qed.

Lemma drawn_bind {A} (r : option A) (P : A → Prop) k :
  (∃ x, r = Some x ∧ P x) → (∀ x, P x → drawn (k x)) → drawn (r ≫= k).
Proof. intros (x & -> & Hx) Hk. by apply Hk. Qed.

Lemma room_header_ok view now area width height :
  within area (terminal_area width height) → (width < 65536)%N → (height < 65536)%N →
  drawn (draw_room_header view now area (room_header view)).
Proof.
  intros (_ & Hx & _ & Hy) Hw Hh. cbn [terminal_area rc_x rc_y rc_width rc_height] in Hx, Hy.
  unfold draw_room_header. assert (Hb : widget_safe (W_Block [], area)) by (repeat constructor).
  destruct (N.ltb_spec (rc_width area) 5); [apply drawn_Some; by constructor|].
  destruct (N.ltb_spec (rc_height area) 3); [apply drawn_Some; by constructor|]. cbn [orb].
  pose proof (half_le (rc_width area)). rewrite !add_u16_Some by lia. cbn [mbind option_bind]. apply drawn_Some.
  unfold scene_safe. apply list.Forall_cons. split; [exact Hb|]. safe_text. apply divider_safe.
Qed.

(** The characters of the rows of a line are those of the line. *)
Lemma message_rows_safe interval line width :
  message_ok interval line → Forall line_safe (message_rows width line).
Proof.
  intros Hm. apply lines_safe_chars. destruct (message_rows_spec interval line width Hm) as [-> _].
  destruct Hm as [Ht Hn _].
  assert (Hst : ∀ style s, text_safe s → Forall (λ c, is_unsafe_display_char c.1 = false) (styled style s)).
  { intros style s Hs. pose proof (proj1 (line_safe_chars _) (line_safe_one s style Hs)) as H. by rewrite line_chars_one in H. }
  unfold line_spec. apply list.Forall_app. split; [apply Hst; safe_text|].
  destruct (ml_nickname line) as [nickname|]; [|by apply Hst].
  destruct (Hn nickname eq_refl) as [rest Hr]. rewrite Hr, drop_app_length.
  assert (∀ c, c ∈ ns_text nickname ∨ c ∈ rest → c ∈ ml_text line) as Hsub by (rewrite Hr; set_solver).
  apply list.Forall_app. split; apply Hst, (safe_subset _ _ Ht); auto.
Qed.

Lemma shown_lines_ok view : view_ok view →
  Forall (message_ok (rv_message_timeout_interval view)) (List.filter (is_shown view) (rb_lines (rv_messages view))).
Proof. intros Hv. apply Forall_stdfilter, Hv. Qed.

Lemma messages_safe view area : view_ok view → widget_safe (draw_messages view area).
Proof.
  intros Hv. apply list_safe; [|by apply line_safe_one]. apply list.Forall_drop, List.Forall_flat_map.
  eapply list.Forall_impl; [by apply shown_lines_ok|]. intros line Hl. by eapply message_rows_safe.
Qed.

Lemma panels_ok view area : drawn (draw_host_panels view area).
Proof.
  unfold draw_host_panels. set (cs := [CN_Percentage 45; CN_Percentage 55]).
  destruct (layout_piece DR_Vertical cs area 0) as (p0 & -> & _); [simpl; lia|].
  destruct (layout_piece DR_Vertical cs area 1) as (p1 & -> & _); [simpl; lia|]. apply drawn_Some. safe_text.
  - apply List.Forall_map, list.Forall_true. intros m. unfold member_item. safe_text.
  - apply List.Forall_map, list.Forall_true. intros r. unfold request_item.
    destruct (rl_kind r) as [[intro|]|s]; safe_text.
Qed.

(** The cursor of the input is on a character. *)
Lemma viewport_split f l :
  shows f l → split_bytes (N.min (tf_cursor f) (str_len (tf_text f))) (tf_text f) = Some (ln_before l, ln_after l).
Proof.
  intros [-> -> _]. rewrite N.min_l; [apply split_bytes_app|]. unfold str_len, utf8. rewrite flat_map_app, length_app. lia.
Qed.

Lemma viewport_Some f l width : shows f l → ∃ s, input_viewport (tf_text f) (tf_cursor f) width = Some s.
Proof.
  intros Hs. unfold input_viewport. destruct (_ || _); [by eexists|]. rewrite (viewport_split f l Hs). by eexists.
Qed.

Lemma input_line_ok view area : view_ok view →
  ∃ w, draw_input_line view area = Some w ∧ widget_safe w.
Proof.
  intros Hv. destruct (vw_input view Hv) as (l & Hs & _). unfold draw_input_line.
  destruct (viewport_Some _ l (rc_width area - 2 - str_width (if rv_is_host view then lit "host> " else lit "> ")) Hs) as [s Hr].
  rewrite Hr. cbn [mbind option_bind]. eexists. split; [done|]. safe_text.
Qed.

Lemma draw_room_ok view now width height :
  view_ok view → (width < 65536)%N → (height < 65536)%N → drawn (draw_room (terminal_area width height) now view).
Proof.
  intros Hv Hw Hh. unfold draw_room. set (cs := [CN_Length 5; CN_Min 3; CN_Length 3]).
  destruct (layout_piece DR_Vertical cs (terminal_area width height) 0) as (c0 & -> & Hc0); [simpl; lia|].
  destruct (layout_piece DR_Vertical cs (terminal_area width height) 1) as (c1 & -> & _); [simpl; lia|].
  destruct (layout_piece DR_Vertical cs (terminal_area width height) 2) as (c2 & -> & _); [simpl; lia|].
  cbn [mbind option_bind]. destruct (room_header_ok view now c0 width height Hc0 Hw Hh) as (header & -> & Hheader).
  destruct (input_line_ok view c2 Hv) as (input & -> & Hinput). cbn [mbind option_bind].
  assert (Hsafe : ∀ area panels, scene_safe panels → scene_safe (header ++ [draw_messages view area] ++ panels ++ [input])).
  { intros area panels Hp. apply list.Forall_app. split; [done|]. apply list.Forall_app.
    split; [by apply list.Forall_singleton, messages_safe|]. apply list.Forall_app. split; [done|].
    by apply list.Forall_singleton. }
  destruct (uses_host_view view).
  - set (ds := [CN_Min 20; CN_Percentage 35]).
    destruct (layout_piece DR_Horizontal ds c1 0) as (b0 & -> & _); [simpl; lia|].
    destruct (layout_piece DR_Horizontal ds c1 1) as (b1 & -> & _); [simpl; lia|]. cbn [mbind option_bind].
    destruct (panels_ok view b1) as (panels & -> & Hp). cbn [mbind option_bind]. by apply drawn_Some, Hsafe.
  - cbn [lookup list_lookup mbind option_bind]. apply drawn_Some, Hsafe. constructor.
Qed.

Lemma menu_safe selection items i :
  Forall text_safe items → Forall line_safe (imap (λ j, menu_line selection (i + j)) items).
Proof.
  intros H. revert i. induction H as [|s items Hs _ IH]; intros i; [constructor|]. rewrite imap_cons. constructor.
  - unfold menu_line. case_match; apply line_safe_one, text_safe_app; done.
  - erewrite imap_ext; [apply (IH (S i))|]. intros j x _. simpl. by rewrite Nat.add_succ_r.
Qed.

Lemma draw_ok width height now app :
  screen_ok (app_screen app) → (width < 65536)%N → (height < 65536)%N → drawn (draw (terminal_area width height) now app).
Proof.
  intros Hs Hw Hh. pose proof (draw_form_ok width height (app_screen app) Hw Hh) as Hform. unfold draw.
  destruct (app_screen app) as [menu|tc|form|form|form| |view| |text]; try exact Hform.
  - apply drawn_centered; [done..|]. intros area. apply drawn_Some. safe_text.
    apply (menu_safe (N.to_nat (menu_selection menu)) MENU_ITEMS 0). by repeat constructor.
  - apply drawn_centered; [done..|]. intros area. rewrite (proj2 (N.ltb_ge _ _)) by exact Hs. apply drawn_Some.
    unfold scene_safe. apply list.Forall_singleton. apply list.Forall_cons. split; [|apply list.Forall_singleton]; safe_text.
  - apply drawn_centered; [done..|]. intros area. apply drawn_Some. safe_text.
  - by apply draw_room_ok.
  - apply drawn_centered; [done..|]. intros area. apply drawn_Some. safe_text.
  - apply drawn_centered; [done..|]. intros area. apply drawn_Some. safe_text.
Qed.

(** C37.  Drawing never fails and never harms the terminal. Whatever was typed and
    pasted, and whatever the supervisor and the other side put on the screen, the screen
    the application is in can be drawn on a terminal of any size, and no character that
    a terminal could act on is in any title, label or line of what is drawn. *)
Theorem every_screen_is_drawn inputs actions app width height now :
  Forall (λ i, typed_ok i.1) inputs → app_run inputs App_new = Some (actions, app) →
  (width < 65536)%N → (height < 65536)%N →
  ∃ scene, draw (terminal_area width height) now app = Some scene ∧ scene_safe scene.
Proof.
  intros Hi Hrun Hw Hh. destruct (app_run_ok inputs App_new) as (actions' & app' & Hrun' & Hs); [done..|].
  rewrite Hrun in Hrun'. injection Hrun' as <- <-. by apply draw_ok.
Qed.

(** C38.  No row of a room's messages is wider than its panel, by the widths the
    program gives to characters. In a panel of at least two columns inside its border,
    each line the filter lets through is split into rows whose characters' widths add up
    to no more than the panel's, and that are, read one after the other, the line's
    time, its sender in the sender's color and its whole text; what is drawn are the
    last rows, as many as the panel is high. A terminal that draws a sequence of
    characters wider than their sum may still clip it, as a finding says. *)
Theorem messages_are_shown_in_full inputs actions app view area :
  Forall (λ i, typed_ok i.1) inputs → app_run inputs App_new = Some (actions, app) →
  room_view app = Some view → (4 <= rc_width area)%N →
  ∃ rows : list (list TextLine),
    Forall2 (λ line rows, lines_chars rows = line_spec line ∧
               Forall (λ row, line_cells row <= rc_width area - 2)%N rows)
      (List.filter (is_shown view) (rb_lines (rv_messages view))) rows ∧
    ∃ shown hidden, concat rows = hidden ++ shown ∧
      draw_messages view area = (W_List shown (plain_line (lit "Messages")), area) ∧
      N.of_nat (length shown) = N.min (rc_height area - 2) (N.of_nat (length (concat rows))).
Proof.
  intros Hi Hrun Hview Hw. destruct (app_run_ok inputs App_new) as (actions' & app' & Hrun' & Hs); [done..|].
  rewrite Hrun in Hrun'. injection Hrun' as <- <-. unfold room_view in Hview.
  destruct (app_screen app) as [| | | | | |v| |]; try done. injection Hview as ->.
  pose proof (shown_lines_ok view Hs) as Hok. unfold draw_messages. set (lines := List.filter _ _) in *.
  exists (map (message_rows (rc_width area - 2)) lines). split.
  - clearbody lines. induction Hok as [|line lines Hl _ IH]; [constructor|]. constructor; [|done].
    destruct (message_rows_spec _ line (rc_width area - 2) Hl) as [Hc Hf]. split; [done|]. apply Hf. lia.
  - rewrite <-flat_map_concat_map. set (rows := flat_map _ _). set (skip := N.to_nat _).
    exists (drop skip rows), (take skip rows). rewrite take_drop. split_and!; [done..|].
    rewrite length_drop. subst skip. lia.
Qed.

(** * The input line *)

Lemma take_cells_spec width s : ∀ used,
  (used <= width)%N →
  ∃ rest, s = take_cells width used s ++ rest ∧ (used + cells (take_cells width used s) <= width)%N ∧
    match rest with [] => True | c :: _ => (width < used + cells (take_cells width used s) + cell_width c)%N end.
Proof.
  induction s as [|c s IH]; intros used Hu; cbn [take_cells].
  { exists []. change (cells []) with 0%N. split_and!; [done|lia|done]. }
  destruct (N.ltb_spec width (used + cell_width c)) as [Hf|Hf].
  - exists (c :: s). change (cells []) with 0%N. split_and!; [done|lia|lia].
  - destruct (IH (used + cell_width c)%N Hf) as (rest & Hr & Hle & Hmax). exists rest.
    cbn [app cells foldr]. fold (cells (take_cells width (used + cell_width c) s)). rewrite <-Hr.
    split_and!; [done|lia|]. destruct rest; [done|]. lia.
Qed.

Lemma cells_reverse s : cells (reverse s) = cells s.
Proof.
  induction s as [|c s IH]; [done|]. rewrite reverse_cons, cells_app, IH. change (cells (c :: s)) with (cell_width c + cells s)%N.
  change (cells [c]) with (cell_width c + 0)%N. lia.
Qed.

(** Characters that fit are all taken. *)
Lemma take_cells_app width s t : ∀ used,
  (used + cells s <= width)%N → take_cells width used (s ++ t) = s ++ take_cells width (used + cells s) t.
Proof.
  induction s as [|c s IH]; intros used Hu; cbn [app].
  { change (cells []) with 0%N. by rewrite N.add_0_r. }
  change (cells (c :: s)) with (cell_width c + cells s)%N in *. cbn [take_cells].
  rewrite (proj2 (N.ltb_ge _ _)) by lia. rewrite IH by lia. by rewrite N.add_assoc.
Qed.

(** The input line follows its cursor.  Where the width measured for the text before
    the cursor says right whether its cells fit, what is shown is a stretch of the text
    that fits the box and has the cursor in it, and leaves out, on either side, only what
    does not fit any more. *)
Theorem input_follows_cursor f l width :
  shows f l → (0 < width)%N →
  (cells (ln_before l) <= width ↔ str_width (ln_before l) <= width)%N →
  ∃ hidden shown shown' hidden',
    ln_before l = hidden ++ shown ∧ ln_after l = shown' ++ hidden' ∧
    input_viewport (tf_text f) (tf_cursor f) width = Some (shown ++ shown') ∧
    (cells (shown ++ shown') <= width)%N ∧
    match list.last hidden with None => True | Some c => (width < cells shown + cell_width c)%N end ∧
    match hidden' with [] => True | c :: _ => (width < cells (shown ++ shown') + cell_width c)%N end.
Proof.
  intros Hs Hw Hagree. unfold input_viewport. rewrite (viewport_split f l Hs).
  destruct (tf_text f) as [|x text] eqn:Et.
  { destruct Hs as [Htext _ _]. rewrite Et in Htext. symmetry in Htext. apply app_eq_nil in Htext as [Hb Ha].
    exists [], [], [], []. rewrite Hb, Ha. change (cells []) with 0%N. split_and!; try done. apply N.le_0_l. }
  rewrite (proj2 (N.eqb_neq _ _)) by lia. cbn [non_empty negb orb mbind option_bind].
  set (shown := if _ : bool then _ else _).
  assert (Hshown : ∃ hidden, ln_before l = hidden ++ shown ∧ (cells shown <= width)%N ∧
    match list.last hidden with None => True | Some c => (width < cells shown + cell_width c)%N end).
  { subst shown. destruct (N.leb_spec (str_width (ln_before l)) width) as [Hf|Hf].
    - exists []. split_and!; [done|by apply Hagree|done].
    - destruct (take_cells_spec width (reverse (ln_before l)) 0) as (rest & Hr & Hle & Hmax); [lia|].
      exists (reverse rest). rewrite cells_reverse. split_and!; [|lia|].
      + by rewrite <-reverse_app, <-Hr, reverse_involutive.
      + rewrite last_reverse. destruct rest as [|c rest]; [done|]. simpl. lia. }
  clearbody shown. destruct Hshown as (hidden & Hb & Hfit & Hcut).
  destruct (take_cells_spec width (ln_after l) (cells shown)) as (hidden' & Ha & Hle & Hmax); [done|].
  exists hidden, shown, (take_cells width (cells shown) (ln_after l)), hidden'.
  rewrite take_cells_app by done. rewrite N.add_0_l, cells_app. split_and!; try done.
Qed.
End drawing.
