(* ===== verification/Session.v ===== *)
(** [src/chat/session.rs]: the chat state of a connected member.

    [ChatSession] holds the current epoch key, the sender sequence, the
    replay tracker and the table of known members.  Its methods are
    computations of [Monad] over the session. *)
From Stdlib Require Import Strings.String Strings.Byte.
From S2P Require Export RoomTypes Replay Monad.

(** * State *)

Record MemberView := {
  mv_member_id : MemberId;
  mv_nickname : rstring;
  mv_color : ColorChoice;
  mv_is_host : bool;
  mv_ed25519_pubkey : list byte;
}.

Record ChatSession := {
  cs_room_session_id : RoomSessionId;
  cs_host_ed25519_pubkey : list byte;
  cs_host_x25519_pubkey : list byte;
  cs_member_id : MemberId;
  cs_current_epoch : option (u64 * EpochKey);
  cs_sender_sequence : u64;
  cs_members : list MemberView;
  cs_replay : ReplayTracker;
  cs_last_room_sequence : option u64;
  cs_join_policy_open : bool;
}.

(** Assignment of the four groups of fields the methods write. *)
Definition with_epoch (e : option (u64 * EpochKey)) (t : ReplayTracker) (s : ChatSession) : ChatSession := {|
  cs_room_session_id := cs_room_session_id s; cs_host_ed25519_pubkey := cs_host_ed25519_pubkey s;
  cs_host_x25519_pubkey := cs_host_x25519_pubkey s; cs_member_id := cs_member_id s;
  cs_current_epoch := e; cs_sender_sequence := cs_sender_sequence s;
  cs_members := cs_members s; cs_replay := t;
  cs_last_room_sequence := cs_last_room_sequence s;
  cs_join_policy_open := cs_join_policy_open s |}.

Definition with_sender_sequence (n : u64) (s : ChatSession) : ChatSession := {|
  cs_room_session_id := cs_room_session_id s; cs_host_ed25519_pubkey := cs_host_ed25519_pubkey s;
  cs_host_x25519_pubkey := cs_host_x25519_pubkey s; cs_member_id := cs_member_id s;
  cs_current_epoch := cs_current_epoch s; cs_sender_sequence := n;
  cs_members := cs_members s; cs_replay := cs_replay s;
  cs_last_room_sequence := cs_last_room_sequence s;
  cs_join_policy_open := cs_join_policy_open s |}.

Definition with_members (ms : list MemberView) (s : ChatSession) : ChatSession := {|
  cs_room_session_id := cs_room_session_id s; cs_host_ed25519_pubkey := cs_host_ed25519_pubkey s;
  cs_host_x25519_pubkey := cs_host_x25519_pubkey s; cs_member_id := cs_member_id s;
  cs_current_epoch := cs_current_epoch s; cs_sender_sequence := cs_sender_sequence s;
  cs_members := ms; cs_replay := cs_replay s;
  cs_last_room_sequence := cs_last_room_sequence s;
  cs_join_policy_open := cs_join_policy_open s |}.

Definition with_room (q : option u64) (b : bool) (s : ChatSession) : ChatSession := {|
  cs_room_session_id := cs_room_session_id s; cs_host_ed25519_pubkey := cs_host_ed25519_pubkey s;
  cs_host_x25519_pubkey := cs_host_x25519_pubkey s; cs_member_id := cs_member_id s;
  cs_current_epoch := cs_current_epoch s; cs_sender_sequence := cs_sender_sequence s;
  cs_members := cs_members s; cs_replay := cs_replay s;
  cs_last_room_sequence := q; cs_join_policy_open := b |}.

Abbreviation SM := (Comp ChatSession ChatError) (only parsing).

(** * Epochs and the member list *)

Definition ChatSession_new (room_session_id : RoomSessionId)
    (host_ed25519_pubkey host_x25519_pubkey : list byte) (member_id : MemberId) : ChatSession := {|
  cs_room_session_id := room_session_id; cs_host_ed25519_pubkey := host_ed25519_pubkey;
  cs_host_x25519_pubkey := host_x25519_pubkey; cs_member_id := member_id;
  cs_current_epoch := None; cs_sender_sequence := 0; cs_members := [];
  cs_replay := ReplayTracker_new; cs_last_room_sequence := None; cs_join_policy_open := true |}.

Definition current_epoch (self : ChatSession) : option u64 := fst <$> cs_current_epoch self.

Definition install_epoch (epoch : u64) (key : EpochKey) (self : ChatSession) : ChatSession :=
  if match current_epoch self with Some current => (epoch <=? current)%N | None => false end
  then self
  else with_epoch (Some (epoch, key)) (retain_epoch (cs_replay self) epoch) self.

Definition session_member (self : ChatSession) (id : MemberId) : option MemberView :=
  find_first (key_is mv_member_id id) (cs_members self).

Definition install_member (view : MemberView) (self : ChatSession) : ChatSession :=
  let id := mv_member_id view in
  if existsb (key_is mv_member_id id) (cs_members self)
  then with_members (update_first (key_is mv_member_id id) (λ _, view) (cs_members self)) self
  else with_members (cs_members self ++ [view]) self.

Definition session_remove_member (id : MemberId) (self : ChatSession) : ChatSession :=
  with_members (List.filter (λ m, negb (mv_member_id m =? id)%N) (cs_members self)) self.

Definition view_of_snapshot (m : SnapshotMember) : MemberView := {|
  mv_member_id := sm_member_id m; mv_nickname := sm_nickname m;
  mv_color := default ColorChoice_default (ColorChoice_from_index (sm_color m));
  mv_is_host := sm_is_host m; mv_ed25519_pubkey := sm_ed25519_pubkey m |}.

Definition install_snapshot (members : list SnapshotMember) (self : ChatSession) : ChatSession :=
  with_members (view_of_snapshot <$> members) self.

(** * Validation *)

Definition invalid {A} (detail : rstring) : Result A ChatError := Err (CE_InvalidPlaintext detail).

Definition validate_timeout_seconds (seconds : u64) : Result unit ChatError :=
  if timeout_in_range seconds then Ok tt
  else invalid (lit "timeout must be 1..=" ++ display_N MAX_MESSAGE_TIMEOUT_SECONDS
                ++ lit " seconds").

(** [same_identity]: the test of the duplicate check. *)
Definition same_identity (a b : SnapshotMember) : bool :=
  (sm_member_id a =? sm_member_id b)%N || bool_decide (sm_nickname a = sm_nickname b)
  || bool_decide (sm_ed25519_pubkey a = sm_ed25519_pubkey b).

(** The loop of [validate_snapshot], [prior] being the rows already seen. *)
Fixpoint validate_rows `{Nfc} (prior rows : list SnapshotMember) : Result unit ChatError :=
  match rows with
  | [] => Ok tt
  | member :: rows =>
      match validate_nickname (sm_nickname member) Limits_default with
      | Err error => invalid (ValidationError_to_string error)
      | Ok _ =>
          match ColorChoice_from_index (sm_color member) with
          | None => Err (CE_UnknownColor (sm_color member))
          | Some _ =>
              if existsb (λ p, same_identity p member) prior
              then invalid (lit "member snapshot contains duplicate identities")
              else validate_rows (prior ++ [member]) rows
          end
      end
  end.

Definition validate_snapshot `{Nfc} (members : list SnapshotMember) (own_id : MemberId)
    : Result unit ChatError :=
  if (length members =? 0)%nat || negb (existsb (λ m, sm_member_id m =? own_id)%N members)
  then invalid (lit "member snapshot omits the local member") else
  if (max_active_members Limits_default <? N.of_nat (length members))%N
  then invalid (lit "member snapshot lists " ++ display_N (N.of_nat (length members))
         ++ lit " members, the room limit is " ++ display_N (max_active_members Limits_default)) else
  let host_count :=
    length (List.filter (λ m, sm_is_host m && (sm_member_id m =? 0)%N) members) in
  if negb (host_count =? 1)%nat
     || existsb (λ m, negb (Bool.eqb (sm_is_host m) (sm_member_id m =? 0)%N)) members
  then invalid (lit "member snapshot has an invalid host entry")
  else validate_rows [] members.

(** * Methods *)

Section session.
Context `{Primitives} `{Nfc}.

Definition set_epoch_from_wrap (identity : MemberIdentity) (wrap : EpochWrap) : SM u64 :=
  s ← self;
  match current_epoch s with
  | Some current =>
      if (ew_epoch wrap <=? current)%N then fail (CE_OldEpoch (ew_epoch wrap) current)
      else mret tt
  | None => mret tt
  end;;
  wrap_key ← try_ (λ _, CE_InvalidCiphertext)
    (member_try_wrap_key_for identity (cs_host_x25519_pubkey s) (cs_room_session_id s)
       (cs_member_id s));
  key ← try_ (λ _, CE_InvalidCiphertext)
    (unwrap_epoch_key wrap_key (ew_epoch wrap) (cs_room_session_id s) (ew_nonce wrap)
       (ew_ciphertext wrap));
  modify (install_epoch (ew_epoch wrap) key);;
  mret (ew_epoch wrap).

(** [ChatSession::seal]. *)
Definition seal (identity : MemberIdentity) (message_type : u8) (plaintext : list byte)
    : SM EncryptedEnvelope :=
  s ← self;
  epoch_key ← ok_or (cs_current_epoch s) CE_NoEpochKey;
  n ← expect (succ_u64 (cs_sender_sequence s));
  modify (with_sender_sequence n);;
  sealed ← draw_err (λ _, CE_InvalidCiphertext)
    (seal_envelope (snd epoch_key) identity 1 (cs_room_session_id s) (fst epoch_key)
       (cs_member_id s) n message_type plaintext);
  try_ (λ _, CE_InvalidCiphertext)
    (EncryptedEnvelope_new (fst epoch_key) (cs_member_id s) n (sealed_nonce sealed)
       (sealed_ciphertext sealed) (sealed_signature sealed)).

(** [ChatSession::open]. *)
Definition open (message_type : u8) (envelope : EncryptedEnvelope) : SM (list byte) :=
  s ← self;
  epoch_key ← ok_or (cs_current_epoch s) CE_NoEpochKey;
  let epoch := fst epoch_key in
  if negb (env_epoch envelope =? epoch)%N then fail (CE_OldEpoch (env_epoch envelope) epoch) else
  let sender := env_sender_id envelope in
  sender_pubkey ← ok_or (mv_ed25519_pubkey <$> session_member s sender)
    (CE_UnknownSender (env_sender_id envelope));
  if match last_accepted (cs_replay s) sender epoch with
     | Some last => (env_sender_sequence envelope <=? last)%N
     | None => false
     end
  then fail (CE_ReplayRejected (env_sender_id envelope) (env_sender_sequence envelope)) else
  plaintext ← try_ (λ e, match e with
                         | CO_InvalidSignature => CE_InvalidSignature
                         | CO_Decrypt _ => CE_InvalidCiphertext
                         end)
    (open_envelope (snd epoch_key) sender_pubkey 1 (cs_room_session_id s) epoch
       (env_sender_id envelope) (env_sender_sequence envelope) message_type
       (env_nonce envelope) (env_ciphertext envelope) (env_signature envelope));
  modify (λ s, with_epoch (cs_current_epoch s)
    (snd (accept (cs_replay s) sender epoch (env_sender_sequence envelope))) s);;
  mret plaintext.

(** ** Sending *)

Definition send_chat (identity : MemberIdentity) (text : rstring) : SM Message :=
  try_ (λ e, CE_InvalidPlaintext (ValidationError_to_string e))
    (validate_chat_text text Limits_default);;
  envelope ← seal identity MSG_CHAT (utf8 text);
  mret (M_ChatMessage envelope).

Definition send_color (identity : MemberIdentity) (color : ColorChoice) : SM Message :=
  envelope ← seal identity MSG_COLOR [byte_of (ColorChoice_as_index color)];
  mret (M_ColorChange envelope).

Definition send_timeout_request (identity : MemberIdentity) (seconds : u64) : SM Message :=
  try_ id (validate_timeout_seconds seconds);;
  envelope ← seal identity MSG_TIMEOUT_REQUEST (be_bytes 8 seconds);
  mret (M_TimeoutRequest envelope).

Definition send_timeout_changed (identity : MemberIdentity) (interval : option u64) : SM Message :=
  match interval with
  | Some seconds => try_ id (validate_timeout_seconds seconds)
  | None => mret tt
  end;;
  let payload :=
    match interval with
    | Some seconds => x01 :: be_bytes 8 seconds
    | None => replicate 9 x00
    end in
  envelope ← seal identity MSG_TIMEOUT_CHANGED payload;
  mret (M_TimeoutChanged envelope).

(** ** Receiving *)

Definition receive_chat (envelope : EncryptedEnvelope) : SM rstring :=
  plaintext ← open MSG_CHAT envelope;
  text ← ok_or (from_utf8 plaintext) (CE_InvalidPlaintext (lit "not valid UTF-8"));
  try_ (λ e, CE_InvalidPlaintext (ValidationError_to_string e))
    (validate_chat_text text Limits_default);;
  mret text.

Definition receive_color (envelope : EncryptedEnvelope) : SM ColorChoice :=
  plaintext ← open MSG_COLOR envelope;
  match plaintext with
  | [b] => ok_or (ColorChoice_from_index (byte_val b)) (CE_UnknownColor (byte_val b))
  | _ => fail (CE_InvalidPlaintext (lit "color payload must be one byte"))
  end.

Definition receive_timeout_request (envelope : EncryptedEnvelope) : SM u64 :=
  plaintext ← open MSG_TIMEOUT_REQUEST envelope;
  if negb (length plaintext =? 8)%nat
  then fail (CE_InvalidPlaintext (lit "timeout request must contain eight bytes")) else
  let seconds := be_value plaintext in
  try_ id (validate_timeout_seconds seconds);;
  mret seconds.

Definition receive_timeout_changed (envelope : EncryptedEnvelope) : SM (option u64) :=
  if negb (env_sender_id envelope =? 0)%N
  then fail (CE_InvalidPlaintext (lit "only the host can change the room timeout")) else
  plaintext ← open MSG_TIMEOUT_CHANGED envelope;
  match plaintext with
  | flag :: rest =>
      if negb (length rest =? 8)%nat
      then fail (CE_InvalidPlaintext (lit "timeout setting must contain nine bytes")) else
      if (byte_val flag =? 0)%N && forallb (λ b, (byte_val b =? 0)%N) rest then mret None else
      if (byte_val flag =? 1)%N then
        let seconds := be_value rest in
        try_ id (validate_timeout_seconds seconds);;
        mret (Some seconds)
      else fail (CE_InvalidPlaintext (lit "invalid timeout setting flag"))
  | [] => fail (CE_InvalidPlaintext (lit "timeout setting must contain nine bytes"))
  end.

(** ** Host broadcasts *)

Definition verify_room_event (sequence epoch : u64) (event_type : u8) (body signature : list byte)
    : SM unit :=
  s ← self;
  let transcript :=
    room_event_transcript 1 (cs_room_session_id s) sequence epoch event_type body in
  if negb (verify_ed25519 (cs_host_ed25519_pubkey s) transcript signature)
  then fail CE_InvalidSignature else
  match current_epoch s with
  | Some current =>
      if negb (epoch =? current)%N then fail (CE_OldEpoch epoch current) else mret tt
  | None => mret tt
  end;;
  if match cs_last_room_sequence s with Some last => (sequence <=? last)%N | None => false end
  then fail (CE_ReplayRejected 0 sequence) else
  modify (λ s, with_room (Some sequence) (cs_join_policy_open s) s).

Definition handle_member_joined (event : MemberJoined) : SM unit :=
  try_ (λ e, CE_InvalidPlaintext (ValidationError_to_string e))
    (validate_nickname (mj_nickname event) Limits_default);;
  s ← self;
  if (mj_member_id event =? 0)%N
     || existsb (λ m, (mv_member_id m =? mj_member_id event)%N
          || bool_decide (mv_nickname m = mj_nickname event)
          || bool_decide (mv_ed25519_pubkey m = mj_ed25519_pubkey event)) (cs_members s)
  then fail (CE_InvalidPlaintext (lit "duplicate or invalid member identity")) else
  let body := member_joined_body (mj_member_id event) (mj_nickname event)
                (mj_ed25519_pubkey event) in
  verify_room_event (mj_sequence event) (mj_epoch event) MSG_MEMBER_JOINED body
    (mj_signature event);;
  modify (install_member {| mv_member_id := mj_member_id event; mv_nickname := mj_nickname event;
    mv_color := ColorChoice_default; mv_is_host := false;
    mv_ed25519_pubkey := mj_ed25519_pubkey event |}).

Definition handle_member_gone (event_type : u8) (sequence epoch : u64) (member_id : u64)
    (signature : list byte) : SM unit :=
  verify_room_event sequence epoch event_type (member_gone_body member_id) signature;;
  modify (session_remove_member member_id).

Definition handle_member_snapshot (event : MemberSnapshot) : SM unit :=
  s ← self;
  try_ id (validate_snapshot (ms_members event) (cs_member_id s));;
  let body := member_snapshot_body (snapshot_body_member <$> ms_members event) in
  verify_room_event (ms_sequence event) (ms_epoch event) MSG_MEMBER_SNAPSHOT body
    (ms_signature event);;
  modify (install_snapshot (ms_members event)).

Definition handle_membership_message (message : Message) : SM unit :=
  match message with
  | M_MemberJoined event => handle_member_joined event
  | M_MemberLeft event =>
      handle_member_gone MSG_MEMBER_LEFT (ml_sequence event) (ml_epoch event)
        (ml_member_id event) (ml_signature event)
  | M_MemberKicked event =>
      handle_member_gone MSG_MEMBER_KICKED (mk_sequence event) (mk_epoch event)
        (mk_member_id event) (mk_signature event)
  | M_JoinPolicyChanged event =>
      verify_room_event (jp_sequence event) (jp_epoch event) MSG_JOIN_POLICY_CHANGED
        (join_policy_body (jp_open event)) (jp_signature event);;
      modify (λ s, with_room (cs_last_room_sequence s) (jp_open event) s)
  | M_MemberSnapshot event => handle_member_snapshot event
  | _ => fail (CE_InvalidPlaintext (lit "not a membership message"))
  end.
End session.
