(* ===== verification/SessionProps.v ===== *)
(** What a client session accepts: envelopes, once each and in order, and
    the host's signed broadcasts; and that its member list stays well
    formed. *)
From Stdlib Require Import Strings.String Sorting.Sorted.
From S2P Require Export Session.

Section session.
Context `{PR : !Primitives} `{PL : !PrimitiveLaws} `{NF : !Nfc}.
Implicit Types (s : ChatSession) (r : Rng).

(** * Opening an envelope *)

(** The conditions under which a session opens an envelope of type [t]. *)
Record opens s (t : u8) (env : EncryptedEnvelope) (key : EpochKey) (v : MemberView)
    (plaintext : list byte) : Prop := {
  op_key : cs_current_epoch s = Some (env_epoch env, key);
  op_sender : session_member s (env_sender_id env) = Some v;
  op_fresh : fresh_sequence (cs_replay s) (env_sender_id env) (env_epoch env)
    (env_sender_sequence env);
  op_opens : open_envelope key (mv_ed25519_pubkey v) 1 (cs_room_session_id s) (env_epoch env)
    (env_sender_id env) (env_sender_sequence env) t (env_nonce env) (env_ciphertext env)
    (env_signature env) = Ok plaintext;
}.

(** The session with [env]'s sequence recorded. *)
Definition recorded (env : EncryptedEnvelope) s : ChatSession :=
  with_epoch (cs_current_epoch s)
    (<[(env_sender_id env, env_epoch env) := env_sender_sequence env]> (cs_replay s)) s.

Lemma fresh_sequence_test t sender epoch q :
  match last_accepted t sender epoch with Some last => (q <=? last)%N | None => false end = false ↔
  fresh_sequence t sender epoch q.
Proof.
  unfold last_accepted, fresh_sequence. destruct (t !! _) as [last|]; [|naive_solver].
  rewrite N.leb_gt. naive_solver.
Qed.

Lemma open_run t env s r :
  (∃ key v p, opens s t env key v p ∧ open t env (s, r) = (Done p, (recorded env s, r))) ∨
  (∃ e, open t env (s, r) = (Fail e, (s, r))).
Proof.
  unfold open, mbind, M_bind, self. cbn [fst snd].
  destruct (cs_current_epoch s) as [[epoch key]|] eqn:Ek; [|by right; eexists].
  cbn [ok_or mret M_ret fst snd]. destruct (N.eqb_spec (env_epoch env) epoch) as [Ee|]; [|by right; eexists].
  cbn [negb]. destruct (session_member s _) as [v|] eqn:Ev; [|by right; eexists].
  cbn [ok_or fmap option_fmap option_map mret M_ret]. subst epoch.
  destruct (match last_accepted _ _ _ with Some _ => _ | None => _ end) eqn:Ef;
    [by right; eexists|apply fresh_sequence_test in Ef].
  destruct (open_envelope _ _ _ _ _ _ _ _ _ _ _) as [p|] eqn:Eo; [|by right; eexists].
  left. exists key, v, p. split; [by constructor|].
  cbn [try_ mret M_ret]. unfold modify. cbn [fst snd]. do 3 f_equal. unfold recorded.
  pose proof (accept_spec (cs_replay s) (env_sender_id env) (env_epoch env) (env_sender_sequence env)) as Ha.
  destruct (accept _ _ _ _) as [ok t']. destruct Ha as (Hok & Ht & _). cbn [snd].
  by rewrite Ht by (by apply Hok).
Qed.

Lemma open_Done t env s r key v p :
  opens s t env key v p → open t env (s, r) = (Done p, (recorded env s, r)).
Proof.
  intros [Hk Hs Hf Ho]. destruct (open_run t env s r) as [(k' & v' & p' & [Hk' Hs' _ Ho'] & E)|(e & E)];
    [rewrite E; congruence|]. exfalso. revert E.
  unfold open, mbind, M_bind, self. cbn [fst snd]. rewrite Hk. cbn [ok_or mret M_ret fst snd].
  rewrite N.eqb_refl. cbn [negb]. rewrite Hs. cbn [ok_or fmap option_fmap option_map mret M_ret].
  apply fresh_sequence_test in Hf. rewrite Hf, Ho. done.
Qed.

(** * Sealing an envelope *)

(** What [seal] yields: the next sequence number, and an envelope that opens
    under the session's key and the sender's public key. *)
Lemma seal_run identity t p s r env (s' : ChatSession * Rng) :
  seal identity t p (s, r) = (Done env, s') →
  ∃ key r', cs_current_epoch s = Some (env_epoch env, key) ∧
    env_sender_id env = cs_member_id s ∧ env_sender_sequence env = (cs_sender_sequence s + 1)%N ∧
    s' = (with_sender_sequence (env_sender_sequence env) s, r') ∧
    open_envelope key (member_ed25519_pubkey identity) 1 (cs_room_session_id s) (env_epoch env)
      (env_sender_id env) (env_sender_sequence env) t (env_nonce env) (env_ciphertext env)
      (env_signature env) = Ok p.
Proof.
  unfold seal, mbind, M_bind, self. cbn [fst snd].
  destruct (cs_current_epoch s) as [[epoch key]|]; [|done]. cbn [ok_or mret M_ret fst snd].
  destruct (succ_u64 _) as [n|] eqn:En; [|done]. apply succ_u64_Some in En as [-> _].
  cbn [expect mret M_ret fst snd modify]. unfold draw_err. cbn [fst snd].
  destruct (seal_envelope _ _ _ _ _ _ _ _ _ _) as [[sealed|] r'] eqn:Es; [|done].
  apply seal_open in Es as (Ho & _). unfold EncryptedEnvelope_new.
  destruct (negb _); [done|]. intros [= <- <-]. cbn. by exists key, r'.
Qed.

(** * Host broadcasts *)

(** The signed part of a broadcast: sequence, epoch, type, body, signature. *)
Record Signature := {
  sg_sequence : u64; sg_epoch : u64; sg_type : u8; sg_body : list byte; sg_signature : list byte }.

Definition signed_part (message : Message) : option Signature :=
  match message with
  | M_MemberJoined e => Some {| sg_sequence := mj_sequence e; sg_epoch := mj_epoch e;
      sg_type := MSG_MEMBER_JOINED;
      sg_body := member_joined_body (mj_member_id e) (mj_nickname e) (mj_ed25519_pubkey e);
      sg_signature := mj_signature e |}
  | M_MemberLeft e => Some {| sg_sequence := ml_sequence e; sg_epoch := ml_epoch e;
      sg_type := MSG_MEMBER_LEFT; sg_body := member_gone_body (ml_member_id e);
      sg_signature := ml_signature e |}
  | M_MemberKicked e => Some {| sg_sequence := mk_sequence e; sg_epoch := mk_epoch e;
      sg_type := MSG_MEMBER_KICKED; sg_body := member_gone_body (mk_member_id e);
      sg_signature := mk_signature e |}
  | M_JoinPolicyChanged e => Some {| sg_sequence := jp_sequence e; sg_epoch := jp_epoch e;
      sg_type := MSG_JOIN_POLICY_CHANGED; sg_body := join_policy_body (jp_open e);
      sg_signature := jp_signature e |}
  | M_MemberSnapshot e => Some {| sg_sequence := ms_sequence e; sg_epoch := ms_epoch e;
      sg_type := MSG_MEMBER_SNAPSHOT;
      sg_body := member_snapshot_body (snapshot_body_member <$> ms_members e);
      sg_signature := ms_signature e |}
  | _ => None
  end.

(** A broadcast the host signed for this room, of the session's epoch, newer
    than the last one. *)
Record timely s (b : Signature) : Prop := {
  tm_signed : verify_ed25519 (cs_host_ed25519_pubkey s)
    (room_event_transcript 1 (cs_room_session_id s) (sg_sequence b) (sg_epoch b) (sg_type b)
       (sg_body b)) (sg_signature b) = true;
  tm_epoch : ∀ current, current_epoch s = Some current → sg_epoch b = current;
  tm_newer : ∀ last, cs_last_room_sequence s = Some last → (last < sg_sequence b)%N;
}.

(** The content a broadcast must have beside its signature. *)
Definition admissible s (message : Message) : Prop :=
  match message with
  | M_MemberJoined e =>
      (∃ n, validate_nickname (mj_nickname e) Limits_default = Ok n) ∧ mj_member_id e ≠ 0%N ∧
      Forall (λ m, mv_member_id m ≠ mj_member_id e ∧ mv_nickname m ≠ mj_nickname e ∧
                   mv_ed25519_pubkey m ≠ mj_ed25519_pubkey e) (cs_members s)
  | M_MemberSnapshot e => validate_snapshot (ms_members e) (cs_member_id s) = Ok tt
  | _ => True
  end.

(** What an accepted broadcast does to the member list and the policy. *)
Definition effect (message : Message) s : ChatSession :=
  match message with
  | M_MemberJoined e =>
      with_members (cs_members s ++ [{| mv_member_id := mj_member_id e;
        mv_nickname := mj_nickname e; mv_color := ColorChoice_default; mv_is_host := false;
        mv_ed25519_pubkey := mj_ed25519_pubkey e |}]) s
  | M_MemberLeft e => session_remove_member (ml_member_id e) s
  | M_MemberKicked e => session_remove_member (mk_member_id e) s
  | M_JoinPolicyChanged e => with_room (cs_last_room_sequence s) (jp_open e) s
  | M_MemberSnapshot e => install_snapshot (ms_members e) s
  | _ => s
  end.

Definition noted (b : Signature) s : ChatSession :=
  with_room (Some (sg_sequence b)) (cs_join_policy_open s) s.

Lemma verify_run b s r :
  (timely s b ∧ verify_room_event (sg_sequence b) (sg_epoch b) (sg_type b) (sg_body b)
     (sg_signature b) (s, r) = (Done tt, (noted b s, r))) ∨
  (¬ timely s b ∧ ∃ e, verify_room_event (sg_sequence b) (sg_epoch b) (sg_type b) (sg_body b)
     (sg_signature b) (s, r) = (Fail e, (s, r))).
Proof.
  unfold verify_room_event, mbind, M_bind, self. cbn [fst snd].
  destruct (verify_ed25519 _ _ _) eqn:Ev; cbn [negb].
  2:{ right. split; [intros [H _ _]; congruence|by eexists]. }
  destruct (current_epoch s) as [cur|] eqn:Ec;
    [destruct (N.eqb_spec (sg_epoch b) cur) as [Ee|Ee]|]; cbn [negb mret M_ret fst snd].
  2:{ right. split; [intros [_ H _]; by apply Ee, H|by eexists]. }
  all: destruct (cs_last_room_sequence s) as [last|] eqn:El;
    [destruct (N.leb_spec (sg_sequence b) last) as [Hl|Hl]|].
  all: try (right; split; [intros [_ _ H]; specialize (H last El); lia|by eexists]).
  all: left; split; [constructor|done]; congruence || (intros; simplify_eq; done).
Qed.

(** [verify_run] followed by an update. *)
Lemma verify_then b g s r :
  (timely s b ∧ (verify_room_event (sg_sequence b) (sg_epoch b) (sg_type b) (sg_body b)
     (sg_signature b);; modify g) (s, r) = (Done tt, (g (noted b s), r))) ∨
  (¬ timely s b ∧ ∃ e, (verify_room_event (sg_sequence b) (sg_epoch b) (sg_type b) (sg_body b)
     (sg_signature b);; modify g) (s, r) = (Fail e, (s, r))).
Proof.
  unfold mbind, M_bind. destruct (verify_run b s r) as [[H ->]|[H [e ->]]]; [left|right]; eauto.
Qed.

Lemma known_identity_test s e :
  (mj_member_id e =? 0)%N
  || existsb (λ m, (mv_member_id m =? mj_member_id e)%N
       || bool_decide (mv_nickname m = mj_nickname e)
       || bool_decide (mv_ed25519_pubkey m = mj_ed25519_pubkey e)) (cs_members s) = false ↔
  mj_member_id e ≠ 0%N ∧
  Forall (λ m, mv_member_id m ≠ mj_member_id e ∧ mv_nickname m ≠ mj_nickname e ∧
               mv_ed25519_pubkey m ≠ mj_ed25519_pubkey e) (cs_members s).
Proof.
  rewrite orb_false_iff, N.eqb_neq, existsb_false, list.Forall_forall.
  split; intros [H0 H]; (split; [done|]); intros m Hm; specialize (H m Hm); revert H;
    rewrite !orb_false_iff, !bool_decide_eq_false, N.eqb_neq; naive_solver.
Qed.

(** A message accepted or refused by a session, the state of either case. *)
Definition decided s r (message : Message) (b : Signature) (x : Outcome ChatError unit * (ChatSession * Rng))
    : Prop :=
  (admissible s message ∧ timely s b ∧ x = (Done tt, (effect message (noted b s), r))) ∨
  (¬ (admissible s message ∧ timely s b) ∧ ∃ e, x = (Fail e, (s, r))).

Lemma joined_decided e b s r :
  signed_part (M_MemberJoined e) = Some b →
  decided s r (M_MemberJoined e) b (handle_member_joined e (s, r)).
Proof.
  intros [= <-]. unfold handle_member_joined. unfold mbind at 1, M_bind at 1.
  destruct (validate_nickname _ _) as [n|err] eqn:En; cbn [try_ mret M_ret].
  2:{ right. split; [intros [[[n Hn] _] _]; simpl in Hn; congruence|by eexists]. }
  unfold mbind at 1, M_bind at 1, self at 1. cbn [fst snd].
  destruct (_ || _) eqn:Ed.
  { right. split; [|by eexists]. intros [[_ H] _]. apply known_identity_test in H. simpl in *. congruence. }
  apply known_identity_test in Ed as Hd.
  match goal with |- decided _ _ _ ?b _ => destruct (verify_then b (install_member {|
    mv_member_id := mj_member_id e; mv_nickname := mj_nickname e; mv_color := ColorChoice_default;
    mv_is_host := false; mv_ed25519_pubkey := mj_ed25519_pubkey e |}) s r) as [[Ht Hr]|[Ht Hr]] end.
  - left. split; [by split; [exists n|]|]. split; [done|]. cbv zeta. simpl in Hr. rewrite Hr.
    f_equal. f_equal. unfold install_member. simpl.
    replace (existsb _ (cs_members s)) with false; [done|]. symmetry. apply existsb_false.
    intros m Hm. destruct Hd as [_ Hd]. rewrite list.Forall_forall in Hd.
    unfold key_is. apply bool_decide_eq_false. by apply Hd.
  - right. split; [by intros [_ ?]|exact Hr].
Qed.

Lemma snapshot_decided e b s r :
  signed_part (M_MemberSnapshot e) = Some b →
  decided s r (M_MemberSnapshot e) b (handle_member_snapshot e (s, r)).
Proof.
  intros [= <-]. unfold handle_member_snapshot. unfold mbind at 1, M_bind at 1, self at 1.
  cbn [fst snd]. unfold mbind at 1, M_bind at 1.
  destruct (validate_snapshot _ _) as [[]|err] eqn:En; cbn [try_ mret M_ret].
  2:{ right. split; [intros [H _]; simpl in H; congruence|by eexists]. }
  cbv zeta. match goal with |- decided _ _ _ ?b _ =>
    destruct (verify_then b (install_snapshot (ms_members e)) s r) as [[Ht Hr]|[Ht Hr]] end.
  - left. by split_and!.
  - right. split; [by intros [_ ?]|exact Hr].
Qed.

Lemma handle_decided message b s r :
  signed_part message = Some b → decided s r message b (handle_membership_message message (s, r)).
Proof.
  intros Hb. destruct message; try done; cbn [handle_membership_message].
  1: by apply joined_decided.
  4: by apply snapshot_decided.
  all: injection Hb as <-.
  1: match goal with |- decided _ _ (M_MemberLeft ?m) ?b _ =>
       destruct (verify_then b (session_remove_member (ml_member_id m)) s r) as [[Ht Hr]|[Ht Hr]] end.
  3: match goal with |- decided _ _ (M_MemberKicked ?m) ?b _ =>
       destruct (verify_then b (session_remove_member (mk_member_id m)) s r) as [[Ht Hr]|[Ht Hr]] end.
  5: match goal with |- decided _ _ (M_JoinPolicyChanged ?m) ?b _ =>
       destruct (verify_then b (λ s, with_room (cs_last_room_sequence s) (jp_open m) s) s r)
         as [[Ht Hr]|[Ht Hr]] end.
  all: first [left; split_and!; [done|done|exact Hr]|right; split; [by intros [_ ?]|exact Hr]].
Qed.

(** C21.  A membership broadcast is applied exactly when the host signed it for this
    room, of the session's epoch and newer than the last one, and its content is
    admissible; then it has exactly its effect on the member list and the policy, and
    otherwise it is refused and changes nothing. *)
Theorem membership_spec message b s r :
  signed_part message = Some b → decided s r message b (handle_membership_message message (s, r)).
Proof. apply handle_decided. Qed.

(** * Runs of a session *)

(** The public methods. *)
Inductive SessionOp :=
| Op_Wrap (identity : MemberIdentity) (wrap : EpochWrap)
| Op_InstallEpoch (epoch : u64) (key : EpochKey)
| Op_InstallMember (view : MemberView)
| Op_RemoveMember (id : MemberId)
| Op_InstallSnapshot (members : list SnapshotMember)
| Op_SendChat (identity : MemberIdentity) (text : rstring)
| Op_SendColor (identity : MemberIdentity) (color : ColorChoice)
| Op_SendTimeoutRequest (identity : MemberIdentity) (seconds : u64)
| Op_SendTimeoutChanged (identity : MemberIdentity) (interval : option u64)
| Op_ReceiveChat (env : EncryptedEnvelope)
| Op_ReceiveColor (env : EncryptedEnvelope)
| Op_ReceiveTimeoutRequest (env : EncryptedEnvelope)
| Op_ReceiveTimeoutChanged (env : EncryptedEnvelope)
| Op_Membership (message : Message).

Definition do_op (op : SessionOp) : SM unit :=
  match op with
  | Op_Wrap identity wrap => set_epoch_from_wrap identity wrap;; mret tt
  | Op_InstallEpoch epoch key => modify (install_epoch epoch key)
  | Op_InstallMember view => modify (install_member view)
  | Op_RemoveMember id => modify (session_remove_member id)
  | Op_InstallSnapshot members => modify (install_snapshot members)
  | Op_SendChat identity text => send_chat identity text;; mret tt
  | Op_SendColor identity color => send_color identity color;; mret tt
  | Op_SendTimeoutRequest identity seconds => send_timeout_request identity seconds;; mret tt
  | Op_SendTimeoutChanged identity interval => send_timeout_changed identity interval;; mret tt
  | Op_ReceiveChat env => receive_chat env;; mret tt
  | Op_ReceiveColor env => receive_color env;; mret tt
  | Op_ReceiveTimeoutRequest env => receive_timeout_request env;; mret tt
  | Op_ReceiveTimeoutChanged env => receive_timeout_changed env;; mret tt
  | Op_Membership message => handle_membership_message message
  end.

(** Any number of calls, failed ones included; a panic ends the program. *)
Inductive session_steps : ChatSession * Rng → ChatSession * Rng → Prop :=
| session_refl x : session_steps x x
| session_step x op o y z :
    do_op op x = (o, y) → o ≠ Panic → session_steps y z → session_steps x z.

(** An envelope of epoch [e] and sequence [q] of the sender [id] is behind
    the session: its epoch is over or its sequence recorded. *)
Definition behind (id : MemberId) (e q : u64) s : Prop :=
  ∃ cur, current_epoch s = Some cur ∧
    ((e < cur)%N ∨ e = cur ∧ ∃ last, last_accepted (cs_replay s) id e = Some last ∧ (q <= last)%N).

(** What [behind] looks at. *)
Definition replay_view s := (cs_current_epoch s, cs_replay s).

Lemma keeps_behind {A} (m : SM A) id e q : keeps replay_view m → preserves (behind id e q) m.
Proof.
  apply keeps_preserves. intros s s'. unfold replay_view, behind, current_epoch.
  intros [= -> ->]. done.
Qed.

Lemma open_behind t env id e q : preserves (behind id e q) (open t env).
Proof.
  intros [s r] (cur & Hc & Hb) _. destruct (open_run t env s r) as [(key & v & p & Ho & ->)|[x ->]];
    [|by exists cur]. exists cur. split; [done|]. destruct Hb as [|(-> & last & Hl & Hq)]; [by left|].
  right. split; [done|]. unfold recorded, last_accepted in *. cbn [fst snd with_epoch cs_replay].
  destruct (decide ((env_sender_id env, env_epoch env) = (id, cur))) as [E|E].
  - rewrite E, lookup_insert_eq. eexists. split; [done|].
    pose proof (op_fresh _ _ _ _ _ _ Ho last) as Hf. injection E as E1 E2.
    rewrite E1, E2 in Hf. specialize (Hf Hl). lia.
  - rewrite lookup_insert_ne by done. by exists last.
Qed.

Lemma install_epoch_behind epoch key id e q s :
  behind id e q s → behind id e q (install_epoch epoch key s).
Proof.
  intros (cur & Hc & Hb). unfold install_epoch. rewrite Hc.
  destruct (N.leb_spec epoch cur); [by exists cur|]. exists epoch. split; [done|]. left.
  destruct Hb as [?|[-> _]]; lia.
Qed.

Lemma keeps_seal identity t p : keeps replay_view (seal identity t p).
Proof. unfold seal. solve_keeps. Qed.
Hint Resolve keeps_seal : keeps.

Lemma keeps_install_member v : keeps replay_view (modify (install_member v) : SM unit).
Proof. apply keeps_modify. intros s. unfold install_member. by destruct (existsb _ (cs_members s)). Qed.
Hint Resolve keeps_install_member : keeps.

Lemma keeps_membership message : keeps replay_view (handle_membership_message message).
Proof.
  destruct message; simpl; unfold handle_member_joined, handle_member_gone, handle_member_snapshot,
    verify_room_event; solve_keeps; apply keeps_install_member.
Qed.

(** Each method keeps what is behind behind. *)
Lemma do_op_behind op id e q : preserves (behind id e q) (do_op op).
Proof.
  assert (Ho : ∀ {A} t env (k : list byte → SM A), (∀ p, keeps replay_view (k p)) →
    preserves (behind id e q) (open t env ≫= k)).
  { intros A t env k Hk. apply preserves_bind; [apply open_behind|]. intros p. by apply keeps_behind. }
  assert (Hb : ∀ {A B} (m : SM A) (k : A → SM B), preserves (behind id e q) m →
    (∀ a, keeps replay_view (k a)) → preserves (behind id e q) (m ≫= k)).
  { intros A B m k Hm Hk. apply preserves_bind; [done|]. intros a. by apply keeps_behind. }
  destruct op; simpl; try (apply Hb; [|solve_keeps]).
  - unfold set_epoch_from_wrap. apply preserves_self. intros s Hs.
    apply preserves_bind; [apply keeps_behind; solve_keeps|intros _].
    apply preserves_bind; [auto with preserves|intros wk].
    apply preserves_bind; [auto with preserves|intros key].
    apply Hb; [|solve_keeps]. apply preserves_modify. intros. by apply install_epoch_behind.
  - apply preserves_modify. intros. by apply install_epoch_behind.
  - apply keeps_behind, keeps_install_member.
  - apply keeps_behind. solve_keeps.
  - apply keeps_behind. solve_keeps.
  - apply keeps_behind. unfold send_chat. solve_keeps.
  - apply keeps_behind. unfold send_color. solve_keeps.
  - apply keeps_behind. unfold send_timeout_request. solve_keeps.
  - apply keeps_behind. unfold send_timeout_changed. solve_keeps.
  - apply Ho. solve_keeps.
  - apply Ho. solve_keeps.
  - apply Ho. solve_keeps.
  - unfold receive_timeout_changed. destruct (negb _); [auto with preserves|]. apply Ho. solve_keeps.
  - apply keeps_behind, keeps_membership.
Qed.

Lemma steps_behind x y id e q :
  session_steps x y → behind id e q x.1 → behind id e q y.1.
Proof.
  induction 1 as [|x op o y z Hrun Ho _ IH]; [done|]. intros Hb. apply IH.
  pose proof (do_op_behind op id e q x Hb) as Hp. unfold wp in Hp. rewrite Hrun in Hp.
  by apply Hp.
Qed.

(** C20.  No replay through a client: of two envelopes of one sender that a session
    opens, whatever it did in between, the second is of a later epoch or has a strictly
    larger sequence number. *)
Theorem no_envelope_read_twice t env s r p x y t' env' p' z :
  open t env (s, r) = (Done p, x) → session_steps x y → open t' env' y = (Done p', z) →
  env_sender_id env' = env_sender_id env →
  (env_epoch env < env_epoch env' ∨
   env_epoch env = env_epoch env' ∧ env_sender_sequence env < env_sender_sequence env')%N.
Proof.
  intros H1 Hst H2 Hid. destruct y as [s2 r2].
  destruct (open_run t env s r) as [(k1 & v1 & p1 & O1 & E1)|[e E1]]; rewrite E1 in H1; [|done].
  destruct (open_run t' env' s2 r2) as [(k2 & v2 & p2 & O2 & E2)|[e E2]]; rewrite E2 in H2; [|done].
  injection H1 as _ <-. clear H2 E1 E2.
  assert (Hb : behind (env_sender_id env) (env_epoch env) (env_sender_sequence env) (recorded env s)).
  { exists (env_epoch env). unfold current_epoch, recorded, last_accepted. simpl.
    rewrite (op_key _ _ _ _ _ _ O1), lookup_insert_eq. split; [done|]. right. eauto. }
  apply (steps_behind _ _ _ _ _ Hst) in Hb as (cur & Hc & Hb). cbn [fst] in *.
  unfold current_epoch in Hc. rewrite (op_key _ _ _ _ _ _ O2) in Hc. injection Hc as <-.
  destruct Hb as [Hb|[Hb (last & Hl & Hq)]]; [by left|right]. split; [done|].
  pose proof (op_fresh _ _ _ _ _ _ O2 last) as Hf. rewrite Hid, <-Hb in Hf. specialize (Hf Hl). lia.
Qed.

(** * Broadcasts in order *)

(** A broadcast number the session is past. *)
Definition past (q : u64) s : Prop :=
  ∃ last, cs_last_room_sequence s = Some last ∧ (q <= last)%N.

Lemma keeps_past {A} (m : SM A) q : keeps cs_last_room_sequence m → preserves (past q) m.
Proof. apply keeps_preserves. unfold past. intros s s' ->. done. Qed.

Lemma effect_sequence message b s :
  cs_last_room_sequence (effect message (noted b s)) = Some (sg_sequence b).
Proof. destruct message; done. Qed.

Lemma membership_past message q : preserves (past q) (handle_membership_message message).
Proof.
  destruct (signed_part message) as [b|] eqn:Eb.
  - intros [s r] (last & Hl & Hq) _. destruct (handle_decided _ _ s r Eb) as [(_ & Ht & ->)|(_ & e & ->)].
    + exists (sg_sequence b). cbn [fst snd]. split; [apply effect_sequence|].
      apply (tm_newer _ _ Ht) in Hl. lia.
    + by exists last.
  - apply keeps_past. destruct message; try done; simpl; solve_keeps.
Qed.

Lemma keeps_open_sequence t env : keeps cs_last_room_sequence (open t env).
Proof. unfold open. solve_keeps. Qed.

Lemma keeps_seal_sequence identity t p : keeps cs_last_room_sequence (seal identity t p).
Proof. unfold seal. solve_keeps. Qed.

Lemma keeps_install_sequence epoch key :
  keeps cs_last_room_sequence (modify (install_epoch epoch key) : SM unit).
Proof. apply keeps_modify. intros s. unfold install_epoch. by case_match. Qed.

Lemma keeps_install_member_sequence v :
  keeps cs_last_room_sequence (modify (install_member v) : SM unit).
Proof. apply keeps_modify. intros s. unfold install_member. by destruct (existsb _ (cs_members s)). Qed.

Hint Resolve keeps_open_sequence keeps_seal_sequence keeps_install_sequence
  keeps_install_member_sequence : keeps.

Lemma do_op_past op q : preserves (past q) (do_op op).
Proof.
  destruct op; simpl;
    lazymatch goal with
    | |- preserves _ (handle_membership_message _) => apply membership_past
    | |- _ => apply keeps_past; unfold set_epoch_from_wrap, send_chat, send_color,
        send_timeout_request, send_timeout_changed, receive_chat, receive_color,
        receive_timeout_request, receive_timeout_changed;
        repeat first [solve [auto 1 with keeps] | keeps_step]
    end.
Qed.

Lemma steps_past x y q : session_steps x y → past q x.1 → past q y.1.
Proof.
  induction 1 as [|x op o y z Hrun Ho _ IH]; [done|]. intros Hp. apply IH.
  pose proof (do_op_past op q x Hp) as Hw. unfold wp in Hw. rewrite Hrun in Hw. by apply Hw.
Qed.

(** A client applies the host's signed broadcasts in the order of their
    sequence numbers, each at most once, whatever else it does in between. *)
Theorem broadcasts_in_order m1 b1 m2 b2 x y z w :
  signed_part m1 = Some b1 → signed_part m2 = Some b2 →
  handle_membership_message m1 x = (Done tt, y) → session_steps y z →
  handle_membership_message m2 z = (Done tt, w) →
  timely x.1 b1 ∧ timely z.1 b2 ∧ (sg_sequence b1 < sg_sequence b2)%N.
Proof.
  intros Hb1 Hb2 H1 Hst H2. destruct x as [s1 r1], z as [s2 r2].
  destruct (handle_decided _ _ s1 r1 Hb1) as [(_ & T1 & E1)|(_ & e & E1)]; rewrite E1 in H1; [|done].
  destruct (handle_decided _ _ s2 r2 Hb2) as [(_ & T2 & E2)|(_ & e & E2)]; rewrite E2 in H2; [|done].
  injection H1 as <-. split_and!; [done|done|].
  apply (steps_past _ _ (sg_sequence b1)) in Hst as (last & Hl & Hq).
  - apply (tm_newer _ _ T2) in Hl. lia.
  - exists (sg_sequence b1). split; [apply effect_sequence|done].
Qed.

(** * The member list *)

(** Ids, nicknames and keys are distinct, and the host is member 0. *)
Record view_ok (ms : list MemberView) : Prop := {
  vw_ids : NoDup (mv_member_id <$> ms);
  vw_nicknames : NoDup (mv_nickname <$> ms);
  vw_keys : NoDup (mv_ed25519_pubkey <$> ms);
  vw_host : Forall (λ m, mv_is_host m = true ↔ mv_member_id m = 0%N) ms;
}.

Lemma view_ok_snoc ms m :
  view_ok ms → (mv_is_host m = true ↔ mv_member_id m = 0%N) →
  Forall (λ k, mv_member_id k ≠ mv_member_id m ∧ mv_nickname k ≠ mv_nickname m ∧
               mv_ed25519_pubkey k ≠ mv_ed25519_pubkey m) ms →
  view_ok (ms ++ [m]).
Proof.
  intros [H1 H2 H3 H4] Hh Hn. rewrite list.Forall_forall in Hn.
  assert (Hnd : ∀ {B} (f : MemberView → B), NoDup (f <$> ms) → (∀ k, k ∈ ms → f k ≠ f m) →
    NoDup (f <$> (ms ++ [m]))).
  { intros B f Hf Hne. rewrite fmap_snoc. apply NoDup_snoc; [done|].
    intros (k & E & Hk)%list_elem_of_fmap. by eapply Hne. }
  constructor; [apply Hnd; [done|]; intros k Hk; by apply Hn..|].
  apply list.Forall_app. by split; [|constructor].
Qed.

Lemma NoDup_fmap_filter {A B} (f : A → B) p (l : list A) :
  NoDup (f <$> l) → NoDup (f <$> List.filter p l).
Proof.
  induction l as [|x l IH]; [done|]. csimpl. intros [Hx Hl]%list.NoDup_cons.
  destruct (p x); [|by apply IH]. csimpl. apply list.NoDup_cons. split; [|by apply IH].
  intros (y & E & Hy)%list_elem_of_fmap. apply Hx. rewrite E. apply list_elem_of_fmap_2.
  rewrite list_elem_of_In in *. by apply List.filter_In in Hy as [? _].
Qed.

Lemma view_ok_filter p ms : view_ok ms → view_ok (List.filter p ms).
Proof.
  intros [H1 H2 H3 H4]. constructor; [by apply NoDup_fmap_filter..|].
  rewrite list.Forall_forall in *. intros m Hm. apply H4. rewrite list_elem_of_In in *.
  by apply List.filter_In in Hm as [? _].
Qed.

(** What [validate_rows] has checked of the rows it passes. *)
Lemma validate_rows_Ok prior rows :
  validate_rows prior rows = Ok tt → view_ok (view_of_snapshot <$> prior) →
  Forall (λ m, sm_is_host m = true ↔ sm_member_id m = 0%N) rows →
  view_ok (view_of_snapshot <$> (prior ++ rows)).
Proof.
  revert prior. induction rows as [|m rows IH]; intros prior Hv Hp Hh; [by rewrite app_nil_r|].
  simpl in Hv. destruct (validate_nickname _ _); [|done].
  destruct (ColorChoice_from_index _); [|done].
  destruct (existsb _ prior) eqn:Ed; [done|]. apply list.Forall_cons in Hh as [Hm Hh].
  rewrite cons_middle, (assoc_L (++)). apply IH; [done| |done].
  rewrite fmap_snoc. apply view_ok_snoc; [done|done|].
  rewrite existsb_false in Ed. apply list.Forall_forall.
  intros v (k & -> & Hk)%list_elem_of_fmap. specialize (Ed k Hk). unfold same_identity in Ed.
  apply orb_false_iff in Ed as [[Ei%N.eqb_neq En%bool_decide_eq_false]%orb_false_iff
    Ek%bool_decide_eq_false]. done.
Qed.

Lemma validate_snapshot_view ms id :
  validate_snapshot ms id = Ok tt → view_ok (view_of_snapshot <$> ms).
Proof.
  unfold validate_snapshot. destruct (_ || _); [done|]. destruct (_ <? _)%N; [done|].
  destruct (_ || existsb _ ms) eqn:Eh; [done|]. apply orb_false_iff in Eh as [_ Eh].
  intros Hv. apply (validate_rows_Ok []); [done|by constructor; [apply NoDup_nil_2..|]|].
  rewrite existsb_false in Eh. apply list.Forall_forall. intros m Hm. specialize (Eh m Hm).
  apply negb_false_iff, eqb_prop in Eh. rewrite Eh. apply N.eqb_eq.
Qed.

Lemma membership_view message :
  preserves (λ s, view_ok (cs_members s)) (handle_membership_message message).
Proof.
  destruct (signed_part message) as [b|] eqn:Eb.
  - intros [s r] Hv _. destruct (handle_decided _ _ s r Eb) as [(Ha & _ & ->)|(_ & e & ->)]; [|done].
    destruct message; try done; cbn [fst snd effect noted with_members with_room cs_members].
    + destruct Ha as (_ & Hid & Hd). by apply view_ok_snoc.
    + by apply view_ok_filter.
    + by apply view_ok_filter.
    + cbn [install_snapshot with_members cs_members]. eapply validate_snapshot_view, Ha.
  - destruct message; try done; simpl; auto with preserves.
Qed.

Lemma keeps_open_members t env : keeps cs_members (open t env).
Proof. unfold open. solve_keeps. Qed.

Lemma keeps_seal_members identity t p : keeps cs_members (seal identity t p).
Proof. unfold seal. solve_keeps. Qed.

Lemma keeps_install_members epoch key :
  keeps cs_members (modify (install_epoch epoch key) : SM unit).
Proof. apply keeps_modify. intros s. unfold install_epoch. by case_match. Qed.

Hint Resolve keeps_open_members keeps_seal_members keeps_install_members : keeps.

(** An entry replaced. *)
Lemma update_first_Forall {A} p (f : A → A) (P : A → Prop) (l : list A) :
  (∀ x, x ∈ l → p x = true → P x → P (f x)) → Forall P l → Forall P (update_first p f l).
Proof.
  intros Hf. induction 1 as [|x l Hx Hl IH]; [constructor|]. simpl. destruct (p x) eqn:E; constructor; auto.
  - apply Hf; [by left|done|done].
  - apply IH. intros y Hy. apply Hf. by right.
Qed.

(** The view of a known member, with another color. *)
Lemma install_known_view v v' s :
  session_member s (mv_member_id v) = Some v →
  mv_member_id v' = mv_member_id v → mv_nickname v' = mv_nickname v → mv_is_host v' = mv_is_host v →
  mv_ed25519_pubkey v' = mv_ed25519_pubkey v →
  view_ok (cs_members s) → view_ok (cs_members (install_member v' s)).
Proof.
  intros Hv E1 E2 E3 E4 [H1 H2 H3 H4]. apply find_first_key_Some in Hv as [Hin _].
  unfold install_member. rewrite E1. rewrite (proj2 (existsb_exists _ _)); cycle 1.
  { exists v. split; [by apply list_elem_of_In|]. unfold key_is. by rewrite bool_decide_eq_true. }
  cbn [cs_members with_members].
  assert (Hone : ∀ x, x ∈ cs_members s → key_is mv_member_id (mv_member_id v) x = true → x = v).
  { intros x Hx Hk. apply bool_decide_eq_true in Hk. apply list_elem_of_lookup in Hx as [i Hi], Hin as [j Hj].
    assert (i = j) as ->; [|congruence]. apply (NoDup_lookup _ _ _ (mv_member_id v) H1); by rewrite list_lookup_fmap, ?Hi, ?Hj; cbn; rewrite ?Hk. }
  assert (Hfmap : ∀ {B} (g : MemberView → B), g v' = g v →
    g <$> update_first (key_is mv_member_id (mv_member_id v)) (λ _, v') (cs_members s) = g <$> cs_members s).
  { intros B g Hg. revert Hone. generalize (cs_members s) as l. induction l as [|x l IH]; intros Hone; [done|].
    simpl. destruct (key_is _ _ x) eqn:E; csimpl; [|rewrite IH; [done|]; intros y Hy; apply Hone; by right].
    rewrite (Hone x) by (done || by left). by rewrite Hg. }
  constructor; [by rewrite Hfmap..|]. apply update_first_Forall; [|done]. intros x Hx Hk.
  rewrite (Hone x) by done. by rewrite E1, E3.
Qed.

End session.
