(* ===== verification/Admission.v ===== *)
(** [src/crypto/password.rs]: the password verifier and the proof of the
    challenge-response, over abstract hash functions; [src/admission/mod.rs]
    and [src/admission/host.rs]: the errors of the admission flows and the
    host's side of one flow. *)
From Stdlib Require Import Strings.String.
From S2P Require Export Monad RoomTypes.

(** The operations of sha2, hmac and argon2 the source calls: SHA-256,
    HMAC-SHA-256 of a key and a message, and Argon2id of a password, a salt
    and its three parameters, which fails on parameters it refuses. *)
Class Hashes := {
  sha256 : list byte → list byte;
  hmac_sha256 : list byte → list byte → list byte;
  argon2id : list byte → list byte → u32 → u32 → u32 → option (list byte);
}.

Definition ARGON2_M_COST : u32 := 19 * 1024.
Definition ARGON2_T_COST : u32 := 2.
Definition ARGON2_P_COST : u8 := 1.
Definition PASSWORD_PROOF_LABEL : rstring := lit "VEILROOM-PASSWORD-PROOF-V1".

Record PasswordVerifier := {
  pv_salt : list byte;
  pv_m_cost : u32;
  pv_t_cost : u32;
  pv_p_cost : u8;
  pv_derived_key : list byte;
}.

Section password.
Context `{Primitives} `{Hashes}.

Definition derive_key (password salt : list byte) (m_cost t_cost : u32) (p_cost : u8)
    : Result (list byte) CryptoError :=
  match argon2id password salt m_cost t_cost p_cost with
  | Some key => Ok key
  | None => Err CY_Argon2
  end.

Definition compute_proof (key challenge_nonce client_nonce : list byte) : list byte :=
  hmac_sha256 key (utf8 PASSWORD_PROOF_LABEL ++ challenge_nonce ++ client_nonce).

(** [PasswordVerifier::derive]. *)
Definition PasswordVerifier_derive (password : list byte) (rng : Rng)
    : Result PasswordVerifier CryptoError * Rng :=
  match random_bytes 16 rng with
  | (Err e, rng) => (Err e, rng)
  | (Ok salt, rng) =>
      match derive_key password salt ARGON2_M_COST ARGON2_T_COST ARGON2_P_COST with
      | Err e => (Err e, rng)
      | Ok key => (Ok {| pv_salt := salt; pv_m_cost := ARGON2_M_COST; pv_t_cost := ARGON2_T_COST;
                         pv_p_cost := ARGON2_P_COST; pv_derived_key := key |}, rng)
      end
  end.

Definition expected_proof (self : PasswordVerifier) (challenge_nonce client_nonce : list byte)
    : list byte :=
  compute_proof (pv_derived_key self) challenge_nonce client_nonce.

(** [ct_eq] is equality. *)
Definition verify_proof (self : PasswordVerifier) (challenge_nonce client_nonce proof : list byte)
    : bool :=
  bool_decide (proof = expected_proof self challenge_nonce client_nonce).

Definition compute_password_proof (password salt : list byte) (m_cost t_cost : u32) (p_cost : u8)
    (challenge_nonce client_nonce : list byte) : Result (list byte) CryptoError :=
  match derive_key password salt m_cost t_cost p_cost with
  | Err e => Err e
  | Ok key => Ok (compute_proof key challenge_nonce client_nonce)
  end.
End password.

Inductive AdmissionError :=
| AE_RoomLocked
| AE_QueueFull
| AE_UnknownRequest (id : RequestId)
| AE_InvalidToken
| AE_InvalidPasswordProof
| AE_InvalidHostSignature
| AE_InvalidJoinSignature
| AE_UnexpectedMessage
| AE_UnsupportedVersion (found : u8)
| AE_UnsupportedFeatures (features : u32)
| AE_Rejected (reason : option rstring)
| AE_HostError (code : ErrorCode) (reason : option rstring)
| AE_Protocol (e : ProtocolError)
| AE_Crypto (e : CryptoError).

Definition error_code (self : AdmissionError) : ErrorCode :=
  match self with
  | AE_RoomLocked => EC_RoomLocked
  | AE_InvalidToken => EC_InvalidInvitation
  | AE_InvalidPasswordProof => EC_InvalidPasswordProof
  | AE_UnsupportedVersion _ => EC_UnsupportedVersion
  | _ => EC_ProtocolViolation
  end.

Inductive HostState :=
| HS_AwaitingHello | HS_AwaitingToken | HS_AwaitingProof | HS_AwaitingJoinForm | HS_Decided.

#[export] Instance HostState_eq_dec : EqDecision HostState.
Proof. solve_decision. Defined.

Inductive HostAdmissionReply :=
| HR_Message (m : Message)
| HR_JoinRequested (application : JoinApplication).

Record HostAdmission := {
  ha_room_session_id : RoomSessionId;
  ha_server_nonce : list byte;
  ha_token : list byte;
  ha_verifier : PasswordVerifier;
  ha_host_identity : HostIdentity;
  ha_onion_address : rstring;
  ha_client_nonce : option (list byte);
  ha_challenge_nonce : option (list byte);
  ha_state : HostState;
}.

(** The fields a flow writes: its token, nonces and state. *)
Definition ha_put (token : list byte) (client_nonce challenge_nonce : option (list byte))
    (state : HostState) (h : HostAdmission) : HostAdmission := {|
  ha_room_session_id := ha_room_session_id h; ha_server_nonce := ha_server_nonce h;
  ha_token := token; ha_verifier := ha_verifier h; ha_host_identity := ha_host_identity h;
  ha_onion_address := ha_onion_address h; ha_client_nonce := client_nonce;
  ha_challenge_nonce := challenge_nonce; ha_state := state |}.

Definition ha_put_client_nonce (n : list byte) (h : HostAdmission) : HostAdmission :=
  ha_put (ha_token h) (Some n) (ha_challenge_nonce h) (ha_state h) h.
Definition ha_put_challenge_nonce (n : list byte) (h : HostAdmission) : HostAdmission :=
  ha_put (ha_token h) (ha_client_nonce h) (Some n) (ha_state h) h.
Definition ha_put_state (s : HostState) (h : HostAdmission) : HostAdmission :=
  ha_put (ha_token h) (ha_client_nonce h) (ha_challenge_nonce h) s h.
Definition ha_put_token (t : list byte) (h : HostAdmission) : HostAdmission :=
  ha_put t (ha_client_nonce h) (ha_challenge_nonce h) (ha_state h) h.

Abbreviation HM := (Comp HostAdmission AdmissionError) (only parsing).

Section host.
Context `{Primitives} `{Hashes}.

(** [HostAdmission::new]. *)
Definition HostAdmission_new (room_session_id : RoomSessionId) (token : list byte)
    (verifier : PasswordVerifier) (host_identity : HostIdentity) (onion_address : rstring)
    (rng : Rng) : Result HostAdmission CryptoError * Rng :=
  match random_bytes 16 rng with
  | (Err e, rng) => (Err e, rng)
  | (Ok server_nonce, rng) =>
      (Ok {| ha_room_session_id := room_session_id; ha_server_nonce := server_nonce;
             ha_token := token; ha_verifier := verifier; ha_host_identity := host_identity;
             ha_onion_address := onion_address; ha_client_nonce := None;
             ha_challenge_nonce := None; ha_state := HS_AwaitingHello |}, rng)
  end.

(** The transcript the host signs in its hello. *)
Definition hello_input (h : HostAdmission) (hello : ClientHello) (virtual_port : u16)
    : HostHelloTranscriptInput := {|
  hh_version := 1; hh_onion_address := ha_onion_address h; hh_virtual_port := virtual_port;
  hh_room_session_id := ha_room_session_id h;
  hh_host_ed25519_pubkey := host_ed25519_pubkey (ha_host_identity h);
  hh_host_x25519_pubkey := host_x25519_pubkey (ha_host_identity h);
  hh_client_nonce := ch_client_nonce hello; hh_server_nonce := ha_server_nonce h;
  hh_token_hash := sha256 (ha_token h); hh_offered_version := ch_version hello;
  hh_client_features := ch_features hello |}.

Definition on_client_hello (hello : ClientHello) (virtual_port : u16) : HM Message :=
  h ← self;
  if negb (bool_decide (ha_state h = HS_AwaitingHello)) then fail AE_UnexpectedMessage else
  if negb (ch_version hello =? 1)%N then fail (AE_UnsupportedVersion (ch_version hello)) else
  if negb (ch_features hello =? 0)%N then fail (AE_UnsupportedFeatures (ch_features hello)) else
  modify (ha_put_client_nonce (ch_client_nonce hello));;
  let transcript := host_hello_transcript (hello_input h hello virtual_port) in
  let signature := host_sign (ha_host_identity h) transcript in
  modify (ha_put_state HS_AwaitingToken);;
  mret (M_HostHello {|
    hello_version := 1; hello_room_session_id := ha_room_session_id h;
    hello_host_ed25519_pubkey := host_ed25519_pubkey (ha_host_identity h);
    hello_host_x25519_pubkey := host_x25519_pubkey (ha_host_identity h);
    hello_server_nonce := ha_server_nonce h; hello_host_signature := signature |}).

(** [constant_time_eq] is equality. *)
Definition handle_token (verify : TokenVerify) : HM (option HostAdmissionReply) :=
  h ← self;
  if negb (bool_decide (tv_token verify = ha_token h)) then fail AE_InvalidToken else
  challenge_nonce ← draw_err AE_Crypto (random_bytes 16);
  modify (ha_put_challenge_nonce challenge_nonce);;
  modify (ha_put_state HS_AwaitingProof);;
  mret (Some (HR_Message (M_PasswordChallenge {|
    pc_m_cost := pv_m_cost (ha_verifier h); pc_t_cost := pv_t_cost (ha_verifier h);
    pc_p_cost := pv_p_cost (ha_verifier h); pc_salt := pv_salt (ha_verifier h);
    pc_challenge_nonce := challenge_nonce |}))).

Definition handle_proof (proof : ChallengeProof) : HM (option HostAdmissionReply) :=
  h ← self;
  challenge_nonce ← ok_or (ha_challenge_nonce h) AE_UnexpectedMessage;
  client_nonce ← ok_or (ha_client_nonce h) AE_UnexpectedMessage;
  if negb (verify_proof (ha_verifier h) challenge_nonce client_nonce (cp_proof proof))
  then fail AE_InvalidPasswordProof else
  modify (ha_put_state HS_AwaitingJoinForm);;
  mret None.

(** The transcript a participant signs in its application. *)
Definition join_input (session_id client_nonce server_nonce : list byte)
    (nickname : rstring) (introduction : option rstring) (ed x : list byte)
    (onion_address : rstring) (token : list byte) : JoinRequestTranscriptInput := {|
  jr_version := 1; jr_room_session_id := session_id; jr_client_nonce := client_nonce;
  jr_server_nonce := server_nonce; jr_nickname := nickname;
  jr_introduction_hash := sha256 (utf8 (default [] introduction));
  jr_participant_ed25519_pubkey := ed; jr_participant_x25519_pubkey := x;
  jr_onion_address := onion_address; jr_token_hash := sha256 token |}.

Definition handle_join_request (request : JoinRequestMessage) (policy : JoinPolicy)
    : HM (option HostAdmissionReply) :=
  h ← self;
  client_nonce ← ok_or (ha_client_nonce h) AE_UnexpectedMessage;
  let transcript := join_request_transcript (join_input (ha_room_session_id h) client_nonce
    (ha_server_nonce h) (jm_nickname request) (jm_introduction request)
    (jm_ed25519_pubkey request) (jm_x25519_pubkey request) (ha_onion_address h) (ha_token h)) in
  if negb (verify_ed25519 (jm_ed25519_pubkey request) transcript (jm_signature request))
  then fail AE_InvalidJoinSignature else
  _ ← try_ AE_Crypto (host_try_wrap_key_for (ha_host_identity h) (jm_x25519_pubkey request)
        (ha_room_session_id h) 0);
  if negb (allows_join_requests policy) then fail AE_RoomLocked else
  modify (ha_put_state HS_Decided);;
  modify (ha_put_token []);;
  mret (Some (HR_JoinRequested {|
    app_nickname := jm_nickname request; app_introduction := jm_introduction request;
    app_ed25519_pubkey := jm_ed25519_pubkey request;
    app_x25519_pubkey := jm_x25519_pubkey request; app_signature := jm_signature request |})).

Definition on_message (message : Message) (policy : JoinPolicy) : HM (option HostAdmissionReply) :=
  h ← self;
  match ha_state h, message with
  | HS_AwaitingToken, M_TokenVerify verify => handle_token verify
  | HS_AwaitingProof, M_ChallengeProof proof => handle_proof proof
  | HS_AwaitingJoinForm, M_JoinRequest request => handle_join_request request policy
  | _, _ => fail AE_UnexpectedMessage
  end.

(** [HostAdmission::accept] and [HostAdmission::reject]. *)
Definition admission_accept (member_id : u64) : Message :=
  M_JoinAccepted {| ja_member_id := member_id |}.

Definition admission_reject (reason : option rstring) : Result Message AdmissionError :=
  match JoinRejected_new reason with
  | Err e => Err (AE_Protocol e)
  | Ok m => Ok (M_JoinRejected m)
  end.
End host.
