(* ===== verification/AdmissionClient.v ===== *)
(** [src/admission/client.rs]: the participant's side of one admission flow
    and of the chat that follows it. *)
From Stdlib Require Import Strings.String.
From S2P Require Export Admission Session Uri.

Record HostHelloInfo := {
  hi_room_session_id : list byte;
  hi_host_ed25519_pubkey : list byte;
  hi_host_x25519_pubkey : list byte;
  hi_signature : list byte;
}.

Inductive ClientState :=
| CL_AwaitingHostHello | CL_AwaitingChallenge | CL_AwaitingJoinForm | CL_AwaitingDecision
| CL_Admitted.

#[export] Instance ClientState_eq_dec : EqDecision ClientState.
Proof. solve_decision. Defined.

Record ClientAdmission := {
  cl_invitation : Invitation;
  cl_password : list byte;
  cl_identity : MemberIdentity;
  cl_client_nonce : list byte;
  cl_server_nonce : option (list byte);
  cl_host_hello : option HostHelloInfo;
  cl_member_id : option MemberId;
  cl_chat : option ChatSession;
  cl_state : ClientState;
}.

(** The fields a flow writes. *)
Definition cl_put_state (st : ClientState) (c : ClientAdmission) : ClientAdmission := {|
  cl_invitation := cl_invitation c; cl_password := cl_password c; cl_identity := cl_identity c;
  cl_client_nonce := cl_client_nonce c; cl_server_nonce := cl_server_nonce c;
  cl_host_hello := cl_host_hello c; cl_member_id := cl_member_id c; cl_chat := cl_chat c;
  cl_state := st |}.

Definition cl_put_hello (server_nonce : list byte) (info : HostHelloInfo) (c : ClientAdmission)
    : ClientAdmission := {|
  cl_invitation := cl_invitation c; cl_password := cl_password c; cl_identity := cl_identity c;
  cl_client_nonce := cl_client_nonce c; cl_server_nonce := Some server_nonce;
  cl_host_hello := Some info; cl_member_id := cl_member_id c; cl_chat := cl_chat c;
  cl_state := cl_state c |}.

Definition cl_clear_password (c : ClientAdmission) : ClientAdmission := {|
  cl_invitation := cl_invitation c; cl_password := []; cl_identity := cl_identity c;
  cl_client_nonce := cl_client_nonce c; cl_server_nonce := cl_server_nonce c;
  cl_host_hello := cl_host_hello c; cl_member_id := cl_member_id c; cl_chat := cl_chat c;
  cl_state := cl_state c |}.

Definition cl_put_member (id : MemberId) (c : ClientAdmission) : ClientAdmission := {|
  cl_invitation := cl_invitation c; cl_password := cl_password c; cl_identity := cl_identity c;
  cl_client_nonce := cl_client_nonce c; cl_server_nonce := cl_server_nonce c;
  cl_host_hello := cl_host_hello c; cl_member_id := Some id; cl_chat := cl_chat c;
  cl_state := cl_state c |}.

Definition cl_put_chat (s : option ChatSession) (c : ClientAdmission) : ClientAdmission := {|
  cl_invitation := cl_invitation c; cl_password := cl_password c; cl_identity := cl_identity c;
  cl_client_nonce := cl_client_nonce c; cl_server_nonce := cl_server_nonce c;
  cl_host_hello := cl_host_hello c; cl_member_id := cl_member_id c; cl_chat := s;
  cl_state := cl_state c |}.

Abbreviation CM := (Comp ClientAdmission AdmissionError) (only parsing).

Definition timeout_kind (c : ClientAdmission) : TimeoutKind :=
  match cl_state c with
  | CL_AwaitingHostHello => TK_ProtocolHandshake
  | CL_AwaitingChallenge => TK_TokenValidation
  | CL_AwaitingJoinForm => TK_JoinFormSubmission
  | CL_AwaitingDecision => TK_HostDecision
  | CL_Admitted => TK_Keepalive
  end.

(** A method of the chat session, run on the client that owns it; [none] is
    the error before admission. *)
Definition on_chat {E A} (none : E) (err : ChatError → E) (m : Comp ChatSession ChatError A)
    : Comp ClientAdmission E A := λ s,
  match cl_chat s.1 with
  | None => (Fail none, s)
  | Some chat =>
      match m (chat, s.2) with
      | (Done a, (chat', r)) => (Done a, (cl_put_chat (Some chat') s.1, r))
      | (Fail e, (chat', r)) => (Fail (err e), (cl_put_chat (Some chat') s.1, r))
      | (Panic, (chat', r)) => (Panic, (cl_put_chat (Some chat') s.1, r))
      end
  end.

Section client.
Context `{Primitives} `{Hashes} `{Nfc}.

(** [MemberIdentity::generate] and [ClientAdmission::new]. *)
Definition MemberIdentity_generate (rng : Rng) : Result MemberIdentity CryptoError * Rng :=
  match random_bytes 32 rng with
  | (Err e, rng) => (Err e, rng)
  | (Ok ed, rng) =>
      match random_bytes 32 rng with
      | (Err e, rng) => (Err e, rng)
      | (Ok x, rng) => (Ok {| member_ed25519 := ed; member_x25519 := x |}, rng)
      end
  end.

Definition ClientAdmission_new (invitation : Invitation) (password : list byte) (rng : Rng)
    : Result ClientAdmission CryptoError * Rng :=
  match MemberIdentity_generate rng with
  | (Err e, rng) => (Err e, rng)
  | (Ok identity, rng) =>
      match random_bytes 16 rng with
      | (Err e, rng) => (Err e, rng)
      | (Ok client_nonce, rng) =>
          (Ok {| cl_invitation := invitation; cl_password := password; cl_identity := identity;
                 cl_client_nonce := client_nonce; cl_server_nonce := None;
                 cl_host_hello := None; cl_member_id := None; cl_chat := None;
                 cl_state := CL_AwaitingHostHello |}, rng)
      end
  end.

Definition first_message (c : ClientAdmission) : Message :=
  M_ClientHello {| ch_version := 1; ch_client_nonce := cl_client_nonce c; ch_features := 0 |}.

(** The transcript the client expects the hello to be signed over. *)
Definition expected_hello (c : ClientAdmission) (hello : HostHello) : HostHelloTranscriptInput := {|
  hh_version := 1; hh_onion_address := inv_onion_address (cl_invitation c);
  hh_virtual_port := inv_port (cl_invitation c);
  hh_room_session_id := hello_room_session_id hello;
  hh_host_ed25519_pubkey := hello_host_ed25519_pubkey hello;
  hh_host_x25519_pubkey := hello_host_x25519_pubkey hello;
  hh_client_nonce := cl_client_nonce c; hh_server_nonce := hello_server_nonce hello;
  hh_token_hash := sha256 (inv_token (cl_invitation c)); hh_offered_version := 1;
  hh_client_features := 0 |}.

Definition handle_host_hello (hello : HostHello) : CM (list Message) :=
  c ← self;
  if negb (hello_version hello =? 1)%N then fail (AE_UnsupportedVersion (hello_version hello)) else
  let transcript := host_hello_transcript (expected_hello c hello) in
  if negb (verify_ed25519 (hello_host_ed25519_pubkey hello) transcript (hello_host_signature hello))
  then fail AE_InvalidHostSignature else
  _ ← try_ AE_Crypto (member_try_wrap_key_for (cl_identity c) (hello_host_x25519_pubkey hello)
        (hello_room_session_id hello) 0);
  modify (cl_put_hello (hello_server_nonce hello) {|
    hi_room_session_id := hello_room_session_id hello;
    hi_host_ed25519_pubkey := hello_host_ed25519_pubkey hello;
    hi_host_x25519_pubkey := hello_host_x25519_pubkey hello;
    hi_signature := hello_host_signature hello |});;
  modify (cl_put_state CL_AwaitingChallenge);;
  token ← try_ AE_Protocol (TokenVerify_new (inv_token (cl_invitation c)));
  mret [M_TokenVerify token].

Definition handle_challenge (challenge : PasswordChallenge) : CM (list Message) :=
  c ← self;
  if negb (pc_m_cost challenge =? ARGON2_M_COST)%N
     || negb (pc_t_cost challenge =? ARGON2_T_COST)%N
     || negb (pc_p_cost challenge =? ARGON2_P_COST)%N
  then fail AE_UnexpectedMessage else
  proof ← try_ AE_Crypto (compute_password_proof (cl_password c) (pc_salt challenge)
    (pc_m_cost challenge) (pc_t_cost challenge) (pc_p_cost challenge)
    (pc_challenge_nonce challenge) (cl_client_nonce c));
  modify cl_clear_password;;
  modify (cl_put_state CL_AwaitingJoinForm);;
  mret [M_ChallengeProof {| cp_proof := proof |}].

(** [ClientAdmission::join_request]. *)
Definition join_request (nickname : rstring) (introduction : option rstring) : CM Message :=
  c ← self;
  if negb (bool_decide (cl_state c = CL_AwaitingJoinForm)) then fail AE_UnexpectedMessage else
  host_hello ← ok_or (cl_host_hello c) AE_UnexpectedMessage;
  server_nonce ← ok_or (cl_server_nonce c) AE_UnexpectedMessage;
  nickname ← try_ (λ e, AE_Protocol (PE_Validation e)) (validate_nickname nickname Limits_default);
  let ed := member_ed25519_pubkey (cl_identity c) in
  let x := member_x25519_pubkey (cl_identity c) in
  let transcript := join_request_transcript (join_input (hi_room_session_id host_hello)
    (cl_client_nonce c) server_nonce nickname introduction ed x
    (inv_onion_address (cl_invitation c)) (inv_token (cl_invitation c))) in
  let signature := member_sign (cl_identity c) transcript in
  request ← try_ AE_Protocol (JoinRequestMessage_new nickname introduction ed x signature);
  modify (cl_put_state CL_AwaitingDecision);;
  mret (M_JoinRequest request).

Definition on_host_message (message : Message) : CM (list Message) :=
  c ← self;
  match cl_state c, message with
  | CL_AwaitingHostHello, M_HostHello hello => handle_host_hello hello
  | CL_AwaitingChallenge, M_PasswordChallenge challenge => handle_challenge challenge
  | CL_AwaitingDecision, M_JoinAccepted accepted =>
      modify (cl_put_member (ja_member_id accepted));;
      modify (cl_put_state CL_Admitted);;
      match cl_host_hello c with
      | Some host_hello =>
          modify (cl_put_chat (Some (ChatSession_new (hi_room_session_id host_hello)
            (hi_host_ed25519_pubkey host_hello) (hi_host_x25519_pubkey host_hello)
            (ja_member_id accepted))))
      | None => mret tt
      end;;
      mret []
  | CL_AwaitingDecision, M_JoinRejected rejected => fail (AE_Rejected (jr_reason rejected))
  | _, M_Error error => fail (AE_HostError (em_code error) (em_reason error))
  | _, _ => fail AE_UnexpectedMessage
  end.

(** ** After admission *)

Definition on_epoch_wrap (wrap : EpochWrap) : CM Message :=
  c ← self;
  epoch ← on_chat AE_UnexpectedMessage (λ _, AE_UnexpectedMessage)
    (set_epoch_from_wrap (cl_identity c) wrap);
  mret (M_EpochAck {| ea_epoch := epoch |}).

(** A color change is applied to the member table. *)
Definition recolor (id : MemberId) (color : ColorChoice) (s : ChatSession) : ChatSession :=
  match session_member s id with
  | Some member => install_member {| mv_member_id := mv_member_id member;
      mv_nickname := mv_nickname member; mv_color := color; mv_is_host := mv_is_host member;
      mv_ed25519_pubkey := mv_ed25519_pubkey member |} s
  | None => s
  end.

Definition on_member_message (message_type : u8) (envelope : EncryptedEnvelope)
    : Comp ClientAdmission ChatError (option rstring) :=
  on_chat CE_NoEpochKey id
    (if (message_type =? 0x40)%N then
       text ← receive_chat envelope;
       mret (Some text)
     else if (message_type =? 0x41)%N then
       color ← receive_color envelope;
       modify (recolor (env_sender_id envelope) color);;
       mret None
     else fail (CE_InvalidPlaintext (lit "not a chat-type message: 0x" ++ hex2 message_type))).

Definition on_membership_message (message : Message) : Comp ClientAdmission ChatError unit :=
  on_chat CE_NoEpochKey id (handle_membership_message message).

Definition client_send_chat (text : rstring) : Comp ClientAdmission ChatError Message :=
  c ← self; on_chat CE_NoEpochKey id (send_chat (cl_identity c) text).

Definition client_send_color (color : ColorChoice) : Comp ClientAdmission ChatError Message :=
  c ← self; on_chat CE_NoEpochKey id (send_color (cl_identity c) color).

Definition client_send_timeout_request (seconds : u64) : Comp ClientAdmission ChatError Message :=
  c ← self; on_chat CE_NoEpochKey id (send_timeout_request (cl_identity c) seconds).

Definition set_own_color (color : ColorChoice) (c : ClientAdmission) : ClientAdmission :=
  match cl_member_id c, cl_chat c with
  | Some own_id, Some session => cl_put_chat (Some (recolor own_id color session)) c
  | _, _ => c
  end.
End client.
