(* ===== verification/RoomState.v ===== *)
(** The state of [RoomActor] (src/room/actor.rs) and the type of its
    methods. *)
From Stdlib Require Import Strings.String.
From S2P Require Export RoomTypes Replay RateLimit Monad.

Record PendingEpoch := {
  pe_epoch : u64;
  pe_key : EpochKey;
  pe_awaiting : list MemberId;
  pe_started_at : Duration;
}.

Record PendingTimeoutRequest := {
  pt_request_id : RequestId;
  pt_connection : ConnectionId;
  pt_member_id : MemberId;
  pt_nickname : rstring;
  pt_seconds : u64;
}.

Record RoomActor := {
  ra_session_id : RoomSessionId;
  ra_token : list byte;
  ra_state : RoomState;
  ra_policy : JoinPolicy;
  ra_members : MemberTable;
  ra_connections : Connections;
  ra_requests : JoinRequestQueue;
  ra_timeout_requests : list PendingTimeoutRequest;
  ra_room_timeout : option u64;
  ra_host_connection : ConnectionId;
  ra_host_identity : HostIdentity;
  ra_timeouts : Timeouts;
  ra_epoch : u64;
  ra_epoch_key : option EpochKey;
  ra_pending_epoch : option PendingEpoch;
  ra_room_sequence : u64;
  ra_chat_replay : ReplayTracker;
  ra_rate_limits : gmap MemberId RateLimiter;
  ra_pending_membership : list RoomAction;
  ra_now : Duration;
}.

(** Field assignment. *)
Definition put_token (v : list byte) (a : RoomActor) : RoomActor := {|
  ra_session_id := ra_session_id a; ra_token := v; ra_state := ra_state a;
  ra_policy := ra_policy a; ra_members := ra_members a; ra_connections := ra_connections a;
  ra_requests := ra_requests a; ra_timeout_requests := ra_timeout_requests a;
  ra_room_timeout := ra_room_timeout a; ra_host_connection := ra_host_connection a;
  ra_host_identity := ra_host_identity a; ra_timeouts := ra_timeouts a;
  ra_epoch := ra_epoch a; ra_epoch_key := ra_epoch_key a;
  ra_pending_epoch := ra_pending_epoch a; ra_room_sequence := ra_room_sequence a;
  ra_chat_replay := ra_chat_replay a; ra_rate_limits := ra_rate_limits a;
  ra_pending_membership := ra_pending_membership a; ra_now := ra_now a |}.

Definition put_state (v : RoomState) (a : RoomActor) : RoomActor := {|
  ra_session_id := ra_session_id a; ra_token := ra_token a; ra_state := v;
  ra_policy := ra_policy a; ra_members := ra_members a; ra_connections := ra_connections a;
  ra_requests := ra_requests a; ra_timeout_requests := ra_timeout_requests a;
  ra_room_timeout := ra_room_timeout a; ra_host_connection := ra_host_connection a;
  ra_host_identity := ra_host_identity a; ra_timeouts := ra_timeouts a;
  ra_epoch := ra_epoch a; ra_epoch_key := ra_epoch_key a;
  ra_pending_epoch := ra_pending_epoch a; ra_room_sequence := ra_room_sequence a;
  ra_chat_replay := ra_chat_replay a; ra_rate_limits := ra_rate_limits a;
  ra_pending_membership := ra_pending_membership a; ra_now := ra_now a |}.

Definition put_policy (v : JoinPolicy) (a : RoomActor) : RoomActor := {|
  ra_session_id := ra_session_id a; ra_token := ra_token a; ra_state := ra_state a;
  ra_policy := v; ra_members := ra_members a; ra_connections := ra_connections a;
  ra_requests := ra_requests a; ra_timeout_requests := ra_timeout_requests a;
  ra_room_timeout := ra_room_timeout a; ra_host_connection := ra_host_connection a;
  ra_host_identity := ra_host_identity a; ra_timeouts := ra_timeouts a;
  ra_epoch := ra_epoch a; ra_epoch_key := ra_epoch_key a;
  ra_pending_epoch := ra_pending_epoch a; ra_room_sequence := ra_room_sequence a;
  ra_chat_replay := ra_chat_replay a; ra_rate_limits := ra_rate_limits a;
  ra_pending_membership := ra_pending_membership a; ra_now := ra_now a |}.

Definition put_members (v : MemberTable) (a : RoomActor) : RoomActor := {|
  ra_session_id := ra_session_id a; ra_token := ra_token a; ra_state := ra_state a;
  ra_policy := ra_policy a; ra_members := v; ra_connections := ra_connections a;
  ra_requests := ra_requests a; ra_timeout_requests := ra_timeout_requests a;
  ra_room_timeout := ra_room_timeout a; ra_host_connection := ra_host_connection a;
  ra_host_identity := ra_host_identity a; ra_timeouts := ra_timeouts a;
  ra_epoch := ra_epoch a; ra_epoch_key := ra_epoch_key a;
  ra_pending_epoch := ra_pending_epoch a; ra_room_sequence := ra_room_sequence a;
  ra_chat_replay := ra_chat_replay a; ra_rate_limits := ra_rate_limits a;
  ra_pending_membership := ra_pending_membership a; ra_now := ra_now a |}.

Definition put_connections (v : Connections) (a : RoomActor) : RoomActor := {|
  ra_session_id := ra_session_id a; ra_token := ra_token a; ra_state := ra_state a;
  ra_policy := ra_policy a; ra_members := ra_members a; ra_connections := v;
  ra_requests := ra_requests a; ra_timeout_requests := ra_timeout_requests a;
  ra_room_timeout := ra_room_timeout a; ra_host_connection := ra_host_connection a;
  ra_host_identity := ra_host_identity a; ra_timeouts := ra_timeouts a;
  ra_epoch := ra_epoch a; ra_epoch_key := ra_epoch_key a;
  ra_pending_epoch := ra_pending_epoch a; ra_room_sequence := ra_room_sequence a;
  ra_chat_replay := ra_chat_replay a; ra_rate_limits := ra_rate_limits a;
  ra_pending_membership := ra_pending_membership a; ra_now := ra_now a |}.

Definition put_requests (v : JoinRequestQueue) (a : RoomActor) : RoomActor := {|
  ra_session_id := ra_session_id a; ra_token := ra_token a; ra_state := ra_state a;
  ra_policy := ra_policy a; ra_members := ra_members a; ra_connections := ra_connections a;
  ra_requests := v; ra_timeout_requests := ra_timeout_requests a;
  ra_room_timeout := ra_room_timeout a; ra_host_connection := ra_host_connection a;
  ra_host_identity := ra_host_identity a; ra_timeouts := ra_timeouts a;
  ra_epoch := ra_epoch a; ra_epoch_key := ra_epoch_key a;
  ra_pending_epoch := ra_pending_epoch a; ra_room_sequence := ra_room_sequence a;
  ra_chat_replay := ra_chat_replay a; ra_rate_limits := ra_rate_limits a;
  ra_pending_membership := ra_pending_membership a; ra_now := ra_now a |}.

Definition put_timeout_requests (v : list PendingTimeoutRequest) (a : RoomActor) : RoomActor := {|
  ra_session_id := ra_session_id a; ra_token := ra_token a; ra_state := ra_state a;
  ra_policy := ra_policy a; ra_members := ra_members a; ra_connections := ra_connections a;
  ra_requests := ra_requests a; ra_timeout_requests := v;
  ra_room_timeout := ra_room_timeout a; ra_host_connection := ra_host_connection a;
  ra_host_identity := ra_host_identity a; ra_timeouts := ra_timeouts a;
  ra_epoch := ra_epoch a; ra_epoch_key := ra_epoch_key a;
  ra_pending_epoch := ra_pending_epoch a; ra_room_sequence := ra_room_sequence a;
  ra_chat_replay := ra_chat_replay a; ra_rate_limits := ra_rate_limits a;
  ra_pending_membership := ra_pending_membership a; ra_now := ra_now a |}.

Definition put_room_timeout (v : option u64) (a : RoomActor) : RoomActor := {|
  ra_session_id := ra_session_id a; ra_token := ra_token a; ra_state := ra_state a;
  ra_policy := ra_policy a; ra_members := ra_members a; ra_connections := ra_connections a;
  ra_requests := ra_requests a; ra_timeout_requests := ra_timeout_requests a;
  ra_room_timeout := v; ra_host_connection := ra_host_connection a;
  ra_host_identity := ra_host_identity a; ra_timeouts := ra_timeouts a;
  ra_epoch := ra_epoch a; ra_epoch_key := ra_epoch_key a;
  ra_pending_epoch := ra_pending_epoch a; ra_room_sequence := ra_room_sequence a;
  ra_chat_replay := ra_chat_replay a; ra_rate_limits := ra_rate_limits a;
  ra_pending_membership := ra_pending_membership a; ra_now := ra_now a |}.

Definition put_epoch (v : u64) (a : RoomActor) : RoomActor := {|
  ra_session_id := ra_session_id a; ra_token := ra_token a; ra_state := ra_state a;
  ra_policy := ra_policy a; ra_members := ra_members a; ra_connections := ra_connections a;
  ra_requests := ra_requests a; ra_timeout_requests := ra_timeout_requests a;
  ra_room_timeout := ra_room_timeout a; ra_host_connection := ra_host_connection a;
  ra_host_identity := ra_host_identity a; ra_timeouts := ra_timeouts a; ra_epoch := v;
  ra_epoch_key := ra_epoch_key a; ra_pending_epoch := ra_pending_epoch a;
  ra_room_sequence := ra_room_sequence a; ra_chat_replay := ra_chat_replay a;
  ra_rate_limits := ra_rate_limits a; ra_pending_membership := ra_pending_membership a;
  ra_now := ra_now a |}.

Definition put_epoch_key (v : option EpochKey) (a : RoomActor) : RoomActor := {|
  ra_session_id := ra_session_id a; ra_token := ra_token a; ra_state := ra_state a;
  ra_policy := ra_policy a; ra_members := ra_members a; ra_connections := ra_connections a;
  ra_requests := ra_requests a; ra_timeout_requests := ra_timeout_requests a;
  ra_room_timeout := ra_room_timeout a; ra_host_connection := ra_host_connection a;
  ra_host_identity := ra_host_identity a; ra_timeouts := ra_timeouts a;
  ra_epoch := ra_epoch a; ra_epoch_key := v; ra_pending_epoch := ra_pending_epoch a;
  ra_room_sequence := ra_room_sequence a; ra_chat_replay := ra_chat_replay a;
  ra_rate_limits := ra_rate_limits a; ra_pending_membership := ra_pending_membership a;
  ra_now := ra_now a |}.

Definition put_pending_epoch (v : option PendingEpoch) (a : RoomActor) : RoomActor := {|
  ra_session_id := ra_session_id a; ra_token := ra_token a; ra_state := ra_state a;
  ra_policy := ra_policy a; ra_members := ra_members a; ra_connections := ra_connections a;
  ra_requests := ra_requests a; ra_timeout_requests := ra_timeout_requests a;
  ra_room_timeout := ra_room_timeout a; ra_host_connection := ra_host_connection a;
  ra_host_identity := ra_host_identity a; ra_timeouts := ra_timeouts a;
  ra_epoch := ra_epoch a; ra_epoch_key := ra_epoch_key a; ra_pending_epoch := v;
  ra_room_sequence := ra_room_sequence a; ra_chat_replay := ra_chat_replay a;
  ra_rate_limits := ra_rate_limits a; ra_pending_membership := ra_pending_membership a;
  ra_now := ra_now a |}.

Definition put_room_sequence (v : u64) (a : RoomActor) : RoomActor := {|
  ra_session_id := ra_session_id a; ra_token := ra_token a; ra_state := ra_state a;
  ra_policy := ra_policy a; ra_members := ra_members a; ra_connections := ra_connections a;
  ra_requests := ra_requests a; ra_timeout_requests := ra_timeout_requests a;
  ra_room_timeout := ra_room_timeout a; ra_host_connection := ra_host_connection a;
  ra_host_identity := ra_host_identity a; ra_timeouts := ra_timeouts a;
  ra_epoch := ra_epoch a; ra_epoch_key := ra_epoch_key a;
  ra_pending_epoch := ra_pending_epoch a; ra_room_sequence := v;
  ra_chat_replay := ra_chat_replay a; ra_rate_limits := ra_rate_limits a;
  ra_pending_membership := ra_pending_membership a; ra_now := ra_now a |}.

Definition put_chat_replay (v : ReplayTracker) (a : RoomActor) : RoomActor := {|
  ra_session_id := ra_session_id a; ra_token := ra_token a; ra_state := ra_state a;
  ra_policy := ra_policy a; ra_members := ra_members a; ra_connections := ra_connections a;
  ra_requests := ra_requests a; ra_timeout_requests := ra_timeout_requests a;
  ra_room_timeout := ra_room_timeout a; ra_host_connection := ra_host_connection a;
  ra_host_identity := ra_host_identity a; ra_timeouts := ra_timeouts a;
  ra_epoch := ra_epoch a; ra_epoch_key := ra_epoch_key a;
  ra_pending_epoch := ra_pending_epoch a; ra_room_sequence := ra_room_sequence a;
  ra_chat_replay := v; ra_rate_limits := ra_rate_limits a;
  ra_pending_membership := ra_pending_membership a; ra_now := ra_now a |}.

Definition put_rate_limits (v : gmap MemberId RateLimiter) (a : RoomActor) : RoomActor := {|
  ra_session_id := ra_session_id a; ra_token := ra_token a; ra_state := ra_state a;
  ra_policy := ra_policy a; ra_members := ra_members a; ra_connections := ra_connections a;
  ra_requests := ra_requests a; ra_timeout_requests := ra_timeout_requests a;
  ra_room_timeout := ra_room_timeout a; ra_host_connection := ra_host_connection a;
  ra_host_identity := ra_host_identity a; ra_timeouts := ra_timeouts a;
  ra_epoch := ra_epoch a; ra_epoch_key := ra_epoch_key a;
  ra_pending_epoch := ra_pending_epoch a; ra_room_sequence := ra_room_sequence a;
  ra_chat_replay := ra_chat_replay a; ra_rate_limits := v;
  ra_pending_membership := ra_pending_membership a; ra_now := ra_now a |}.

Definition put_pending_membership (v : list RoomAction) (a : RoomActor) : RoomActor := {|
  ra_session_id := ra_session_id a; ra_token := ra_token a; ra_state := ra_state a;
  ra_policy := ra_policy a; ra_members := ra_members a; ra_connections := ra_connections a;
  ra_requests := ra_requests a; ra_timeout_requests := ra_timeout_requests a;
  ra_room_timeout := ra_room_timeout a; ra_host_connection := ra_host_connection a;
  ra_host_identity := ra_host_identity a; ra_timeouts := ra_timeouts a;
  ra_epoch := ra_epoch a; ra_epoch_key := ra_epoch_key a;
  ra_pending_epoch := ra_pending_epoch a; ra_room_sequence := ra_room_sequence a;
  ra_chat_replay := ra_chat_replay a; ra_rate_limits := ra_rate_limits a;
  ra_pending_membership := v; ra_now := ra_now a |}.

Definition put_now (v : Duration) (a : RoomActor) : RoomActor := {|
  ra_session_id := ra_session_id a; ra_token := ra_token a; ra_state := ra_state a;
  ra_policy := ra_policy a; ra_members := ra_members a; ra_connections := ra_connections a;
  ra_requests := ra_requests a; ra_timeout_requests := ra_timeout_requests a;
  ra_room_timeout := ra_room_timeout a; ra_host_connection := ra_host_connection a;
  ra_host_identity := ra_host_identity a; ra_timeouts := ra_timeouts a;
  ra_epoch := ra_epoch a; ra_epoch_key := ra_epoch_key a;
  ra_pending_epoch := ra_pending_epoch a; ra_room_sequence := ra_room_sequence a;
  ra_chat_replay := ra_chat_replay a; ra_rate_limits := ra_rate_limits a;
  ra_pending_membership := ra_pending_membership a; ra_now := v |}.

(** * Methods *)

Abbreviation St := (RoomActor * Rng)%type (only parsing).
Abbreviation M := (Comp RoomActor RoomError) (only parsing).

(** A fallible read of the random stream in a method of the actor. *)
Abbreviation draw := (draw_err RE_Crypto) (only parsing).
