(* ===== verification/RoomEpoch.v ===== *)
(** [src/room/actor.rs], the membership machinery: epoch transitions, the
    signed membership broadcasts, member removal and the closing of the
    room. *)
From Stdlib Require Import Strings.String.
From S2P Require Export RoomState.

Definition HOST_CONNECTION : ConnectionId := 0.

Definition RATE_LIMIT_TERMINATION : u32 := 10.

(** The resting state of the join policy. *)
Definition resting_state (policy : JoinPolicy) : RoomState :=
  if bool_decide (policy = JP_Open) then RS_Open else RS_Locked.

Definition rejected_message (reason : option rstring) : Message :=
  let reason :=
    match reason with
    | Some text =>
        if (str_len text <=? 256)%N && negb (contains_control_char text) && non_empty text
        then Some text else None
    | None => None
    end in
  match reason with
  | Some text =>
      match JoinRejected_new (Some text) with
      | Ok m => M_JoinRejected m
      | Err _ => M_JoinRejected {| jr_reason := None |}
      end
  | None => M_JoinRejected {| jr_reason := None |}
  end.

(** [self.room_sequence += 1]. *)
Definition bump_sequence : M unit :=
  a ← self;
  n ← expect (succ_u64 (ra_room_sequence a));
  modify (put_room_sequence n).

(** [self.pending_membership.push(..)] for each action. *)
Definition push_membership (actions : list RoomAction) : M unit :=
  modify (λ a, put_pending_membership (ra_pending_membership a ++ actions) a).

(** Notices for the withdrawn requests and the close of their connections. *)
Definition drop_requests (rs : list JoinRequest) : list RoomAction :=
  flat_map (λ r, [CloseConnection (request_connection r);
                  NotifyHost (HN_JoinRequestWithdrawn (request_id r))]) rs.

Section actor.
Context `{Primitives}.

(** ** Epoch transitions *)

(** The loop of [begin_epoch_transition]: the wrap actions, in table
    order, and the member ids awaited. *)
Fixpoint wrap_members (key : EpochKey) (ms : list Member) (actions : list RoomAction)
    (awaiting : list MemberId) : M (list RoomAction * list MemberId) :=
  match ms with
  | [] => mret (actions, awaiting)
  | member :: ms =>
      a ← self;
      wrap_key ← try_ RE_Crypto (host_try_wrap_key_for (ra_host_identity a)
                   (x25519_pubkey member) (ra_session_id a) (member_id member));
      envelope ← draw (wrap_epoch_key wrap_key key (ra_epoch a) (ra_session_id a));
      wrap ← try_ RE_Protocol (EpochWrap_new (ra_epoch a) (ee_nonce envelope)
               (ee_ciphertext envelope));
      wrap_members key ms
        (actions ++ [SendTo (connection member) (M_EpochWrap wrap)])
        (awaiting ++ [member_id member])
  end.

Definition begin_epoch_transition (actions : list RoomAction) : M (list RoomAction) :=
  a ← self;
  epoch ← expect (succ_u64 (ra_epoch a));
  modify (put_epoch epoch);;
  modify (λ a, put_chat_replay (retain_epoch (ra_chat_replay a) (ra_epoch a)) a);;
  bump_sequence;;
  key ← draw EpochKey_generate;
  a ← self;
  r ← wrap_members key (table_members (ra_members a)) actions [];
  modify (put_state RS_EpochTransition);;
  modify (λ a, put_pending_epoch (Some {|
    pe_epoch := ra_epoch a; pe_key := key; pe_awaiting := snd r;
    pe_started_at := ra_now a |}) a);;
  mret (fst r).

(** [on_epoch_ack]. *)
Definition on_epoch_ack (connection : ConnectionId) (epoch : u64) : M (list RoomAction) :=
  a ← self;
  match ra_pending_epoch a with
  | None => mret []
  | Some pending =>
      if negb (epoch =? pe_epoch pending)%N then mret [] else
      match conn_member_id (ra_connections a) connection with
      | None => mret []
      | Some member_id =>
          let before := length (pe_awaiting pending) in
          let awaiting := List.filter (λ id, negb (id =? member_id)%N) (pe_awaiting pending) in
          modify (put_pending_epoch (Some {|
            pe_epoch := pe_epoch pending; pe_key := pe_key pending;
            pe_awaiting := awaiting; pe_started_at := pe_started_at pending |}));;
          if length awaiting =? before then mret [] else
          match awaiting with
          | [] =>
              modify (put_pending_epoch None);;
              modify (put_epoch_key (Some (pe_key pending)));;
              modify (λ a, put_state (resting_state (ra_policy a)) a);;
              a ← self;
              modify (put_pending_membership []);;
              mret (ra_pending_membership a ++
                match ra_room_timeout a with
                | Some seconds => [NotifyHost (HN_TimeoutRebroadcast seconds)]
                | None => []
                end)
          | _ => mret []
          end
      end
  end.

(** ** Membership broadcasts *)

Definition snapshot_member (m : Member) : SnapshotMember := {|
  sm_member_id := member_id m; sm_nickname := nickname m;
  sm_color := ColorChoice_as_index (color m); sm_is_host := is_host m;
  sm_ed25519_pubkey := ed25519_pubkey m |}.

(** The host's signature on a room event of the current epoch and
    sequence. *)
Definition sign_room_event (a : RoomActor) (event_type : u8) (body : list byte) : list byte :=
  host_sign (ra_host_identity a)
    (room_event_transcript 1 (ra_session_id a) (ra_room_sequence a) (ra_epoch a)
       event_type body).

Definition queue_member_snapshot (c : ConnectionId) : M unit :=
  bump_sequence;;
  a ← self;
  let snapshot_members := snapshot_member <$> table_members (ra_members a) in
  let body := member_snapshot_body (snapshot_body_member <$> snapshot_members) in
  push_membership [SendTo c (M_MemberSnapshot {|
    ms_sequence := ra_room_sequence a; ms_epoch := ra_epoch a;
    ms_members := snapshot_members;
    ms_signature := sign_room_event a MSG_MEMBER_SNAPSHOT body |})].

Definition queue_member_joined (member : Member) : M unit :=
  bump_sequence;;
  a ← self;
  let body := member_joined_body (member_id member) (nickname member) (ed25519_pubkey member) in
  let message := M_MemberJoined {|
    mj_sequence := ra_room_sequence a; mj_epoch := ra_epoch a;
    mj_member_id := member_id member; mj_nickname := nickname member;
    mj_ed25519_pubkey := ed25519_pubkey member;
    mj_signature := sign_room_event a MSG_MEMBER_JOINED body |} in
  push_membership
    (omap (λ other, if (member_id other =? member_id member)%N then None
                    else Some (SendTo (connection other) message))
       (table_members (ra_members a)));;
  queue_member_snapshot (connection member).

Definition queue_member_gone (id : MemberId) (event_type : u8) : M unit :=
  bump_sequence;;
  a ← self;
  let signature := sign_room_event a event_type (member_gone_body id) in
  let message :=
    if (event_type =? MSG_MEMBER_KICKED)%N then M_MemberKicked {|
      mk_sequence := ra_room_sequence a; mk_epoch := ra_epoch a;
      mk_member_id := id; mk_signature := signature |}
    else M_MemberLeft {|
      ml_sequence := ra_room_sequence a; ml_epoch := ra_epoch a;
      ml_member_id := id; ml_signature := signature |} in
  push_membership
    ((λ m, SendTo (connection m) message) <$> table_members (ra_members a)).

(** ** Removal *)

Definition remove_member (id : MemberId) (event_type : u8) (actions : list RoomAction)
    : M (option Member * list RoomAction) :=
  if (id =? 0)%N then fail RE_HostCannotLeave else
  a ← self;
  match Members.remove (ra_members a) id with
  | None => mret (None, actions)
  | Some (member, members) =>
      modify (put_members members);;
      modify (λ a, put_connections (conn_remove (ra_connections a) (connection member)) a);;
      modify (λ a, put_rate_limits (delete id (ra_rate_limits a)) a);;
      actions ← begin_epoch_transition actions;
      queue_member_gone id event_type;;
      mret (Some member, actions)
  end.

Definition close_room : M (list RoomAction) :=
  a ← self;
  if bool_decide (ra_state a = RS_Destroyed) then fail RE_RoomClosed else
  modify (put_state RS_Closing);;
  let actions := flat_map (λ c, [SendTo c M_Shutdown; CloseConnection c])
                   (conn_ids (ra_connections a)) in
  modify (put_state RS_Destroyed);;
  mret (actions ++ [NotifyHost HN_RoomClosed]).

(** ** Epoch timeout *)

(** Evicts the stalled members: the actions and the ids removed. *)
Fixpoint evict (ids : list MemberId) (removed : list MemberId) (actions : list RoomAction)
    : M (list MemberId * list RoomAction) :=
  match ids with
  | [] => mret (removed, actions)
  | id :: ids =>
      a ← self;
      match Members.remove (ra_members a) id with
      | None => evict ids removed actions
      | Some (member, members) =>
          modify (put_members members);;
          modify (λ a, put_connections (conn_remove (ra_connections a) (connection member)) a);;
          modify (λ a, put_rate_limits (delete id (ra_rate_limits a)) a);;
          evict ids (removed ++ [id])
            (actions ++ [CloseConnection (connection member);
                         NotifyHost (HN_MemberLeft id (nickname member))])
      end
  end.

Fixpoint queue_all_gone (ids : list MemberId) (event_type : u8) : M unit :=
  match ids with
  | [] => mret tt
  | id :: ids => queue_member_gone id event_type;; queue_all_gone ids event_type
  end.

Definition on_epoch_timeout : M (list RoomAction) :=
  a ← self;
  match ra_pending_epoch a with
  | None => mret []
  | Some pending =>
      if (ra_now a - pe_started_at pending <?
            Timeouts_get (ra_timeouts a) TK_EpochAcknowledgement)%N
      then mret [] else
      let timed_out := pe_awaiting pending in
      modify (put_pending_epoch None);;
      if bool_decide (0%N ∈ timed_out) then close_room else
      r ← evict timed_out [] [];
      actions ← begin_epoch_transition (snd r);
      queue_all_gone (fst r) MSG_MEMBER_LEFT;;
      mret actions
  end.
End actor.
