(* ===== verification/RoomChat.v ===== *)
(** [src/room/actor.rs], the chat relay: [on_chat_received] and what it
    calls. *)
From Stdlib Require Import Strings.String Strings.Byte.
From S2P Require Export RoomEpoch.

Definition invalid_plaintext (detail : rstring) : RoomError :=
  RE_Chat (CE_InvalidPlaintext detail).

(** [matches!(message_type, MSG_CHAT | MSG_COLOR | MSG_TIMEOUT_REQUEST |
    MSG_TIMEOUT_CHANGED)]. *)
Definition is_chat_type (t : u8) : bool :=
  (t =? MSG_CHAT)%N || (t =? MSG_COLOR)%N || (t =? MSG_TIMEOUT_REQUEST)%N
  || (t =? MSG_TIMEOUT_CHANGED)%N.

(** The types that share the member's rate-limit bucket. *)
Definition is_rate_limited (t : u8) : bool :=
  (t =? MSG_CHAT)%N || (t =? MSG_COLOR)%N || (t =? MSG_TIMEOUT_REQUEST)%N.

(** The nine-byte timeout setting: a flag and a big-endian [u64]. *)
Definition timeout_setting_valid (flag : u8) (rest : list byte) : bool :=
  if (flag =? 0)%N then forallb (λ b, (byte_val b =? 0)%N) rest
  else if (flag =? 1)%N then timeout_in_range (be_value rest)
  else false.

Section actor.
Context `{Primitives}.

Definition reject_during_transition (c : ConnectionId) : M (list RoomAction) :=
  a ← self;
  if (c =? ra_host_connection a)%N then
    mret [NotifyHost (HN_Error
      (lit "the room was rotating keys; that action was not applied"))]
  else
    m ← try_ RE_Protocol (ErrorMessage_new EC_RateLimited (Some
          (lit "the room was rotating keys; that message was not delivered, please send it again")));
    mret [SendTo c (M_Error m)].

Definition member_has_acked_pending_epoch (a : RoomActor) (c : ConnectionId) : bool :=
  match ra_pending_epoch a with
  | None => true
  | Some pending =>
      match conn_member_id (ra_connections a) c with
      | None => false
      | Some member_id => negb (bool_decide (member_id ∈ pe_awaiting pending))
      end
  end.

Definition open_error (e : ChatOpenError) : RoomError :=
  match e with
  | CO_InvalidSignature => RE_Chat CE_InvalidSignature
  | CO_Decrypt _ => RE_Chat CE_InvalidCiphertext
  end.

Definition chat_plaintext (sender_id : MemberId) (message_type : u8)
    (envelope : EncryptedEnvelope) : M (list byte) :=
  a ← self;
  key ← ok_or
    match ra_pending_epoch a, ra_epoch_key a with
    | Some pending, _ => Some (pe_epoch pending, pe_key pending)
    | None, Some key => Some (ra_epoch a, key)
    | None, None => None
    end (RE_Chat CE_NoEpochKey);
  sender_pubkey ← ok_or (ed25519_pubkey <$> by_id (ra_members a) sender_id)
    (RE_Chat (CE_UnknownSender (env_sender_id envelope)));
  try_ open_error (open_envelope (snd key) sender_pubkey 1 (ra_session_id a) (fst key)
    (env_sender_id envelope) (env_sender_sequence envelope) message_type
    (env_nonce envelope) (env_ciphertext envelope) (env_signature envelope)).

(** The rate-limit block: [Some actions] where the message is refused. *)
Definition rate_limit (connection : ConnectionId) (sender_id : MemberId)
    : M (option (list RoomAction)) :=
  a ← self;
  let limiter := default (RateLimiter_new 5 1) (ra_rate_limits a !! sender_id) in
  r ← expect (allow limiter (ra_now a));
  modify (λ a, put_rate_limits (<[sender_id := snd r]> (ra_rate_limits a)) a);;
  let allowed := fst r in
  if (allowed : bool) then mret None else
  m ← try_ RE_Protocol (ErrorMessage_new EC_RateLimited (Some
        (lit "the room rate limit rejected that message; send more slowly")));
  let actions := [SendTo connection (M_Error m);
                  NotifyHost (HN_Error (lit "member exceeded the message rate limit"))] in
  if is_abusive (snd r) RATE_LIMIT_TERMINATION then
    res ← remove_member sender_id MSG_MEMBER_KICKED actions;
    match fst res with
    | Some member =>
        mret (Some (snd res ++ [CloseConnection connection;
                                NotifyHost (HN_MemberKicked sender_id (nickname member))]))
    | None => mret (Some (snd res))
    end
  else mret (Some actions).

(** [MSG_COLOR]. *)
Definition on_color_message (sender_id : MemberId) (envelope : EncryptedEnvelope)
    (plaintext : list byte) : M Message :=
  match plaintext with
  | [b] =>
      c ← ok_or (ColorChoice_from_index (byte_val b)) (RE_UnknownColor (byte_val b));
      modify (λ a, put_members (set_color (ra_members a) sender_id c) a);;
      mret (M_ColorChange envelope)
  | _ => fail (invalid_plaintext (lit "color payload must be one byte"))
  end.

(** [MSG_TIMEOUT_REQUEST]. *)
Definition on_timeout_request (connection : ConnectionId) (sender_id : MemberId)
    (plaintext : list byte) : M (list RoomAction) :=
  if (sender_id =? 0)%N then
    fail (invalid_plaintext (lit "the host cannot submit a timeout request")) else
  if negb (length plaintext =? 8) then
    fail (invalid_plaintext (lit "timeout request must contain eight bytes")) else
  let seconds := be_value plaintext in
  if negb (timeout_in_range seconds) then
    fail (invalid_plaintext (lit "timeout request is out of range")) else
  a ← self;
  if (queue_limit (ra_requests a) <=?
        queue_len (ra_requests a) + N.of_nat (length (ra_timeout_requests a)))%N
  then fail (RE_Queue (QE_Full (queue_limit (ra_requests a)))) else
  member ← expect (by_id (ra_members a) sender_id);
  r ← expect (allocate_id (ra_requests a));
  modify (put_requests (snd r));;
  modify (λ a, put_timeout_requests (ra_timeout_requests a ++ [{|
    pt_request_id := fst r; pt_connection := connection; pt_member_id := sender_id;
    pt_nickname := nickname member; pt_seconds := seconds |}]) a);;
  mret [NotifyHost (HN_TimeoutRequestPending (fst r) sender_id (nickname member) seconds)].

(** [MSG_TIMEOUT_CHANGED]. *)
Definition on_timeout_changed (sender_id : MemberId) (envelope : EncryptedEnvelope)
    (plaintext : list byte) : M Message :=
  if negb (sender_id =? 0)%N then
    fail (invalid_plaintext (lit "only the host can change the room timeout")) else
  if negb (length plaintext =? 9) then
    fail (invalid_plaintext (lit "timeout setting must contain nine bytes")) else
  match plaintext with
  | [] => panic
  | b :: rest =>
      let flag := byte_val b in
      if negb (timeout_setting_valid flag rest) then
        fail (invalid_plaintext (lit "invalid timeout setting")) else
      timeout ← (if (flag =? 0)%N then mret None
                 else if (flag =? 1)%N then mret (Some (be_value rest)) else panic);
      modify (put_room_timeout timeout);;
      mret (M_TimeoutChanged envelope)
  end.

(** [MSG_CHAT]. *)
Definition on_chat_message (envelope : EncryptedEnvelope) (plaintext : list byte) : M Message :=
  text ← ok_or (from_utf8 plaintext) (invalid_plaintext (lit "not UTF-8"));
  _ ← try_ (λ e, invalid_plaintext (ValidationError_to_string e))
        (validate_chat_text text Limits_default);
  mret (M_ChatMessage envelope).

(** The relay loop. *)
Definition relay (connection_ : ConnectionId) (message : Message) (ms : list Member)
    : list RoomAction :=
  omap (λ m, if (connection m =? connection_)%N then None
             else Some (SendTo (connection m) message)) ms.

(** [on_chat_received] past the rate limiter: the epoch and replay checks,
    the opening, the payload rules and the relay. *)
Definition chat_checked (connection : ConnectionId) (sender_id : MemberId) (message_type : u8)
    (envelope : EncryptedEnvelope) : M (list RoomAction) :=
  a ← self;
  if negb (env_epoch envelope =? ra_epoch a)%N then
    fail (RE_OldEpoch (env_epoch envelope) (ra_epoch a)) else
  if (match last_accepted (ra_chat_replay a) sender_id (ra_epoch a) with
      | Some last => (env_sender_sequence envelope <=? last)%N
      | None => false
      end)
  then fail (RE_ReplayRejected (env_sender_id envelope) (env_sender_sequence envelope)) else
  plaintext ← chat_plaintext sender_id message_type envelope;
  modify (λ a, put_chat_replay (snd (accept (ra_chat_replay a) sender_id (ra_epoch a)
    (env_sender_sequence envelope))) a);;
  if (message_type =? MSG_TIMEOUT_REQUEST)%N
  then on_timeout_request connection sender_id plaintext else
  message ←
    (if (message_type =? MSG_COLOR)%N then on_color_message sender_id envelope plaintext
     else if (message_type =? MSG_TIMEOUT_CHANGED)%N then
       on_timeout_changed sender_id envelope plaintext
     else if (message_type =? MSG_CHAT)%N then on_chat_message envelope plaintext
     else panic);
  a ← self;
  mret (relay connection message (table_members (ra_members a))).

Definition on_chat_received (connection : ConnectionId) (message_type : u8)
    (envelope : EncryptedEnvelope) : M (list RoomAction) :=
  if negb (is_chat_type message_type) then
    fail (invalid_plaintext (lit "not a chat-type message")) else
  a ← self;
  sender_id ← ok_or (conn_member_id (ra_connections a) connection) (RE_NotAMember connection);
  if negb (env_sender_id envelope =? sender_id)%N then
    fail (RE_Chat (CE_UnknownSender (env_sender_id envelope))) else
  _ ← ok_or (by_id (ra_members a) sender_id) (RE_NotAMember connection);
  refused ← (if is_rate_limited message_type then rate_limit connection sender_id
             else mret None);
  match refused with
  | Some actions => mret actions
  | None => chat_checked connection sender_id message_type envelope
  end.
End actor.
