(* ===== verification/RoomActor.v ===== *)
(** [src/room/actor.rs]: creation, start and the dispatch of the room's
    events, with the handlers of admission, host and member commands and
    connection losses. *)
From Stdlib Require Import Strings.String.
From S2P Require Export RoomChat.

Definition request_info (r : JoinRequest) : RequestInfo := {|
  ri_request_id := request_id r; ri_connection := request_connection r;
  ri_nickname := app_nickname (application r);
  ri_introduction := app_introduction (application r) |}.

Definition timeout_request_info (r : PendingTimeoutRequest) : TimeoutRequestInfo := {|
  ti_request_id := pt_request_id r; ti_member_id := pt_member_id r;
  ti_nickname := pt_nickname r; ti_seconds := pt_seconds r |}.

Section actor.
Context `{Primitives} `{Nfc}.

Definition create (limits : Limits) (host_connection : ConnectionId) (host_nickname : rstring)
    (host_identity : HostIdentity) (host_client_identity : MemberIdentity)
    (timeouts : Timeouts) (rng : Rng) : Result RoomActor RoomError * Rng :=
  match validate_nickname host_nickname limits with
  | Err e => (Err (RE_InvalidNickname e), rng)
  | Ok host_nickname =>
      let members := snd (add_host (MemberTable_new limits) host_connection host_nickname
        (member_ed25519_pubkey host_client_identity)
        (member_x25519_pubkey host_client_identity)) in
      match RoomSessionId_generate rng with
      | (Err e, rng) => (Err (RE_Crypto e), rng)
      | (Ok session_id, rng) =>
          match random_bytes 32 rng with
          | (Err e, rng) => (Err (RE_Crypto e), rng)
          | (Ok token, rng) =>
              (Ok {| ra_session_id := session_id; ra_token := token;
                     ra_state := RS_Creating; ra_policy := JP_Open;
                     ra_members := members; ra_connections := ∅;
                     ra_requests := JoinRequestQueue_new limits;
                     ra_timeout_requests := []; ra_room_timeout := None;
                     ra_host_connection := host_connection;
                     ra_host_identity := host_identity; ra_timeouts := timeouts;
                     ra_epoch := 0; ra_epoch_key := None; ra_pending_epoch := None;
                     ra_room_sequence := 0; ra_chat_replay := ReplayTracker_new;
                     ra_rate_limits := ∅; ra_pending_membership := []; ra_now := 0 |}, rng)
          end
      end
  end.

Definition start : M (list RoomAction) :=
  a ← self;
  if negb (bool_decide (ra_state a = RS_Creating)) then fail RE_RoomClosed else
  modify (λ a, put_connections (register (ra_connections a) (ra_host_connection a)) a);;
  modify (λ a, put_connections
    (or_same (ra_connections a) (promote (ra_connections a) (ra_host_connection a) 0)) a);;
  a ← self;
  begin_epoch_transition [NotifyHost (HN_InvitationRotated (ra_token a))].

(** ** Admission *)

Definition on_join_requested (connection : ConnectionId) (application : JoinApplication)
    : M (list RoomAction) :=
  a ← self;
  if negb (allows_join_requests (ra_policy a)) then fail RE_PolicyLocked else
  entry ← ok_or (ra_connections a !! connection) (RE_UnknownConnection connection);
  if negb (password_verified entry)
     || negb (match role entry with CR_Admission => true | _ => false end)
  then fail (RE_NotAMember connection) else
  r ← expect (push (ra_requests a) connection application);
  r ← try_ RE_Queue r;
  modify (put_requests (snd r));;
  a ← self;
  connections ← ok_or (attach_request (ra_connections a) connection (fst r))
                  (RE_UnknownConnection connection);
  modify (put_connections connections);;
  bump_sequence;;
  mret [NotifyHost (HN_JoinRequestPending (fst r) connection
          (app_nickname application) (app_introduction application))].

(** [take_request] of the actor. *)
Definition take_join_request (id : RequestId) : M JoinRequest :=
  a ← self;
  r ← try_ (λ e, match e with QE_Unknown id => RE_UnknownRequest id | other => RE_Queue other end)
        (take_request (ra_requests a) id);
  modify (put_requests (snd r));;
  mret (fst r).

(** The timeout-request branch of [on_accept] and [on_reject]. *)
Definition take_timeout_request (id : RequestId) : M (option PendingTimeoutRequest) :=
  a ← self;
  match remove_first (key_is pt_request_id id) (ra_timeout_requests a) with
  | Some (request, rest) => modify (put_timeout_requests rest);; mret (Some request)
  | None => mret None
  end.

Definition on_accept (id : RequestId) : M (list RoomAction) :=
  t ← take_timeout_request id;
  match t with
  | Some request => mret [NotifyHost (HN_TimeoutRequestAccepted id (pt_seconds request))]
  | None =>
      request ← take_join_request id;
      let connection := request_connection request in
      let app := application request in
      a ← self;
      epoch ← expect (succ_u64 (ra_epoch a));
      added ← expect (add (ra_members a) connection (app_nickname app)
                        (app_ed25519_pubkey app) (app_x25519_pubkey app) epoch);
      match added with
      | Ok (member, members) =>
          modify (put_members members);;
          modify (λ a, put_connections (register (ra_connections a) connection) a);;
          modify (λ a, put_connections (or_same (ra_connections a)
            (promote (ra_connections a) connection (member_id member))) a);;
          actions ← begin_epoch_transition
            [SendTo connection (M_JoinAccepted {| ja_member_id := member_id member |});
             NotifyHost (HN_MemberJoined (member_id member) (nickname member))];
          queue_member_joined member;;
          mret actions
      | Err error =>
          let text := MemberError_to_string error in
          let actions := [SendTo connection (rejected_message (Some text));
                          CloseConnection connection; NotifyHost (HN_Error text)] in
          let actions := actions ++
            match conn_request_id (ra_connections a) connection with
            | Some request_id => [NotifyHost (HN_JoinRequestWithdrawn request_id)]
            | None => []
            end in
          modify (λ a, put_connections (conn_remove (ra_connections a) connection) a);;
          mret actions
      end
  end.

Definition on_reject (id : RequestId) : M (list RoomAction) :=
  t ← take_timeout_request id;
  match t with
  | Some _ => mret [NotifyHost (HN_TimeoutRequestRejected id)]
  | None =>
      request ← take_join_request id;
      let connection := request_connection request in
      modify (λ a, put_connections (conn_remove (ra_connections a) connection) a);;
      mret [SendTo connection (rejected_message None); CloseConnection connection]
  end.

(** ** Members *)

Definition resolve_member (a : RoomActor) (target : MemberRef) : Result Member RoomError :=
  match target with
  | MR_Id id =>
      match by_id (ra_members a) id with Some m => Ok m | None => Err (RE_UnknownMember target) end
  | MR_Nickname [] => Err RE_EmptyMemberRef
  | MR_Nickname nickname =>
      match by_nickname (ra_members a) nickname with
      | Some m => Ok m
      | None => Err (RE_UnknownMember target)
      end
  end.

Definition on_leave (connection : ConnectionId) : M (list RoomAction) :=
  a ← self;
  if (connection =? ra_host_connection a)%N then fail RE_HostCannotLeave else
  member_id ← ok_or (conn_member_id (ra_connections a) connection) (RE_NotAMember connection);
  r ← remove_member member_id MSG_MEMBER_LEFT [];
  match fst r with
  | None => mret []
  | Some member =>
      mret (snd r ++ [SendTo connection M_Shutdown; CloseConnection connection;
                      NotifyHost (HN_MemberLeft member_id (nickname member))])
  end.

Definition on_color (connection : ConnectionId) (color : ColorChoice) : M (list RoomAction) :=
  a ← self;
  member_id ← ok_or
    match conn_member_id (ra_connections a) connection with
    | Some member_id => Some member_id
    | None => if (connection =? ra_host_connection a)%N then Some 0%N else None
    end (RE_NotAMember connection);
  modify (λ a, put_members (set_color (ra_members a) member_id color) a);;
  mret [].

Definition on_kick (target : MemberRef) : M (list RoomAction) :=
  a ← self;
  resolved ← try_ id (resolve_member a target);
  let member_id := member_id resolved in
  member ← ok_or (by_id (ra_members a) member_id) (RE_UnknownMember target);
  if is_host member then fail RE_CannotKickHost else
  let connection := connection member in
  r ← remove_member member_id MSG_MEMBER_KICKED [];
  match fst r with
  | None => mret []
  | Some member =>
      mret (snd r ++ [CloseConnection connection;
                      NotifyHost (HN_MemberKicked member_id (nickname member))])
  end.

Definition on_connection_lost (c : ConnectionId) : M (list RoomAction) :=
  a ← self;
  if (c =? ra_host_connection a)%N then close_room else
  let mine r := (pt_connection r =? c)%N in
  let actions := (λ r, NotifyHost (HN_TimeoutRequestRejected (pt_request_id r)))
                   <$> List.filter mine (ra_timeout_requests a) in
  modify (λ a, put_timeout_requests
    (List.filter (λ r, negb (mine r)) (ra_timeout_requests a)) a);;
  let member :=
    match conn_member_id (ra_connections a) c with
    | Some id => Some id
    | None => member_id <$> by_connection (ra_members a) c
    end in
  actions ←
    match member with
    | Some member_id =>
        r ← remove_member member_id MSG_MEMBER_LEFT actions;
        match fst r with
        | Some member => mret (snd r ++ [NotifyHost (HN_MemberLeft member_id (nickname member))])
        | None => mret (snd r)
        end
    | None =>
        match conn_request_id (ra_connections a) c with
        | Some request_id =>
            match take_request (ra_requests a) request_id with
            | Ok (_, requests) =>
                modify (put_requests requests);;
                mret (actions ++ [NotifyHost (HN_JoinRequestWithdrawn request_id)])
            | Err _ => mret actions
            end
        | None => mret actions
        end
    end;
  modify (λ a, put_connections (conn_remove (ra_connections a) c) a);;
  mret actions.

Definition on_member_left (member_id : MemberId) : M (list RoomAction) :=
  r ← remove_member member_id MSG_MEMBER_LEFT [];
  match fst r with
  | None => mret []
  | Some member => mret (snd r ++ [NotifyHost (HN_MemberLeft member_id (nickname member))])
  end.

Definition on_member_command (connection : ConnectionId) (command : MemberCommand)
    : M (list RoomAction) :=
  match command with
  | MCmd_Leave => on_leave connection
  | MCmd_Color color => on_color connection color
  | MCmd_List =>
      a ← self;
      mret [NotifyHost (HN_ListSnapshot (MemberInfo_from <$> table_members (ra_members a)))]
  | MCmd_Whois target =>
      a ← self;
      member ← try_ id (resolve_member a (MR_Nickname target));
      mret [NotifyHost (HN_WhoisResult (MemberInfo_from member))]
  end.

(** ** Invitation and policy *)

(** Rejects every pending application and closes every connection that is
    not a member's: the actions. *)
Definition drop_admissions : M (list RoomAction) :=
  a ← self;
  let (drained, requests) := drain (ra_requests a) in
  modify (put_requests requests);;
  modify (λ a, put_connections (remove_all (ra_connections a)
                                  (request_connection <$> drained)) a);;
  a ← self;
  let ids := non_member_ids (ra_connections a) in
  modify (λ a, put_connections (remove_all (ra_connections a) ids) a);;
  mret (drop_requests drained ++ (CloseConnection <$> ids)).

Definition on_new_id : M (list RoomAction) :=
  token ← draw (random_bytes 32);
  modify (put_token token);;
  bump_sequence;;
  actions ← drop_admissions;
  mret (actions ++ [NotifyHost (HN_InvitationRotated token)]).

Definition set_policy (policy : JoinPolicy) : M (list RoomAction) :=
  actions ← (if bool_decide (policy = JP_Locked) then drop_admissions else mret []);
  modify (put_policy policy);;
  modify (put_state (resting_state policy));;
  bump_sequence;;
  a ← self;
  let open := bool_decide (policy = JP_Open) in
  let signature := sign_room_event a MSG_JOIN_POLICY_CHANGED (join_policy_body open) in
  let message := M_JoinPolicyChanged {|
    jp_sequence := ra_room_sequence a; jp_epoch := ra_epoch a; jp_open := open;
    jp_signature := signature |} in
  mret (actions
    ++ omap (λ m, if is_host m then None else Some (SendTo (connection m) message))
         (table_members (ra_members a))
    ++ [NotifyHost (HN_JoinPolicyChanged policy)]).

(** ** Dispatch *)

Definition on_host_command (command : HostCommand) : M (list RoomAction) :=
  match command with
  | HC_Kick target => on_kick target
  | HC_NewId => on_new_id
  | HC_ReqOn => set_policy JP_Open
  | HC_ReqOff => set_policy JP_Locked
  | HC_Requests =>
      a ← self;
      mret [NotifyHost (HN_RequestsSnapshot (request_info <$> pending (ra_requests a))
                          (timeout_request_info <$> ra_timeout_requests a))]
  | HC_Accept id => on_accept id
  | HC_Reject id => on_reject id
  end.

(** The events processed while an epoch transition is pending. *)
Definition handle_in_transition (event : RoomEvent) : M (list RoomAction) :=
  match event with
  | EV_EpochAck connection epoch => on_epoch_ack connection epoch
  | EV_ConnectionLost connection => on_connection_lost connection
  | EV_TimeoutExpired connection kind =>
      if bool_decide (kind = TK_EpochAcknowledgement) then on_epoch_timeout
      else on_connection_lost connection
  | EV_EpochMaintenance => on_epoch_timeout
  | EV_CloseRequested | EV_TorStopped => close_room
  | EV_HostCommand HC_Requests => on_host_command HC_Requests
  | EV_ChatReceived connection message_type envelope =>
      a ← self;
      if member_has_acked_pending_epoch a connection
      then on_chat_received connection message_type envelope
      else reject_during_transition connection
  | _ => fail RE_EpochTransitionInProgress
  end.

Definition handle_active (event : RoomEvent) : M (list RoomAction) :=
  match event with
  | EV_ClientConnected connection =>
      modify (λ a, put_connections (register (ra_connections a) connection) a);; mret []
  | EV_PasswordVerified connection =>
      modify (λ a, put_connections (or_same (ra_connections a)
        (mark_password_verified (ra_connections a) connection)) a);; mret []
  | EV_EpochAck connection epoch => on_epoch_ack connection epoch
  | EV_JoinRequested connection nickname introduction ed x signature =>
      on_join_requested connection {|
        app_nickname := nickname; app_introduction := introduction;
        app_ed25519_pubkey := ed; app_x25519_pubkey := x; app_signature := signature |}
  | EV_HostCommand command => on_host_command command
  | EV_MemberCommand connection command => on_member_command connection command
  | EV_HostAccepted request_id => on_accept request_id
  | EV_HostRejected request_id => on_reject request_id
  | EV_ConnectionLost connection => on_connection_lost connection
  | EV_TimeoutExpired connection _ => on_connection_lost connection
  | EV_EpochMaintenance => mret []
  | EV_MemberLeft member => on_member_left member
  | EV_ChatReceived connection message_type envelope =>
      on_chat_received connection message_type envelope
  | EV_TorStopped | EV_CloseRequested => close_room
  end.

Definition handle_event_at (event : RoomEvent) (now : Duration) : M (list RoomAction) :=
  modify (put_now now);;
  a ← self;
  match ra_state a with
  | RS_Closing | RS_Destroyed => fail RE_RoomClosed
  | RS_EpochTransition => handle_in_transition event
  | _ => handle_active event
  end.

Definition handle_event (event : RoomEvent) : M (list RoomAction) :=
  a ← self; handle_event_at event (ra_now a).
End actor.
