(* ===== verification/RoomInv.v ===== *)
(** The structural invariant of the room: the members, the connections, the
    pending requests and the rate-limit buckets describe one population.

    [struct_ok] is stated on the components; each lemma is the effect of one
    change the handlers make. *)
From S2P Require Export RoomActor.

(** The request a connection waits for, and the member it carries, as the
    queue and the table tell it. *)
Definition request_at (rq : JoinRequestQueue) (c : ConnectionId) : option RequestId :=
  request_id <$> find_first (key_is request_connection c) (pending rq).

Definition member_at (ms : MemberTable) (c : ConnectionId) : option MemberId :=
  member_id <$> by_connection ms c.

Definition request_ids (rq : JoinRequestQueue) (ts : list PendingTimeoutRequest)
    : list RequestId :=
  (request_id <$> pending rq) ++ (pt_request_id <$> ts).

Record struct_ok (ms : MemberTable) (cs : Connections) (rq : JoinRequestQueue)
    (ts : list PendingTimeoutRequest) (rl : gmap MemberId RateLimiter) (hc : ConnectionId)
    : Prop := {
  sok_table : table_ok ms;
  sok_host : host_row ms hc;
  sok_entries : entries_ok cs;
  sok_links : ∀ c, role_view cs c = (request_at rq c, member_at ms c);
  sok_req_conns : NoDup (request_connection <$> pending rq);
  sok_req_ids : NoDup (request_ids rq ts);
  sok_req_fresh : Forall (λ i, i < queue_next_id rq)%N (request_ids rq ts);
  sok_req_len : (queue_len rq <= queue_limit rq)%N;
  sok_timeout_len : (N.of_nat (length ts) <= queue_limit rq)%N;
  sok_rates : ∀ id, is_Some (rl !! id) → is_Some (by_id ms id);
}.

Definition frame (a : RoomActor) :=
  (ra_members a, ra_connections a, ra_requests a, ra_timeout_requests a,
   ra_rate_limits a, ra_host_connection a).

Definition room_ok (a : RoomActor) : Prop :=
  struct_ok (ra_members a) (ra_connections a) (ra_requests a) (ra_timeout_requests a)
    (ra_rate_limits a) (ra_host_connection a).

Lemma room_ok_frame a a' : frame a = frame a' → room_ok a → room_ok a'.
Proof. unfold frame, room_ok. intros [=-> -> -> -> -> ->]. done. Qed.

(** * Views *)

Lemma member_at_remove ms id m ms' c :
  table_ok ms → Members.remove ms id = Some (m, ms') →
  member_at ms' c = if bool_decide (c = connection m) then None else member_at ms c.
Proof.
  intros [] (_ & Hp & _)%remove_Some. unfold member_at, by_connection.
  rewrite (find_first_key_perm connection _ m _ c tok_conns Hp). by case_bool_decide.
Qed.

Lemma by_id_remove ms id m ms' i :
  table_ok ms → Members.remove ms id = Some (m, ms') →
  by_id ms' i = if bool_decide (i = id) then None else by_id ms i.
Proof.
  intros [] (_ & Hp & <- & _)%remove_Some. unfold by_id.
  rewrite (find_first_key_perm member_id _ m _ i tok_ids Hp). by case_bool_decide.
Qed.

Lemma member_at_add ms c n ed x e m ms' c' :
  table_ok ms → add ms c n ed x e = Some (Ok (m, ms')) →
  member_at ms' c' = if bool_decide (c' = c) then Some (member_id m) else member_at ms c'.
Proof.
  intros Hok Hadd. pose proof (add_Ok _ _ _ _ _ _ _ _ Hadd) as (_ & _ & Hc & _ & _ & Hm & Hms & _).
  unfold member_at, by_connection. rewrite Hms. simpl. case_bool_decide as E.
  - subst c'. rewrite find_first_key_app by done. rewrite Hm. simpl.
    by rewrite bool_decide_eq_true_2.
  - rewrite find_first_key_app_ne; [done|]. rewrite Hm. simpl. congruence.
Qed.

Lemma by_id_add ms c n ed x e m ms' i :
  table_ok ms → add ms c n ed x e = Some (Ok (m, ms')) →
  is_Some (by_id ms i) → is_Some (by_id ms' i).
Proof.
  intros Hok Hadd [k Hk]. pose proof (add_preserves_ok _ _ _ _ _ _ _ _ Hok Hadd) as Hok'.
  apply add_Ok in Hadd as (_ & _ & _ & _ & _ & _ & Hms & _).
  apply by_id_Some in Hk as [Hk <-]. exists k. apply by_id_elem; [done|].
  rewrite Hms. simpl. apply elem_of_app. by left.
Qed.

Lemma request_at_take rq id r rq' c :
  NoDup (request_connection <$> pending rq) → take_request rq id = Ok (r, rq') →
  request_at rq' c = if bool_decide (c = request_connection r) then None else request_at rq c.
Proof.
  intros Hnd (_ & _ & Hp & _)%take_request_Ok. unfold request_at.
  rewrite (find_first_key_perm request_connection _ r _ c Hnd Hp). by case_bool_decide.
Qed.

Lemma request_at_elem rq r :
  NoDup (request_connection <$> pending rq) → r ∈ pending rq →
  request_at rq (request_connection r) = Some (request_id r).
Proof. intros Hnd Hr. unfold request_at. by rewrite (find_first_key_unique _ _ r). Qed.

Lemma request_at_Some rq c id :
  request_at rq c = Some id →
  ∃ r, r ∈ pending rq ∧ request_connection r = c ∧ request_id r = id.
Proof.
  unfold request_at. destruct (find_first _ _) as [r|] eqn:E; [|done].
  intros [= <-]. exists r. by apply find_first_key_Some in E as [? ?].
Qed.

Lemma member_at_Some ms c id :
  member_at ms c = Some id →
  ∃ m, m ∈ table_members ms ∧ connection m = c ∧ member_id m = id.
Proof.
  unfold member_at. destruct (by_connection ms c) as [m|] eqn:E; [|done].
  intros [= <-]. exists m. by apply by_connection_Some in E as [? ?].
Qed.

Lemma member_at_elem ms m :
  table_ok ms → m ∈ table_members ms → member_at ms (connection m) = Some (member_id m).
Proof. intros Hok Hm. unfold member_at. by rewrite by_connection_elem. Qed.

Lemma member_at_set_color ms id col c : member_at (set_color ms id col) c = member_at ms c.
Proof.
  assert (Hg : ∀ l : list Member, ∀ c0, member_id <$> find_first (key_is connection c0)
    (update_first (key_is member_id id) (set_color_of col) l) =
    member_id <$> find_first (key_is connection c0) l); [|apply Hg].
  intros l c0. induction l as [|m l IH]; [done|]. simpl.
  destruct (key_is member_id id m); simpl;
    change (key_is connection c0 (set_color_of col m)) with (key_is connection c0 m);
    by destruct (key_is connection c0 m).
Qed.

Lemma by_id_set_color ms id col i : is_Some (by_id ms i) → is_Some (by_id (set_color ms id col) i).
Proof.
  unfold by_id. intros H. destruct (find_first _ (table_members (set_color ms id col))) eqn:E; [eauto|].
  apply find_first_key_None in E. rewrite set_color_members in E by done.
  apply find_first_key_None in E. rewrite E in H. by destruct H.
Qed.

(** Closing the connections that are not members' leaves the members'. *)
Lemma remove_non_members_lookup cs c :
  remove_all cs (non_member_ids cs) !! c =
  match cs !! c with
  | Some e => if is_member_entry e then Some e else None
  | None => None
  end.
Proof.
  rewrite remove_all_lookup. case_bool_decide as E.
  - apply elem_of_non_member_ids in E as (e & -> & ->). done.
  - destruct (cs !! c) as [e|] eqn:He; [|done]. destruct (is_member_entry e) eqn:Hb; [done|].
    exfalso. apply E, elem_of_non_member_ids. eauto.
Qed.

(** * Effects *)

Section effects.
Context (ms : MemberTable) (cs : Connections) (rq : JoinRequestQueue).
Context (ts : list PendingTimeoutRequest) (rl : gmap MemberId RateLimiter) (hc : ConnectionId).
Context (Hok : struct_ok ms cs rq ts rl hc).

Lemma conn_member_id_at c : conn_member_id cs c = member_at ms c.
Proof. pose proof (sok_links _ _ _ _ _ _ Hok c) as H. by injection H. Qed.

Lemma conn_request_id_at c : conn_request_id cs c = request_at rq c.
Proof. pose proof (sok_links _ _ _ _ _ _ Hok c) as H. by injection H. Qed.

(** A connection has one role: a pending applicant is not a member. *)
Lemma pending_not_member r :
  r ∈ pending rq → member_at ms (request_connection r) = None.
Proof.
  intros Hr. destruct Hok. pose proof (sok_links0 (request_connection r)) as H.
  rewrite request_at_elem in H by done. unfold role_view, conn_request_id, conn_member_id in H.
  destruct (cs !! _) as [[? ? []]|]; simplify_eq/=. done.
Qed.

(** The two halves of a connection's view. *)
Lemma view_request c id : request_at rq c = Some id → role_view cs c = (Some id, None).
Proof.
  intros H. rewrite (sok_links _ _ _ _ _ _ Hok), H. f_equal.
  apply request_at_Some in H as (r & Hr & <- & _). by apply pending_not_member.
Qed.

Lemma view_member c id : member_at ms c = Some id → role_view cs c = (None, Some id).
Proof.
  intros H. rewrite (sok_links _ _ _ _ _ _ Hok), H. f_equal.
  destruct (request_at rq c) as [i|] eqn:E; [|done].
  apply view_request in E. rewrite (sok_links _ _ _ _ _ _ Hok), H in E. by simplify_eq.
Qed.

Lemma struct_remove_member id m ms' :
  Members.remove ms id = Some (m, ms') → id ≠ 0%N →
  struct_ok ms' (conn_remove cs (connection m)) rq ts (delete id rl) hc.
Proof.
  intros Hrm Hid. destruct Hok.
  pose proof (remove_Some _ _ _ _ Hrm) as (Hby & _ & <- & _).
  apply by_id_Some in Hby as [Hm _].
  constructor; try done.
  - by eapply remove_preserves_ok.
  - by eapply remove_host_row.
  - by apply entries_ok_remove.
  - intros c. rewrite role_view_remove, (member_at_remove _ _ _ _ _ sok_table0 Hrm).
    case_bool_decide as E; [|done]. subst c.
    pose proof (view_member _ _ (member_at_elem _ _ sok_table0 Hm)) as H.
    rewrite sok_links0 in H. by injection H as -> _.
  - intros i Hi. rewrite (by_id_remove _ _ _ _ _ sok_table0 Hrm).
    case_bool_decide as E; [subst; rewrite lookup_delete_eq in Hi; by destruct Hi|].
    rewrite lookup_delete_ne in Hi by done. auto.
Qed.

Lemma struct_conn_remove c :
  member_at ms c = None → request_at rq c = None →
  struct_ok ms (conn_remove cs c) rq ts rl hc.
Proof.
  intros Hm Hr. destruct Hok. constructor; try done; [by apply entries_ok_remove|].
  intros c'. rewrite role_view_remove. case_bool_decide; subst; [by rewrite Hm, Hr|done].
Qed.

(** The queue after a request is taken out. *)
Lemma queue_take_ok id r rq' :
  take_request rq id = Ok (r, rq') →
  r ∈ pending rq ∧ NoDup (request_connection <$> pending rq') ∧
  NoDup (request_ids rq' ts) ∧
  Forall (λ i, i < queue_next_id rq')%N (request_ids rq' ts) ∧
  (queue_len rq' <= queue_limit rq')%N ∧
  (N.of_nat (length ts) <= queue_limit rq')%N.
Proof.
  intros (_ & _ & Hp & Hl & Hn)%take_request_Ok. destruct Hok.
  rewrite Hl, Hn. unfold request_ids in *. split_and!.
  - rewrite Hp. apply elem_of_cons. by left.
  - by eapply NoDup_fmap_tail.
  - rewrite Hp in sok_req_ids0. csimpl in sok_req_ids0. by apply NoDup_cons_1_2 in sok_req_ids0.
  - rewrite Hp in sok_req_fresh0. csimpl in sok_req_fresh0.
    by apply list.Forall_cons in sok_req_fresh0 as [_ ?].
  - apply Permutation_length in Hp. unfold queue_len in *. simpl in Hp. lia.
  - done.
Qed.

Lemma struct_drop_request id r rq' :
  take_request rq id = Ok (r, rq') →
  struct_ok ms (conn_remove cs (request_connection r)) rq' ts rl hc.
Proof.
  intros Ht. pose proof (queue_take_ok _ _ _ Ht) as (Hr & ? & ? & ? & ? & ?).
  destruct Hok. constructor; try done; [by apply entries_ok_remove|].
  intros c. rewrite role_view_remove, (request_at_take _ _ _ _ _ sok_req_conns0 Ht).
  case_bool_decide as E; [|done]. subst. by rewrite pending_not_member.
Qed.

Lemma struct_add_member id r rq' n ed x e m ms' :
  take_request rq id = Ok (r, rq') →
  add ms (request_connection r) n ed x e = Some (Ok (m, ms')) →
  struct_ok ms'
    (or_same (register cs (request_connection r))
       (promote (register cs (request_connection r)) (request_connection r) (member_id m)))
    rq' ts rl hc.
Proof.
  intros Ht Hadd. pose proof (queue_take_ok _ _ _ Ht) as (Hr & ? & ? & ? & ? & ?).
  destruct Hok. set (c := request_connection r) in *.
  destruct (set_role_Some (register cs c) c (CR_Member (member_id m))) as [cs' Hcs'].
  { unfold register. destruct (cs !! c) eqn:E; [by rewrite E|]. by rewrite lookup_insert_eq. }
  unfold promote. rewrite Hcs'. simpl. constructor; try done.
  - by eapply add_preserves_ok.
  - by eapply add_host_row.
  - eapply entries_ok_set_role; [by apply entries_ok_register|done].
  - intros c'. rewrite (role_view_set_role _ _ _ _ _ Hcs'), role_view_register.
    rewrite (member_at_add _ _ _ _ _ _ _ _ _ sok_table0 Hadd).
    rewrite (request_at_take _ _ _ _ _ sok_req_conns0 Ht). fold c.
    by case_bool_decide.
  - intros i Hi. eapply by_id_add; eauto.
Qed.

Lemma struct_register c : struct_ok ms (register cs c) rq ts rl hc.
Proof.
  destruct Hok. constructor; try done; [by apply entries_ok_register|].
  intros c'. by rewrite role_view_register.
Qed.

Lemma struct_verified c :
  struct_ok ms (or_same cs (mark_password_verified cs c)) rq ts rl hc.
Proof.
  destruct Hok. constructor; try done; [by apply entries_ok_verified|].
  intros c'. by rewrite role_view_verified.
Qed.

Lemma struct_push c e app id rq' cs' :
  cs !! c = Some e → role e = CR_Admission → push rq c app = Some (Ok (id, rq')) →
  attach_request cs c id = Some cs' → struct_ok ms cs' rq' ts rl hc.
Proof.
  intros He Hrole (Hlen & -> & ->)%push_Ok Hat. destruct Hok.
  pose proof (sok_links0 c) as Hc. rewrite (role_view_lookup _ _ _ He), Hrole in Hc.
  simpl in Hc. injection Hc as Hrc Hmc.
  assert (Hnc : c ∉ (request_connection <$> pending rq)).
  { apply find_first_key_None. unfold request_at in Hrc. by destruct (find_first _ _). }
  constructor; try done; simpl.
  - by eapply entries_ok_set_role.
  - intros c'. rewrite (role_view_set_role _ _ _ _ _ Hat). unfold request_at. simpl.
    case_bool_decide as E.
    + subst c'. rewrite find_first_key_app by done. simpl.
      rewrite bool_decide_eq_true_2 by done. by rewrite <-Hmc.
    + rewrite find_first_key_app_ne by (simpl; congruence). apply sok_links0.
  - rewrite fmap_app. by apply NoDup_snoc.
  - unfold request_ids in *. simpl. rewrite fmap_app, <-(assoc_L (++)). simpl.
    rewrite <-Permutation_middle. apply list.NoDup_cons. split; [|done].
    intros Hin. rewrite list.Forall_forall in sok_req_fresh0.
    specialize (sok_req_fresh0 _ Hin). simpl in *. lia.
  - unfold request_ids in *. simpl. rewrite fmap_app, <-(assoc_L (++)). simpl.
    rewrite <-Permutation_middle. constructor; [lia|].
    eapply list.Forall_impl; [done|]. simpl. lia.
  - unfold queue_len in *. simpl. rewrite length_app. simpl. lia.
Qed.

Lemma struct_set_color id col : struct_ok (set_color ms id col) cs rq ts rl hc.
Proof.
  destruct Hok. constructor; try done.
  - by apply set_color_ok.
  - by apply set_color_host_row.
  - intros c. by rewrite member_at_set_color.
  - intros i Hi. by apply by_id_set_color, sok_rates0.
Qed.

Lemma struct_rate id l : is_Some (by_id ms id) → struct_ok ms cs rq ts (<[id := l]> rl) hc.
Proof.
  intros Hid. destruct Hok. constructor; try done. intros i Hi.
  destruct (decide (i = id)) as [->|]; [done|].
  rewrite lookup_insert_ne in Hi by done. auto.
Qed.

(** Dropping timeout requests. *)
Lemma struct_timeouts_sublist ts' :
  ts' `sublist_of` ts → struct_ok ms cs rq ts' rl hc.
Proof.
  intros Hs. destruct Hok. unfold request_ids in *.
  assert (Hs' : (pt_request_id <$> ts') `sublist_of` (pt_request_id <$> ts))
    by (by apply fmap_sublist).
  constructor; try done.
  - unfold request_ids. eapply sublist_NoDup; [done|]. by apply sublist_app.
  - unfold request_ids. apply list.Forall_app in sok_req_fresh0 as [H1 H2].
    apply list.Forall_app. split; [done|]. rewrite list.Forall_forall in *.
    intros i Hi. apply H2. by eapply elem_of_sublist.
  - apply sublist_length in Hs. lia.
Qed.

Lemma struct_push_timeout id rq' t :
  allocate_id rq = Some (id, rq') → pt_request_id t = id →
  (queue_len rq + N.of_nat (length ts) < queue_limit rq)%N →
  struct_ok ms cs rq' (ts ++ [t]) rl hc.
Proof.
  intros (-> & _ & ->)%allocate_id_Some Ht Hlen. destruct Hok.
  unfold request_ids in *. constructor; try done; simpl.
  - unfold request_ids. simpl. rewrite fmap_app, (assoc_L (++)). csimpl. rewrite Ht.
    apply NoDup_snoc; [done|]. intros Hin. rewrite list.Forall_forall in sok_req_fresh0.
    specialize (sok_req_fresh0 _ Hin). simpl in *. lia.
  - unfold request_ids. simpl. rewrite fmap_app, (assoc_L (++)). csimpl. rewrite Ht.
    apply list.Forall_app. split; [|constructor; [lia|constructor]].
    eapply list.Forall_impl; [done|]. simpl. lia.
  - rewrite length_app. simpl. lia.
Qed.

(** Dropping every application and every connection that is not a
    member's. *)
Lemma struct_drop_admissions :
  let cs1 := remove_all cs (request_connection <$> pending rq) in
  struct_ok ms (remove_all cs1 (non_member_ids cs1)) (snd (drain rq)) ts rl hc.
Proof.
  intros cs1. destruct Hok. unfold request_ids in *. constructor; try done; simpl.
  - by apply entries_ok_remove_all, entries_ok_remove_all.
  - intros c. unfold request_at. simpl. unfold role_view, conn_request_id, conn_member_id.
    rewrite remove_non_members_lookup. unfold cs1. rewrite remove_all_lookup.
    pose proof (sok_links0 c) as Hc. unfold role_view, conn_request_id, conn_member_id in Hc.
    assert (Hp : c ∈ (request_connection <$> pending rq) → member_at ms c = None).
    { intros (r & -> & Hr)%list_elem_of_fmap. by apply pending_not_member. }
    case_bool_decide as E2; [by rewrite Hp|].
    destruct (cs !! c) as [e|] eqn:He; [|by injection Hc as _ <-].
    unfold is_member_entry. destruct (role e) eqn:Hr; rewrite ?Hr; by injection Hc as _ <-.
  - apply NoDup_nil_2.
  - by apply list.NoDup_app in sok_req_ids0 as (_ & _ & ?).
  - unfold request_ids. simpl. by apply list.Forall_app in sok_req_fresh0 as [_ ?].
  - unfold queue_len. simpl. lia.
Qed.
End effects.
