(* ===== verification/RoomSafe.v ===== *)
(** Every handler of the room preserves the structural invariant. *)
From S2P Require Export RoomInv.

(** * Computations that leave the population alone *)

Section frames.
Context `{Primitives}.

Lemma keeps_bump : keeps frame bump_sequence.
Proof. unfold bump_sequence. solve_keeps. Qed.
Hint Resolve keeps_bump : keeps.

Lemma keeps_push_membership l : keeps frame (push_membership l).
Proof. unfold push_membership. solve_keeps. Qed.
Hint Resolve keeps_push_membership : keeps.

Lemma keeps_wrap_members {T} (f : RoomActor → T) key ms acts aw :
  keeps f (wrap_members key ms acts aw).
Proof.
  revert acts aw. induction ms as [|m ms IH]; intros; simpl; [auto with keeps|].
  solve_keeps; apply IH.
Qed.
Hint Resolve keeps_wrap_members : keeps.

Lemma keeps_begin acts : keeps frame (begin_epoch_transition acts).
Proof. unfold begin_epoch_transition. solve_keeps. Qed.
Hint Resolve keeps_begin : keeps.

Lemma keeps_on_epoch_ack c e : keeps frame (on_epoch_ack c e).
Proof. unfold on_epoch_ack. solve_keeps. Qed.

Lemma keeps_queue_snapshot c : keeps frame (queue_member_snapshot c).
Proof. unfold queue_member_snapshot. solve_keeps. Qed.
Hint Resolve keeps_queue_snapshot : keeps.

Lemma keeps_queue_joined m : keeps frame (queue_member_joined m).
Proof. unfold queue_member_joined. solve_keeps. Qed.

Lemma keeps_queue_gone id t : keeps frame (queue_member_gone id t).
Proof. unfold queue_member_gone. solve_keeps. Qed.
Hint Resolve keeps_queue_gone : keeps.

Lemma keeps_queue_all_gone ids t : keeps frame (queue_all_gone ids t).
Proof. induction ids; simpl; solve_keeps; done. Qed.

Lemma keeps_close_room : keeps frame close_room.
Proof. unfold close_room. solve_keeps. Qed.

Lemma keeps_chat_plaintext {T} (f : RoomActor → T) i t env : keeps f (chat_plaintext i t env).
Proof. unfold chat_plaintext. solve_keeps. Qed.

Lemma keeps_on_timeout_changed i env p : keeps frame (on_timeout_changed i env p).
Proof. unfold on_timeout_changed. solve_keeps. Qed.

Lemma keeps_on_chat_message {T} (f : RoomActor → T) env p : keeps f (on_chat_message env p).
Proof. unfold on_chat_message. solve_keeps. Qed.

Lemma keeps_reject {T} (f : RoomActor → T) c : keeps f (reject_during_transition c).
Proof. unfold reject_during_transition. solve_keeps. Qed.
End frames.

#[export] Hint Resolve keeps_bump keeps_push_membership keeps_wrap_members keeps_begin
  keeps_on_epoch_ack keeps_queue_snapshot keeps_queue_joined keeps_queue_gone
  keeps_queue_all_gone keeps_close_room keeps_chat_plaintext keeps_on_timeout_changed
  keeps_on_chat_message keeps_reject : keeps.

(** * Handlers *)

Lemma preserves_frame {A} (m : M A) : keeps frame m → preserves room_ok m.
Proof. apply keeps_preserves. apply room_ok_frame. Qed.

(** One step of a [preserves] goal; computations that keep the population
    are discharged. *)
Ltac pres_step :=
  match goal with
  | |- preserves _ (self ≫= _) => apply preserves_self; intros ? ?
  | |- preserves _ (_ ≫= _) => apply preserves_bind; [|intros]
  | |- preserves _ (match ?x with _ => _ end) => destruct x eqn:?
  | |- preserves _ (let _ := _ in _) => cbv zeta
  | |- preserves _ (modify _) => apply preserves_modify; intros
  | |- _ => solve [auto with preserves]
  | |- preserves room_ok _ => solve [apply preserves_frame; auto with keeps]
  end.

(** Leaves the rest of a computation to [preserves], with the invariant of
    the current state as the goal. *)
Ltac rest_preserves :=
  match goal with
  | |- wp ?m _ _ =>
      let Hp := fresh "Hp" in
      assert (preserves room_ok m) as Hp by (repeat pres_step); apply Hp; clear Hp;
      unfold room_ok; simpl
  end.

Section safe.
Context `{Primitives} `{Nfc}.

(** The population part of [remove_member] and [evict]. *)
Lemma room_ok_remove a id m ms :
  room_ok a → Members.remove (ra_members a) id = Some (m, ms) → id ≠ 0%N →
  struct_ok ms (conn_remove (ra_connections a) (connection m)) (ra_requests a)
    (ra_timeout_requests a) (delete id (ra_rate_limits a)) (ra_host_connection a).
Proof. intros. by eapply struct_remove_member. Qed.

Lemma remove_member_ok id t acts : preserves room_ok (remove_member id t acts).
Proof.
  intros [a r] Hs. unfold remove_member. destruct (N.eqb_spec id 0); [by intros _|].
  rewrite wp_self. simpl in *. destruct (Members.remove _ _) as [[m ms]|] eqn:E; [|by intros _].
  rewrite !wp_modify. rest_preserves. by eapply room_ok_remove.
Qed.
Hint Resolve remove_member_ok : preserves.

Lemma evict_ok ids removed acts :
  0%N ∉ ids → preserves room_ok (evict ids removed acts).
Proof.
  revert removed acts. induction ids as [|i ids IH]; intros removed acts Hi; simpl;
    [auto with preserves|].
  apply not_elem_of_cons in Hi as [Hi Hids]. intros [a r] Hs. rewrite wp_self. simpl in *.
  destruct (Members.remove _ _) as [[m ms]|] eqn:E; [|by apply IH].
  rewrite !wp_modify. apply IH; [done|]. unfold room_ok. simpl. by eapply room_ok_remove.
Qed.

Lemma on_epoch_timeout_ok : preserves room_ok on_epoch_timeout.
Proof.
  unfold on_epoch_timeout. repeat first [pres_step | done].
  apply evict_ok. by apply bool_decide_eq_false in Heqb0.
Qed.

Lemma on_join_requested_ok c app : preserves room_ok (on_join_requested c app).
Proof.
  intros [a r] Hs. unfold on_join_requested. rewrite wp_self. cbn [fst snd].
  destruct (negb _); [by intros _|].
  rewrite wp_ok_or. destruct (ra_connections a !! c) as [e|] eqn:Ee; [|by intros _].
  destruct (negb (password_verified e) || _) eqn:Eg; [by intros _|].
  apply orb_false_iff in Eg as [_ Hr]. destruct (role e) eqn:Er; try done.
  rewrite wp_expect. destruct (push _ _ _) as [[[id rq]|]|] eqn:Ep; try (by intros ?).
  rewrite wp_try, wp_modify, wp_self. cbn [fst snd]. rewrite wp_ok_or.
  destruct (set_role_Some (ra_connections a) c (CR_Pending id)) as [cs Hcs]; [eauto|].
  unfold attach_request. cbn. rewrite Hcs. rewrite wp_modify.
  rest_preserves. by eapply struct_push.
Qed.

Lemma room_ok_timeouts a ts :
  room_ok a → ts `sublist_of` ra_timeout_requests a → room_ok (put_timeout_requests ts a).
Proof. intros. by eapply struct_timeouts_sublist. Qed.

Lemma remove_first_sublist {A} (p : A → bool) l x l' :
  remove_first p l = Some (x, l') → l' `sublist_of` l.
Proof.
  intros (_ & l1 & l2 & -> & -> & _)%remove_first_Some.
  apply sublist_app; [done|]. by apply sublist_cons.
Qed.

Lemma filter_sublist {A} (p : A → bool) l : List.filter p l `sublist_of` l.
Proof.
  induction l as [|x l IH]; simpl; [done|].
  destruct (p x); [by apply sublist_skip|by apply sublist_cons].
Qed.

Lemma take_timeout_request_ok id : preserves room_ok (take_timeout_request id).
Proof.
  intros [a r] Hs. unfold take_timeout_request. rewrite wp_self. simpl.
  destruct (remove_first _ _) as [[t ts]|] eqn:E; [|by intros _].
  rewrite wp_modify. intros _. apply room_ok_timeouts; [done|].
  by eapply remove_first_sublist.
Qed.
Hint Resolve take_timeout_request_ok : preserves.

Lemma on_accept_ok id : preserves room_ok (on_accept id).
Proof.
  unfold on_accept. apply preserves_bind; [apply take_timeout_request_ok|].
  intros [t|]; [repeat pres_step|]. intros [a r] Hs. unfold take_join_request.
  rewrite wp_bind, wp_self, wp_try. cbn [fst snd].
  destruct (take_request _ _) as [[req rq]|] eqn:Et; [|by destruct e; intros _].
  rewrite wp_modify, wp_ret. simpl. rewrite wp_self, wp_expect.
  destruct (succ_u64 _); [|by intros ?]. rewrite wp_expect.
  destruct (add _ _ _ _ _ _) as [[[m ms]|e]|] eqn:Ea; [| |by intros ?].
  - rewrite !wp_modify. rest_preserves. by eapply struct_add_member.
  - rewrite wp_modify. rest_preserves. by eapply struct_drop_request.
Qed.

Lemma on_reject_ok id : preserves room_ok (on_reject id).
Proof.
  unfold on_reject. apply preserves_bind; [apply take_timeout_request_ok|].
  intros [t|]; [repeat pres_step|]. intros [a r] Hs. unfold take_join_request.
  rewrite wp_bind, wp_self, wp_try. cbn [fst snd].
  destruct (take_request _ _) as [[req rq]|] eqn:Et; [|by destruct e; intros _].
  rewrite wp_modify, wp_ret. simpl. rewrite wp_modify. rest_preserves.
  by eapply struct_drop_request.
Qed.

Lemma on_leave_ok c : preserves room_ok (on_leave c).
Proof. unfold on_leave. repeat pres_step. Qed.

Lemma on_kick_ok t : preserves room_ok (on_kick t).
Proof. unfold on_kick. repeat pres_step. Qed.

Lemma on_member_left_ok id : preserves room_ok (on_member_left id).
Proof. unfold on_member_left. repeat pres_step. Qed.

Lemma on_color_ok c col : preserves room_ok (on_color c col).
Proof. unfold on_color. repeat pres_step; by apply struct_set_color. Qed.

Lemma drop_admissions_ok : preserves room_ok drop_admissions.
Proof.
  intros [a r] Hs. unfold drop_admissions. rewrite wp_self. cbn [drain].
  rewrite !wp_modify, wp_self, wp_modify. rest_preserves.
  by apply (struct_drop_admissions _ _ _ _ _ _ Hs).
Qed.
Hint Resolve drop_admissions_ok : preserves.

Lemma on_new_id_ok : preserves room_ok on_new_id.
Proof. unfold on_new_id. repeat pres_step; done. Qed.

Lemma set_policy_ok p : preserves room_ok (set_policy p).
Proof. unfold set_policy. repeat pres_step; done. Qed.

(** What [remove_member] does to the population, on each branch. *)
Lemma remove_member_wp id t acts Q a r :
  (id = 0%N → Q (Fail RE_HostCannotLeave) (a, r)) →
  (id ≠ 0%N → Members.remove (ra_members a) id = None → Q (Done (None, acts)) (a, r)) →
  (∀ m ms o s', id ≠ 0%N → Members.remove (ra_members a) id = Some (m, ms) →
    frame s'.1 = (ms, conn_remove (ra_connections a) (connection m), ra_requests a,
                  ra_timeout_requests a, delete id (ra_rate_limits a), ra_host_connection a) →
    (∀ p, o = Done p → p.1 = Some m) → Q o s') →
  wp (remove_member id t acts) Q (a, r).
Proof.
  intros H1 H2 H3. unfold remove_member. destruct (N.eqb_spec id 0); [by apply H1|].
  rewrite wp_self. simpl. destruct (Members.remove _ _) as [[m ms]|] eqn:E; [|by apply H2].
  rewrite !wp_modify. simpl. rewrite wp_bind.
  eapply keeps_wp; [apply keeps_begin|]. intros [acts'|e|] s' Hf; simpl; try (by eapply H3).
  rewrite wp_bind. eapply keeps_wp; [apply keeps_queue_gone|].
  intros [u|e|] s'' Hf'; simpl; rewrite Hf in Hf'; try (by eapply H3).
  eapply H3; [done..|]. by intros p [= <-].
Qed.

(** The member and the request a connection names exist. *)
Lemma member_at_removable a c id :
  room_ok a → member_at (ra_members a) c = Some id →
  ∃ m ms, Members.remove (ra_members a) id = Some (m, ms) ∧ connection m = c.
Proof.
  intros [] (k & Hk & <- & <-)%member_at_Some.
  assert (by_id (ra_members a) (member_id k) = Some k) as Hby by (by apply by_id_elem).
  destruct (Members.remove _ _) as [[m ms]|] eqn:E.
  - apply remove_Some in E as (E & _). rewrite Hby in E. injection E as <-. eauto.
  - apply remove_None in E. congruence.
Qed.

Lemma request_at_takeable a c id :
  room_ok a → request_at (ra_requests a) c = Some id →
  ∃ q rq, take_request (ra_requests a) id = Ok (q, rq) ∧ request_connection q = c.
Proof.
  intros [] (q & Hq & <- & <-)%request_at_Some.
  assert (Hnd : NoDup (request_id <$> pending (ra_requests a)))
    by (unfold request_ids in *; by apply list.NoDup_app in sok_req_ids as (? & _)).
  pose proof (find_first_key_unique request_id _ _ Hnd Hq) as E. unfold take_request.
  destruct (remove_first _ _) as [[q' rq]|] eqn:Er.
  - apply remove_first_Some in Er as (Er & _). rewrite E in Er. injection Er as <-. eauto.
  - apply remove_first_None in Er. congruence.
Qed.

(** The tail of [on_connection_lost]: the connection is forgotten. *)
Lemma forget_ok c (acts : list RoomAction) a r :
  room_ok a → member_at (ra_members a) c = None → request_at (ra_requests a) c = None →
  wp (modify (λ a, put_connections (conn_remove (ra_connections a) c) a);; (mret acts : M _))
    (λ o s', o ≠ Panic → room_ok s'.1) (a, r).
Proof. intros H1 H2 H3. rewrite wp_modify. intros _. by apply struct_conn_remove. Qed.

(** [on_connection_lost] past its host and timeout-request parts. *)
Definition lost_participant (c : ConnectionId) (actions : list RoomAction) (a : RoomActor)
    : M (list RoomAction) :=
  match
    match conn_member_id (ra_connections a) c with
    | Some id => Some id
    | None => member_id <$> by_connection (ra_members a) c
    end
  with
  | Some member_id =>
      r ← remove_member member_id MSG_MEMBER_LEFT actions;
      match fst r with
      | Some member => mret (snd r ++ [NotifyHost (HN_MemberLeft member_id (nickname member))])
      | None => mret (snd r)
      end
  | None =>
      match conn_request_id (ra_connections a) c with
      | Some request_id =>
          match take_request (ra_requests a) request_id with
          | Ok (_, requests) =>
              modify (put_requests requests);;
              mret (actions ++ [NotifyHost (HN_JoinRequestWithdrawn request_id)])
          | Err _ => mret actions
          end
      | None => mret actions
      end
  end.

Lemma lost_participant_ok c acts a r :
  room_ok a →
  wp (acts ← lost_participant c acts a;
      modify (λ a, put_connections (conn_remove (ra_connections a) c) a);; mret acts)
    (λ o s', o ≠ Panic → room_ok s'.1) (a, r).
Proof.
  intros Hs. rewrite wp_bind. unfold lost_participant.
  rewrite (conn_member_id_at _ _ _ _ _ _ Hs), (conn_request_id_at _ _ _ _ _ _ Hs).
  replace (match member_at (ra_members a) c with Some id => Some id | None => _ end)
    with (member_at (ra_members a) c) by (unfold member_at; by destruct (by_connection _ _)).
  destruct (member_at (ra_members a) c) as [id|] eqn:Em.
  - destruct (member_at_removable _ _ _ Hs Em) as (m & ms & Hrm & Hc).
    rewrite wp_bind. apply remove_member_wp; [by intros _ _|congruence|].
    intros m' ms' o [a' r'] Hid Hrm' Hf Ho. rewrite Hrm in Hrm'. injection Hrm' as <- <-.
    pose proof (struct_remove_member _ _ _ _ _ _ Hs _ _ _ Hrm Hid) as Hs'.
    assert (Hok' : room_ok a') by (unfold room_ok; by injection Hf as -> -> -> -> -> ->).
    destruct o as [[x acts']|e|]; [|by intros _|by intros ?].
    specialize (Ho _ eq_refl). simpl in *. subst x.
    injection Hf as Hms _ Hrq _ _ _. apply forget_ok; [done| |].
    + rewrite Hms. destruct Hs. rewrite (member_at_remove _ _ _ _ c sok_table Hrm).
      by rewrite bool_decide_eq_true_2.
    + rewrite Hrq. pose proof (view_member _ _ _ _ _ _ Hs _ _ Em) as Hv.
      rewrite (sok_links _ _ _ _ _ _ Hs) in Hv. by injection Hv as -> _.
  - destruct (request_at (ra_requests a) c) as [i|] eqn:Er; [|by apply forget_ok].
    destruct (request_at_takeable _ _ _ Hs Er) as (q & rq & Hq & <-). rewrite Hq.
    rewrite wp_modify, wp_ret. simpl. rewrite wp_modify. intros _.
    unfold room_ok. simpl. by eapply struct_drop_request.
Qed.

Lemma on_connection_lost_ok c : preserves room_ok (on_connection_lost c).
Proof.
  intros [a r] Hs. unfold on_connection_lost. rewrite wp_self. cbn [fst snd].
  destruct (c =? _)%N; [by apply preserves_frame; auto with keeps|].
  rewrite wp_modify. cbn [fst snd]. set (l := _ <$> List.filter _ _). clearbody l.
  apply (lost_participant_ok c l (put_timeout_requests _ a)).
  by apply room_ok_timeouts, filter_sublist.
Qed.
Hint Resolve on_accept_ok on_reject_ok on_leave_ok on_kick_ok on_member_left_ok on_color_ok
  on_new_id_ok set_policy_ok on_connection_lost_ok on_join_requested_ok
  on_epoch_timeout_ok : preserves.

(** ** Chat *)

Lemma rate_limit_ok c id :
  ∀ s, room_ok s.1 → is_Some (by_id (ra_members s.1) id) →
  wp (rate_limit c id) (λ o s', o ≠ Panic → room_ok s'.1) s.
Proof.
  intros [a r] Hs Hid. unfold rate_limit. rewrite wp_self, wp_expect. simpl in *.
  destruct (allow _ _) as [[ok l]|]; [|by intros ?]. rewrite wp_modify. rest_preserves.
  by apply struct_rate.
Qed.

Lemma on_color_message_ok id env p : preserves room_ok (on_color_message id env p).
Proof. unfold on_color_message. repeat pres_step; by apply struct_set_color. Qed.

Lemma on_timeout_request_ok c id p : preserves room_ok (on_timeout_request c id p).
Proof.
  intros [a r] Hs. unfold on_timeout_request.
  destruct (id =? 0)%N; [by intros _|]. destruct (negb _); [by intros _|]. cbv zeta.
  destruct (negb _); [by intros _|]. rewrite wp_self. cbn [fst snd].
  destruct (N.leb_spec (queue_limit (ra_requests a))
    (queue_len (ra_requests a) + N.of_nat (length (ra_timeout_requests a)))); [by intros _|].
  rewrite wp_expect. destruct (by_id _ _) as [m|]; [|by intros ?].
  rewrite wp_expect. destruct (allocate_id _) as [[i rq]|] eqn:E; [|by intros ?].
  rewrite !wp_modify. intros _. unfold room_ok. simpl.
  eapply struct_push_timeout; [exact Hs|exact E|done|done].
Qed.
Hint Resolve on_color_message_ok on_timeout_request_ok : preserves.

Lemma on_chat_received_ok c t env : preserves room_ok (on_chat_received c t env).
Proof.
  intros [a r] Hs. unfold on_chat_received, chat_checked. destruct (negb _); [by intros _|].
  rewrite wp_self, wp_ok_or. cbn [fst snd].
  destruct (conn_member_id _ _) as [id|]; [|by intros _].
  destruct (negb _); [by intros _|]. rewrite wp_ok_or.
  destruct (by_id _ _) as [m|] eqn:Em; [|by intros _].
  rewrite wp_bind. eapply wp_mono; cycle 1.
  - destruct (is_rate_limited t); [apply rate_limit_ok; [done|simpl; eauto]|by intros _].
  - intros [x|e|] s' Hs'; simpl; [|by intros _; apply Hs'|by intros ?].
    match goal with |- wp ?m _ _ => assert (preserves room_ok m) as Hp; [|apply Hp; by apply Hs'] end.
    repeat first [pres_step | done].
Qed.
Hint Resolve on_chat_received_ok : preserves.

Lemma handle_event_at_ok ev now : preserves room_ok (handle_event_at ev now).
Proof.
  unfold handle_event_at, handle_in_transition, handle_active, on_host_command, on_member_command.
  repeat first [pres_step | done | by apply struct_register | by apply struct_verified].
Qed.

(** ** Reachable rooms *)

Lemma create_Ok limits hc n hid mid ts rng a rng' :
  create limits hc n hid mid ts rng = (Ok a, rng') →
  ∃ n', validate_nickname n limits = Ok n' ∧
  ra_members a = snd (add_host (MemberTable_new limits) hc n'
    (member_ed25519_pubkey mid) (member_x25519_pubkey mid)) ∧
  ra_connections a = ∅ ∧ ra_requests a = JoinRequestQueue_new limits ∧
  ra_timeout_requests a = [] ∧ ra_rate_limits a = ∅ ∧ ra_host_connection a = hc ∧
  ra_state a = RS_Creating ∧ ra_policy a = JP_Open ∧ ra_epoch a = 0%N ∧
  ra_epoch_key a = None ∧ ra_pending_epoch a = None ∧ ra_room_sequence a = 0%N ∧
  ra_chat_replay a = ∅ ∧ ra_pending_membership a = [] ∧ ra_now a = 0%N ∧
  ra_host_identity a = hid ∧ ra_timeouts a = ts.
Proof.
  unfold create. destruct (validate_nickname n limits) as [n'|]; [|done].
  destruct (RoomSessionId_generate rng) as [[sid|] r1]; [|done].
  destruct (random_bytes 32 r1) as [[tok|] r2]; [|done]. intros [= <- <-].
  exists n'. done.
Qed.

Lemma start_ok limits hc n hid mid ts rng a r o s' :
  create limits hc n hid mid ts rng = (Ok a, r) → start (a, r) = (o, s') → room_ok s'.1.
Proof.
  intros (n' & _ & Hms & Hcs & Hrq & Hts & Hrl & Hhc & Hst & _)%create_Ok Hrun.
  eapply (wp_run _ (λ _ s, room_ok s.1)); [exact Hrun|]. clear Hrun.
  unfold start. rewrite wp_self. cbn [fst snd].
  rewrite Hst, bool_decide_eq_true_2 by done. cbn [negb]. rewrite !wp_modify, wp_self.
  eapply keeps_wp; [apply keeps_begin|]. intros _ [a' r'] Hf.
  unfold frame in Hf. simpl in Hf. rewrite Hms, Hcs, Hrq, Hts, Hrl, Hhc in Hf.
  simpl in *. unfold room_ok. injection Hf as -> -> -> -> -> ->.
  assert (Hreg : register ∅ hc = {[hc := {| entry_id := hc; password_verified := false;
    role := CR_Admission |}]}) by (unfold register; by rewrite lookup_empty).
  destruct (set_role_Some (register ∅ hc) hc (CR_Member 0)) as [cs Hcs'];
    [by rewrite Hreg, lookup_singleton_eq|].
  unfold promote. rewrite Hcs'. simpl. constructor; simpl.
  - constructor; csimpl; try (apply NoDup_singleton); repeat constructor; try done.
    unfold table_len. simpl. lia.
  - eexists _, []. done.
  - eapply entries_ok_set_role; [|done]. apply entries_ok_register. done.
  - intros c. rewrite (role_view_set_role _ _ _ _ _ Hcs'), role_view_register.
    unfold request_at, member_at, by_connection. simpl. unfold key_is. simpl.
    case_bool_decide; case_bool_decide; subst; done.
  - constructor.
  - constructor.
  - constructor.
  - unfold queue_len. simpl. lia.
  - lia.
  - intros i Hi. rewrite lookup_empty in Hi. by destruct Hi.
Qed.

(** The rooms of the program: [create] and [start], then events among
    [Ev]; an event may fail, and the state it leaves is the one the next
    event meets. *)
Inductive reachable (limits : Limits) (hid : HostIdentity) (mid : MemberIdentity)
    (Ev : RoomEvent → Prop) : St → Prop :=
| reach_start hc n ts rng a r acts s :
    create limits hc n hid mid ts rng = (Ok a, r) → start (a, r) = (Done acts, s) →
    reachable limits hid mid Ev s
| reach_event s ev now o s' :
    reachable limits hid mid Ev s → Ev ev → handle_event_at ev now s = (o, s') → o ≠ Panic →
    reachable limits hid mid Ev s'.

(** Any number of events, failed ones included. *)
Inductive steps : St → St → Prop :=
| steps_refl s : steps s s
| steps_event s ev now o s' s'' :
    handle_event_at ev now s = (o, s') → o ≠ Panic → steps s' s'' → steps s s''.

(** An invariant of the started room that every admissible event
    preserves holds in every reachable one. *)
Lemma reachable_ind_inv limits hid mid (Ev : RoomEvent → Prop) (I : RoomActor → Prop) :
  (∀ hc n ts rng a r acts s, create limits hc n hid mid ts rng = (Ok a, r) →
     start (a, r) = (Done acts, s) → I s.1) →
  (∀ ev now, Ev ev → preserves (λ a, room_ok a ∧ I a) (handle_event_at ev now)) →
  ∀ s, reachable limits hid mid Ev s → room_ok s.1 ∧ I s.1.
Proof.
  intros H1 H2. induction 1 as [|s ev now o s' _ IH Hev Hrun Ho].
  - split; [by eapply start_ok|by eapply H1].
  - pose proof (H2 ev now Hev s IH) as Hp. unfold wp in Hp. rewrite Hrun in Hp. by apply Hp.
Qed.

Lemma reachable_room_ok limits hid mid Ev s : reachable limits hid mid Ev s → room_ok s.1.
Proof.
  induction 1 as [|s ev now o s' _ IH _ Hrun Ho]; [by eapply start_ok|].
  pose proof (handle_event_at_ok ev now s IH) as Hp. unfold wp in Hp.
  rewrite Hrun in Hp. by apply Hp.
Qed.
End safe.
