(* ===== verification/RoomVetted.v ===== *)
(** Where the members of a room come from: every pending application and
    every member but the host was, word for word, an application the room was
    handed as an event, and every member's was accepted while it was pending;
    and ids are given out once. Both are instances of one invariant of the
    tables along the room's events. *)
From S2P Require Export RoomSafe.

(** Only the population matters. *)
Definition population (a : RoomActor) := (ra_members a, pending (ra_requests a)).

(** The member that comes of a request. *)
Record admitted_as (q : JoinRequest) (m : Member) : Prop := {
  aa_connection : connection m = request_connection q;
  aa_nickname : nickname m = app_nickname (application q);
  aa_ed25519 : ed25519_pubkey m = app_ed25519_pubkey (application q);
  aa_x25519 : x25519_pubkey m = app_x25519_pubkey (application q);
  aa_guest : is_host m = false;
}.

(** The requests an event accepts. *)
Definition accepts_request (ev : RoomEvent) : option RequestId :=
  match ev with EV_HostAccepted id | EV_HostCommand (HC_Accept id) => Some id | _ => None end.

Section vetted.
Context `{Primitives} `{Nfc}.

(** What is known of a request, of a member and of an accepted request; a
    member keeps it whatever its color, and one that comes of an accepted
    request has it. *)
Context (Rok : JoinRequest → Prop) (Mok : Member → Prop) (Adm : JoinRequest → Prop).

(** Ids below this one are not given out any more. *)
Context (floor : MemberId).

Definition colorless : Prop := ∀ c m, Mok m → Mok (set_color_of c m).
Definition admits_ok : Prop := ∀ q m, Rok q → Adm q → admitted_as q m → (floor <= member_id m)%N → Mok m.

Context (Hcolor : colorless) (Hadm : admits_ok).

Definition vetted (a : RoomActor) : Prop :=
  Forall Mok (table_members (ra_members a)) ∧ Forall Rok (pending (ra_requests a)) ∧
  (floor <= table_next_id (ra_members a))%N.

Lemma vetted_population a a' : population a = population a' → vetted a → vetted a'.
Proof. unfold population, vetted. by intros [= -> ->]. Qed.

Lemma frame_population {A} (m : M A) : keeps frame m → keeps population m.
Proof.
  intros Hm s. specialize (Hm s). unfold frame, population in *. by injection Hm as -> _ -> _ _ _.
Qed.

Lemma preserves_population {A} (m : M A) : keeps population m → preserves vetted m.
Proof. apply keeps_preserves. apply vetted_population. Qed.

Lemma preserves_frame_vetted {A} (m : M A) : keeps frame m → preserves vetted m.
Proof. intros Hm. by apply preserves_population, frame_population. Qed.

(** A change that forgets a member. *)
Lemma vetted_remove a id m ms f :
  Members.remove (ra_members a) id = Some (m, ms) → vetted a →
  (∀ b, ra_members (f b) = ra_members b ∧ pending (ra_requests (f b)) = pending (ra_requests b)) →
  vetted (f (put_members ms a)).
Proof.
  intros (_ & Hp & _ & _ & Hn)%remove_Some (H1 & H2 & H3) Hf. unfold vetted. destruct (Hf (put_members ms a)) as [-> ->].
  split_and!; [|done|cbn; by rewrite Hn]. rewrite Hp in H1. by apply list.Forall_cons in H1 as [_ ?].
Qed.

Lemma vetted_color a id c : vetted a → vetted (put_members (set_color (ra_members a) id c) a).
Proof.
  intros (H1 & H2 & H3). split_and!; [|done|done]. cbn. clear H2 H3. induction H1 as [|m ms Hm Hms IH]; [constructor|]. simpl.
  destruct (key_is _ _ _); constructor; auto.
Qed.

Ltac vet_step :=
  match goal with
  | |- preserves _ (self ≫= _) => apply preserves_self; intros ? ?
  | |- preserves _ (_ ≫= _) => apply preserves_bind; [|intros]
  | |- preserves _ (match ?x with _ => _ end) => destruct x eqn:?
  | |- preserves _ (let _ := _ in _) => cbv zeta
  | |- preserves vetted (modify _) => solve [apply preserves_population, keeps_modify; intros; reflexivity]
  | |- preserves _ (modify _) => apply preserves_modify; intros
  | |- _ => solve [auto with preserves]
  | |- preserves vetted _ => solve [apply preserves_frame_vetted; auto with keeps]
  | |- preserves vetted _ => solve [apply preserves_population; auto with keeps]
  end.

Lemma remove_member_vetted id t acts : preserves vetted (remove_member id t acts).
Proof.
  intros [a r] Hv. apply remove_member_wp; [by intros _ _|by intros _ _ _|].
  intros m ms o s' _ Hrm Hf _ _. unfold frame in Hf. injection Hf as Hms _ Hrq _ _ _.
  eapply vetted_population; [|apply (vetted_remove a id m ms (λ b, b) Hrm Hv); done].
  unfold population. by rewrite Hms, Hrq.
Qed.
Hint Resolve remove_member_vetted : preserves.

Lemma evict_vetted ids removed acts : preserves vetted (evict ids removed acts).
Proof.
  revert removed acts. induction ids as [|i ids IH]; intros removed acts; simpl; [auto with preserves|].
  intros [a r] Hs. rewrite wp_self. simpl in *.
  destruct (Members.remove _ _) as [[m ms]|] eqn:E; [|by apply IH].
  rewrite !wp_modify. apply IH. cbn [fst snd].
  by apply (vetted_remove a i m ms (λ b, put_rate_limits _ (put_connections _ b)) E Hs).
Qed.
Hint Resolve evict_vetted : preserves.

Lemma on_epoch_timeout_vetted : preserves vetted on_epoch_timeout.
Proof. unfold on_epoch_timeout. repeat vet_step. Qed.

Lemma on_join_requested_vetted c app :
  (∀ id, Rok {| request_id := id; request_connection := c; application := app |}) →
  preserves vetted (on_join_requested c app).
Proof.
  intros Happ. unfold on_join_requested. do 2 vet_step; [vet_step|]. vet_step; [vet_step|]. vet_step; [vet_step|].
  intros [b r] Hb. cbn [fst] in Hb. rewrite wp_expect. destruct (push (ra_requests a) c app) as [[[id q]|]|] eqn:E; [| |by intros ?];
    rewrite wp_try; [|by intros _].
  rewrite wp_modify. cbn [fst snd]. apply push_Ok in E as (_ & _ & ->).
  match goal with |- wp ?m _ _ => assert (preserves vetted m) as Hp; [repeat vet_step|] end.
  apply Hp. cbn [fst]. destruct H1 as (_ & Hr & _), Hb as (Hm & _ & Hn). split_and!; [exact Hm| |exact Hn]. cbn.
  apply list.Forall_app. split; [done|]. by constructor.
Qed.

Lemma keeps_population_take id : keeps population (take_timeout_request id).
Proof. unfold take_timeout_request. solve_keeps. Qed.

Lemma take_timeout_request_vetted id : preserves vetted (take_timeout_request id).
Proof. apply preserves_population, keeps_population_take. Qed.
Hint Resolve take_timeout_request_vetted : preserves.

Lemma vetted_take a id q rq :
  take_request (ra_requests a) id = Ok (q, rq) → vetted a →
  Rok q ∧ vetted (put_requests rq a) ∧ q ∈ pending (ra_requests a) ∧ request_id q = id.
Proof.
  unfold take_request. destruct (remove_first _ _) as [[q' rs]|] eqn:E; [|done]. intros [= <- <-] (Hm & Hr & Hn).
  apply remove_first_Some in E as (Hf & l1 & l2 & Hl & -> & _). apply find_first_key_Some in Hf as [Hin Hid].
  unfold vetted. cbn. rewrite Hl in Hr. apply list.Forall_app in Hr as [H1 [H2 H3]%list.Forall_cons].
  split_and!; try done. by apply list.Forall_app.
Qed.

Lemma on_accept_vetted id s :
  (∀ q, q ∈ pending (ra_requests s.1) → request_id q = id → Adm q) → vetted s.1 →
  wp (on_accept id) (λ o s', o ≠ Panic → vetted s'.1) s.
Proof.
  intros Hacc Hs. unfold on_accept. rewrite wp_bind. eapply keeps_wp; [apply keeps_population_take|].
  intros o [a r] Hpop. pose proof (vetted_population _ _ (eq_sym Hpop) Hs) as Hv. unfold population in Hpop. injection Hpop as _ Hq.
  cbn [fst] in *. destruct o as [[t|]|e|]; cbn [bind_post]; [by intros _| |by intros _|by intros ?].
  unfold take_join_request. rewrite wp_bind, wp_self, wp_try. cbn [fst snd].
  destruct (take_request _ _) as [[req rq]|] eqn:Et; [|by destruct e; intros _].
  rewrite wp_modify, wp_ret. simpl. rewrite wp_self, wp_expect.
  destruct (vetted_take _ _ _ _ Et Hv) as (Happ & Hv' & Hin & Hid). rewrite Hq in Hin.
  destruct (succ_u64 _); [|by intros ?]. rewrite wp_expect.
  destruct (add _ _ _ _ _ _) as [[[m ms]|e]|] eqn:Ea; [| |by intros ?].
  - rewrite wp_modify. match goal with |- wp ?m _ _ => assert (preserves vetted m) as Hp; [repeat vet_step|] end.
    apply Hp. destruct Hv' as (Hm & Hr & Hn). apply add_Ok in Ea as (_ & _ & _ & _ & _ & Hmem & -> & _). cbn in *.
    split_and!; [|exact Hr|cbn; lia]. apply list.Forall_app. split; [done|]. constructor; [|done].
    apply (Hadm req); [done|by apply Hacc|by rewrite Hmem|by rewrite Hmem].
  - rewrite wp_modify. match goal with |- wp ?m _ _ => assert (preserves vetted m) as Hp; [repeat vet_step|] end.
    by apply Hp.
Qed.

Lemma take_join_request_vetted id : preserves vetted (take_join_request id).
Proof.
  intros [a r] Hs. unfold take_join_request. rewrite wp_self, wp_try. cbn [fst snd].
  destruct (take_request _ _) as [[req rq]|] eqn:Et; [|by destruct e; intros _]. rewrite wp_modify, wp_ret.
  intros _. by apply (vetted_take _ _ _ _ Et Hs).
Qed.
Hint Resolve take_join_request_vetted : preserves.

Lemma drop_admissions_vetted : preserves vetted drop_admissions.
Proof.
  unfold drop_admissions. vet_step. cbn [drain]. repeat vet_step.
  match goal with Hv : vetted ?b |- vetted (put_requests _ ?b) => destruct Hv as (Hm & _ & Hn) end.
  split_and!; [exact Hm|apply list.Forall_nil_2|exact Hn].
Qed.
Hint Resolve drop_admissions_vetted : preserves.

Lemma on_color_vetted c col : preserves vetted (on_color c col).
Proof. unfold on_color. repeat vet_step. by apply vetted_color. Qed.

Lemma on_connection_lost_vetted c : preserves vetted (on_connection_lost c).
Proof.
  unfold on_connection_lost. repeat vet_step.
  match goal with E : take_request _ _ = _ |- _ => eapply vetted_take in E; [|done]; destruct E as (_ & (_ & E & _) & _) end.
  match goal with Hv : vetted ?b |- vetted (put_requests _ ?b) => destruct Hv as (Hm & _ & Hn) end.
  by split_and!.
Qed.

Lemma rate_limit_vetted c id : preserves vetted (rate_limit c id).
Proof. unfold rate_limit. repeat vet_step. Qed.
Hint Resolve rate_limit_vetted : preserves.

Lemma on_timeout_request_vetted c id p : preserves vetted (on_timeout_request c id p).
Proof.
  intros [a r] Hs. unfold on_timeout_request.
  destruct (id =? 0)%N; [by intros _|]. destruct (negb _); [by intros _|]. cbv zeta.
  destruct (negb _); [by intros _|]. rewrite wp_self. cbn [fst snd].
  destruct (_ <=? _)%N; [by intros _|]. rewrite wp_expect. destruct (by_id _ _) as [m|]; [|by intros ?].
  rewrite wp_expect. destruct (allocate_id _) as [[i rq]|] eqn:E; [|by intros ?].
  rewrite !wp_modify. intros _. apply allocate_id_Some in E as (_ & _ & ->). by apply Hs.
Qed.
Hint Resolve on_timeout_request_vetted : preserves.

Lemma on_chat_received_vetted c t env : preserves vetted (on_chat_received c t env).
Proof.
  unfold on_chat_received, chat_checked, on_color_message. repeat vet_step. by apply vetted_color.
Qed.

Hint Resolve on_epoch_timeout_vetted on_join_requested_vetted on_color_vetted
  on_connection_lost_vetted on_chat_received_vetted : preserves.

(** What an event brings: an application, and the acceptance of the pending
    request that has its id. *)
Definition event_vetted (a : RoomActor) (ev : RoomEvent) : Prop :=
  match ev with
  | EV_JoinRequested c nickname introduction ed x signature =>
      ∀ id, Rok {| request_id := id; request_connection := c; application :=
        {| app_nickname := nickname; app_introduction := introduction;
           app_ed25519_pubkey := ed; app_x25519_pubkey := x; app_signature := signature |} |}
  | _ => True
  end ∧
  ∀ id q, accepts_request ev = Some id → q ∈ pending (ra_requests a) → request_id q = id → Adm q.

Lemma handle_event_at_vetted ev now s :
  event_vetted s.1 ev → vetted s.1 → wp (handle_event_at ev now) (λ o s', o ≠ Panic → vetted s'.1) s.
Proof.
  intros [Hev Hacc] Hs.
  destruct (accepts_request ev) as [id|] eqn:Ea.
  - assert (Hv : vetted (put_now now s.1)) by done.
    assert (Hrun : wp (on_accept id) (λ o s', o ≠ Panic → vetted s'.1) (put_now now s.1, s.2)).
    { apply on_accept_vetted; [|done]. intros q. by apply Hacc. }
    unfold handle_event_at. rewrite wp_modify, wp_self. cbn [fst snd].
    destruct ev as [| | | | | | | |[]| | | | | |]; try done; injection Ea as ->; destruct (ra_state _); try (by intros _); exact Hrun.
  - enough (preserves vetted (handle_event_at ev now)) as Hp by by apply Hp.
    unfold handle_event_at, handle_in_transition, handle_active, on_host_command, on_member_command,
      on_kick, on_leave, on_member_left, on_reject, on_new_id, set_policy.
    destruct ev as [| | | | | | | |[]| | | | | |]; try discriminate Ea; repeat vet_step.
Qed.

Lemma vetted_step ev now s o s' :
  event_vetted s.1 ev → vetted s.1 → handle_event_at ev now s = (o, s') → o ≠ Panic → vetted s'.1.
Proof. intros Hev Hs Hrun. pose proof (handle_event_at_vetted ev now s Hev Hs) as Hp. unfold wp in Hp. by rewrite Hrun in Hp. Qed.
End vetted.

Lemma vetted_mono (Rok Rok' : JoinRequest → Prop) (Mok Mok' : Member → Prop) floor a :
  (∀ q, Rok q → Rok' q) → (∀ m, Mok m → Mok' m) → vetted Rok Mok floor a → vetted Rok' Mok' floor a.
Proof. intros Hr Hm (H1 & H2 & H3). split_and!; [..|done]; by eapply list.Forall_impl. Qed.

(** * The members of a room *)

Section members.
Context `{Primitives} `{Nfc}.
Context (Rok Adm : JoinRequest → Prop) (host_key : list byte).

(** A member came of a request that was accepted; the host's key is the
    room's. *)
Definition member_vetted (m : Member) : Prop :=
  if is_host m then x25519_pubkey m = host_key else ∃ q, Rok q ∧ Adm q ∧ admitted_as q m.

Lemma member_vetted_color : colorless member_vetted.
Proof.
  intros c m. unfold member_vetted. cbn. destruct (is_host m) eqn:E; [done|].
  intros (q & Hr & Ha & []). exists q. by split_and!.
Qed.

Lemma member_vetted_admits floor : admits_ok Rok member_vetted Adm floor.
Proof. intros q m Hr Ha Hm _. unfold member_vetted. rewrite (aa_guest _ _ Hm). by exists q. Qed.

Lemma created_vetted limits hc n hid mid ts rng a r :
  host_key = member_x25519_pubkey mid → create limits hc n hid mid ts rng = (Ok a, r) → vetted Rok member_vetted 0 a.
Proof.
  intros Hkey (n' & _ & Hms & Hcs & Hrq & _)%create_Ok. unfold vetted. rewrite Hms, Hrq. cbn.
  split_and!; [by constructor|apply list.Forall_nil_2|lia].
Qed.

Lemma start_vetted limits hc n hid mid ts rng a r o s' :
  host_key = member_x25519_pubkey mid →
  create limits hc n hid mid ts rng = (Ok a, r) → start (a, r) = (o, s') → vetted Rok member_vetted 0 s'.1.
Proof.
  intros Hkey Hc Hrun. eapply (wp_run _ (λ _ s, vetted Rok member_vetted 0 s.1)); [exact Hrun|]. clear Hrun.
  assert (keeps population start) as Hk.
  { unfold start. repeat first [keeps_step|apply frame_population; auto with keeps]. }
  eapply keeps_wp; [exact Hk|]. intros _ s Hs. eapply vetted_population; [exact (eq_sym Hs)|by eapply created_vetted].
Qed.

(** Whatever happened in a room, each participant other than the host came of
    a request of the room's own events, and the host has accepted one. *)
Lemma reachable_vetted limits hid mid s :
  host_key = member_x25519_pubkey mid →
  reachable limits hid mid (λ ev, ∀ a, event_vetted Rok Adm a ev) s → vetted Rok member_vetted 0 s.1.
Proof.
  intros Hkey Hr. induction Hr as [hc n ts rng a r acts s Hc Hs|s ev now o s' _ IH Hev Hrun Ho]; [by eapply start_vetted|].
  by eapply vetted_step; [apply member_vetted_color|apply member_vetted_admits|apply Hev|exact IH|exact Hrun|].
Qed.
End members.

(** * Ids are given out once *)

(** One participant, whatever its color. *)
Definition same_member (m m' : Member) : Prop := ∃ c, m' = set_color_of c m.

Section ids.
Context `{Primitives} `{Nfc}.

(** A member of a later room is one of this one, or has a new id. *)
Definition kept_or_new (t : MemberTable) (m : Member) : Prop :=
  (∃ m0, m0 ∈ table_members t ∧ same_member m0 m) ∨ (table_next_id t <= member_id m)%N.

Lemma set_color_twice c c' m : set_color_of c (set_color_of c' m) = set_color_of c m.
Proof. done. Qed.

Lemma kept_or_new_color t : colorless (kept_or_new t).
Proof.
  intros c m [(m0 & Hin & c' & ->)|Hn]; [left|by right]. exists m0. split; [done|]. by exists c.
Qed.

Lemma set_own_color_of m : set_color_of (color m) m = m.
Proof. by destruct m. Qed.

Lemma steps_kept t s s' : steps s s' →
  vetted (λ _, True) (kept_or_new t) (table_next_id t) s.1 → vetted (λ _, True) (kept_or_new t) (table_next_id t) s'.1.
Proof.
  induction 1 as [|s ev now o s1 s2 Hrun Ho _ IH]; [done|]. intros Hs. apply IH.
  eapply (vetted_step _ _ (λ _, True)); [apply kept_or_new_color|by right| |exact Hs|exact Hrun|done].
  split; [by destruct ev|done].
Qed.

Lemma steps_ids s s' : steps s s' →
  Forall (kept_or_new (ra_members s.1)) (table_members (ra_members s'.1)) ∧
  (table_next_id (ra_members s.1) <= table_next_id (ra_members s'.1))%N.
Proof.
  intros (H1 & _ & H2)%(steps_kept (ra_members s.1)); [done|].
  split_and!; [|apply list.Forall_true; done|done]. apply list.Forall_forall. intros m Hm. left. exists m.
  split; [done|]. exists (color m). by rewrite set_own_color_of.
Qed.
End ids.
