(* ===== verification/RoomEpochInv.v ===== *)
(** Epoch transitions: what [begin_epoch_transition] sends and awaits, and
    how acknowledgements and the timeout end it; and the epoch invariant of
    the room: the lifecycle state, the pending transition, the group key and
    the replay window agree.

    The invariant holds when the primitives answer every call and the
    applicants' keys are contributory, which admission checks; the first half
    says what is left of it otherwise. *)
From S2P Require Export RoomSafe.

Section transition.
Context `{Primitives}.

(** [act] hands [key] to [m]: an epoch wrap of the actor's epoch, sealed
    for the member's wrapping key, to the member's connection. *)
Definition wrap_sent (a : RoomActor) (key : EpochKey) (m : Member) (act : RoomAction) : Prop :=
  ∃ wk env rng rng',
    host_try_wrap_key_for (ra_host_identity a) (x25519_pubkey m) (ra_session_id a) (member_id m)
      = Ok wk ∧
    wrap_epoch_key wk key (ra_epoch a) (ra_session_id a) rng = (Ok env, rng') ∧
    act = SendTo (connection m) (M_EpochWrap {|
      ew_epoch := ra_epoch a; ew_nonce := ee_nonce env; ew_ciphertext := ee_ciphertext env |}).

Lemma wrap_members_wp key ms acts aw a r :
  wp (wrap_members key ms acts aw) (λ o s', s'.1 = a ∧ o ≠ Panic ∧
    ∀ res, o = Done res → ∃ l, res.1 = acts ++ l ∧ Forall2 (wrap_sent a key) ms l ∧
      res.2 = aw ++ (member_id <$> ms)) (a, r).
Proof.
  revert acts aw r. induction ms as [|m ms IH]; intros acts aw r; simpl.
  - split_and!; [done..|]. intros res [= <-]. exists []. by rewrite !app_nil_r.
  - rewrite wp_self, wp_try. cbn [fst snd].
    destruct (host_try_wrap_key_for _ _ _ _) as [wk|] eqn:Ewk; [|done].
    rewrite wp_draw. cbn [fst snd].
    destruct (wrap_epoch_key _ _ _ _ _) as [[env|] r1] eqn:Eenv; [|done].
    rewrite wp_try. destruct (EpochWrap_new _ _ _) as [w|] eqn:Ew; [|done].
    eapply wp_mono; [|apply IH]. intros o s' (Hs & Hp & Ho). split_and!; [done..|].
    intros res Hres. destruct (Ho res Hres) as (l & -> & Hl & ->).
    eexists (_ :: l). rewrite <-!(assoc_L (++)). split_and!; [done| |done].
    constructor; [|done]. apply EpochWrap_new_inv in Ew as ->. by eexists wk, env, r, r1.
Qed.

(** The state a transition starts from [a], with the group key [key]. *)
Definition rekeyed (a : RoomActor) (key : EpochKey) (a' : RoomActor) : Prop :=
  frame a' = frame a ∧ ra_epoch a' = (ra_epoch a + 1)%N ∧
  ra_room_sequence a' = (ra_room_sequence a + 1)%N ∧
  ra_chat_replay a' = retain_epoch (ra_chat_replay a) (ra_epoch a') ∧
  ra_state a' = RS_EpochTransition ∧
  ra_pending_epoch a' = Some {| pe_epoch := ra_epoch a'; pe_key := key;
    pe_awaiting := member_id <$> table_members (ra_members a);
    pe_started_at := ra_now a |} ∧
  ra_session_id a' = ra_session_id a ∧ ra_host_identity a' = ra_host_identity a ∧
  ra_policy a' = ra_policy a ∧ ra_epoch_key a' = ra_epoch_key a ∧
  ra_pending_membership a' = ra_pending_membership a ∧ ra_now a' = ra_now a ∧
  ra_room_timeout a' = ra_room_timeout a ∧ ra_timeouts a' = ra_timeouts a ∧
  ra_token a' = ra_token a.

(** The outcome of [begin_epoch_transition]: the transition is started, or
    it is not and the room stays in the state it was in. *)
Lemma begin_wp acts a r :
  wp (begin_epoch_transition acts) (λ o s',
    match o with
    | Done acts' =>
        ∃ key l rng rng', EpochKey_generate rng = (Ok key, rng') ∧ rekeyed a key s'.1 ∧
          acts' = acts ++ l ∧ Forall2 (wrap_sent s'.1 key) (table_members (ra_members a)) l
    | _ => ra_state s'.1 = ra_state a ∧ ra_pending_epoch s'.1 = ra_pending_epoch a
    end) (a, r).
Proof.
  unfold begin_epoch_transition, bump_sequence. rewrite wp_self, wp_expect. cbn [fst snd].
  destruct (succ_u64 (ra_epoch a)) as [e|] eqn:Ee; [|done]. apply succ_u64_Some in Ee as [-> _].
  rewrite !wp_modify. rewrite wp_bind, wp_self, wp_expect. cbn [fst snd].
  destruct (succ_u64 _) as [q|] eqn:Eq; [|done]. apply succ_u64_Some in Eq as [-> _].
  rewrite wp_modify_last. cbn [bind_post]. rewrite wp_draw. cbn [fst snd].
  destruct (EpochKey_generate r) as [[key|] r1] eqn:Ek; [|done].
  rewrite wp_self, wp_bind. eapply wp_mono; [|apply wrap_members_wp].
  intros [[acts' aw]|e|] [a' r'] (Ha & _ & Ho); simpl in *; subst a'; [|done..].
  destruct (Ho _ eq_refl) as (l & Hl1 & Hl & Hl2). simpl in *. subst. rewrite !wp_modify.
  exists key, l, r, r1. split_and!; [done| |done|exact Hl].
  unfold rekeyed, frame. simpl. split_and!; reflexivity.
Qed.

(** ** Transitions start when the primitives do not fail *)

(** The OS random source and the AEAD answer every call. *)
Definition primitives_total : Prop :=
  (∀ i n, is_Some (getrandom i n)) ∧ (∀ k n a m, is_Some (aead_encrypt k n a m)).

(** The X25519 agreement with [k] is contributory for the host. *)
Definition contributory (hid : HostIdentity) (k : list byte) : Prop :=
  x_was_contributory (x_diffie_hellman (host_x25519 hid) k) = true.

Definition keys_ok (hid : HostIdentity) (ms : list Member) : Prop :=
  Forall (λ m, contributory hid (x25519_pubkey m)) ms.

Context `{!PrimitiveLaws}.

Lemma random_bytes_total n rng :
  primitives_total → ∃ bs, random_bytes n rng = (Ok bs, S rng).
Proof. intros [Ht _]. unfold random_bytes. destruct (Ht rng n) as [bs ->]. eauto. Qed.

Lemma wrap_members_total key ms acts aw a r :
  primitives_total → length key = 32 → keys_ok (ra_host_identity a) ms →
  wp (wrap_members key ms acts aw) (λ o _, ∃ res, o = Done res) (a, r).
Proof.
  intros Ht Hk. revert acts aw r. induction ms as [|m ms IH]; intros acts aw r Hms; simpl.
  - by eexists.
  - apply list.Forall_cons in Hms as [Hm Hms]. rewrite wp_self, wp_try. cbn [fst snd].
    unfold host_try_wrap_key_for, derive_checked. rewrite Hm. cbn [negb].
    rewrite wp_draw. cbn [fst snd].
    destruct (wrap_epoch_key _ _ _ _ _) as [[env|e] r1] eqn:Eenv.
    + apply wrap_epoch_key_Ok in Eenv as (_ & Hlen & _).
      rewrite wp_try, EpochWrap_new_Ok by lia. by apply IH.
    + exfalso. unfold wrap_epoch_key in Eenv. destruct (random_bytes_total 24 r Ht) as [bs Hbs].
      rewrite Hbs in Eenv. destruct Ht as [_ He].
      match type of Eenv with context [aead_encrypt ?k ?n ?a ?m] =>
        destruct (He k n a m) as [ct Hct] end.
      rewrite Hct in Eenv. discriminate.
Qed.

Lemma begin_total acts a r :
  primitives_total → keys_ok (ra_host_identity a) (table_members (ra_members a)) →
  wp (begin_epoch_transition acts) (λ o _, ∀ e, o ≠ Fail e) (a, r).
Proof.
  intros Ht Hms. unfold begin_epoch_transition, bump_sequence.
  rewrite wp_self, wp_expect. cbn [fst snd].
  destruct (succ_u64 (ra_epoch a)) as [e|] eqn:Ee; [|done]. clear Ee.
  rewrite !wp_modify. rewrite wp_bind, wp_self, wp_expect. cbn [fst snd].
  destruct (succ_u64 _) as [q|] eqn:Eq; [|done].
  rewrite wp_modify_last. cbn [bind_post]. rewrite wp_draw. cbn [fst snd].
  destruct (EpochKey_generate r) as [[key|] r1] eqn:Ek; cycle 1.
  { unfold EpochKey_generate in Ek. destruct (random_bytes_total 32 r Ht) as [bs Hbs]. congruence. }
  rewrite wp_self, wp_bind. eapply wp_mono; [|apply wrap_members_total; [done| |exact Hms]].
  - intros o s' [[acts' aw] ->]. simpl. by rewrite !wp_modify.
  - by apply random_bytes_Ok in Ek.
Qed.
End transition.

Section epoch_inv.
Context `{PR : !Primitives} `{PL : !PrimitiveLaws} `{NF : !Nfc}.
Context (hid : HostIdentity).

(** What the state of the room promises. *)
Definition state_ok (a : RoomActor) : Prop :=
  match ra_state a with
  | RS_EpochTransition =>
      ∃ p, ra_pending_epoch a = Some p ∧ pe_epoch p = ra_epoch a ∧
        pe_awaiting p ≠ [] ∧ NoDup (pe_awaiting p) ∧
        Forall (λ id, is_Some (by_id (ra_members a) id)) (pe_awaiting p)
  | RS_Open | RS_Locked =>
      ra_state a = resting_state (ra_policy a) ∧ ra_pending_epoch a = None ∧
      is_Some (ra_epoch_key a) ∧ ra_pending_membership a = []
  | RS_Destroyed => True
  | RS_Creating | RS_InviteRotating | RS_Closing => False
  end.

(** The keys the next transition wraps for. *)
Definition keys_inv (a : RoomActor) : Prop :=
  ra_host_identity a = hid ∧ keys_ok hid (table_members (ra_members a)) ∧
  Forall (λ r, contributory hid (app_x25519_pubkey (application r))) (pending (ra_requests a)).

Definition replay_ok (a : RoomActor) : Prop :=
  ∀ s e, is_Some (last_accepted (ra_chat_replay a) s e) → e = ra_epoch a.

Definition epoch_ok (a : RoomActor) : Prop := keys_inv a ∧ replay_ok a ∧ state_ok a.

Definition J (a : RoomActor) : Prop := room_ok a ∧ epoch_ok a.

Definition eview (a : RoomActor) :=
  (frame a, ra_host_identity a, ra_epoch a, ra_chat_replay a, ra_state a, ra_pending_epoch a,
   ra_policy a, ra_epoch_key a).

Lemma J_view a a' :
  eview a = eview a' → ra_pending_membership a = ra_pending_membership a' → J a → J a'.
Proof.
  unfold eview, frame, J, epoch_ok, keys_inv, replay_ok, state_ok, room_ok.
  intros [=E1 E2 E3 E4 E5 E6 E7 E8 E9 E10 E11 E12 E13] E14.
  by rewrite E1, E2, E3, E4, E5, E6, E7, E8, E9, E10, E11, E12, E13, E14.
Qed.

(** In a transition the queued broadcasts are free. *)
Lemma J_view_transition a a' :
  eview a = eview a' → ra_state a = RS_EpochTransition → J a → J a'.
Proof.
  intros E Hst HJ. assert (HJ' : J (put_pending_membership (ra_pending_membership a') a)).
  { destruct HJ as (Hr & Hk & Hrep & Hs). split; [exact Hr|]. split_and!; [exact Hk|exact Hrep|].
    unfold state_ok in *. simpl. by rewrite Hst in *. }
  apply (J_view (put_pending_membership (ra_pending_membership a') a)); [by rewrite <-E|done|done].
Qed.

Lemma keeps_J {A} (m : M A) :
  keeps eview m → keeps ra_pending_membership m → preserves J m.
Proof.
  intros Hm1 Hm2 s Hs _. eapply J_view; [symmetry; apply Hm1|symmetry; apply Hm2|done].
Qed.

Lemma J_room_ok a : J a → room_ok a.
Proof. by intros [? _]. Qed.

Lemma keys_remove a id m ms :
  keys_inv a → Members.remove (ra_members a) id = Some (m, ms) →
  keys_ok hid (table_members ms).
Proof.
  intros (_ & Hk & _) (_ & Hp & _)%remove_Some. unfold keys_ok in *. rewrite Hp in Hk.
  by apply list.Forall_cons in Hk as [_ ?].
Qed.

Context (Htotal : primitives_total).

Lemma rekeyed_J a key a' : room_ok a → keys_inv a → rekeyed a key a' → J a'.
Proof.
  intros Hr (Hid & Hk & Hq) (Hf & He & _ & Hrep & Hst & Hp & _ & Hid' & _).
  split; [eapply room_ok_frame; [symmetry; exact Hf|exact Hr]|].
  unfold frame in Hf. injection Hf as Hms Hcs Hrq Hts Hrl Hhc. split_and!.
  - unfold keys_inv. by rewrite Hid', Hms, Hrq.
  - intros s e. rewrite Hrep, retain_epoch_lookup. case_bool_decide; [done|].
    intros [? ?]. done.
  - unfold state_ok. rewrite Hst. eexists. split; [exact Hp|]. simpl.
    destruct Hr as [Htab (h & ms & Ht & _) _ _ _ _ _ _ _ _]. rewrite Hms. split_and!.
    + done.
    + rewrite Ht. done.
    + by apply tok_ids.
    + apply list.Forall_forall. intros id (m & -> & Hm)%list_elem_of_fmap.
      exists m. by apply by_id_elem.
Qed.

(** A transition, with what is queued after it, ends in the invariant. *)
Lemma begin_then_J {A} acts (k : list RoomAction → M A) a r :
  room_ok a → keys_inv a → (∀ x, keeps eview (k x)) →
  wp (begin_epoch_transition acts ≫= k) (λ o s', o ≠ Panic → J s'.1) (a, r).
Proof.
  intros Hr Hk Hkeep. rewrite wp_bind.
  pose proof (begin_wp acts a r) as Hb.
  pose proof (begin_total acts a r Htotal) as Hf. unfold wp in Hb, Hf. unfold wp.
  destruct (begin_epoch_transition acts (a, r)) as [o [a' r']]. simpl in *.
  destruct o as [acts'|e|]; [| |by intros ?].
  - destruct Hb as (key & l & _ & _ & _ & Hre & _). simpl. intros _.
    eapply J_view_transition; [symmetry; apply Hkeep| |by eapply rekeyed_J].
    by destruct Hre as (_ & _ & _ & _ & ? & _).
  - exfalso. destruct Hk as (Hid & Hk & _). rewrite Hid in Hf. by eapply Hf.
Qed.
End epoch_inv.

Section frames.
Context `{!Primitives} `{!Nfc}.

Lemma ekeeps_bump : keeps eview bump_sequence.
Proof. unfold bump_sequence. solve_keeps. Qed.
Hint Resolve ekeeps_bump : keeps.

Lemma ekeeps_push l : keeps eview (push_membership l).
Proof. unfold push_membership. solve_keeps. Qed.
Hint Resolve ekeeps_push : keeps.

Lemma ekeeps_snapshot c : keeps eview (queue_member_snapshot c).
Proof. unfold queue_member_snapshot. solve_keeps. Qed.
Hint Resolve ekeeps_snapshot : keeps.

Lemma ekeeps_joined m : keeps eview (queue_member_joined m).
Proof. unfold queue_member_joined. solve_keeps. Qed.

Lemma ekeeps_gone id t : keeps eview (queue_member_gone id t).
Proof. unfold queue_member_gone. solve_keeps. Qed.
Hint Resolve ekeeps_gone : keeps.

Lemma ekeeps_all_gone ids t : keeps eview (queue_all_gone ids t).
Proof. induction ids; simpl; solve_keeps; done. Qed.

Lemma pkeeps_bump : keeps ra_pending_membership bump_sequence.
Proof. unfold bump_sequence. solve_keeps. Qed.

Lemma ekeeps_timeout_changed id env p : keeps eview (on_timeout_changed id env p).
Proof. unfold on_timeout_changed. solve_keeps. Qed.

Lemma pkeeps_timeout_changed id env p :
  keeps ra_pending_membership (on_timeout_changed id env p).
Proof. unfold on_timeout_changed. solve_keeps. Qed.
End frames.

#[export] Hint Resolve ekeeps_bump ekeeps_push ekeeps_snapshot ekeeps_joined ekeeps_gone
  ekeeps_all_gone pkeeps_bump ekeeps_timeout_changed pkeeps_timeout_changed : keeps.
