(* ===== verification/RoomEpochSafe.v ===== *)
(** Every handler preserves the epoch invariant. *)
From S2P Require Export RoomEpochInv.

(** The fields of the epoch invariant besides the members and the pending
    requests. *)
Definition clock_view (a : RoomActor) :=
  (ra_host_identity a, ra_epoch a, ra_chat_replay a, ra_state a, ra_pending_epoch a,
   ra_policy a, ra_epoch_key a, ra_pending_membership a).

Section epoch_safe.
Context `{PR : !Primitives} `{PL : !PrimitiveLaws} `{NF : !Nfc}.
Context (hid : HostIdentity) (Htotal : primitives_total).

Abbreviation J := (J hid).
Abbreviation epoch_ok := (epoch_ok hid).

Lemma J_split {A} (m : M A) :
  preserves room_ok m →
  (∀ s, J s.1 → wp m (λ o s', o ≠ Panic → epoch_ok s'.1) s) → preserves J m.
Proof.
  intros Hr He s Hs Ho. split; [by apply (Hr s (J_room_ok _ _ Hs))|by apply (He s Hs)].
Qed.

Lemma wp_J_epoch {A} (m : M A) s :
  wp m (λ o s', o ≠ Panic → J s'.1) s → wp m (λ o s', o ≠ Panic → epoch_ok s'.1) s.
Proof. apply wp_mono. intros o s' HJ Ho. by apply HJ. Qed.

(** Changing members and requests under the epoch invariant. *)
Lemma epoch_ok_ext a a' :
  clock_view a = clock_view a' →
  keys_ok hid (table_members (ra_members a')) →
  Forall (λ r, contributory hid (app_x25519_pubkey (application r))) (pending (ra_requests a')) →
  (∀ id, is_Some (by_id (ra_members a) id) → is_Some (by_id (ra_members a') id)) →
  epoch_ok a → epoch_ok a'.
Proof.
  unfold clock_view. intros [=E1 E2 E3 E4 E5 E6 E7 E8] Hk Hq Hby (HK & Hrep & Hst).
  split_and!.
  - split_and!; [|done|done]. rewrite <-E1. by destruct HK.
  - unfold replay_ok. by rewrite <-E2, <-E3.
  - unfold state_ok in *. rewrite <-E2, <-E4, <-E5, <-E6, <-E7, <-E8.
    destruct (ra_state a); try done. destruct Hst as (p & ? & ? & ? & ? & Hp).
    exists p. split_and!; try done. eapply list.Forall_impl; [exact Hp|]. done.
Qed.

Lemma epoch_ok_requests a a' :
  clock_view a = clock_view a' → ra_members a' = ra_members a →
  Forall (λ r, contributory hid (app_x25519_pubkey (application r))) (pending (ra_requests a')) →
  epoch_ok a → epoch_ok a'.
Proof.
  intros Hv Hm Hq He. eapply epoch_ok_ext; [exact Hv| |exact Hq| |exact He]; rewrite Hm; [|done].
  by destruct He as [(_ & ? & _) _].
Qed.

Lemma epoch_ok_frame a a' :
  clock_view a = clock_view a' → ra_members a' = ra_members a →
  ra_requests a' = ra_requests a → epoch_ok a → epoch_ok a'.
Proof.
  intros Hv Hm Hq He. eapply epoch_ok_requests; [exact Hv|exact Hm| |exact He].
  rewrite Hq. by destruct He as [(_ & _ & ?) _].
Qed.

Lemma taken_keys a id r rq :
  keys_inv hid a → take_request (ra_requests a) id = Ok (r, rq) →
  contributory hid (app_x25519_pubkey (application r)) ∧
  Forall (λ r, contributory hid (app_x25519_pubkey (application r))) (pending rq).
Proof.
  intros (_ & _ & Hq) (_ & _ & Hp & _)%take_request_Ok. rewrite Hp in Hq.
  by apply list.Forall_cons in Hq.
Qed.

(** ** Removal *)

Lemma remove_member_J id t acts : preserves J (remove_member id t acts).
Proof.
  intros [a r] Hs. unfold remove_member. destruct (N.eqb_spec id 0); [by intros _|].
  rewrite wp_self. simpl in *. destruct (Members.remove _ _) as [[m ms]|] eqn:E; [|by intros _].
  rewrite !wp_modify. destruct Hs as (Hr & Hk & _). apply begin_then_J; [done| | |].
  - unfold room_ok. simpl. by eapply room_ok_remove.
  - destruct Hk as (? & ? & ?). split_and!; [done| |done]. eapply keys_remove; [|exact E].
    by split_and!.
  - intros x. solve_keeps.
Qed.

Lemma evict_wp ids removed acts s :
  0%N ∉ ids → room_ok s.1 → keys_inv hid s.1 →
  wp (evict ids removed acts) (λ o s', ∃ x, o = Done x ∧ room_ok s'.1 ∧ keys_inv hid s'.1) s.
Proof.
  revert removed acts s. induction ids as [|i ids IH]; intros removed acts [a r] Hi Hr Hk; simpl;
    [by eexists|].
  apply not_elem_of_cons in Hi as [Hi Hids]. rewrite wp_self. simpl in *.
  destruct (Members.remove _ _) as [[m ms]|] eqn:E; [|by apply IH].
  rewrite !wp_modify. apply IH; [done| |].
  - unfold room_ok. simpl. by eapply room_ok_remove.
  - destruct Hk as (? & ? & ?). split_and!; [done| |done]. eapply keys_remove; [|exact E].
    by split_and!.
Qed.

Lemma close_room_J : preserves J close_room.
Proof.
  apply J_split; [apply preserves_frame; auto with keeps|].
  intros [a r] (Hr & Hk & Hrep & Hst). unfold close_room. rewrite wp_self. cbn [fst snd].
  case_bool_decide; [by intros _|]. rewrite !wp_modify. intros _. by split_and!.
Qed.

Lemma on_epoch_timeout_J : preserves J on_epoch_timeout.
Proof.
  intros [a r] Hs. unfold on_epoch_timeout. rewrite wp_self. cbn [fst snd].
  destruct (ra_pending_epoch a) as [p|] eqn:Ep; [|by intros _].
  destruct (_ <? _)%N; [by intros _|]. cbv zeta. rewrite wp_modify. cbn [fst snd].
  destruct Hs as (Hr & Hk & Hrep & Hst). case_bool_decide as Hhost.
  - unfold close_room. rewrite wp_self. cbn [fst snd].
    case_bool_decide; [|rewrite !wp_modify; by intros _].
    simpl in *. intros _. split; [exact Hr|]. split_and!; [done..|].
    unfold state_ok in *. simpl in *. rename select (ra_state a = _) into Hd. by rewrite Hd in *.
  - rewrite wp_bind. eapply wp_mono; [|by apply evict_wp].
    intros o [a' r'] (x & -> & Hr' & Hk'). simpl. apply begin_then_J; [done..|].
    intros y. solve_keeps.
Qed.

Lemma state_ok_transition a p :
  state_ok a → ra_pending_epoch a = Some p → ra_state a ≠ RS_Destroyed →
  ra_state a = RS_EpochTransition.
Proof. unfold state_ok. intros H Hp Hd. destruct (ra_state a); naive_solver. Qed.

Lemma filter_awaiting id l (P : N → Prop) :
  NoDup l → Forall P l →
  NoDup (List.filter (λ i, negb (i =? id)%N) l) ∧ Forall P (List.filter (λ i, negb (i =? id)%N) l).
Proof.
  intros Hnd HP. pose proof (filter_sublist (λ i, negb (i =? id)%N) l) as Hs. split.
  - by eapply sublist_NoDup.
  - rewrite list.Forall_forall in *. intros i Hi. apply HP. by eapply elem_of_sublist.
Qed.

(** A transition's acknowledgements, once the pending record is [p]. *)
Lemma state_ok_awaiting a p l :
  ra_state a = RS_EpochTransition → pe_epoch p = ra_epoch a → NoDup l →
  Forall (λ id, is_Some (by_id (ra_members a) id)) l → l ≠ [] →
  state_ok (put_pending_epoch (Some {| pe_epoch := pe_epoch p; pe_key := pe_key p;
    pe_awaiting := l; pe_started_at := pe_started_at p |}) a).
Proof. intros Hst He Hnd Hl Hne. unfold state_ok. simpl. rewrite Hst. by eexists. Qed.

Lemma on_epoch_ack_J c e s :
  J s.1 → ra_state s.1 ≠ RS_Destroyed →
  wp (on_epoch_ack c e) (λ o s', o ≠ Panic → J s'.1) s.
Proof.
  intros Hs Hd. assert (Hr : wp (on_epoch_ack c e) (λ o s', o ≠ Panic → room_ok s'.1) s).
  { apply preserves_frame; [auto with keeps|by destruct Hs]. }
  assert (He : wp (on_epoch_ack c e) (λ o s', o ≠ Panic → epoch_ok s'.1) s);
    [|intros Ho; split; [by apply Hr|by apply He]]. clear Hr.
  destruct s as [a r]. destruct Hs as (Hr & Hk & Hrep & Hst). unfold on_epoch_ack.
  rewrite wp_self. cbn [fst snd] in *.
  destruct (ra_pending_epoch a) as [p|] eqn:Ep; [|by intros _].
  destruct (negb _); [by intros _|]. destruct (conn_member_id _ _) as [id|]; [|by intros _].
  pose proof (state_ok_transition _ _ Hst Ep Hd) as Htr.
  unfold state_ok in Hst. rewrite Htr in Hst. destruct Hst as (p' & Ep' & Hpe & Hne & Hnd & Hby).
  rewrite Ep in Ep'. injection Ep' as <-.
  destruct (filter_awaiting id _ _ Hnd Hby) as [Hnd' Hby'].
  cbv zeta. rewrite wp_modify. cbn [fst snd].
  set (l := List.filter _ _) in *. destruct (Nat.eqb_spec (length l) (length (pe_awaiting p))).
  - intros _. split_and!; [exact Hk|exact Hrep|]. apply state_ok_awaiting; try done.
    intros ->. by destruct (pe_awaiting p).
  - destruct l as [|i l]; [|intros _; split_and!; [exact Hk|exact Hrep|by apply state_ok_awaiting]].
    rewrite !wp_modify, wp_self, wp_modify. intros _. split_and!; [exact Hk|exact Hrep|].
    unfold state_ok. simpl. unfold resting_state. case_bool_decide; by split_and!.
Qed.

(** A computation that leaves members, requests and the clock fields
    alone. *)
Definition epoch_view (a : RoomActor) := (clock_view a, ra_members a, ra_requests a).

Lemma preserves_epoch_view {A} (m : M A) :
  preserves room_ok m → keeps epoch_view m → preserves J m.
Proof.
  intros Hr Hv. apply J_split; [done|]. intros s [_ He] _.
  specialize (Hv s). unfold epoch_view in Hv. injection Hv as Hc Hm Hq.
  eapply epoch_ok_frame; [|done|done|exact He]. unfold clock_view. congruence.
Qed.

(** ** Admission *)

Lemma take_timeout_request_J id : preserves J (take_timeout_request id).
Proof.
  apply preserves_epoch_view; [apply take_timeout_request_ok|].
  unfold take_timeout_request. solve_keeps.
Qed.

Lemma on_join_requested_J c app :
  contributory hid (app_x25519_pubkey app) → preserves J (on_join_requested c app).
Proof.
  intros Hx. apply J_split; [apply on_join_requested_ok|].
  intros [a r] [Hr He]. unfold on_join_requested. rewrite wp_self. cbn [fst snd] in *.
  destruct (negb _); [by intros _|].
  rewrite wp_ok_or. destruct (ra_connections a !! c) as [e|] eqn:Ee; [|by intros _].
  destruct (_ || _); [by intros _|]. rewrite wp_expect.
  destruct (push _ _ _) as [[[id rq]|]|] eqn:Ep; try (by intros ?).
  rewrite wp_try, wp_modify, wp_self. cbn [fst snd]. rewrite wp_ok_or.
  assert (He' : epoch_ok (put_requests rq a)).
  { eapply epoch_ok_requests; [..|exact He]; [done|done|]. simpl.
    apply push_Ok in Ep as (_ & _ & ->). simpl. apply list.Forall_app. split.
    - by destruct He as [(_ & _ & ?) _].
    - by constructor. }
  destruct (attach_request _ _ _) as [cs|]; [|by intros _].
  rewrite wp_modify. unfold bump_sequence. rewrite wp_bind, wp_self, wp_expect. cbn [fst snd].
  destruct (succ_u64 _) as [q|]; [|by intros ?]. intros _.
  eapply epoch_ok_frame; [..|exact He']; done.
Qed.

Lemma on_accept_J id : preserves J (on_accept id).
Proof.
  unfold on_accept. apply preserves_bind; [apply take_timeout_request_J|].
  intros [t|]; [apply preserves_ret|]. intros [a r] [Hr He]. unfold take_join_request.
  rewrite wp_bind, wp_self, wp_try. cbn [fst snd] in *.
  destruct (take_request _ _) as [[req rq]|] eqn:Et; [|by destruct e; intros _].
  rewrite wp_modify, wp_ret. cbn [bind_post fst snd]. rewrite wp_self, wp_expect. cbn [fst snd].
  destruct (succ_u64 _); [|by intros ?]. rewrite wp_expect.
  destruct He as (Hk & Hrep & Hst). pose proof (taken_keys _ _ _ _ Hk Et) as [Hx Hq].
  destruct (add _ _ _ _ _ _) as [[[m ms]|e]|] eqn:Ea; [| |by intros ?].
  - rewrite !wp_modify. apply begin_then_J; [done| | |intros x; solve_keeps].
    + unfold room_ok. simpl. by eapply struct_add_member.
    + apply add_Ok in Ea as (_ & _ & _ & _ & _ & -> & -> & _). destruct Hk as (? & Hk & _).
      split_and!; [done| |done]. unfold keys_ok. simpl. apply list.Forall_app. split; [done|].
      by constructor.
  - rewrite wp_modify. intros _. split.
    + unfold room_ok. simpl. by eapply struct_drop_request.
    + eapply epoch_ok_requests; [..|by split_and!]; [done|done|exact Hq].
Qed.

Lemma on_reject_J id : preserves J (on_reject id).
Proof.
  apply J_split; [apply on_reject_ok|]. intros s Hs. apply wp_J_epoch. revert s Hs.
  unfold on_reject. apply preserves_bind; [apply take_timeout_request_J|].
  intros [t|]; [apply preserves_ret|]. intros [a r] [Hr He]. unfold take_join_request.
  rewrite wp_bind, wp_self, wp_try. cbn [fst snd] in *.
  destruct (take_request _ _) as [[req rq]|] eqn:Et; [|by destruct e; intros _].
  rewrite wp_modify, wp_ret. simpl. rewrite wp_modify. intros _. split.
  - unfold room_ok. simpl. by eapply struct_drop_request.
  - eapply epoch_ok_requests; [..|exact He]; [done|done|].
    destruct He as [Hk _]. by eapply taken_keys.
Qed.

(** ** Members and policy *)

Lemma on_leave_J c : preserves J (on_leave c).
Proof.
  unfold on_leave. apply preserves_self. intros a _. destruct (_ =? _)%N; [apply preserves_fail|].
  apply preserves_bind; [auto with preserves|]. intros id.
  apply preserves_bind; [apply remove_member_J|]. intros [[m|] l]; apply preserves_ret.
Qed.

Lemma on_kick_J t : preserves J (on_kick t).
Proof.
  unfold on_kick. apply preserves_self. intros a _.
  apply preserves_bind; [auto with preserves|]. intros k.
  apply preserves_bind; [auto with preserves|]. intros m.
  destruct (is_host m); [apply preserves_fail|].
  apply preserves_bind; [apply remove_member_J|]. intros [[m'|] l]; apply preserves_ret.
Qed.

Lemma on_member_left_J id : preserves J (on_member_left id).
Proof.
  unfold on_member_left. apply preserves_bind; [apply remove_member_J|].
  intros [[m|] l]; apply preserves_ret.
Qed.

Lemma set_color_J a id c : J a → J (put_members (set_color (ra_members a) id c) a).
Proof.
  intros [Hr He]. split; [by apply struct_set_color|].
  eapply epoch_ok_ext; [..|exact He]; [done| | |].
  - destruct He as [(_ & Hk & _) _]. unfold keys_ok in *. simpl.
    eapply (Forall_fmap_eq x25519_pubkey (contributory hid)); [|exact Hk].
    symmetry. by apply fmap_update_first.
  - by destruct He as [(_ & _ & ?) _].
  - intros i. apply by_id_set_color.
Qed.

Lemma on_color_J c col : preserves J (on_color c col).
Proof.
  unfold on_color. apply preserves_self. intros a _.
  apply preserves_bind; [auto with preserves|]. intros id.
  apply preserves_bind; [|intros _; apply preserves_ret].
  apply preserves_modify. intros b. apply set_color_J.
Qed.

Lemma drop_admissions_J : preserves J drop_admissions.
Proof.
  apply J_split; [apply drop_admissions_ok|]. intros [a r] [Hr He].
  unfold drop_admissions. rewrite wp_self. cbn [drain].
  rewrite !wp_modify, wp_self, wp_modify. intros _.
  eapply epoch_ok_requests; [..|exact He]; done.
Qed.

Lemma bump_J : preserves J bump_sequence.
Proof.
  apply keeps_J; [auto with keeps|auto with keeps].
Qed.

Lemma on_new_id_J : preserves J on_new_id.
Proof.
  unfold on_new_id. apply preserves_bind; [auto with preserves|]. intros tok.
  apply preserves_bind; [by apply preserves_modify|]. intros _.
  apply preserves_bind; [apply bump_J|]. intros _.
  apply preserves_bind; [apply drop_admissions_J|]. intros acts. apply preserves_ret.
Qed.

(** A room at rest: no transition is pending. *)
Definition resting (a : RoomActor) : Prop := ra_state a = RS_Open ∨ ra_state a = RS_Locked.

Lemma resting_J a p : J a → resting a → J (put_state (resting_state p) (put_policy p a)).
Proof.
  intros [Hr (Hk & Hrep & Hst)] Hrest. split; [done|]. split_and!; [exact Hk|exact Hrep|].
  unfold state_ok in *. simpl. unfold resting_state.
  destruct Hrest as [E|E]; rewrite E in Hst; destruct Hst as (_ & ? & ? & ?);
    by case_bool_decide.
Qed.

Lemma set_policy_J p s :
  J s.1 → resting s.1 → wp (set_policy p) (λ o s', o ≠ Panic → J s'.1) s.
Proof.
  intros Hs Hrest. unfold set_policy. rewrite wp_bind.
  eapply (wp_mono _ (λ o s', o ≠ Panic → J s'.1 ∧ resting s'.1)).
  - intros [acts|e|] s' Hs'; simpl; [|by intros _; apply Hs'|by intros ?].
    destruct Hs' as [Hs' Hrest']; [done|]. rewrite !wp_modify. cbn [fst snd].
    match goal with |- wp ?m _ _ => assert (preserves J m) as Hp; [|apply Hp] end.
    + apply preserves_bind; [apply bump_J|]. intros _. apply preserves_self. intros b _.
      cbv zeta. apply preserves_ret.
    + by apply resting_J.
  - case_bool_decide; [|by intros _].
    pose proof (drop_admissions_J s Hs) as Hd. unfold wp in *. intros Ho.
    split; [by apply Hd|].
    assert (keeps ra_state drop_admissions) as Hk
      by (unfold drop_admissions; solve_keeps).
    unfold resting. by rewrite Hk.
Qed.

Lemma on_connection_lost_J c : preserves J (on_connection_lost c).
Proof.
  apply J_split; [apply on_connection_lost_ok|]. intros [a r] Hs. unfold on_connection_lost.
  rewrite wp_self. cbn [fst snd] in *.
  destruct (c =? _)%N; [by apply wp_J_epoch, close_room_J|].
  rewrite wp_modify. cbn [fst snd]. set (l := _ <$> List.filter _ _). clearbody l.
  set (a1 := put_timeout_requests _ a).
  assert (Hs1 : J a1).
  { destruct Hs as [Hr He]. split; [by apply room_ok_timeouts, filter_sublist|].
    by eapply epoch_ok_frame; [..|exact He]. }
  assert (Hend : ∀ (acts : list RoomAction) b r', epoch_ok b →
    wp (modify (λ a, put_connections (conn_remove (ra_connections a) c) a);; (mret acts : M _))
      (λ o s', o ≠ Panic → epoch_ok s'.1) (b, r')).
  { intros acts b r' He. rewrite wp_modify. intros _.
    by eapply epoch_ok_frame; [..|exact He]. }
  rewrite wp_bind. eapply wp_mono; cycle 1.
  - instantiate (1 := λ o s', o ≠ Panic → epoch_ok s'.1).
    destruct (match conn_member_id (ra_connections a) c with Some _ => _ | None => _ end) as [id|].
    + apply wp_J_epoch, (preserves_wp J); [|exact Hs1].
      apply preserves_bind; [apply remove_member_J|].
      intros [[m|] l']; apply preserves_ret.
    + destruct Hs1 as [_ He]. destruct (conn_request_id _ _) as [id|]; [|by intros _].
      destruct (take_request _ _) as [[q rq]|] eqn:Et; [|by intros _].
      rewrite wp_modify. intros _. eapply epoch_ok_requests; [..|exact He]; [done|done|].
      destruct He as [Hk _]. by eapply taken_keys.
  - intros [acts|e|] [b r'] Hb; simpl; [apply Hend; by apply Hb|by intros _; apply Hb|by intros ?].
Qed.

(** ** Chat *)

Lemma rate_limit_J c id s :
  J s.1 → is_Some (by_id (ra_members s.1) id) →
  wp (rate_limit c id) (λ o s', o ≠ Panic → J s'.1) s.
Proof.
  intros Hs Hid. unfold rate_limit. rewrite wp_self, wp_expect.
  destruct (allow _ _) as [[ok l]|]; [|by intros ?]. rewrite wp_modify. cbn [fst snd].
  match goal with |- wp ?m _ _ => assert (preserves J m) as Hp; [|apply Hp] end.
  - destruct ok; [apply preserves_ret|].
    apply preserves_bind; [auto with preserves|]. intros m. cbv zeta.
    destruct (is_abusive _ _); [|apply preserves_ret].
    apply preserves_bind; [apply remove_member_J|]. intros [[k|] acts]; apply preserves_ret.
  - destruct Hs as [Hr He]. split; [by apply struct_rate|].
    by eapply epoch_ok_frame; [..|exact He].
Qed.

Lemma on_color_message_J id env p : preserves J (on_color_message id env p).
Proof.
  unfold on_color_message. destruct p as [|b [|]]; [apply preserves_fail| |apply preserves_fail].
  apply preserves_bind; [auto with preserves|]. intros c.
  apply preserves_bind; [apply preserves_modify; intros; by apply set_color_J|].
  intros _. apply preserves_ret.
Qed.

Lemma on_timeout_request_J c id p : preserves J (on_timeout_request c id p).
Proof.
  apply J_split; [apply on_timeout_request_ok|]. intros [a r] [Hr He]. unfold on_timeout_request.
  destruct (id =? 0)%N; [by intros _|]. destruct (negb _); [by intros _|]. cbv zeta.
  destruct (negb _); [by intros _|]. rewrite wp_self. cbn [fst snd] in *.
  destruct (_ <=? _)%N; [by intros _|].
  rewrite wp_expect. destruct (by_id _ _) as [m|]; [|by intros ?].
  rewrite wp_expect. destruct (allocate_id _) as [[i rq]|] eqn:E; [|by intros ?].
  rewrite !wp_modify. intros _. eapply epoch_ok_requests; [..|exact He]; [done|done|].
  simpl. apply allocate_id_Some in E as (_ & _ & ->). by destruct He as [(_ & _ & ?) _].
Qed.

Lemma accept_J a id q :
  J a → J (put_chat_replay (snd (accept (ra_chat_replay a) id (ra_epoch a) q)) a).
Proof.
  intros [Hr (Hk & Hrep & Hst)]. split; [done|]. split_and!; [exact Hk| |exact Hst].
  unfold replay_ok, last_accepted in *. intros s e. simpl. unfold accept.
  destruct (ra_chat_replay a !! (id, ra_epoch a)) as [v|];
    [destruct (_ <=? _)%N; simpl; [apply Hrep|]|simpl];
    (destruct (decide ((s, e) = (id, ra_epoch a))) as [[= -> ->]|Hne]; [done|
     rewrite lookup_insert_ne by congruence; apply Hrep]).
Qed.

Lemma on_chat_received_J c t env : preserves J (on_chat_received c t env).
Proof.
  intros [a r] Hs. unfold on_chat_received, chat_checked. destruct (negb _); [by intros _|].
  rewrite wp_self, wp_ok_or. cbn [fst snd] in *.
  destruct (conn_member_id _ _) as [id|]; [|by intros _].
  destruct (negb _); [by intros _|]. rewrite wp_ok_or.
  destruct (by_id _ _) as [m|] eqn:Em; [|by intros _].
  rewrite wp_bind. eapply wp_mono; cycle 1.
  - instantiate (1 := λ o s', o ≠ Panic → J s'.1).
    destruct (is_rate_limited t); [apply rate_limit_J; [done|simpl; eauto]|by intros _].
  - intros [x|e|] s' Hs'; simpl; [|by intros _; apply Hs'|by intros ?].
    match goal with |- wp ?m _ _ => assert (preserves J m) as Hp; [|apply Hp; by apply Hs'] end.
    destruct x as [acts|]; [apply preserves_ret|]. apply preserves_self. intros b _.
    destruct (negb _); [apply preserves_fail|]. destruct (match last_accepted _ _ _ with Some _ => _ | None => _ end);
      [apply preserves_fail|].
    apply preserves_bind; [apply keeps_J; auto with keeps|]. intros p.
    apply preserves_bind; [apply preserves_modify; intros; by apply accept_J|]. intros _.
    destruct (t =? MSG_TIMEOUT_REQUEST)%N; [apply on_timeout_request_J|].
    apply preserves_bind; [|intros msg; apply preserves_self; intros; apply preserves_ret].
    destruct (t =? MSG_COLOR)%N; [apply on_color_message_J|].
    destruct (t =? MSG_TIMEOUT_CHANGED)%N; [apply keeps_J; auto with keeps|].
    destruct (t =? MSG_CHAT)%N; [apply keeps_J; auto with keeps|apply preserves_panic].
Qed.

(** ** Dispatch *)

(** The applications admission hands over carry contributory keys. *)
Definition event_ok (ev : RoomEvent) : Prop :=
  match ev with
  | EV_JoinRequested _ _ _ _ x _ => contributory hid x
  | _ => True
  end.

Lemma register_J c :
  preserves J (modify (λ a, put_connections (register (ra_connections a) c) a) : M unit).
Proof.
  apply preserves_modify. intros a [Hr He]. split; [by apply struct_register|].
  by eapply epoch_ok_frame; [..|exact He].
Qed.

Lemma verified_J c :
  preserves J (modify (λ a, put_connections (or_same (ra_connections a)
    (mark_password_verified (ra_connections a) c)) a) : M unit).
Proof.
  apply preserves_modify. intros a [Hr He]. split; [by apply struct_verified|].
  by eapply epoch_ok_frame; [..|exact He].
Qed.

Lemma handle_in_transition_J ev s :
  J s.1 → ra_state s.1 = RS_EpochTransition →
  wp (handle_in_transition ev) (λ o s', o ≠ Panic → J s'.1) s.
Proof.
  intros Hs Hst. destruct ev as [| | | | |c t env| | |[]| |c e| |c k| |]; simpl; try by intros _.
  - rewrite wp_self. destruct (member_has_acked_pending_epoch _ _); [by apply on_chat_received_J|].
    apply (preserves_wp J); [apply keeps_J; auto with keeps|done].
  - by apply on_connection_lost_J.
  - apply on_epoch_ack_J; [done|congruence].
  - by apply close_room_J.
  - case_bool_decide; [by apply on_epoch_timeout_J|by apply on_connection_lost_J].
  - by apply on_epoch_timeout_J.
  - by apply close_room_J.
Qed.

Lemma handle_active_J ev s :
  event_ok ev → J s.1 → resting s.1 →
  wp (handle_active ev) (λ o s', o ≠ Panic → J s'.1) s.
Proof.
  intros Hev Hs Hst. destruct ev as [c|c|c n i ed x sg|id|id|c t env|id|c|cmd|c cmd|c e| |c k| |];
    simpl; try by intros _.
  - apply (preserves_wp J); [|done]. apply preserves_bind; [apply register_J|]. intros _. apply preserves_ret.
  - apply (preserves_wp J); [|done]. apply preserves_bind; [apply verified_J|]. intros _. apply preserves_ret.
  - by apply on_join_requested_J.
  - by apply on_accept_J.
  - by apply on_reject_J.
  - by apply on_chat_received_J.
  - by apply on_member_left_J.
  - by apply on_connection_lost_J.
  - destruct cmd; simpl; [by apply on_kick_J|by apply on_new_id_J|by apply set_policy_J
      |by apply set_policy_J|by intros _|by apply on_accept_J|by apply on_reject_J].
  - destruct cmd; simpl; [by apply on_leave_J|by apply on_color_J|by intros _|].
    apply (preserves_wp J); [|done]. apply preserves_self. intros a _.
    apply preserves_bind; [auto with preserves|]. intros m. apply preserves_ret.
  - apply on_epoch_ack_J; [done|]. destruct Hst as [E|E]; by rewrite E.
  - by apply close_room_J.
  - by apply on_connection_lost_J.
  - by apply close_room_J.
Qed.

Lemma put_now_J now a : J a → J (put_now now a).
Proof. intros [Hr He]. split; [done|]. by eapply epoch_ok_frame; [..|exact He]. Qed.

Lemma handle_event_at_J ev now :
  event_ok ev → preserves J (handle_event_at ev now).
Proof.
  intros Hev [a r] Hs. unfold handle_event_at. rewrite wp_modify, wp_self. cbn [fst snd] in *.
  apply (put_now_J now) in Hs. set (b := put_now now a) in *. clearbody b.
  pose proof Hs as [_ (_ & _ & Hst)]. unfold state_ok in Hst.
  destruct (ra_state b) eqn:E; try done; try by intros _.
  - apply handle_active_J; [done|done|by left].
  - apply handle_active_J; [done|done|by right].
  - by apply handle_in_transition_J.
Qed.

Lemma start_J limits hc n mid ts rng a r acts s :
  contributory hid (member_x25519_pubkey mid) →
  create limits hc n hid mid ts rng = (Ok a, r) → start (a, r) = (Done acts, s) → J s.1.
Proof.
  intros Hx Hc Hrun. pose proof (start_ok _ _ _ _ _ _ _ _ _ _ _ Hc Hrun) as Hr.
  apply create_Ok in Hc as (n' & _ & Hms & Hcs & Hrq & _ & _ & Hhc & Hst & _ & He & _ & _ & _ &
    Hrep & _ & _ & Hid & _).
  revert Hrun. unfold start. unfold mbind at 1, M_bind at 1, self at 1. cbn [fst snd].
  rewrite Hst, bool_decide_eq_true_2 by done. cbn [negb].
  unfold mbind at 1, M_bind at 1, modify at 1. cbn [fst snd].
  unfold mbind at 1, M_bind at 1, modify at 1. cbn [fst snd].
  unfold mbind at 1, M_bind at 1, self at 1. cbn [fst snd].
  match goal with |- begin_epoch_transition ?l (?b, _) = _ → _ =>
    pose proof (begin_wp l b r) as Hb; set (b0 := b) in * end.
  intros Hrun. unfold wp in Hb. rewrite Hrun in Hb. cbn [fst snd] in Hb.
  destruct Hb as (key & l & _ & _ & _ & Hre & _).
  assert (Hr0 : room_ok b0) by (eapply room_ok_frame; [|exact Hr]; by destruct Hre).
  eapply rekeyed_J; [exact Hr0| |exact Hre]. unfold b0, keys_inv. simpl.
  rewrite Hid, Hms, Hrq. split_and!; [done| |constructor].
  unfold keys_ok. simpl. by constructor.
Qed.

(** Every reachable room of admissible events satisfies the epoch
    invariant. *)
Lemma reachable_J limits mid s :
  contributory hid (member_x25519_pubkey mid) →
  reachable limits hid mid event_ok s → J s.1.
Proof.
  intros Hx. induction 1 as [|s ev now o s' _ IH Hev Hrun Ho]; [by eapply start_J|].
  pose proof (handle_event_at_J ev now Hev s IH) as Hp. unfold wp in Hp.
  rewrite Hrun in Hp. by apply Hp.
Qed.
End epoch_safe.
