(* ===== verification/AdmissionProps.v ===== *)
(** What the admission flows establish: an application reaches the room only
    after the invitation, the password and a signature; a client trusts only
    a host key signed for its own invitation; and an honest pair always gets
    through. *)
From Stdlib Require Import Strings.String.
From S2P Require Export AdmissionClient RoomEpochSafe.

Section flows.
Context `{PR : !Primitives} `{PL : !PrimitiveLaws} `{HA : !Hashes} `{NF : !Nfc}.

(** * The host's flow *)

Inductive HostInput :=
| HI_Hello (hello : ClientHello) (virtual_port : u16)
| HI_Message (message : Message) (policy : JoinPolicy).

Definition host_input (i : HostInput) : HM (option HostAdmissionReply) :=
  match i with
  | HI_Hello hello port => m ← on_client_hello hello port; mret (Some (HR_Message m))
  | HI_Message m policy => on_message m policy
  end.

Abbreviation HostTrace := (list (HostInput * Outcome AdmissionError (option HostAdmissionReply)))
  (only parsing).

(** A connection's history: the inputs, in order, each with its outcome. *)
Inductive host_flow (x : HostAdmission * Rng) : HostTrace → HostAdmission * Rng → Prop :=
| host_flow_nil : host_flow x [] x
| host_flow_snoc trace y i o z :
    host_flow x trace y → host_input i y = (o, z) → host_flow x (trace ++ [(i, o)]) z.

(** What no input changes. *)
Definition host_static (h : HostAdmission) :=
  (ha_room_session_id h, ha_server_nonce h, ha_verifier h, ha_host_identity h, ha_onion_address h).

Definition challenge_of (h : HostAdmission) (nonce : list byte) : Message :=
  M_PasswordChallenge {|
    pc_m_cost := pv_m_cost (ha_verifier h); pc_t_cost := pv_t_cost (ha_verifier h);
    pc_p_cost := pv_p_cost (ha_verifier h); pc_salt := pv_salt (ha_verifier h);
    pc_challenge_nonce := nonce |}.

(** The steps a connection in each state has passed, in this order. *)
Definition host_passed (h0 : HostAdmission) (trace : HostTrace) (h : HostAdmission) : Prop :=
  host_static h = host_static h0 ∧
  (ha_state h ≠ HS_Decided → ha_token h = ha_token h0) ∧
  match ha_state h with
  | HS_AwaitingHello | HS_Decided => True
  | HS_AwaitingToken => ∃ hello port o,
      [(HI_Hello hello port, o)] `sublist_of` trace ∧ ha_client_nonce h = Some (ch_client_nonce hello)
  | HS_AwaitingProof => ∃ hello port o1 verify p nonce,
      [(HI_Hello hello port, o1);
       (HI_Message (M_TokenVerify verify) p, Done (Some (HR_Message (challenge_of h0 nonce))))]
        `sublist_of` trace ∧
      ha_client_nonce h = Some (ch_client_nonce hello) ∧ ha_challenge_nonce h = Some nonce ∧
      tv_token verify = ha_token h0
  | HS_AwaitingJoinForm => ∃ hello port o1 verify p nonce proof p',
      [(HI_Hello hello port, o1);
       (HI_Message (M_TokenVerify verify) p, Done (Some (HR_Message (challenge_of h0 nonce))));
       (HI_Message (M_ChallengeProof proof) p', Done None)] `sublist_of` trace ∧
      ha_client_nonce h = Some (ch_client_nonce hello) ∧
      tv_token verify = ha_token h0 ∧
      cp_proof proof = expected_proof (ha_verifier h0) nonce (ch_client_nonce hello)
  end.

Lemma sublist_snoc_keep {A} (l t : list A) x : l `sublist_of` t → l `sublist_of` t ++ [x].
Proof. intros H. by apply sublist_inserts_r. Qed.

Lemma sublist_snoc_both {A} (l t : list A) x : l `sublist_of` t → l ++ [x] `sublist_of` t ++ [x].
Proof. intros H. by apply sublist_app. Qed.

(** An input that leaves the connection where it was. *)
Lemma host_passed_keep h0 trace h x : host_passed h0 trace h → host_passed h0 (trace ++ [x]) h.
Proof.
  intros (H1 & H2 & H3). split; [done|]. split; [done|].
  destruct (ha_state h); try done; des; repeat eexists; try done; by apply sublist_snoc_keep.
Qed.

Lemma hello_run hello port h r o y :
  on_client_hello hello port (h, r) = (o, y) →
  (∃ e, o = Fail e ∧ y = (h, r)) ∨
  (ha_state h = HS_AwaitingHello ∧ (∃ m, o = Done m) ∧
   y.1 = ha_put_state HS_AwaitingToken (ha_put_client_nonce (ch_client_nonce hello) h)).
Proof.
  unfold on_client_hello, mbind, M_bind, self, modify. cbn [fst snd].
  case_bool_decide as Hs; cbn [negb]; [|intros [= <- <-]; left; eauto].
  destruct (negb _); [intros [= <- <-]; left; eauto|].
  destruct (negb _); [intros [= <- <-]; left; eauto|].
  intros [= <- <-]. right. eauto.
Qed.

(** What a join application that passed has shown. *)
Record vouched (h : HostAdmission) (client_nonce : list byte) (app : JoinApplication)
    (policy : JoinPolicy) : Prop := {
  vo_signed : verify_ed25519 (app_ed25519_pubkey app) (join_request_transcript
    (join_input (ha_room_session_id h) client_nonce (ha_server_nonce h) (app_nickname app)
       (app_introduction app) (app_ed25519_pubkey app) (app_x25519_pubkey app)
       (ha_onion_address h) (ha_token h))) (app_signature app) = true;
  vo_key : contributory (ha_host_identity h) (app_x25519_pubkey app);
  vo_open : policy = JP_Open;
}.

(** The application a request carries. *)
Definition application_of (request : JoinRequestMessage) : JoinApplication := {|
  app_nickname := jm_nickname request; app_introduction := jm_introduction request;
  app_ed25519_pubkey := jm_ed25519_pubkey request; app_x25519_pubkey := jm_x25519_pubkey request;
  app_signature := jm_signature request |}.

Lemma message_run m policy h r o y :
  on_message m policy (h, r) = (o, y) →
  (∃ e, o = Fail e ∧ y.1 = h) ∨
  (∃ verify nonce, ha_state h = HS_AwaitingToken ∧ m = M_TokenVerify verify ∧
     tv_token verify = ha_token h ∧ o = Done (Some (HR_Message (challenge_of h nonce))) ∧
     y.1 = ha_put_state HS_AwaitingProof (ha_put_challenge_nonce nonce h)) ∨
  (∃ proof nonce client_nonce, ha_state h = HS_AwaitingProof ∧ m = M_ChallengeProof proof ∧
     ha_challenge_nonce h = Some nonce ∧ ha_client_nonce h = Some client_nonce ∧
     cp_proof proof = expected_proof (ha_verifier h) nonce client_nonce ∧
     o = Done None ∧ y.1 = ha_put_state HS_AwaitingJoinForm h) ∨
  (∃ client_nonce request, let app := application_of request in
     ha_state h = HS_AwaitingJoinForm ∧ m = M_JoinRequest request ∧ ha_client_nonce h = Some client_nonce ∧
     vouched h client_nonce app policy ∧ o = Done (Some (HR_JoinRequested app)) ∧
     y.1 = ha_put_token [] (ha_put_state HS_Decided h)).
Proof.
  unfold on_message, mbind at 1, M_bind at 1, self at 1. cbn [fst snd].
  destruct (ha_state h) eqn:Es, m; try (intros [= <- <-]; left; by eauto).
  - unfold handle_token, draw_err, mbind, M_bind, self, modify. cbn [fst snd].
    case_bool_decide as Ht; cbn [negb]; [|intros [= <- <-]; left; eauto].
    destruct (random_bytes _ _) as [[nonce|] r1]; [|intros [= <- <-]; left; eauto].
    intros [= <- <-]. right. left. exists m, nonce. by split_and!.
  - unfold handle_proof, mbind, M_bind, self, modify. cbn [fst snd].
    destruct (ha_challenge_nonce h) as [nonce|] eqn:En; cbn [ok_or mret M_ret];
      [|intros [= <- <-]; left; eauto].
    destruct (ha_client_nonce h) as [cn|] eqn:Ec; cbn [ok_or mret M_ret];
      [|intros [= <- <-]; left; eauto].
    unfold verify_proof. case_bool_decide as Hp; cbn [negb]; [|intros [= <- <-]; left; eauto].
    intros [= <- <-]. right. right. left. exists m, nonce, cn. by split_and!.
  - unfold handle_join_request, mbind, M_bind, self, modify. cbn [fst snd].
    destruct (ha_client_nonce h) as [cn|] eqn:Ec; cbn [ok_or mret M_ret];
      [|intros [= <- <-]; left; eauto].
    destruct (verify_ed25519 _ _ _) eqn:Ev; cbn [negb]; [|intros [= <- <-]; left; eauto].
    destruct (host_try_wrap_key_for _ _ _ _) as [wk|] eqn:Ew; cbn [try_ mret M_ret];
      [|intros [= <- <-]; left; eauto].
    destruct (allows_join_requests policy) eqn:Ep; cbn [negb]; [|intros [= <- <-]; left; eauto].
    intros [= <- <-]. right. right. right. exists cn, m. split_and!; [done|done|done| |reflexivity|done].
    constructor; [done| |by destruct policy].
    unfold host_try_wrap_key_for, derive_checked in Ew. unfold contributory.
    cbn [app_x25519_pubkey]. by destruct (x_was_contributory _).
Qed.

(** One input, whatever was drawn from the random stream in between. *)
Lemma host_passed_step h0 trace h r i o z :
  host_passed h0 trace h → host_input i (h, r) = (o, z) → host_passed h0 (trace ++ [(i, o)]) z.1.
Proof.
  intros (Hst & Htok & Hp) Hrun. destruct i as [hello port|m policy]; simpl in Hrun.
  - revert Hrun. unfold mbind, M_bind.
    destruct (on_client_hello hello port (h, r)) as [o1 y1] eqn:E.
    destruct (hello_run _ _ _ _ _ _ E) as [(e & -> & ->)|(Hh & (m & ->) & Hy)].
    { intros [= <- <-]. by apply host_passed_keep. }
    intros [= <- <-]. rewrite Hy. split; [exact Hst|]. rewrite Hh in *.
    split; [intros _; by apply Htok|]. exists hello, port, (Done (Some (HR_Message m))).
    split; [|done]. by apply sublist_inserts_l.
  - destruct (message_run _ _ _ _ _ _ Hrun) as [(e & -> & ->)|[H|[H|H]]].
    + by apply host_passed_keep.
    + destruct H as (verify & nonce & Hh & -> & Ht & -> & ->). rewrite Hh in *.
      destruct Hp as (hello & port & o1 & Hsub & Hc). split; [exact Hst|].
      split; [intros _; by apply Htok|]. exists hello, port, o1, verify, policy, nonce.
      split_and!; [|done|done|by rewrite Ht, Htok].
      replace (challenge_of h0 nonce) with (challenge_of h nonce); [by apply (sublist_snoc_both [_])|].
      unfold challenge_of. injection Hst as _ _ -> _ _. done.
    + destruct H as (proof & nonce & cn & Hh & -> & Hn & Hc & Hpr & -> & ->). rewrite Hh in *.
      destruct Hp as (hello & port & o1 & verify & p & nonce' & Hsub & Hc' & Hn' & Ht).
      split; [exact Hst|]. split; [intros _; by apply Htok|].
      exists hello, port, o1, verify, p, nonce', proof, policy. simplify_eq.
      split_and!; [by apply (sublist_snoc_both [_; _])|done|done|].
      unfold host_static in Hst. rewrite Hpr. congruence.
    + destruct H as (cn & request & Hh & -> & _ & _ & -> & ->). split; [exact Hst|]. by split.
Qed.

Lemma host_passed_new h0 : ha_state h0 = HS_AwaitingHello → host_passed h0 [] h0.
Proof. intros Hs. split; [done|]. split; [done|]. by rewrite Hs. Qed.

Lemma host_flow_passed h0 r0 trace y :
  ha_state h0 = HS_AwaitingHello → host_flow (h0, r0) trace y → host_passed h0 trace y.1.
Proof.
  intros Hs. induction 1 as [|trace [h r] i o z _ IH Hrun]; [by apply host_passed_new|].
  by eapply host_passed_step.
Qed.

Lemma new_awaits sid token verifier host onion rng h0 r0 :
  HostAdmission_new sid token verifier host onion rng = (Ok h0, r0) →
  ha_state h0 = HS_AwaitingHello ∧ ha_token h0 = token ∧ ha_verifier h0 = verifier ∧
  ha_host_identity h0 = host ∧ ha_room_session_id h0 = sid ∧ ha_onion_address h0 = onion.
Proof.
  unfold HostAdmission_new. destruct (random_bytes _ _) as [[n|] r]; [|done]. by intros [= <- <-].
Qed.

(** C8.  Whatever a connection sends, an application reaches the room from it only
    after, in this order, a hello, the room's invitation token and the proof of the
    room's password for the challenge issued to it. The input it comes of is the
    application itself, met by an open policy; it is signed for this room and this
    connection by the key it names, and its key is one the room can wrap for. From then
    on the flow refuses every input, a second hello included, and stays as it is. *)
Theorem join_needs_credentials sid token verifier host onion rng h0 r0 trace y i app z :
  HostAdmission_new sid token verifier host onion rng = (Ok h0, r0) →
  host_flow (h0, r0) trace y → host_input i y = (Done (Some (HR_JoinRequested app)), z) →
  ∃ hello port o verify p challenge proof p' request,
    (* what came in is the application itself, and the policy was open *)
    i = HI_Message (M_JoinRequest request) JP_Open ∧ app = application_of request ∧
    (* the hello, the room's token and the proof of the password for the
       challenge issued for it, in this order *)
    [(HI_Hello hello port, o);
     (HI_Message (M_TokenVerify verify) p, Done (Some (HR_Message (challenge_of h0 challenge))));
     (HI_Message (M_ChallengeProof proof) p', Done None)] `sublist_of` trace ∧
    tv_token verify = token ∧
    cp_proof proof = expected_proof verifier challenge (ch_client_nonce hello) ∧
    (* the application is signed for this room and connection, by a key the
       room can wrap for *)
    vouched h0 (ch_client_nonce hello) app JP_Open ∧ event_ok host (EV_JoinRequested 0
      (app_nickname app) (app_introduction app) (app_ed25519_pubkey app) (app_x25519_pubkey app)
      (app_signature app)) ∧
    (* and the flow takes nothing more, a second hello included *)
    ∀ i', host_input i' z = (Fail AE_UnexpectedMessage, z).
Proof.
  intros Hnew Hflow Hrun. apply new_awaits in Hnew as (Hs & Ht & Hv & Hh & Hsid & Hon).
  apply host_flow_passed in Hflow as (Hst & Htok & Hp); [|done].
  destruct y as [h r], i as [hello port|m policy]; simpl in Hrun; cbn [fst] in *.
  { revert Hrun. unfold mbind, M_bind. by destruct (on_client_hello _ _ _) as [[] ?]. }
  destruct (message_run _ _ _ _ _ _ Hrun) as [(e & He & _)|[H|[H|H]]]; [done| | |].
  - by destruct H as (? & ? & _ & _ & _ & ? & _).
  - by destruct H as (? & ? & ? & _ & _ & _ & _ & _ & ? & _).
  - destruct H as (cn & request & Hstate & -> & Hc & Hvo & [= ->] & Hz). rewrite Hstate in *.
    assert (policy = JP_Open) as -> by (by destruct Hvo as [_ _ ?], policy).
    destruct Hp as (hello & port & o & verify & p & nonce & proof & p' & Hsub & Hc' & Htv & Hpr).
    exists hello, port, o, verify, p, nonce, proof, p', request. rewrite Hc in Hc'.
    injection Hc' as ->. injection Hst as E1 E2 E3 E4 E5. specialize (Htok ltac:(done)).
    split_and!; [done|done|done|congruence|by rewrite Hpr, Hv| | |].
    + destruct Hvo as [V1 V2 V3]. rewrite E1, E2, E5, Htok in V1. rewrite E4 in V2.
      by constructor.
    + destruct Hvo as [_ V2 _]. simpl. by rewrite <-Hh, <-E4.
    + destruct z as [z rz]. cbn [fst] in Hz. subst z. intros [hello' port'|m' policy']; [done|].
      cbn [host_input]. unfold on_message, mbind, M_bind, self. cbn. by destruct m'.
Qed.

(** * The client's flow *)

Inductive ClientInput :=
| CI_Host (message : Message)
| CI_Join (nickname : rstring) (introduction : option rstring).

Definition client_input (i : ClientInput) : CM (list Message) :=
  match i with
  | CI_Host m => on_host_message m
  | CI_Join nickname introduction => m ← join_request nickname introduction; mret [m]
  end.

Abbreviation ClientTrace := (list (ClientInput * Outcome AdmissionError (list Message)))
  (only parsing).

Inductive client_flow (x : ClientAdmission * Rng) : ClientTrace → ClientAdmission * Rng → Prop :=
| client_flow_nil : client_flow x [] x
| client_flow_snoc trace y i o z :
    client_flow x trace y → client_input i y = (o, z) → client_flow x (trace ++ [(i, o)]) z.

Definition client_static (c : ClientAdmission) :=
  (cl_invitation c, cl_identity c, cl_client_nonce c).

Definition info_of (hello : HostHello) : HostHelloInfo := {|
  hi_room_session_id := hello_room_session_id hello;
  hi_host_ed25519_pubkey := hello_host_ed25519_pubkey hello;
  hi_host_x25519_pubkey := hello_host_x25519_pubkey hello;
  hi_signature := hello_host_signature hello |}.

(** A hello signed by the key it names, for the client's invitation and
    nonce. *)
Definition signed_hello (c : ClientAdmission) (hello : HostHello) : Prop :=
  verify_ed25519 (hello_host_ed25519_pubkey hello)
    (host_hello_transcript (expected_hello c hello)) (hello_host_signature hello) = true.

Definition session_of (hello : HostHello) (id : MemberId) : ChatSession :=
  ChatSession_new (hello_room_session_id hello) (hello_host_ed25519_pubkey hello)
    (hello_host_x25519_pubkey hello) id.

(** A challenge at the protocol's Argon2id cost. *)
Definition v1_cost (challenge : PasswordChallenge) : Prop :=
  pc_m_cost challenge = ARGON2_M_COST ∧ pc_t_cost challenge = ARGON2_T_COST ∧
  pc_p_cost challenge = ARGON2_P_COST.

(** What one input may do to a client: keep what it trusts, record a signed
    hello, or open the chat it was accepted to. *)
Definition client_kept (c c' : ClientAdmission) : Prop :=
  cl_host_hello c' = cl_host_hello c ∧ cl_chat c' = cl_chat c ∧
  (cl_state c' = CL_AwaitingHostHello ↔ cl_state c = CL_AwaitingHostHello).

Definition client_pinned (i : ClientInput) (c c' : ClientAdmission) : Prop :=
  ∃ hello, i = CI_Host (M_HostHello hello) ∧ cl_state c = CL_AwaitingHostHello ∧
    signed_hello c hello ∧ cl_host_hello c' = Some (info_of hello) ∧ cl_chat c' = cl_chat c ∧
    cl_state c' = CL_AwaitingChallenge.

Definition client_opened (i : ClientInput) (c c' : ClientAdmission) : Prop :=
  ∃ accepted info, i = CI_Host (M_JoinAccepted accepted) ∧ cl_state c = CL_AwaitingDecision ∧
    cl_host_hello c = Some info ∧ cl_host_hello c' = Some info ∧ cl_state c' = CL_Admitted ∧
    cl_chat c' = Some (ChatSession_new (hi_room_session_id info) (hi_host_ed25519_pubkey info)
      (hi_host_x25519_pubkey info) (ja_member_id accepted)).

Definition proofs_cost (i : ClientInput) (o : Outcome AdmissionError (list Message)) : Prop :=
  ∀ msgs proof, o = Done msgs → M_ChallengeProof proof ∈ msgs →
    ∃ challenge, i = CI_Host (M_PasswordChallenge challenge) ∧ v1_cost challenge.

Definition client_step (i : ClientInput) (c : ClientAdmission)
    (o : Outcome AdmissionError (list Message)) (c' : ClientAdmission) : Prop :=
  client_static c' = client_static c ∧
  (client_kept c c' ∨ client_pinned i c c' ∨ client_opened i c c') ∧ proofs_cost i o.

Lemma step_fail i c e : client_step i c (Fail e) c.
Proof. split_and!; [done|left; by split_and!|done]. Qed.

Lemma hello_step hello c r o y :
  cl_state c = CL_AwaitingHostHello → handle_host_hello hello (c, r) = (o, y) →
  client_step (CI_Host (M_HostHello hello)) c o y.1.
Proof.
  intros Hs. unfold handle_host_hello, mbind, M_bind, self, modify. cbn [fst snd].
  destruct (negb (hello_version _ =? 1)%N); [intros [= <- <-]; apply step_fail|].
  destruct (verify_ed25519 _ _ _) eqn:Ev; cbn [negb]; [|intros [= <- <-]; apply step_fail].
  destruct (member_try_wrap_key_for _ _ _ _); cbn [try_ mret M_ret];
    [|intros [= <- <-]; apply step_fail].
  intros Hrun. split; [|split].
  - by destruct (TokenVerify_new _); injection Hrun as <- <-.
  - right. left. exists hello. by destruct (TokenVerify_new _); injection Hrun as <- <-.
  - intros msgs proof Ho Hin. destruct (TokenVerify_new _); injection Hrun as <- <-; [|done].
    injection Ho as <-. by apply list_elem_of_singleton in Hin.
Qed.

Lemma challenge_step challenge c r o y :
  cl_state c = CL_AwaitingChallenge → handle_challenge challenge (c, r) = (o, y) →
  client_step (CI_Host (M_PasswordChallenge challenge)) c o y.1.
Proof.
  intros Hs. unfold handle_challenge, mbind, M_bind, self, modify. cbn [fst snd].
  destruct (_ || _) eqn:Ec; [intros [= <- <-]; apply step_fail|].
  rewrite !orb_false_iff, !negb_false_iff, !N.eqb_eq in Ec. destruct Ec as [[E1 E2] E3].
  destruct (compute_password_proof _ _ _ _ _ _ _); cbn [try_ mret M_ret];
    intros [= <- <-]; [|apply step_fail].
  split; [done|]. split; [left; split_and!; [done..|by rewrite Hs]|].
  intros msgs proof _ _. by exists challenge.
Qed.

Lemma join_step nickname introduction c r o y :
  client_input (CI_Join nickname introduction) (c, r) = (o, y) →
  client_step (CI_Join nickname introduction) c o y.1.
Proof.
  simpl. unfold join_request, mbind, M_bind, self, modify. cbn [fst snd].
  case_bool_decide as Hs; cbn [negb]; [|intros [= <- <-]; apply step_fail].
  destruct (cl_host_hello c) eqn:Eh; cbn [ok_or mret M_ret]; [|intros [= <- <-]; apply step_fail].
  destruct (cl_server_nonce c); cbn [ok_or mret M_ret]; [|intros [= <- <-]; apply step_fail].
  destruct (validate_nickname _ _); cbn [try_ mret M_ret]; [|intros [= <- <-]; apply step_fail].
  destruct (JoinRequestMessage_new _ _ _ _ _); cbn [try_ mret M_ret];
    intros [= <- <-]; [|apply step_fail].
  split; [done|]. split; [left; split_and!; [done..|by rewrite Hs]|]. intros msgs proof [= <-] Hin.
  by apply list_elem_of_singleton in Hin.
Qed.

Lemma client_run i c r o y : client_input i (c, r) = (o, y) → (cl_state c = CL_AwaitingDecision →
  is_Some (cl_host_hello c)) → client_step i c o y.1.
Proof.
  intros Hrun Hinfo. destruct i as [m|]; [|by eapply join_step].
  revert Hrun. cbn [client_input]. unfold on_host_message. unfold mbind at 1, M_bind at 1, self at 1.
  cbn [fst snd]. destruct (cl_state c) eqn:Es, m; try (intros [= <- <-]; apply step_fail).
  - by apply hello_step.
  - by apply challenge_step.
  - destruct (Hinfo eq_refl) as [info Ei]. rewrite Ei. unfold mbind, M_bind, modify. cbn [fst snd].
    intros [= <- <-]. split; [done|]. split; [|by intros msgs proof [= <-] ?%elem_of_nil].
    right. right. by exists m, info.
Qed.

(** What a client trusts, given the history of its connection. *)
Definition client_ok (c0 : ClientAdmission) (trace : ClientTrace) (c : ClientAdmission) : Prop :=
  client_static c = client_static c0 ∧
  match cl_host_hello c with
  | None => cl_state c = CL_AwaitingHostHello ∧ cl_chat c = None
  | Some info => cl_state c ≠ CL_AwaitingHostHello ∧
      ∃ hello o, [(CI_Host (M_HostHello hello), o)] `sublist_of` trace ∧
        signed_hello c0 hello ∧ info = info_of hello ∧
        ∀ s, cl_chat c = Some s → ∃ id o',
          [(CI_Host (M_HostHello hello), o); (CI_Host (M_JoinAccepted {| ja_member_id := id |}), o')]
            `sublist_of` trace ∧ s = session_of hello id
  end.

Lemma signed_hello_static c c' hello :
  client_static c = client_static c' → signed_hello c hello → signed_hello c' hello.
Proof. unfold signed_hello, expected_hello. by intros [= -> _ ->]. Qed.

Lemma client_ok_step c0 trace c i o c' :
  client_ok c0 trace c → client_step i c o c' → client_ok c0 (trace ++ [(i, o)]) c'.
Proof.
  intros [Hst Hok] (Hst' & Hstep & _). split; [congruence|].
  destruct Hstep as [(H1 & H2 & H3)|[Hpin|Hopen]].
  - rewrite H1. destruct (cl_host_hello c) as [info|].
    + destruct Hok as (Hne & hello & o1 & Hsub & Hsig & Hi & Hchat). split; [by rewrite H3|].
      exists hello, o1. split_and!; [by apply sublist_snoc_keep|done|done|]. rewrite H2.
      intros s Hs. destruct (Hchat s Hs) as (id & o' & Hsub' & ->). exists id, o'.
      split; [by apply sublist_snoc_keep|done].
    + destruct Hok as [Hs Hc]. split; [by apply H3|congruence].
  - destruct Hpin as (hello & -> & Hs & Hsig & Hh & Hchat & Hs'). rewrite Hh.
    split; [by rewrite Hs'|]. exists hello, o. split_and!; [by apply sublist_inserts_l| |done|].
    + by eapply signed_hello_static.
    + rewrite Hchat. intros s Hc. destruct (cl_host_hello c) as [info|].
      * by destruct Hok as [? _].
      * destruct Hok as [_ Hn]. congruence.
  - destruct Hopen as ([id] & info & -> & Hs & Hh & Hh' & Hs' & Hchat). rewrite Hh' , Hh in *.
    destruct Hok as (_ & hello & o1 & Hsub & Hsig & -> & _). split; [by rewrite Hs'|].
    exists hello, o1. split_and!; [by apply sublist_snoc_keep|done|done|].
    rewrite Hchat. intros s [= <-]. exists id, o. split; [by apply (sublist_snoc_both [_])|done].
Qed.

Lemma client_flow_ok c0 r0 trace y :
  cl_host_hello c0 = None → cl_chat c0 = None → cl_state c0 = CL_AwaitingHostHello →
  client_flow (c0, r0) trace y → client_ok c0 trace y.1 ∧ Forall (λ p, proofs_cost p.1 p.2) trace.
Proof.
  intros H1 H2 H3. induction 1 as [|trace [c r] i o z _ [IH Hf] Hrun].
  { split; [|constructor]. split; [done|]. simpl. by rewrite H1. }
  cbn [fst] in *. assert (Hstep : client_step i c o z.1).
  { eapply client_run; [exact Hrun|]. intros Hs. destruct IH as [_ IH].
    destruct (cl_host_hello c); [done|]. destruct IH as [IH _]. congruence. }
  split; [by apply client_ok_step with c|]. apply list.Forall_app. split; [done|].
  constructor; [|constructor]. by destruct Hstep as (_ & _ & ?).
Qed.

(** C9.  Whatever a client is sent, its chat session is of a host that signed the
    client's own invitation and nonce under the key the session trusts, after which the
    host's decision arrived; and it proves its password only to a challenge at the
    protocol's Argon2id cost. *)
Theorem client_trusts_signed_host invitation password rng c0 r0 trace c r :
  ClientAdmission_new invitation password rng = (Ok c0, r0) → client_flow (c0, r0) trace (c, r) →
  (* the chat session is of a host that signed the client's invitation and
     nonce, and opens with the host's decision *)
  (∀ s, cl_chat c = Some s → ∃ hello id o o',
     [(CI_Host (M_HostHello hello), o); (CI_Host (M_JoinAccepted {| ja_member_id := id |}), o')]
       `sublist_of` trace ∧
     verify_ed25519 (hello_host_ed25519_pubkey hello) (host_hello_transcript {|
       hh_version := 1; hh_onion_address := inv_onion_address invitation;
       hh_virtual_port := inv_port invitation;
       hh_room_session_id := hello_room_session_id hello;
       hh_host_ed25519_pubkey := hello_host_ed25519_pubkey hello;
       hh_host_x25519_pubkey := hello_host_x25519_pubkey hello;
       hh_client_nonce := cl_client_nonce c0; hh_server_nonce := hello_server_nonce hello;
       hh_token_hash := sha256 (inv_token invitation); hh_offered_version := 1;
       hh_client_features := 0 |}) (hello_host_signature hello) = true ∧
     s = session_of hello id) ∧
  (* and the password is proved only at the protocol's cost *)
  (∀ m msgs proof, (CI_Host m, Done msgs) ∈ trace → M_ChallengeProof proof ∈ msgs →
     ∃ challenge, m = M_PasswordChallenge challenge ∧ v1_cost challenge).
Proof.
  intros Hnew Hflow.
  assert (H0 : cl_invitation c0 = invitation ∧ cl_host_hello c0 = None ∧ cl_chat c0 = None ∧
    cl_state c0 = CL_AwaitingHostHello).
  { revert Hnew. unfold ClientAdmission_new. destruct (MemberIdentity_generate rng) as [[im|] r1]; [|done].
    destruct (random_bytes _ _) as [[n|] r2]; [|done]. by intros [= <- <-]. }
  destruct H0 as (Hinv & H1 & H2 & H3).
  destruct (client_flow_ok _ _ _ _ H1 H2 H3 Hflow) as [[_ Hok] Hf]. cbn [fst] in Hok. split.
  - intros s Hs. destruct (cl_host_hello c) as [info|]; [|by destruct Hok as [_ ?]; congruence].
    destruct Hok as (_ & hello & o & _ & Hsig & -> & Hchat).
    destruct (Hchat s Hs) as (id & o' & Hsub & ->). exists hello, id, o, o'.
    split_and!; [done| |done]. unfold signed_hello, expected_hello in Hsig. by rewrite Hinv in Hsig.
  - intros m msgs proof Hin Hp. rewrite list.Forall_forall in Hf. specialize (Hf _ Hin).
    destruct (Hf msgs proof eq_refl Hp) as (challenge & [= ->] & Hc). by exists challenge.
Qed.
End flows.
