(* ===== verification/RoomTask.v ===== *)
(** [src/room/task.rs]: the task that owns a room, from its queue of events
    to its queue of action batches.

    The queues are the task's environment: an input is the next event, with
    the two readings of the task's clock, or the end of the event queue; and
    whether the consumer of the batches still listens. The texts of errors
    are written by derived code ([thiserror], [Debug]); they are the class
    [ErrorTexts]. *)
From Stdlib Require Import Strings.String.
From S2P Require Export Admission RoomSafe.

Class ErrorTexts := {
  room_error_text : RoomError → rstring;
  admission_error_text : AdmissionError → rstring;
  chat_error_text : ChatError → rstring;
  crypto_error_text : CryptoError → rstring;
  message_debug : Message → rstring;
}.

(** [ErrorMessage::new(code, Some(reason))], without a reason where that one
    is refused; the bare error is always valid. *)
Definition error_message (code : ErrorCode) (reason : rstring) : Message :=
  M_Error match ErrorMessage_new code (Some reason) with
          | Ok m => m
          | Err _ => {| em_code := code; em_reason := None |}
          end.

Record RoomTask := { rt_actor : RoomActor; rt_rng : Rng; rt_running : bool }.

(** The connection an event is blamed on. *)
Definition offender (event : RoomEvent) : option ConnectionId :=
  match event with
  | EV_JoinRequested connection _ _ _ _ _ | EV_ChatReceived connection _ _
  | EV_MemberCommand connection _ | EV_EpochAck connection _ => Some connection
  | _ => None
  end.

Definition offence_code (error : RoomError) : ErrorCode :=
  match error with
  | RE_PolicyLocked => EC_RoomLocked
  | RE_RoomClosed => EC_RoomClosed
  | _ => EC_ProtocolViolation
  end.

Section task.
Context `{Primitives} `{Nfc} `{ErrorTexts}.

(** The [Err] arm for an offending connection: what it is sent, and the
    actions of its removal. *)
Definition drop_offender (error : RoomError) (c : ConnectionId) (now : Duration) (s : RoomActor * Rng)
    : option (list RoomAction) * (RoomActor * Rng) :=
  let actions := [SendTo c (error_message (offence_code error) (room_error_text error)); CloseConnection c] in
  match handle_event_at (EV_ConnectionLost c) now s with
  | (Done cleanup, s) => (Some (actions ++ cleanup), s)
  | (Fail _, s) => (Some actions, s)
  | (Panic, s) => (None, s)
  end.

(** One event: the batch, [None] where the actor panics. *)
Definition task_event (event : RoomEvent) (now now' : Duration) (s : RoomActor * Rng)
    : option (list RoomAction) * (RoomActor * Rng) :=
  match handle_event_at event now s with
  | (Done actions, s) => (Some actions, s)
  | (Panic, s) => (None, s)
  | (Fail error, s) =>
      if is_transient error then (Some [], s) else
      let notice := [NotifyHost (HN_Error (room_error_text error))] in
      match offender event with
      | Some c =>
          if (c =? ra_host_connection s.1)%N then (Some notice, s) else
          match drop_offender error c now' s with
          | (Some actions, s) => (Some (notice ++ actions), s)
          | (None, s) => (None, s)
          end
      | None => (Some notice, s)
      end
  end.

Inductive TaskInput :=
| TI_Event (event : RoomEvent) (now now' : Duration)
| TI_Closed.

(** The closing of the room once the queue of events has closed. *)
Definition task_close (s : RoomActor * Rng) : option (list RoomAction) * (RoomActor * Rng) :=
  match close_room s with
  | (Done actions, s) => (Some actions, s)
  | (Fail _, s) => (Some [], s)
  | (Panic, s) => (None, s)
  end.

(** One turn of the loop: the batches sent and the task, [None] where it
    panicked. Sending to a consumer that is gone ends the loop and closes
    the room. *)
Definition task_step (input : TaskInput) (listening : bool) (t : RoomTask)
    : option (list (list RoomAction) * RoomTask) :=
  let put s running := {| rt_actor := s.1; rt_rng := s.2; rt_running := running |} in
  let sent batch := if listening then [batch] else [] in
  if negb (rt_running t) then Some ([], t) else
  match input with
  | TI_Closed =>
      let '(r, s) := task_close (rt_actor t, rt_rng t) in
      actions ← r; Some (sent actions, put s false)
  | TI_Event event now now' =>
      let '(r, s) := task_event event now now' (rt_actor t, rt_rng t) in
      batch ← r;
      match batch with
      | [] => Some ([], put s true)
      | _ =>
          if listening then Some ([batch], put s true)
          else let '(r, s) := task_close s in _ ← r; Some ([], put s false)
      end
  end.

(** [RoomTask::spawn_started]. *)
Definition spawn_started (a : RoomActor) (rng : Rng) : option (Result (RoomTask * list RoomAction) RoomError) :=
  match start (a, rng) with
  | (Done initial, s) => Some (Ok ({| rt_actor := s.1; rt_rng := s.2; rt_running := true |}, initial))
  | (Fail e, _) => Some (Err e)
  | (Panic, _) => None
  end.
End task.

(** * The task runs the room *)

Section props.
Context `{Primitives} `{Nfc} `{ErrorTexts}.
Context (limits : Limits) (hid : HostIdentity) (mid : MemberIdentity) (Ev : RoomEvent → Prop).
Context (HEv : ∀ c, Ev (EV_ConnectionLost c)).

Lemma reachable_step s ev now o s' :
  reachable limits hid mid Ev s → Ev ev → handle_event_at ev now s = (o, s') → o ≠ Panic →
  reachable limits hid mid Ev s'.
Proof. by apply reach_event. Qed.

(** An event is handled, and then the loss of the connection that offended. *)
Lemma task_event_runs ev now now' s batch s' :
  task_event ev now now' s = (Some batch, s') →
  ∃ o s1, handle_event_at ev now s = (o, s1) ∧ o ≠ Panic ∧
    (s' = s1 ∨ ∃ c o', handle_event_at (EV_ConnectionLost c) now' s1 = (o', s') ∧ o' ≠ Panic).
Proof.
  unfold task_event. destruct (handle_event_at ev now s) as [[acts|e|] s1] eqn:E1; [|..|done]; intros Hrun;
    eexists _, s1; (split; [done|]); (split; [done|]).
  - injection Hrun as _ <-. by left.
  - revert Hrun. destruct (is_transient e); [intros [= _ <-]; by left|].
    destruct (offender ev) as [c|]; [|intros [= _ <-]; by left].
    destruct (_ =? _)%N; [intros [= _ <-]; by left|]. unfold drop_offender.
    destruct (handle_event_at (EV_ConnectionLost c) now' s1) as [[acts|e'|] s2] eqn:E2; [| |done];
      intros [= _ <-]; right; by eexists c, _.
Qed.

Lemma task_event_reachable ev now now' s batch s' :
  reachable limits hid mid Ev s → Ev ev → task_event ev now now' s = (Some batch, s') →
  reachable limits hid mid Ev s'.
Proof.
  intros Hr Hev (o & s1 & E1 & Ho & [->|(c & o' & E2 & Ho')])%task_event_runs; [by eapply reachable_step|].
  eapply reachable_step; [|apply (HEv c)|exact E2|done]. by eapply reachable_step.
Qed.

Lemma wp_bind_any {A B} (m : M A) (k : A → M B) Q s :
  (∀ a s, wp (k a) Q s) → (∀ e s, Q (Fail e) s) → (∀ s, Q Panic s) → wp (m ≫= k) Q s.
Proof.
  intros Hk He Hp. rewrite wp_bind. unfold wp at 1. destruct (m s) as [[a|e|] s1]; simpl; [apply Hk|apply He|apply Hp].
Qed.

(** A connection the room has lost is in none of its tables. *)
Lemma lost_forgotten c now s acts s' :
  handle_event_at (EV_ConnectionLost c) now s = (Done acts, s') → c ≠ ra_host_connection s.1 →
  ra_connections s'.1 !! c = None.
Proof.
  intros Hrun Hc.
  assert (Hl : ∀ s, c ≠ ra_host_connection s.1 →
    wp (on_connection_lost c) (λ o s', ∀ acts, o = Done acts → ra_connections s'.1 !! c = None) s).
  { intros [a r] Ha. unfold on_connection_lost. rewrite wp_self. cbn [fst snd] in *.
    rewrite (proj2 (N.eqb_neq _ _) Ha), wp_modify. apply wp_bind_any; [|done..]. intros acts0 [b r'].
    rewrite wp_modify. intros acts1 _. cbn. unfold conn_remove. by rewrite lookup_delete_eq. }
  assert (Hw : wp (handle_event_at (EV_ConnectionLost c) now)
    (λ o s', ∀ acts, o = Done acts → ra_connections s'.1 !! c = None) s).
  { unfold handle_event_at. rewrite wp_modify, wp_self. cbn [fst snd].
    destruct (ra_state _); try (by intros ? [=]); by apply Hl. }
  unfold wp in Hw. rewrite Hrun in Hw. by eapply Hw.
Qed.

(** Nothing of a connection is left in the room. *)
Definition forgotten (a : RoomActor) (c : ConnectionId) : Prop :=
  ra_connections a !! c = None ∧ request_at (ra_requests a) c = None ∧ member_at (ra_members a) c = None.

Lemma lost_forgotten_ok a c : room_ok a → ra_connections a !! c = None → forgotten a c.
Proof.
  intros [_ _ _ Hl _ _ _ _ _ _] Hc. specialize (Hl c). unfold role_view, conn_request_id, conn_member_id in Hl.
  rewrite Hc in Hl. simpl in Hl. injection Hl as Hl1 Hl2. by split_and!.
Qed.

(** C14.  What the room's task makes of a failed event: a rejection that is the
    room's timing costs nobody anything; any other error is shown to the host, and an
    offending connection other than the host's is told why and closed, and the room
    forgets it, its pending application and its member included; only where that removal
    itself fails does the room keep the connection. *)
Theorem offender_is_dropped s ev now now' e s1 batch s' :
  reachable limits hid mid Ev s → Ev ev → handle_event_at ev now s = (Fail e, s1) →
  task_event ev now now' s = (Some batch, s') →
  let notice := NotifyHost (HN_Error (room_error_text e)) in
  if is_transient e then batch = [] ∧ s' = s1 else
  match offender ev with
  | Some c =>
      if (c =? ra_host_connection s1.1)%N then batch = [notice] ∧ s' = s1 else
      ∃ cleanup, batch = [notice; SendTo c (error_message (offence_code e) (room_error_text e)); CloseConnection c]
                           ++ cleanup ∧
        (forgotten s'.1 c ∨ ∃ e', handle_event_at (EV_ConnectionLost c) now' s1 = (Fail e', s'))
  | None => batch = [notice] ∧ s' = s1
  end.
Proof.
  intros Hr Hev E1. unfold task_event. rewrite E1. pose proof (reachable_step _ _ _ _ _ Hr Hev E1 ltac:(done)) as Hr1.
  destruct (is_transient e); [by intros [= <- <-]|]. destruct (offender ev) as [c|]; [|by intros [= <- <-]].
  destruct (N.eqb_spec c (ra_host_connection s1.1)) as [|Hc]; [by intros [= <- <-]|]. unfold drop_offender.
  destruct (handle_event_at (EV_ConnectionLost c) now' s1) as [[acts|e'|] s2] eqn:E2; [| |done]; intros [= <- <-].
  - exists acts. split; [done|]. left. apply lost_forgotten_ok; [|by eapply lost_forgotten].
    eapply (reachable_room_ok limits hid mid Ev). by apply (reachable_step s1 _ _ _ _ Hr1 (HEv c) E2).
  - exists []. split; [done|]. right. by exists e'.
Qed.

(** A run of the task leaves a room that [reachable] describes, so what is
    proved of reachable rooms holds of the room the program runs. *)
Lemma task_step_reachable input listening t batches t' :
  reachable limits hid mid Ev (rt_actor t, rt_rng t) →
  match input with TI_Event ev _ _ => Ev ev | TI_Closed => False end →
  task_step input listening t = Some (batches, t') → rt_running t' = true →
  reachable limits hid mid Ev (rt_actor t', rt_rng t').
Proof.
  intros Hr Hin Hrun. revert Hrun. unfold task_step. destruct (rt_running t); [|by intros [= _ <-]]. cbn [negb].
  destruct input as [ev now now'|]; [|done].
  destruct (task_event ev now now' _) as [[batch|] [a r]] eqn:E; [|done]. cbn [mbind option_bind].
  pose proof (task_event_reachable _ _ _ _ _ _ Hr Hin E) as Hr'.
  destruct batch; [by intros [= _ <-]|]. destruct listening; [by intros [= _ <-]|].
  destruct (task_close (a, r)) as [[acts|] s2]; [|done]. cbn. intros [= _ <-]. done.
Qed.
(** With a consumer that listens, an event never stops the task. *)
Lemma task_listening ev now now' t batches t' :
  task_step (TI_Event ev now now') true t = Some (batches, t') →
  t' = t ∨ ∃ batch, task_event ev now now' (rt_actor t, rt_rng t) = (Some batch, (rt_actor t', rt_rng t')).
Proof.
  unfold task_step. destruct (rt_running t); [|intros [= _ <-]; by left]. cbn [negb].
  destruct (task_event ev now now' _) as [[batch|] [a r]] eqn:E; [|done]. cbn [mbind option_bind].
  intros Hrun. right. exists batch. by destruct batch; injection Hrun as _ <-.
Qed.

Lemma task_event_listening ev now now' t batches t' :
  reachable limits hid mid Ev (rt_actor t, rt_rng t) → Ev ev →
  task_step (TI_Event ev now now') true t = Some (batches, t') →
  reachable limits hid mid Ev (rt_actor t', rt_rng t').
Proof.
  intros Hr Hev [->|[batch E]]%task_listening; [done|]. by eapply task_event_reachable.
Qed.
End props.
