(* ===== verification/HostDriver.v ===== *)
(** [src/app.rs], the host's side: the supervisor that owns a host session.

    The supervisor's loop draws the screen, drops stale connections and then
    handles what [select!] picked. A turn is given its environment: the
    reading of the clock, what the connections' queues answer to the sends of
    the turn, in order, and what the clipboard answers. Events for the room
    are collected in [hd_sent], messages a connection's queue took in
    [hd_delivered]. *)
From Stdlib Require Import Strings.String.
From S2P Require Export RoomTask AdmissionClient Screens HostNet.

Definition VIRTUAL_PORT : u16 := 80.

(** What a session is made of and never changes. *)
Record HostConfig := {
  hg_session_id : RoomSessionId;
  hg_host_identity : HostIdentity;
  hg_client_identity : MemberIdentity;
  hg_verifier : PasswordVerifier;
  hg_onion_address : rstring;
}.

Record HostConnection := {
  hx_admission : HostAdmission;
  hx_stage_since : Instant;
  hx_last_seen : Instant;
  hx_admitted : bool;
}.

Definition hx_put_admission (a : HostAdmission) (x : HostConnection) : HostConnection := {|
  hx_admission := a; hx_stage_since := hx_stage_since x; hx_last_seen := hx_last_seen x;
  hx_admitted := hx_admitted x |}.
Definition hx_put_times (stage_since last_seen : Instant) (admitted : bool) (x : HostConnection) : HostConnection := {|
  hx_admission := hx_admission x; hx_stage_since := stage_since; hx_last_seen := last_seen;
  hx_admitted := admitted |}.

Record HostDriver := {
  hd_chat : ChatSession;
  hd_token : list byte;
  hd_policy : JoinPolicy;
  hd_connections : gmap ConnectionId HostConnection;
  hd_guard : PasswordGuard;
  hd_network : HostNetwork;
  hd_app : App;
  hd_sent : list RoomEvent;
  hd_attempts : nat;
  hd_delivered : list (ConnectionId * Message);
}.

(** Field assignment. *)
Definition hd_put_chat (v : ChatSession) (d : HostDriver) : HostDriver := {|
  hd_chat := v; hd_token := hd_token d; hd_policy := hd_policy d; hd_connections := hd_connections d;
  hd_guard := hd_guard d; hd_network := hd_network d; hd_app := hd_app d; hd_sent := hd_sent d;
  hd_attempts := hd_attempts d; hd_delivered := hd_delivered d |}.
Definition hd_put_token (v : list byte) (d : HostDriver) : HostDriver := {|
  hd_chat := hd_chat d; hd_token := v; hd_policy := hd_policy d; hd_connections := hd_connections d;
  hd_guard := hd_guard d; hd_network := hd_network d; hd_app := hd_app d; hd_sent := hd_sent d;
  hd_attempts := hd_attempts d; hd_delivered := hd_delivered d |}.
Definition hd_put_policy (v : JoinPolicy) (d : HostDriver) : HostDriver := {|
  hd_chat := hd_chat d; hd_token := hd_token d; hd_policy := v; hd_connections := hd_connections d;
  hd_guard := hd_guard d; hd_network := hd_network d; hd_app := hd_app d; hd_sent := hd_sent d;
  hd_attempts := hd_attempts d; hd_delivered := hd_delivered d |}.
Definition hd_put_connections (v : gmap ConnectionId HostConnection) (d : HostDriver) : HostDriver := {|
  hd_chat := hd_chat d; hd_token := hd_token d; hd_policy := hd_policy d; hd_connections := v;
  hd_guard := hd_guard d; hd_network := hd_network d; hd_app := hd_app d; hd_sent := hd_sent d;
  hd_attempts := hd_attempts d; hd_delivered := hd_delivered d |}.
Definition hd_put_guard (v : PasswordGuard) (d : HostDriver) : HostDriver := {|
  hd_chat := hd_chat d; hd_token := hd_token d; hd_policy := hd_policy d; hd_connections := hd_connections d;
  hd_guard := v; hd_network := hd_network d; hd_app := hd_app d; hd_sent := hd_sent d;
  hd_attempts := hd_attempts d; hd_delivered := hd_delivered d |}.
Definition hd_put_network (v : HostNetwork) (d : HostDriver) : HostDriver := {|
  hd_chat := hd_chat d; hd_token := hd_token d; hd_policy := hd_policy d; hd_connections := hd_connections d;
  hd_guard := hd_guard d; hd_network := v; hd_app := hd_app d; hd_sent := hd_sent d;
  hd_attempts := hd_attempts d; hd_delivered := hd_delivered d |}.
Definition hd_put_app (v : App) (d : HostDriver) : HostDriver := {|
  hd_chat := hd_chat d; hd_token := hd_token d; hd_policy := hd_policy d; hd_connections := hd_connections d;
  hd_guard := hd_guard d; hd_network := hd_network d; hd_app := v; hd_sent := hd_sent d;
  hd_attempts := hd_attempts d; hd_delivered := hd_delivered d |}.
Definition hd_put_sent (v : list RoomEvent) (d : HostDriver) : HostDriver := {|
  hd_chat := hd_chat d; hd_token := hd_token d; hd_policy := hd_policy d; hd_connections := hd_connections d;
  hd_guard := hd_guard d; hd_network := hd_network d; hd_app := hd_app d; hd_sent := v;
  hd_attempts := hd_attempts d; hd_delivered := hd_delivered d |}.
Definition hd_put_attempts (v : nat) (d : HostDriver) : HostDriver := {|
  hd_chat := hd_chat d; hd_token := hd_token d; hd_policy := hd_policy d; hd_connections := hd_connections d;
  hd_guard := hd_guard d; hd_network := hd_network d; hd_app := hd_app d; hd_sent := hd_sent d;
  hd_attempts := v; hd_delivered := hd_delivered d |}.
Definition hd_put_delivered (v : list (ConnectionId * Message)) (d : HostDriver) : HostDriver := {|
  hd_chat := hd_chat d; hd_token := hd_token d; hd_policy := hd_policy d; hd_connections := hd_connections d;
  hd_guard := hd_guard d; hd_network := hd_network d; hd_app := hd_app d; hd_sent := hd_sent d;
  hd_attempts := hd_attempts d; hd_delivered := v |}.

Record Env := {
  env_now : Clock;
  env_queue : nat → TrySend;
  env_clipboard : Result unit rstring;
}.

(** The error a message is answered with. *)
Abbreviation HandlerError := (ErrorCode * rstring)%type (only parsing).
Abbreviation DM := (Comp HostDriver HandlerError) (only parsing).

(** [Debug] of the enums the supervisor prints. *)
Definition policy_debug (p : JoinPolicy) : rstring :=
  match p with JP_Open => lit "Open" | JP_Locked => lit "Locked" end.
Definition color_debug (c : ColorChoice) : rstring :=
  match c with
  | Red => lit "Red" | Green => lit "Green" | Yellow => lit "Yellow" | Blue => lit "Blue"
  | Magenta => lit "Magenta" | Cyan => lit "Cyan" | White => lit "White"
  end.

(** [Duration::as_secs]. *)
Definition as_secs (d : Duration) : N := d / 1000000000.

Definition member_line (m : MemberView) : MemberLine := {|
  mln_member_id := mv_member_id m; mln_nickname := mv_nickname m; mln_color := mv_color m;
  mln_is_host := mv_is_host m |}.
Definition info_line (m : MemberInfo) : MemberLine := {|
  mln_member_id := info_member_id m; mln_nickname := info_nickname m; mln_color := info_color m;
  mln_is_host := info_is_host m |}.

(** The request panel: [sort_by_key] on the ids, which is stable. *)
Fixpoint insert_request (r : RequestLine) (l : list RequestLine) : list RequestLine :=
  match l with
  | [] => [r]
  | x :: l => if (rl_request_id r <=? rl_request_id x)%N then r :: x :: l else x :: insert_request r l
  end.
Definition sort_requests (l : list RequestLine) : list RequestLine := foldr insert_request [] l.

Definition request_lines (joins : list RequestInfo) (timeouts : list TimeoutRequestInfo) : list RequestLine :=
  sort_requests
    (((λ r, {| rl_request_id := ri_request_id r; rl_nickname := ri_nickname r;
               rl_kind := RK_Join (ri_introduction r) |}) <$> joins)
     ++ ((λ r, {| rl_request_id := ti_request_id r; rl_nickname := ti_nickname r;
                  rl_kind := RK_Timeout (ti_seconds r) |}) <$> timeouts)).

Section driver.
Context `{Primitives} `{Hashes} `{Nfc} `{UriPrimitives} `{ErrorTexts}.
Context (cfg : HostConfig) (env : Env).

(** ** Effects *)

(** [room.send(event).await]: the queue is awaited, never full. *)
Definition room_send (event : RoomEvent) : DM unit := modify (λ d, hd_put_sent (hd_sent d ++ [event]) d).

Definition net_send (c : ConnectionId) (message : Message) : DM (Result unit PeerSendError) :=
  d ← self;
  let r := send_to c (env_queue env (hd_attempts d)) (hd_network d) in
  modify (hd_put_attempts (S (hd_attempts d)));;
  match r with
  | Ok _ => modify (λ d, hd_put_delivered (hd_delivered d ++ [(c, message)]) d)
  | Err _ => mret tt
  end;;
  mret r.

Definition close_connection (c : ConnectionId) : DM unit :=
  modify (λ d, hd_put_network (net_close c (hd_network d)) d).

Definition on_view (f : RoomView → RoomView) : DM unit :=
  modify (λ d, hd_put_app (with_room_view f (hd_app d)) d).

Definition show_error (text : rstring) : DM unit := on_view (push_error text (env_now env)).
Definition show_system (text : rstring) : DM unit := on_view (push_system text (env_now env)).
Definition show_notice (text : rstring) : DM unit := on_view (view_notice text (env_now env)).

Definition with_chat {A} (m : Comp ChatSession ChatError A) : DM (Result A ChatError) :=
  zoom hd_chat hd_put_chat m.

Definition set_chat (f : ChatSession → ChatSession) : DM unit := modify (λ d, hd_put_chat (f (hd_chat d)) d).

Definition sync_members_from_session : DM unit :=
  d ← self; on_view (set_members (member_line <$> cs_members (hd_chat d))).

Definition refresh_host_requests : DM unit := room_send (EV_HostCommand HC_Requests).
Definition refresh_host_members : DM unit := room_send (EV_MemberCommand HOST_CONNECTION MCmd_List).

Definition remove_connection (c : ConnectionId) : DM unit :=
  modify (λ d, hd_put_connections (delete c (hd_connections d)) d).

(** ** Actions of the room *)

(** The [EpochWrap] arm. *)
Definition install_wrap (wrap : EpochWrap) : DM unit :=
  match member_try_wrap_key_for (hg_client_identity cfg) (host_x25519_pubkey (hg_host_identity cfg))
          (hg_session_id cfg) 0 with
  | Err error => show_error (crypto_error_text error)
  | Ok wrap_key =>
      match unwrap_epoch_key wrap_key (ew_epoch wrap) (hg_session_id cfg) (ew_nonce wrap) (ew_ciphertext wrap) with
      | Ok epoch_key =>
          set_chat (install_epoch (ew_epoch wrap) epoch_key);;
          room_send (EV_EpochAck HOST_CONNECTION (ew_epoch wrap));;
          on_view (set_status (lit "epoch " ++ display_N (ew_epoch wrap)))
      | Err error => show_error (crypto_error_text error)
      end
  end.

(** The name and the color a chat line is shown under. *)
Definition sender_label (s : ChatSession) (sender : u64) : rstring * ColorChoice :=
  match session_member s sender with
  | Some m => (mv_nickname m, mv_color m)
  | None => (lit "member " ++ display_N sender, ColorChoice_default)
  end.

(** A message to the host's own connection. *)
Definition host_message (message : Message) : DM unit :=
  match message with
  | M_EpochWrap wrap => install_wrap wrap
  | M_Shutdown => show_system (lit "the room is closing")
  | M_ChatMessage envelope =>
      r ← with_chat (receive_chat envelope);
      match r with
      | Ok text =>
          d ← self;
          let '(nickname, color) := sender_label (hd_chat d) (env_sender_id envelope) in
          on_view (push_chat nickname color text (env_now env))
      | Err error => show_error (chat_error_text error)
      end
  | M_ColorChange envelope =>
      r ← with_chat (receive_color envelope);
      match r with
      | Ok color => set_chat (recolor (env_sender_id envelope) color)
      | Err error => show_error (chat_error_text error)
      end;;
      sync_members_from_session
  | other =>
      r ← with_chat (handle_membership_message other);
      match r with
      | Ok _ => sync_members_from_session
      | Err error => show_error (chat_error_text error)
      end
  end.

Definition is_join_accepted (m : Message) : bool := match m with M_JoinAccepted _ => true | _ => false end.

(** A message to a client. *)
Definition client_message (c : ConnectionId) (message : Message) : DM unit :=
  r ← net_send c message;
  match r with
  | Ok _ =>
      if is_join_accepted message then
        modify (λ d, hd_put_network (mark_admitted c (hd_network d)) d);;
        modify (λ d, hd_put_connections
          (alter (λ x, hx_put_times (hx_stage_since x) (ck_instant (env_now env)) true x) c (hd_connections d)) d)
      else mret tt
  | Err _ => close_connection c;; room_send (EV_ConnectionLost c)
  end.

(** [send_timeout_changed] and the event that carries its envelope to the
    room; [Ok] where it was sent. *)
Definition announce_timeout (interval : option u64) (shown : DM unit) : DM unit :=
  r ← with_chat (send_timeout_changed (hg_client_identity cfg) interval);
  match r with
  | Ok (M_TimeoutChanged envelope) =>
      room_send (EV_ChatReceived HOST_CONNECTION MSG_TIMEOUT_CHANGED envelope);; shown
  | Ok _ => mret tt
  | Err error => show_error (chat_error_text error)
  end.

Definition rotate_invitation (new_token : list byte) : DM unit :=
  modify (hd_put_token new_token);;
  match Invitation_new (hg_onion_address cfg) VIRTUAL_PORT new_token with
  | Ok invitation =>
      let uri := to_uri_string invitation in
      on_view (set_invitation uri);;
      on_view (push_muted (lit "Invitation: " ++ uri) (env_now env));;
      on_view (push_muted (lit "press Ctrl-Y or run /copy to copy the invitation") (env_now env))
  | Err _ => show_error (lit "the invitation could not be built")
  end.

(** [{nickname} (id {id})]. *)
Definition named (id : MemberId) (nickname : rstring) : rstring :=
  nickname ++ lit " (id " ++ display_N id ++ lit ")".

Definition host_notice (notice : HostNotice) : DM unit :=
  match notice with
  | HN_InvitationRotated token => rotate_invitation token
  | HN_JoinRequestPending request_id _ nickname introduction =>
      show_notice (lit "join request " ++ display_N request_id ++ lit " from " ++ nickname
        ++ default [] ((λ intro, lit ": " ++ intro) <$> introduction));;
      refresh_host_requests
  | HN_JoinRequestWithdrawn request_id =>
      show_notice (lit "join request " ++ display_N request_id ++ lit " withdrawn");; refresh_host_requests
  | HN_TimeoutRequestPending request_id member_id nickname seconds =>
      let id := display_N request_id in
      show_notice (lit "timeout request " ++ id ++ lit " from " ++ named member_id nickname ++ lit ": "
        ++ display_N seconds ++ lit " seconds" ++ dash ++ lit "/accept " ++ id ++ lit " or /reject " ++ id);;
      refresh_host_requests
  | HN_TimeoutRequestAccepted request_id seconds =>
      announce_timeout (Some seconds)
        (on_view (set_message_timeout (Some seconds));;
         show_notice (lit "timeout request " ++ display_N request_id ++ lit " accepted; room timeout is now "
           ++ display_N seconds ++ lit " seconds"));;
      refresh_host_requests
  | HN_TimeoutRequestRejected request_id =>
      show_notice (lit "timeout request " ++ display_N request_id ++ lit " rejected or withdrawn");;
      refresh_host_requests
  | HN_TimeoutRebroadcast seconds => announce_timeout (Some seconds) (mret tt)
  | HN_MemberJoined member_id nickname =>
      show_system (named member_id nickname ++ lit " joined");; refresh_host_members
  | HN_MemberLeft member_id nickname =>
      show_system (named member_id nickname ++ lit " left");; refresh_host_members
  | HN_MemberKicked member_id nickname =>
      show_system (named member_id nickname ++ lit " was kicked");; refresh_host_members
  | HN_JoinPolicyChanged policy =>
      modify (hd_put_policy policy);;
      on_view (set_status (lit "join policy: " ++ policy_debug policy));;
      show_system (lit "join requests are now " ++ policy_debug policy)
  | HN_RequestsSnapshot joins timeouts =>
      on_view (show_requests (request_lines joins timeouts) (env_now env))
  | HN_ListSnapshot members => on_view (set_members (info_line <$> members))
  | HN_WhoisResult member =>
      show_system (named (info_member_id member) (info_nickname member) ++ lit ": "
        ++ (if info_is_host member then lit "host" else lit "member"))
  | HN_RoomClosed => show_system (lit "the room is closed")
  | HN_Error message => show_error message
  end.

Definition handle_host_action (action : RoomAction) : DM unit :=
  match action with
  | SendTo c message => if (c =? HOST_CONNECTION)%N then host_message message else client_message c message
  | CloseConnection c => close_connection c;; remove_connection c
  | NotifyHost notice => host_notice notice
  end.

Fixpoint handle_host_actions (actions : list RoomAction) : DM unit :=
  match actions with
  | [] => mret tt
  | action :: actions => handle_host_action action;; handle_host_actions actions
  end.

(** ** Messages of clients *)

Definition admission_error (e : AdmissionError) : HandlerError := (error_code e, admission_error_text e).

(** [HostState] and admission as a connection state. *)
Definition connection_state (x : HostConnection) : ConnectionState :=
  match ha_state (hx_admission x) with
  | HS_AwaitingHello => CS_ProtocolHandshake
  | HS_AwaitingToken | HS_AwaitingProof => CS_PreAuth
  | HS_AwaitingJoinForm => CS_PasswordVerified
  | HS_Decided => if hx_admitted x then CS_Active else CS_JoinPending
  end.

(** A method of the connection's admission flow, in place; [default] is
    never used, since the connection is present. *)
Definition with_admission {A} (c : ConnectionId) (x : HostConnection) (m : HM A) : DM (Result A AdmissionError) :=
  zoom (λ d, hx_admission (default x (hd_connections d !! c)))
    (λ a d, hd_put_connections (alter (hx_put_admission a) c (hd_connections d)) d) m.

(** [send_to(..).map_err(..)?]. *)
Definition reply_or_fail (c : ConnectionId) (reply : Message) : DM unit :=
  r ← net_send c reply;
  match r with Ok _ => mret tt | Err _ => fail (EC_Internal, lit "connection closed") end.

(** What a message in its place does. *)
Definition dispatch_message (c : ConnectionId) (x : HostConnection) (message : Message) (policy : JoinPolicy)
    : DM unit :=
  match message with
  | M_ClientHello hello =>
      r ← with_admission c x (on_client_hello hello VIRTUAL_PORT);
      reply ← try_ admission_error r;
      reply_or_fail c reply
  | M_TokenVerify _ | M_ChallengeProof _ | M_JoinRequest _ =>
      r ← with_admission c x (on_message message policy);
      reply ← try_ admission_error r;
      match reply with
      | Some (HR_Message reply) => reply_or_fail c reply
      | Some (HR_JoinRequested app) =>
          room_send (EV_JoinRequested c (app_nickname app) (app_introduction app) (app_ed25519_pubkey app)
            (app_x25519_pubkey app) (app_signature app))
      | None => room_send (EV_PasswordVerified c)
      end
  | M_EpochAck ack => room_send (EV_EpochAck c (ea_epoch ack))
  | M_ChatMessage envelope => room_send (EV_ChatReceived c MSG_CHAT envelope)
  | M_ColorChange envelope => room_send (EV_ChatReceived c MSG_COLOR envelope)
  | M_TimeoutRequest envelope => room_send (EV_ChatReceived c MSG_TIMEOUT_REQUEST envelope)
  | M_TimeoutChanged envelope => room_send (EV_ChatReceived c MSG_TIMEOUT_CHANGED envelope)
  | M_Keepalive => mret tt
  | M_Shutdown | M_Error _ => fail (EC_ProtocolViolation, lit "peer ended the connection")
  | other => fail (EC_ProtocolViolation,
      lit "unexpected message from connection " ++ display_N c ++ lit ": " ++ message_debug other)
  end.

Definition handle_host_message (c : ConnectionId) (message : Message) (policy : JoinPolicy) : DM unit :=
  d ← self;
  x ← ok_or (hd_connections d !! c) (EC_ProtocolViolation, lit "unknown connection");
  if bool_decide (policy = JP_Locked) && negb (hx_admitted x) then
    fail (EC_RoomLocked, lit "the room is not accepting join requests") else
  if negb (ConnectionState_accepts (connection_state x) (MessageType_class (Message_type message))) then
    fail (EC_ProtocolViolation, lit "message is invalid for the current connection state") else
  let previous_state := ha_state (hx_admission x) in
  dispatch_message c x message policy;;
  modify (λ d, hd_put_connections
    (alter (λ x, if bool_decide (ha_state (hx_admission x) = previous_state) then x
                 else hx_put_times (ck_instant (env_now env)) (hx_last_seen x) (hx_admitted x) x)
       c (hd_connections d)) d).

(** ** Commands of the host *)

Definition handle_host_command (command : SlashCommand) : DM unit :=
  match command with
  | SC_Timeout interval =>
      announce_timeout interval
        (on_view (set_message_timeout interval);;
         match interval with
         | Some seconds =>
             show_system (lit "each room message will expire after " ++ display_N seconds ++ lit " second"
               ++ (if (seconds =? 1)%N then [] else lit "s"))
         | None => show_system (lit "room message expiry is disabled")
         end)
  | SC_Color color =>
      r ← with_chat (send_color (hg_client_identity cfg) color);
      match r with
      | Ok (M_ColorChange envelope) =>
          room_send (EV_ChatReceived HOST_CONNECTION MSG_COLOR envelope);;
          show_system (lit "color changed to " ++ color_debug color);;
          set_chat (recolor 0 color);;
          sync_members_from_session
      | Ok _ => mret tt
      | Err error => show_error (chat_error_text error)
      end
  | other =>
      match into_host_command other with
      | Some host_command =>
          room_send (EV_HostCommand host_command);;
          match host_command with
          | HC_Accept _ | HC_Reject _ => refresh_host_requests
          | _ => mret tt
          end
      | None =>
          match into_member_command other with
          | Some member_command => room_send (EV_MemberCommand HOST_CONNECTION member_command)
          | None => mret tt
          end
      end
  end.

(** * The loop *)

Inductive SessionEnd := SE_Menu | SE_Quit | SE_Failed (message : rstring).

Inductive LoopExit := LE_Continue | LE_Break | LE_Return (e : SessionEnd).

(** What a turn's [select!] picks; [None] of a queue is its end. *)
Inductive HostEvent :=
| HE_Maintenance (tor_exited : Result bool rstring)
| HE_Expiry
| HE_Key (key : KeyEvent)
| HE_Paste (text : rstring)
| HE_KeysClosed
| HE_Actions (actions : option (list RoomAction))
| HE_Connected (connection : option ConnectionId)
| HE_Inbound (message : option (ConnectionId * option Message)).

(** Ctrl-C. *)
Definition is_quit_key (key : KeyEvent) : bool :=
  bool_decide (ke_modifiers key = KM_Control) && is_char key 99 67.

Definition stage_timeout (x : HostConnection) : Duration :=
  let get := Timeouts_get Timeouts_default in
  match ha_state (hx_admission x) with
  | HS_AwaitingHello => get TK_ProtocolHandshake
  | HS_AwaitingToken => get TK_TokenValidation
  | HS_AwaitingProof => get TK_PasswordVerification
  | HS_AwaitingJoinForm => get TK_JoinFormSubmission
  | HS_Decided => if negb (hx_admitted x) then get TK_HostDecision else (get TK_Keepalive * 3)%N
  end.

(** [duration_since] saturates. *)
Definition is_stale (now : Instant) (x : HostConnection) : bool :=
  let since := if hx_admitted x then hx_last_seen x else hx_stage_since x in
  (stage_timeout x <? now - since)%N.

Fixpoint drop_stale (now : Clock) (ids : list ConnectionId) : DM unit :=
  match ids with
  | [] => mret tt
  | id :: ids =>
      remove_connection id;;
      close_connection id;;
      room_send (EV_ConnectionLost id);;
      on_view (push_system (lit "connection " ++ display_N id ++ lit " timed out") now);;
      drop_stale now ids
  end.

(** The sweep of a turn, before it waits; the order of a [HashMap] is
    unspecified. *)
Definition sweep_stale (now : Clock) : DM unit :=
  d ← self;
  drop_stale now (omap (λ p, if is_stale (ck_instant now) p.2 then Some p.1 else None)
                    (map_to_list (hd_connections d))).

Definition copy_invitation_to_clipboard : DM unit :=
  match env_clipboard env with
  | Ok _ => show_system (lit "the full invitation was copied to the clipboard")
  | Err error => show_error error
  end.

Definition host_key (key : KeyEvent) : DM LoopExit :=
  if is_quit_key key then mret (LE_Return SE_Quit) else
  d ← self;
  r ← expect (on_key key (env_now env) (hd_app d));
  modify (hd_put_app r.2);;
  match r.1 with
  | AA_Quit | AA_Room RUA_Exit => room_send EV_CloseRequested;; mret LE_Break
  | AA_Room (RUA_Chat _) =>
      show_error (lit "the host cannot send chat messages; join the room from a second tab to chat");;
      mret LE_Continue
  | AA_Room (RUA_Command command) => handle_host_command command;; mret LE_Continue
  | AA_Room (RUA_Error text) => show_error text;; mret LE_Continue
  | AA_Room (RUA_CopyInvitation _) => copy_invitation_to_clipboard;; mret LE_Continue
  | _ => mret LE_Continue
  end.

Definition host_connected (c : ConnectionId) : DM unit :=
  d ← self;
  match remaining (hd_guard d) (ck_instant (env_now env)) with
  | Some wait =>
      _ ← net_send c (error_message EC_RateLimited (lit "too many failed password attempts; try again later"));
      close_connection c;;
      show_system (lit "connection " ++ display_N c ++ lit " refused: password lockout active for "
        ++ display_N (as_secs wait + 1) ++ lit " more seconds")
  | None =>
      r ← draw_result (HostAdmission_new (hg_session_id cfg) (hd_token d) (hg_verifier cfg)
            (hg_host_identity cfg) (hg_onion_address cfg));
      match r with
      | Err _ => close_connection c
      | Ok admission =>
          let now := ck_instant (env_now env) in
          modify (λ d, hd_put_connections (<[c := {| hx_admission := admission; hx_stage_since := now;
            hx_last_seen := now; hx_admitted := false |}]> (hd_connections d)) d);;
          room_send (EV_ClientConnected c);;
          show_system (lit "connection " ++ display_N c ++ lit " connected")
      end
  end.

(** A failed password proof counts against the room. *)
Definition count_failure : DM unit :=
  d ← self;
  r ← expect (record_failure (hd_guard d) (ck_instant (env_now env)));
  modify (hd_put_guard r.2);;
  match r.1 with
  | Some window =>
      show_notice (display_N (PasswordGuard.failures r.2) ++ lit " failed password attempts; new join attempts are blocked for "
        ++ display_N (as_secs window) ++ lit " seconds")
  | None => mret tt
  end.

Definition host_inbound (c : ConnectionId) (message : option Message) : DM unit :=
  match message with
  | Some message =>
      modify (λ d, hd_put_connections
        (alter (λ x, hx_put_times (hx_stage_since x) (ck_instant (env_now env)) (hx_admitted x) x) c
           (hd_connections d)) d);;
      d ← self;
      r ← zoom id (λ d _, d) (handle_host_message c message (hd_policy d));
      match r with
      | Ok _ => mret tt
      | Err error =>
          (if bool_decide (error.1 = EC_InvalidPasswordProof) then count_failure else mret tt);;
          _ ← net_send c (error_message error.1 error.2);
          close_connection c;;
          remove_connection c;;
          room_send (EV_ConnectionLost c)
      end
  | None =>
      remove_connection c;;
      close_connection c;;
      room_send (EV_ConnectionLost c);;
      show_system (lit "connection " ++ display_N c ++ lit " lost")
  end.

Definition host_event (event : HostEvent) : DM LoopExit :=
  match event with
  | HE_Maintenance (Ok true) =>
      room_send EV_TorStopped;; mret (LE_Return (SE_Failed (lit "Tor stopped unexpectedly")))
  | HE_Maintenance (Err error) => mret (LE_Return (SE_Failed (lit "Tor status failed: " ++ error)))
  | HE_Maintenance (Ok false) => room_send EV_EpochMaintenance;; mret LE_Continue
  | HE_Expiry => on_view (λ v, (tick_message_timeout (env_now env) v).2);; mret LE_Continue
  | HE_Key key => host_key key
  | HE_Paste text =>
      d ← self; app ← expect (on_paste text (hd_app d)); modify (hd_put_app app);; mret LE_Continue
  | HE_KeysClosed | HE_Actions None | HE_Connected None | HE_Inbound None => mret LE_Break
  | HE_Actions (Some actions) =>
      d ← self; _ ← expect (room_view (hd_app d)); handle_host_actions actions;; mret LE_Continue
  | HE_Connected (Some c) => host_connected c;; mret LE_Continue
  | HE_Inbound (Some (c, message)) => host_inbound c message;; mret LE_Continue
  end.

(** A turn: a failed [draw], the sweep with its reading of the clock, the
    event. *)
Definition host_turn (draw_failed : bool) (swept_at : Clock) (event : HostEvent) : DM LoopExit :=
  if draw_failed then mret (LE_Return SE_Quit) else
  sweep_stale swept_at;; host_event event.

(** * The ends of the session *)

(** Past the loop: the closing batch, if one comes, is delivered before the
    connections are torn down. *)
Fixpoint deliver_closing (actions : list RoomAction) : DM unit :=
  match actions with
  | [] => mret tt
  | SendTo c message :: actions => _ ← net_send c message; deliver_closing actions
  | CloseConnection c :: actions => close_connection c;; deliver_closing actions
  | NotifyHost _ :: actions => deliver_closing actions
  end.

Definition session_cleanup : DM unit :=
  modify (λ d, hd_put_network (net_stop (close_all (hd_network d))) d).

Definition host_exit (batch : option (list RoomAction)) : DM SessionEnd :=
  room_send EV_CloseRequested;;
  match batch with Some actions => deliver_closing actions | None => mret tt end;;
  session_cleanup;;
  mret SE_Menu.

(** The session as the room is started: its own member is known to it, the
    room's first actions are handled. *)
Definition HostDriver_new (nickname : rstring) (app : App) : HostDriver := {|
  hd_chat := install_member {| mv_member_id := 0; mv_nickname := nickname; mv_color := ColorChoice_default;
      mv_is_host := true; mv_ed25519_pubkey := member_ed25519_pubkey (hg_client_identity cfg) |}
    (ChatSession_new (hg_session_id cfg) (host_ed25519_pubkey (hg_host_identity cfg))
       (host_x25519_pubkey (hg_host_identity cfg)) 0);
  hd_token := []; hd_policy := JP_Open; hd_connections := ∅; hd_guard := PasswordGuard_new;
  hd_network := HostNetwork_new;
  hd_app := enter_room (push_system (lit "Starting the room...") (env_now env) (RoomView_host nickname (env_now env))) app;
  hd_sent := []; hd_attempts := 0; hd_delivered := [] |}.

Definition host_begin (initial : list RoomAction) : DM unit := handle_host_actions initial.
End driver.
