(* ===== verification/HostInv.v ===== *)
(** The supervisor's invariant: every connection's admission flow is where
    the messages that came in on that connection took it, and every event
    sent to the room is one those messages, or the host's keys, account for.

    It is stated against the history of what has come to the supervisor. *)
From Stdlib Require Import Strings.String.
From S2P Require Export HostDriver AdmissionProps RoomVetted.

(** * What the supervisor has seen *)

(** A turn of the supervisor: the driver and the random source it began with,
    what it was given, and the event it took. *)
Record Turn := {
  tn_start : HostDriver * Rng;
  tn_env : Env;
  tn_draw_failed : bool;
  tn_swept_at : Clock;
  tn_event : HostEvent;
}.

(** The messages that came in on a connection. *)
Definition from_connection (c : ConnectionId) (history : list Turn) : list Message :=
  omap (λ t, match tn_event t with
              | HE_Inbound (Some (c', Some m)) => if (c' =? c)%N then Some m else None
              | _ => None
              end) history.

(** The invitation tokens among a batch's notices, and among all of them. *)
Definition rotated (actions : list RoomAction) : list (list byte) :=
  omap (λ a, match a with NotifyHost (HN_InvitationRotated token) => Some token | _ => None end) actions.

Definition issued (initial : list RoomAction) (history : list Turn) : list (list byte) :=
  rotated initial ++
  flat_map (λ t, match tn_event t with HE_Actions (Some actions) => rotated actions | _ => [] end) history.

Lemma from_connection_app c h1 h2 : from_connection c (h1 ++ h2) = from_connection c h1 ++ from_connection c h2.
Proof. apply omap_app. Qed.

Lemma issued_app initial h1 h2 t : t ∈ issued initial h1 → t ∈ issued initial (h1 ++ h2).
Proof. unfold issued. rewrite flat_map_app. set_solver. Qed.

Lemma rotated_elem t actions : NotifyHost (HN_InvitationRotated t) ∈ actions → t ∈ rotated actions.
Proof. intros Hin. apply list_elem_of_omap. eexists. by split; [exact Hin|]. Qed.

Lemma issued_now initial h actions t :
  t ∈ rotated actions → HE_Actions (Some actions) ∈ tn_event <$> h → t ∈ issued initial h.
Proof.
  intros Ht (turn & E & Hin)%list_elem_of_fmap. unfold issued. apply elem_of_app. right. apply list_elem_of_In, in_flat_map.
  exists turn. rewrite <-E. split; by apply list_elem_of_In.
Qed.

Section system.
Context `{PR : !Primitives} `{PL : !PrimitiveLaws} `{HA : !Hashes} `{NF : !Nfc} `{UP : !UriPrimitives} `{ET : !ErrorTexts}.
Context (cfg : HostConfig) (initial : list RoomAction).

(** ** A connection's flow *)

Definition input_message (i : HostInput) : Message :=
  match i with HI_Hello hello _ => M_ClientHello hello | HI_Message m _ => m end.

Abbreviation Trace := (list (HostInput * Outcome AdmissionError (option HostAdmissionReply))) (only parsing).

(** A flow of this session, opened with a token the room had issued. *)
Record flow_of_session (history : list Turn) (h0 : HostAdmission) : Prop := {
  fs_session : ha_room_session_id h0 = hg_session_id cfg;
  fs_verifier : ha_verifier h0 = hg_verifier cfg;
  fs_identity : ha_host_identity h0 = hg_host_identity cfg;
  fs_onion : ha_onion_address h0 = hg_onion_address cfg;
  fs_token : ha_token h0 ∈ issued initial history;
}.

(** The flow of [c] is where the messages that came in on [c] took it. *)
Definition flow_ok (history : list Turn) (c : ConnectionId) (x : HostConnection) : Prop :=
  ∃ h0 (trace : Trace), flow_of_session history h0 ∧ host_passed h0 trace (hx_admission x) ∧
    (input_message ∘ fst) <$> trace `sublist_of` from_connection c history.

(** The credentials behind an application: the messages its connection sent,
    in this order, with what the flow answered. *)
Definition credentials (history : list Turn) (c : ConnectionId) (app : JoinApplication) : Prop :=
  ∃ h0 (trace : Trace) hello port o verify p challenge proof p' request policy,
    flow_of_session history h0 ∧
    (input_message ∘ fst) <$> trace `sublist_of` from_connection c history ∧
    [(HI_Hello hello port, o);
     (HI_Message (M_TokenVerify verify) p, Done (Some (HR_Message (challenge_of h0 challenge))));
     (HI_Message (M_ChallengeProof proof) p', Done None);
     (HI_Message (M_JoinRequest request) policy, Done (Some (HR_JoinRequested app)))] `sublist_of` trace ∧
    tv_token verify = ha_token h0 ∧
    cp_proof proof = expected_proof (hg_verifier cfg) challenge (ch_client_nonce hello) ∧
    app = application_of request ∧ vouched h0 (ch_client_nonce hello) app policy.

Lemma flow_of_session_mono h1 h2 h0 : flow_of_session h1 h0 → flow_of_session (h1 ++ h2) h0.
Proof. intros []. constructor; try done. by apply issued_app. Qed.

Lemma from_connection_mono c h1 h2 l :
  l `sublist_of` from_connection c h1 → l `sublist_of` from_connection c (h1 ++ h2).
Proof. intros Hl. rewrite from_connection_app. by apply sublist_inserts_r. Qed.

Lemma flow_ok_mono h1 h2 c x : flow_ok h1 c x → flow_ok (h1 ++ h2) c x.
Proof.
  intros (h0 & trace & Hs & Hp & Hsub). exists h0, trace.
  split_and!; [by apply flow_of_session_mono|done|by apply from_connection_mono].
Qed.

Lemma credentials_mono h1 h2 c app : credentials h1 c app → credentials (h1 ++ h2) c app.
Proof.
  intros (h0 & trace & hello & port & o & verify & p & challenge & proof & p' & request & policy & Hs & Hsub & Hrest).
  exists h0, trace, hello, port, o, verify, p, challenge, proof, p', request, policy.
  split; [by apply flow_of_session_mono|]. split; [by apply from_connection_mono|done].
Qed.

Lemma credentials_contributory history c app :
  credentials history c app → contributory (hg_host_identity cfg) (app_x25519_pubkey app).
Proof. intros (h0 & trace & ? & ? & ? & ? & ? & ? & ? & ? & ? & ? & [] & _ & _ & _ & _ & _ & [_ Hk _]). congruence. Qed.

(** ** What the supervisor keeps *)

(** The host asked for [/accept id] in one of these turns: the key it pressed
    had that meaning to the app as the turn itself had it, once its sweep was
    over. *)
Definition host_accepted (history : list Turn) (id : RequestId) : Prop :=
  ∃ t key d r app', t ∈ history ∧ tn_event t = HE_Key key ∧ tn_draw_failed t = false ∧ is_quit_key key = false ∧
    sweep_stale (tn_swept_at t) (tn_start t) = (Done tt, (d, r)) ∧
    on_key key (env_now (tn_env t)) (hd_app d) = Some (AA_Room (RUA_Command (SC_Accept id)), app').

Lemma host_accepted_mono h1 h2 id : host_accepted h1 id → host_accepted (h1 ++ h2) id.
Proof.
  intros (t & key & d & r & app' & Hin & Hrest). exists t, key, d, r, app'. split; [|done]. apply elem_of_app. by left.
Qed.

(** An event for the room. *)
Definition sent_ok (history : list Turn) (ev : RoomEvent) : Prop :=
  match ev with
  | EV_JoinRequested c nickname introduction ed x signature => credentials history c
      {| app_nickname := nickname; app_introduction := introduction;
         app_ed25519_pubkey := ed; app_x25519_pubkey := x; app_signature := signature |}
  | _ => True
  end ∧
  ∀ id, accepts_request ev = Some id → host_accepted history id.

Lemma sent_ok_mono h1 h2 ev : sent_ok h1 ev → sent_ok (h1 ++ h2) ev.
Proof.
  intros [H1 H2]. split; [|intros id Hid; by apply host_accepted_mono, H2].
  destruct ev; try done. by apply credentials_mono.
Qed.

(** The supervisor's invariant. *)
Record supervised (history : list Turn) (d : HostDriver) : Prop := {
  sv_flows : ∀ c x, hd_connections d !! c = Some x → flow_ok history c x;
  sv_token : hd_token d ∈ issued initial history;
  sv_sent : Forall (sent_ok history) (hd_sent d);
}.

Lemma supervised_mono h1 h2 d : supervised h1 d → supervised (h1 ++ h2) d.
Proof.
  intros [Hf Ht Hs]. constructor; [|by apply issued_app|].
  - intros c x Hx. by apply flow_ok_mono, Hf.
  - eapply list.Forall_impl; [exact Hs|]. intros ev. apply sent_ok_mono.
Qed.

Section turn.
Context (history : list Turn) (env : Env).
Local Abbreviation I := (supervised history).

(** What the invariant is about. *)
Definition watched (d : HostDriver) := (hd_connections d, hd_token d, hd_sent d).

Lemma supervised_watched d d' : watched d = watched d' → I d → I d'.
Proof. unfold watched. intros [= E1 E2 E3] [Hf Ht Hs]. constructor; rewrite <-?E1, <-?E2, <-?E3; done. Qed.

Lemma keeps_supervised {A} (m : DM A) : keeps watched m → preserves I m.
Proof. apply keeps_preserves, supervised_watched. Qed.

Lemma keeps_net_send c m : keeps watched (net_send env c m).
Proof. unfold net_send. solve_keeps. Qed.

Lemma keeps_on_view f : keeps watched (on_view f).
Proof. unfold on_view. solve_keeps. Qed.

Lemma keeps_close c : keeps watched (close_connection c).
Proof. unfold close_connection. solve_keeps. Qed.

Lemma keeps_with_chat {A} (m : Comp ChatSession ChatError A) : keeps watched (with_chat m).
Proof. intros s. unfold with_chat, zoom. by destruct (m _) as [[] [? ?]]. Qed.

Lemma keeps_set_chat f : keeps watched (set_chat f).
Proof. unfold set_chat. solve_keeps. Qed.

Hint Resolve keeps_net_send keeps_on_view keeps_close keeps_with_chat keeps_set_chat : keeps.

Lemma keeps_sync : keeps watched sync_members_from_session.
Proof. unfold sync_members_from_session. solve_keeps. Qed.
Hint Resolve keeps_sync : keeps.

Lemma keeps_error t : keeps watched (show_error env t).
Proof. unfold show_error. auto with keeps. Qed.
Lemma keeps_system t : keeps watched (show_system env t).
Proof. unfold show_system. auto with keeps. Qed.
Lemma keeps_show_notice t : keeps watched (show_notice env t).
Proof. unfold show_notice. auto with keeps. Qed.
Hint Resolve keeps_error keeps_system keeps_show_notice : keeps.

Lemma room_send_ok ev : sent_ok history ev → preserves I (room_send ev).
Proof.
  intros Hev. unfold room_send. apply preserves_modify. intros d [Hf Ht Hs]. constructor; [done|done|].
  cbn. apply list.Forall_app. split; [done|by constructor].
Qed.

(** Connections only disappear, or change their clocks and flags. *)
Lemma alter_ok f c d :
  (∀ x, hx_admission (f x) = hx_admission x) → I d → I (hd_put_connections (alter f c (hd_connections d)) d).
Proof.
  intros Hf [H1 H2 H3]. constructor; [|done|done]. cbn. intros c' x.
  destruct (decide (c' = c)) as [->|Hne]; [|rewrite lookup_alter_ne by done; apply H1].
  rewrite lookup_alter_eq. destruct (hd_connections d !! c) as [y|] eqn:E; [|done]. intros [= <-].
  destruct (H1 c y E) as (h0 & trace & Hs & Hp & Hsub). exists h0, trace. by rewrite Hf.
Qed.

Lemma remove_ok c : preserves I (remove_connection c).
Proof.
  unfold remove_connection. apply preserves_modify. intros d [H1 H2 H3]. constructor; [|done|done]. cbn.
  intros c' x [_ Hx]%lookup_delete_Some. by apply H1.
Qed.
Hint Resolve remove_ok : preserves.

Lemma quiet_ok ev : match ev with
    | EV_JoinRequested _ _ _ _ _ _ | EV_HostAccepted _ | EV_HostCommand (HC_Accept _) => False
    | _ => True end → preserves I (room_send ev).
Proof. intros Hev. apply room_send_ok. unfold sent_ok. destruct ev as [| | | | | | | |[]| | | | | |]; by split. Qed.

Ltac sup_step :=
  match goal with
  | |- preserves _ (self ≫= _) => apply preserves_self; intros ? ?
  | |- preserves _ (_ ≫= _) => apply preserves_bind; [|intros]
  | |- preserves _ (match ?x with _ => _ end) => destruct x eqn:?
  | |- preserves _ (let _ := _ in _) => cbv zeta
  | |- preserves _ (room_send _) => solve [by apply quiet_ok]
  | |- preserves _ (modify _) => solve [apply keeps_supervised, keeps_modify; intros; reflexivity]
  | |- preserves _ (modify _) => solve [apply preserves_modify; intros; by apply alter_ok]
  | |- _ => solve [auto with preserves]
  | |- preserves _ _ => solve [apply keeps_supervised; auto with keeps]
  end.

Lemma install_wrap_ok wrap : preserves I (install_wrap cfg env wrap).
Proof. unfold install_wrap. repeat sup_step. Qed.

Lemma host_message_ok m : preserves I (host_message cfg env m).
Proof. unfold host_message. destruct m; repeat sup_step; apply install_wrap_ok. Qed.

Lemma client_message_ok c m : preserves I (client_message env c m).
Proof. unfold client_message. repeat sup_step. Qed.

Lemma announce_ok interval shown : preserves I shown → preserves I (announce_timeout cfg env interval shown).
Proof. intros Hs. unfold announce_timeout. repeat first [exact Hs|sup_step]. Qed.

Lemma rotate_ok token : token ∈ issued initial history → preserves I (rotate_invitation cfg env token).
Proof.
  intros Ht. unfold rotate_invitation. apply preserves_bind; [|intros _; repeat sup_step].
  apply preserves_modify. by intros d [H1 H2 H3].
Qed.

Lemma host_notice_ok notice :
  (∀ token, notice = HN_InvitationRotated token → token ∈ issued initial history) →
  preserves I (host_notice cfg env notice).
Proof.
  intros Ht. unfold host_notice, refresh_host_requests, refresh_host_members.
  destruct notice; try (by apply rotate_ok, Ht); repeat first [apply announce_ok|sup_step].
Qed.

Lemma handle_actions_ok actions :
  (∀ token, token ∈ rotated actions → token ∈ issued initial history) →
  preserves I (handle_host_actions cfg env actions).
Proof.
  induction actions as [|a actions IH]; intros Ht; [apply preserves_ret|]. cbn [handle_host_actions].
  apply preserves_bind; [|intros _; apply IH; intros t Hin; apply Ht; destruct a as [| |[]]; csimpl; set_solver].
  destruct a as [c m|c|n]; cbn [handle_host_action].
  - destruct (_ =? _)%N; [apply host_message_ok|apply client_message_ok].
  - repeat sup_step.
  - apply host_notice_ok. intros t ->. apply Ht. csimpl. set_solver.
Qed.

Lemma host_command_ok command :
  (∀ id, command = SC_Accept id → host_accepted history id) →
  preserves I (handle_host_command cfg env command).
Proof.
  intros Ha. unfold handle_host_command, refresh_host_requests.
  destruct command; cbn [into_host_command into_member_command]; repeat first [apply announce_ok|sup_step].
  apply room_send_ok. split; [done|]. intros id [= <-]. by apply Ha.
Qed.

(** Handling a key, from the driver it meets. *)
Lemma host_key_ok_ key d r :
  I d →
  (∀ id app', is_quit_key key = false → on_key key (env_now env) (hd_app d) = Some (AA_Room (RUA_Command (SC_Accept id)), app') →
    host_accepted history id) →
  wp (host_key cfg env key) (λ o s', o ≠ Panic → I s'.1) (d, r).
Proof.
  intros Hd Hacc. unfold host_key, copy_invitation_to_clipboard. destruct (is_quit_key key); [by intros _|].
  rewrite wp_self. cbn [fst snd]. destruct (on_key key (env_now env) (hd_app d)) as [[action app]|] eqn:E; [|by intros ?].
  eapply preserves_wp; [|exact Hd]. apply preserves_expect_bind. intros x [= <-]. cbn [fst snd].
  repeat sup_step.
  apply host_command_ok. intros id ->. by eapply Hacc.
Qed.

Lemma drop_stale_ok now ids : preserves I (drop_stale now ids).
Proof. induction ids as [|c ids IH]; cbn [drop_stale]; repeat first [exact IH|sup_step]. Qed.

Lemma sweep_ok now : preserves I (sweep_stale now).
Proof. unfold sweep_stale. apply preserves_self. intros d _. apply drop_stale_ok. Qed.

Lemma count_failure_ok : preserves I (count_failure env).
Proof.
  unfold count_failure. apply preserves_self. intros d _. apply preserves_expect_bind. intros [w g] _. repeat sup_step.
Qed.

(** A connection that is let go. *)
Lemma reject_ok c (error : ErrorCode * rstring) :
  preserves I ((if bool_decide (error.1 = EC_InvalidPasswordProof) then count_failure env else mret tt);;
    _ ← net_send env c (error_message error.1 error.2);
    close_connection c;;
    remove_connection c;;
    room_send (EV_ConnectionLost c)).
Proof. repeat first [apply count_failure_ok|sup_step]. Qed.

Lemma lost_ok c : preserves I (host_inbound env c None).
Proof. unfold host_inbound. repeat sup_step. Qed.

(** A new connection's flow starts with the token of the moment. *)
Lemma connected_ok c : preserves I (host_connected cfg env c).
Proof.
  unfold host_connected. apply preserves_self. intros d Hd. destruct (remaining _ _); [repeat sup_step|].
  intros [d' r] Hd'. rewrite wp_bind. unfold wp at 1, draw_result. cbn [fst snd].
  destruct (HostAdmission_new _ _ _ _ _ r) as [[h0|e] r'] eqn:E; cbn [fst snd bind_post].
  2: { assert (Hp : preserves I (close_connection c)) by (repeat sup_step). by apply Hp. }
  rewrite wp_modify. cbn [fst snd]. assert (Hp : preserves I (room_send (EV_ClientConnected c);;
    show_system env (lit "connection " ++ display_N c ++ lit " connected"))) by (repeat sup_step).
  apply Hp. cbn [fst]. destruct Hd' as [H1 H2 H3]. constructor; [|done|done]. cbn. intros c' x.
  rewrite lookup_insert_Some. intros [[<- <-]|[_ Hx]]; [|by apply H1].
  apply new_awaits in E as (Hs & Ht & Hv & Hi & Hsid & Hon). exists h0, []. split; [|split].
  - constructor; [done..|]. rewrite Ht. apply Hd.
  - by apply host_passed_new.
  - apply sublist_nil_l.
Qed.
End turn.

(** ** A message *)

Section inbound.
Context (history : list Turn) (env : Env) (c : ConnectionId) (message : Message).
Context (turn : Turn) (Hturn : tn_event turn = HE_Inbound (Some (c, Some message))).
Local Abbreviation history' := (history ++ [turn]).

Lemma from_connection_snoc : from_connection c history' = from_connection c history ++ [message].
Proof. rewrite from_connection_app. cbn. by rewrite Hturn, N.eqb_refl. Qed.

(** The flow takes the message: where it leads, and what an application it
    lets through has shown. *)
Lemma flow_step h0 trace h r i o z :
  flow_of_session history h0 → host_passed h0 trace h →
  (input_message ∘ fst) <$> trace `sublist_of` from_connection c history →
  input_message i = message → host_input i (h, r) = (o, z) →
  (∃ h0 (trace : Trace), flow_of_session history' h0 ∧ host_passed h0 trace z.1 ∧
    (input_message ∘ fst) <$> trace `sublist_of` from_connection c history') ∧
  (∀ app, o = Done (Some (HR_JoinRequested app)) → credentials history' c app).
Proof.
  intros Hs Hp Hsub Hi Hrun.
  assert (Hsub' : (input_message ∘ fst) <$> (trace ++ [(i, o)]) `sublist_of` from_connection c history').
  { rewrite from_connection_snoc, fmap_app. apply sublist_app; [done|]. cbn. by rewrite Hi. }
  split.
  - exists h0, (trace ++ [(i, o)]). split_and!; [by apply flow_of_session_mono| |done].
    by eapply host_passed_step.
  - intros app ->. destruct i as [hello port|m policy]; simpl in Hrun.
    { revert Hrun. unfold mbind, M_bind. by destruct (on_client_hello _ _ _) as [[] ?]. }
    destruct (message_run _ _ _ _ _ _ Hrun) as [(e & He & _)|[H|[H|H]]]; [done| | |].
    + by destruct H as (? & ? & _ & _ & _ & ? & _).
    + by destruct H as (? & ? & ? & _ & _ & _ & _ & _ & ? & _).
    + destruct H as (cn & request & Hstate & -> & Hc & Hvo & [= ->] & Hz). destruct Hp as (Hst & Htok & Hp).
      rewrite Hstate in *.
      destruct Hp as (hello & port & o & verify & p & nonce & proof & p' & Hseq & Hc' & Htv & Hpr).
      rewrite Hc in Hc'. injection Hc' as ->. injection Hst as E1 E2 E3 E4 E5. specialize (Htok ltac:(done)).
      eexists h0, (trace ++ [_]), hello, port, o, verify, p, nonce, proof, p', request, policy.
      split_and!; [by apply flow_of_session_mono|exact Hsub'|by apply (sublist_snoc_both [_; _; _])|done| |done|].
      * rewrite Hpr. by destruct Hs as [_ -> _ _ _].
      * destruct Hvo as [V1 V2 V3]. rewrite E1, E2, E5, Htok in V1. rewrite E4 in V2. by constructor.
Qed.

Local Abbreviation I := (supervised history').

Lemma put_flow_ok d h :
  I d → (∃ h0 (trace : Trace), flow_of_session history' h0 ∧ host_passed h0 trace h ∧
    (input_message ∘ fst) <$> trace `sublist_of` from_connection c history') →
  I (hd_put_connections (alter (hx_put_admission h) c (hd_connections d)) d).
Proof.
  intros [H1 H2 H3] Hh. constructor; [|done|done]. cbn. intros c' x.
  destruct (decide (c' = c)) as [->|Hne]; [|rewrite lookup_alter_ne by done; apply H1].
  rewrite lookup_alter_eq. destruct (hd_connections d !! c) as [y|]; [|done]. by intros [= <-].
Qed.

(** A method of the flow run on the message. *)
Lemma with_admission_ok {A} x (m : HM A) i (wrap : A → option HostAdmissionReply) (k : Result A AdmissionError → DM unit) d r :
  I d → hd_connections d !! c = Some x → flow_ok history c x → input_message i = message →
  (∀ y o z, m y = (o, z) → host_input i y = (match o with Done a => Done (wrap a) | Fail e => Fail e | Panic => Panic end, z)) →
  (∀ a, (∀ app, wrap a = Some (HR_JoinRequested app) → credentials history' c app) → preserves I (k (Ok a))) →
  (∀ e, preserves I (k (Err e))) →
  wp (with_admission c x m ≫= k) (λ o s', o ≠ Panic → I s'.1) (d, r).
Proof.
  intros Hd Hx (h0 & trace & Hs & Hp & Hsub) Hi Hm Hok Herr. rewrite wp_bind.
  unfold wp at 1, with_admission, zoom. cbn [fst snd]. rewrite Hx. cbn [default from_option id].
  destruct (m (hx_admission x, r)) as [o [h r']] eqn:E. apply Hm in E.
  destruct (flow_step _ _ _ _ _ _ _ Hs Hp Hsub Hi E) as [Hflow Hcred]. cbn [fst] in Hflow.
  destruct o as [a|e|]; cbn [fst snd bind_post].
  - apply Hok; [|by apply put_flow_ok]. intros app Ha. apply Hcred. by rewrite Ha.
  - apply Herr. by apply put_flow_ok.
  - by intros ?.
Qed.

Hint Resolve keeps_net_send : keeps.

Lemma reply_ok reply : preserves I (reply_or_fail env c reply).
Proof.
  unfold reply_or_fail. apply preserves_bind; [apply keeps_supervised, keeps_net_send|].
  intros [[]|e]; auto with preserves.
Qed.

Lemma on_message_ok x policy d r :
  I d → hd_connections d !! c = Some x → flow_ok history c x →
  wp (with_admission c x (on_message message policy) ≫= λ r, try_ admission_error r ≫= λ reply,
      match reply with
      | Some (HR_Message reply) => reply_or_fail env c reply
      | Some (HR_JoinRequested app) => room_send (EV_JoinRequested c (app_nickname app) (app_introduction app)
          (app_ed25519_pubkey app) (app_x25519_pubkey app) (app_signature app))
      | None => room_send (EV_PasswordVerified c)
      end) (λ o s', o ≠ Panic → I s'.1) (d, r).
Proof.
  intros Hd Hx Hflow. apply (with_admission_ok x _ (HI_Message message policy) id); try done.
  - intros y o z E. cbn [host_input]. rewrite E. by destruct o.
  - intros a Ha. apply preserves_try_bind. intros reply [= <-].
    destruct a as [[m|app]|]; [apply reply_ok| |by apply quiet_ok].
    apply room_send_ok. split; [|done]. specialize (Ha app eq_refl). by destruct app.
  - intros e. apply preserves_try_bind. intros reply [=].
Qed.

Lemma on_hello_ok hello x d r :
  message = M_ClientHello hello →
  I d → hd_connections d !! c = Some x → flow_ok history c x →
  wp (with_admission c x (on_client_hello hello VIRTUAL_PORT) ≫= λ r, try_ admission_error r ≫= λ reply,
      reply_or_fail env c reply) (λ o s', o ≠ Panic → I s'.1) (d, r).
Proof.
  intros Hm Hd Hx Hflow.
  apply (with_admission_ok x _ (HI_Hello hello VIRTUAL_PORT) (λ m, Some (HR_Message m))); try done.
  - intros y o z E. cbn [host_input]. unfold mbind, M_bind. rewrite E. by destruct o.
  - intros a _. apply preserves_try_bind. intros reply _. apply reply_ok.
  - intros e. apply preserves_try_bind. intros reply [=].
Qed.

Lemma dispatch_ok x policy d r :
  I d → hd_connections d !! c = Some x → flow_ok history c x →
  wp (dispatch_message env c x message policy) (λ o s', o ≠ Panic → I s'.1) (d, r).
Proof.
  intros Hd Hx Hflow. pose proof (on_message_ok x policy d r Hd Hx Hflow) as Hmsg.
  pose proof (λ hello H, on_hello_ok hello x d r H Hd Hx Hflow) as Hhello.
  unfold dispatch_message. destruct message; try exact Hmsg;
    first [by eapply Hhello|eapply preserves_wp; [first [by apply quiet_ok|auto with preserves]|done]].
Qed.

Lemma handle_message_ok d r policy :
  supervised history d → wp (handle_host_message env c message policy) (λ o s', o ≠ Panic → I s'.1) (d, r).
Proof.
  intros Hd. assert (Hd' : I d) by by apply supervised_mono. unfold handle_host_message.
  rewrite wp_self, wp_ok_or. cbn [fst snd]. destruct (hd_connections d !! c) as [x|] eqn:Hx; [|by intros _].
  destruct (_ && _); [by intros _|]. destruct (negb _); [by intros _|].
  rewrite wp_bind. eapply wp_mono; [|eapply dispatch_ok; [done|done|by eapply sv_flows]].
  intros [a|e|] s' Hs; cbn [bind_post]; [|by intros _; apply Hs|by intros ?].
  apply preserves_wp; [|by apply Hs]. apply preserves_modify. intros d' Hd1. apply alter_ok; [|done].
  intros y. by case_bool_decide.
Qed.

Lemma host_inbound_ok d r :
  supervised history d → wp (host_inbound env c (Some message)) (λ o s', o ≠ Panic → I s'.1) (d, r).
Proof.
  intros Hd. unfold host_inbound. rewrite wp_modify. cbn [fst snd].
  assert (Hd' : supervised history (hd_put_connections (alter (λ x, hx_put_times (hx_stage_since x)
    (ck_instant (env_now env)) (hx_admitted x) x) c (hd_connections d)) d)) by by apply alter_ok.
  set (d' := hd_put_connections _ d) in *. rewrite wp_self. cbn [fst snd]. clearbody d'. clear d Hd.
  rewrite wp_bind. unfold wp at 1, zoom. cbn [fst snd].
  pose proof (handle_message_ok d' r (hd_policy d') Hd') as Hh. unfold wp in Hh.
  destruct (handle_host_message _ _ _ _ _) as [[a|e|] [d2 r2]]; cbn [fst snd bind_post] in *; [|..|by intros ?].
  - intros _. by apply Hh.
  - apply preserves_wp; [|by apply Hh]. apply reject_ok.
Qed.
End inbound.
(** ** A turn *)

Section loop.
Context (history : list Turn) (turn : Turn).
Local Abbreviation env := (tn_env turn).
Local Abbreviation ev := (tn_event turn).
Local Abbreviation history' := (history ++ [turn]).

(** What the room tells the supervisor is what it issued, and a key means what
    it means to the app of this turn. *)
Lemma host_event_ok d r :
  tn_draw_failed turn = false → sweep_stale (tn_swept_at turn) (tn_start turn) = (Done tt, (d, r)) →
  supervised history d →
  wp (host_event cfg env ev) (λ o s', o ≠ Panic → supervised history' s'.1) (d, r).
Proof.
  intros Hdf Hsw Hd. assert (Hd' : supervised history' d) by by apply supervised_mono.
  assert (Hin : turn ∈ history') by set_solver.
  pose proof (keeps_on_view (λ v, (tick_message_timeout (env_now env) v).2)) as Hview.
  assert (Hp : ∀ m : DM LoopExit, preserves (supervised history') m →
    wp m (λ o s', o ≠ Panic → supervised history' s'.1) (d, r)) by (intros m Hm; by apply Hm).
  assert (Hthen : ∀ (m : DM unit) (e : LoopExit), preserves (supervised history') m →
    preserves (supervised history') (m;; mret e)) by (intros; apply preserves_bind; auto with preserves).
  destruct ev as [[[]|]| |key|text| |[actions|]|[c|]|[[c [message|]]|]] eqn:Ev; cbn [host_event]; try by intros _.
  - by apply Hp, Hthen, quiet_ok.
  - by apply Hp, Hthen, quiet_ok.
  - by apply Hp, Hthen, keeps_supervised.
  - apply host_key_ok_; [done|]. intros id app' Hq Hk. by exists turn, key, d, r, app'.
  - apply Hp. apply preserves_self. intros d1 _. apply preserves_expect_bind. intros app _.
    apply Hthen, keeps_supervised, keeps_modify. by intros.
  - apply Hp. apply preserves_self. intros d1 _. apply preserves_expect_bind. intros view _.
    apply Hthen, handle_actions_ok. intros t Ht. eapply issued_now; [done|]. rewrite <-Ev. by apply list_elem_of_fmap_2.
  - apply Hp, Hthen, connected_ok.
  - rewrite wp_bind. eapply wp_mono; [|by eapply (host_inbound_ok history)].
    intros [a|e|] s' Hs; cbn [bind_post]; [by intros _; apply Hs|by intros _; apply Hs|by intros ?].
  - apply Hp, Hthen, lost_ok.
Qed.

Lemma host_turn_ok :
  supervised history (tn_start turn).1 →
  wp (host_turn cfg env (tn_draw_failed turn) (tn_swept_at turn) ev) (λ o s', o ≠ Panic → supervised history' s'.1) (tn_start turn).
Proof.
  intros Hd. unfold host_turn. destruct (tn_draw_failed turn) eqn:Hdf; [intros _; by apply supervised_mono|].
  rewrite wp_bind. pose proof (sweep_ok history (tn_swept_at turn) (tn_start turn) Hd) as Hs. unfold wp at 1. unfold wp in Hs.
  destruct (sweep_stale _ _) as [[[]|e|] [d r]] eqn:E; cbn [fst snd bind_post] in *;
    [|intros _; by apply supervised_mono, Hs|by intros ?].
  apply host_event_ok; [done|done|by apply Hs].
Qed.
End loop.

(** A session begins with the room's first token. *)
Lemma host_begin_ok env token rest nickname app r :
  initial = NotifyHost (HN_InvitationRotated token) :: rest →
  wp (host_begin cfg env initial) (λ o s', o ≠ Panic → supervised [] s'.1) (HostDriver_new cfg env nickname app, r).
Proof.
  intros Hi. assert (Hin : ∀ t, t ∈ rotated initial → t ∈ issued initial []).
  { intros t Ht. unfold issued. by rewrite app_nil_r. }
  set (d := HostDriver_new cfg env nickname app).
  assert (Hd : supervised [] (hd_put_token token d)).
  { constructor; [by intros c x Hx| |constructor]. apply Hin. rewrite Hi. csimpl. set_solver. }
  pose proof (handle_actions_ok [] env initial Hin (hd_put_token token d, r) Hd) as Hp.
  unfold host_begin. revert Hp. rewrite Hi. cbn [handle_host_actions handle_host_action host_notice].
  unfold rotate_invitation. unfold preserves. intros Hp. rewrite (wp_bind (_ ≫= _)), wp_modify.
  rewrite (wp_bind (_ ≫= _)), wp_modify in Hp. exact Hp.
Qed.
End system.
