(* ===== verification/HostProps.v ===== *)
(** The host as a whole: the supervisor, the room's task and the accept loop
    run against each other over their queues, with every client an adversary
    that sends what it likes; [members_were_admitted] composes the admission
    flows, the supervisor and the room. Then what one turn of the supervisor
    may do: a message acts for the connection it came in on and for no other,
    and the sweep ends exactly the connections that have outstayed their
    stage. *)
From Stdlib Require Import Strings.String.
From S2P Require Export HostInv.

(** * The system *)

(** A room starts by issuing its first token. *)
Lemma start_rotated `{PR : !Primitives} `{NF : !Nfc} a r acts s :
  start (a, r) = (Done acts, s) →
  ∃ token rest, acts = NotifyHost (HN_InvitationRotated token) :: rest.
Proof.
  intros Hrun. revert Hrun. enough (wp start (λ o _, ∀ acts, o = Done acts → ∃ token rest,
    acts = NotifyHost (HN_InvitationRotated token) :: rest) (a, r)) as Hw.
  { intros Hrun. unfold wp in Hw. rewrite Hrun in Hw. by apply Hw. }
  unfold start. rewrite wp_self. cbn [fst snd]. destruct (negb _); [done|]. rewrite !wp_modify, wp_self. cbn [fst snd].
  eapply wp_mono; [|apply begin_wp]. intros o s' Ho acts' ->. destruct Ho as (_ & l & _ & _ & _ & _ & -> & _).
  by eexists _, l.
Qed.

Lemma reachable_mono `{PR : !Primitives} `{NF : !Nfc} limits hid mid (Ev Ev' : RoomEvent → Prop) s :
  (∀ ev, Ev ev → Ev' ev) → reachable limits hid mid Ev s → reachable limits hid mid Ev' s.
Proof.
  intros H. induction 1 as [|s ev now o s' _ IH Hev Hrun Ho]; [by eapply reach_start|].
  eapply reach_event; eauto.
Qed.

(** The supervisor's loop and the room's task with the queues between them,
    and two logs the code does not keep: the supervisor's turns, and the
    events the room has taken, each with the room that took it. Each side
    draws its own random bytes. *)
Record System := {
  sy_driver : HostDriver;
  sy_rng : Rng;
  sy_running : bool;
  sy_task : RoomTask;
  sy_events : list RoomEvent;
  sy_batches : list (list RoomAction);
  sy_history : list Turn;
  sy_handled : list (RoomEvent * RoomActor);
}.

(** What a turn is given: the next batch of the room, or anything else. *)
Inductive TurnInput := TU_Batch | TU_Event (event : HostEvent).

(** What may happen next: a turn of the supervisor, an event of the room's
    task, a step of the accept loop. *)
Inductive SystemInput :=
| SI_Turn (env : Env) (draw_failed : bool) (swept_at : Clock) (event : TurnInput)
| SI_Room (now now' : Duration)
| SI_Accepted
| SI_AcceptFailed
| SI_Registered.

Section system.
Context `{PR : !Primitives} `{PL : !PrimitiveLaws} `{HA : !Hashes} `{NF : !Nfc} `{UP : !UriPrimitives} `{ET : !ErrorTexts}.
Context (cfg : HostConfig).

Definition reset_turn (d : HostDriver) : HostDriver := hd_put_sent [] (hd_put_attempts 0 (hd_put_delivered [] d)).

(** The event of a turn and the batches left. *)
Definition turn_event (i : TurnInput) (batches : list (list RoomAction)) : option (HostEvent * list (list RoomAction)) :=
  match i, batches with
  | TU_Batch, b :: rest => Some (HE_Actions (Some b), rest)
  | TU_Batch, [] | TU_Event (HE_Actions (Some _)), _ => None
  | TU_Event ev, _ => Some (ev, batches)
  end.

Definition net_input (i : SystemInput) (n : HostNetwork) : option HostNetwork :=
  match i, hn_loop n with
  | SI_Accepted, AL_Accepting => Some (net_accepted (max_pre_auth_connections Limits_default) n)
  | SI_AcceptFailed, AL_Accepting => Some (accept_failed n)
  | SI_Registered, AL_Registering => snd <$> register_peer n
  | _, _ => None
  end.

(** [None] where the input does not apply, or a task panics. *)
Definition system_step (i : SystemInput) (s : System) : option System :=
  match i with
  | SI_Turn env draw_failed swept input =>
      if negb (sy_running s) then None else
      '(ev, batches) ← turn_event input (sy_batches s);
      match host_turn cfg env draw_failed swept ev (reset_turn (sy_driver s), sy_rng s) with
      | (Done exit, (d, r)) =>
          Some {| sy_driver := d; sy_rng := r;
                  sy_running := match exit with LE_Continue => true | _ => false end;
                  sy_task := sy_task s; sy_events := sy_events s ++ hd_sent d; sy_batches := batches;
                  sy_history := sy_history s ++
                    [{| tn_start := (reset_turn (sy_driver s), sy_rng s); tn_env := env; tn_draw_failed := draw_failed;
                        tn_swept_at := swept; tn_event := ev |}];
                  sy_handled := sy_handled s |}
      | _ => None
      end
  | SI_Room now now' =>
      match sy_events s with
      | [] => None
      | ev :: events =>
          r ← task_step (TI_Event ev now now') true (sy_task s);
          Some {| sy_driver := sy_driver s; sy_rng := sy_rng s; sy_running := sy_running s;
                  sy_task := r.2; sy_events := events; sy_batches := sy_batches s ++ r.1;
                  sy_history := sy_history s; sy_handled := sy_handled s ++ [(ev, rt_actor (sy_task s))] |}
      end
  | _ =>
      n ← net_input i (hd_network (sy_driver s));
      Some {| sy_driver := hd_put_network n (sy_driver s); sy_rng := sy_rng s; sy_running := sy_running s;
              sy_task := sy_task s; sy_events := sy_events s; sy_batches := sy_batches s;
              sy_history := sy_history s; sy_handled := sy_handled s |}
  end.

(** A session as [host_session_body] begins it: the actor for the session's
    identities, its task, the supervisor past the room's first actions. *)
Inductive system_started (initial : list RoomAction) : System → Prop :=
| system_starts nickname app env timeouts rng a r task d r1 r2 :
    create Limits_default HOST_CONNECTION nickname (hg_host_identity cfg) (hg_client_identity cfg) timeouts rng = (Ok a, r) →
    hg_session_id cfg = ra_session_id a →
    spawn_started a r = Some (Ok (task, initial)) →
    host_begin cfg env initial (HostDriver_new cfg env nickname app, r1) = (Done tt, (d, r2)) →
    system_started initial {| sy_driver := d; sy_rng := r2; sy_running := true; sy_task := task;
      sy_events := hd_sent d; sy_batches := []; sy_history := []; sy_handled := [] |}.

Inductive system_reachable (initial : list RoomAction) : System → Prop :=
| sr_start s : system_started initial s → system_reachable initial s
| sr_step s i s' : system_reachable initial s → system_step i s = Some s' → system_reachable initial s'.

(** ** Its invariant *)

Section invariant.
Context (initial : list RoomAction).

(** The requests of the room, and those it took an acceptance of: the event
    the room handled names the request, which was pending then. *)
Definition requested (history : list Turn) (q : JoinRequest) : Prop :=
  credentials cfg initial history (request_connection q) (application q).

Definition admitted (history : list Turn) (handled : list (RoomEvent * RoomActor)) (q : JoinRequest) : Prop :=
  host_accepted history (request_id q) ∧
  ∃ ev room, (ev, room) ∈ handled ∧ accepts_request ev = Some (request_id q) ∧ q ∈ pending (ra_requests room).

Lemma requested_mono h1 h2 q : requested h1 q → requested (h1 ++ h2) q.
Proof. apply credentials_mono. Qed.

Lemma admitted_mono h1 h2 l1 l2 q : admitted h1 l1 q → admitted (h1 ++ h2) (l1 ++ l2) q.
Proof.
  intros [H1 (ev & room & Hin & H2)]. split; [by apply host_accepted_mono|]. exists ev, room. split; [|done].
  apply elem_of_app. by left.
Qed.

(** The members, once the host has handled these. *)
Definition roster (history : list Turn) (handled : list (RoomEvent * RoomActor)) (room : RoomActor) : Prop :=
  vetted (requested history) (member_vetted (requested history) (admitted history handled) (member_x25519_pubkey (hg_client_identity cfg))) 0 room.

Lemma roster_mono h1 h2 l1 l2 room : roster h1 l1 room → roster (h1 ++ h2) (l1 ++ l2) room.
Proof.
  apply vetted_mono; [by apply requested_mono|]. intros m. unfold member_vetted. destruct (is_host m); [done|].
  intros (q & H1 & H2 & H3). exists q. split_and!; [by apply requested_mono|by apply admitted_mono|done].
Qed.

Record system_ok (s : System) : Prop := {
  so_supervised : supervised cfg initial (sy_history s) (sy_driver s);
  so_events : Forall (sent_ok cfg initial (sy_history s)) (sy_events s);
  so_room : reachable Limits_default (hg_host_identity cfg) (hg_client_identity cfg)
    (event_ok (hg_host_identity cfg)) (rt_actor (sy_task s), rt_rng (sy_task s));
  so_roster : roster (sy_history s) (sy_handled s) (rt_actor (sy_task s));
}.

Lemma sent_event_ok history ev : sent_ok cfg initial history ev → event_ok (hg_host_identity cfg) ev.
Proof. intros [Hs _]. destruct ev; try done. by apply credentials_contributory in Hs. Qed.

Lemma started_ok s : system_started initial s → system_ok s.
Proof.
  intros [nickname app env ts rng a r task d r1 r2 Hc Hsid Hspawn Hrun]. unfold spawn_started in Hspawn.
  destruct (start (a, r)) as [[acts|e|] [a' r']] eqn:Hstart; [|done|done]. injection Hspawn as <- ->.
  destruct (start_rotated _ _ _ _ Hstart) as (token & rest & Hi).
  pose proof (host_begin_ok cfg initial env token rest nickname app r1 Hi) as Hw. unfold wp in Hw. rewrite Hrun in Hw.
  specialize (Hw ltac:(done)). constructor; [exact Hw|apply Hw|by eapply reach_start|].
  unfold roster. cbn [sy_task sy_history sy_handled rt_actor].
  exact (start_vetted _ _ _ _ _ _ _ (hg_client_identity cfg) _ _ _ _ _ (a', r') eq_refl Hc Hstart).
Qed.

(** The room takes an event that the supervisor accounts for. *)
Lemma room_event_roster history handled ev now now' t batches t' :
  roster history handled (rt_actor t) → sent_ok cfg initial history ev →
  task_step (TI_Event ev now now') true t = Some (batches, t') →
  roster history (handled ++ [(ev, rt_actor t)]) (rt_actor t').
Proof.
  intros Hr [Hev Hacc] Hrun. apply (roster_mono _ [] _ [(ev, rt_actor t)]) in Hr. rewrite app_nil_r in Hr.
  set (handled' := handled ++ _) in *.
  assert (Hstep : ∀ ev now s o s', event_vetted (requested history) (admitted history handled') s.1 ev →
    roster history handled' s.1 → handle_event_at ev now s = (o, s') → o ≠ Panic → roster history handled' s'.1).
  { intros e n s o s' He Hs. apply vetted_step with (Adm := admitted history handled');
      [apply member_vetted_color|apply member_vetted_admits|done|done]. }
  destruct (task_listening _ _ _ _ _ _ Hrun) as [->|[batch E]]; [done|].
  apply task_event_runs in E as (o & s1 & E1 & Ho & Hlast).
  assert (H1 : roster history handled' s1.1).
  { eapply (Hstep ev now (rt_actor t, rt_rng t)); [|exact Hr|exact E1|done]. split.
    - destruct ev; done.
    - intros id q Ea Hq <-. split; [by apply Hacc|]. exists ev, (rt_actor t). split; [set_solver|done]. }
  destruct Hlast as [<-|(c & o' & E2 & Ho')]; [exact H1|].
  by apply (Hstep (EV_ConnectionLost c) now' s1 o' (rt_actor t', rt_rng t')).
Qed.

Lemma system_step_ok i s s' : system_ok s → system_step i s = Some s' → system_ok s'.
Proof.
  intros [Hs He Hr Hm]. assert (Hnet : ∀ i, (n ← net_input i (hd_network (sy_driver s));
    Some {| sy_driver := hd_put_network n (sy_driver s); sy_rng := sy_rng s; sy_running := sy_running s;
            sy_task := sy_task s; sy_events := sy_events s; sy_batches := sy_batches s;
            sy_history := sy_history s; sy_handled := sy_handled s |}) = Some s' → system_ok s').
  { intros j. destruct (net_input _ _) as [n|]; [|done]. intros [= <-]. constructor; [|done..].
    eapply supervised_watched; [|exact Hs]. done. }
  destruct i as [env df swept input|now now'| | |]; try apply Hnet; clear Hnet; cbn [system_step].
  - destruct (negb _); [done|]. destruct (turn_event _ _) as [[ev batches]|]; [|done]. cbn [mbind option_bind].
    set (turn := {| tn_event := ev |}).
    assert (Hd : supervised cfg initial (sy_history s) (tn_start turn).1) by (destruct Hs; constructor; [done..|constructor]).
    pose proof (host_turn_ok cfg initial (sy_history s) turn Hd) as Hw. unfold wp in Hw. cbn in Hw.
    destruct (host_turn _ _ _ _ _ _) as [[exit|e|] [d r]]; [|done|done]. specialize (Hw ltac:(done)). cbn in Hw.
    intros [= <-]. constructor; cbn; [exact Hw| |exact Hr|].
    + apply list.Forall_app. split; [|apply Hw]. eapply list.Forall_impl; [exact He|]. intros. by apply sent_ok_mono.
    + apply (roster_mono _ [turn] _ []) in Hm. by rewrite app_nil_r in Hm.
  - destruct (sy_events s) as [|ev events]; [done|]. apply list.Forall_cons in He as [Hev He].
    destruct (task_step _ _ _) as [[batches t]|] eqn:E; [|done]. cbn. intros [= <-]. constructor; [done|done|..]; cbn.
    + eapply task_event_listening; [|exact Hr|by eapply sent_event_ok|exact E]. by intros c.
    + by eapply room_event_roster.
Qed.

Lemma system_reachable_ok s : system_reachable initial s → system_ok s.
Proof. induction 1; [by apply started_ok|by eapply system_step_ok]. Qed.
End invariant.
(** C1.  Who is in the room. However clients and the host behave, and however the
    supervisor, the room's task and the accept loop interleave: the room is a reachable
    one, so every theorem on reachable rooms holds of it; and each member other than the
    host came of one request: its connection, nickname and keys are the request's; the
    application in it came in on that connection, after a hello, the invitation token
    the room had issued and the proof of its password for the challenge the connection
    was sent, signed by the key it names; in some turn of the supervisor the host
    pressed a key that the host's screen, as it was in that turn, took as the command to
    accept that request's number; and the room handled such an acceptance of that number
    while this very request was pending in it. *)
Theorem members_were_admitted initial s :
  system_reachable initial s →
  let room := rt_actor (sy_task s) in
  reachable Limits_default (hg_host_identity cfg) (hg_client_identity cfg) (event_ok (hg_host_identity cfg))
    (room, rt_rng (sy_task s)) ∧
  ∀ m, m ∈ table_members (ra_members room) → is_host m = false →
    ∃ q, admitted_as q m ∧ credentials cfg initial (sy_history s) (connection m) (application q) ∧
      host_accepted (sy_history s) (request_id q) ∧
      ∃ ev room', (ev, room') ∈ sy_handled s ∧ accepts_request ev = Some (request_id q) ∧
        q ∈ pending (ra_requests room').
Proof.
  intros Hs. apply system_reachable_ok in Hs as [_ _ Hr (Hm & _)]. cbv zeta. split; [exact Hr|].
  intros m Hin Hh. rewrite list.Forall_forall in Hm. specialize (Hm m Hin). unfold member_vetted in Hm. rewrite Hh in Hm.
  destruct Hm as (q & Hc & [Ha Hl] & Hq). exists q. by rewrite (aa_connection _ _ Hq).
Qed.
End system.

Section props.
Context `{PR : !Primitives} `{HA : !Hashes} `{NF : !Nfc} `{UP : !UriPrimitives} `{ET : !ErrorTexts}.

(** * Confinement *)

(** What a message on [c] may tell the room: [x] is the connection as the
    message met it. *)
Definition may_tell (policy : JoinPolicy) (x : option HostConnection) (c : ConnectionId) (ev : RoomEvent) : Prop :=
  match ev with
  | EV_ConnectionLost c' => c' = c
  | EV_PasswordVerified c' | EV_JoinRequested c' _ _ _ _ _ =>
      c' = c ∧ ∃ y, x = Some y ∧ (hx_admitted y = true ∨ policy = JP_Open)
  | EV_ChatReceived c' _ _ | EV_EpochAck c' _ =>
      c' = c ∧ ∃ y, x = Some y ∧ hx_admitted y = true ∧ ha_state (hx_admission y) = HS_Decided
  | _ => False
  end.

Section inbound.
Context (env : Env) (c : ConnectionId) (d0 : HostDriver) (r0 : Rng).

Definition confined (d : HostDriver) : Prop :=
  (∃ evs, hd_sent d = hd_sent d0 ++ evs ∧ Forall (may_tell (hd_policy d0) (hd_connections d0 !! c) c) evs) ∧
  (∃ msgs, hd_delivered d = hd_delivered d0 ++ msgs ∧ Forall (λ p, p.1 = c) msgs) ∧
  (∀ c', c' ≠ c → hd_connections d !! c' = hd_connections d0 !! c' ∧
                  hn_peers (hd_network d) !! c' = hn_peers (hd_network d0) !! c') ∧
  hd_chat d = hd_chat d0 ∧ hd_token d = hd_token d0 ∧ hd_policy d = hd_policy d0.

Lemma confined_refl : confined d0.
Proof. split_and!; [exists []|exists []|..]; rewrite ?app_nil_r; split_and?; by auto. Qed.

(** What [confined] does not look at. *)
Definition visible (d : HostDriver) :=
  (hd_sent d, hd_delivered d, hd_connections d, hn_peers (hd_network d), hd_chat d, hd_token d, hd_policy d).

Lemma confined_visible d d' : visible d = visible d' → confined d → confined d'.
Proof. unfold visible, confined. by intros [= -> -> -> -> -> -> ->]. Qed.

Lemma keeps_confined {A} (m : DM A) : keeps visible m → preserves confined m.
Proof. apply keeps_preserves, confined_visible. Qed.

Lemma confined_send ev : may_tell (hd_policy d0) (hd_connections d0 !! c) c ev → preserves confined (room_send ev).
Proof.
  intros Hev. apply preserves_modify. intros d ((evs & Hs & Hf) & Hrest). split; [|exact Hrest].
  exists (evs ++ [ev]). cbn. rewrite Hs, app_assoc. split; [done|]. apply list.Forall_app. split; [done|by constructor].
Qed.

Lemma confined_alter f : preserves confined (modify (λ d, hd_put_connections (alter f c (hd_connections d)) d) : DM unit).
Proof.
  apply preserves_modify. intros d (H1 & H2 & H3 & H4). split_and!; try apply H4; [done|done|].
  intros c' Hc. cbn. rewrite lookup_alter_ne by done. by apply H3.
Qed.

Lemma confined_remove : preserves confined (remove_connection c).
Proof.
  apply preserves_modify. intros d (H1 & H2 & H3 & H4). split_and!; try apply H4; [done|done|].
  intros c' Hc. cbn. rewrite lookup_delete_ne by done. by apply H3.
Qed.

Lemma confined_close : preserves confined (close_connection c).
Proof.
  apply preserves_modify. intros d (H1 & H2 & H3 & H4). split_and!; try apply H4; [done|done|].
  intros c' Hc. cbn. rewrite lookup_delete_ne by done. by apply H3.
Qed.

Lemma confined_net_send m : preserves confined (net_send env c m).
Proof.
  unfold net_send. apply preserves_self. intros d _.
  apply preserves_bind; [apply keeps_confined, keeps_modify; by intros|]. intros _.
  apply preserves_bind; [|auto with preserves]. destruct (send_to _ _ _); [|auto with preserves].
  apply preserves_modify. intros d' (H1 & (msgs & Hd & Hf) & H3). split; [done|]. split; [|done].
  exists (msgs ++ [(c, m)]). cbn. rewrite Hd, app_assoc. split; [done|].
  apply list.Forall_app. split; [done|by constructor].
Qed.

Lemma confined_on_view f : preserves confined (on_view f).
Proof. apply keeps_confined, keeps_modify. by intros. Qed.

Lemma confined_with_admission {A} x (m : HM A) : preserves confined (with_admission c x m).
Proof.
  intros [d r] Hd. unfold wp, with_admission, zoom.
  assert (Ha : ∀ h, confined (hd_put_connections (alter (hx_put_admission h) c (hd_connections d)) d)).
  { intros h. pose proof (confined_alter (hx_put_admission h) (d, r) Hd) as Hp. unfold wp in Hp. by apply Hp. }
  destruct (m _) as [[a|e|] [h r']]; intros _; apply Ha.
Qed.

Lemma confined_reply m : preserves confined (reply_or_fail env c m).
Proof. unfold reply_or_fail. apply preserves_bind; [apply confined_net_send|]. intros [[]|e]; auto with preserves. Qed.

Hint Resolve confined_alter confined_remove confined_close confined_net_send confined_on_view
  confined_with_admission confined_reply : preserves.

Lemma confined_lost : preserves confined (room_send (EV_ConnectionLost c)).
Proof. by apply confined_send. Qed.
Hint Resolve confined_lost : preserves.

Ltac conf_step :=
  match goal with
  | |- preserves _ (self ≫= _) => apply preserves_self; intros ? ?
  | |- preserves _ (_ ≫= _) => apply preserves_bind; [|intros]
  | |- preserves _ (match ?x with _ => _ end) => destruct x eqn:?
  | |- _ => solve [auto with preserves]
  | |- preserves _ _ => solve [apply keeps_confined, keeps_modify; intros; reflexivity]
  end.

Lemma confined_count_failure : preserves confined (count_failure env).
Proof. unfold count_failure, show_notice. repeat conf_step. Qed.

Lemma confined_dispatch x message :
  hd_connections d0 !! c = Some x → bool_decide (hd_policy d0 = JP_Locked) && negb (hx_admitted x) = false →
  ConnectionState_accepts (connection_state x) (MessageType_class (Message_type message)) = true →
  preserves confined (dispatch_message env c x message (hd_policy d0)).
Proof.
  intros Hx Hlock Hacc. unfold dispatch_message.
  assert (Hopen : ∃ y, hd_connections d0 !! c = Some y ∧ (hx_admitted y = true ∨ hd_policy d0 = JP_Open)).
  { exists x. split; [done|]. destruct (hx_admitted x); [by left|]. right. by destruct (hd_policy d0). }
  assert (Hact : connection_state x = CS_Active → ∃ y, hd_connections d0 !! c = Some y ∧
    hx_admitted y = true ∧ ha_state (hx_admission y) = HS_Decided).
  { unfold connection_state. intros H. exists x. split; [done|]. by destruct (ha_state _), (hx_admitted x). }
  apply accepts_spec in Hacc. destruct message; cbn in Hacc; repeat conf_step;
    (apply confined_send; split; [done|]; first [exact Hopen|exact (Hact Hacc)]).
Qed.

Lemma confined_handle message :
  wp (handle_host_message env c message (hd_policy d0)) (λ o s', o ≠ Panic → confined s'.1) (d0, r0).
Proof.
  unfold handle_host_message. rewrite wp_self, wp_ok_or. cbn [fst snd].
  destruct (hd_connections d0 !! c) as [x|] eqn:Hx; [|intros _; apply confined_refl].
  destruct (_ && _) eqn:Hlock; [intros _; apply confined_refl|].
  destruct (negb (ConnectionState_accepts _ _)) eqn:Hacc; [intros _; apply confined_refl|]. apply negb_false_iff in Hacc.
  eapply preserves_wp; [|apply confined_refl].
  apply preserves_bind; [by apply confined_dispatch|]. intros _. apply confined_alter.
Qed.

End inbound.

Lemma confined_seen c now d0 d :
  confined c (hd_put_connections (alter (λ x, hx_put_times (hx_stage_since x) now (hx_admitted x) x) c (hd_connections d0)) d0) d →
  confined c d0 d.
Proof.
  intros ((evs & Hs & Hf) & Hd & Hc & Hrest). split; [|split; [exact Hd|split; [|exact Hrest]]].
  - exists evs. split; [exact Hs|]. eapply list.Forall_impl; [exact Hf|]. cbn. rewrite lookup_alter_eq. intros ev.
    destruct (hd_connections d0 !! c) as [x|]; [|by destruct ev; naive_solver].
    destruct ev; simpl; try done; naive_solver.
  - intros c' Hne. destruct (Hc c' Hne) as [H1 H2]. cbn in H1. by rewrite lookup_alter_ne in H1.
Qed.

(** C10.  A message acts for its own connection only. Whatever comes in on a
    connection: what is told to the room is told of that connection (an application or a
    verified password only from one that is admitted or while the policy is open, a chat
    message or an acknowledgement only from one that is admitted and decided), what is
    sent is sent to it, and no other connection, nor the host's session, token and
    policy, is touched. *)
Theorem inbound_is_confined env c message d r o d' r' :
  host_inbound env c message (d, r) = (o, (d', r')) → o ≠ Panic → confined c d d'.
Proof.
  intros Hrun Ho. enough (wp (host_inbound env c message) (λ o s', o ≠ Panic → confined c d s'.1) (d, r)) as Hw.
  { unfold wp in Hw. rewrite Hrun in Hw. by apply Hw. }
  unfold host_inbound. destruct message as [message|].
  - rewrite wp_modify, wp_self. cbn [fst snd]. set (d1 := hd_put_connections _ d).
    rewrite wp_bind. unfold wp at 1, zoom. cbn [fst snd id].
    pose proof (confined_handle env c d1 r message) as Hh. unfold wp in Hh.
    destruct (handle_host_message _ _ _ _ _) as [[a|e|] [d2 r2]]; cbn [fst snd bind_post] in *; [| |by intros ?].
    + intros _. eapply confined_seen, Hh. done.
    + apply (preserves_wp (confined c d)); [|by eapply confined_seen, Hh].
      apply preserves_bind; [case_bool_decide; [apply confined_count_failure|auto with preserves]|]. intros _.
      apply preserves_bind; [apply confined_net_send|]. intros _.
      apply preserves_bind; [apply confined_close|]. intros _.
      apply preserves_bind; [apply confined_remove|]. intros _. by apply confined_send.
  - apply (preserves_wp (confined c d)); [|apply confined_refl].
    apply preserves_bind; [apply confined_remove|]. intros _.
    apply preserves_bind; [apply confined_close|]. intros _.
    apply preserves_bind; [by apply confined_send|]. intros _. apply confined_on_view.
Qed.
(** * The sweep *)

Definition drop_all (ids : list ConnectionId) (m : gmap ConnectionId HostConnection) : gmap ConnectionId HostConnection :=
  foldl (λ m c, delete c m) m ids.
Definition drop_peers (ids : list ConnectionId) (n : HostNetwork) : HostNetwork := foldl (λ n c, net_close c n) n ids.

Lemma drop_all_lookup ids m c : drop_all ids m !! c = if decide (c ∈ ids) then None else m !! c.
Proof.
  revert m. induction ids as [|c' ids IH]; intros m; [done|].
  change (drop_all (c' :: ids) m) with (drop_all ids (delete c' m)). rewrite IH.
  repeat case_decide; try set_solver.
  - assert (c = c') as -> by set_solver. by rewrite lookup_delete_eq.
  - rewrite lookup_delete_ne; set_solver.
Qed.

Lemma drop_peers_lookup ids n c : hn_peers (drop_peers ids n) !! c = if decide (c ∈ ids) then None else hn_peers n !! c.
Proof.
  revert n. induction ids as [|c' ids IH]; intros n; [done|].
  change (drop_peers (c' :: ids) n) with (drop_peers ids (net_close c' n)). rewrite IH. cbn.
  repeat case_decide; try set_solver.
  - assert (c = c') as -> by set_solver. by rewrite lookup_delete_eq.
  - rewrite lookup_delete_ne; set_solver.
Qed.

Lemma drop_stale_run now ids d r :
  ∃ app, drop_stale now ids (d, r) = (Done tt, (hd_put_app app
    (hd_put_sent (hd_sent d ++ (EV_ConnectionLost <$> ids))
      (hd_put_network (drop_peers ids (hd_network d))
        (hd_put_connections (drop_all ids (hd_connections d)) d))), r)).
Proof.
  revert d. induction ids as [|c ids IH]; intros d.
  - exists (hd_app d). cbn. rewrite app_nil_r. by destruct d.
  - cbn [drop_stale]. destruct (IH (hd_put_app (with_room_view (push_system (lit "connection " ++ display_N c ++ lit " timed out") now) (hd_app d))
      (hd_put_sent (hd_sent d ++ [EV_ConnectionLost c]) (hd_put_network (net_close c (hd_network d))
        (hd_put_connections (delete c (hd_connections d)) d))))) as [app Happ].
    exists app. etrans; [exact Happ|]. cbn. by rewrite <-app_assoc.
Qed.

(** The sweep of a turn removes exactly the connections that have outstayed
    their stage: admitted ones that were not heard of for three keepalive intervals,
    others that have not moved on within their stage's timeout. Each is closed and
    reported lost to the room, once; no other connection is touched. *)
Theorem sweep_ends_stale now d r :
  ∃ d' lost, sweep_stale now (d, r) = (Done tt, (d', r)) ∧
    hd_sent d' = hd_sent d ++ (EV_ConnectionLost <$> lost) ∧ NoDup lost ∧
    (∀ c, c ∈ lost ↔ ∃ x, hd_connections d !! c = Some x ∧ is_stale (ck_instant now) x = true) ∧
    ∀ c, (hd_connections d' !! c = if decide (c ∈ lost) then None else hd_connections d !! c) ∧
      (hn_peers (hd_network d') !! c = if decide (c ∈ lost) then None else hn_peers (hd_network d) !! c).
Proof.
  set (f := λ p : ConnectionId * HostConnection, if is_stale (ck_instant now) p.2 then Some p.1 else None).
  set (lost := omap f (map_to_list (hd_connections d))).
  destruct (drop_stale_run now lost d r) as [app Happ]. eexists _, lost. split; [exact Happ|]. split; [done|].
  split; [|split].
  - eapply sublist_NoDup; [apply (NoDup_fst_map_to_list (hd_connections d))|]. subst lost.
    clear Happ. induction (map_to_list _) as [|p l IH]; [constructor|]. csimpl. unfold f at 1.
    destruct (is_stale _ p.2); by constructor.
  - intros c. subst lost f. rewrite list_elem_of_omap. split.
    + intros [[c' x] [Hin Hf]]. cbn in Hf. destruct (is_stale _ _) eqn:E; [|done]. injection Hf as ->.
      exists x. by rewrite elem_of_map_to_list in Hin.
    + intros (x & Hx & E). exists (c, x). cbn. rewrite E. by rewrite elem_of_map_to_list.
  - intros c. cbn. by rewrite drop_all_lookup, drop_peers_lookup.
Qed.
End props.
