(* ===== verification/Queues.v ===== *)
(** [src/room/task.rs] and the host's loop of [src/app.rs], with the two
    bounded channels between them.

    [System] of HostProps gives the supervisor's events to the room, and the
    room's batches to the supervisor, without ever waiting. The channels hold
    [EVENT_QUEUE_CAPACITY] elements each, and both ends wait for a place: a
    turn of the supervisor is over only when its last event has one, and the
    task takes no event while a batch has none. Here the two wait; what holds
    of [System] is shown to hold of it, and then when the waiting ends, and
    what the last batch is that the supervisor takes. *)
From Stdlib Require Import Strings.String.
From S2P Require Export HostProps.

Definition EVENT_QUEUE_CAPACITY : nat := 64.

Definition put_queues (events : list RoomEvent) (batches : list (list RoomAction)) (s : System) : System := {|
  sy_driver := sy_driver s; sy_rng := sy_rng s; sy_running := sy_running s; sy_task := sy_task s;
  sy_events := events; sy_batches := batches; sy_history := sy_history s; sy_handled := sy_handled s |}.

(** The channels' contents are those of the system; [qu_outgoing] is what the
    turn under way has still to send, [qu_holding] the batch the task waits
    with, and a task that panicked has dropped its ends. *)
Record Queues := {
  qu_system : System;
  qu_outgoing : list RoomEvent;
  qu_holding : option (list RoomAction);
  qu_alive : bool;
}.

Inductive QueueInput :=
| QI_Turn (env : Env) (draw_failed : bool) (swept_at : Clock) (event : TurnInput)
| QI_Put
| QI_Room (now now' : Duration)
| QI_Deliver
| QI_Net (i : SystemInput).

(** The steps the supervisor's waiting does not stop. *)
Definition internal (i : QueueInput) : Prop :=
  match i with QI_Put | QI_Room _ _ | QI_Deliver => True | _ => False end.

Section queues.
Context `{PR : !Primitives} `{PL : !PrimitiveLaws} `{HA : !Hashes} `{NF : !Nfc} `{UP : !UriPrimitives} `{ET : !ErrorTexts}.
Context (cfg : HostConfig).

(** [next_actions] ends only when the task has gone and its batches are
    taken. *)
Definition turn_allowed (input : TurnInput) (q : Queues) : bool :=
  match input with
  | TU_Event (HE_Actions None) => negb (qu_alive q) && match sy_batches (qu_system q) with [] => true | _ => false end
  | _ => true
  end.

Definition queue_step (i : QueueInput) (q : Queues) : option Queues :=
  let s := qu_system q in
  match i with
  | QI_Turn env draw_failed swept input =>
      match qu_outgoing q with
      | _ :: _ => None
      | [] =>
          if negb (turn_allowed input q) then None else
          s' ← system_step cfg (SI_Turn env draw_failed swept input) (put_queues [] (sy_batches s) s);
          Some {| qu_system := put_queues (sy_events s) (sy_batches s') s'; qu_outgoing := sy_events s';
                  qu_holding := qu_holding q; qu_alive := qu_alive q |}
      end
  | QI_Put =>
      match qu_outgoing q with
      | [] => None
      | ev :: rest =>
          if qu_alive q && negb (length (sy_events s) <? EVENT_QUEUE_CAPACITY)%nat then None else
          Some {| qu_system := put_queues (if qu_alive q then sy_events s ++ [ev] else []) (sy_batches s) s;
                  qu_outgoing := rest; qu_holding := qu_holding q; qu_alive := qu_alive q |}
      end
  | QI_Room now now' =>
      match qu_alive q, qu_holding q, sy_events s with
      | true, None, _ :: _ =>
          match system_step cfg (SI_Room now now') (put_queues (sy_events s) [] s) with
          | Some s' => Some {| qu_system := put_queues (sy_events s') (sy_batches s) s'; qu_outgoing := qu_outgoing q;
                               qu_holding := head (sy_batches s'); qu_alive := true |}
          | None => Some {| qu_system := put_queues [] (sy_batches s) s; qu_outgoing := qu_outgoing q;
                            qu_holding := None; qu_alive := false |}
          end
      | _, _, _ => None
      end
  | QI_Deliver =>
      match qu_holding q with
      | Some b =>
          if (length (sy_batches s) <? EVENT_QUEUE_CAPACITY)%nat then
            Some {| qu_system := put_queues (sy_events s) (sy_batches s ++ [b]) s; qu_outgoing := qu_outgoing q;
                    qu_holding := None; qu_alive := qu_alive q |}
          else None
      | None => None
      end
  | QI_Net (SI_Turn _ _ _ _) | QI_Net (SI_Room _ _) => None
  | QI_Net i =>
      s' ← system_step cfg i s;
      Some {| qu_system := s'; qu_outgoing := qu_outgoing q; qu_holding := qu_holding q; qu_alive := qu_alive q |}
  end.

Fixpoint queue_run (inputs : list QueueInput) (q : Queues) : option Queues :=
  match inputs with
  | [] => Some q
  | i :: inputs => q' ← queue_step i q; queue_run inputs q'
  end.

(** The first events wait in the first turn's place: [host_begin] sends them
    before the loop. *)
Definition queues_start (s : System) : Queues := {|
  qu_system := put_queues [] [] s; qu_outgoing := sy_events s; qu_holding := None; qu_alive := true |}.

Inductive queues_reachable (initial : list RoomAction) : Queues → Prop :=
| qr_start s : system_started cfg initial s → queues_reachable initial (queues_start s)
| qr_step q i q' : queues_reachable initial q → queue_step i q = Some q' → queues_reachable initial q'.

(** * Refinement *)

(** The system a bounded one refines: the same, its waiting elements in the
    queues. A task that has gone reads no events. *)
Record refines (q : Queues) (s : System) : Prop := {
  rf_driver : sy_driver s = sy_driver (qu_system q);
  rf_rng : sy_rng s = sy_rng (qu_system q);
  rf_running : sy_running s = sy_running (qu_system q);
  rf_task : sy_task s = sy_task (qu_system q);
  rf_history : sy_history s = sy_history (qu_system q);
  rf_handled : sy_handled s = sy_handled (qu_system q);
  rf_batches : sy_batches s = sy_batches (qu_system q) ++ option_list (qu_holding q);
  rf_events : qu_alive q = true → sy_events s = sy_events (qu_system q) ++ qu_outgoing q;
}.

Record bounded (q : Queues) : Prop := {
  bd_events : length (sy_events (qu_system q)) ≤ EVENT_QUEUE_CAPACITY;
  bd_batches : length (sy_batches (qu_system q)) ≤ EVENT_QUEUE_CAPACITY;
}.

(** A batch at most comes of an event. *)
Lemma room_batches now now' s s' :
  system_step cfg (SI_Room now now') s = Some s' →
  ∃ ev b, sy_events s = ev :: sy_events s' ∧ sy_batches s' = sy_batches s ++ option_list b ∧
    task_step (TI_Event ev now now') true (sy_task s) = Some (option_list b, sy_task s') ∧
    sy_driver s' = sy_driver s ∧ sy_rng s' = sy_rng s ∧ sy_running s' = sy_running s ∧ sy_history s' = sy_history s ∧
    sy_handled s' = sy_handled s ++ [(ev, rt_actor (sy_task s))].
Proof.
  cbn [system_step]. destruct (sy_events s) as [|ev events]; [done|].
  destruct (task_step _ _ _) as [[bs t]|] eqn:E; [|done]. cbn [mbind option_bind]. intros [= <-]. exists ev.
  assert (∃ b, bs = option_list b) as [b ->].
  { revert E. unfold task_step. destruct (negb _); [by intros [= <- _]; exists None|].
    destruct (task_event _ _ _ _) as [[b|] st]; [|done]. cbn [mbind option_bind].
    destruct b; intros [= <- _]; [by exists None|by eexists (Some _)]. }
  by exists b.
Qed.

(** Of the room's two queues a turn sees the batches only. *)
Lemma turn_frame env df swept input events s s' :
  system_step cfg (SI_Turn env df swept input) (put_queues [] (sy_batches s) s) = Some s' →
  system_step cfg (SI_Turn env df swept input) (put_queues events (sy_batches s) s) =
    Some (put_queues (events ++ sy_events s') (sy_batches s') s').
Proof.
  cbn [system_step put_queues sy_running sy_batches sy_driver sy_rng sy_events sy_history sy_handled sy_task].
  destruct (negb _); [done|]. destruct (turn_event _ _) as [[ev bs]|]; [|done]. cbn [mbind option_bind].
  destruct (host_turn _ _ _ _ _ _) as [[exit|e|] [d r]]; [|done|done]. by intros [= <-].
Qed.

(** Batches at the end of the queue wait for the turns to come. *)
Lemma turn_event_app i batches more ev rest :
  turn_event i batches = Some (ev, rest) → turn_event i (batches ++ more) = Some (ev, rest ++ more).
Proof.
  destruct i as [|ev']; cbn; [destruct batches; [done|]; by intros [= <- <-]|].
  destruct ev' as [| | | | |[]| |]; try done; by intros [= <- <-].
Qed.

Lemma turn_more_batches env df swept input more s s' :
  system_step cfg (SI_Turn env df swept input) s = Some s' →
  system_step cfg (SI_Turn env df swept input) (put_queues (sy_events s) (sy_batches s ++ more) s) =
    Some (put_queues (sy_events s') (sy_batches s' ++ more) s').
Proof.
  cbn [system_step put_queues sy_running sy_batches sy_driver sy_rng sy_events sy_history sy_handled sy_task].
  destruct (negb _); [done|]. destruct (turn_event _ (sy_batches s)) as [[ev bs]|] eqn:E; [|done].
  rewrite (turn_event_app _ _ _ _ _ E). cbn [mbind option_bind].
  destruct (host_turn _ _ _ _ _ _) as [[exit|e|] [d r]]; [|done|done]. by intros [= <-].
Qed.

Lemma refines_eq q s :
  refines q s → s = put_queues (sy_events s) (sy_batches (qu_system q) ++ option_list (qu_holding q)) (qu_system q).
Proof. intros [H1 H2 H3 H4 H5 H6 H7 _]. destruct s. unfold put_queues. cbn in *. by subst. Qed.

Lemma put_queues_put e b e' b' s : put_queues e b (put_queues e' b' s) = put_queues e b s.
Proof. done. Qed.

(** An accept loop's step looks at neither queue. *)
Lemma net_frame i events batches s s' :
  match i with SI_Turn _ _ _ _ | SI_Room _ _ => False | _ => True end →
  system_step cfg i s = Some s' →
  system_step cfg i (put_queues events batches s) = Some (put_queues events batches s') ∧
  sy_events s' = sy_events s ∧ sy_batches s' = sy_batches s ∧ sy_running s' = sy_running s.
Proof. destruct i; try done; cbn [system_step]; destruct (net_input _ _) as [n|]; try done; by intros _ [= <-]. Qed.

(** The unbounded system takes the step, or none for a step that only moves
    an element between places that it does not tell apart. *)
Lemma queue_step_refines q s i q' :
  refines q s → queue_step i q = Some q' →
  ∃ s', refines q' s' ∧ (s' = s ∨ ∃ j, system_step cfg j s = Some s').
Proof.
  intros Hr. pose proof (refines_eq q s Hr) as ->. pose proof (rf_events _ _ Hr) as He.
  cbn [put_queues sy_events] in He. set (events := sy_events s) in *. clearbody events. clear s Hr.
  destruct q as [s out hold alive]. cbn [qu_system qu_outgoing qu_holding qu_alive] in *.
  destruct i as [env df swept input| |now now'| |i]; cbn [queue_step qu_system qu_outgoing qu_holding qu_alive].
  - destruct out; [|done]. destruct (negb _); [done|].
    destruct (system_step cfg _ _) as [s'|] eqn:E; [|done]. cbn [mbind option_bind]. intros [= <-].
    pose proof (turn_frame env df swept input events s s' E) as E1.
    pose proof (turn_more_batches env df swept input (option_list hold) _ _ E1) as E2.
    cbn [put_queues sy_events sy_batches] in E2. rewrite !put_queues_put in E2.
    eexists. split; [|right; eexists; exact E2].
    constructor; try done. cbn. intros Ha. rewrite (He Ha), app_nil_r. done.
  - destruct out as [|ev rest]; [done|]. destruct (_ && _); [done|]. intros [= <-].
    eexists. split; [|by left]. constructor; try done. cbn. intros ->. by rewrite (He eq_refl), <-app_assoc.
  - destruct alive; [|done]. destruct hold; [done|]. specialize (He eq_refl). destruct (sy_events s) as [|ev0 rest0] eqn:Es; [done|].
    destruct (system_step cfg _ _) as [s'|] eqn:E.
    + intros [= <-]. destruct (room_batches _ _ _ _ E) as (ev & b & E1 & E2 & E3 & E4 & E5 & E6 & E7 & E8).
      cbn [put_queues sy_events sy_batches sy_task sy_driver sy_rng sy_running sy_history sy_handled] in *. injection E1 as -> E1.
      exists (put_queues (sy_events s' ++ out) (sy_batches s ++ option_list b) s'). split.
      * constructor; try done. cbn. rewrite E2. by destruct b.
      * right. exists (SI_Room now now'). cbn [system_step put_queues sy_events sy_task]. rewrite He. cbn [app]. rewrite E3.
        cbn. unfold put_queues. rewrite E1, E4, E5, E6, E7, E8, app_nil_r. by destruct s'.
    + intros [= <-]. eexists. split; [|by left]. by constructor.
  - destruct hold as [b|]; [|done]. destruct (_ <? _)%nat; [|done]. intros [= <-].
    eexists. split; [|by left]. constructor; try done. cbn. by rewrite app_nil_r.
  - assert (Hn : match i with SI_Turn _ _ _ _ | SI_Room _ _ => False | _ => True end →
      (s' ← system_step cfg i s; Some {| qu_system := s'; qu_outgoing := out; qu_holding := hold; qu_alive := alive |}) = Some q' →
      ∃ s', refines q' s' ∧ (s' = put_queues events (sy_batches s ++ option_list hold) s ∨
        ∃ j, system_step cfg j (put_queues events (sy_batches s ++ option_list hold) s) = Some s')).
    { intros Hi. destruct (system_step cfg i s) as [s'|] eqn:E; [|done]. cbn [mbind option_bind]. intros [= <-].
      destruct (net_frame i events (sy_batches s ++ option_list hold) s s' Hi E) as (E1 & E2 & E3 & _).
      eexists. split; [|right; exists i; exact E1]. constructor; try done; cbn; [by rewrite E3|]. by rewrite E2. }
    destruct i; try done; by apply Hn.
Qed.

Lemma queue_step_bounded q i q' : bounded q → queue_step i q = Some q' → bounded q'.
Proof.
  intros [He Hb]. destruct q as [s out hold alive]. cbn [qu_system] in *.
  destruct i as [env df swept input| |now now'| |i]; cbn [queue_step qu_system qu_outgoing qu_holding qu_alive].
  - destruct out; [|done]. destruct (negb _); [done|]. cbn [system_step put_queues sy_running sy_batches].
    destruct (negb _); [done|]. destruct (turn_event _ _) as [[ev bs]|] eqn:E; [|done]. cbn [mbind option_bind].
    destruct (host_turn _ _ _ _ _ _) as [[exit|e|] [d r]]; [|done|done]. intros [= <-]. constructor; [done|]. cbn.
    revert E. destruct input as [|ev0]; cbn; [destruct (sy_batches s); [done|]; intros [= _ <-]; cbn in *; lia|].
    destruct ev0 as [| | | | |[]| |]; try done; by intros [= _ <-].
  - destruct out as [|ev rest]; [done|]. destruct alive; cbn [andb]; [|intros [= <-]; constructor; [cbn; lia|done]].
    destruct (Nat.ltb_spec (length (sy_events s)) EVENT_QUEUE_CAPACITY); [|done]. intros [= <-]. constructor; [|done].
    cbn. rewrite length_app. cbn. lia.
  - destruct alive, hold; try done. destruct (sy_events s) as [|ev0 rest0] eqn:Es; [done|].
    destruct (system_step cfg _ _) as [s'|] eqn:E; intros [= <-]; constructor; try done; cbn; [|lia].
    destruct (room_batches _ _ _ _ E) as (ev & b & E1 & _). cbn in E1. injection E1 as _ E1. rewrite <-E1. cbn in He. lia.
  - destruct hold as [b|]; [|done]. destruct (Nat.ltb_spec (length (sy_batches s)) EVENT_QUEUE_CAPACITY); [|done]. intros [= <-].
    constructor; [done|]. cbn. rewrite length_app. cbn. lia.
  - destruct i; try done; destruct (system_step cfg _ s) as [s'|] eqn:E; try done; intros [= <-];
      match type of E with system_step cfg ?i s = _ =>
        destruct (net_frame i [] [] s s' Logic.I E) as (_ & E2 & E3 & _) end; constructor; cbn; congruence.
Qed.

Lemma start_refines initial s : system_started cfg initial s → refines (queues_start s) s.
Proof. intros []. by constructor. Qed.

Lemma queues_refined initial q : queues_reachable initial q → ∃ s, refines q s ∧ system_reachable cfg initial s.
Proof.
  induction 1 as [s Hs|q i q' _ (s & Hr & Hs) Hstep].
  - exists s. split; [by eapply start_refines|by constructor].
  - destruct (queue_step_refines q s i q' Hr Hstep) as (s' & Hr' & Hs'). exists s'. split; [done|].
    destruct Hs' as [->|[j Hj]]; [done|]. by eapply sr_step.
Qed.

Lemma queues_bounded initial q : queues_reachable initial q → bounded q.
Proof. induction 1; [constructor; cbn; unfold EVENT_QUEUE_CAPACITY; lia|by eapply queue_step_bounded]. Qed.

(** C11.  The channels' bounds change nothing of what the host and the room can come
    to, only when. Whatever the supervisor, the room's task and the accept loop do and
    however they interleave: neither channel ever holds more than its 64 elements, and
    the driver, the room and what has come to the supervisor are those of a system
    without bounds, which has received the batches in the same order and is owed the
    same events; so the room is one that every theorem on reachable rooms holds of. *)
Theorem bounded_host_refines initial q :
  queues_reachable initial q →
  length (sy_events (qu_system q)) ≤ EVENT_QUEUE_CAPACITY ∧ length (sy_batches (qu_system q)) ≤ EVENT_QUEUE_CAPACITY ∧
  (∃ s, system_reachable cfg initial s ∧ refines q s) ∧
  reachable Limits_default (hg_host_identity cfg) (hg_client_identity cfg) (event_ok (hg_host_identity cfg))
    (rt_actor (sy_task (qu_system q)), rt_rng (sy_task (qu_system q))).
Proof.
  intros Hq. destruct (queues_bounded _ _ Hq) as [H1 H2]. destruct (queues_refined _ _ Hq) as (s & Hr & Hs).
  split_and!; [done|done|by exists s|]. rewrite <-(rf_task _ _ Hr).
  by destruct (system_reachable_ok cfg initial s Hs) as [_ _ Hroom _].
Qed.

(** * When the waiting ends *)

(** Nobody can move: the supervisor waits for a place for its event, the
    task for one for its batch. *)
Definition blocked (q : Queues) : Prop :=
  qu_alive q = true ∧ qu_outgoing q ≠ [] ∧ is_Some (qu_holding q) ∧
  length (sy_events (qu_system q)) = EVENT_QUEUE_CAPACITY ∧ length (sy_batches (qu_system q)) = EVENT_QUEUE_CAPACITY.

(** How many events and batches are under way. *)
Definition under_way (q : Queues) : nat :=
  length (qu_outgoing q) + length (sy_events (qu_system q)) + length (option_list (qu_holding q))
    + length (sy_batches (qu_system q)).

(** What the steps of the two queues use up. *)
Definition work_left (q : Queues) : nat :=
  3 * length (qu_outgoing q) + 2 * length (sy_events (qu_system q)) + length (option_list (qu_holding q)).

Lemma internal_step_measure q i q' :
  internal i → queue_step i q = Some q' → work_left q' < work_left q ∧ under_way q' ≤ under_way q ∧
    sy_running (qu_system q') = sy_running (qu_system q) ∧ sy_driver (qu_system q') = sy_driver (qu_system q).
Proof.
  unfold work_left, under_way. destruct q as [s out hold alive].
  destruct i as [|  |now now'| |i]; try done; intros _; cbn [queue_step qu_system qu_outgoing qu_holding qu_alive].
  - destruct out as [|ev rest]; [done|]. destruct (_ && _); [done|]. intros [= <-]. cbn.
    destruct alive; rewrite ?length_app; cbn; (split_and!; [lia|lia|done|done]).
  - destruct alive, hold; try done. destruct (sy_events s) as [|ev0 rest0] eqn:Es; [done|].
    destruct (system_step cfg _ _) as [s'|] eqn:E; intros [= <-]; cbn [qu_system qu_outgoing qu_holding put_queues
      sy_events sy_batches sy_running sy_driver]; [|cbn; split_and!; [lia|lia|done|done]].
    destruct (room_batches _ _ _ _ E) as (ev & b & E1 & E2 & _ & E4 & _ & E6 & _).
    cbn [put_queues sy_events sy_batches sy_running sy_driver] in *. injection E1 as _ ->. rewrite E2.
    destruct b; cbn; (split_and!; [lia|lia|done|done]).
  - destruct hold as [b|]; [|done]. destruct (_ <? _)%nat; [|done]. intros [= <-]. cbn. rewrite length_app. cbn.
    split_and!; [lia|lia|done|done].
Qed.

(** Unless it is blocked, a system with something to do can do it. *)
Lemma internal_enabled q :
  bounded q → ¬ blocked q → (∀ i, internal i → queue_step i q = None) →
  qu_outgoing q = [] ∧ (qu_alive q = true → qu_holding q = None → sy_events (qu_system q) = []) ∧
  (length (sy_batches (qu_system q)) < EVENT_QUEUE_CAPACITY → qu_holding q = None).
Proof.
  intros [He Hb] Hnb Hstuck. destruct q as [s out hold alive]. unfold blocked in Hnb.
  pose proof (Hstuck QI_Put Logic.I) as Hput. pose proof (Hstuck (QI_Room 0 0) Logic.I) as Hroom.
  pose proof (Hstuck QI_Deliver Logic.I) as Hdel.
  cbn [queue_step qu_system qu_outgoing qu_holding qu_alive] in *.
  assert (Hh : length (sy_batches s) < EVENT_QUEUE_CAPACITY → hold = None).
  { intros Hl. destruct hold; [|done]. by rewrite (proj2 (Nat.ltb_lt _ _) Hl) in Hdel. }
  assert (Hev : alive = true → hold = None → sy_events s = []).
  { intros -> ->. destruct (sy_events s); [done|]. destruct (system_step cfg _ _); discriminate. }
  split_and!; [|done|done]. destruct out as [|ev rest]; [done|].
  destruct alive; [|discriminate]. cbn [andb] in Hput.
  destruct (Nat.ltb_spec (length (sy_events s)) EVENT_QUEUE_CAPACITY) as [|Hfull]; [discriminate|].
  assert (Hl : length (sy_events s) = EVENT_QUEUE_CAPACITY) by lia.
  destruct (decide (length (sy_batches s) < EVENT_QUEUE_CAPACITY)) as [Hlb|Hlb].
  { specialize (Hev eq_refl (Hh Hlb)). by rewrite Hev in Hl. }
  destruct hold as [b|]; [|specialize (Hev eq_refl eq_refl); by rewrite Hev in Hl].
  destruct Hnb. split_and!; [done|done|by eexists|done|lia].
Qed.

(** A blocked system stays so: only the accept loop moves. *)
Lemma blocked_step q i q' : blocked q → queue_step i q = Some q' → blocked q' ∧ ∃ j, i = QI_Net j.
Proof.
  intros (Ha & Ho & [b Hh] & He & Hb). destruct q as [s out hold alive].
  cbn [qu_system qu_outgoing qu_holding qu_alive] in *. subst.
  destruct i as [env df swept input| |now now'| |i]; cbn [queue_step qu_system qu_outgoing qu_holding qu_alive].
  - by destruct out.
  - destruct out; [done|]. rewrite He. done.
  - done.
  - by rewrite Hb.
  - intros Hrun. split; [|by exists i]. unfold blocked.
    destruct i; try done; destruct (system_step cfg _ s) as [s'|] eqn:E; try done; injection Hrun as <-;
      match type of E with system_step cfg ?i s = _ =>
        destruct (net_frame i [] [] s s' Logic.I E) as (_ & E2 & E3 & _) end;
      cbn; rewrite E2, E3; split_and!; try done; by eexists.
Qed.

(** No step of the two queues is left. *)
Definition settled (q : Queues) : Prop := ∀ i, internal i → queue_step i q = None.

Lemma settled_or_step q : settled q ∨ ∃ i q', internal i ∧ queue_step i q = Some q'.
Proof.
  destruct (queue_step QI_Put q) as [q'|] eqn:E1; [right; by exists QI_Put, q'|].
  destruct (queue_step QI_Deliver q) as [q'|] eqn:E2; [right; by exists QI_Deliver, q'|].
  destruct (queue_step (QI_Room 0 0) q) as [q'|] eqn:E3; [right; by exists (QI_Room 0 0), q'|].
  left. intros [|  |now now'| |] Hi; try done. revert E3. cbn [queue_step].
  destruct (qu_alive q), (qu_holding q), (sy_events (qu_system q)); try done; destruct (system_step cfg _ _); discriminate.
Qed.

Lemma settles q : ∃ js q', Forall internal js ∧ queue_run js q = Some q' ∧ settled q'.
Proof.
  remember (work_left q) as n eqn:Hn. revert q Hn. induction (lt_wf n) as [n _ IH]. intros q ->.
  destruct (settled_or_step q) as [Hs|(i & q1 & Hi & Hq)]; [by exists [], q|].
  destruct (IH (work_left q1)) with q1 as (js & q' & Hjs & Hrun & Hs); [by eapply internal_step_measure|done|].
  exists (i :: js), q'. split; [by constructor|]. cbn [queue_run]. by rewrite Hq.
Qed.

Lemma internal_run js q q' :
  Forall internal js → queue_run js q = Some q' →
  length js + work_left q' ≤ work_left q ∧ under_way q' ≤ under_way q ∧
  sy_running (qu_system q') = sy_running (qu_system q) ∧ sy_driver (qu_system q') = sy_driver (qu_system q) ∧
  (bounded q → bounded q').
Proof.
  intros Hjs. revert q. induction Hjs as [|i js Hi _ IH]; intros q; cbn [queue_run]; [by intros [= ->]|].
  destruct (queue_step i q) as [q1|] eqn:E; [|done]. cbn [mbind option_bind]. intros Hrun.
  destruct (internal_step_measure _ _ _ Hi E) as (H1 & H2 & H3 & H4). destruct (IH _ Hrun) as (G1 & G2 & G3 & G4 & G5).
  cbn [length]. split_and!; [lia|lia|congruence|congruence|]. intros Hb. by eapply G5, queue_step_bounded.
Qed.

Lemma under_way_not_blocked q : under_way q ≤ 129 → ¬ blocked q.
Proof.
  intros Hu (_ & Ho & [b Hh] & He & Hb). unfold under_way in Hu. rewrite Hh, He, Hb in Hu. unfold EVENT_QUEUE_CAPACITY in Hu.
  destruct (qu_outgoing q); [done|]. cbn in Hu. lia.
Qed.

Lemma blocked_run js q q' : blocked q → queue_run js q = Some q' → blocked q'.
Proof.
  revert q. induction js as [|i js IH]; intros q Hb; cbn [queue_run]; [by intros [= <-]|].
  destruct (queue_step i q) as [q1|] eqn:E; [|done]. cbn [mbind option_bind]. apply IH. by eapply blocked_step.
Qed.

(** C12.  When a turn of the supervisor ends. However the places in the two channels
    are taken and given, there are only so many steps to be made for the events that it
    has sent; when none is left, it has sent them all, or the host is deadlocked: the
    supervisor waits for a place for an event, the room's task for one for a batch that
    only the supervisor would take, and whatever happens from then on it stays so. It
    does not come to that while at most 129 events and batches are under way. *)
Theorem turns_end_or_deadlock initial q js q' :
  queues_reachable initial q → Forall internal js → queue_run js q = Some q' →
  length js ≤ work_left q ∧
  (∃ js' q'', Forall internal js' ∧ queue_run js' q' = Some q'' ∧ settled q'') ∧
  (settled q' → qu_outgoing q' = [] ∨ blocked q') ∧
  (under_way q ≤ 129 → ¬ blocked q') ∧
  (blocked q' → ∀ js' q'', queue_run js' q' = Some q'' → blocked q'').
Proof.
  intros Hq Hjs Hrun. destruct (internal_run _ _ _ Hjs Hrun) as (H1 & H2 & _ & _ & H3).
  split_and!; [lia|apply settles| | |intros Hb js' q''; by apply blocked_run].
  - intros Hs. assert (Hd : blocked q' ∨ ¬ blocked q').
    { unfold blocked, EVENT_QUEUE_CAPACITY.
      destruct (qu_alive q'), (qu_outgoing q'), (qu_holding q'); try (right; intros (? & ? & [? [=]] & ?); done).
      destruct (decide (length (sy_events (qu_system q')) = 64)), (decide (length (sy_batches (qu_system q')) = 64));
        [left; split_and!; try done; by eexists|right; naive_solver..]. }
    destruct Hd as [Hd|Hd]; [by right|]. left. by destruct (internal_enabled q' (H3 (queues_bounded _ _ Hq)) Hd Hs).
  - intros Hu. apply under_way_not_blocked. lia.
Qed.

(** * The last batch *)

(** Past the loop the supervisor asks for the room to be closed, then takes
    one batch. *)
Definition begin_exit (q : Queues) : Queues := {|
  qu_system := qu_system q; qu_outgoing := qu_outgoing q ++ [EV_CloseRequested];
  qu_holding := qu_holding q; qu_alive := qu_alive q |}.

(** The batches the supervisor has not taken, oldest first. *)
Definition untaken (q : Queues) : list (list RoomAction) :=
  sy_batches (qu_system q) ++ option_list (qu_holding q).

Definition next_batch (q : Queues) : option (list RoomAction) := head (untaken q).

(** What closing the room tells its connections. *)
Definition closing_batch (t : RoomTask) : list RoomAction :=
  flat_map (λ c, [SendTo c M_Shutdown; CloseConnection c]) (conn_ids (ra_connections (rt_actor t)))
    ++ [NotifyHost HN_RoomClosed].

Definition room_open (t : RoomTask) : Prop :=
  rt_running t = true ∧ ra_state (rt_actor t) ≠ RS_Closing ∧ ra_state (rt_actor t) ≠ RS_Destroyed.

Lemma close_request_closes a r now :
  ra_state a ≠ RS_Closing → ra_state a ≠ RS_Destroyed →
  ∃ s', handle_event_at EV_CloseRequested now (a, r) =
    (Done (flat_map (λ c, [SendTo c M_Shutdown; CloseConnection c]) (conn_ids (ra_connections a)) ++ [NotifyHost HN_RoomClosed]), s').
Proof.
  intros H1 H2. assert (Hc : ∀ b, ra_state b ≠ RS_Destroyed → ra_connections b = ra_connections a → ∃ s', close_room (b, r) =
    (Done (flat_map (λ c, [SendTo c M_Shutdown; CloseConnection c]) (conn_ids (ra_connections a)) ++ [NotifyHost HN_RoomClosed]), s')).
  { intros b Hb <-. unfold close_room, mbind, M_bind, self, modify. cbn [fst snd].
    rewrite bool_decide_eq_false_2 by done. by eexists. }
  unfold handle_event_at. unfold mbind at 1, M_bind at 1. unfold modify at 1. cbn [fst snd].
  unfold mbind at 1, M_bind at 1. unfold self at 1. cbn [fst snd].
  destruct (ra_state (put_now now a)) eqn:E; try done; by apply (Hc (put_now now a)); [rewrite E|].
Qed.

Lemma close_request_batch t now now' :
  room_open t → ∃ t', task_step (TI_Event EV_CloseRequested now now') true t = Some ([closing_batch t], t').
Proof.
  intros (Hr & H1 & H2). unfold task_step. rewrite Hr. cbn [negb]. unfold task_event.
  destruct (close_request_closes (rt_actor t) (rt_rng t) now H1 H2) as [s' ->]. cbn [mbind option_bind].
  fold (closing_batch t). destruct (closing_batch t) as [|act acts] eqn:E; [|by eexists].
  unfold closing_batch in E. by destruct (flat_map _ _).
Qed.

(** The oldest batch stays the oldest until it is taken. *)
Lemma internal_untaken i q q' :
  internal i → queue_step i q = Some q' → ∃ more, untaken q' = untaken q ++ more.
Proof.
  unfold untaken. destruct q as [s out hold alive].
  destruct i as [|  |now now'| |i]; try done; intros _; cbn [queue_step qu_system qu_outgoing qu_holding qu_alive].
  - destruct out as [|ev rest]; [done|]. destruct (_ && _); [done|]. intros [= <-]. exists []. by rewrite app_nil_r.
  - destruct alive, hold; try done. destruct (sy_events s) as [|ev0 rest0]; [done|].
    destruct (system_step cfg _ _) as [s'|] eqn:E; intros [= <-]; [|exists []; cbn; by rewrite !app_nil_r].
    cbn. exists (option_list (head (sy_batches s'))). by rewrite app_nil_r.
  - destruct hold as [b|]; [|done]. destruct (_ <? _)%nat; [|done]. intros [= <-]. exists []. cbn. by rewrite !app_nil_r.
Qed.

(** Nothing but requests to close the room is on its way to it, and no batch
    on its way back; or the closing batch is the oldest. *)
Definition closing (acts : list RoomAction) (q : Queues) : Prop :=
  (untaken q = [] ∧ Forall (λ ev, ev = EV_CloseRequested) (sy_events (qu_system q) ++ qu_outgoing q) ∧
   sy_events (qu_system q) ++ qu_outgoing q ≠ [] ∧
   qu_alive q = true ∧ room_open (sy_task (qu_system q)) ∧ closing_batch (sy_task (qu_system q)) = acts) ∨
  next_batch q = Some acts.

Lemma internal_closing acts i q q' : internal i → closing acts q → queue_step i q = Some q' → closing acts q'.
Proof.
  intros Hi [(Hu & Hall & Hne & Ha & Ho & Hacts)|Hb] Hstep.
  - unfold closing, next_batch, untaken in *. destruct q as [s out hold alive]. cbn [qu_system qu_outgoing qu_holding qu_alive] in *. subst alive.
    apply app_eq_nil in Hu as [Hs Hh]. destruct hold; [done|].
    destruct i as [|  |now now'| |i]; try done; cbn [queue_step qu_system qu_outgoing qu_holding qu_alive] in Hstep.
    + destruct out as [|ev rest]; [done|]. destruct (_ && _); [done|]. injection Hstep as <-. left. cbn.
      rewrite <-app_assoc. cbn. by rewrite Hs.
    + destruct (sy_events s) as [|ev rest] eqn:Ee; [done|]. cbn in Hall. apply list.Forall_cons in Hall as [-> _].
      destruct (close_request_batch (sy_task s) now now' Ho) as [t' Ht].
      cbn [system_step put_queues sy_events sy_task] in Hstep. rewrite Ht in Hstep. cbn [mbind option_bind] in Hstep.
      injection Hstep as <-. right. cbn. rewrite Hs. cbn. by subst.
  - right. destruct (internal_untaken _ _ _ Hi Hstep) as [more Hm]. unfold next_batch in *. rewrite Hm.
    by destruct (untaken q).
Qed.

Lemma internal_run_keeps (P : Queues → Prop) js q q' :
  (∀ i q q', internal i → P q → queue_step i q = Some q' → P q') →
  Forall internal js → P q → queue_run js q = Some q' → P q'.
Proof.
  intros HP Hjs. revert q. induction Hjs as [|i js Hi _ IH]; intros q Hq; cbn [queue_run]; [by intros [= <-]|].
  destruct (queue_step i q) as [q1|] eqn:E; [|done]. cbn [mbind option_bind]. apply IH. by eapply HP.
Qed.

(** With nothing else under way the closing batch comes. *)
Lemma closing_settles acts q :
  closing acts q → settled q → bounded q → ¬ blocked q → next_batch q = Some acts.
Proof.
  intros [(Hu & _ & Hne & Ha & _)|Hb] Hs Hbd Hnb; [|done]. destruct (internal_enabled q Hbd Hnb Hs) as (H1 & H2 & _).
  unfold untaken in Hu. apply app_eq_nil in Hu as [_ Hh]. rewrite H1, H2 in Hne; [done|done|].
  by destruct (qu_holding q).
Qed.

(** ** Its delivery *)

Lemma net_send_queues env c m d r :
  (∀ n, env_queue env n = TS_Sent) →
  ∃ d', fst <$> Some (net_send env c m (d, r)).2 = Some d' ∧ (net_send env c m (d, r)).2.2 = r ∧
    (∃ x, (net_send env c m (d, r)).1 = Done x) ∧ hd_network d' = hd_network d ∧
    hd_delivered d' = hd_delivered d ++ (if decide (is_Some (hn_peers (hd_network d) !! c)) then [(c, m)] else []).
Proof.
  intros Henv. unfold net_send, mbind, M_bind, self, modify, send_to, mret, M_ret. cbn [fst snd]. rewrite Henv.
  destruct (hn_peers (hd_network d) !! c) as [p|]; cbn.
  - eexists. split; [done|]. split; [done|]. split; [by eexists|]. split; [done|]. cbn. by rewrite decide_True by by eexists.
  - eexists. split; [done|]. split; [done|]. split; [by eexists|]. split; [done|]. cbn.
    rewrite decide_False by (intros [? [=]]). by rewrite app_nil_r.
Qed.

Lemma filter_others c n (cs : list ConnectionId) :
  c ∉ cs → filter (λ c', is_Some (hn_peers (net_close c n) !! c')) cs = filter (λ c', is_Some (hn_peers n !! c')) cs.
Proof.
  induction cs as [|c' cs IH]; [done|]. intros Hc. rewrite !filter_cons, IH by set_solver.
  cbn. by rewrite lookup_delete_ne by set_solver.
Qed.

Lemma deliver_closing_run env cs d r :
  (∀ n, env_queue env n = TS_Sent) → NoDup cs →
  ∃ d', deliver_closing env (flat_map (λ c, [SendTo c M_Shutdown; CloseConnection c]) cs ++ [NotifyHost HN_RoomClosed]) (d, r)
      = (Done tt, (d', r)) ∧
    hd_delivered d' = hd_delivered d ++
      ((λ c, (c, M_Shutdown)) <$> filter (λ c, is_Some (hn_peers (hd_network d) !! c)) cs).
Proof.
  intros Henv. revert d. induction cs as [|c cs IH]; intros d Hnd.
  { exists d. split; [done|]. by rewrite app_nil_r. }
  apply list.NoDup_cons in Hnd as [Hc Hnd]. destruct (net_send_queues env c M_Shutdown d r Henv) as (d1 & E1 & Er & [x Ex] & En & Ed).
  change (flat_map ?f (c :: cs)) with ([SendTo c M_Shutdown; CloseConnection c] ++ flat_map f cs).
  cbn [app deliver_closing]. unfold mbind at 1, M_bind at 1.
  destruct (net_send env c M_Shutdown (d, r)) as [o [d1' r1]]. cbn [fst snd] in *. subst o r1. injection E1 as <-.
  unfold mbind at 1, M_bind at 1. unfold close_connection at 1, modify. cbn [fst snd].
  destruct (IH (hd_put_network (net_close c (hd_network d1')) d1') Hnd) as (d' & -> & Hd). exists d'. split; [done|].
  rewrite Hd. cbn [hd_delivered hd_put_network hd_network]. rewrite Ed, <-app_assoc. f_equal. rewrite filter_cons, En.
  rewrite filter_others by done. by destruct (decide _).
Qed.

Lemma host_exit_delivers env d r t :
  (∀ n, env_queue env n = TS_Sent) →
  ∃ d', host_exit env (Some (closing_batch t)) (d, r) = (Done SE_Menu, (d', r)) ∧
    hd_delivered d' = hd_delivered d ++
      ((λ c, (c, M_Shutdown)) <$> filter (λ c, is_Some (hn_peers (hd_network d) !! c))
         (conn_ids (ra_connections (rt_actor t)))) ∧ hn_peers (hd_network d') = ∅.
Proof.
  intros Henv. unfold host_exit, room_send. unfold mbind at 1, M_bind at 1. unfold modify at 1. cbn [fst snd].
  destruct (deliver_closing_run env (conn_ids (ra_connections (rt_actor t)))
    (hd_put_sent (hd_sent d ++ [EV_CloseRequested]) d) r Henv (NoDup_conn_ids _)) as (d' & Hrun & Hd).
  unfold mbind at 1, M_bind at 1. unfold closing_batch. rewrite Hrun. eexists. split; [done|]. by split.
Qed.

(** What a batch sends. *)
Definition batch_sends (b : list RoomAction) : list (ConnectionId * Message) :=
  omap (λ a, match a with SendTo c m => Some (c, m) | _ => None end) b.

(** Whatever the queues answer, nothing but the batch's own messages goes out. *)
Lemma deliver_closing_sends env acts d r :
  ∃ d' msgs, deliver_closing env acts (d, r) = (Done tt, (d', r)) ∧
    hd_delivered d' = hd_delivered d ++ msgs ∧ msgs `sublist_of` batch_sends acts.
Proof.
  revert d. induction acts as [|a acts IH]; intros d; cbn [deliver_closing].
  { exists d, []. by rewrite app_nil_r. }
  destruct a as [c m|c|n]; [|destruct (IH (hd_put_network (net_close c (hd_network d)) d)) as (d' & msgs & H)|apply IH].
  2: { exists d', msgs. exact H. }
  unfold net_send. unfold mbind, M_bind, self, modify, mret, M_ret. cbn [fst snd].
  destruct (send_to c _ _); cbn [fst snd].
  - match goal with |- context [deliver_closing env acts (?x, r)] => destruct (IH x) as (d' & msgs & H1 & H2 & H3) end.
    exists d', ((c, m) :: msgs). rewrite H1, H2. cbn. split; [done|]. rewrite <-app_assoc. split; [done|]. by apply sublist_skip.
  - match goal with |- context [deliver_closing env acts (?x, r)] => destruct (IH x) as (d' & msgs & H1 & H2 & H3) end.
    exists d', msgs. rewrite H1, H2. split; [done|]. split; [done|]. by apply sublist_cons.
Qed.

Lemma host_exit_sends env b d r :
  ∃ d' msgs, host_exit env (Some b) (d, r) = (Done SE_Menu, (d', r)) ∧
    hd_delivered d' = hd_delivered d ++ msgs ∧ msgs `sublist_of` batch_sends b ∧ hn_peers (hd_network d') = ∅.
Proof.
  unfold host_exit, room_send. unfold mbind at 1, M_bind at 1. unfold modify at 1. cbn [fst snd].
  destruct (deliver_closing_sends env b (hd_put_sent (hd_sent d ++ [EV_CloseRequested]) d) r) as (d' & msgs & Hrun & Hd & Hs).
  unfold mbind at 1, M_bind at 1. rewrite Hrun. eexists _, msgs. split; [done|]. by split_and!.
Qed.

Lemma begin_exit_closing q :
  untaken q = [] → Forall (λ ev, ev = EV_CloseRequested) (sy_events (qu_system q) ++ qu_outgoing q) →
  qu_alive q = true → room_open (sy_task (qu_system q)) → closing (closing_batch (sy_task (qu_system q))) (begin_exit q).
Proof.
  intros Hu Hall Ha Ho. left. split; [exact Hu|]. cbn [begin_exit qu_system qu_outgoing qu_alive].
  split; [|split; [|done]].
  - rewrite app_assoc. apply list.Forall_app. split; [done|]. by constructor.
  - rewrite app_assoc. by intros [_ [=]]%app_eq_nil.
Qed.

(** C13.  What the connections hear of the end of the room. The supervisor that
    leaves its loop asks the room to close and takes one batch, the oldest it has not
    taken, whatever that is: where batches were under way it is the first of them, the
    closing one only if an earlier request to close had already produced it. Whatever
    the connections' queues answer, nothing is sent but messages of the batch that was
    taken, and the connections are dropped; so where it is another batch, the closing of
    the room goes unsaid. Where none was under way, the room is still open, and nothing
    was on its way to it but requests to close it, the batch is the closing one, which
    does come while at most 128 events and batches are under way; and every connection
    of the room that has a connection task is sent a Shutdown, once, where every queue
    takes it. *)
Theorem graceful_exit initial q js q' b rest :
  queues_reachable initial q → Forall internal js → queue_run js (begin_exit q) = Some q' →
  sy_batches (qu_system q') = b :: rest →
  let task := sy_task (qu_system q) in
  (∀ b0, next_batch q = Some b0 → b = b0) ∧
  (∀ env r, ∃ d' msgs, host_exit env (Some b) (sy_driver (qu_system q'), r) = (Done SE_Menu, (d', r)) ∧
     hd_delivered d' = hd_delivered (sy_driver (qu_system q)) ++ msgs ∧ msgs `sublist_of` batch_sends b ∧
     hn_peers (hd_network d') = ∅) ∧
  (untaken q = [] → Forall (λ ev, ev = EV_CloseRequested) (sy_events (qu_system q) ++ qu_outgoing q) →
   qu_alive q = true → room_open task →
   b = closing_batch task ∧
   (∀ env r, (∀ n, env_queue env n = TS_Sent) →
    ∃ d', host_exit env (Some b) (sy_driver (qu_system q'), r) = (Done SE_Menu, (d', r)) ∧
      hd_delivered d' = hd_delivered (sy_driver (qu_system q)) ++
        ((λ c, (c, M_Shutdown)) <$> filter (λ c, is_Some (hn_peers (hd_network (sy_driver (qu_system q))) !! c))
           (conn_ids (ra_connections (rt_actor task))))) ∧
   (under_way q ≤ 128 → ∃ js q', Forall internal js ∧ queue_run js (begin_exit q) = Some q' ∧
      qu_outgoing q' = [] ∧ head (sy_batches (qu_system q')) = Some (closing_batch task))).
Proof.
  intros Hq Hjs Hrun Hb. cbv zeta. assert (Hnb : next_batch q' = Some b).
  { unfold next_batch, untaken. by rewrite Hb. }
  split.
  - intros b0 Hb0. assert (Hc : next_batch q' = Some b0); [|congruence].
    refine (internal_run_keeps (λ q, next_batch q = Some b0) js (begin_exit q) q' _ Hjs Hb0 Hrun).
    intros i q1 q2 Hi H1 H2. destruct (internal_untaken _ _ _ Hi H2) as [more Hm]. unfold next_batch in *. rewrite Hm.
    by destruct (untaken q1).
  - split.
    { intros env r. destruct (internal_run _ _ _ Hjs Hrun) as (_ & _ & _ & Hd & _). cbn in Hd. rewrite <-Hd.
      apply host_exit_sends. }
    intros Hu Hall Ha Ho. pose proof (begin_exit_closing q Hu Hall Ha Ho) as Hc. set (acts := closing_batch _) in *.
    assert (b = acts) as ->.
    { destruct (internal_run_keeps _ js _ _ (internal_closing acts) Hjs Hc Hrun) as [[Hu' _]|Hn]; [|congruence].
      unfold next_batch in Hnb. by rewrite Hu' in Hnb. }
    split_and!; [done| |].
    + intros env r Henv. destruct (internal_run _ _ _ Hjs Hrun) as (_ & _ & _ & Hd & _). cbn in Hd. rewrite Hd.
      destruct (host_exit_delivers env (sy_driver (qu_system q)) r (sy_task (qu_system q)) Henv) as (d' & H1 & H2 & _). by exists d'.
    + intros Hw. destruct (settles (begin_exit q)) as (js1 & q1 & Hjs1 & Hrun1 & Hs). exists js1, q1.
      destruct (internal_run _ _ _ Hjs1 Hrun1) as (_ & Hu1 & _ & _ & Hbd).
      assert (Hbd1 : bounded q1). { apply Hbd. destruct (queues_bounded _ _ Hq). by constructor. }
      assert (Hnb1 : ¬ blocked q1).
      { apply under_way_not_blocked. revert Hu1 Hw. unfold under_way. cbn. rewrite length_app. cbn. lia. }
      destruct (internal_enabled q1 Hbd1 Hnb1 Hs) as (H1 & _ & H3). split_and!; try done.
      pose proof (internal_run_keeps _ js1 _ _ (internal_closing _) Hjs1 Hc Hrun1) as Hc1.
      pose proof (closing_settles _ _ Hc1 Hs Hbd1 Hnb1) as Hn. unfold next_batch, untaken in Hn.
      destruct (sy_batches (qu_system q1)) as [|b1 bs] eqn:E; [|exact Hn].
      rewrite H3 in Hn; [done|]. unfold EVENT_QUEUE_CAPACITY. cbn. lia.
Qed.
End queues.
