(* ===== verification/JoinDriver.v ===== *)
(** [src/app.rs], the participant's side: the supervisor that owns a join
    session, from the first message to the end of the connection.

    A turn is given its environment like the host's ([HostDriver]). A turn
    that returns from the session fails with its end, so that nothing after
    it runs. [jd_sent] collects what the connection's queue took. *)
From Stdlib Require Import Strings.String.
From S2P Require Export HostDriver.

Record JoinDriver := {
  jd_admission : ClientAdmission;
  jd_pending_form : option (rstring * option rstring);
  jd_own_nickname : option rstring;
  jd_stage_since : Instant;
  jd_last_seen : Instant;
  jd_app : App;
  jd_attempts : nat;
  jd_sent : list Message;
}.

(** Field assignment. *)
Definition jd_put_admission (v : ClientAdmission) (d : JoinDriver) : JoinDriver := {|
  jd_admission := v; jd_pending_form := jd_pending_form d; jd_own_nickname := jd_own_nickname d;
  jd_stage_since := jd_stage_since d; jd_last_seen := jd_last_seen d; jd_app := jd_app d;
  jd_attempts := jd_attempts d; jd_sent := jd_sent d |}.
Definition jd_put_form (pending : option (rstring * option rstring)) (nickname : option rstring) (d : JoinDriver)
    : JoinDriver := {|
  jd_admission := jd_admission d; jd_pending_form := pending; jd_own_nickname := nickname;
  jd_stage_since := jd_stage_since d; jd_last_seen := jd_last_seen d; jd_app := jd_app d;
  jd_attempts := jd_attempts d; jd_sent := jd_sent d |}.
Definition jd_put_times (stage_since last_seen : Instant) (d : JoinDriver) : JoinDriver := {|
  jd_admission := jd_admission d; jd_pending_form := jd_pending_form d; jd_own_nickname := jd_own_nickname d;
  jd_stage_since := stage_since; jd_last_seen := last_seen; jd_app := jd_app d;
  jd_attempts := jd_attempts d; jd_sent := jd_sent d |}.
Definition jd_put_app (v : App) (d : JoinDriver) : JoinDriver := {|
  jd_admission := jd_admission d; jd_pending_form := jd_pending_form d; jd_own_nickname := jd_own_nickname d;
  jd_stage_since := jd_stage_since d; jd_last_seen := jd_last_seen d; jd_app := v;
  jd_attempts := jd_attempts d; jd_sent := jd_sent d |}.
Definition jd_put_sent (attempts : nat) (sent : list Message) (d : JoinDriver) : JoinDriver := {|
  jd_admission := jd_admission d; jd_pending_form := jd_pending_form d; jd_own_nickname := jd_own_nickname d;
  jd_stage_since := jd_stage_since d; jd_last_seen := jd_last_seen d; jd_app := jd_app d;
  jd_attempts := attempts; jd_sent := sent |}.

Abbreviation JM := (Comp JoinDriver SessionEnd) (only parsing).

Definition failed {A} (message : rstring) : JM A := fail (SE_Failed message).

(** [Display] of [PeerSendError]. *)
Definition PeerSendError_to_string (e : PeerSendError) : rstring :=
  match e with
  | PS_QueueFull => lit "the connection's outbound queue is full"
  | PS_Closed => lit "the connection is closed"
  end.

(** What a turn's [select!] picks. *)
Inductive JoinEvent :=
| JE_Maintenance (tor_exited : Result bool rstring)
| JE_Expiry
| JE_Key (key : KeyEvent)
| JE_Paste (text : rstring)
| JE_KeysClosed
| JE_Inbound (message : option (option Message)).

Section driver.
Context `{Primitives} `{Hashes} `{Nfc} `{ErrorTexts}.
Context (env : Env).

(** ** Effects *)

Definition client_net_send (message : Message) : JM (Result unit PeerSendError) :=
  d ← self;
  let r := peer_send (env_queue env (jd_attempts d)) in
  modify (λ d, jd_put_sent (S (jd_attempts d))
    (match r with Ok _ => jd_sent d ++ [message] | Err _ => jd_sent d end) d);;
  mret r.

(** [if network.send(message).is_err() { return Failed(..) }]. *)
Definition send_or_end (message : Message) : JM unit :=
  r ← client_net_send message;
  match r with Ok _ => mret tt | Err _ => failed (lit "the connection failed") end.

Definition on_join_view (f : RoomView → RoomView) : JM unit :=
  modify (λ d, jd_put_app (with_room_view f (jd_app d)) d).

Definition join_error (text : rstring) : JM unit := on_join_view (push_error text (env_now env)).
Definition join_system (text : rstring) : JM unit := on_join_view (push_system text (env_now env)).

Definition with_client {E A} (m : Comp ClientAdmission E A) : JM (Result A E) :=
  zoom jd_admission jd_put_admission m.

Definition sync_join_members : JM unit :=
  d ← self;
  match cl_chat (jd_admission d) with
  | None => mret tt
  | Some session => on_join_view (set_members (member_line <$> cs_members session))
  end.

(** ** Keys *)

(** The form is submitted: sent if the host's challenge has been answered,
    kept otherwise. *)
Definition submit_form (nickname : rstring) (introduction : option rstring) : JM unit :=
  modify (λ d, jd_put_app (show_join_pending (jd_app d)) d);;
  modify (λ d, jd_put_form (jd_pending_form d) (Some nickname) d);;
  r ← with_client (join_request nickname introduction);
  match r with
  | Ok join_message =>
      modify (λ d, jd_put_times (ck_instant (env_now env)) (jd_last_seen d) d);;
      send_or_end join_message
  | Err _ => modify (λ d, jd_put_form (Some (nickname, introduction)) (jd_own_nickname d) d)
  end.

(** A message of the session's chat, then what is shown of it. *)
Definition send_session (m : Comp ClientAdmission ChatError Message) (shown : JM unit) : JM unit :=
  r ← with_client m;
  match r with
  | Ok message => send_or_end message;; shown
  | Err error => join_error (chat_error_text error)
  end.

Definition member_answers (target : rstring) (m : MemberView) : bool :=
  bool_decide (mv_nickname m = target) || bool_decide (display_N (mv_member_id m) = target).

(** The commands of a participant. *)
Definition join_command (command : SlashCommand) : JM unit :=
  match command with
  | SC_Color color =>
      send_session (client_send_color color)
        (modify (λ d, jd_put_admission (set_own_color color (jd_admission d)) d);;
         sync_join_members;;
         join_system (lit "color changed to " ++ color_debug color))
  | SC_List =>
      sync_join_members;;
      d ← self;
      let count := match cl_chat (jd_admission d) with
                   | Some chat => N.of_nat (length (cs_members chat)) | None => 0%N end in
      join_system (display_N count ++ lit " active member(s)")
  | SC_Whois target =>
      d ← self;
      match chat ← cl_chat (jd_admission d); List.find (member_answers target) (cs_members chat) with
      | Some member =>
          join_system (named (mv_member_id member) (mv_nickname member) ++ lit ": "
            ++ (if mv_is_host member then lit "host" else lit "member"))
      | None => join_error (lit "no active member matches " ++ backquoted target)
      end
  | SC_TimeoutRequest seconds =>
      send_session (client_send_timeout_request seconds)
        (join_system (lit "requested a room timeout of " ++ display_N seconds ++ lit " seconds"))
  | _ => join_error (lit "that command is only available to the host")
  end.

Definition join_copy : JM unit :=
  match env_clipboard env with
  | Ok _ => join_system (lit "the full invitation was copied to the clipboard")
  | Err error => join_error error
  end.

Definition join_key (key : KeyEvent) : JM unit :=
  if is_quit_key key then fail SE_Quit else
  d ← self;
  r ← expect (on_key key (env_now env) (jd_app d));
  modify (jd_put_app r.2);;
  match r.1 with
  | AA_Quit => fail SE_Quit
  | AA_JoinFormSubmitted nickname introduction => submit_form nickname introduction
  | AA_Room (RUA_Chat text) =>
      send_session (client_send_chat text) (on_join_view (push_own text (env_now env)))
  | AA_Room (RUA_Command command) => join_command command
  | AA_Room (RUA_Error text) => join_error text
  | AA_Room (RUA_CopyInvitation _) => join_copy
  | AA_Room RUA_Leave => fail SE_Menu
  | AA_Room RUA_Exit => fail SE_Quit
  | _ => mret tt
  end.

(** ** Messages of the host *)

Definition is_challenge_answer (m : Message) : bool :=
  match m with M_ChallengeProof _ => true | _ => false end.

(** The replies of the flow; a form that waits for the challenge's answer
    follows it. *)
Fixpoint send_replies (replies : list Message) : JM unit :=
  match replies with
  | [] => mret tt
  | reply :: replies =>
      send_or_end reply;;
      (if is_challenge_answer reply then
         d ← self;
         match jd_pending_form d with
         | Some (nickname, introduction) =>
             modify (λ d, jd_put_form None (jd_own_nickname d) d);;
             r ← with_client (join_request nickname introduction);
             match r with Ok join_message => send_or_end join_message | Err _ => mret tt end
         | None => mret tt
         end
       else mret tt);;
      send_replies replies
  end.

Definition is_admitted (c : ClientAdmission) : bool := bool_decide (cl_state c = CL_Admitted).

(** The arm of the admission flow. *)
Definition flow_message (message : Message) : JM unit :=
  r ← with_client (on_host_message message);
  match r with
  | Ok replies =>
      send_replies replies;;
      d ← self;
      if is_admitted (jd_admission d) then
        let nickname := default (lit "you") (jd_own_nickname d) in
        modify (λ d, jd_put_form (jd_pending_form d) None d);;
        modify (λ d, jd_put_app (enter_room (RoomView_participant nickname (env_now env)) (jd_app d)) d)
      else mret tt
  | Err (AE_Rejected reason) =>
      failed (lit "the host rejected the join request: " ++ default (lit "no reason given") reason)
  | Err error => failed (admission_error_text error)
  end.

(** What a broadcast that was applied shows. *)
Definition show_membership (message : Message) : JM unit :=
  match message with
  | M_MemberJoined event => join_system (mj_nickname event ++ lit " joined")
  | M_JoinPolicyChanged event =>
      on_join_view (set_status (if jp_open event then lit "join policy: open" else lit "join policy: locked"))
  | _ => mret tt
  end.

Definition membership_message (message : Message) : JM unit :=
  r ← with_client (on_membership_message message);
  match r with
  | Ok _ => sync_join_members;; show_membership message
  | Err error => join_error (chat_error_text error)
  end.

(** [admission.member_view(id)]: who a chat line is shown under. *)
Definition join_label (c : ClientAdmission) (sender : u64) : rstring * ColorChoice :=
  match cl_chat c with
  | Some chat => sender_label chat sender
  | None => (lit "member " ++ display_N sender, ColorChoice_default)
  end.

Definition timeout_changed (envelope : EncryptedEnvelope) : JM unit :=
  r ← with_client (on_chat CE_NoEpochKey id (receive_timeout_changed envelope));
  match r with
  | Ok interval =>
      on_join_view (set_message_timeout interval);;
      on_join_view (view_notice match interval with
        | Some seconds => lit "room message lifetime changed to " ++ display_N seconds ++ lit " seconds"
        | None => lit "room message expiry was disabled" end (env_now env))
  | Err error => join_error (chat_error_text error)
  end.

Definition handle_join_message (message : Message) : JM unit :=
  match message with
  | M_Keepalive => mret tt
  | M_Shutdown => join_system (lit "the host closed the room");; fail SE_Menu
  | M_Error error =>
      d ← self;
      if is_admitted (jd_admission d) && ErrorCode_is_recoverable (em_code error) then
        join_error (default (lit "the room rejected that message") (em_reason error))
      else failed (lit "the host rejected the connection: " ++ default (lit "protocol error") (em_reason error))
  | M_EpochWrap wrap =>
      r ← with_client (on_epoch_wrap wrap);
      match r with
      | Ok ack => send_or_end ack;; join_system (lit "epoch " ++ display_N (ew_epoch wrap) ++ lit " active")
      | Err _ => failed (lit "the epoch key could not be unwrapped")
      end
  | M_ChatMessage envelope =>
      r ← with_client (on_member_message MSG_CHAT envelope);
      match r with
      | Ok (Some text) =>
          d ← self;
          let '(nickname, color) := join_label (jd_admission d) (env_sender_id envelope) in
          on_join_view (push_chat nickname color text (env_now env))
      | Ok None => mret tt
      | Err error => join_error (chat_error_text error)
      end
  | M_ColorChange envelope => _ ← with_client (on_member_message MSG_COLOR envelope); sync_join_members
  | M_TimeoutChanged envelope => timeout_changed envelope
  | M_MemberJoined _ | M_MemberLeft _ | M_MemberKicked _ | M_JoinPolicyChanged _ | M_MemberSnapshot _ =>
      membership_message message
  | other => flow_message other
  end.

(** ** The loop *)

Definition join_allowed (c : ClientAdmission) : Duration :=
  let kind := timeout_kind c in
  match kind with
  | TK_Keepalive => (Timeouts_get Timeouts_default kind * 3)%N
  | _ => Timeouts_get Timeouts_default kind
  end.

(** [elapsed] saturates. *)
Definition join_timed_out (now : Instant) (d : JoinDriver) : bool :=
  let since := match timeout_kind (jd_admission d) with TK_Keepalive => jd_last_seen d | _ => jd_stage_since d end in
  (join_allowed (jd_admission d) <? now - since)%N.

Definition join_inbound (message : Message) : JM unit :=
  let now := ck_instant (env_now env) in
  modify (λ d, jd_put_times (jd_stage_since d) now d);;
  d ← self;
  let previous_kind := timeout_kind (jd_admission d) in
  handle_join_message message;;
  modify (λ d, if bool_decide (timeout_kind (jd_admission d) = previous_kind) then d
               else jd_put_times now (jd_last_seen d) d).

Definition join_event (event : JoinEvent) : JM unit :=
  match event with
  | JE_Maintenance (Ok true) => failed (lit "Tor stopped unexpectedly")
  | JE_Maintenance (Err error) => failed (lit "Tor status failed: " ++ error)
  | JE_Maintenance (Ok false) =>
      d ← self;
      if join_timed_out (ck_instant (env_now env)) d then failed (lit "the room connection timed out") else mret tt
  | JE_Expiry => on_join_view (λ v, (tick_message_timeout (env_now env) v).2)
  | JE_Key key => join_key key
  | JE_Paste text => d ← self; app ← expect (on_paste text (jd_app d)); modify (jd_put_app app)
  | JE_KeysClosed => fail SE_Menu
  | JE_Inbound (Some (Some message)) => join_inbound message
  | JE_Inbound _ => failed (lit "the room connection was lost")
  end.

Definition join_turn (draw_failed : bool) (event : JoinEvent) : JM unit :=
  if draw_failed then fail SE_Quit else join_event event.

Definition JoinDriver_new (admission : ClientAdmission) (app : App) : JoinDriver := {|
  jd_admission := admission; jd_pending_form := None; jd_own_nickname := None;
  jd_stage_since := ck_instant (env_now env); jd_last_seen := ck_instant (env_now env); jd_app := app;
  jd_attempts := 0; jd_sent := [] |}.

(** Before the loop: the first message and the form. *)
Definition join_begin : JM unit :=
  d ← self;
  r ← client_net_send (first_message (jd_admission d));
  match r with
  | Ok _ => modify (λ d, jd_put_app (set_screen (SCR_JoinForm JoinFormModel_new) (jd_app d)) d)
  | Err error => failed (lit "the connection failed: " ++ PeerSendError_to_string error)
  end.
End driver.
