(* ===== verification/JoinProps.v ===== *)
(** The participant's session as a state machine: what it has said, what it
    shows and what it keeps are those of the state of its admission. *)
From Stdlib Require Import Strings.String.
From S2P Require Export JoinDriver AdmissionProps.

(** * The protocol from the participant's side *)

(** What a member may say. *)
Definition room_message (m : Message) : bool :=
  match m with M_EpochAck _ | M_ChatMessage _ | M_ColorChange _ | M_TimeoutRequest _ => true | _ => false end.

(** What has been said before. *)
Definition handshake (st : ClientState) : list MessageType :=
  match st with
  | CL_AwaitingHostHello => [MT_ClientHello]
  | CL_AwaitingChallenge => [MT_ClientHello; MT_TokenVerify]
  | CL_AwaitingJoinForm => [MT_ClientHello; MT_TokenVerify; MT_ChallengeProof]
  | CL_AwaitingDecision | CL_Admitted => [MT_ClientHello; MT_TokenVerify; MT_ChallengeProof; MT_JoinRequest]
  end.

(** [sent] is what a participant in state [st] has said. *)
Definition spoken (st : ClientState) (sent : list Message) : Prop :=
  ∃ hs rest, sent = hs ++ rest ∧ Message_type <$> hs = handshake st ∧ Forall (λ m, room_message m = true) rest ∧
    (st ≠ CL_Admitted → rest = []).

(** The screen of a join session. *)
Inductive ScreenKind := SK_Form | SK_Pending | SK_Room (is_host : bool) (nickname : rstring) | SK_Other.

Definition screen_kind (a : App) : ScreenKind :=
  match app_screen a with
  | SCR_JoinForm _ => SK_Form
  | SCR_JoinPending => SK_Pending
  | SCR_Room v => SK_Room (rv_is_host v) (rv_own_nickname v)
  | _ => SK_Other
  end.

(** The participant applied under the name it gave as [n], which the form and
    the message each normalise. *)
Definition applied_as `{Nfc} (n : rstring) (sent : list Message) : Prop :=
  ∃ request name, M_JoinRequest request ∈ sent ∧ validate_nickname n Limits_default = Ok name ∧
    validate_nickname name Limits_default = Ok (jm_nickname request).

Definition shows_state `{Nfc} (d : JoinDriver) : Prop :=
  match cl_state (jd_admission d) with
  | CL_AwaitingHostHello | CL_AwaitingChallenge | CL_AwaitingJoinForm =>
      screen_kind (jd_app d) = SK_Form ∨ screen_kind (jd_app d) = SK_Pending
  | CL_AwaitingDecision =>
      screen_kind (jd_app d) = SK_Pending ∧ ∃ n, jd_own_nickname d = Some n ∧ applied_as n (jd_sent d)
  | CL_Admitted => ∃ n, screen_kind (jd_app d) = SK_Room false n ∧ applied_as n (jd_sent d)
  end.

(** The host's hello has been verified and recorded. *)
Definition pinned (c : ClientAdmission) : Prop := is_Some (cl_host_hello c) ∧ is_Some (cl_server_nonce c).

(** The application has not been sent. *)
Definition before_decision (st : ClientState) : Prop := st ≠ CL_AwaitingDecision ∧ st ≠ CL_Admitted.

Record join_ok `{Nfc} (d : JoinDriver) : Prop := {
  jk_spoken : spoken (cl_state (jd_admission d)) (jd_sent d);
  jk_shows : shows_state d;
  jk_chat : is_Some (cl_chat (jd_admission d)) ↔ cl_state (jd_admission d) = CL_Admitted;
  jk_hello : cl_state (jd_admission d) ≠ CL_AwaitingHostHello → pinned (jd_admission d);
  jk_pending : before_decision (cl_state (jd_admission d)) → ∀ n i, jd_pending_form d = Some (n, i) →
    jd_own_nickname d = Some n ∧ screen_kind (jd_app d) ≠ SK_Form;
}.

(** * Runs of the flow *)

Section runs.
Context `{PR : !Primitives} `{HA : !Hashes} `{NF : !Nfc}.

Lemma join_request_run n i c r o y :
  join_request n i (c, r) = (o, y) →
  (∃ e, o = Fail e) ∧ y.1 = c ∨
  ∃ request, o = Done (M_JoinRequest request) ∧ cl_state c = CL_AwaitingJoinForm ∧
    y.1 = cl_put_state CL_AwaitingDecision c ∧ applied_as n [M_JoinRequest request].
Proof.
  unfold join_request, mbind, M_bind, self, modify. cbn [fst snd].
  case_bool_decide as Hs; cbn [negb]; [|intros [= <- <-]; left; split; [by eexists|done]].
  destruct (cl_host_hello c) eqn:Eh; cbn [ok_or mret M_ret]; [|intros [= <- <-]; left; split; [by eexists|done]].
  destruct (cl_server_nonce c); cbn [ok_or mret M_ret]; [|intros [= <- <-]; left; split; [by eexists|done]].
  destruct (validate_nickname _ _) as [name|] eqn:En; cbn [try_ mret M_ret]; [|intros [= <- <-]; left; split; [by eexists|done]].
  destruct (JoinRequestMessage_new _ _ _ _ _) as [request|] eqn:Ej; cbn [try_ mret M_ret];
    intros [= <- <-]; [|left; split; [by eexists|done]].
  right. exists request. split_and!; [done|done|done|]. exists request, name. split; [by left|]. split; [exact En|].
  revert Ej. unfold JoinRequestMessage_new. destruct (validate_nickname name _) as [name'|]; [|done].
  case_match; [|done]. by intros [= <-].
Qed.

(** What a message of the host leads to. *)
Lemma host_message_run m c r replies y :
  on_host_message m (c, r) = (Done replies, y) → (cl_state c = CL_AwaitingDecision → pinned c) →
  (cl_state c = CL_AwaitingHostHello ∧ cl_state y.1 = CL_AwaitingChallenge ∧ pinned y.1 ∧
     cl_chat y.1 = cl_chat c ∧ ∃ t, replies = [M_TokenVerify t]) ∨
  (cl_state c = CL_AwaitingChallenge ∧ cl_state y.1 = CL_AwaitingJoinForm ∧ (pinned c → pinned y.1) ∧
     cl_chat y.1 = cl_chat c ∧ ∃ p, replies = [M_ChallengeProof p]) ∨
  (cl_state c = CL_AwaitingDecision ∧ cl_state y.1 = CL_Admitted ∧ (pinned c → pinned y.1) ∧
     is_Some (cl_chat y.1) ∧ replies = []).
Proof.
  intros Hrun Hinfo. revert Hrun. unfold on_host_message. unfold mbind at 1, M_bind at 1, self at 1. cbn [fst snd].
  destruct (cl_state c) eqn:Es, m; try done.
  - unfold handle_host_hello, mbind, M_bind, self, modify. cbn [fst snd]. destruct (negb _); [done|].
    destruct (negb _); [done|]. destruct (member_try_wrap_key_for _ _ _ _); cbn [try_ mret M_ret]; [|done].
    destruct (TokenVerify_new _) as [t|]; [|done]. intros [= <- <-]. left. split_and!; try done. by exists t.
  - unfold handle_challenge, mbind, M_bind, self, modify. cbn [fst snd]. destruct (_ || _); [done|].
    destruct (compute_password_proof _ _ _ _ _ _ _); cbn [try_ mret M_ret]; [|done]. intros [= <- <-].
    right. left. split_and!; try done. by eexists.
  - destruct (Hinfo eq_refl) as [[info Ei] Hn]. rewrite Ei. unfold mbind, M_bind, modify. cbn [fst snd].
    intros [= <- <-]. right. right. by split_and!.
Qed.

(** A chat operation leaves the flow as it is. *)
Definition adm_frame (c c' : ClientAdmission) : Prop :=
  cl_state c' = cl_state c ∧ (pinned c → pinned c') ∧ (is_Some (cl_chat c') ↔ is_Some (cl_chat c)).

Definition chat_op {E A} (Q : A → Prop) (m : Comp ClientAdmission E A) : Prop :=
  ∀ s, wp m (λ o s', adm_frame s.1 s'.1 ∧ ∀ a, o = Done a → is_Some (cl_chat s.1) ∧ Q a) s.

Lemma on_chat_op {E A} (Q : A → Prop) (none : E) err (m : Comp ChatSession ChatError A) :
  (∀ s, wp m (λ o _, ∀ a, o = Done a → Q a) s) → chat_op Q (on_chat none err m).
Proof.
  intros Hm [c r]. unfold wp, on_chat. cbn [fst snd]. destruct (cl_chat c) as [chat|] eqn:Ec; [|done].
  specialize (Hm (chat, r)). unfold wp in Hm. destruct (m (chat, r)) as [[a|e|] [chat' r']]; cbn in *.
  - split; [unfold adm_frame; cbn; by rewrite Ec|]. intros a' [= <-]. split; [by eexists|]. by apply Hm.
  - split; [unfold adm_frame; cbn; by rewrite Ec|done].
  - split; [unfold adm_frame; cbn; by rewrite Ec|done].
Qed.

Lemma chat_op_bind {E A B} (P : A → Prop) (Q : B → Prop) (m : Comp ClientAdmission E A) (f : A → B) :
  (∀ a, P a → Q (f a)) → chat_op P m → chat_op Q (a ← m; mret (f a)).
Proof.
  intros Hpq Hm s. rewrite wp_bind. eapply wp_mono; [|apply Hm]. intros [a|e|] s' [H1 H2]; cbn [bind_post]; [|done|done].
  rewrite wp_ret. split; [done|]. intros b [= <-]. destruct (H2 a eq_refl) as [H3 H4]. auto.
Qed.

Lemma chat_op_self {E A} (Q : A → Prop) (k : ClientAdmission → Comp ClientAdmission E A) :
  (∀ c, chat_op Q (k c)) → chat_op Q (self ≫= k).
Proof. intros Hk s. rewrite wp_self. apply Hk. Qed.

Lemma any_op {X E A} (m : Comp X E A) s : wp m (λ o _, ∀ a, o = Done a → True) s.
Proof. done. Qed.
End runs.

(** * Turns *)

Section turns.
Context `{PR : !Primitives} `{HA : !Hashes} `{NF : !Nfc} `{ET : !ErrorTexts}.
Context (env : Env).

(** A turn that ends the session has said what some state allows. *)
Definition turn_post {A} (o : Outcome SessionEnd A) (s' : JoinDriver * Rng) : Prop :=
  match o with
  | Done _ => join_ok s'.1
  | Fail _ => ∃ st, spoken st (jd_sent s'.1)
  | Panic => True
  end.

Definition turns {A} (m : JM A) : Prop := ∀ s, join_ok s.1 → wp m turn_post s.

(** The same for a participant that is in the room. *)
Definition room_turns {A} (m : JM A) : Prop :=
  ∀ s, join_ok s.1 → cl_state (jd_admission s.1) = CL_Admitted → wp m turn_post s.

Definition watched_join (d : JoinDriver) :=
  (jd_admission d, jd_pending_form d, jd_own_nickname d, jd_sent d, screen_kind (jd_app d)).

Lemma join_ok_watched d d' : watched_join d = watched_join d' → join_ok d → join_ok d'.
Proof.
  unfold watched_join. intros [= E1 E2 E3 E4 E5] [H1 H2 H3 H4 H5].
  constructor; unfold shows_state in *; rewrite <-?E1, <-?E2, <-?E3, <-?E4, <-?E5; done.
Qed.

Lemma turns_keeps {A} (m : JM A) : keeps watched_join m → turns m.
Proof.
  intros Hm s Hs. unfold wp, turn_post. specialize (Hm s). destruct (m s) as [[a|e|] s']; cbn in *; [| |done].
  - by eapply join_ok_watched.
  - assert (Hs' : join_ok s'.1) by by eapply join_ok_watched. eexists. apply Hs'.
Qed.

Lemma turns_room {A} (m : JM A) : turns m → room_turns m.
Proof. intros Hm s Hs _. by apply Hm. Qed.

Lemma turns_ret {A} (a : A) : turns (mret a).
Proof. by intros s Hs. Qed.

Lemma turns_fail {A} e : turns (fail e : JM A).
Proof. intros s Hs. eexists. apply Hs. Qed.

Lemma turns_bind {A B} (m : JM A) (k : A → JM B) : turns m → (∀ a, turns (k a)) → turns (m ≫= k).
Proof.
  intros Hm Hk s Hs. rewrite wp_bind. eapply wp_mono; [|by apply Hm].
  intros [a|e|] s' H; cbn [bind_post]; [by apply Hk|done|done].
Qed.

Lemma turns_self {A} (k : JoinDriver → JM A) : (∀ d, join_ok d → turns (k d)) → turns (self ≫= k).
Proof. intros Hk s Hs. rewrite wp_self. by apply Hk. Qed.

Lemma turns_expect {A B} (o : option A) (k : A → JM B) : (∀ a, o = Some a → turns (k a)) → turns (expect o ≫= k).
Proof. intros Hk s Hs. rewrite wp_expect. destruct o; [by apply Hk|done]. Qed.

(** ** Display *)

Definition unseen (f : RoomView → RoomView) : Prop :=
  ∀ v, rv_is_host (f v) = rv_is_host v ∧ rv_own_nickname (f v) = rv_own_nickname v.

Lemma screen_kind_view f a : unseen f → screen_kind (with_room_view f a) = screen_kind a.
Proof.
  intros Hf. unfold with_room_view, screen_kind. destruct (app_screen a) as [| | | | | |v| |] eqn:E; rewrite ?E; try done.
  cbn. by destruct (Hf v) as [-> ->].
Qed.

Lemma keeps_join_view f : unseen f → keeps watched_join (on_join_view f).
Proof.
  intros Hf. apply keeps_modify. intros d. unfold watched_join. cbn. by rewrite screen_kind_view.
Qed.

Lemma keeps_join_error t : keeps watched_join (join_error env t).
Proof. by apply keeps_join_view. Qed.
Lemma keeps_join_system t : keeps watched_join (join_system env t).
Proof. by apply keeps_join_view. Qed.
Hint Resolve keeps_join_error keeps_join_system : keeps.

Lemma keeps_sync_join : keeps watched_join sync_join_members.
Proof.
  unfold sync_join_members. intros s. unfold mbind, M_bind, self. destruct (cl_chat _); [|done].
  by apply keeps_join_view.
Qed.
Hint Resolve keeps_sync_join : keeps.

(** ** Sending *)

Lemma net_send_wp m d r (Q : Outcome SessionEnd (Result unit PeerSendError) → JoinDriver * Rng → Prop) :
  (∀ n, Q (Done (Ok tt)) (jd_put_sent n (jd_sent d ++ [m]) d, r)) →
  (∀ e n, Q (Done (Err e)) (jd_put_sent n (jd_sent d) d, r)) →
  wp (client_net_send env m) Q (d, r).
Proof.
  intros H1 H2. unfold client_net_send. rewrite wp_self. cbn [fst snd]. rewrite wp_modify, wp_ret. cbn [fst snd].
  destruct (peer_send _) as [[]|e]; [apply H1|apply H2].
Qed.

(** A message that is in turn. *)
Lemma send_tail_wp m d r st :
  spoken st (jd_sent d) → (∀ n, join_ok (jd_put_sent n (jd_sent d ++ [m]) d)) →
  wp (send_or_end env m) turn_post (d, r).
Proof.
  intros Hst Hk. unfold send_or_end. rewrite wp_bind. apply net_send_wp; cbn [bind_post]; [intros n; apply Hk|].
  intros e n. exists st. exact Hst.
Qed.

(** The same, and what follows it. *)
Lemma send_any {A} m (k : unit → JM A) (Q : Outcome SessionEnd A → JoinDriver * Rng → Prop) d r :
  (∀ n, wp (k tt) Q (jd_put_sent n (jd_sent d ++ [m]) d, r)) →
  (∀ e n, Q (Fail e) (jd_put_sent n (jd_sent d) d, r)) →
  wp (send_or_end env m ≫= k) Q (d, r).
Proof.
  intros Hk He. unfold send_or_end. rewrite !wp_bind. apply net_send_wp; cbn [bind_post].
  - intros n. rewrite wp_ret. apply Hk.
  - intros e n. apply He.
Qed.

Lemma spoken_room sent m : spoken CL_Admitted sent → room_message m = true → spoken CL_Admitted (sent ++ [m]).
Proof.
  intros (hs & rest & -> & Hh & Hr & _) Hm. exists hs, (rest ++ [m]). rewrite app_assoc. split_and!; [done|done| |done].
  apply list.Forall_app. split; [done|by constructor].
Qed.

Lemma spoken_next st st' sent m :
  spoken st sent → st ≠ CL_Admitted → handshake st' = handshake st ++ [Message_type m] →
  spoken st' (sent ++ [m]).
Proof.
  intros (hs & rest & -> & Hh & _ & Hn) Hne Hst. rewrite (Hn Hne), app_nil_r. exists (hs ++ [m]), [].
  rewrite app_nil_r, fmap_app, Hh. split_and!; [done|done|constructor|done].
Qed.

Lemma applied_mono n sent m : applied_as n sent → applied_as n (sent ++ [m]).
Proof.
  intros (rq & name & Hin & H). exists rq, name. split; [|done]. apply elem_of_app. by left.
Qed.

Lemma member_send_ok d m n :
  join_ok d → cl_state (jd_admission d) = CL_Admitted → room_message m = true →
  join_ok (jd_put_sent n (jd_sent d ++ [m]) d).
Proof.
  intros [H1 H2 H3 H4 H5] Hst Hm. constructor; [|unfold shows_state in *|done..]; cbn; rewrite Hst in *.
  - by apply spoken_room.
  - destruct H2 as (name & Hk & Ha). exists name. split; [done|by apply applied_mono].
Qed.

Lemma room_send_turns m (shown : JM unit) :
  room_message m = true → turns shown → room_turns (send_or_end env m;; shown).
Proof.
  intros Hm Hsh [d r] Hd Hst. apply send_any; [|intros e n; eexists; apply Hd].
  intros n. apply Hsh. cbn. by apply member_send_ok.
Qed.

(** ** Operations of the chat *)

Lemma join_ok_frame d c : join_ok d → adm_frame (jd_admission d) c → join_ok (jd_put_admission c d).
Proof.
  intros [H1 H2 H3 H4 H5] (E1 & E2 & E3).
  constructor; [|unfold shows_state in *|..]; cbn; rewrite ?E1, ?E3; auto.
Qed.

Lemma chat_turns {E A B} (Q : A → Prop) (m : Comp ClientAdmission E A) (k : Result A E → JM B) :
  chat_op Q m → (∀ a, Q a → room_turns (k (Ok a))) → (∀ e, turns (k (Err e))) → turns (with_client m ≫= k).
Proof.
  intros Hm Hok Herr [d r] Hd. rewrite wp_bind. unfold wp at 1, with_client, zoom. cbn [fst snd] in *.
  specialize (Hm (jd_admission d, r)). unfold wp in Hm.
  destruct (m (jd_admission d, r)) as [[a|e|] [c r']]; cbn [fst snd bind_post] in *; [| |done].
  - destruct Hm as [Hf Ha]. destruct (Ha a eq_refl) as [Hc Hq]. apply Hok; [done|by apply join_ok_frame|].
    cbn. destruct Hf as (-> & _ & _). by apply Hd.
  - apply Herr. destruct Hm as [Hf _]. by apply join_ok_frame.
Qed.

Lemma send_session_turns (m : Comp ClientAdmission ChatError Message) shown :
  chat_op (λ a, room_message a = true) m → turns shown → turns (send_session env m shown).
Proof.
  intros Hm Hs. unfold send_session. eapply chat_turns; [exact Hm| |].
  - intros a Ha. exact (room_send_turns a shown Ha Hs).
  - intros e. apply turns_keeps. auto with keeps.
Qed.

(** ** Keys *)

Lemma room_key_kind key now v a v' :
  on_room_key key now v = Some (a, v') →
  rv_is_host v' = rv_is_host v ∧ rv_own_nickname v' = rv_own_nickname v ∧ (a = AA_None ∨ ∃ r, a = AA_Room r).
Proof.
  assert (Hedit : ∀ f : option TextField, (input ← f; Some (AA_None, rv_put_input input v)) = Some (a, v') →
    rv_is_host v' = rv_is_host v ∧ rv_own_nickname v' = rv_own_nickname v ∧ (a = AA_None ∨ ∃ r, a = AA_Room r)).
  { intros [f|]; [|done]. intros [= <- <-]. split_and!; [done|done|by left]. }
  assert (Hcopy : ∃ r, copy_action v = AA_Room r) by (unfold copy_action; destruct (rv_invitation v); by eexists).
  assert (Hstay : Some (AA_None, v) = Some (a, v') → rv_is_host v' = rv_is_host v ∧
    rv_own_nickname v' = rv_own_nickname v ∧ (a = AA_None ∨ ∃ r, a = AA_Room r)) by (intros [= <- <-]; split_and!; auto).
  unfold on_room_key. destruct (ke_code key) as [ch| | | | | | | | | | |]; try exact (Hedit _); try exact Hstay.
  - destruct (_ && _); [intros [= <- <-]; split_and!; auto|]. destruct (is_char key 116 84 && _).
    { intros [= <- <-]. unfold toggle_host_member_view. destruct (negb _); split_and!; auto. }
    destruct (_ && _); [intros [= <- <-]; split_and!; auto|].
    destruct (_ || _); [exact (Hedit _)|exact Hstay].
  - unfold room_enter. assert (Hsub : rv_is_host (submit_line v).2 = rv_is_host v ∧
      rv_own_nickname (submit_line v).2 = rv_own_nickname v) by (unfold submit_line; repeat case_match; done).
    destruct Hsub as [Hh Hn]. set (w := (submit_line v).2) in *. clearbody w. rewrite <-Hh, <-Hn.
    destruct (negb _); [intros [= <- <-]; split_and!; auto|].
    destruct (parse_line _) as [[c|t]|e].
    + unfold command_action, copy_action. intros [= E]. revert E.
      destruct c; repeat case_match; intros [= <- <-]; split_and!; eauto.
    + destruct (negb _); intros [= <- <-]; split_and!; eauto.
    + intros [= <- <-]. split_and!; eauto.
Qed.

Lemma form_key_kind form key a form' next :
  on_join_form_key form key = Some (a, form', next) →
  next = None ∧ (a = AA_None ∨ a = AA_Room RUA_Leave) ∨
  next = Some SCR_JoinPending ∧ ∃ n i, a = AA_JoinFormSubmitted n i.
Proof.
  unfold on_join_form_key. destruct (jf_focus form), (ke_code key) as [ch| | | | | | | | | | |];
    repeat case_match; try (intros [= <- _ <-]; eauto 6).
  all: try (destruct (tf_insert_char _ _) as [[??]|]; cbn; [|done]; intros [= <- _ <-]; eauto).
  all: destruct (tf_backspace _); cbn; [|done]; intros [= <- _ <-]; eauto.
Qed.

Lemma on_key_kind key now a action a' :
  on_key key now a = Some (action, a') →
  match screen_kind a with
  | SK_Pending => action = AA_None ∧ screen_kind a' = SK_Pending
  | SK_Room h n => screen_kind a' = SK_Room h n ∧ (action = AA_None ∨ ∃ r, action = AA_Room r)
  | SK_Form => screen_kind a' = SK_Form ∧ (action = AA_None ∨ action = AA_Room RUA_Leave) ∨
      screen_kind a' = SK_Pending ∧ ∃ n i, action = AA_JoinFormSubmitted n i
  | SK_Other => True
  end.
Proof.
  unfold on_key, screen_key, screen_kind. destruct (app_screen a) as [| | | |form| |v| |]; try done.
  - destruct (on_join_form_key form key) as [[[act f] next]|] eqn:E; [|done]. cbn. intros [= <- <-]. cbn.
    apply form_key_kind in E as [[-> H]|[-> H]]; [by left|by right].
  - by intros [= <- <-].
  - destruct (on_room_key key now v) as [[act v']|] eqn:E; [|done]. cbn. intros [= <- <-]. cbn.
    apply room_key_kind in E as (-> & -> & H). by split.
Qed.

Lemma paste_kind text a a' : on_paste text a = Some a' → screen_kind a' = screen_kind a.
Proof.
  unfold on_paste, screen_paste, screen_kind. destruct (app_screen a) as [| |form|form|form| |v| |] eqn:E; cbn;
    try (by intros [= <-]).
  - destruct (hs_focus form); try (by intros [= <-]). destruct (tf_insert_text _ _); [|done]. by intros [= <-].
  - destruct (js_focus form); try (by intros [= <-]). destruct (tf_insert_text _ _); [|done]. by intros [= <-].
  - destruct (jf_focus form), (tf_insert_text _ _); try done; by intros [= <-].
  - destruct (tf_insert_text _ _); [|done]. by intros [= <-].
Qed.

Lemma applied_ok d n request k :
  join_ok d → cl_state (jd_admission d) = CL_AwaitingJoinForm → screen_kind (jd_app d) = SK_Pending →
  applied_as n [M_JoinRequest request] → jd_own_nickname d = Some n →
  join_ok (jd_put_sent k (jd_sent d ++ [M_JoinRequest request])
    (jd_put_admission (cl_put_state CL_AwaitingDecision (jd_admission d)) d)).
Proof.
  intros [H1 H2 H3 H4 H5] Hst Hk (rq & name & Hin & Ha) Ho. constructor; cbn.
  - rewrite Hst in H1. by eapply spoken_next.
  - unfold shows_state. cbn. split; [done|]. exists n. split; [done|]. exists rq, name. split; [|done].
    apply elem_of_app. by right.
  - rewrite H3, Hst. done.
  - intros _. apply H4. by rewrite Hst.
  - by intros [].
Qed.

Lemma form_put_ok d pending nickname :
  join_ok d → before_decision (cl_state (jd_admission d)) →
  (∀ n i, pending = Some (n, i) → nickname = Some n ∧ screen_kind (jd_app d) ≠ SK_Form) →
  join_ok (jd_put_form pending nickname d).
Proof.
  intros [H1 H2 H3 H4 H5] [Hb1 Hb2] Hp. constructor; [exact H1| |exact H3|exact H4|intros _; exact Hp].
  unfold shows_state in *. cbn. by destruct (cl_state (jd_admission d)).
Qed.

Lemma times_ok d a b : join_ok d → join_ok (jd_put_times a b d).
Proof. by apply join_ok_watched. Qed.

Lemma submit_wp n i d r :
  join_ok d → before_decision (cl_state (jd_admission d)) → jd_pending_form d = None →
  screen_kind (jd_app d) = SK_Pending → wp (submit_form env n i) turn_post (d, r).
Proof.
  intros Hd Hb Hp Hk. unfold submit_form. rewrite !wp_modify. cbn [fst snd].
  assert (Hd1 : join_ok (jd_put_form None (Some n) (jd_put_app (show_join_pending (jd_app d)) d))).
  { apply form_put_ok; [|done|done]. eapply join_ok_watched; [|exact Hd]. unfold watched_join. by rewrite Hk. }
  cbn [jd_pending_form jd_put_app]. rewrite Hp. set (d1 := jd_put_form _ _ _) in *.
  assert (Hk1 : screen_kind (jd_app d1) = SK_Pending) by done.
  rewrite wp_bind. unfold wp at 1, with_client, zoom. cbn [fst snd].
  destruct (join_request n i (jd_admission d1, r)) as [o [c r']] eqn:E.
  apply join_request_run in E as [[[e ->] Hc]|(request & -> & Hst & Hc & Ha)]; cbn [fst] in Hc; subst c; cbn [bind_post fst snd].
  - rewrite wp_modify_last. cbn [fst snd]. apply form_put_ok; [by eapply join_ok_watched; [|exact Hd1]|done|].
    by intros n' i' [= <- _].
  - rewrite wp_modify. cbn [fst snd]. eapply send_tail_wp.
    + cbn. apply Hd1.
    + intros k. apply (times_ok _ _ _ (applied_ok d1 n request k Hd1 Hst Hk1 Ha eq_refl)).
Qed.

(** ** Commands *)

Lemma send_chat_op text : chat_op (λ m, room_message m = true) (client_send_chat text).
Proof.
  apply chat_op_self. intros c. apply on_chat_op. intros s. unfold send_chat. rewrite wp_try.
  destruct (validate_chat_text _ _); [|done]. rewrite wp_bind. eapply wp_mono; [|apply any_op].
  intros [env'|e|] s' _; cbn [bind_post]; [|done|done]. rewrite wp_ret. by intros ? [= <-].
Qed.

Lemma send_color_op color : chat_op (λ m, room_message m = true) (client_send_color color).
Proof.
  apply chat_op_self. intros c. apply on_chat_op. intros s. unfold send_color. rewrite wp_bind.
  eapply wp_mono; [|apply any_op]. intros [env'|e|] s' _; cbn [bind_post]; [|done|done]. rewrite wp_ret. by intros ? [= <-].
Qed.

Lemma send_request_op seconds : chat_op (λ m, room_message m = true) (client_send_timeout_request seconds).
Proof.
  apply chat_op_self. intros c. apply on_chat_op. intros s. unfold send_timeout_request. rewrite wp_try.
  destruct (validate_timeout_seconds _); [|done]. rewrite wp_bind. eapply wp_mono; [|apply any_op].
  intros [env'|e|] s' _; cbn [bind_post]; [|done|done]. rewrite wp_ret. by intros ? [= <-].
Qed.

Lemma own_color_turns color : turns (modify (λ d, jd_put_admission (set_own_color color (jd_admission d)) d)).
Proof.
  intros [d r] Hd. rewrite wp_modify_last. cbn [fst snd]. apply join_ok_frame; [exact Hd|].
  unfold set_own_color, adm_frame. destruct (cl_member_id _); [|done]. by destruct (cl_chat _) eqn:E; rewrite ?E.
Qed.

Lemma join_command_turns command : turns (join_command env command).
Proof.
  unfold join_command. destruct command; try (by apply turns_keeps; solve_keeps).
  - apply send_session_turns; [apply send_color_op|]. apply turns_bind; [apply own_color_turns|]. intros _.
    apply turns_keeps. solve_keeps.
  - apply send_session_turns; [apply send_request_op|]. apply turns_keeps. solve_keeps.
Qed.

Lemma join_kind d : join_ok d →
  match screen_kind (jd_app d) with
  | SK_Form => before_decision (cl_state (jd_admission d)) ∧ jd_pending_form d = None
  | SK_Other => False
  | _ => True
  end.
Proof.
  intros [_ H2 _ _ H5]. unfold shows_state in H2. destruct (screen_kind (jd_app d)) eqn:Ek; try done.
  - assert (Hb : before_decision (cl_state (jd_admission d))) by (split; intros Hst; rewrite Hst in H2; naive_solver).
    split; [done|]. destruct (jd_pending_form d) as [[n i]|]; [|done]. by destruct (H5 Hb n i eq_refl).
  - destruct (cl_state _); naive_solver.
Qed.

Lemma join_key_turns key : turns (join_key env key).
Proof.
  unfold join_key. destruct (is_quit_key key); [apply turns_fail|]. intros [d r] Hd.
  rewrite wp_self, wp_expect. cbn [fst snd] in *. destruct (on_key key _ _) as [[action app]|] eqn:E; [|done].
  apply on_key_kind in E. pose proof (join_kind d Hd) as Hkind. rewrite wp_modify. cbn [fst snd].
  assert (Hsame : screen_kind app = screen_kind (jd_app d) → join_ok (jd_put_app app d)).
  { intros Hk. eapply join_ok_watched; [|exact Hd]. unfold watched_join. cbn. by rewrite Hk. }
  destruct (screen_kind (jd_app d)) as [| |h n|] eqn:Ek; [| | |done].
  - destruct E as [[Hk Ha]|(Hk & n & i & ->)].
    + destruct Ha as [-> | ->]; [by apply Hsame|]. apply turns_fail. by apply Hsame.
    + destruct Hkind as [Hb Hp]. apply submit_wp; [|done|done|done].
      destruct Hd as [H1 H2 H3 H4 H5]. constructor; [done| |done|done|]; cbn; rewrite ?Hp; [|done].
      unfold shows_state in *. cbn. rewrite Hk. destruct Hb. destruct (cl_state _); naive_solver.
  - destruct E as [-> Hk]. by apply Hsame.
  - destruct E as [Hk Ha]. specialize (Hsame Hk). destruct Ha as [-> | [a ->]]; [exact Hsame|].
    destruct a; try (by apply turns_fail).
    + apply send_session_turns; [apply send_chat_op| |exact Hsame]. apply turns_keeps. by apply keeps_join_view.
    + by apply join_command_turns.
    + apply turns_keeps; [auto with keeps|exact Hsame].
    + apply turns_keeps; [|exact Hsame]. unfold join_copy. destruct (env_clipboard env); auto with keeps.
Qed.

(** ** Messages of the host *)

Lemma advance_ok d c m k :
  join_ok d → before_decision (cl_state (jd_admission d)) → before_decision (cl_state c) →
  cl_chat c = cl_chat (jd_admission d) → pinned c →
  handshake (cl_state c) = handshake (cl_state (jd_admission d)) ++ [Message_type m] →
  join_ok (jd_put_sent k (jd_sent d ++ [m]) (jd_put_admission c d)).
Proof.
  intros [H1 H2 H3 H4 H5] Hb [Hc1 Hc2] Hchat Hh Hs. constructor; cbn.
  - eapply spoken_next; [done|apply Hb|done].
  - unfold shows_state in *. cbn. destruct Hb as [Hb1 Hb2].
    assert (Hk : screen_kind (jd_app d) = SK_Form ∨ screen_kind (jd_app d) = SK_Pending)
      by (by destruct (cl_state (jd_admission d))).
    by destruct (cl_state c).
  - rewrite Hchat, H3. destruct Hb. naive_solver.
  - done.
  - intros _. by apply H5.
Qed.

(** The form that waited for the challenge's answer. *)
Lemma pending_wp {A} d r (k : unit → JM A) :
  join_ok d → cl_state (jd_admission d) = CL_AwaitingJoinForm →
  (∀ a s, join_ok s.1 → cl_state (jd_admission s.1) ≠ CL_Admitted → wp (k a) turn_post s) →
  wp (d ← self;
      match jd_pending_form d with
      | Some (nickname, introduction) =>
          modify (λ d, jd_put_form None (jd_own_nickname d) d);;
          r ← with_client (join_request nickname introduction);
          match r with Ok join_message => send_or_end env join_message | Err _ => mret tt end
      | None => mret tt
      end) (bind_post k turn_post) (d, r).
Proof.
  intros Hd Hst Hk. assert (Hb : before_decision (cl_state (jd_admission d))) by by rewrite Hst.
  rewrite wp_self. cbn [fst snd]. destruct (jd_pending_form d) as [[n i]|] eqn:Ep.
  2: { rewrite wp_ret. apply Hk; [done|]. cbn. by rewrite Hst. }
  destruct (jk_pending d Hd Hb n i Ep) as [Ho Hnf]. rewrite wp_modify. cbn [fst snd].
  assert (Hd1 : join_ok (jd_put_form None (jd_own_nickname d) d)) by by apply form_put_ok.
  assert (Hk1 : screen_kind (jd_app d) = SK_Pending).
  { pose proof (jk_shows d Hd) as Hs. unfold shows_state in Hs. rewrite Hst in Hs. by destruct Hs. }
  set (d1 := jd_put_form None (jd_own_nickname d) d) in *. rewrite wp_bind. unfold wp at 1, with_client, zoom. cbn [fst snd].
  destruct (join_request n i (jd_admission d1, r)) as [o [c r']] eqn:E.
  apply join_request_run in E as [[[e ->] Hc]|(request & -> & _ & Hc & Ha)]; cbn [fst] in Hc; subst c; cbn [bind_post fst snd].
  - rewrite wp_ret. apply Hk; [by eapply join_ok_watched; [|exact Hd1]|]. cbn. by rewrite Hst.
  - unfold send_or_end. rewrite wp_bind. apply net_send_wp; cbn [bind_post].
    + intros m. rewrite wp_ret. apply Hk; [|done]. exact (applied_ok d1 n request m Hd1 Hst Hk1 Ha Ho).
    + intros e m. exists CL_AwaitingJoinForm. rewrite <-Hst. apply Hd1.
Qed.

Lemma spoken_admitted sent : spoken CL_AwaitingDecision sent → spoken CL_Admitted sent.
Proof.
  intros (hs & rest & -> & Hh & _ & Hn). exists hs, rest. rewrite Hn by done. by split_and!.
Qed.

Lemma enter_turns d r c :
  join_ok d → cl_state (jd_admission d) = CL_AwaitingDecision → cl_state c = CL_Admitted →
  is_Some (cl_chat c) → pinned c →
  join_ok (jd_put_app (enter_room (RoomView_participant (default (lit "you") (jd_own_nickname d)) (env_now env)) (jd_app d))
    (jd_put_form r None (jd_put_admission c d))).
Proof.
  intros [H1 H2 H3 H4 H5] Hst Hc Hchat Hh. constructor; cbn; rewrite ?Hc; try done.
  - rewrite Hst in H1. by apply spoken_admitted.
  - unfold shows_state in *. rewrite Hst in H2. cbn. rewrite Hc. destruct H2 as (_ & n & Ho & Ha). rewrite Ho. by exists n.
  - by intros [].
Qed.

(** What follows the replies. *)
Definition after_replies : JM unit :=
  d ← self;
  if is_admitted (jd_admission d) then
    let nickname := default (lit "you") (jd_own_nickname d) in
    modify (λ d, jd_put_form (jd_pending_form d) None d);;
    modify (λ d, jd_put_app (enter_room (RoomView_participant nickname (env_now env)) (jd_app d)) d)
  else mret tt.

Lemma after_idle d r : join_ok d → cl_state (jd_admission d) ≠ CL_Admitted → wp after_replies turn_post (d, r).
Proof.
  intros Hd Hst. unfold after_replies. rewrite wp_self. unfold is_admitted. cbn [fst]. by rewrite bool_decide_eq_false_2.
Qed.

Lemma flow_message_turns m : turns (flow_message env m).
Proof.
  intros [d r] Hd. unfold flow_message. rewrite wp_bind. unfold wp at 1, with_client, zoom. cbn [fst snd] in *.
  destruct (on_host_message m (jd_admission d, r)) as [[replies|e|] [c r']] eqn:E; cbn [bind_post fst snd]; [| |done].
  2: { destruct e; eexists; apply Hd. }
  change (wp (send_replies env replies;; after_replies) turn_post (jd_put_admission c d, r')).
  assert (Hinfo : cl_state (jd_admission d) = CL_AwaitingDecision → pinned (jd_admission d)).
  { intros Hst. apply (jk_hello d Hd). by rewrite Hst. }
  apply host_message_run in E; [|done]. cbn [fst] in E.
  destruct E as [(H1 & H2 & H3 & H4 & t & ->)|[(H1 & H2 & H3 & H4 & p & ->)|(H1 & H2 & H3 & H4 & ->)]];
    cbn [send_replies is_challenge_answer].
  - rewrite wp_bind. apply send_any; [|intros e n; eexists; apply Hd]. intros n. rewrite wp_bind, !wp_ret. cbn [bind_post].
    rewrite wp_ret. apply after_idle; [|cbn; by rewrite H2]. apply (advance_ok d c _ n); rewrite ?H1, ?H2; done.
  - rewrite wp_bind. apply send_any; [|intros e n; eexists; apply Hd]. intros n. rewrite wp_bind.
    eapply wp_mono; [|apply (pending_wp _ _ (λ _, after_replies))].
    + intros [[]|e|] s' Hp; cbn [bind_post] in *; [rewrite wp_ret; exact Hp|exact Hp|done].
    + apply (advance_ok d c _ n); rewrite ?H1, ?H2; try done. apply H3, (jk_hello d Hd). by rewrite H1.
    + done.
    + intros _ [d' r''] Hd' Hne. by apply after_idle.
  - rewrite wp_bind, wp_ret. cbn [bind_post]. unfold after_replies. rewrite wp_self. cbn [fst snd jd_admission jd_put_admission]. unfold is_admitted.
    rewrite bool_decide_eq_true_2 by done. rewrite wp_modify, wp_modify_last. cbn [fst snd].
    refine (enter_turns d (jd_pending_form d) c Hd H1 H2 H4 _). by apply H3, Hinfo.
Qed.

Lemma wrap_op wrap : chat_op (λ m, room_message m = true) (on_epoch_wrap wrap).
Proof.
  apply chat_op_self. intros c. apply (chat_op_bind (λ _, True)); [done|]. by apply on_chat_op.
Qed.

Lemma member_op t envelope : chat_op (λ _, True) (on_member_message t envelope).
Proof. by apply on_chat_op. Qed.

Lemma membership_turns m : turns (membership_message env m).
Proof.
  unfold membership_message. eapply (chat_turns (λ _, True)); [by apply on_chat_op| |].
  - intros a _. apply turns_room, turns_keeps. unfold show_membership.
    destruct m; solve_keeps; by apply keeps_join_view.
  - intros e. apply turns_keeps. auto with keeps.
Qed.

Lemma chat_message_turns envelope :
  turns (r ← with_client (on_member_message MSG_CHAT envelope);
      match r with
      | Ok (Some text) =>
          d ← self;
          let '(nickname, color) := join_label (jd_admission d) (env_sender_id envelope) in
          on_join_view (push_chat nickname color text (env_now env))
      | Ok None => mret tt
      | Err error => join_error env (chat_error_text error)
      end).
Proof.
  eapply chat_turns; [apply member_op| |].
  - intros [text|] _; apply turns_room; [|apply turns_ret]. apply turns_keeps.
    apply keeps_bind; [apply keeps_self|]. intros d. destruct (join_label _ _). by apply keeps_join_view.
  - intros e. apply turns_keeps. auto with keeps.
Qed.

Lemma timeout_changed_turns envelope : turns (timeout_changed env envelope).
Proof.
  unfold timeout_changed. eapply (chat_turns (λ _, True)); [by apply on_chat_op| |].
  - intros interval _. apply turns_room, turns_keeps. apply keeps_bind; [by apply keeps_join_view|]. intros _.
    by apply keeps_join_view.
  - intros e. apply turns_keeps. auto with keeps.
Qed.

Lemma handle_message_turns m : turns (handle_join_message env m).
Proof.
  destruct m; cbn [handle_join_message];
    try first [exact (flow_message_turns _)|exact (membership_turns _)|exact (chat_message_turns _)
              |exact (timeout_changed_turns _)].
  - apply turns_ret.
  - apply turns_self. intros d _. destruct (_ && _); [|apply turns_fail]. apply turns_keeps. solve_keeps.
  - apply turns_bind; [|intros _; apply turns_fail]. apply turns_keeps. solve_keeps.
  - eapply chat_turns; [apply wrap_op| |intros e; apply turns_fail]. intros a Ha.
    exact (room_send_turns a _ Ha (turns_keeps _ (keeps_join_system _))).
  - eapply chat_turns; [apply member_op| |]; intros; [apply turns_room|]; apply turns_keeps; auto with keeps.
Qed.

(** ** The loop *)

Lemma times_turns (f : JoinDriver → JoinDriver) :
  (∀ d, watched_join (f d) = watched_join d) → turns (modify f).
Proof. intros Hf. by apply turns_keeps, keeps_modify. Qed.

Lemma join_turn_turns draw_failed ev : turns (join_turn env draw_failed ev).
Proof.
  unfold join_turn. destruct draw_failed; [apply turns_fail|].
  destruct ev as [[[]|]| |key|text| |[[message|]|]]; cbn [join_event]; try (by apply turns_fail).
  - apply turns_self. intros d _. destruct (join_timed_out _ _); [apply turns_fail|apply turns_ret].
  - apply turns_keeps, keeps_join_view. intros v. unfold tick_message_timeout. by repeat case_match.
  - apply join_key_turns.
  - intros [d r] Hd. rewrite wp_self, wp_expect. cbn [fst snd]. destruct (on_paste text (jd_app d)) as [app|] eqn:E; [|done].
    rewrite wp_modify_last. cbn [fst snd]. eapply join_ok_watched; [|exact Hd]. unfold watched_join. cbn.
    by rewrite (paste_kind _ _ _ E).
  - unfold join_inbound. apply turns_bind; [by apply times_turns|]. intros _. apply turns_self. intros d _.
    apply turns_bind; [apply handle_message_turns|]. intros _. apply times_turns. intros d'. by case_bool_decide.
Qed.

Lemma join_begin_ok admission app d r r' :
  cl_state admission = CL_AwaitingHostHello → cl_chat admission = None →
  join_begin env (JoinDriver_new env admission app, r) = (Done tt, (d, r')) → join_ok d.
Proof.
  intros Hst Hc Hrun.
  enough (wp (join_begin env) (λ o s', o = Done tt → join_ok s'.1) (JoinDriver_new env admission app, r)) as Hw.
  { unfold wp in Hw. rewrite Hrun in Hw. by apply Hw. }
  unfold join_begin. rewrite wp_self, wp_bind. apply net_send_wp; cbn [bind_post].
  - intros n. rewrite wp_modify_last. intros _. constructor; cbn; rewrite ?Hst, ?Hc; try done.
    + by exists [first_message admission], [].
    + unfold shows_state. cbn. rewrite Hst. by left.
  - by intros e n [=].
Qed.
End turns.

(** * The session *)

Section session.
Context `{PR : !Primitives} `{HA : !Hashes} `{NF : !Nfc} `{ET : !ErrorTexts}.

(** The states of a join session: its start, and the turns that go on. *)
Inductive join_reachable (invitation : Invitation) (password : list byte) : JoinDriver * Rng → Prop :=
| jr_start env rng admission app r d r' :
    ClientAdmission_new invitation password rng = (Ok admission, r) →
    join_begin env (JoinDriver_new env admission app, r) = (Done tt, (d, r')) →
    join_reachable invitation password (d, r')
| jr_turn env draw_failed ev s s' :
    join_reachable invitation password s → join_turn env draw_failed ev s = (Done tt, s') →
    join_reachable invitation password s'.

Lemma join_reachable_ok invitation password s : join_reachable invitation password s → join_ok s.1.
Proof.
  induction 1 as [env rng admission app r d r' Hnew Hrun|env df ev s s' _ IH Hrun].
  - assert (H0 : cl_state admission = CL_AwaitingHostHello ∧ cl_chat admission = None).
    { revert Hnew. unfold ClientAdmission_new. destruct (MemberIdentity_generate rng) as [[im|] r1]; [|done].
      destruct (random_bytes _ _) as [[n|] r2]; [|done]. by intros [= <- <-]. }
    destruct H0. by eapply join_begin_ok.
  - pose proof (join_turn_turns env df ev s IH) as Hw. unfold wp in Hw. by rewrite Hrun in Hw.
Qed.

(** C16.  The participant's session is a state machine. Whatever the host sends,
    whatever is typed and pasted, and whatever the connection's queue answers, a session
    that goes on has said a hello, the token, the proof of the password and one
    application, each once and in this order, as far as its state says, and after
    admission only what members say; the chat session exists exactly after admission;
    the screen is the form or the waiting screen before, and the participant's room,
    never a host's, from then on, under the name it applied with. A turn that ends the
    session has kept to the same order. *)
Theorem join_session_lifecycle invitation password s :
  join_reachable invitation password s →
  let d := s.1 in let st := cl_state (jd_admission d) in
  spoken st (jd_sent d) ∧ (is_Some (cl_chat (jd_admission d)) ↔ st = CL_Admitted) ∧
  match st with
  | CL_AwaitingHostHello | CL_AwaitingChallenge | CL_AwaitingJoinForm =>
      screen_kind (jd_app d) = SK_Form ∨ screen_kind (jd_app d) = SK_Pending
  | CL_AwaitingDecision =>
      screen_kind (jd_app d) = SK_Pending ∧ ∃ n, jd_own_nickname d = Some n ∧ applied_as n (jd_sent d)
  | CL_Admitted => ∃ n, screen_kind (jd_app d) = SK_Room false n ∧ applied_as n (jd_sent d)
  end ∧
  ∀ env draw_failed ev e s', join_turn env draw_failed ev s = (Fail e, s') → ∃ st', spoken st' (jd_sent s'.1).
Proof.
  intros Hr. apply join_reachable_ok in Hr as Hd. cbv zeta. split_and!; [apply Hd|apply Hd|apply (jk_shows _ Hd)|].
  intros env df ev e s' Hrun. pose proof (join_turn_turns env df ev s Hd) as Hw. unfold wp in Hw. by rewrite Hrun in Hw.
Qed.
End session.
