(* ===== verification/JoinForms.v ===== *)
(** A join form and the flow it belongs to: a form submitted early is sent
    when the host's challenge has been answered; one the protocol does not
    admit is never sent. Then the member list of the participant's session,
    which stays well formed. *)
From Stdlib Require Import Strings.String.
From S2P Require Export JoinProps SessionProps.

Section forms.
Context `{PR : !Primitives} `{HA : !Hashes} `{NF : !Nfc} `{ET : !ErrorTexts}.

(** * The form before the challenge *)

Definition sends_all (env : Env) : Prop := ∀ n, env_queue env n = TS_Sent.

Lemma sent_run env m d r :
  sends_all env → send_or_end env m (d, r) = (Done tt, (jd_put_sent (S (jd_attempts d)) (jd_sent d ++ [m]) d, r)).
Proof.
  intros He. unfold send_or_end, client_net_send, mbind, M_bind, self, modify. cbn [fst snd]. by rewrite He.
Qed.

(** An application that can be sent. *)
Definition valid_form (n : rstring) (i : option rstring) : Prop :=
  ∃ name, validate_nickname n Limits_default = Ok name ∧
    (∃ name', validate_nickname name Limits_default = Ok name') ∧
    (∀ intro, i = Some intro → validate_intro intro Limits_default = Ok tt).

Lemma join_request_valid n i c r :
  cl_state c = CL_AwaitingJoinForm → pinned c → valid_form n i →
  ∃ request, join_request n i (c, r) = (Done (M_JoinRequest request), (cl_put_state CL_AwaitingDecision c, r)).
Proof.
  intros Hst [[hh Hh] [sn Hn]] (name & E1 & (name' & E2) & Hi).
  unfold join_request, mbind, M_bind, self, modify. cbn [fst snd].
  rewrite bool_decide_eq_true_2 by done. cbn [negb]. rewrite Hh. cbn [ok_or mret M_ret]. rewrite Hn.
  cbn [ok_or mret M_ret]. rewrite E1. cbn [try_ mret M_ret]. unfold JoinRequestMessage_new. rewrite E2.
  destruct i as [intro|]; [rewrite (Hi intro eq_refl)|]; cbn; by eexists.
Qed.

(** A form that was submitted before the host's challenge is not lost: the
    turn that receives the challenge sends the proof of the password and then the
    application, and forgets the password. *)
Theorem early_form_is_sent invitation password d r env challenge n i key :
  join_reachable invitation password (d, r) → sends_all env →
  cl_state (jd_admission d) = CL_AwaitingChallenge → jd_pending_form d = Some (n, i) → valid_form n i →
  v1_cost challenge →
  argon2id (cl_password (jd_admission d)) (pc_salt challenge) (pc_m_cost challenge) (pc_t_cost challenge)
    (pc_p_cost challenge) = Some key →
  ∃ d' request, join_turn env false (JE_Inbound (Some (Some (M_PasswordChallenge challenge)))) (d, r)
      = (Done tt, (d', r)) ∧
    jd_sent d' = jd_sent d ++
      [M_ChallengeProof {| cp_proof := compute_proof key (pc_challenge_nonce challenge) (cl_client_nonce (jd_admission d)) |};
       M_JoinRequest request] ∧
    cl_state (jd_admission d') = CL_AwaitingDecision ∧ cl_password (jd_admission d') = [] ∧
    jd_pending_form d' = None.
Proof.
  intros Hr Hall Hst Hp Hv (C1 & C2 & C3) Hkey. apply join_reachable_ok in Hr as Hd. cbn [fst] in Hd.
  assert (Hpin : pinned (jd_admission d)) by (apply (jk_hello d Hd); by rewrite Hst).
  set (now := ck_instant (env_now env)). set (d1 := jd_put_times (jd_stage_since d) now d).
  set (c := cl_put_state CL_AwaitingJoinForm (cl_clear_password (jd_admission d))).
  set (proof := {| cp_proof := compute_proof key (pc_challenge_nonce challenge) (cl_client_nonce (jd_admission d)) |}).
  destruct (join_request_valid n i c r eq_refl Hpin Hv) as [request Hreq].
  assert (Hm : on_host_message (M_PasswordChallenge challenge) (jd_admission d, r) = (Done [M_ChallengeProof proof], (c, r))).
  { unfold on_host_message, mbind, M_bind, self. cbn [fst snd]. rewrite Hst. unfold handle_challenge, mbind, M_bind, self, modify.
    cbn [fst snd]. rewrite C1, C2, C3, !N.eqb_refl. cbn [negb orb]. unfold compute_password_proof, derive_key.
    rewrite C1, C2, C3 in Hkey. by rewrite Hkey. }
  assert (Hflow : flow_message env (M_PasswordChallenge challenge) (d1, r) = (Done tt,
    (jd_put_sent (S (S (jd_attempts d))) (jd_sent d ++ [M_ChallengeProof proof] ++ [M_JoinRequest request])
      (jd_put_admission (cl_put_state CL_AwaitingDecision c) (jd_put_form None (jd_own_nickname d) d1)), r))).
  { unfold flow_message, mbind, M_bind at 1, with_client, zoom. cbn [fst snd jd_admission d1 jd_put_times]. rewrite Hm.
    cbn [send_replies is_challenge_answer]. unfold mbind, M_bind. rewrite (sent_run _ _ _ _ Hall).
    unfold self at 1. cbn [fst snd jd_pending_form jd_put_sent jd_put_admission jd_put_times d1]. rewrite Hp.
    unfold modify at 1, with_client, zoom. cbn [fst snd jd_admission jd_put_sent jd_put_admission jd_put_form]. rewrite Hreq.
    rewrite (sent_run _ _ _ _ Hall). cbn. by rewrite <-app_assoc. }
  eexists _, request. split.
  - unfold join_turn, join_event, join_inbound. unfold mbind at 1, M_bind at 1, modify at 1. cbn [fst snd].
    unfold mbind at 1, M_bind at 1, self at 1. cbn [fst snd]. cbn [handle_join_message].
    unfold mbind at 1, M_bind at 1. fold now. fold d1. rewrite Hflow. unfold modify. cbn [fst snd]. reflexivity.
  - case_bool_decide as Hk; [|done]. by unfold timeout_kind in Hk; cbn in Hk; rewrite Hst in Hk.
Qed.

(** * The form that is never sent *)

(** The flow waits for an application while the screen shows that one has
    been sent. *)
Definition stalled (d : JoinDriver) : Prop :=
  cl_state (jd_admission d) = CL_AwaitingJoinForm ∧ cl_chat (jd_admission d) = None ∧ screen_kind (jd_app d) = SK_Pending.

(** A computation that changes nothing the session depends on, if it goes
    on. *)
Definition idle {A} (m : JM A) : Prop :=
  ∀ s, stalled s.1 → wp m (λ o s', ∀ a, o = Done a → watched_join s'.1 = watched_join s.1) s.

Lemma stalled_watched d d' : watched_join d' = watched_join d → stalled d → stalled d'.
Proof. unfold watched_join, stalled. by intros [= -> _ _ _ ->]. Qed.

Lemma idle_keeps {A} (m : JM A) : keeps watched_join m → idle m.
Proof. intros Hm s _. unfold wp. intros a _. apply Hm. Qed.

Lemma idle_fail {A} e : idle (fail e : JM A).
Proof. by intros s _ a [=]. Qed.

Lemma idle_bind {A B} (m : JM A) (k : A → JM B) : idle m → (∀ a, idle (k a)) → idle (m ≫= k).
Proof.
  intros Hm Hk s Hs. rewrite wp_bind. eapply wp_mono; [|by apply Hm].
  intros [a|e|] s' H; cbn [bind_post]; [|done|done]. specialize (H a eq_refl).
  eapply wp_mono; [|apply Hk; by eapply stalled_watched]. intros o s'' H2 b Hb. rewrite <-H. eauto.
Qed.

Lemma idle_chat {E A B} (none : E) err (m : Comp ChatSession ChatError A) (k : Result A E → JM B) :
  idle (k (Err none)) → idle (with_client (on_chat none err m) ≫= k).
Proof.
  intros Hk [d r] Hs. pose proof Hs as (_ & Hc & _). cbn [fst] in Hc.
  rewrite wp_bind. unfold wp at 1, with_client, zoom, on_chat. cbn [fst snd]. rewrite Hc. cbn [bind_post fst snd].
  replace (jd_put_admission (jd_admission d) d) with d by by destruct d. by apply Hk.
Qed.

#[local] Hint Resolve keeps_join_error keeps_join_system keeps_sync_join : keeps.

Lemma idle_flow env m : idle (flow_message env m).
Proof.
  intros [d r] Hs. pose proof Hs as (Hst & _ & _). cbn [fst] in Hst. unfold flow_message.
  rewrite wp_bind. unfold wp at 1, with_client, zoom. cbn [fst snd].
  destruct (on_host_message m (jd_admission d, r)) as [[replies|e|] [c r']] eqn:E; cbn [bind_post fst snd]; [| |done].
  - exfalso. apply host_message_run in E; [|by rewrite Hst]. rewrite Hst in E.
    by destruct E as [(? & _)|[(? & _)|(? & _)]].
  - destruct e; by intros a [=].
Qed.

Lemma idle_wrap wrap (k : Message → JM unit) message :
  idle (r ← with_client (on_epoch_wrap wrap);
        match r with Ok ack => k ack | Err _ => failed message end).
Proof.
  intros [d r] Hs. pose proof Hs as (_ & Hc & _). cbn [fst] in Hc. rewrite wp_bind.
  unfold wp at 1, with_client, zoom, on_epoch_wrap, mbind, M_bind, self, on_chat. cbn [fst snd]. rewrite Hc.
  by intros a [=].
Qed.

Lemma idle_message env m : idle (handle_join_message env m).
Proof.
  destruct m; cbn [handle_join_message]; try exact (idle_flow env _);
    try (apply idle_chat, idle_keeps; solve [auto with keeps]).
  - by apply idle_keeps.
  - apply idle_bind; [by apply idle_keeps|]. intros d. destruct (_ && _); [apply idle_keeps; auto with keeps|apply idle_fail].
  - apply idle_bind; [apply idle_keeps; auto with keeps|intros _; apply idle_fail].
  - apply idle_wrap.
Qed.

Lemma idle_turn env draw_failed ev : idle (join_turn env draw_failed ev).
Proof.
  unfold join_turn. destruct draw_failed; [apply idle_fail|].
  destruct ev as [[[]|]| |key|text| |[[message|]|]]; cbn [join_event]; try (by apply idle_fail).
  - apply idle_bind; [by apply idle_keeps|]. intros d. destruct (join_timed_out _ _); [apply idle_fail|by apply idle_keeps].
  - apply idle_keeps, keeps_join_view. intros v. unfold tick_message_timeout. by repeat case_match.
  - intros [d r] Hs. pose proof Hs as (_ & _ & Hk). cbn [fst] in Hk. unfold join_key.
    destruct (is_quit_key key); [by apply idle_fail|].
    rewrite wp_self, wp_expect. cbn [fst snd]. destruct (on_key key _ _) as [[action app]|] eqn:E; [|by intros a [=]].
    apply on_key_kind in E. rewrite Hk in E. destruct E as [-> Hk']. rewrite wp_modify. cbn [fst snd]. rewrite wp_ret. intros a _.
    unfold watched_join. cbn. by rewrite Hk, Hk'.
  - intros [d r] Hs. rewrite wp_self, wp_expect. cbn [fst snd]. destruct (on_paste text (jd_app d)) as [app|] eqn:E; [|by intros a [=]].
    rewrite wp_modify_last. intros a _. unfold watched_join. cbn. by rewrite (paste_kind _ _ _ E).
  - unfold join_inbound. apply idle_bind; [by apply idle_keeps, keeps_modify|]. intros _.
    apply idle_bind; [by apply idle_keeps|]. intros d. apply idle_bind; [apply idle_message|]. intros _.
    apply idle_keeps, keeps_modify. intros d'. by case_bool_decide.
Qed.

(** The turns of a session that goes on. *)
Inductive join_runs : JoinDriver * Rng → JoinDriver * Rng → Prop :=
| runs_none s : join_runs s s
| runs_turn env draw_failed ev s s' s'' :
    join_turn env draw_failed ev s = (Done tt, s') → join_runs s' s'' → join_runs s s''.

Lemma stalled_runs s s' : join_runs s s' → stalled s.1 → stalled s'.1 ∧ jd_sent s'.1 = jd_sent s.1.
Proof.
  induction 1 as [s|env df ev s s' s'' Hrun _ IH]; intros Hs; [done|].
  pose proof (idle_turn env df ev s Hs) as Hw. unfold wp in Hw. rewrite Hrun in Hw. specialize (Hw tt eq_refl). cbn in Hw.
  destruct (IH (stalled_watched _ _ Hw Hs)) as [H1 H2]. split; [done|]. rewrite H2.
  unfold watched_join in Hw. by injection Hw.
Qed.

(** An application with a nickname the protocol does not admit is neither sent
    nor reported. The form takes any text of 128 bytes, so a name of more than 32
    characters, or of spaces alone, can be submitted; the session then shows the waiting
    screen, and whatever the host and the user do, as long as the session goes on
    nothing is sent and the screen stays. *)
Theorem invalid_form_stalls invitation password d r env key n i app s' s'' e :
  join_reachable invitation password (d, r) → cl_state (jd_admission d) = CL_AwaitingJoinForm →
  is_quit_key key = false →
  on_key key (env_now env) (jd_app d) = Some (AA_JoinFormSubmitted n i, app) →
  validate_nickname n Limits_default = Err e →
  join_turn env false (JE_Key key) (d, r) = (Done tt, s') → join_runs s' s'' →
  jd_sent s''.1 = jd_sent d ∧ cl_state (jd_admission s''.1) = CL_AwaitingJoinForm ∧
  screen_kind (jd_app s''.1) = SK_Pending.
Proof.
  intros Hr Hst Hq Hkey Hn Hrun Hruns. apply join_reachable_ok in Hr as Hd. cbn [fst] in Hd.
  assert (Hnone : cl_chat (jd_admission d) = None).
  { pose proof (jk_chat d Hd) as Hc. rewrite Hst in Hc. destruct (cl_chat _); [|done]. by pose proof (proj1 Hc (ex_intro _ _ eq_refl)). }
  assert (Hs : stalled s'.1 ∧ jd_sent s'.1 = jd_sent d).
  { enough (wp (join_key env key) (λ o s', o = Done tt → stalled s'.1 ∧ jd_sent s'.1 = jd_sent d) (d, r)) as Hw.
    { unfold wp in Hw. cbn [join_turn join_event] in Hrun. unfold join_turn, join_event in Hrun. rewrite Hrun in Hw. by apply Hw. }
    unfold join_key. rewrite Hq, wp_self, wp_expect. cbn [fst snd]. rewrite Hkey, wp_modify. cbn [fst snd].
    unfold submit_form. rewrite !wp_modify. cbn [fst snd]. rewrite wp_bind. unfold wp at 1, with_client, zoom. cbn [fst snd].
    destruct (join_request n i _) as [o [c r']] eqn:E. apply join_request_run in E as [[[e' ->] Hc]|(rq & _ & _ & _ & rq' & name & _ & Hv & _)].
    - cbn [bind_post fst snd]. rewrite wp_modify_last. intros _. cbn [fst] in Hc. subst c. by split_and!.
    - by rewrite Hn in Hv. }
  destruct Hs as [Hs Hsent]. destruct (stalled_runs _ _ Hruns Hs) as [(H1 & _ & H3) H2]. split_and!; [|done|done].
  by rewrite H2.
Qed.
End forms.

(** * The member list *)

Section listing.
Context `{PR : !Primitives} `{HA : !Hashes} `{NF : !Nfc} `{ET : !ErrorTexts}.

(** The list of the session, if there is one, is well formed. *)
Definition listed (c : ClientAdmission) : Prop := ∀ s, cl_chat c = Some s → view_ok (cs_members s).

Abbreviation members_ok := (λ s : ChatSession, view_ok (cs_members s)) (only parsing).

Lemma keeps_members_ok {A} (m : Comp ChatSession ChatError A) : keeps cs_members m → preserves members_ok m.
Proof. apply keeps_preserves. by intros s s' <-. Qed.

Lemma recolor_view id color s : view_ok (cs_members s) → view_ok (cs_members (recolor id color s)).
Proof.
  intros Hs. unfold recolor. destruct (session_member s id) as [v|] eqn:Hv; [|done].
  pose proof (find_first_key_Some _ _ _ _ Hv) as [_ Hid]. by apply (install_known_view v); rewrite ?Hid.
Qed.

Ltac members_kept :=
  apply keeps_members_ok;
  repeat first [apply keeps_open_members|apply keeps_seal_members|apply keeps_install_members|keeps_step].

Lemma member_message_members t env :
  preserves members_ok (if (t =? 0x40)%N then text ← receive_chat env; mret (Some text)
    else if (t =? 0x41)%N then color ← receive_color env; modify (recolor (env_sender_id env) color);; mret None
    else fail (CE_InvalidPlaintext (lit "not a chat-type message: 0x" ++ hex2 t))).
Proof.
  destruct (t =? 0x40)%N; [unfold receive_chat; members_kept|]. destruct (t =? 0x41)%N; [|apply preserves_fail].
  apply preserves_bind; [unfold receive_color; members_kept|]. intros color.
  apply preserves_bind; [apply preserves_modify; intros s; apply recolor_view|intros _; apply preserves_ret].
Qed.

Lemma on_chat_listed {E A} (none : E) err (m : Comp ChatSession ChatError A) :
  preserves members_ok m → preserves listed (on_chat none err m).
Proof.
  intros Hm [c r] Hc. unfold wp, on_chat. cbn [fst snd]. destruct (cl_chat c) as [chat|] eqn:Ec; [|done].
  specialize (Hm (chat, r) (Hc chat Ec)). unfold wp in Hm.
  destruct (m (chat, r)) as [[a|e|] [chat' r']]; cbn in *; intros Ho s; [..|done]; intros [= <-]; by apply Hm.
Qed.

Lemma listed_chat c c' : cl_chat c = cl_chat c' → listed c → listed c'.
Proof. unfold listed. by intros <-. Qed.

Lemma keeps_listed {E A} (m : Comp ClientAdmission E A) : keeps cl_chat m → preserves listed m.
Proof. apply keeps_preserves, listed_chat. Qed.

Lemma join_request_listed n i : preserves listed (join_request n i).
Proof. apply keeps_listed. unfold join_request. solve_keeps. Qed.

Lemma host_message_listed m : preserves listed (on_host_message m).
Proof.
  unfold on_host_message. apply preserves_self. intros c Hc.
  destruct (cl_state c), m; try apply preserves_fail;
    try solve [apply keeps_listed; unfold handle_host_hello, handle_challenge; solve_keeps].
  repeat (apply preserves_bind; [|intros _]); try apply preserves_ret; try (apply preserves_modify; by intros).
  destruct (cl_host_hello c); [|apply preserves_ret]. apply preserves_modify. intros c' _ s [= <-].
  by constructor; [apply NoDup_nil_2..|].
Qed.

Lemma own_color_listed color c : listed c → listed (set_own_color color c).
Proof.
  intros Hc. unfold set_own_color. destruct (cl_member_id c) as [id|]; [|done].
  destruct (cl_chat c) as [s|] eqn:Es; [|done]. intros s' [= <-]. by apply recolor_view, Hc.
Qed.

(** ** The supervisor *)

Definition lists (d : JoinDriver) : Prop := listed (jd_admission d).

Lemma with_client_lists {E A} (m : Comp ClientAdmission E A) : preserves listed m → preserves lists (with_client m).
Proof.
  intros Hm [d r] Hd. specialize (Hm (jd_admission d, r) Hd). unfold wp, with_client, zoom in *. cbn [fst snd] in *.
  destruct (m (jd_admission d, r)) as [[a|e|] [c r']]; cbn in *; intros Ho; [..|done]; by apply Hm.
Qed.

Lemma keeps_lists {A} (m : JM A) : keeps jd_admission m → preserves lists m.
Proof. apply keeps_preserves. unfold lists. by intros d d' <-. Qed.

Lemma send_lists env m : preserves lists (send_or_end env m).
Proof.
  apply keeps_lists. intros s. unfold send_or_end, client_net_send, failed, mbind, M_bind, self, modify. cbn [fst snd].
  by destruct (peer_send _).
Qed.
Lemma view_lists f : preserves lists (on_join_view f).
Proof. apply keeps_lists. unfold on_join_view. solve_keeps. Qed.
Lemma request_lists n i : preserves lists (with_client (join_request n i)).
Proof. apply with_client_lists, join_request_listed. Qed.
Lemma own_color_lists color : preserves lists (modify (λ d, jd_put_admission (set_own_color color (jd_admission d)) d) : JM unit).
Proof. apply preserves_modify. intros d. apply own_color_listed. Qed.
Lemma chat_lists {E A} (none : E) err (m : Comp ChatSession ChatError A) :
  preserves members_ok m → preserves lists (with_client (on_chat none err m)).
Proof. intros Hm. by apply with_client_lists, on_chat_listed. Qed.
Lemma session_lists (k : ClientAdmission → Comp ChatSession ChatError Message) :
  (∀ c, preserves members_ok (k c)) → preserves lists (with_client (c ← self; on_chat CE_NoEpochKey id (k c))).
Proof. intros Hk. apply with_client_lists, preserves_self. intros c _. by apply on_chat_listed. Qed.

Hint Resolve send_lists view_lists request_lists own_color_lists : preserves.

Ltac list_step :=
  match goal with
  | |- preserves _ (self ≫= _) => apply preserves_self; intros ? ?
  | |- preserves _ (expect _ ≫= _) => apply preserves_expect_bind; intros ? ?
  | |- preserves _ (_ ≫= _) => apply preserves_bind; [|intros]
  | |- preserves _ (match ?x with _ => _ end) => destruct x eqn:?
  | |- preserves _ (let _ := _ in _) => cbv zeta
  | |- _ => solve [auto with preserves]
  | |- preserves lists (modify _) => solve [apply preserves_modify; intros ? ?; assumption]
  end.

Lemma replies_lists env replies : preserves lists (send_replies env replies).
Proof. induction replies as [|m replies IH]; cbn [send_replies]; repeat first [exact IH|list_step]. Qed.
Hint Resolve replies_lists : preserves.

Lemma sync_lists : preserves lists sync_join_members.
Proof. unfold sync_join_members. repeat list_step. Qed.
Hint Resolve sync_lists : preserves.

Lemma send_session_lists env (k : ClientAdmission → Comp ChatSession ChatError Message) shown :
  (∀ c, preserves members_ok (k c)) → preserves lists shown →
  preserves lists (send_session env (c ← self; on_chat CE_NoEpochKey id (k c)) shown).
Proof.
  intros Hk Hs. unfold send_session, join_error. apply preserves_bind; [by apply session_lists|].
  intros [m|e]; repeat first [exact Hs|list_step].
Qed.

Lemma join_command_lists env command : preserves lists (join_command env command).
Proof.
  unfold join_command, join_error, join_system.
  destruct command; try (repeat list_step; fail);
    (apply send_session_lists; [intros c; unfold send_color, send_timeout_request; members_kept|repeat list_step]).
Qed.
Hint Resolve join_command_lists : preserves.

Lemma join_key_lists env key : preserves lists (join_key env key).
Proof.
  unfold join_key, submit_form, join_copy, join_error, join_system, failed.
  repeat first [list_step|apply send_session_lists; [intros c; unfold send_chat; members_kept|]].
Qed.
Hint Resolve join_key_lists : preserves.

Lemma wrap_members_ok identity wrap : preserves members_ok (set_epoch_from_wrap identity wrap).
Proof. unfold set_epoch_from_wrap. members_kept. Qed.

Lemma handle_message_lists env message : preserves lists (handle_join_message env message).
Proof.
  assert (Hflow : ∀ m, preserves lists (flow_message env m)).
  { intros m. unfold flow_message, failed. apply preserves_bind; [apply with_client_lists, host_message_listed|].
    intros [replies|[]]; repeat list_step. }
  assert (Hmem : ∀ m, preserves lists (membership_message env m)).
  { intros m. unfold membership_message, join_error, show_membership, join_system.
    apply preserves_bind; [apply chat_lists, membership_view|]. intros [u|e]; repeat list_step. }
  assert (Hmsg : ∀ t e, preserves lists (with_client (on_member_message t e))).
  { intros t e. apply chat_lists, member_message_members. }
  unfold handle_join_message, timeout_changed, join_error, join_system, failed.
  destruct message; try apply Hflow; try apply Hmem; try (repeat list_step; fail).
  all: apply preserves_bind; [|intros; repeat list_step].
  all: first [apply Hmsg|apply chat_lists; unfold receive_timeout_changed; members_kept|apply with_client_lists].
  unfold on_epoch_wrap. apply preserves_self. intros c _.
  apply preserves_bind; [apply on_chat_listed, wrap_members_ok|intros; apply preserves_ret].
Qed.
Hint Resolve handle_message_lists : preserves.

Lemma join_turn_lists env draw_failed ev : preserves lists (join_turn env draw_failed ev).
Proof.
  unfold join_turn, join_event, join_inbound, failed. repeat list_step.
  apply preserves_modify. intros d Hd. by case_bool_decide.
Qed.

(** C22.  A client's member list is well formed, whatever the host sends, whatever
    is typed and whatever the connection's queue answers: in every state that a join
    session reaches, its own color changes and those relayed to it included, the member
    ids, nicknames and keys its chat session knows are distinct, and a member is the
    host exactly where its id is 0. *)
Theorem client_view_preserved invitation password s chat :
  join_reachable invitation password s → cl_chat (jd_admission s.1) = Some chat → view_ok (cs_members chat).
Proof.
  intros Hr. revert chat. change (listed (jd_admission s.1)). induction Hr as [env rng admission app r d r' Hnew Hrun|env df ev s s' _ IH Hrun].
  - assert (H0 : cl_chat admission = None).
    { revert Hnew. unfold ClientAdmission_new. destruct (MemberIdentity_generate rng) as [[im|] r1]; [|done].
      destruct (random_bytes _ _) as [[n|] r2]; [|done]. by intros [= <- <-]. }
    assert (Hp : preserves lists (join_begin env)).
    { apply keeps_lists. intros s. unfold join_begin, client_net_send, failed, mbind, M_bind, self, modify. cbn [fst snd].
      by destruct (peer_send _). }
    specialize (Hp (JoinDriver_new env admission app, r)). unfold wp in Hp. rewrite Hrun in Hp.
    apply Hp; [|done]. intros chat Hc. cbn in Hc. congruence.
  - pose proof (join_turn_lists env df ev s IH) as Hp. unfold wp in Hp. rewrite Hrun in Hp. by apply Hp.
Qed.
End listing.
