(* ===== verification/Sessions.v ===== *)
(** [src/app.rs], around the sessions: the menu, the start of Tor with its
    progress on the screen, what a host and a join session set up before their
    loops, and the end that shuts Tor down.

    A session is given all that its environment will do: how Tor and the file
    system answer, which drawings of the screen fail, and the turns of its
    loop. [None] for the end of a session is one that is still running when
    its turns are used up. *)
From Stdlib Require Import Strings.String.
From S2P Require Export TorManager HostProps JoinDriver.

(** The texts of the errors, written by derived code. *)
Class SessionTexts := {
  tor_error_text : TorError → rstring;
  io_error_text : IoErrorKind → rstring;
  uri_error_text : UriError → rstring;
}.

(** What a terminal sends. *)
Inductive TerminalInput := TI_Key (key : KeyEvent) | TI_Paste (text : rstring).

(** * The menu *)

(** How the menu loop ends: [Err] of a drawing, or whether the user quit. *)
Inductive MenuStep :=
| MS_Continue (app : App)
| MS_Exit (result : Result bool unit)
| MS_Host (password : list byte) (nickname : rstring) (app : App)
| MS_Join (invitation : rstring) (password : list byte) (app : App).

(** A turn of [menu_loop]; [None] is a panic of a handler. *)
Definition menu_turn (draw_failed : bool) (input : option TerminalInput) (now : Clock) (app : App) : option MenuStep :=
  if draw_failed then Some (MS_Exit (Err tt)) else
  match input with
  | None => Some (MS_Exit (Ok false))
  | Some (TI_Paste text) => MS_Continue <$> on_paste text app
  | Some (TI_Key key) =>
      if is_quit_key key then Some (MS_Exit (Ok true)) else
      '(action, app) ← on_key key now app;
      Some match action with
           | AA_Quit => MS_Exit (Ok true)
           | AA_HostSetupSubmitted password nickname => MS_Host password nickname app
           | AA_JoinSetupSubmitted invitation password => MS_Join invitation password app
           | _ => MS_Continue app
           end
  end.

(** What the menu makes of the end of a session. *)
Definition after_session (e : SessionEnd) (app : App) : MenuStep :=
  match e with
  | SE_Quit => MS_Exit (Ok true)
  | SE_Failed message => MS_Continue (show_message message app)
  | SE_Menu => MS_Continue (back_to_menu app)
  end.

(** [run_with_tor_binary]: whether the process reports success. *)
Definition exit_success (outcome : Result bool unit) : bool := match outcome with Ok true => true | _ => false end.

(** * The environment of a session *)

Record SessionEnv := {
  se_tor : TorEnv;
  se_runtime_dir : option rstring;
  se_metadata : Result Metadata IoErrorKind;
  se_prepared_at : Instant;
  se_draw_fails : nat → bool;
  se_listen : Result unit IoErrorKind;
  se_tunnel : Result unit IoErrorKind;
}.

Record SessionState := { ss_app : App; ss_tor : TorSession }.

Definition ss_put_app (v : App) (s : SessionState) : SessionState := {| ss_app := v; ss_tor := ss_tor s |}.
Definition ss_put_tor (v : TorSession) (s : SessionState) : SessionState := {| ss_app := ss_app s; ss_tor := v |}.

Abbreviation SM := (Comp SessionState SessionEnd) (only parsing).

(** A turn of a session's loop. *)
Record HostTurn := { ht_env : Env; ht_draw_failed : bool; ht_swept_at : Clock; ht_event : HostEvent }.
Record JoinTurn := { jt_env : Env; jt_draw_failed : bool; jt_event : JoinEvent }.

Definition HostIdentity_generate `{Primitives} (rng : Rng) : Result HostIdentity CryptoError * Rng :=
  match random_bytes 32 rng with
  | (Err e, rng) => (Err e, rng)
  | (Ok ed, rng) =>
      match random_bytes 32 rng with
      | (Err e, rng) => (Err e, rng)
      | (Ok x, rng) => (Ok {| host_ed25519 := ed; host_x25519 := x |}, rng)
      end
  end.

Section sessions.
Context `{Primitives} `{Hashes} `{Nfc} `{UriPrimitives} `{ErrorTexts} `{SessionTexts}.
Context (env : SessionEnv).

Definition tor_op {A} (m : Comp TorSession TorError A) : SM (Result A TorError) := zoom ss_tor ss_put_tor m.

(** The screen is drawn before the start and after every percentage; a failed
    drawing only ends the session once the start is over. *)
Definition start_tor_with_progress : SM unit :=
  modify (λ s, ss_put_app (begin_tor_connection (ss_app s)) s);;
  if se_draw_fails env 0 then fail SE_Quit else
  outcome ← tor_op (start_with_progress (se_tor env));
  s ← self;
  let observed := ts_progress (ss_tor s) in
  modify (λ s, ss_put_app (foldl (λ a p, set_tor_progress p a) (ss_app s) observed) s);;
  if existsb (se_draw_fails env) (seq 1 (length observed)) then fail SE_Quit else
  try_ (λ e, SE_Failed (lit "Tor could not be started: " ++ tor_error_text e)) outcome.

(** ** Hosting *)

(** The room's task is started on a stream of its own. *)
Definition start_room (actor : RoomActor) : SM (RoomTask * list RoomAction) := λ s,
  match spawn_started actor s.2 with
  | None => (Panic, s)
  | Some (Err e) => (Fail (SE_Failed (lit "the room could not be started: " ++ room_error_text e)), s)
  | Some (Ok parts) => (Done parts, s)
  end.

Definition identity_failed (e : CryptoError) : SessionEnd :=
  SE_Failed (lit "the host identity could not be generated: " ++ crypto_error_text e).

(** [host_session_body] up to the room's listener. *)
Definition host_setup (verifier : PasswordVerifier) (nickname : rstring)
    : SM (HostConfig * RoomTask * list RoomAction) :=
  start_tor_with_progress;;
  onion ← tor_op (add_onion (se_tor env) VIRTUAL_PORT);
  onion ← try_ (λ e, SE_Failed (lit "the onion service could not be created: " ++ tor_error_text e)) onion;
  host_identity ← draw_err identity_failed HostIdentity_generate;
  host_client_identity ← draw_err identity_failed MemberIdentity_generate;
  actor ← draw_result (create Limits_default HOST_CONNECTION nickname host_identity host_client_identity Timeouts_default);
  actor ← try_ (λ e, SE_Failed (lit "the room could not be created: " ++ room_error_text e)) actor;
  '(task, initial) ← start_room actor;
  try_ (λ e, SE_Failed (lit "the room listener could not be bound: " ++ io_error_text e)) (se_listen env);;
  mret ({| hg_session_id := ra_session_id actor; hg_host_identity := host_identity;
           hg_client_identity := host_client_identity; hg_verifier := verifier;
           hg_onion_address := on_onion_address onion |}, task, initial).

(** The loop, until it is left or the turns are used up. *)
Fixpoint host_loop (cfg : HostConfig) (turns : list HostTurn) : Comp HostDriver HandlerError LoopExit :=
  match turns with
  | [] => mret LE_Continue
  | t :: turns =>
      modify reset_turn;;
      exit ← host_turn cfg (ht_env t) (ht_draw_failed t) (ht_swept_at t) (ht_event t);
      match exit with
      | LE_Continue => host_loop cfg turns
      | exit => mret exit
      end
  end.

(** The first actions, the loop and its exit. *)
Definition host_phases (cfg : HostConfig) (begin_env exit_env : Env) (initial : list RoomAction)
    (turns : list HostTurn) (closing : option (list RoomAction)) : Comp HostDriver HandlerError (option SessionEnd) :=
  host_begin cfg begin_env initial;;
  exit ← host_loop cfg turns;
  match exit with
  | LE_Continue => mret None
  | LE_Break => e ← host_exit exit_env closing; mret (Some e)
  | LE_Return e => session_cleanup;; mret (Some e)
  end.

(** The driver over the screen the session has. *)
Definition host_drive (cfg : HostConfig) (nickname : rstring) (begin_env exit_env : Env) (initial : list RoomAction)
    (turns : list HostTurn) (closing : option (list RoomAction)) : SM (option SessionEnd) := λ s,
  match host_phases cfg begin_env exit_env initial turns closing
          (HostDriver_new cfg begin_env nickname (ss_app s.1), s.2) with
  | (Panic, (d, r)) => (Panic, (ss_put_app (hd_app d) s.1, r))
  | (Fail e, (d, r)) => (Fail (SE_Failed e.2), (ss_put_app (hd_app d) s.1, r))
  | (Done e, (d, r)) => (Done e, (ss_put_app (hd_app d) s.1, r))
  end.

Definition host_session_body (verifier : PasswordVerifier) (nickname : rstring) (begin_env exit_env : Env)
    (turns : list HostTurn) (closing : option (list RoomAction)) : SM (option SessionEnd) :=
  '(cfg, task, initial) ← host_setup verifier nickname;
  host_drive cfg nickname begin_env exit_env initial turns closing.

(** ** Joining *)

Fixpoint join_loop (turns : list JoinTurn) : Comp JoinDriver SessionEnd unit :=
  match turns with
  | [] => mret tt
  | t :: turns => join_turn (jt_env t) (jt_draw_failed t) (jt_event t);; join_loop turns
  end.

Definition join_session_body (admission : ClientAdmission) (begin_env : Env) (turns : list JoinTurn)
    : SM (option SessionEnd) := λ s,
  match (join_begin begin_env;; join_loop turns) (JoinDriver_new begin_env admission (ss_app s.1), s.2) with
  | (Panic, (d, r)) => (Panic, (ss_put_app (jd_app d) s.1, r))
  | (Fail e, (d, r)) => (Done (Some e), (ss_put_app (jd_app d) s.1, r))
  | (Done _, (d, r)) => (Done None, (ss_put_app (jd_app d) s.1, r))
  end.

(** [run_join_session] between the preparing and the end of Tor. *)
Definition join_session (invitation : Invitation) (password : list byte) (begin_env : Env) (turns : list JoinTurn)
    : SM (option SessionEnd) :=
  start_tor_with_progress;;
  try_ (λ e, SE_Failed (lit "the room could not be reached: " ++ io_error_text e)) (se_tunnel env);;
  admission ← draw_err (λ e, SE_Failed (lit "the client session could not be created: " ++ crypto_error_text e))
    (ClientAdmission_new invitation password);
  join_session_body admission begin_env turns.

(** ** From the start of Tor to its end *)

Record SessionRun := {
  sr_end : option SessionEnd;
  sr_app : App;
  sr_tor : option TorSession;
  sr_fs : list FsCall;
}.

Definition not_run (e : SessionEnd) (app : App) (log : list FsCall) : SessionRun :=
  {| sr_end := Some e; sr_app := app; sr_tor := None; sr_fs := log |}.

(** The [body] of a session with its Tor: shut down where the body is over,
    however it ended. *)
Definition with_tor (tor_binary : option rstring) (app : App) (rng : Rng) (body : SM (option SessionEnd))
    : option SessionRun :=
  match prepare_with_binary (tv_fs (se_tor env)) tor_binary (se_runtime_dir env) (se_metadata env)
          (tv_status (se_tor env)) ([], rng) with
  | (Panic, _) => None
  | (Fail e, (log, _)) =>
      Some (not_run (SE_Failed (lit "Tor could not be prepared: " ++ tor_error_text e)) app log)
  | (Done m, (log, rng)) =>
      let '(outcome, (s, rng)) := body ({| ss_app := app; ss_tor := TorSession_new m (se_prepared_at env) |}, rng) in
      let ended e :=
        let '(_, (tor, _)) := shutdown (se_tor env) (ss_tor s, rng) in
        Some {| sr_end := Some e; sr_app := ss_app s; sr_tor := Some tor; sr_fs := log |} in
      match outcome with
      | Panic => None
      | Fail e | Done (Some e) => ended e
      | Done None => Some {| sr_end := None; sr_app := ss_app s; sr_tor := Some (ss_tor s); sr_fs := log |}
      end
  end.

Definition run_host_session (password : list byte) (nickname : rstring) (tor_binary : option rstring)
    (begin_env exit_env : Env) (turns : list HostTurn) (closing : option (list RoomAction)) (app : App) (rng : Rng)
    : option SessionRun :=
  match PasswordVerifier_derive password rng with
  | (Err e, _) =>
      Some (not_run (SE_Failed (lit "the password verifier could not be derived: " ++ crypto_error_text e)) app [])
  | (Ok verifier, rng) =>
      with_tor tor_binary app rng (host_session_body verifier nickname begin_env exit_env turns closing)
  end.

Definition run_join_session (invitation_text : rstring) (password : list byte) (tor_binary : option rstring)
    (begin_env : Env) (turns : list JoinTurn) (app : App) (rng : Rng) : option SessionRun :=
  match parse_invitation invitation_text with
  | Err e => Some (not_run (SE_Failed (lit "The invitation is invalid: " ++ uri_error_text e)) app [])
  | Ok invitation => with_tor tor_binary app rng (join_session invitation password begin_env turns)
  end.
End sessions.
