(* ===== verification/SessionsProps.v ===== *)
(** What holds of a whole session, from the start of Tor to its end. *)
From Stdlib Require Import Strings.String.
From S2P Require Export Sessions TorManagerProps JoinProps.

(** * Tor is the session's *)

Section tor.
Context `{PR : !Primitives} `{HA : !Hashes} `{NF : !Nfc} `{UP : !UriPrimitives} `{ET : !ErrorTexts} `{ST : !SessionTexts}.
Context (env : SessionEnv).

(** The session's Tor keeps its paths, and owns the process it spawned. *)
Definition owned (paths : SessionPaths) (t : TorSession) : Prop :=
  tm_paths (ts_manager t) = paths ∧
  ((∀ b a, TA_Spawn b a ∉ ts_log t) ∨ (tv_spawn (se_tor env) = Ok tt → tm_child (ts_manager t) = true)).

Lemma preserves_zoom {X Y E E' A} (get : X → Y) (put : Y → X → X) (I : Y → Prop) (m : Comp Y E' A) :
  (∀ y x, get (put y x) = y) → preserves I m → preserves (E := E) (λ x, I (get x)) (zoom get put m).
Proof.
  intros Hgp Hm s Hs. specialize (Hm (get s.1, s.2) Hs). unfold wp, zoom in *.
  destruct (m (get s.1, s.2)) as [[a|e|] [y r]]; cbn in *; rewrite Hgp; intros; auto.
Qed.

Lemma start_owned paths : preserves (owned paths) (start_with_progress (se_tor env)).
Proof.
  intros s [Hp Hs]. eapply wp_mono; [|apply start_wp]. intros o s' (_ & _ & Hpa & _ & _ & Hch & _) _.
  split; [congruence|]. destruct Hch as [[Hl Hc]|Hc]; [|by right]. by rewrite Hl, Hc.
Qed.

Lemma add_onion_owned paths port : preserves (owned paths) (add_onion (se_tor env) port).
Proof.
  intros s Hs. unfold add_onion. destruct (port =? 0)%N; [by rewrite wp_fail|]. rewrite wp_self. cbv zeta. unfold control_command.
  rewrite !wp_bind. eapply wp_mono; [|apply control_call_wp]. intros o s1 Hpost.
  assert (Hs1 : owned paths s1.1).
  { destruct o as [r|e|]; cbn [call_post] in Hpost; [|by destruct Hpost as (_ & _ & ->)|done].
    destruct Hpost as (c & c' & _ & _ & (_ & Hpa & Hch & _) & Hl & _). destruct Hs as [Hp Hs]. split; [congruence|].
    rewrite Hl, Hch. destruct Hs as [Hs|Hs]; [left|by right]. intros b a [Hin|Hin%list_elem_of_singleton]%elem_of_app; [by eapply Hs|done]. }
  destruct o as [r|e|]; cbn [bind_post]; [|done|done]. rewrite wp_ret. cbn [bind_post]. rewrite wp_try.
  destruct (default _ r) as [reply|e]; [|done]. destruct (negb _); [by rewrite wp_fail|]. rewrite wp_ok_or.
  destruct (find_prefixed _ _) as [id|]; [|done]. do 2 (destruct (negb _); [by rewrite wp_fail|]).
  by rewrite wp_modify, wp_ret.
Qed.

Abbreviation owns paths := (λ s : SessionState, owned paths (ss_tor s)) (only parsing).

Lemma tor_op_owned {A} paths (m : Comp TorSession TorError A) :
  preserves (owned paths) m → preserves (owns paths) (tor_op m).
Proof. by apply preserves_zoom. Qed.

Lemma start_tor_owned paths : preserves (owns paths) (start_tor_with_progress env).
Proof.
  unfold start_tor_with_progress. apply preserves_bind; [by apply preserves_modify|]. intros _.
  destruct (se_draw_fails env 0); [apply preserves_fail|].
  apply preserves_bind; [apply tor_op_owned, start_owned|]. intros outcome. apply preserves_self. intros s Hs.
  apply preserves_bind; [by apply preserves_modify|]. intros _.
  destruct (existsb _ _); [apply preserves_fail|apply preserves_try].
Qed.

Lemma preserves_draw_result {X E A E'} (I : X → Prop) (g : Rng → Result A E' * Rng) :
  preserves I (draw_result g : Comp X E (Result A E')).
Proof. intros s Hs. unfold wp, draw_result. destruct (g s.2) as [r rng]. by cbn. Qed.

Lemma host_setup_owned paths verifier nickname : preserves (owns paths) (host_setup env verifier nickname).
Proof.
  unfold host_setup. apply preserves_bind; [apply start_tor_owned|]. intros _.
  apply preserves_bind; [apply tor_op_owned, add_onion_owned|]. intros onion. apply preserves_try_bind. intros onion' _.
  apply preserves_bind; [apply preserves_draw|]. intros hid. apply preserves_bind; [apply preserves_draw|]. intros mid.
  apply preserves_bind; [apply preserves_draw_result|]. intros actor. apply preserves_try_bind. intros actor' _.
  apply preserves_bind; [|].
  - intros s Hs. unfold wp, start_room. by destruct (spawn_started actor' s.2) as [[parts|e]|].
  - intros [task initial]. apply preserves_try_bind. intros _ _. apply preserves_ret.
Qed.

Lemma host_body_owned paths verifier nickname be ee turns closing :
  preserves (owns paths) (host_session_body env verifier nickname be ee turns closing).
Proof.
  unfold host_session_body. apply preserves_bind; [apply host_setup_owned|]. intros [[cfg task] initial] s Hs.
  unfold wp, host_drive. by destruct (host_phases _ _ _ _ _ _ _) as [[e|e|] [d r]].
Qed.

Lemma join_body_owned paths invitation password be turns :
  preserves (owns paths) (join_session env invitation password be turns).
Proof.
  unfold join_session. apply preserves_bind; [apply start_tor_owned|]. intros _. apply preserves_try_bind. intros _ _.
  apply preserves_bind; [apply preserves_draw|]. intros admission s Hs. unfold wp, join_session_body.
  by destruct ((join_begin be;; join_loop turns) (JoinDriver_new be admission (ss_app s.1), s.2)) as [[e|e|] [d r]].
Qed.

(** Tor is gone: no process, no connection, no service; the last calls are to
    overwrite the cookie and to remove the directory, the one that was created
    for the session; and the process, if one was spawned, was waited for
    before, and killed where it did not end in time. *)
Definition tor_gone (log : list FsCall) (t : TorSession) : Prop :=
  tm_child (ts_manager t) = false ∧ tm_control (ts_manager t) = None ∧ tm_onion (ts_manager t) = None ∧
  ∃ dir before, FC_CreateDir dir 448 ∈ log ∧
    ts_log t = before ++ [TA_Fs (FC_Write (cookie_path (session_paths dir)) (replicate 32 Byte.x00)); TA_Fs (FC_RemoveAll dir)] ∧
    ((∃ b a, TA_Spawn b a ∈ before) → tv_spawn (se_tor env) = Ok tt →
       TA_Wait ∈ before ∧ (tv_wait (se_tor env) = CW_TimedOut → TA_Kill ∈ before)).

Lemma end_spawns m :
  Forall (λ a, ∀ x y, a ≠ TA_Spawn x y) (end_commands m) ∧ Forall (λ a, ∀ x y, a ≠ TA_Spawn x y) (end_process (se_tor env) m).
Proof. unfold end_commands, end_process. split; repeat case_match; by repeat constructor. Qed.

Lemma with_tor_gone `{PL : !PrimitiveLaws} binary app rng body run e :
  (∀ paths, preserves (owns paths) body) →
  with_tor env binary app rng body = Some run → sr_end run = Some e →
  match sr_tor run with Some t => tor_gone (sr_fs run) t | None => unprepared (tv_fs (se_tor env)) (sr_fs run) end.
Proof.
  intros Hbody Hrun He. revert Hrun. unfold with_tor.
  pose proof (prepare_wp (tv_fs (se_tor env)) binary (se_runtime_dir env) (se_metadata env) (tv_status (se_tor env)) rng) as Hprep.
  unfold wp in Hprep. destruct (prepare_with_binary _ _ _ _ _ _) as [[m|e'|] [log r]]; [|intros [= <-]; by eapply Hprep|done].
  destruct Hprep as (_ & Hprep & _). destruct (Hprep m eq_refl) as (root & dir & [_ _ _ Hdir [Hpaths Hchild]]). cbn [fst snd] in Hdir.
  pose proof (Hbody (session_paths dir) ({| ss_app := app; ss_tor := TorSession_new m (se_prepared_at env) |}, r)) as Hb.
  unfold wp in Hb. destruct (body _) as [o [s r']]. cbn [fst snd] in Hb.
  assert (Hown : o ≠ Panic → owned (session_paths dir) (ss_tor s)).
  { apply Hb. split; [done|]. left. intros b a Hin. by apply not_elem_of_nil in Hin. }
  assert (Hcreated : FC_CreateDir dir 448 ∈ log).
  { rewrite (dc_log _ _ _ _ _ Hdir). apply elem_of_app; right. set_solver. }
  assert (Hend : o ≠ Panic → ∀ tor r'', (shutdown (se_tor env) (ss_tor s, r')).2 = (tor, r'') → tor_gone log tor).
  { intros Ho tor r'' Hsh. destruct (Hown Ho) as [Hp Ho']. pose proof (shutdown_run (se_tor env) (ss_tor s, r')) as Ht.
    cbv zeta in Ht. cbn [fst snd] in Ht. rewrite Hsh in Ht. destruct Ht as (_ & Hl & H1 & H2 & H3). cbn [fst] in *. split_and!; [done..|].
    exists dir, (ts_log (ss_tor s) ++ end_commands (ts_manager (ss_tor s)) ++ end_process (se_tor env) (ts_manager (ss_tor s))).
    split; [done|]. rewrite Hl, Hp, <-!app_assoc. split; [done|]. intros (b & a & Hin) Hsp.
    destruct Ho' as [Hno|Hch].
    2: { unfold end_process. rewrite (Hch Hsp). split; [rewrite !elem_of_app; right; right; set_solver|].
         intros ->. rewrite !elem_of_app. right; right. set_solver. }
    exfalso. rewrite !elem_of_app in Hin. destruct Hin as [Hin|[Hin|Hin]]; [by eapply Hno| |].
    - by eapply (list.Forall_forall (λ a, ∀ x y, a ≠ TA_Spawn x y)) in Hin; [|apply end_spawns].
    - by eapply (list.Forall_forall (λ a, ∀ x y, a ≠ TA_Spawn x y)) in Hin; [|apply end_spawns]. }
  destruct (shutdown (se_tor env) (ss_tor s, r')) as [osh [tor r'']].
  destruct o as [[e'|]|e'|]; try done; intros [= <-]; cbn in He |- *; try done; by eapply Hend.
Qed.

(** The end of a session with what it had of Tor; one that never came to
    prepare it has left no directory, but for the one it may have made and
    failed to close or lock. *)
Definition session_clean (run : SessionRun) : Prop :=
  sr_end run ≠ None →
  match sr_tor run with Some t => tor_gone (sr_fs run) t | None => unprepared (tv_fs (se_tor env)) (sr_fs run) end.

Lemma host_session_clean `{PL : !PrimitiveLaws} password nickname binary be ee turns closing app rng run :
  run_host_session env password nickname binary be ee turns closing app rng = Some run → session_clean run.
Proof.
  unfold run_host_session, session_clean. destruct (PasswordVerifier_derive password rng) as [[v|e'] r];
    [|intros [= <-] _; apply unprepared_nil].
  intros Hrun Hend. destruct (sr_end run) as [e|] eqn:He; [|done].
  eapply with_tor_gone; [intros paths; apply host_body_owned|done|done].
Qed.

Lemma join_session_clean `{PL : !PrimitiveLaws} text password binary be turns app rng run :
  run_join_session env text password binary be turns app rng = Some run → session_clean run.
Proof.
  unfold run_join_session, session_clean. destruct (parse_invitation text) as [inv|e'];
    [|intros [= <-] _; apply unprepared_nil].
  intros Hrun Hend. destruct (sr_end run) as [e|] eqn:He; [|done].
  eapply with_tor_gone; [intros paths; apply join_body_owned|done|done].
Qed.

(** Tor never outlives a session. Whatever the network, the process, the file
    system, the terminal and the other side do, and wherever a host or a join session
    ends, in its preparation, its start, its setup or its loop: if it had prepared Tor,
    then the process it spawned, if any, has been waited for, the manager holds nothing
    any more, and the session's cookie has been overwritten and its directory removed.
    *)
Theorem tor_never_outlives_session `{PL : !PrimitiveLaws} binary be turns app rng run e t :
  (∃ password nickname ee closing, run_host_session env password nickname binary be ee turns closing app rng = Some run) ∨
  (∃ text password turns', run_join_session env text password binary be turns' app rng = Some run) →
  sr_end run = Some e → sr_tor run = Some t → tor_gone (sr_fs run) t.
Proof.
  intros Hrun He Ht. assert (Hclean : session_clean run).
  { destruct Hrun as [(password & nickname & ee & closing & Hrun)|(text & password & turns' & Hrun)];
      [by eapply host_session_clean|by eapply join_session_clean]. }
  unfold session_clean in Hclean. rewrite He, Ht in Hclean. by apply Hclean.
Qed.
End tor.

(** * The invitation on the host's screen *)

Section invitation.
Context `{PR : !Primitives} `{HA : !Hashes} `{NF : !Nfc} `{UP : !UriPrimitives} `{UL : !UriPrimitiveLaws} `{ET : !ErrorTexts}.
Context (cfg : HostConfig) (env : Env).

(** What is advertised: the token in force, and what the screen shows. *)
Definition advertised (d : HostDriver) := (hd_token d, rv_invitation <$> room_view (hd_app d)).

Definition keeps_invitation (f : RoomView → RoomView) : Prop := ∀ v, rv_invitation (f v) = rv_invitation v.

Lemma keeps_adv_view f : keeps_invitation f → keeps advertised (on_view f).
Proof.
  intros Hf. apply keeps_modify. intros d. unfold advertised, with_room_view, room_view. cbn.
  destruct (app_screen (hd_app d)) as [| | | | | |v| |] eqn:E; cbn; rewrite ?E; try done. by rewrite Hf.
Qed.

Lemma adv_show_requests requests now v : rv_invitation (show_requests requests now v) = rv_invitation v.
Proof.
  unfold show_requests. change (rv_invitation v) with (rv_invitation (set_requests requests v)).
  generalize (set_requests requests v).
  match goal with |- ∀ v, rv_invitation (foldl _ v ?l) = _ => generalize l end.
  intros lines. induction lines as [|x lines IH]; intros v'; [done|]. cbn [foldl]. by rewrite IH.
Qed.

Lemma keeps_adv_net_send c m : keeps advertised (net_send env c m).
Proof. unfold net_send. solve_keeps. Qed.
Lemma keeps_adv_with_chat {A} (m : Comp ChatSession ChatError A) : keeps advertised (with_chat m).
Proof. intros s. unfold with_chat, zoom. by destruct (m _) as [[] [? ?]]. Qed.

Ltac adv_step :=
  first
  [ progress unfold install_wrap, client_message, announce_timeout, show_error, show_system, show_notice, refresh_host_requests,
      refresh_host_members, room_send, close_connection, remove_connection, set_chat, sync_members_from_session
  | apply keeps_adv_with_chat | apply keeps_adv_net_send
  | apply keeps_adv_view; intros ?; reflexivity
  | keeps_step ].

Lemma keeps_adv_notice notice : (∀ token, notice ≠ HN_InvitationRotated token) → keeps advertised (host_notice cfg env notice).
Proof.
  intros Hn. unfold host_notice. destruct notice; try (by edestruct Hn); repeat adv_step.
  apply keeps_adv_view. intros v. apply adv_show_requests.
Qed.

Lemma keeps_adv_message m : keeps advertised (host_message cfg env m).
Proof. unfold host_message. destruct m; repeat adv_step. Qed.

(** The room's screen shows an invitation that parses back to the session's
    address, its port and the token in force. *)
Definition usable_invitation (d : HostDriver) : Prop :=
  token_length_ok (hd_token d) = true ∧
  ∃ view uri, room_view (hd_app d) = Some view ∧ rv_invitation view = Some uri ∧
    parse_invitation uri = Ok {| inv_onion_address := hg_onion_address cfg; inv_port := VIRTUAL_PORT;
                                 inv_token := hd_token d |}.

Lemma usable_advertised d d' : advertised d = advertised d' → usable_invitation d → usable_invitation d'.
Proof.
  unfold advertised. intros [= Et Ev] (Ht & view & uri & Hv & Hu & Hp).
  unfold usable_invitation. rewrite <-Et. split; [done|]. rewrite Hv in Ev. cbn in Ev.
  destruct (room_view (hd_app d')) as [view'|]; [|done]. injection Ev as Ev. exists view', uri. split_and!; [done|congruence|done].
Qed.

Lemma rotated_app l1 l2 : rotated (l1 ++ l2) = rotated l1 ++ rotated l2.
Proof. apply omap_app. Qed.

Lemma keeps_adv_action a : rotated [a] = [] → keeps advertised (handle_host_action cfg env a).
Proof.
  intros Ha. destruct a as [c m|c|notice]; cbn [handle_host_action].
  - destruct (_ =? _)%N; [apply keeps_adv_message|]. repeat adv_step.
  - repeat adv_step.
  - apply keeps_adv_notice. by intros token ->.
Qed.

Lemma rotate_usable token s :
  validate_onion_address (hg_onion_address cfg) = Ok tt → token_length_ok token = true →
  is_Some (room_view (hd_app s.1)) →
  wp (rotate_invitation cfg env token) (λ o s', o ≠ Panic → usable_invitation s'.1 ∧ hd_token s'.1 = token) s.
Proof.
  intros Ha Ht [view Hv]. unfold rotate_invitation. rewrite wp_modify. unfold Invitation_new. rewrite Ha. cbn [result_bind].
  unfold VIRTUAL_PORT at 1. change (80 =? 0)%N with false. cbv iota. rewrite Ht. cbn [negb]. unfold on_view. rewrite !wp_modify, wp_modify_last. intros _.
  unfold usable_invitation. cbn [fst snd hd_token hd_app hd_put_app hd_put_token]. split; [|done]. split; [done|].
  destruct (app_screen (hd_app s.1)) as [| | | | | |v| |] eqn:E; unfold room_view in Hv; rewrite E in Hv; try done. injection Hv as ->.
  unfold with_room_view, room_view. rewrite E. cbn [app_screen set_screen]. eexists _, _. split_and!; [done|reflexivity|].
  by apply printed_parses.
Qed.

(** Every batch of actions whose tokens have the length of tokens keeps it. *)
Lemma actions_usable actions :
  validate_onion_address (hg_onion_address cfg) = Ok tt →
  Forall (λ token, token_length_ok token = true) (rotated actions) →
  preserves usable_invitation (handle_host_actions cfg env actions).
Proof.
  intros Ha. induction actions as [|a actions IH]; intros Hall; [apply preserves_ret|]. cbn [handle_host_actions].
  change (a :: actions) with ([a] ++ actions) in Hall. rewrite rotated_app in Hall. apply list.Forall_app in Hall as [H1 H2].
  apply preserves_bind; [|intros _; by apply IH].
  destruct (rotated [a]) as [|token l] eqn:E; [by eapply keeps_preserves, keeps_adv_action; [apply usable_advertised|]|].
  destruct a as [| |[]]; try done. injection E as <- <-. cbn [handle_host_action host_notice].
  intros s (_ & view & _ & Hv & _). eapply wp_mono; [|apply rotate_usable; [done|by apply list.Forall_cons_1 in H1 as [? _]|by eexists]].
  intros o s' H Ho. by apply H.
Qed.
End invitation.

(** ** The setup of a host session *)

Section setup.
Context `{PR : !Primitives} `{PL : !PrimitiveLaws} `{HA : !Hashes} `{NF : !Nfc} `{UP : !UriPrimitives} `{UL : !UriPrimitiveLaws}.
Context `{ET : !ErrorTexts} `{ST : !SessionTexts}.
Context (env : SessionEnv).

(** The address is the one that Tor's reply to ADD_ONION names: the command is
    the next on the control connection, and the reply what is read there. *)
Definition named_by_tor (t : TorSession) (address : rstring) : Prop :=
  ∃ c reply c' rest id, let io := tv_command (se_tor env) (ts_calls t) in
    tm_control (ts_manager t) = Some c ∧
    Tor.command (add_onion_command VIRTUAL_PORT (tm_paths (ts_manager t))) (ci_write io) c (ts_socket t ++ ci_reads io)
      = (Ok reply, c', rest) ∧
    Reply_is_ok reply = true ∧ find_prefixed (lit "ServiceID=") (re_lines reply) = Some id ∧ address = id ++ lit ".onion".

Lemma add_onion_valid s : wp (add_onion (se_tor env) VIRTUAL_PORT)
  (λ o _, ∀ service, o = Done service → validate_onion_address (on_onion_address service) = Ok tt ∧
     named_by_tor s.1 (on_onion_address service)) s.
Proof.
  unfold add_onion. unfold VIRTUAL_PORT at 1. change (80 =? 0)%N with false. cbv iota. rewrite wp_self. cbv zeta.
  unfold control_command. rewrite !wp_bind. eapply wp_mono; [|apply control_call_wp].
  intros [r|e|] s1; cbn [call_post bind_post]; [|done|done]. intros (c & c' & Ec & _ & _ & _ & _ & Hok).
  rewrite wp_ret. cbn [bind_post]. rewrite wp_try. destruct r as [[reply|e]|]; cbn [default from_option id]; [|done|done].
  destruct (Reply_is_ok reply) eqn:Er; cbn [negb]; [|done]. rewrite wp_ok_or. destruct (find_prefixed _ _) as [sid|] eqn:Ef; [|done].
  destruct (str_len sid =? 56)%N; cbn [negb]; [|done]. destruct (is_valid_onion_address _) eqn:Ev; cbn [negb]; [|done].
  rewrite wp_modify, wp_ret. intros service [= <-]. split; [by apply valid_onion_validates|].
  eexists c, reply, c', _, sid. split_and!; [done|by apply Hok|done..].
Qed.

Lemma host_setup_wp verifier nickname s :
  wp (host_setup env verifier nickname) (λ o _, ∀ cfg task initial, o = Done (cfg, task, initial) →
    validate_onion_address (hg_onion_address cfg) = Ok tt ∧ hg_verifier cfg = verifier ∧
    (∃ s1, start_tor_with_progress env s = (Done tt, s1) ∧ named_by_tor (ss_tor s1.1) (hg_onion_address cfg)) ∧
    ∃ rng a r r', create Limits_default HOST_CONNECTION nickname (hg_host_identity cfg) (hg_client_identity cfg)
        Timeouts_default rng = (Ok a, r) ∧ hg_session_id cfg = ra_session_id a ∧
      spawn_started a r' = Some (Ok (task, initial)) ∧ r' = r) s.
Proof.
  unfold host_setup. rewrite wp_bind. unfold wp at 1. destruct (start_tor_with_progress env s) as [[[]|e|] s1] eqn:Est; cbn [bind_post fst snd]; [|done|done].
  rewrite wp_bind. unfold wp at 1, tor_op, zoom.
  pose proof (add_onion_valid (ss_tor s1.1, s1.2)) as Hv. unfold wp in Hv.
  destruct (add_onion _ _ _) as [[onion|e|] [t r1]]; cbn [bind_post fst snd] in *; [|by rewrite wp_try|done].
  rewrite wp_try, wp_draw. cbn [fst snd]. destruct (HostIdentity_generate r1) as [[hid|] r2]; [|done].
  rewrite wp_draw. cbn [fst snd]. destruct (MemberIdentity_generate r2) as [[mid|] r3]; [|done].
  rewrite wp_bind. unfold wp at 1, draw_result. cbn [fst snd].
  destruct (create _ _ _ _ _ _ r3) as [[a|e] r4] eqn:Ecr; cbn [bind_post fst snd]; [|by rewrite wp_try].
  rewrite wp_try, wp_bind. unfold wp at 1, start_room. cbn [fst snd].
  destruct (spawn_started a r4) as [[[task initial]|e]|] eqn:Esp; cbn [bind_post fst snd]; [|done|done].
  rewrite wp_try. destruct (se_listen env); [|done]. rewrite wp_ret. intros cfg task' initial' [= <- <- <-].
  cbn. destruct (Hv _ eq_refl) as [H1 H2]. split_and!; [done|done|by exists s1|]. by exists r3, a, r4, r4.
Qed.

(** The room's first actions carry its first token, which has 32 bytes. *)
Lemma first_token nickname hid mid rng a r task initial :
  create Limits_default HOST_CONNECTION nickname hid mid Timeouts_default rng = (Ok a, r) →
  spawn_started a r = Some (Ok (task, initial)) →
  ∃ rest, initial = NotifyHost (HN_InvitationRotated (ra_token a)) :: rest ∧ rotated rest = [] ∧ length (ra_token a) = 32.
Proof.
  intros Hcr Hsp. assert (Hlen : length (ra_token a) = 32).
  { revert Hcr. unfold create. destruct (validate_nickname _ _); [|done]. destruct (RoomSessionId_generate rng) as [[sid|] r1]; [|done].
    destruct (random_bytes 32 r1) as [[token|] r2] eqn:E; [|done]. apply random_bytes_Ok in E. by intros [= <- _]. }
  revert Hsp. unfold spawn_started. destruct (start (a, r)) as [[acts|e|] s'] eqn:Est; [|done|done]. intros [= _ ->].
  enough (wp start (λ o _, ∀ acts, o = Done acts → ∃ rest, acts = NotifyHost (HN_InvitationRotated (ra_token a)) :: rest ∧ rotated rest = []) (a, r)) as Hw.
  { unfold wp in Hw. rewrite Est in Hw. destruct (Hw initial eq_refl) as (rest & -> & Hr). by exists rest. }
  unfold start. rewrite wp_self. cbn [fst snd]. destruct (negb _); [done|]. rewrite !wp_modify, wp_self. cbn [fst snd].
  eapply wp_mono; [|apply begin_wp]. intros o s'' Ho acts' ->. destruct Ho as (key & l & _ & _ & _ & _ & -> & Hl).
  exists l. split; [done|]. clear -Hl. induction Hl as [|m act ms l (wk & env & rng & rng' & _ & _ & ->) _ IH]; [done|]. unfold rotated in *. csimpl. done.
Qed.

(** C19.  The sessions compose. What the setup of a host session has started, with
    Tor's onion service, fresh identities, the room and its listener, is a system as the
    theorems on rooms suppose it; its address is the one that Tor named in its reply to
    the command that creates the service, the first command after the start of Tor; and
    what the host's screen shows when the loop begins is an invitation that the
    participant's side parses to that address, its port and the token in force, the only
    one the room has issued. *)
Theorem host_setup_starts_system verifier nickname s cfg task initial s' begin_env app r1 d r2 :
  host_setup env verifier nickname s = (Done (cfg, task, initial), s') →
  host_begin cfg begin_env initial (HostDriver_new cfg begin_env nickname app, r1) = (Done tt, (d, r2)) →
  system_started cfg initial {| sy_driver := d; sy_rng := r2; sy_running := true; sy_task := task;
    sy_events := hd_sent d; sy_batches := []; sy_history := []; sy_handled := [] |} ∧
  hg_verifier cfg = verifier ∧
  (∃ s1, start_tor_with_progress env s = (Done tt, s1) ∧ named_by_tor (ss_tor s1.1) (hg_onion_address cfg)) ∧
  usable_invitation cfg d ∧ (∃ token, hd_token d = token ∧ rotated initial = [token]).
Proof.
  intros Hrun Hbegin. pose proof (host_setup_wp verifier nickname s) as Hw. unfold wp in Hw. rewrite Hrun in Hw.
  destruct (Hw cfg task initial eq_refl) as (Hv & Hver & Hnamed & rng & a & r & r' & Hcr & Hsid & Hsp & ->). clear Hw.
  split; [by eapply system_starts|]. split; [done|]. split; [exact Hnamed|]. destruct (first_token _ _ _ _ _ _ _ _ Hcr Hsp) as (rest & -> & Hrest & Hlen).
  assert (Htok : token_length_ok (ra_token a) = true) by (unfold token_length_ok; by rewrite Hlen).
  enough (wp (host_begin cfg begin_env (NotifyHost (HN_InvitationRotated (ra_token a)) :: rest))
    (λ o s', o ≠ Panic → usable_invitation cfg s'.1 ∧ hd_token s'.1 = ra_token a) (HostDriver_new cfg begin_env nickname app, r1)) as Hw.
  { unfold wp in Hw. rewrite Hbegin in Hw. destruct Hw as [Hu Ht]; [done|]. split; [done|]. exists (ra_token a). split; [done|].
    unfold rotated in *. csimpl. by rewrite Hrest. }
  unfold host_begin. cbn [handle_host_actions handle_host_action host_notice]. rewrite wp_bind.
  eapply wp_mono; [|apply rotate_usable; [done|done|by eexists]]. intros [u|e|] s1 Hs1; cbn [bind_post]; [|done|done].
  destruct (Hs1 ltac:(done)) as [Hu Ht].
  assert (Hkeep : keeps advertised (handle_host_actions cfg begin_env rest)).
  { clear -Hrest. induction rest as [|act rest IH]; [apply keeps_ret|]. cbn [handle_host_actions].
    change (act :: rest) with ([act] ++ rest) in Hrest. rewrite rotated_app in Hrest. apply app_eq_nil in Hrest as [H1 H2].
    apply keeps_bind; [by apply keeps_adv_action|intros _; by apply IH]. }
  eapply keeps_wp; [exact Hkeep|]. intros o s2 Hs2 _. split; [by eapply usable_advertised; [symmetry|]|].
  unfold advertised in Hs2. injection Hs2 as Hs2 _. congruence.
Qed.

(** What a join session's loop reaches is what the theorems on it suppose. *)
Lemma join_run_reachable invitation password rng admission r be app turns s :
  ClientAdmission_new invitation password rng = (Ok admission, r) →
  (join_begin be;; join_loop turns) (JoinDriver_new be admission app, r) = (Done tt, s) →
  join_reachable invitation password s.
Proof.
  intros Hnew Hrun. unfold mbind, M_bind in Hrun.
  destruct (join_begin be (JoinDriver_new be admission app, r)) as [[[]|e|] s0] eqn:E; [|done|done].
  assert (Hr : join_reachable invitation password s0) by (destruct s0; by eapply jr_start).
  clear E. revert s0 Hr Hrun. induction turns as [|t turns IH]; intros s0 Hr; cbn [join_loop]; [by intros [= <-]|].
  unfold mbind at 1, M_bind at 1. destruct (join_turn _ _ _ s0) as [[[]|e|] s1] eqn:E; [|done|done].
  apply IH. by eapply jr_turn.
Qed.
End setup.
