(* ===== verification/Program.v ===== *)
(** [src/main.rs], the entry of [src/app.rs] and [src/ui/terminal.rs]: the
    arguments, the terminal that is entered and left, the menu around the
    sessions, and the end of the program.

    A run is given what the terminal answers and, turn by turn, what the menu
    loop meets: whether its drawing fails, what was typed, and all that a
    session started by it will meet. The bounded queue between the thread that
    reads the terminal and the program is a system of its own, in which either
    side moves when it can. *)
From Stdlib Require Import Strings.String.
From S2P Require Export ScreenProps SessionsProps.

(** * Arguments *)

(** [trim_start_matches] with a string: the prefix is removed as often as it
    is there. *)
Fixpoint trim_prefixes (fuel : nat) (prefix s : rstring) : rstring :=
  match fuel with
  | O => s
  | S fuel => match StrOps.strip_prefix prefix s with Some rest => trim_prefixes fuel prefix rest | None => s end
  end.

Definition trim_start_matches (prefix s : rstring) : rstring := trim_prefixes (length s) prefix s.

Definition TOR_BINARY_FLAG : rstring := lit "--tor-binary=".

Inductive Entry :=
| EN_Run (tor_binary : option rstring) | EN_MissingPath | EN_Version | EN_Help | EN_Unknown.

Definition main_entry (args : list rstring) : Entry :=
  match args with
  | [] => EN_Run None
  | [flag; path] => if is_lit flag "--tor-binary" then EN_Run (Some path) else EN_Unknown
  | [argument] =>
      match StrOps.strip_prefix TOR_BINARY_FLAG argument with
      | Some _ =>
          let path := trim_start_matches TOR_BINARY_FLAG argument in
          if non_empty path then EN_Run (Some path) else EN_MissingPath
      | None =>
          if is_lit argument "--version" || is_lit argument "-V" then EN_Version
          else if is_lit argument "--help" || is_lit argument "-h" then EN_Help
          else EN_Unknown
      end
  | _ => EN_Unknown
  end.

(** * The terminal *)

Record TerminalModes := { tl_raw : bool; tl_alternate : bool; tl_paste : bool; tl_cursor_hidden : bool }.

Definition terminal_normal : TerminalModes :=
  {| tl_raw := false; tl_alternate := false; tl_paste := false; tl_cursor_hidden := false |}.

Inductive TerminalCommand := TK_Raw (on : bool) | TK_AlternateScreen (on : bool) | TK_BracketedPaste (on : bool) | TK_Cursor (shown : bool).

Definition terminal_command (t : TerminalModes) (c : TerminalCommand) : TerminalModes :=
  match c with
  | TK_Raw on => {| tl_raw := on; tl_alternate := tl_alternate t; tl_paste := tl_paste t; tl_cursor_hidden := tl_cursor_hidden t |}
  | TK_AlternateScreen on => {| tl_raw := tl_raw t; tl_alternate := on; tl_paste := tl_paste t; tl_cursor_hidden := tl_cursor_hidden t |}
  | TK_BracketedPaste on => {| tl_raw := tl_raw t; tl_alternate := tl_alternate t; tl_paste := on; tl_cursor_hidden := tl_cursor_hidden t |}
  | TK_Cursor shown => {| tl_raw := tl_raw t; tl_alternate := tl_alternate t; tl_paste := tl_paste t; tl_cursor_hidden := negb shown |}
  end.

(** [execute!], which fails after the first [n] commands where the answer is
    [Some n]; and the switch of the raw mode. *)
Definition execute (answer : option nat) (commands : list TerminalCommand) (t : TerminalModes) : bool * TerminalModes :=
  match answer with
  | None => (true, foldl terminal_command t commands)
  | Some n => (false, foldl terminal_command t (take n commands))
  end.

Definition set_raw_mode (answer : bool) (on : bool) (t : TerminalModes) : bool * TerminalModes :=
  (answer, if answer then terminal_command t (TK_Raw on) else t).

(** What the terminal answers on entry, to the building of ratatui's
    terminal, and on the way out. *)
Record TerminalEnv := {
  te_raw : bool; te_enter : option nat; te_new : bool; te_leave : option nat; te_cooked : bool }.

(** The commands of [drop], which [enter] has a copy of. *)
Definition terminal_restore (env : TerminalEnv) (t : TerminalModes) : TerminalModes :=
  let t := (execute (te_leave env) [TK_BracketedPaste false; TK_AlternateScreen false; TK_Cursor true] t).2 in
  (set_raw_mode (te_cooked env) false t).2.

Definition terminal_enter (env : TerminalEnv) (t : TerminalModes) : bool * TerminalModes :=
  let '(ok, t) := set_raw_mode (te_raw env) true t in
  if negb ok then (false, t) else
  let '(ok, t) := execute (te_enter env) [TK_AlternateScreen true; TK_BracketedPaste true; TK_Cursor false] t in
  if negb ok then (false, (set_raw_mode (te_cooked env) false t).2) else
  if negb (te_new env) then (false, terminal_restore env t) else
  (true, t).

(** * The menu around the sessions *)

(** All that a session meets. *)
Record SessionScript := {
  sp_env : SessionEnv; sp_begin : Env; sp_exit : Env; sp_host_turns : list HostTurn; sp_join_turns : list JoinTurn;
  sp_closing : option (list RoomAction); sp_rng : Rng }.

Record MenuTurn := {
  mu_draw_failed : bool; mu_input : option TerminalInput; mu_now : Clock; mu_session : SessionScript }.

(** How the loop stands: over, panicked in a session, or still running when
    the turns are used up. *)
Inductive MenuEnd := ME_Exit (result : Result bool unit) | ME_Panic | ME_Running.

Section program.
Context `{Primitives} `{Hashes} `{Nfc} `{UriPrimitives} `{ErrorTexts} `{SessionTexts}.
Context (tor_binary : option rstring).

Abbreviation MenuRun := (MenuEnd * App * list (SessionScript * SessionRun))%type (only parsing).

(** A session that was started, and what follows its end. *)
Definition menu_session (t : MenuTurn) (app : App) (session : option SessionRun) (continue : App → option MenuRun)
    : option MenuRun :=
  match session with
  | None => Some (ME_Panic, app, [])
  | Some run =>
      let run' := (mu_session t, run) in
      match sr_end run with
      | None => Some (ME_Running, sr_app run, [run'])
      | Some e =>
          match after_session e (sr_app run) with
          | MS_Exit result => Some (ME_Exit result, sr_app run, [run'])
          | MS_Continue app | MS_Host _ _ app | MS_Join _ _ app =>
              '(e, app, runs) ← continue app; Some (e, app, run' :: runs)
          end
      end
  end.

Fixpoint menu_loop (turns : list MenuTurn) (app : App) : option MenuRun :=
  match turns with
  | [] => Some (ME_Running, app, [])
  | t :: turns =>
      step ← menu_turn (mu_draw_failed t) (mu_input t) (mu_now t) app;
      let sp := mu_session t in
      match step with
      | MS_Continue app => menu_loop turns app
      | MS_Exit result => Some (ME_Exit result, app, [])
      | MS_Host password nickname app =>
          menu_session t app
            (run_host_session (sp_env sp) password nickname tor_binary (sp_begin sp) (sp_exit sp) (sp_host_turns sp)
               (sp_closing sp) app (sp_rng sp))
            (menu_loop turns)
      | MS_Join invitation password app =>
          menu_session t app
            (run_join_session (sp_env sp) invitation password tor_binary (sp_begin sp) (sp_join_turns sp) app (sp_rng sp))
            (menu_loop turns)
      end
  end.
End program.

Inductive ProgramOutcome := PO_Exit (success : bool) | PO_Panic | PO_Running.

Record ProgramEnd := {
  pe_outcome : ProgramOutcome; pe_terminal : TerminalModes; pe_sessions : list (SessionScript * SessionRun) }.

Section main.
Context `{Primitives} `{Hashes} `{Nfc} `{UriPrimitives} `{ErrorTexts} `{SessionTexts}.

(** The guard of the terminal is dropped however the loop is left, by a panic
    too. *)
Definition run_with_tor_binary (env : TerminalEnv) (tor_binary : option rstring) (turns : list MenuTurn) (t : TerminalModes)
    : ProgramEnd :=
  let '(entered, t) := terminal_enter env t in
  if negb entered then {| pe_outcome := PO_Exit false; pe_terminal := t; pe_sessions := [] |} else
  match menu_loop tor_binary turns App_new with
  | None => {| pe_outcome := PO_Panic; pe_terminal := terminal_restore env t; pe_sessions := [] |}
  | Some (ME_Panic, _, runs) => {| pe_outcome := PO_Panic; pe_terminal := terminal_restore env t; pe_sessions := runs |}
  | Some (ME_Running, _, runs) => {| pe_outcome := PO_Running; pe_terminal := t; pe_sessions := runs |}
  | Some (ME_Exit result, _, runs) =>
      {| pe_outcome := PO_Exit (exit_success result); pe_terminal := terminal_restore env t; pe_sessions := runs |}
  end.

Definition main (env : TerminalEnv) (args : list rstring) (turns : list MenuTurn) (t : TerminalModes) : ProgramEnd :=
  let exit success := {| pe_outcome := PO_Exit success; pe_terminal := t; pe_sessions := [] |} in
  match main_entry args with
  | EN_Run tor_binary => run_with_tor_binary env tor_binary turns t
  | EN_MissingPath => exit false
  | EN_Version | EN_Help => exit true
  | EN_Unknown => exit false
  end.
End main.

(** * The reader of the terminal *)

(** What crossterm reads. *)
Inductive RawEvent := RV_Key (is_press : bool) (key : KeyEvent) | RV_Paste (text : rstring) | RV_Other.

(** What the reader sends on. *)
Definition reader_input (e : RawEvent) : option TerminalInput :=
  match e with
  | RV_Key true key => Some (TI_Key key)
  | RV_Paste text => Some (TI_Paste text)
  | RV_Key false _ | RV_Other => None
  end.

(** The reader before its test of the flag, before its poll, blocked in
    [blocking_send], or over; the program in its loop, in the join of the
    reader, or over. *)
Inductive ReaderState := RS_Check | RS_Poll | RS_Sending (i : TerminalInput) | RS_Done.
Inductive MainState := MN_Looping | MN_Joining | MN_Exited.

Record InputSystem := { is_queue : list TerminalInput; is_reader : ReaderState; is_main : MainState; is_stop : bool }.

Definition KEY_QUEUE : usize := 128.

Definition InputSystem_new : InputSystem :=
  {| is_queue := []; is_reader := RS_Check; is_main := MN_Looping; is_stop := false |}.

(** The moves: the reader's, with what [poll] and [read] answer, and the
    program's. *)
Inductive InputMove :=
| IM_Check
| IM_Poll (event : Result (option RawEvent) unit)
| IM_Send
| IM_Recv
| IM_Leave
| IM_Join.

Definition put_reader (r : ReaderState) (s : InputSystem) : InputSystem :=
  {| is_queue := is_queue s; is_reader := r; is_main := is_main s; is_stop := is_stop s |}.

(** [None] where the move cannot be made. *)
Definition input_move (m : InputMove) (s : InputSystem) : option InputSystem :=
  match m, is_reader s, is_main s with
  | IM_Check, RS_Check, _ => Some (put_reader (if is_stop s then RS_Done else RS_Poll) s)
  | IM_Poll event, RS_Poll, _ =>
      Some (put_reader match event with
                       | Err _ => RS_Done
                       | Ok None => RS_Check
                       | Ok (Some e) => match reader_input e with Some i => RS_Sending i | None => RS_Check end
                       end s)
  | IM_Send, RS_Sending i, _ =>
      if (N.of_nat (length (is_queue s)) <? KEY_QUEUE)%N
      then Some {| is_queue := is_queue s ++ [i]; is_reader := RS_Check; is_main := is_main s; is_stop := is_stop s |}
      else None
  | IM_Recv, _, MN_Looping =>
      match is_queue s with
      | _ :: queue => Some {| is_queue := queue; is_reader := is_reader s; is_main := MN_Looping; is_stop := is_stop s |}
      | [] => None
      end
  | IM_Leave, _, MN_Looping =>
      Some {| is_queue := is_queue s; is_reader := is_reader s; is_main := MN_Joining; is_stop := true |}
  | IM_Join, RS_Done, MN_Joining =>
      Some {| is_queue := is_queue s; is_reader := RS_Done; is_main := MN_Exited; is_stop := is_stop s |}
  | _, _, _ => None
  end.

Fixpoint input_moves (ms : list InputMove) (s : InputSystem) : option InputSystem :=
  match ms with
  | [] => Some s
  | m :: ms => s ← input_move m s; input_moves ms s
  end.

(** * Leaving *)

Lemma trim_prefixes_spec fuel prefix s :
  prefix ≠ [] → (length s <= fuel)%nat →
  StrOps.strip_prefix prefix (trim_prefixes fuel prefix s) = None ∧
  ∃ n, s = concat (replicate n prefix) ++ trim_prefixes fuel prefix s.
Proof.
  intros Hp. revert s. induction fuel as [|fuel IH]; intros s Hs; cbn [trim_prefixes].
  - destruct s; [|simpl in Hs; lia]. split; [by destruct prefix|]. by exists 0%nat.
  - destruct (StrOps.strip_prefix prefix s) as [rest|] eqn:E; [|split; [done|by exists 0%nat]].
    apply strip_prefix_Some in E as ->. destruct (IH rest) as [Hn [n Hr]].
    { rewrite length_app in Hs. destruct prefix; [done|]. simpl in Hs. lia. }
    split; [done|]. exists (S n). cbn [replicate concat]. rewrite <-app_assoc. by rewrite <-Hr.
Qed.

(** The path after the flag is what is left when the flag is removed as often
    as it is there. *)
Lemma trim_start_matches_spec prefix s :
  prefix ≠ [] →
  StrOps.strip_prefix prefix (trim_start_matches prefix s) = None ∧
  ∃ n, s = concat (replicate n prefix) ++ trim_start_matches prefix s.
Proof. intros Hp. by apply trim_prefixes_spec. Qed.

(** A terminal that obeys on the way out is as it was. *)
Lemma restore_normal env t :
  te_leave env = None → te_cooked env = true → terminal_restore env t = terminal_normal.
Proof. intros Hl Hc. unfold terminal_restore, execute, set_raw_mode. by rewrite Hl, Hc. Qed.

Lemma enter_fails_normal env t' :
  te_leave env = None → te_cooked env = true → te_enter env = None ∨ te_enter env = Some 0%nat →
  terminal_enter env terminal_normal = (false, t') → t' = terminal_normal.
Proof.
  intros Hl Hc He. unfold terminal_enter, set_raw_mode at 1. destruct (te_raw env); cbn [negb]; [|by intros [= <-]].
  destruct He as [He|He]; rewrite He; cbn [execute negb take foldl].
  - destruct (te_new env); cbn [negb]; intros [= <-]. by apply restore_normal.
  - intros [= <-]. unfold set_raw_mode. by rewrite Hc.
Qed.

Section leaving.
Context `{PR : !Primitives} `{PL : !PrimitiveLaws} `{HA : !Hashes} `{NF : !Nfc} `{UP : !UriPrimitives} `{ET : !ErrorTexts} `{ST : !SessionTexts}.

Definition sessions_clean (runs : list (SessionScript * SessionRun)) : Prop :=
  Forall (λ r, session_clean (sp_env r.1) r.2) runs.

Definition input_typed (i : TerminalInput) : Prop :=
  match i with TI_Key key => key_ok key | TI_Paste text => Forall (λ c, is_scalar c = true) text end.
Definition turn_typed (t : MenuTurn) : Prop := ∀ i, mu_input t = Some i → input_typed i.

(** A turn of the menu does not panic. *)
Lemma menu_turn_ok draw_failed input now app :
  (∀ i, input = Some i → input_typed i) → screen_ok (app_screen app) →
  ∃ step, menu_turn draw_failed input now app = Some step ∧
    match step with MS_Continue app' | MS_Host _ _ app' | MS_Join _ _ app' => screen_ok (app_screen app') | MS_Exit _ => True end.
Proof.
  intros Hi Hs. unfold menu_turn. destruct draw_failed; [by eexists|]. destruct input as [[key|text]|]; [| |by eexists].
  - destruct (is_quit_key key); [by eexists|].
    destruct (app_input_ok (AI_Key key) now app Hs (Hi _ eq_refl)) as (action & app' & Hr & Hs'). cbn [app_input] in Hr.
    rewrite Hr. cbn [mbind option_bind]. eexists. split; [done|]. by destruct action.
  - destruct (app_input_ok (AI_Paste text) now app Hs (Hi _ eq_refl)) as (action & app' & Hr & Hs'). cbn [app_input] in Hr.
    destruct (on_paste text app) as [a|]; [|done]. injection Hr as _ ->. by eexists.
Qed.

(** The loop goes on or ends, and what it has run is clean; [P] is what
    cleaning means for the sessions of its turns. *)
Definition menu_run_ok (r : option (MenuEnd * App * list (SessionScript * SessionRun))) : Prop :=
  match r with Some (_, _, runs) => sessions_clean runs | None => False end.

Lemma menu_session_ok t app session continue :
  (∀ run, session = Some run → session_clean (sp_env (mu_session t)) run) →
  (∀ app, screen_ok (app_screen app) → menu_run_ok (continue app)) →
  menu_run_ok (menu_session t app session continue).
Proof.
  intros Hrun Hk. unfold menu_session. destruct session as [run|]; [|constructor]. specialize (Hrun run eq_refl).
  assert (H1 : sessions_clean [(mu_session t, run)]) by (by apply list.Forall_singleton).
  destruct (sr_end run) as [e|]; [|done].
  assert (Hgo : ∀ app, screen_ok (app_screen app) →
    menu_run_ok ('(e, app, runs) ← continue app; Some (e, app, (mu_session t, run) :: runs))).
  { intros app' Hs. specialize (Hk app' Hs). destruct (continue app') as [[[e' a'] runs]|]; [|done]. by constructor. }
  destruct e; cbn [after_session]; [apply Hgo; done|done|apply Hgo; done].
Qed.

Lemma menu_loop_ok binary turns : Forall turn_typed turns → ∀ app,
  screen_ok (app_screen app) → menu_run_ok (menu_loop binary turns app).
Proof.
  induction 1 as [|t turns Ht _ IH]; intros app Hs; cbn [menu_loop]; [constructor|].
  destruct (menu_turn_ok (mu_draw_failed t) (mu_input t) (mu_now t) app Ht Hs) as (step & -> & Hstep). cbn [mbind option_bind].
  destruct step as [app'|result|password nickname app'|invitation password app']; [by apply IH|constructor| |].
  - apply menu_session_ok; [|exact IH]. intros run Hrun. eapply host_session_clean; [exact PL|exact Hrun].
  - apply menu_session_ok; [|exact IH]. intros run Hrun. eapply join_session_clean; [exact PL|exact Hrun].
Qed.

(** C18.  What the program leaves behind. Whatever its arguments, whatever is typed,
    and whatever the network, the processes, the file system and the other side do in
    its sessions: the menu itself never panics; where the entry into the terminal did
    not fail half way, a terminal that obeys on the way out is, however the program
    ends, as it was found; and every session that ended without a panic, a host's or a
    participant's, is accounted for. One that had prepared Tor, wherever it ended, in
    its start, its setup or its loop, has waited for the process it spawned, and killed
    it where it did not end in time, holds nothing of it any more, and its last calls
    are to overwrite the cookie and to remove the session's directory, whose failures
    are ignored. One that never prepared it has made no session directory, but for one
    case: the directory was created and then could not be given its mode or its lock,
    the last call made; it is left in place, as a finding says. The common directory
    above the sessions' is kept. *)
Theorem program_leaves_nothing_behind env args turns :
  te_leave env = None → te_cooked env = true → te_enter env = None ∨ te_enter env = Some 0%nat →
  Forall turn_typed turns →
  let e := main env args turns terminal_normal in
  (pe_outcome e ≠ PO_Running → pe_terminal e = terminal_normal) ∧
  (pe_outcome e = PO_Panic → ∃ binary app runs, menu_loop binary turns App_new = Some (ME_Panic, app, runs)) ∧
  sessions_clean (pe_sessions e).
Proof.
  intros Hl Hc He Ht e. subst e. unfold main.
  destruct (main_entry args) as [binary| | | |]; try (split_and!; [done|done|constructor]).
  unfold run_with_tor_binary. destruct (terminal_enter env terminal_normal) as [[] t'] eqn:Een; cbn [negb].
  2: { apply enter_fails_normal in Een as ->; [|done..]. split_and!; [done|done|constructor]. }
  pose proof (menu_loop_ok binary turns Ht App_new) as Hm. unfold menu_run_ok in Hm.
  destruct (menu_loop binary turns App_new) as [[[[result| |] app] runs]|] eqn:Eloop; [| | |by exfalso; apply Hm].
  - split_and!; [intros _; by apply restore_normal|done|by apply Hm].
  - split_and!; [intros _; by apply restore_normal|intros _; eauto|by apply Hm].
  - split_and!; [done|done|by apply Hm].
Qed.
End leaving.

(** ** The end of the reader *)

(** The queue is bounded, and the flag is set exactly from the end of the
    loop on. *)
Definition input_system_ok (s : InputSystem) : Prop :=
  (N.of_nat (length (is_queue s)) <= KEY_QUEUE)%N ∧ (is_stop s = match is_main s with MN_Looping => false | _ => true end).

Lemma input_move_ok m s s' : input_move m s = Some s' → input_system_ok s → input_system_ok s'.
Proof.
  destruct s as [queue reader main stop]. intros E [Hq Hs]. cbn in Hq, Hs. revert E. unfold input_move. cbn [is_queue is_reader is_main is_stop].
  destruct m, reader, main; try done; repeat case_match; intros [= <-]; (split; [|try done]); cbn in *; try done; try lia.
  all: repeat match goal with H : (_ <? _)%N = true |- _ => apply N.ltb_lt in H end; rewrite length_app; cbn; lia.
Qed.

Lemma input_moves_ok ms : ∀ s s', input_moves ms s = Some s' → input_system_ok s → input_system_ok s'.
Proof.
  induction ms as [|m ms IH]; intros s s'; cbn [input_moves]; [by intros [= <-]|].
  destruct (input_move m s) as [s1|] eqn:E; [|done]. cbn [mbind option_bind]. intros Hrun Hs.
  by eapply IH, input_move_ok.
Qed.

(** How many moves the reader and the join still need. *)
Definition moves_left (s : InputSystem) : nat :=
  match is_main s, is_reader s with
  | MN_Exited, _ => 0
  | _, RS_Done => 1
  | _, RS_Check => 2
  | _, RS_Sending _ => 3
  | _, RS_Poll => 4
  end.

(** The program waits for its reader, which needs no place in the queue, or
    has one. *)
Record leaving (s : InputSystem) : Prop := {
  lv_stop : is_stop s = true;
  lv_main : is_main s = MN_Joining ∨ is_main s = MN_Exited ∧ is_reader s = RS_Done;
  lv_room : is_reader s = RS_Check ∨ is_reader s = RS_Done ∨ (N.of_nat (length (is_queue s)) < KEY_QUEUE)%N;
}.

Lemma leaving_move m s s' : input_move m s = Some s' → leaving s → leaving s' ∧ (moves_left s' < moves_left s)%nat.
Proof.
  destruct s as [queue reader main stop]. intros E [Hs Hm Hr]. cbn in Hs, Hm, Hr. subst stop. revert E. unfold input_move, moves_left.
  cbn [is_queue is_reader is_main is_stop].
  destruct Hm as [->|[-> ->]]; [destruct m, reader; try done; repeat case_match; intros [= <-]|by destruct m].
  all: cbn; split; [constructor; cbn; auto|try lia]; try naive_solver.
Qed.

Lemma leaving_progress s : leaving s → is_main s = MN_Exited ∨ ∃ m, is_Some (input_move m s).
Proof.
  destruct s as [queue reader main stop]. intros [Hs Hm Hr]. cbn in Hs, Hm, Hr |- *. subst stop.
  destruct Hm as [->|[-> _]]; [right|by left]. destruct reader as [| |i|].
  - by exists IM_Check.
  - by exists (IM_Poll (Ok None)).
  - exists IM_Send. destruct Hr as [?|[?|Hr]]; [done|done|]. unfold input_move. cbn. by rewrite (proj2 (N.ltb_lt _ _) Hr).
  - by exists IM_Join.
Qed.

Lemma leaving_moves ms : ∀ s s', input_moves ms s = Some s' → leaving s → leaving s' ∧ (length ms + moves_left s' <= moves_left s)%nat.
Proof.
  induction ms as [|m ms IH]; intros s s'; cbn [input_moves]; [by intros [= <-]|].
  destruct (input_move m s) as [s1|] eqn:E; [|done]. cbn [mbind option_bind]. intros Hrun Hs.
  destruct (leaving_move _ _ _ E Hs) as [H1 Hlt]. destruct (IH _ _ Hrun H1) as [H2 Hle]. split; [done|]. cbn [length]. lia.
Qed.

(** C40.  Leaving the program ends, but for one case. When the menu is over and the
    reader of the terminal is waited for: if the reader need not wait for a place in the
    queue of inputs, the program exits, within four moves of the two, whatever the
    terminal does; if the reader waits for a place in a full queue, nothing moves any
    more and the program hangs, since the queue's other end is kept and no longer read.
    *)
Theorem leaving_waits_for_the_queue ms s :
  input_moves ms InputSystem_new = Some s → is_main s = MN_Joining →
  ((N.of_nat (length (is_queue s)) < KEY_QUEUE)%N ∨ is_reader s = RS_Check ∨ is_reader s = RS_Done →
   ∀ ms' s', input_moves ms' s = Some s' →
     (length ms' <= 4)%nat ∧ (is_main s' = MN_Exited ∨ ∃ m, is_Some (input_move m s'))) ∧
  (∀ i, N.of_nat (length (is_queue s)) = KEY_QUEUE → is_reader s = RS_Sending i → ∀ m, input_move m s = None).
Proof.
  intros Hrun Hm. assert (Hok : input_system_ok s) by (by eapply input_moves_ok). destruct Hok as [_ Hs]. rewrite Hm in Hs. split.
  - intros Hroom ms' s' Hrun'. destruct (leaving_moves ms' s s' Hrun') as [Hl Hle].
    { constructor; [done|by left|naive_solver]. }
    split; [|by apply leaving_progress]. assert (moves_left s <= 4)%nat by (unfold moves_left; repeat case_match; lia). lia.
  - intros i Hfull Hr m. unfold input_move. rewrite Hm, Hr, Hfull. by destruct m.
Qed.
