(* ===== verification/Handshake.v ===== *)
(** The two sides of the admission flow run against each other: an honest
    host and an honest client that share the invitation and the password. *)
From Stdlib Require Import Strings.String.
From S2P Require Export AdmissionProps.

Section handshake.
Context `{PR : !Primitives} `{PL : !PrimitiveLaws} `{HA : !Hashes} `{NF : !Nfc}.

(** An answer and the state after it. *)
Definition answer {E A S} (x : Outcome E A * S) : option (A * S) :=
  match x with (Done a, s) => Some (a, s) | _ => None end.

Definition only {A} (l : list A) : option A := match l with [x] => Some x | _ => None end.

Definition hello_of (m : Message) : option ClientHello :=
  match m with M_ClientHello hello => Some hello | _ => None end.

Definition message_of (r : option HostAdmissionReply) : option Message :=
  match r with Some (HR_Message m) => Some m | _ => None end.

Definition application_in (r : option HostAdmissionReply) : option JoinApplication :=
  match r with Some (HR_JoinRequested app) => Some app | _ => None end.

(** The messages of one admission, each handled by the other side; [None]
    where a side answers out of turn. *)
Definition handshake (port : u16) (nickname : rstring) (introduction : option rstring)
    (h : HostAdmission * Rng) (c : ClientAdmission * Rng)
    : option (JoinApplication * (HostAdmission * Rng) * (ClientAdmission * Rng)) :=
  hello ← hello_of (first_message c.1);
  '(host_hello, h) ← answer (on_client_hello hello port h);
  '(tokens, c) ← answer (on_host_message host_hello c);
  token ← only tokens;
  '(reply, h) ← answer (on_message token JP_Open h);
  challenge ← message_of reply;
  '(proofs, c) ← answer (on_host_message challenge c);
  proof ← only proofs;
  '(silence, h) ← answer (on_message proof JP_Open h);
  _ ← match silence with None => Some tt | Some _ => None end;
  '(request, c) ← answer (join_request nickname introduction c);
  '(reply, h) ← answer (on_message request JP_Open h);
  app ← application_in reply;
  Some (app, h, c).

(** What the host and the client start from. *)
Record paired (port : u16) (password : list byte) (h : HostAdmission) (c : ClientAdmission)
    : Prop := {
  pa_host : ha_state h = HS_AwaitingHello;
  pa_client : cl_state c = CL_AwaitingHostHello;
  pa_onion : inv_onion_address (cl_invitation c) = ha_onion_address h;
  pa_port : inv_port (cl_invitation c) = port;
  pa_token : inv_token (cl_invitation c) = ha_token h;
  pa_token_length : 16 <= length (ha_token h) <= 32;
  pa_password : cl_password c = password;
  pa_verifier : ∃ rng rng', PasswordVerifier_derive password rng = (Ok (ha_verifier h), rng');
  pa_contributory : contributory (ha_host_identity h) (member_x25519_pubkey (cl_identity c));
}.

Lemma derive_cost password rng v rng' :
  PasswordVerifier_derive password rng = (Ok v, rng') →
  pv_m_cost v = ARGON2_M_COST ∧ pv_t_cost v = ARGON2_T_COST ∧ pv_p_cost v = ARGON2_P_COST ∧
  derive_key password (pv_salt v) ARGON2_M_COST ARGON2_T_COST ARGON2_P_COST = Ok (pv_derived_key v).
Proof.
  unfold PasswordVerifier_derive. destruct (random_bytes _ _) as [[salt|] r]; [|done].
  destruct (derive_key _ _ _ _ _) as [key|] eqn:E; [|done]. by intros [= <- _].
Qed.

Lemma token_new token : 16 <= length token <= 32 → TokenVerify_new token = Ok {| tv_token := token |}.
Proof.
  intros Hl. unfold TokenVerify_new. replace (in_range _ _ _) with true; [done|].
  symmetry. apply in_range_true. lia.
Qed.

Lemma wrap_keys_Ok host im s id :
  contributory host (member_x25519_pubkey im) →
  ∃ k, host_try_wrap_key_for host (member_x25519_pubkey im) s id = Ok k ∧
    member_try_wrap_key_for im (host_x25519_pubkey host) s id = Ok k.
Proof.
  intros Hc. rewrite <-wrap_keys_agree. unfold host_try_wrap_key_for, derive_checked.
  unfold contributory in Hc. rewrite Hc. by eexists.
Qed.

(** The host's answer to the client's hello. *)
Definition hello_reply (port : u16) (h : HostAdmission) (cn : list byte) : HostHello := {|
  hello_version := 1; hello_room_session_id := ha_room_session_id h;
  hello_host_ed25519_pubkey := host_ed25519_pubkey (ha_host_identity h);
  hello_host_x25519_pubkey := host_x25519_pubkey (ha_host_identity h);
  hello_server_nonce := ha_server_nonce h;
  hello_host_signature := host_sign (ha_host_identity h) (host_hello_transcript
    (hello_input h {| ch_version := 1; ch_client_nonce := cn; ch_features := 0 |} port)) |}.

Lemma hello_honest port h r cn :
  ha_state h = HS_AwaitingHello →
  on_client_hello {| ch_version := 1; ch_client_nonce := cn; ch_features := 0 |} port (h, r) =
  (Done (M_HostHello (hello_reply port h cn)),
   (ha_put_state HS_AwaitingToken (ha_put_client_nonce cn h), r)).
Proof.
  intros Hs. unfold on_client_hello, mbind, M_bind, self. cbn [fst snd].
  by rewrite bool_decide_eq_true_2.
Qed.

Lemma pin_honest port password h c r :
  paired port password h c →
  on_host_message (M_HostHello (hello_reply port h (cl_client_nonce c))) (c, r) =
  (Done [M_TokenVerify {| tv_token := ha_token h |}],
   (cl_put_state CL_AwaitingChallenge (cl_put_hello (ha_server_nonce h)
      (info_of (hello_reply port h (cl_client_nonce c))) c), r)).
Proof.
  intros [_ Hs Honion Hport Htok Hlen _ _ Hct].
  destruct (wrap_keys_Ok _ _ (ha_room_session_id h) 0 Hct) as (k & _ & Hk).
  unfold on_host_message, mbind at 1, M_bind at 1, self at 1. cbn [fst snd]. rewrite Hs.
  unfold handle_host_hello, mbind, M_bind, self. cbn [fst snd].
  change (negb (hello_version (hello_reply port h (cl_client_nonce c)) =? 1)%N) with false. cbv iota.
  replace (expected_hello c (hello_reply port h (cl_client_nonce c))) with
    (hello_input h {| ch_version := 1; ch_client_nonce := cl_client_nonce c; ch_features := 0 |} port).
  2:{ unfold hello_input, expected_hello. simpl. by rewrite Honion, Hport, Htok. }
  assert (Hv : verify_ed25519 (hello_host_ed25519_pubkey (hello_reply port h (cl_client_nonce c)))
    (host_hello_transcript (hello_input h
       {| ch_version := 1; ch_client_nonce := cl_client_nonce c; ch_features := 0 |} port))
    (hello_host_signature (hello_reply port h (cl_client_nonce c))) = true) by apply ed_verify_sign.
  rewrite Hv. cbn [negb hello_reply hello_host_x25519_pubkey hello_room_session_id]. rewrite Hk.
  cbn [try_ mret M_ret]. unfold modify. cbn [fst snd]. rewrite Htok, token_new by done. done.
Qed.

Lemma token_honest h r cn :
  primitives_total → ha_state h = HS_AwaitingToken → ha_client_nonce h = Some cn →
  ∃ nonce r', on_message (M_TokenVerify {| tv_token := ha_token h |}) JP_Open (h, r) =
    (Done (Some (HR_Message (challenge_of h nonce))),
     (ha_put_state HS_AwaitingProof (ha_put_challenge_nonce nonce h), r')).
Proof.
  intros [Hr _] Hs Hc. destruct (Hr r 16) as [nonce Hn]. exists nonce, (S r).
  unfold on_message, mbind at 1, M_bind at 1, self at 1. cbn [fst snd]. rewrite Hs.
  unfold handle_token, mbind, M_bind, self, draw_err, random_bytes. cbn [fst snd tv_token].
  rewrite bool_decide_eq_true_2 by done. cbn [negb fst snd].
  unfold challenge_of. by rewrite Hn.
Qed.

Lemma challenge_honest password v c r nonce rng rng' :
  cl_state c = CL_AwaitingChallenge → cl_password c = password →
  PasswordVerifier_derive password rng = (Ok v, rng') →
  on_host_message (M_PasswordChallenge {| pc_m_cost := pv_m_cost v; pc_t_cost := pv_t_cost v;
    pc_p_cost := pv_p_cost v; pc_salt := pv_salt v; pc_challenge_nonce := nonce |}) (c, r) =
  (Done [M_ChallengeProof {| cp_proof := expected_proof v nonce (cl_client_nonce c) |}],
   (cl_put_state CL_AwaitingJoinForm (cl_clear_password c), r)).
Proof.
  intros Hs Hp (E1 & E2 & E3 & Hk)%derive_cost.
  unfold on_host_message, mbind at 1, M_bind at 1, self at 1. cbn [fst snd]. rewrite Hs.
  unfold handle_challenge, mbind, M_bind, self.
  cbn [fst snd pc_m_cost pc_t_cost pc_p_cost pc_salt pc_challenge_nonce].
  rewrite E1, E2, E3, !N.eqb_refl, Hp. cbn [negb orb]. unfold compute_password_proof.
  by rewrite Hk.
Qed.

Lemma proof_honest h r cn nonce :
  ha_state h = HS_AwaitingProof → ha_client_nonce h = Some cn → ha_challenge_nonce h = Some nonce →
  on_message (M_ChallengeProof {| cp_proof := expected_proof (ha_verifier h) nonce cn |}) JP_Open (h, r)
  = (Done None, (ha_put_state HS_AwaitingJoinForm h, r)).
Proof.
  intros Hs Hc Hn. unfold on_message, mbind at 1, M_bind at 1, self at 1. cbn [fst snd]. rewrite Hs.
  unfold handle_proof, mbind, M_bind, self. cbn [fst snd cp_proof]. rewrite Hn, Hc.
  cbn [ok_or mret M_ret]. unfold verify_proof. by rewrite bool_decide_eq_true_2.
Qed.

(** The application an honest client signs. *)
Definition application_of (c : ClientAdmission) (info : HostHelloInfo) (server_nonce : list byte)
    (n : rstring) (introduction : option rstring) : JoinRequestMessage := {|
  jm_nickname := n; jm_introduction := introduction;
  jm_ed25519_pubkey := member_ed25519_pubkey (cl_identity c);
  jm_x25519_pubkey := member_x25519_pubkey (cl_identity c);
  jm_signature := member_sign (cl_identity c) (join_request_transcript
    (join_input (hi_room_session_id info) (cl_client_nonce c) server_nonce n introduction
       (member_ed25519_pubkey (cl_identity c)) (member_x25519_pubkey (cl_identity c))
       (inv_onion_address (cl_invitation c)) (inv_token (cl_invitation c)))) |}.

Lemma request_honest c r info sn nickname introduction n :
  cl_state c = CL_AwaitingJoinForm → cl_host_hello c = Some info → cl_server_nonce c = Some sn →
  validate_nickname nickname Limits_default = Ok n → validate_nickname n Limits_default = Ok n →
  (∀ i, introduction = Some i → validate_intro i Limits_default = Ok tt) →
  join_request nickname introduction (c, r) =
  (Done (M_JoinRequest (application_of c info sn n introduction)),
   (cl_put_state CL_AwaitingDecision c, r)).
Proof.
  intros Hs Hi Hn Hv Hv' Hin. unfold join_request, mbind, M_bind, self. cbn [fst snd].
  rewrite bool_decide_eq_true_2 by done. cbn [negb]. rewrite Hi, Hn. cbn [ok_or mret M_ret].
  rewrite Hv. cbn [try_ mret M_ret]. unfold JoinRequestMessage_new. rewrite Hv'.
  assert (Hintro : match introduction with Some i => validate_intro i Limits_default | None => Ok tt end
    = Ok tt) by (destruct introduction; [by apply Hin|done]).
  by rewrite Hintro.
Qed.

Lemma application_honest h r cn request :
  ha_state h = HS_AwaitingJoinForm → ha_client_nonce h = Some cn →
  verify_ed25519 (jm_ed25519_pubkey request) (join_request_transcript (join_input
    (ha_room_session_id h) cn (ha_server_nonce h) (jm_nickname request) (jm_introduction request)
    (jm_ed25519_pubkey request) (jm_x25519_pubkey request) (ha_onion_address h) (ha_token h)))
    (jm_signature request) = true →
  is_ok (host_try_wrap_key_for (ha_host_identity h) (jm_x25519_pubkey request)
    (ha_room_session_id h) 0) = true →
  on_message (M_JoinRequest request) JP_Open (h, r) =
  (Done (Some (HR_JoinRequested {|
     app_nickname := jm_nickname request; app_introduction := jm_introduction request;
     app_ed25519_pubkey := jm_ed25519_pubkey request;
     app_x25519_pubkey := jm_x25519_pubkey request; app_signature := jm_signature request |})),
   (ha_put_token [] (ha_put_state HS_Decided h), r)).
Proof.
  intros Hs Hc Hv Hk. unfold on_message, mbind at 1, M_bind at 1, self at 1. cbn [fst snd].
  rewrite Hs. unfold handle_join_request, mbind, M_bind, self. cbn [fst snd]. rewrite Hc.
  cbn [ok_or mret M_ret]. rewrite Hv. cbn [negb].
  by destruct (host_try_wrap_key_for _ _ _ _).
Qed.

(** The application carries exactly what the client sent, and the signature
    in it is over the host's own view of the flow. *)
Lemma application_verified port password h c n introduction :
  paired port password h c →
  let app := application_of c (info_of (hello_reply port h (cl_client_nonce c))) (ha_server_nonce h)
    n introduction in
  verify_ed25519 (jm_ed25519_pubkey app) (join_request_transcript (join_input
    (ha_room_session_id h) (cl_client_nonce c) (ha_server_nonce h) (jm_nickname app)
    (jm_introduction app) (jm_ed25519_pubkey app) (jm_x25519_pubkey app) (ha_onion_address h)
    (ha_token h))) (jm_signature app) = true ∧
  is_ok (host_try_wrap_key_for (ha_host_identity h) (jm_x25519_pubkey app)
    (ha_room_session_id h) 0) = true.
Proof.
  intros [_ _ Honion _ Htok _ _ _ Hct]. cbv zeta. cbn [application_of jm_ed25519_pubkey
    jm_nickname jm_introduction jm_x25519_pubkey jm_signature]. split.
  - rewrite Honion, Htok. apply ed_verify_sign.
  - destruct (wrap_keys_Ok _ _ (ha_room_session_id h) 0 Hct) as (k & -> & _). done.
Qed.

(** The run of an honest admission. *)
Lemma handshake_run port password nickname introduction n h rh c rc :
  primitives_total → paired port password h c →
  validate_nickname nickname Limits_default = Ok n → validate_nickname n Limits_default = Ok n →
  (∀ i, introduction = Some i → validate_intro i Limits_default = Ok tt) →
  ∃ app h' rh' c', handshake port nickname introduction (h, rh) (c, rc) = Some (app, (h', rh'), (c', rc)) ∧
    app_nickname app = n ∧ app_introduction app = introduction ∧
    app_ed25519_pubkey app = member_ed25519_pubkey (cl_identity c) ∧
    app_x25519_pubkey app = member_x25519_pubkey (cl_identity c) ∧
    ha_state h' = HS_Decided ∧ ha_token h' = [] ∧ cl_password c' = [] ∧
    cl_state c' = CL_AwaitingDecision ∧
    cl_host_hello c' = Some (info_of (hello_reply port h (cl_client_nonce c))).
Proof.
  intros Ht Hp Hv Hv' Hi. pose proof Hp as [Hs Hcs Honion Hport Htok Hlen Hpw (rng & rng' & Hd) Hct].
  unfold handshake. cbn [fst first_message hello_of mbind option_bind]. rewrite hello_honest by done.
  cbn [answer mbind option_bind].
  rewrite (pin_honest port password) by done. cbn [answer only mbind option_bind].
  destruct (token_honest (ha_put_state HS_AwaitingToken (ha_put_client_nonce (cl_client_nonce c) h)) rh
    (cl_client_nonce c) Ht eq_refl eq_refl) as (nonce & r' & Htk).
  cbn [ha_put_state ha_put_client_nonce ha_put ha_token] in Htk |- *. rewrite Htk. clear Htk.
  unfold challenge_of. cbn [answer message_of mbind option_bind].
  rewrite (challenge_honest password (ha_verifier h) _ _ _ rng rng') by done.
  cbn [cl_client_nonce cl_put_hello cl_put_state answer only mbind option_bind].
  match goal with |- context [on_message (M_ChallengeProof _) _ (?h1, ?r)] =>
    pose proof (proof_honest h1 r (cl_client_nonce c) nonce eq_refl eq_refl eq_refl) as Hpr;
    change (ha_verifier h1) with (ha_verifier h) in Hpr end.
  rewrite Hpr. clear Hpr. cbn [answer mbind option_bind].
  rewrite (request_honest _ _ (info_of (hello_reply port h (cl_client_nonce c))) (ha_server_nonce h)
    nickname introduction n) by done. cbn [answer mbind option_bind].
  destruct (application_verified port password h c n introduction Hp) as [Hsig Hwrap].
  rewrite (application_honest _ _ (cl_client_nonce c)) by done.
  do 4 eexists. split; [done|]. repeat split.
Qed.

(** An honest host and an honest client that share an invitation and a
    password complete the admission flow: the room receives the client's nickname,
    introduction and keys, the host has wiped the token and the client its password, and
    the host's acceptance sets up the client's chat session for that room, that host and
    the assigned id. *)
Theorem honest_admission port password nickname introduction n h rh c rc :
  primitives_total → paired port password h c →
  validate_nickname nickname Limits_default = Ok n → validate_nickname n Limits_default = Ok n →
  (∀ i, introduction = Some i → validate_intro i Limits_default = Ok tt) →
  ∃ app h' rh' c', handshake port nickname introduction (h, rh) (c, rc) = Some (app, (h', rh'), (c', rc)) ∧
    app_nickname app = n ∧ app_introduction app = introduction ∧
    app_ed25519_pubkey app = member_ed25519_pubkey (cl_identity c) ∧
    app_x25519_pubkey app = member_x25519_pubkey (cl_identity c) ∧
    ha_token h' = [] ∧ cl_password c' = [] ∧
    ∀ id, ∃ c'', on_host_message (admission_accept id) (c', rc) = (Done [], (c'', rc)) ∧
      cl_state c'' = CL_Admitted ∧ cl_member_id c'' = Some id ∧
      cl_chat c'' = Some (ChatSession_new (ha_room_session_id h)
        (host_ed25519_pubkey (ha_host_identity h)) (host_x25519_pubkey (ha_host_identity h)) id).
Proof.
  intros Ht Hp Hv Hv' Hi.
  destruct (handshake_run port password nickname introduction n h rh c rc Ht Hp Hv Hv' Hi)
    as (app & h' & rh' & c' & Hrun & ? & ? & ? & ? & _ & ? & ? & Hst & Hh).
  exists app, h', rh', c'. repeat (split; [done|]). intros id.
  unfold on_host_message, admission_accept, mbind, M_bind, self, modify, mret, M_ret.
  cbn [fst snd]. rewrite Hst. cbn [fst snd]. rewrite Hh. eexists. done.
Qed.
End handshake.
