(* ===== verification/RoomProps.v ===== *)
(** The room's correctness theorems on membership and epochs: population,
    lifecycle, key distribution, removal, acknowledgement, timeout. *)
From S2P Require Export RoomEpochSafe RoomVetted.

(** * Population *)

Section population.
Context `{PR : !Primitives} `{NF : !Nfc}.

(** C25.  The tables of a reachable room agree: member ids, nicknames, connections
    and keys are distinct, the table is within its limit with the host first; the
    connection table records exactly the members and the pending requests; request ids
    are unambiguous across both queues and each queue is bounded; rate-limit buckets
    belong to members. And ids are never reused: whatever events follow, the next id to
    be given out never decreases, and a later member whose id had been given out by now
    is the member that has it now, up to its color; the id of one that has left is
    nobody's. *)
Theorem room_population limits hid mid Ev s :
  reachable limits hid mid Ev s →
  let a := s.1 in
  (* the table: distinct ids, nicknames, connections and keys, ids never
     reused, at most the limit, the host first and alone *)
  table_ok (ra_members a) ∧ host_row (ra_members a) (ra_host_connection a) ∧
  (* a connection carries a member or waits for a request, as the table and
     the queue have it *)
  (∀ c, conn_member_id (ra_connections a) c = member_at (ra_members a) c) ∧
  (∀ c, conn_request_id (ra_connections a) c = request_at (ra_requests a) c) ∧
  (* request ids are unambiguous, the queues are bounded *)
  NoDup (request_ids (ra_requests a) (ra_timeout_requests a)) ∧
  (queue_len (ra_requests a) <= queue_limit (ra_requests a))%N ∧
  (N.of_nat (length (ra_timeout_requests a)) <= queue_limit (ra_requests a))%N ∧
  (* rate-limit buckets belong to members *)
  (∀ id, is_Some (ra_rate_limits a !! id) → is_Some (by_id (ra_members a) id)) ∧
  (* whatever happens next, an id that was given out, to a member that is
     here or one that has left, is of nobody else *)
  (∀ s', steps s s' →
     (table_next_id (ra_members a) <= table_next_id (ra_members s'.1))%N ∧
     ∀ m, m ∈ table_members (ra_members s'.1) → (member_id m < table_next_id (ra_members a))%N →
       ∃ m0, m0 ∈ table_members (ra_members a) ∧ same_member m0 m).
Proof.
  intros Hr. cbv zeta. apply reachable_room_ok in Hr.
  pose proof (conn_member_id_at _ _ _ _ _ _ Hr) as Hm.
  pose proof (conn_request_id_at _ _ _ _ _ _ Hr) as Hq.
  assert (Hids : ∀ s', steps s s' →
    (table_next_id (ra_members s.1) <= table_next_id (ra_members s'.1))%N ∧
    ∀ m, m ∈ table_members (ra_members s'.1) → (member_id m < table_next_id (ra_members s.1))%N →
      ∃ m0, m0 ∈ table_members (ra_members s.1) ∧ same_member m0 m).
  { intros s' [Hk Hn]%steps_ids. split; [done|]. intros m Hin Hlt. rewrite list.Forall_forall in Hk.
    destruct (Hk m Hin) as [?|?]; [done|lia]. }
  by destruct Hr.
Qed.
End population.

Section props.
Context `{PR : !Primitives} `{PL : !PrimitiveLaws} `{NF : !Nfc}.

(** C2.  The lifecycle of the group key, as long as the random source and the cipher
    never fail, the host's own key is one it can wrap for, and the applications that
    come in carry such keys too. In every room reachable so: while a transition is
    pending it is of the current epoch and waits for a non-empty set of distinct present
    members; at rest the state is the join policy's, no transition is pending, every
    queued broadcast has been released and a group key is installed; the intermediate
    states are never seen; replay windows never outlive their epoch. Without these
    suppositions a transition that fails half way leaves a room in transition with
    nothing pending, as a finding says. *)
Theorem room_epoch_lifecycle limits hid mid s :
  primitives_total → contributory hid (member_x25519_pubkey mid) →
  reachable limits hid mid (event_ok hid) s →
  let a := s.1 in
  (* a sender's replay window is of the current epoch *)
  (∀ id e, is_Some (last_accepted (ra_chat_replay a) id e) → e = ra_epoch a) ∧
  match ra_state a with
  | RS_EpochTransition =>
      (* a transition of the current epoch waits for some members *)
      ∃ p, ra_pending_epoch a = Some p ∧ pe_epoch p = ra_epoch a ∧ pe_awaiting p ≠ [] ∧
        NoDup (pe_awaiting p) ∧
        Forall (λ id, is_Some (by_id (ra_members a) id)) (pe_awaiting p)
  | RS_Open | RS_Locked =>
      (* at rest: the state is the policy's, every broadcast is out and a
         group key is installed *)
      ra_state a = resting_state (ra_policy a) ∧ ra_pending_epoch a = None ∧
      is_Some (ra_epoch_key a) ∧ ra_pending_membership a = []
  | RS_Destroyed => True
  | RS_Creating | RS_InviteRotating | RS_Closing => False
  end.
Proof.
  intros Ht Hx Hr. pose proof (reachable_J hid Ht _ _ _ Hx Hr) as (_ & _ & Hrep & Hst).
  split; [exact Hrep|exact Hst].
Qed.

(** ** Key distribution *)

(** A member with identity [im] reads [key] off the wrap [act] it was
    sent. *)
Definition can_unwrap (a : RoomActor) (key : EpochKey) (m : Member) (im : MemberIdentity)
    (act : RoomAction) : Prop :=
  ∃ wrap wk, act = SendTo (connection m) (M_EpochWrap wrap) ∧ ew_epoch wrap = ra_epoch a ∧
    member_try_wrap_key_for im (host_x25519_pubkey (ra_host_identity a)) (ra_session_id a)
      (member_id m) = Ok wk ∧
    unwrap_epoch_key wk (ew_epoch wrap) (ra_session_id a) (ew_nonce wrap) (ew_ciphertext wrap)
      = Ok key.

Lemma wrap_sent_unwraps a key m im act :
  length key = 32 → x25519_pubkey m = member_x25519_pubkey im →
  wrap_sent a key m act → can_unwrap a key m im act.
Proof.
  intros Hlen Hx (wk & env & rng & rng' & Hwk & Henv & ->). rewrite Hx in Hwk.
  destruct (epoch_key_roundtrip _ _ _ _ _ _ _ _ _ _ Hlen Hwk Henv) as (wk' & Hwk' & Hun).
  by eexists _, wk'.
Qed.

(** C3.  A transition advances the epoch by one and sends one wrap to each member,
    in table order; each member that holds the private half of the key it joined with
    unwraps from it exactly the key the room will install, for exactly the new epoch,
    and every member is awaited. *)
Theorem transition_distributes_key acts a r acts' s' :
  begin_epoch_transition acts (a, r) = (Done acts', s') →
  let a' := s'.1 in
  ra_state a' = RS_EpochTransition ∧ ra_epoch a' = (ra_epoch a + 1)%N ∧
  ra_members a' = ra_members a ∧
  ∃ key wraps,
    ra_pending_epoch a' = Some {| pe_epoch := ra_epoch a'; pe_key := key;
      pe_awaiting := member_id <$> table_members (ra_members a);
      pe_started_at := ra_now a |} ∧
    acts' = acts ++ wraps ∧ length wraps = length (table_members (ra_members a)) ∧
    ∀ i m im, table_members (ra_members a) !! i = Some m →
      x25519_pubkey m = member_x25519_pubkey im →
      ∃ act, wraps !! i = Some act ∧ can_unwrap a' key m im act.
Proof.
  intros Hrun. pose proof (begin_wp acts a r) as Hb. unfold wp in Hb. rewrite Hrun in Hb.
  cbn [fst snd] in *. destruct Hb as (key & l & rng & rng' & Hk & Hre & -> & Hl).
  destruct Hre as (Hf & He & _ & _ & Hst & Hp & _). unfold frame in Hf.
  injection Hf as Hms _ _ _ _ _. split_and!; [done..|].
  exists key, l. split_and!; [done|done|by apply Forall2_length in Hl|].
  intros i m im Hm Hx. destruct (Forall2_lookup_l _ _ _ _ _ Hl Hm) as (act & Hact & Hs).
  exists act. split; [done|]. apply wrap_sent_unwraps; [by eapply random_bytes_Ok|done|done].
Qed.

(** ** Removal *)

(** What a removal leaves: the member is gone from the table and the
    connections, a new epoch is pending on the members that stay, and the
    new key goes to them alone. *)
Record removed (a a' : RoomActor) (m : Member) (wraps : list RoomAction) : Prop := {
  rm_was : m ∈ table_members (ra_members a) ∧ member_id m ≠ 0%N;
  rm_table : table_members (ra_members a) ≡ₚ m :: table_members (ra_members a');
  rm_gone : by_id (ra_members a') (member_id m) = None ∧
    by_connection (ra_members a') (connection m) = None;
  rm_conn : ra_connections a' = conn_remove (ra_connections a) (connection m);
  rm_limiter : ra_rate_limits a' !! member_id m = None;
  rm_epoch : ra_epoch a' = (ra_epoch a + 1)%N ∧ ra_state a' = RS_EpochTransition;
  rm_pending : ∃ key, ra_pending_epoch a' = Some {| pe_epoch := ra_epoch a'; pe_key := key;
      pe_awaiting := member_id <$> table_members (ra_members a');
      pe_started_at := ra_now a |} ∧
    Forall2 (wrap_sent a' key) (table_members (ra_members a')) wraps;
  rm_requests : ra_requests a' = ra_requests a ∧ ra_timeout_requests a' = ra_timeout_requests a;
}.

Lemma wrap_sent_view a a' key m act :
  ra_host_identity a = ra_host_identity a' → ra_session_id a = ra_session_id a' →
  ra_epoch a = ra_epoch a' → wrap_sent a key m act → wrap_sent a' key m act.
Proof. unfold wrap_sent. by intros -> -> ->. Qed.

Lemma skeeps_gone id t : keeps ra_session_id (queue_member_gone id t).
Proof. unfold queue_member_gone, bump_sequence, push_membership. solve_keeps. Qed.

Lemma remove_member_removed id t acts a r x acts' s' :
  room_ok a → remove_member id t acts (a, r) = (Done (x, acts'), s') →
  match x with
  | None => acts' = acts ∧ s' = (a, r) ∧ by_id (ra_members a) id = None
  | Some m => member_id m = id ∧ ∃ wraps, acts' = acts ++ wraps ∧ removed a s'.1 m wraps
  end.
Proof.
  intros Hok Hrun. eapply (wp_run _ (λ o s', o = Done (x, acts') → match x with
    | None => acts' = acts ∧ s' = (a, r) ∧ by_id (ra_members a) id = None
    | Some m => member_id m = id ∧ ∃ wraps, acts' = acts ++ wraps ∧ removed a s'.1 m wraps
    end)); [exact Hrun| |done]. clear Hrun.
  unfold remove_member. destruct (N.eqb_spec id 0) as [|Hid]; [done|].
  rewrite wp_self. cbn [fst snd]. destruct (Members.remove _ _) as [[m ms]|] eqn:E;
    [|intros [= <- <-]; by rewrite <-remove_None].
  rewrite !wp_modify. cbn [fst snd]. rewrite wp_bind.
  eapply wp_mono; [|apply begin_wp]. intros [acts1|e|] [b r1]; [|done..].
  intros (key & l & rng & rng' & _ & Hre & -> & Hl). cbn [bind_post fst snd] in *. rewrite wp_bind.
  pose proof (ekeeps_gone id t (b, r1)) as He. pose proof (skeeps_gone id t (b, r1)) as Hs.
  unfold wp. destruct (queue_member_gone id t (b, r1)) as [o2 [b2 r2]] eqn:Eg.
  destruct o2 as [u|e|]; [|done..]. cbn [bind_post fst snd wp mret M_ret] in *.
  intros [= <- <-]. unfold eview, frame in He.
  injection He as E1 E2 E3 E4 E5 E6 E7 E8 E9 E10 E11 _ _.
  destruct Hre as (Hf & Hre2 & _ & _ & Hre3 & Hre4 & _). unfold frame in Hf. simpl in *.
  injection Hf as F1 F2 F3 F4 F5 F6.
  pose proof (remove_Some _ _ _ _ E) as (Hby & Hp & Hmid & _).
  apply by_id_Some in Hby as [Hm _].
  split; [done|]. exists l. split; [done|]. destruct Hok as [Htab _ _ _ _ _ _ _ _ _].
  assert (Hms : ra_members b2 = ms) by congruence.
  constructor; cbn [fst].
  - split; [done|congruence].
  - by rewrite Hms.
  - rewrite Hms, Hmid. split.
    + rewrite (by_id_remove _ _ _ _ _ Htab E). by rewrite bool_decide_eq_true_2.
    + pose proof (member_at_remove _ _ _ _ (connection m) Htab E) as Hat.
      rewrite bool_decide_eq_true_2 in Hat by done. unfold member_at in Hat.
      by destruct (by_connection ms _).
  - congruence.
  - rewrite E5, F5, Hmid. apply lookup_delete_eq.
  - split; congruence.
  - exists key. rewrite Hms. split.
    + by rewrite E11, Hre4, E8.
    + eapply Forall2_impl; [|exact Hl]. intros m' act. apply wrap_sent_view; congruence.
  - split; congruence.
Qed.

(** Wraps go to members' connections only. *)
Lemma wraps_sends a key ms wraps c msg :
  Forall2 (wrap_sent a key) ms wraps → (c, msg) ∈ sends wraps →
  c ∈ (connection <$> ms) ∧ ∃ w, msg = M_EpochWrap w.
Proof.
  induction 1 as [|m act ms wraps (wk & env & ? & ? & _ & _ & ->) _ IH]; csimpl; [by intros ?%elem_of_nil|].
  intros [[= -> ->]|Hin]%elem_of_cons.
  - split; [apply elem_of_cons; by left|]. eauto.
  - destruct (IH Hin) as [? ?]. split; [apply elem_of_cons; by right|done].
Qed.

Lemma removed_no_send a a' m wraps c msg :
  room_ok a → removed a a' m wraps → (c, msg) ∈ sends wraps →
  c ≠ connection m ∧ ∃ m', m' ∈ table_members (ra_members a') ∧ connection m' = c.
Proof.
  intros [Htab _ _ _ _ _ _ _ _ _] [_ Hp _ _ _ _ (key & _ & Hl) _] Hin.
  destruct (wraps_sends _ _ _ _ _ _ Hl Hin) as [(m' & -> & Hm')%list_elem_of_fmap _].
  split; [|by exists m']. destruct Htab as [_ _ Hnd _ _ _ _ _]. rewrite Hp in Hnd. csimpl in Hnd.
  apply list.NoDup_cons in Hnd as [Hni _]. intros E. apply Hni. rewrite <-E.
  by apply list_elem_of_fmap_2.
Qed.

Lemma resolve_member_Ok a target m :
  resolve_member a target = Ok m → m ∈ table_members (ra_members a) ∧
  match target with MR_Id id => member_id m = id | MR_Nickname n => nickname m = n end.
Proof.
  unfold resolve_member. destruct target as [id|[|ch n]].
  - destruct (by_id _ _) as [k|] eqn:E; [|done]. intros [= <-]. by apply by_id_Some in E.
  - done.
  - destruct (by_nickname _ _) as [k|] eqn:E; [|done]. intros [= <-].
    by apply find_first_key_Some in E.
Qed.

(** C4.  A successful kick removes a member that is not the host, drops its
    connection and its rate-limit bucket, starts a transition, and sends the fresh key
    to the remaining members only: nothing at all is sent to the connection of the
    kicked member, which is closed. The two queues of requests are left as they are, a
    timeout request of the kicked member included. *)
Theorem kick_excludes limits hid mid Ev a r target acts s' :
  reachable limits hid mid Ev (a, r) → on_kick target (a, r) = (Done acts, s') →
  ∃ m wraps,
    resolve_member a target = Ok m ∧ is_host m = false ∧ removed a s'.1 m wraps ∧
    acts = wraps ++ [CloseConnection (connection m);
                     NotifyHost (HN_MemberKicked (member_id m) (nickname m))] ∧
    (∀ c msg, (c, msg) ∈ sends acts →
       c ≠ connection m ∧ ∃ m', m' ∈ table_members (ra_members s'.1) ∧ connection m' = c).
Proof.
  intros Hreach Hrun. apply reachable_room_ok in Hreach as Hok. cbn [fst] in Hok.
  revert Hrun. unfold on_kick, mbind at 1, M_bind at 1, self at 1. cbn [fst snd].
  destruct (resolve_member a target) as [m|e] eqn:Er; [|done].
  apply resolve_member_Ok in Er as Hm. destruct Hm as [Hm _].
  unfold mbind at 1, M_bind at 1, try_ at 1, mret at 1, M_ret at 1.
  unfold mbind at 1, M_bind at 1. pose proof (sok_table _ _ _ _ _ _ Hok) as Htab.
  rewrite (by_id_elem _ m) by done. cbn [ok_or mret M_ret].
  destruct (is_host m) eqn:Eh; [done|].
  unfold mbind at 1, M_bind at 1.
  destruct (remove_member _ _ _ _) as [[[x acts1]|e|] [b r1]] eqn:Erm; [|done..].
  apply remove_member_removed in Erm; [|done]. destruct x as [m'|]; cycle 1.
  { destruct Erm as (_ & _ & Hnone). by rewrite (by_id_elem _ m) in Hnone. }
  destruct Erm as (Hid & wraps & -> & Hrem). cbn [fst snd mret M_ret]. intros [= <- <-].
  assert (m' = m) as ->.
  { destruct (rm_was _ _ _ _ Hrem) as [Hm' _].
    pose proof (by_id_elem _ _ Htab Hm) as E1. pose proof (by_id_elem _ _ Htab Hm') as E2.
    rewrite Hid in E2. congruence. }
  exists m, wraps. split_and!; [done..|]. intros c msg. cbn [app].
  unfold sends. rewrite omap_app. simpl. rewrite app_nil_r. by apply (removed_no_send a).
Qed.
End props.
