(* ===== verification/RoomLiveness.v ===== *)
(** How a transition ends: every member acknowledges and the epoch
    activates, or the deadline passes and the stalled members are evicted. *)
From S2P Require Export RoomProps.

(** * Lists *)

Lemma filter_out_perm (id : N) l l' :
  NoDup l → l ≡ₚ id :: l' → List.filter (λ i, negb (i =? id)%N) l ≡ₚ l'.
Proof.
  intros Hnd Hp. assert (Hnd' : NoDup (id :: l')) by (by rewrite <-Hp).
  apply list.NoDup_cons in Hnd' as [Hid Hnd'].
  assert (Hf : ∀ k, id ∉ k → List.filter (λ i, negb (i =? id)%N) k = k).
  { induction k as [|x k IH]; intros Hk; [done|]. apply not_elem_of_cons in Hk as [Hx Hk]. simpl.
    rewrite (proj2 (N.eqb_neq x id)) by congruence. simpl. by rewrite IH. }
  assert (Hpf : ∀ k k', k ≡ₚ k' → List.filter (λ i, negb (i =? id)%N) k ≡ₚ
    List.filter (λ i, negb (i =? id)%N) k').
  { induction 1 as [|x k k' _ IH|x y k|k k' k'' _ IH1 _ IH2]; simpl; [done| | |by rewrite IH1].
    - destruct (negb _); [by constructor|done].
    - destruct (negb (y =? id)%N), (negb (x =? id)%N); try done. constructor. }
  rewrite (Hpf _ _ Hp). simpl. rewrite N.eqb_refl. simpl. by rewrite Hf.
Qed.

(** [remove_first] by a duplicate-free key is a filter. *)
Lemma remove_first_filter {A} (key : A → N) k l x l' :
  NoDup (key <$> l) → remove_first (key_is key k) l = Some (x, l') →
  l' = List.filter (λ y, negb (key y =? k)%N) l.
Proof.
  revert l'. induction l as [|y l IH]; intros l'; simpl; [done|].
  intros [Hy Hnd]%list.NoDup_cons. unfold key_is at 1. case_bool_decide as E.
  - intros [= <- <-]. rewrite (proj2 (N.eqb_eq _ _) E). cbn [negb]. clear IH. subst k.
    induction l as [|z l IH]; [done|]. csimpl in *. apply not_elem_of_cons in Hy as [Hz Hy].
    rewrite (proj2 (N.eqb_neq (key z) (key y))) by congruence. simpl. f_equal.
    apply IH; [done|]. by apply list.NoDup_cons in Hnd as [_ ?].
  - rewrite (proj2 (N.eqb_neq (key y) k)) by congruence. simpl.
    destruct (remove_first _ l) as [[z l'']|]; [|done]. intros [= <- <-]. f_equal. by apply IH.
Qed.

Lemma put_now_same a : put_now (ra_now a) a = a.
Proof. by destruct a. Qed.

Section liveness.
Context `{PR : !Primitives} `{PL : !PrimitiveLaws} `{NF : !Nfc}.

(** ** Acknowledgement *)

(** The acknowledgements of [cs], in order: the actions they produce. *)
Fixpoint handle_acks (cs : list ConnectionId) (epoch : u64) : M (list RoomAction) :=
  match cs with
  | [] => mret []
  | c :: cs =>
      acts ← handle_event (EV_EpochAck c epoch);
      acts' ← handle_acks cs epoch;
      mret (acts ++ acts')
  end.

Definition with_awaiting (p : PendingEpoch) (l : list MemberId) : PendingEpoch := {|
  pe_epoch := pe_epoch p; pe_key := pe_key p; pe_awaiting := l;
  pe_started_at := pe_started_at p |}.

(** What activation emits. *)
Definition released (a : RoomActor) : list RoomAction :=
  ra_pending_membership a ++
  match ra_room_timeout a with
  | Some seconds => [NotifyHost (HN_TimeoutRebroadcast seconds)]
  | None => []
  end.

(** The room once [p] is activated. *)
Definition activated (p : PendingEpoch) (a : RoomActor) : RoomActor :=
  put_pending_membership []
    (put_state (resting_state (ra_policy a))
       (put_epoch_key (Some (pe_key p)) (put_pending_epoch None a))).

(** One expected acknowledgement. *)
Lemma ack_step a r p c id l :
  ra_state a = RS_EpochTransition → ra_pending_epoch a = Some p → NoDup (pe_awaiting p) →
  conn_member_id (ra_connections a) c = Some id → pe_awaiting p ≡ₚ id :: l →
  ∃ l', l' ≡ₚ l ∧ handle_event (EV_EpochAck c (pe_epoch p)) (a, r) =
    match l' with
    | [] => (Done (released a), (activated p a, r))
    | _ => (Done [], (put_pending_epoch (Some (with_awaiting p l')) a, r))
    end.
Proof.
  intros Hst Hp Hnd Hc Hperm. exists (List.filter (λ i, negb (i =? id)%N) (pe_awaiting p)).
  pose proof (filter_out_perm _ _ _ Hnd Hperm) as Hl. split; [done|].
  unfold handle_event, handle_event_at, mbind, M_bind, self, modify. cbn [fst snd].
  rewrite put_now_same. cbn [fst snd]. rewrite Hst. cbn [handle_in_transition].
  unfold on_epoch_ack, mbind, M_bind, self, modify. cbn [fst snd].
  rewrite Hp, N.eqb_refl, Hc. cbn [negb]. cbv zeta.
  apply Permutation_length in Hl. apply Permutation_length in Hperm.
  rewrite (proj2 (Nat.eqb_neq _ _)) by (simpl in *; lia).
  destruct (List.filter _ _) as [|i k]; [|done].
  unfold mret, M_ret, activated, released. destruct a. done.
Qed.

Lemma acks_run ms : ∀ a r p,
  room_ok a → ra_state a = RS_EpochTransition → ra_pending_epoch a = Some p →
  NoDup (pe_awaiting p) → ms ≠ [] →
  Forall (λ m, m ∈ table_members (ra_members a)) ms →
  pe_awaiting p ≡ₚ member_id <$> ms →
  handle_acks (connection <$> ms) (pe_epoch p) (a, r) = (Done (released a), (activated p a, r)).
Proof.
  induction ms as [|m ms IH]; intros a r p Hok Hst Hp Hnd Hne Hms Hperm; [done|].
  apply list.Forall_cons in Hms as [Hm Hms]. csimpl in *.
  assert (Hc : conn_member_id (ra_connections a) (connection m) = Some (member_id m)).
  { rewrite (conn_member_id_at _ _ _ _ _ _ Hok). destruct Hok. by apply member_at_elem. }
  destruct (ack_step a r p _ _ _ Hst Hp Hnd Hc Hperm) as (l' & Hl' & Hrun).
  unfold mbind at 1, M_bind at 1. rewrite Hrun. unfold mbind, M_bind. destruct l' as [|i l'].
  - symmetry in Hl'. apply Permutation_nil_r, fmap_nil_inv in Hl' as ->. csimpl.
    unfold mret, M_ret. by rewrite app_nil_r.
  - destruct ms as [|m2 ms]; [by apply Permutation_nil_r in Hl'|].
    assert (Hnd' : NoDup (i :: l')).
    { rewrite Hl'. rewrite Hperm in Hnd. by apply list.NoDup_cons in Hnd as [_ ?]. }
    specialize (IH (put_pending_epoch (Some (with_awaiting p (i :: l'))) a) r
      (with_awaiting p (i :: l')) Hok Hst eq_refl Hnd' ltac:(done) Hms Hl').
    change (pe_epoch (with_awaiting p (i :: l'))) with (pe_epoch p) in IH.
    rewrite IH. unfold mret, M_ret. destruct a. done.
Qed.

(** ** The deadline *)

Definition stays (ids : list MemberId) (m : Member) : bool :=
  negb (bool_decide (member_id m ∈ ids)).

Lemma stays_cons id ids ms :
  List.filter (stays ids) (List.filter (λ m, negb (member_id m =? id)%N) ms) =
  List.filter (stays (id :: ids)) ms.
Proof.
  induction ms as [|m ms IH]; [done|]. simpl.
  assert (stays (id :: ids) m = negb (member_id m =? id)%N && stays ids m) as ->.
  { unfold stays. rewrite <-negb_orb. f_equal. apply Bool.eq_iff_eq_true.
    rewrite orb_true_iff, !bool_decide_eq_true, elem_of_cons, N.eqb_eq. done. }
  destruct (negb (member_id m =? id)%N); simpl; [|done]. destruct (stays ids m); simpl; by rewrite IH.
Qed.

(** Evicting known members filters the table and closes their
    connections. *)
Lemma evict_run ids : ∀ removed acts a r,
  table_ok (ra_members a) → NoDup ids →
  Forall (λ id, is_Some (by_id (ra_members a) id)) ids →
  ∃ acts' a', evict ids removed acts (a, r) = (Done (removed ++ ids, acts ++ acts'), (a', r)) ∧
    table_members (ra_members a') = List.filter (stays ids) (table_members (ra_members a)) ∧
    sends acts' = [] ∧
    closes acts' = omap (λ id, connection <$> by_id (ra_members a) id) ids.
Proof.
  induction ids as [|id ids IH]; intros removed acts a r Htab Hnd Hby.
  - exists [], a. rewrite !app_nil_r. split_and!; [done| |done..].
    induction (table_members _) as [|m l IHl]; [done|]. simpl. by rewrite <-IHl.
  - apply list.Forall_cons in Hby as [[m Hid] Hby]. apply list.NoDup_cons in Hnd as [Hni Hnd].
    simpl. unfold mbind at 1, M_bind at 1, self at 1. cbn [fst snd].
    destruct (Members.remove (ra_members a) id) as [[m' ms]|] eqn:E;
      [|apply remove_None in E; congruence].
    pose proof (remove_Some _ _ _ _ E) as (Hm' & _). rewrite Hid in Hm'. injection Hm' as <-.
    unfold mbind, M_bind, modify. cbn [fst snd].
    match goal with |- context [evict ids _ _ (?b, r)] => set (a1 := b) end.
    assert (Hms : ra_members a1 = ms) by done.
    edestruct (IH (removed ++ [id])) as (acts2 & a2 & -> & Ht2 & Hs2 & Hc2); [| |
      |eexists (_ :: _ :: acts2), a2].
    + rewrite Hms. by eapply remove_preserves_ok.
    + done.
    + rewrite Hms. eapply list.Forall_impl; [|]. 2: { intros i Hi. rewrite (by_id_remove _ _ _ _ _ Htab E). exact Hi. }
      rewrite list.Forall_forall in *. intros i Hi. rewrite bool_decide_eq_false_2 by (intros ->; done).
      by apply Hby.
    + rewrite <-!(assoc_L (++)). split_and!; [done| | |].
      * rewrite Ht2, Hms. rewrite <-stays_cons. f_equal.
        unfold Members.remove in E. destruct (remove_first _ _) as [[k ks]|] eqn:Ef; [|done].
        injection E as -> <-. simpl. eapply remove_first_filter; [|exact Ef]. by destruct Htab.
      * done.
      * unfold closes in *. csimpl. rewrite Hid. csimpl. f_equal. rewrite Hc2, Hms.
        clear -Hni E Htab. induction ids as [|i ids IHi]; [done|]. csimpl.
        apply not_elem_of_cons in Hni as [Hi Hni]. rewrite (by_id_remove _ _ _ _ _ Htab E).
        rewrite bool_decide_eq_false_2 by congruence. by rewrite IHi.
Qed.

(** A pending transition ends: once every awaited member has acknowledged, in
    whatever order, the pending key is installed, the room returns to the state of its
    policy and the queued broadcasts are released, in order. *)
Theorem acks_activate limits hid mid a r :
  primitives_total → contributory hid (member_x25519_pubkey mid) →
  reachable limits hid mid (event_ok hid) (a, r) → ra_state a = RS_EpochTransition →
  ∃ p, ra_pending_epoch a = Some p ∧
    ∀ ms, Forall (λ m, m ∈ table_members (ra_members a)) ms →
      pe_awaiting p ≡ₚ member_id <$> ms →
      handle_acks (connection <$> ms) (pe_epoch p) (a, r) =
        (Done (released a), (activated p a, r)).
Proof.
  intros Ht Hx Hr Hst. pose proof (reachable_J hid Ht _ _ _ Hx Hr) as (Hok & _ & _ & Hs).
  unfold state_ok in Hs. cbn [fst] in *. rewrite Hst in Hs.
  destruct Hs as (p & Hp & _ & Hne & Hnd & _). exists p. split; [done|].
  intros ms Hms Hperm. apply acks_run; try done.
  intros ->. apply Hne. by apply Permutation_nil_r in Hperm.
Qed.

(** The announcements of members that are gone, each with a number. *)
Lemma queue_all_gone_run ids t : ∀ s, (ra_room_sequence s.1 + N.of_nat (length ids) < u64_limit)%N →
  ∃ s', queue_all_gone ids t s = (Done tt, s').
Proof.
  induction ids as [|id ids IH]; intros [a r] Hq; [by eexists|]. cbn [queue_all_gone fst length] in *.
  unfold mbind at 1, M_bind at 1, queue_member_gone, bump_sequence, push_membership, mbind, M_bind, self, modify, expect. cbn [fst snd].
  rewrite succ_u64_lt by lia. cbn [mret M_ret fst snd]. apply IH. cbn. lia.
Qed.

Lemma begin_never_panics acts a r :
  (ra_epoch a + 1 < u64_limit)%N → (ra_room_sequence a + 1 < u64_limit)%N →
  wp (begin_epoch_transition acts) (λ o _, o ≠ Panic) (a, r).
Proof.
  intros He Hq. unfold begin_epoch_transition, bump_sequence. rewrite wp_self, wp_expect. cbn [fst snd].
  rewrite succ_u64_lt by done. rewrite !wp_modify. rewrite wp_bind, wp_self, wp_expect. cbn [fst snd ra_room_sequence put_chat_replay put_epoch].
  rewrite succ_u64_lt by done. rewrite wp_modify_last. cbn [bind_post]. rewrite wp_draw. cbn [fst snd].
  destruct (EpochKey_generate r) as [[key|] r1]; [|done]. rewrite wp_self, wp_bind.
  eapply wp_mono; [|apply wrap_members_wp]. intros [x|e|] s' (_ & Ho & _); cbn [bind_post]; [|done|done].
  by rewrite !wp_modify.
Qed.

Lemma skeeps_all_gone ids t : keeps ra_session_id (queue_all_gone ids t).
Proof. induction ids as [|id ids IH]; cbn [queue_all_gone]; [apply keeps_ret|]. apply keeps_bind; [apply skeeps_gone|done]. Qed.

(** The tail of an eviction: a transition of the remaining table, then
    broadcasts. *)
Lemma restart_run ids t acts a r o s' :
  primitives_total → keys_ok (ra_host_identity a) (table_members (ra_members a)) →
  (ra_epoch a + 1 < u64_limit)%N → (ra_room_sequence a + 1 + N.of_nat (length ids) < u64_limit)%N →
  (acts ← begin_epoch_transition acts; queue_all_gone ids t;; mret acts) (a, r) = (o, s') →
  ∃ key wraps, o = Done (acts ++ wraps) ∧ ra_state s'.1 = RS_EpochTransition ∧
    ra_members s'.1 = ra_members a ∧ ra_epoch s'.1 = (ra_epoch a + 1)%N ∧
    ra_pending_epoch s'.1 = Some {| pe_epoch := (ra_epoch a + 1)%N; pe_key := key;
      pe_awaiting := member_id <$> table_members (ra_members a); pe_started_at := ra_now a |} ∧
    Forall2 (wrap_sent s'.1 key) (table_members (ra_members a)) wraps.
Proof.
  intros Ht Hk Hce Hcq Hrun. pose proof (begin_wp acts a r) as Hb. pose proof (begin_total acts a r Ht Hk) as Hf.
  pose proof (begin_never_panics acts a r Hce ltac:(lia)) as Hn. unfold wp in Hb, Hf, Hn.
  revert Hrun. unfold mbind at 1, M_bind at 1.
  destruct (begin_epoch_transition acts (a, r)) as [o1 [b r1]]. cbn [fst snd] in *.
  destruct o1 as [acts1|e|]; [|by edestruct Hf|done].
  destruct Hb as (key & wraps & _ & _ & _ & Hre & -> & Hw).
  unfold mbind, M_bind. pose proof (ekeeps_all_gone ids t (b, r1)) as He. pose proof (skeeps_all_gone ids t (b, r1)) as Hsid.
  destruct Hre as (Hfr & H2 & Hq & _ & H3 & H4 & _). destruct (queue_all_gone_run ids t (b, r1)) as ([b2 r2] & Eq).
  { cbn [fst]. rewrite Hq. lia. }
  rewrite Eq in *. cbn [fst snd] in *. unfold eview, frame in *.
  injection He as E1 _ _ _ _ _ E7 E8 _ E10 E11 _ _. injection Hfr as F1 _ _ _ _ _.
  intros [= <- <-]. exists key, wraps. cbn [fst].
  split_and!; [done|congruence|congruence|congruence|rewrite E11, H4; by rewrite H2|].
  eapply Forall2_impl; [|exact Hw]. intros m act. by apply wrap_sent_view; symmetry.
Qed.

Definition ack_deadline (a : RoomActor) : Duration :=
  Timeouts_get (ra_timeouts a) TK_EpochAcknowledgement.

(** What an eviction leaves to the transition after it. *)
Definition transition_view (a : RoomActor) := (ra_now a, ra_epoch a, ra_room_sequence a).

Lemma keeps_view_evict ids removed acts : keeps transition_view (evict ids removed acts).
Proof.
  revert removed acts. induction ids as [|id ids IH]; intros; simpl; [auto with keeps|].
  solve_keeps; apply IH.
Qed.

(** [EV_EpochMaintenance] in a transition, up to the eviction. *)
Lemma maintenance_run a r p now :
  ra_state a = RS_EpochTransition → ra_pending_epoch a = Some p →
  handle_event_at EV_EpochMaintenance now (a, r) =
  if (now - pe_started_at p <? ack_deadline a)%N then (Done [], (put_now now a, r)) else
  (if bool_decide (0%N ∈ pe_awaiting p) then close_room else
   r ← evict (pe_awaiting p) [] [];
   actions ← begin_epoch_transition (snd r);
   queue_all_gone (fst r) MSG_MEMBER_LEFT;; mret actions)
    (put_pending_epoch None (put_now now a), r).
Proof.
  intros Hst Hp. unfold handle_event_at. unfold mbind at 1, M_bind at 1, modify at 1.
  cbn [fst snd]. unfold mbind at 1, M_bind at 1, self at 1. cbn [fst snd].
  assert (ra_state (put_now now a) = RS_EpochTransition) as -> by done.
  cbn [handle_in_transition]. unfold on_epoch_timeout.
  unfold mbind at 1, M_bind at 1, self at 1. cbn [fst snd].
  assert (ra_pending_epoch (put_now now a) = Some p) as -> by done.
  change (ra_now (put_now now a)) with now.
  change (ra_timeouts (put_now now a)) with (ra_timeouts a). unfold ack_deadline.
  destruct (_ <? _)%N; [done|]. cbv zeta. unfold mbind at 1, M_bind at 1, modify at 1.
  done.
Qed.

(** C24.  A transition cannot hang on a silent member, as long as the random source
    and the cipher never fail and the room was reached with keys the host can wrap for:
    before the deadline a maintenance tick changes nothing; after it a stalled host ends
    the room; and, while the epoch and the room's sequence have numbers left, other
    stalled members, they alone, are evicted and disconnected, and in a new transition
    each of the others is sent its own wrap of one fresh key and is awaited. *)
Theorem stalled_members_are_evicted limits hid mid a r now :
  primitives_total → contributory hid (member_x25519_pubkey mid) →
  reachable limits hid mid (event_ok hid) (a, r) → ra_state a = RS_EpochTransition →
  ∃ p, ra_pending_epoch a = Some p ∧
    let '(o, s') := handle_event_at EV_EpochMaintenance now (a, r) in
    let a' := s'.1 in
    if decide (now - pe_started_at p < ack_deadline a)%N then
      (* before the deadline nobody is disturbed *)
      o = Done [] ∧ a' = put_now now a
    else if decide (0%N ∈ pe_awaiting p) then
      (* a stalled host ends the room *)
      ra_state a' = RS_Destroyed ∧
      ∃ acts, o = Done acts ∧ closes acts = conn_ids (ra_connections a)
    else
      (* the stalled members, and they alone, leave; each of the others is sent
         a fresh key, its own wrap of it, and is awaited again *)
      (ra_epoch a + 1 < u64_limit)%N → (ra_room_sequence a + 1 + N.of_nat (length (pe_awaiting p)) < u64_limit)%N →
      ∃ acts wraps key, o = Done (acts ++ wraps) ∧ sends acts = [] ∧
        closes acts = omap (λ id, connection <$> by_id (ra_members a) id) (pe_awaiting p) ∧
        table_members (ra_members a') =
          List.filter (stays (pe_awaiting p)) (table_members (ra_members a)) ∧
        ra_state a' = RS_EpochTransition ∧
        ra_pending_epoch a' = Some {| pe_epoch := ra_epoch a'; pe_key := key;
          pe_awaiting := member_id <$> table_members (ra_members a'); pe_started_at := now |} ∧
        Forall2 (wrap_sent a' key) (table_members (ra_members a')) wraps.
Proof.
  intros Ht Hx Hr Hst. pose proof (reachable_J hid Ht _ _ _ Hx Hr) as (Hok & Hk & _ & Hs).
  unfold state_ok in Hs. cbn [fst] in *. rewrite Hst in Hs.
  destruct Hs as (p & Hp & Hpe & Hne & Hnd & Hby). exists p. split; [done|].
  rewrite (maintenance_run _ _ _ _ Hst Hp). destruct (decide _) as [Hd|Hd].
  { rewrite (proj2 (N.ltb_lt _ _) Hd). done. }
  rewrite (proj2 (N.ltb_nlt _ _) Hd). destruct (decide (0%N ∈ pe_awaiting p)) as [H0|H0].
  { rewrite bool_decide_eq_true_2 by done. unfold close_room, mbind, M_bind, self, modify.
    cbn [fst snd]. assert (ra_state (put_pending_epoch None (put_now now a)) =
      RS_EpochTransition) as -> by done. rewrite bool_decide_eq_false_2 by done.
    cbv zeta. split; [done|]. eexists. split; [done|]. rewrite closes_app. simpl.
    rewrite app_nil_r. unfold conn_ids. simpl. induction (map_to_list _).*1 as [|c l IH]; [done|].
    csimpl. unfold closes in *. csimpl. by rewrite IH. }
  rewrite bool_decide_eq_false_2 by done. unfold mbind at 1, M_bind at 1.
  set (a0 := put_pending_epoch None (put_now now a)).
  destruct (evict_run (pe_awaiting p) [] [] a0 r) as (acts & a1 & Hev & Htm & Hse & Hcl);
    [by destruct Hok|done|done|].
  pose proof (evict_wp hid (pe_awaiting p) [] [] (a0, r) H0) as Hw.
  assert (Hk0 : keys_inv hid a0) by done. specialize (Hw Hok Hk0). unfold wp in Hw.
  rewrite Hev in *. cbn [fst snd] in *. destruct Hw as (_ & _ & _ & Hid1 & Hk1 & _).
  pose proof (keeps_view_evict (pe_awaiting p) [] [] (a0, r)) as Hn. rewrite Hev in Hn. injection Hn as Hn1 Hn2 Hn3.
  match goal with |- context [mbind ?k ?m (a1, r)] =>
    destruct (mbind k m (a1, r)) as [o s'] eqn:Erun end.
  intros Hce Hcq. eapply restart_run in Erun as (key & wraps & -> & H1 & H2 & H3 & H4 & H5);
    [|done|by rewrite Hid1|by rewrite Hn2|by rewrite Hn3].
  cbn [app]. exists acts, wraps, key. rewrite H2. split_and!; try done.
  rewrite H4, H3. by rewrite Hn1.
Qed.
End liveness.
