(* ===== verification/RoomRelay.v ===== *)
(** The chat relay: what is forwarded, to whom, and that no envelope is
    forwarded twice over a whole run of the room. *)
From Stdlib Require Import Strings.String.
From S2P Require Export RoomProps.

(** The chat-class message that carries an envelope. *)
Definition carries (msg : Message) (env : EncryptedEnvelope) : Prop :=
  msg = M_ChatMessage env ∨ msg = M_ColorChange env ∨ msg = M_TimeoutChanged env.

(** [acts] forward [env] to somebody. *)
Definition relays (acts : list RoomAction) (env : EncryptedEnvelope) : Prop :=
  ∃ c msg, (c, msg) ∈ sends acts ∧ carries msg env.

(** The message an accepted envelope of type [t] is forwarded as. *)
Definition relayed_as (t : u8) (env : EncryptedEnvelope) : Message :=
  if (t =? MSG_COLOR)%N then M_ColorChange env
  else if (t =? MSG_TIMEOUT_CHANGED)%N then M_TimeoutChanged env
  else M_ChatMessage env.

(** The payload rules of the chat-class types. *)
Definition payload_ok (t : u8) (sender : MemberId) (plaintext : list byte) : Prop :=
  if (t =? MSG_COLOR)%N then
    ∃ b, plaintext = [b] ∧ is_Some (ColorChoice_from_index (byte_val b))
  else if (t =? MSG_TIMEOUT_CHANGED)%N then
    sender = 0%N ∧ ∃ b rest, plaintext = b :: rest ∧ length rest = 8 ∧
      timeout_setting_valid (byte_val b) rest = true
  else
    t = MSG_CHAT ∧ ∃ text, from_utf8 plaintext = Some text ∧
      validate_chat_text text Limits_default = Ok tt.

Lemma sends_relay c msg ms :
  sends (relay c msg ms) =
  omap (λ m, if (connection m =? c)%N then None else Some (connection m, msg)) ms.
Proof.
  unfold relay, sends. induction ms as [|m ms IH]; [done|]. csimpl.
  destruct (_ =? _)%N; csimpl; by rewrite IH.
Qed.

Lemma closes_relay c msg ms : closes (relay c msg ms) = [].
Proof.
  unfold relay, closes. induction ms as [|m ms IH]; [done|]. csimpl.
  destruct (_ =? _)%N; csimpl; exact IH.
Qed.

Section relay.
Context `{PR : !Primitives} `{NF : !Nfc}.

(** The group key in force for chat: the pending one in a transition. *)
Definition chat_key (a : RoomActor) : option (u64 * EpochKey) :=
  match ra_pending_epoch a, ra_epoch_key a with
  | Some pending, _ => Some (pe_epoch pending, pe_key pending)
  | None, Some key => Some (ra_epoch a, key)
  | None, None => None
  end.

(** The conditions under which the room accepts an envelope: it comes on
    its sender's connection, is of the current epoch and past the sender's
    last sequence, is signed by the key the sender joined with, opens
    under the group key and has a valid payload. *)
Record accepted (a : RoomActor) (c : ConnectionId) (t : u8) (env : EncryptedEnvelope)
    (m : Member) (plaintext : list byte) : Prop := {
  acc_sender : conn_member_id (ra_connections a) c = Some (env_sender_id env);
  acc_member : by_id (ra_members a) (env_sender_id env) = Some m;
  acc_epoch : env_epoch env = ra_epoch a;
  acc_fresh : fresh_sequence (ra_chat_replay a) (env_sender_id env) (ra_epoch a)
    (env_sender_sequence env);
  acc_open : ∃ ke key, chat_key a = Some (ke, key) ∧
    open_envelope key (ed25519_pubkey m) 1 (ra_session_id a) ke (env_sender_id env)
      (env_sender_sequence env) t (env_nonce env) (env_ciphertext env) (env_signature env)
      = Ok plaintext;
  acc_payload : payload_ok t (env_sender_id env) plaintext;
}.

Lemma begin_no_relay acts s acts' s' env :
  begin_epoch_transition acts s = (Done acts', s') → relays acts' env → relays acts env.
Proof.
  destruct s as [a r]. intros Hrun. pose proof (begin_wp acts a r) as Hb. unfold wp in Hb.
  rewrite Hrun in Hb. destruct Hb as (key & l & _ & _ & _ & _ & -> & Hl).
  intros (c & msg & Hin & Hc). rewrite sends_app in Hin. apply elem_of_app in Hin as [Hin|Hin].
  - by exists c, msg.
  - destruct (wraps_sends _ _ _ _ _ _ Hl Hin) as [_ [w ->]]. by destruct Hc as [|[|]].
Qed.

Lemma remove_member_no_relay id t acts s x acts' s' env :
  remove_member id t acts s = (Done (x, acts'), s') → relays acts' env → relays acts env.
Proof.
  intros Hrun. eapply (wp_run _ (λ o _, o = Done (x, acts') → relays acts' env → relays acts env));
    [exact Hrun| |done].
  unfold remove_member. destruct (_ =? _)%N; [done|]. rewrite wp_self.
  destruct (Members.remove _ _) as [[m ms]|]; [|by intros [= <- <-]].
  rewrite !wp_modify, wp_bind. unfold wp at 1.
  destruct (begin_epoch_transition _ _) as [[l|e|] s2] eqn:Eb; cbn [fst snd bind_post]; [|done..].
  unfold wp, mbind, M_bind, mret, M_ret. destruct (queue_member_gone _ _ _) as [[]]; [|done..].
  intros [= <- <-]. by eapply begin_no_relay.
Qed.

(** The rate limiter forwards nothing, and where it lets a message pass it
    changes only its bucket. *)
Lemma rate_limit_wp c id a r :
  wp (rate_limit c id) (λ o s',
    match o with
    | Done None => ∃ l, s'.1 = put_rate_limits l a
    | Done (Some acts) => ∀ env, ¬ relays acts env
    | _ => True
    end) (a, r).
Proof.
  unfold rate_limit. rewrite wp_self, wp_expect. cbn [fst snd].
  destruct (allow _ _) as [[ok l]|]; [|done]. rewrite wp_modify. cbn [fst snd].
  destruct ok; [by eexists|]. rewrite wp_try.
  destruct (ErrorMessage_new _ _) as [m|]; [|done]. cbv zeta.
  assert (Hno : ∀ env, ¬ relays [SendTo c (M_Error m);
    NotifyHost (HN_Error (lit "member exceeded the message rate limit"))] env).
  { intros env (c' & msg & Hin & Hc). csimpl in *. apply elem_of_cons in Hin as [[= -> ->]|Hin];
      [by destruct Hc as [|[|]]|by apply elem_of_nil in Hin]. }
  destruct (is_abusive _ _); [|exact Hno].
  rewrite wp_bind. unfold wp at 1.
  destruct (remove_member _ _ _ _) as [[[x acts]|e|] s2] eqn:Er; cbn [fst snd bind_post]; [|done..].
  assert (Hno' : ∀ env, ¬ relays acts env)
    by (intros env Hr; eapply remove_member_no_relay in Hr; [by eapply Hno|exact Er]).
  destruct x as [k|]; [|exact Hno']. intros env (c' & msg & Hin & Hc).
  apply (Hno' env). exists c', msg. split; [|done]. rewrite sends_app in Hin. csimpl in Hin.
  by rewrite app_nil_r in Hin.
Qed.

Lemma relay_set_color c msg ms id col :
  relay c msg (table_members (set_color ms id col)) = relay c msg (table_members ms).
Proof.
  unfold relay. simpl. induction (table_members ms) as [|m l IH]; [done|]. simpl.
  destruct (key_is member_id id m); [done|]. csimpl. by rewrite IH.
Qed.

(** The accepted payload of one type: the message, and the actor but for
    its colors and its timeout. *)
Definition payload_post (t : u8) (env : EncryptedEnvelope) (p : list byte) (a : RoomActor)
    (o : Outcome RoomError Message) (s' : St) : Prop :=
  ∀ msg, o = Done msg →
    msg = relayed_as t env ∧ payload_ok t (env_sender_id env) p ∧
    ra_chat_replay s'.1 = ra_chat_replay a ∧ ra_epoch s'.1 = ra_epoch a ∧
    ∀ c m, relay c m (table_members (ra_members s'.1)) = relay c m (table_members (ra_members a)).

Lemma on_color_message_post env p a r :
  wp (on_color_message (env_sender_id env) env p) (payload_post MSG_COLOR env p a) (a, r).
Proof.
  unfold on_color_message, payload_post. destruct p as [|b [|]]; try done.
  rewrite wp_ok_or. destruct (ColorChoice_from_index _) as [col|] eqn:E; [|done].
  rewrite wp_modify. intros msg [= <-]. split_and!; [done| |done|done|].
  - exists b. by rewrite E.
  - intros c m. apply relay_set_color.
Qed.

Lemma on_timeout_changed_post env p a r :
  wp (on_timeout_changed (env_sender_id env) env p) (payload_post MSG_TIMEOUT_CHANGED env p a)
    (a, r).
Proof.
  unfold on_timeout_changed, payload_post. destruct (N.eqb_spec (env_sender_id env) 0); [|done].
  destruct (Nat.eqb_spec (length p) 9); [|done]. destruct p as [|b rest]; [done|]. cbn [negb].
  cbv zeta. destruct (timeout_setting_valid _ _) eqn:Ev; [|done]. cbn [negb].
  rewrite wp_bind. unfold wp at 1.
  destruct (_ =? 0)%N; [|destruct (_ =? 1)%N; [|done]]; cbn [fst snd mret M_ret bind_post];
    rewrite wp_modify; intros msg [= <-]; (split_and!; [done| |done|done|done]);
    (split; [done|]); exists b, rest; simpl in *; (split_and!; [done|lia|done]).
Qed.

Lemma on_chat_message_post env p a r :
  wp (on_chat_message env p) (payload_post MSG_CHAT env p a) (a, r).
Proof.
  unfold on_chat_message, payload_post. rewrite wp_ok_or.
  destruct (from_utf8 p) as [text|] eqn:E; [|done]. rewrite wp_try.
  destruct (validate_chat_text _ _) as [u|] eqn:Ev; [|done].
  intros msg [= <-]. split_and!; try done. split; [done|]. exists text. by destruct u.
Qed.

Lemma timeout_request_no_relay c id p s acts s' env :
  on_timeout_request c id p s = (Done acts, s') → ¬ relays acts env.
Proof.
  intros Hrun. eapply (wp_run _ (λ o _, o = Done acts → ¬ relays acts env)); [exact Hrun| |done].
  clear. unfold on_timeout_request. destruct (_ =? _)%N; [done|]. destruct (negb _); [done|].
  cbv zeta. destruct (negb _); [done|]. rewrite wp_self. destruct (_ <=? _)%N; [done|].
  rewrite wp_expect. destruct (by_id _ _); [|done]. rewrite wp_expect.
  destruct (allocate_id _) as [[]|]; [|done]. rewrite !wp_modify. intros [= <-] (c' & msg & Hin & _).
  by apply elem_of_nil in Hin.
Qed.

Lemma chat_plaintext_wp id t env a r :
  wp (chat_plaintext id t env) (λ o s', s' = (a, r) ∧ ∀ p, o = Done p →
    ∃ m ke key, by_id (ra_members a) id = Some m ∧ chat_key a = Some (ke, key) ∧
      open_envelope key (ed25519_pubkey m) 1 (ra_session_id a) ke (env_sender_id env)
        (env_sender_sequence env) t (env_nonce env) (env_ciphertext env) (env_signature env)
        = Ok p) (a, r).
Proof.
  unfold chat_plaintext. rewrite wp_self, wp_ok_or. cbn [fst snd]. fold (chat_key a).
  destruct (chat_key a) as [[ke key]|]; [|done]. rewrite wp_ok_or.
  destruct (by_id _ _) as [m|]; [|done]. cbn [fmap option_fmap option_map].
  unfold wp, try_. destruct (open_envelope _ _ _ _ _ _ _ _ _ _ _) as [q|] eqn:E; [|done].
  split; [done|]. intros p [= <-]. by exists m, ke, key.
Qed.

(** What [on_chat_received] relays, from the state it ran in. *)
Definition relay_post (a : RoomActor) (c : ConnectionId) (t : u8) (env : EncryptedEnvelope)
    (acts : list RoomAction) (a' : RoomActor) : Prop :=
  ∃ m plaintext, accepted a c t env m plaintext ∧
    acts = relay c (relayed_as t env) (table_members (ra_members a)) ∧
    ra_epoch a' = ra_epoch a ∧
    last_accepted (ra_chat_replay a') (env_sender_id env) (ra_epoch a) =
      Some (env_sender_sequence env).

Lemma payload_wp t env p a r :
  (t =? MSG_TIMEOUT_REQUEST)%N = false →
  wp (if (t =? MSG_COLOR)%N then on_color_message (env_sender_id env) env p
      else if (t =? MSG_TIMEOUT_CHANGED)%N then on_timeout_changed (env_sender_id env) env p
      else if (t =? MSG_CHAT)%N then on_chat_message env p else panic)
    (payload_post t env p a) (a, r).
Proof.
  intros Ht. destruct (N.eqb_spec t MSG_COLOR) as [->|]; [apply on_color_message_post|].
  destruct (N.eqb_spec t MSG_TIMEOUT_CHANGED) as [->|]; [apply on_timeout_changed_post|].
  destruct (N.eqb_spec t MSG_CHAT) as [->|]; [apply on_chat_message_post|done].
Qed.

Lemma chat_checked_wp c t env a r :
  conn_member_id (ra_connections a) c = Some (env_sender_id env) →
  wp (chat_checked c (env_sender_id env) t env)
    (λ o s', ∀ acts env', o = Done acts → relays acts env' → relay_post a c t env acts s'.1)
    (a, r).
Proof.
  intros Hc. unfold chat_checked. rewrite wp_self. cbn [fst snd].
  destruct (N.eqb_spec (env_epoch env) (ra_epoch a)) as [He|]; [|done]. cbn [negb].
  destruct (match last_accepted _ _ _ with Some _ => _ | None => _ end) eqn:El; [done|].
  assert (Hf : fresh_sequence (ra_chat_replay a) (env_sender_id env) (ra_epoch a)
    (env_sender_sequence env)).
  { intros last Hl. unfold last_accepted in El. rewrite Hl in El. by apply N.leb_gt in El. }
  rewrite wp_bind. eapply wp_mono; [|apply chat_plaintext_wp].
  intros [p|e|] s1 [-> Hp]; cbn [bind_post]; [|done..].
  destruct (Hp _ eq_refl) as (m & ke & key & Hm & Hkey & Hopen).
  rewrite wp_modify. cbn [fst snd].
  destruct (t =? MSG_TIMEOUT_REQUEST)%N eqn:Et.
  - unfold wp. destruct (on_timeout_request _ _ _ _) as [[acts|e|] s2] eqn:Eq; [|done..].
    intros acts' env' [= <-] Hr. by eapply timeout_request_no_relay in Hr.
  - rewrite wp_bind. eapply wp_mono; [|by apply payload_wp].
    intros [msg|e|] [b r1] Hpost; cbn [bind_post]; [|done..].
    destruct (Hpost _ eq_refl) as (-> & Hpay & Hrep & Hep & Hrel).
    rewrite wp_self, wp_ret. intros acts env' [= <-] _. exists m, p. cbn [fst snd] in *.
    split_and!.
    + constructor; try done. by exists ke, key.
    + by rewrite Hrel.
    + exact Hep.
    + rewrite Hrep. simpl. unfold last_accepted.
      destruct (accept (ra_chat_replay a) (env_sender_id env) (ra_epoch a)
        (env_sender_sequence env)) as [ok t'] eqn:Ea.
      pose proof (accept_spec (ra_chat_replay a) (env_sender_id env) (ra_epoch a)
        (env_sender_sequence env)) as Hs. rewrite Ea in Hs. destruct Hs as (Hok & Ht' & _).
      simpl. rewrite Ht' by (by apply Hok). apply lookup_insert_eq.
Qed.

Lemma relay_post_rates l a c t env acts a' :
  relay_post (put_rate_limits l a) c t env acts a' → relay_post a c t env acts a'.
Proof. intros (m & p & [] & ? & ? & ?). by exists m, p. Qed.

Lemma on_chat_received_wp c t env a r :
  wp (on_chat_received c t env)
    (λ o s', ∀ acts env', o = Done acts → relays acts env' → relay_post a c t env acts s'.1) (a, r).
Proof.
  unfold on_chat_received. destruct (negb _); [done|]. rewrite wp_self, wp_ok_or. cbn [fst snd].
  destruct (conn_member_id _ _) as [id|] eqn:Hc; [|done].
  destruct (N.eqb_spec (env_sender_id env) id) as [<-|]; [|done]. cbn [negb].
  rewrite wp_ok_or. destruct (by_id _ _) as [m|]; [|done]. rewrite wp_bind.
  assert (Hrest : ∀ l r', wp (chat_checked c (env_sender_id env) t env)
    (λ o s', ∀ acts env', o = Done acts → relays acts env' → relay_post a c t env acts s'.1)
    (put_rate_limits l a, r')).
  { intros l r'. eapply wp_mono; [|by apply (chat_checked_wp c t env (put_rate_limits l a))].
    intros o s' Hpost acts env' Ho Hr. by eapply relay_post_rates, Hpost. }
  destruct (is_rate_limited t).
  - eapply wp_mono; [|apply rate_limit_wp].
    intros [[acts|]|e|] [b r1] Ho; cbn [bind_post]; [| |done..].
    + intros acts' env' [= <-] Hr. by destruct (Ho env').
    + destruct Ho as [l Hb]. cbn [fst] in Hb. subst b. apply Hrest.
  - rewrite wp_ret. cbn [bind_post]. replace (a, r) with (put_rate_limits (ra_rate_limits a) a, r)
      by (by destruct a). apply Hrest.
Qed.

(** C23.  What the room relays is the envelope it received, unchanged, and only if
    it came on its sender's own connection, is of the current epoch, is past the
    sender's last sequence, carries the sender's signature, opens under the group key
    and has a valid payload; it goes to every member but the one it came from. *)
Theorem chat_relay_sound c t env a r acts s' env' :
  on_chat_received c t env (a, r) = (Done acts, s') → relays acts env' →
  env' = env ∧
  (∃ m plaintext, accepted a c t env m plaintext) ∧
  sends acts = omap (λ m, if (connection m =? c)%N then None
    else Some (connection m, relayed_as t env)) (table_members (ra_members a)) ∧
  closes acts = [].
Proof.
  intros Hrun Hrel. pose proof (on_chat_received_wp c t env a r) as Hw. unfold wp in Hw.
  rewrite Hrun in Hw. destruct (Hw _ _ eq_refl Hrel) as (m & p & Hacc & -> & _).
  split_and!; [|by exists m, p|apply sends_relay|].
  - destruct Hrel as (c' & msg & Hin & Hc). rewrite sends_relay in Hin.
    apply list_elem_of_omap in Hin as (m' & _ & Hm'). destruct (_ =? _)%N; [done|].
    injection Hm' as <- <-. unfold relayed_as, carries in Hc.
    destruct (t =? MSG_COLOR)%N; [|destruct (t =? MSG_TIMEOUT_CHANGED)%N];
      destruct Hc as [|[|]]; by simplify_eq.
  - apply closes_relay.
Qed.

(** The room once it has relayed a chat message: the sender's window and its
    rate, and nothing else. *)
Definition past_chat (env : EncryptedEnvelope) (l : RateLimiter) (a : RoomActor) : RoomActor :=
  put_chat_replay (snd (accept (ra_chat_replay a) (env_sender_id env) (ra_epoch a) (env_sender_sequence env)))
    (put_rate_limits (<[env_sender_id env := l]> (ra_rate_limits a)) a).

Lemma relay_run c env a r m plaintext l :
  accepted a c MSG_CHAT env m plaintext →
  allow (default (RateLimiter_new 5 1) (ra_rate_limits a !! env_sender_id env)) (ra_now a)
    = Some (true, l) →
  on_chat_received c MSG_CHAT env (a, r) =
    (Done (relay c (M_ChatMessage env) (table_members (ra_members a))), (past_chat env l a, r)).
Proof.
  intros [Hc Hm He Hf (ke & key & Hkey & Hopen) Hpay] Hallow.
  destruct Hpay as (_ & text & Hutf & Hval).
  unfold on_chat_received. simpl. unfold mbind at 1, M_bind at 1, self at 1. cbn [fst snd].
  rewrite Hc. unfold mbind at 1, M_bind at 1. cbn [ok_or mret M_ret].
  rewrite N.eqb_refl, Hm. cbn [negb]. unfold mbind at 1, M_bind at 1. cbn [ok_or mret M_ret].
  unfold rate_limit, mbind, M_bind, self, modify. cbn [fst snd]. rewrite Hallow.
  cbn [expect mret M_ret fst snd]. unfold chat_checked, mbind, M_bind, self, modify. cbn [fst snd].
  change (ra_epoch (put_rate_limits _ a)) with (ra_epoch a).
  change (ra_chat_replay (put_rate_limits _ a)) with (ra_chat_replay a).
  rewrite He, N.eqb_refl. cbn [negb].
  replace (match last_accepted _ _ _ with Some _ => _ | None => _ end) with false; cycle 1.
  { unfold last_accepted. destruct (ra_chat_replay a !! _) as [last|] eqn:El; [|done].
    symmetry. apply N.leb_gt. by apply Hf. }
  unfold chat_plaintext, mbind, M_bind, self. cbn [fst snd].
  fold (chat_key (put_rate_limits (<[env_sender_id env := l]> (ra_rate_limits a)) a)).
  change (chat_key (put_rate_limits _ a)) with (chat_key a). rewrite Hkey.
  cbn [ok_or mret M_ret fst snd]. change (ra_members (put_rate_limits _ a)) with (ra_members a).
  rewrite Hm. cbn [ok_or mret M_ret fst snd fmap option_fmap option_map].
  change (ra_session_id (put_rate_limits _ a)) with (ra_session_id a). rewrite Hopen.
  cbn [try_ mret M_ret]. simpl. unfold on_chat_message, mbind, M_bind. rewrite Hutf. simpl.
  rewrite Hval. done.
Qed.

(** An acceptable chat message within the sender's rate is relayed to every
    other member. *)
Theorem chat_relay_complete c env a r m plaintext l :
  accepted a c MSG_CHAT env m plaintext →
  allow (default (RateLimiter_new 5 1) (ra_rate_limits a !! env_sender_id env)) (ra_now a)
    = Some (true, l) →
  ∃ a', on_chat_received c MSG_CHAT env (a, r) =
    (Done (relay c (M_ChatMessage env) (table_members (ra_members a))), (a', r)).
Proof. intros Ha Hl. eexists. by eapply relay_run. Qed.
End relay.

(** The room is past message [q] of sender [id] in epoch [e]: it moved to a
    later epoch, or its window for the sender is at [q] or beyond. *)
Definition mark (id : MemberId) (e q : u64) (a : RoomActor) : Prop :=
  (e < ra_epoch a)%N ∨
  (e = ra_epoch a ∧ ∃ last, last_accepted (ra_chat_replay a) id e = Some last ∧ (q <= last)%N).

Definition replay_view (a : RoomActor) := (ra_epoch a, ra_chat_replay a).

Lemma mark_view id e q a a' : replay_view a = replay_view a' → mark id e q a → mark id e q a'.
Proof. unfold replay_view, mark. by intros [=-> ->]. Qed.

Section replay.
Context `{PR : !Primitives} `{NF : !Nfc}.
Context (id : MemberId) (e q : u64).

Lemma keeps_mark {A} (m : M A) : keeps replay_view m → preserves (mark id e q) m.
Proof. apply keeps_preserves. apply mark_view. Qed.

Lemma begin_mark acts : preserves (mark id e q) (begin_epoch_transition acts).
Proof.
  unfold begin_epoch_transition. intros [a r] Hm. rewrite wp_self, wp_expect. cbn [fst snd].
  destruct (succ_u64 (ra_epoch a)) as [e'|] eqn:Ee; [|by intros ?].
  apply succ_u64_Some in Ee as [-> _]. rewrite !wp_modify.
  match goal with |- wp ?m _ _ => assert (preserves (mark id e q) m) as Hp; [|apply Hp] end.
  - apply keeps_mark. unfold bump_sequence. solve_keeps.
  - left. simpl. destruct Hm as [H|[-> _]]; cbn [fst] in *; lia.
Qed.

Lemma accept_mark id' q' :
  preserves (mark id e q) (modify (λ a, put_chat_replay
    (snd (accept (ra_chat_replay a) id' (ra_epoch a) q')) a) : M unit).
Proof.
  apply preserves_modify. intros a [H|[-> (last & Hl & Hq)]]; [by left|].
  right. simpl. split; [done|]. unfold last_accepted in *.
  pose proof (accept_spec (ra_chat_replay a) id' (ra_epoch a) q') as Hs.
  destruct (accept _ _ _ _) as [ok t']. destruct Hs as (Hok & Ht & Hf). simpl.
  destruct ok; [|rewrite Hf by done; by exists last]. rewrite Ht by done.
  destruct (decide (id = id')) as [->|].
  - rewrite lookup_insert_eq. exists q'. split; [done|].
    pose proof (proj1 Hok eq_refl _ Hl). lia.
  - rewrite lookup_insert_ne by congruence. by exists last.
Qed.
End replay.

#[export] Hint Resolve begin_mark accept_mark : preserves.

(** [mark] is preserved by a computation assembled from the pieces above. *)
Ltac mark_step :=
  match goal with
  | |- preserves _ (self ≫= _) => apply preserves_self; intros ? ?
  | |- preserves _ (_ ≫= _) => apply preserves_bind; [|intros]
  | |- preserves _ (match ?x with _ => _ end) => destruct x
  | |- preserves _ (let _ := _ in _) => cbv zeta
  | |- _ => solve [auto with preserves]
  | |- preserves (mark _ _ _) _ => solve [apply keeps_mark; solve_keeps]
  end.

Section replay_handlers.
Context `{PR : !Primitives} `{NF : !Nfc}.
Context (id : MemberId) (e q : u64).
Abbreviation keeps_it := (preserves (mark id e q)).

Lemma remove_member_mark i t acts : keeps_it (remove_member i t acts).
Proof. unfold remove_member, queue_member_gone, bump_sequence, push_membership. repeat mark_step. Qed.
Hint Resolve remove_member_mark : preserves.

Lemma evict_mark ids removed acts : keeps_it (evict ids removed acts).
Proof. revert removed acts. induction ids; intros; simpl; repeat mark_step; auto. Qed.
Hint Resolve evict_mark : preserves.

Lemma queue_all_gone_mark ids t : keeps_it (queue_all_gone ids t).
Proof.
  induction ids; simpl; [auto with preserves|].
  unfold queue_member_gone, bump_sequence, push_membership. repeat mark_step; done.
Qed.
Hint Resolve queue_all_gone_mark : preserves.

Lemma close_room_mark : keeps_it close_room.
Proof. unfold close_room. repeat mark_step. Qed.
Hint Resolve close_room_mark : preserves.

Lemma on_epoch_timeout_mark : keeps_it on_epoch_timeout.
Proof. unfold on_epoch_timeout. repeat mark_step. Qed.

Lemma on_epoch_ack_mark c ep : keeps_it (on_epoch_ack c ep).
Proof. unfold on_epoch_ack. repeat mark_step. Qed.

Lemma on_connection_lost_mark c : keeps_it (on_connection_lost c).
Proof. unfold on_connection_lost. repeat mark_step. Qed.

Lemma drop_admissions_mark : keeps_it drop_admissions.
Proof. unfold drop_admissions. repeat mark_step. Qed.
Hint Resolve drop_admissions_mark : preserves.

Lemma on_host_command_mark cmd : keeps_it (on_host_command cmd).
Proof.
  destruct cmd; simpl; unfold on_kick, on_new_id, set_policy, on_accept, on_reject,
    take_timeout_request, take_join_request, queue_member_joined, queue_member_snapshot,
    bump_sequence, push_membership; repeat mark_step.
Qed.

Lemma on_member_command_mark c cmd : keeps_it (on_member_command c cmd).
Proof. destruct cmd; simpl; unfold on_leave, on_color; repeat mark_step. Qed.

Lemma on_chat_received_mark c t env : keeps_it (on_chat_received c t env).
Proof.
  unfold on_chat_received, chat_checked, rate_limit, chat_plaintext, on_timeout_request,
    on_color_message, on_timeout_changed, on_chat_message. repeat mark_step.
Qed.

Lemma handle_event_at_mark ev now : keeps_it (handle_event_at ev now).
Proof.
  unfold handle_event_at. apply preserves_bind; [by apply preserves_modify|]. intros _.
  apply preserves_self. intros a _.
  assert (Hact : keeps_it (handle_active ev)).
  { destruct ev; simpl; try (apply on_chat_received_mark || apply on_host_command_mark ||
      apply on_member_command_mark || apply on_epoch_ack_mark || apply on_connection_lost_mark ||
      apply close_room_mark || apply (on_host_command_mark (HC_Accept request_id)) ||
      apply (on_host_command_mark (HC_Reject request_id)));
      unfold on_join_requested, bump_sequence, on_member_left; repeat mark_step. }
  assert (Htr : keeps_it (handle_in_transition ev)).
  { destruct ev; simpl; try (apply on_epoch_ack_mark || apply on_connection_lost_mark ||
      apply close_room_mark || apply on_epoch_timeout_mark || apply preserves_fail).
    - apply preserves_self. intros b _. destruct (member_has_acked_pending_epoch _ _);
        [apply on_chat_received_mark|]. unfold reject_during_transition. repeat mark_step.
    - destruct command; try apply preserves_fail. apply (on_host_command_mark HC_Requests).
    - case_bool_decide; [apply on_epoch_timeout_mark|apply on_connection_lost_mark]. }
  destruct (ra_state a); auto with preserves.
Qed.
End replay_handlers.

Section runs.
Context `{PR : !Primitives} `{NF : !Nfc}.

Lemma steps_mark id e q s s' : steps s s' → mark id e q s.1 → mark id e q s'.1.
Proof.
  induction 1 as [|s ev now o s' s'' Hrun Ho _ IH]; [done|]. intros Hm. apply IH.
  pose proof (handle_event_at_mark id e q ev now s Hm) as Hp. unfold wp in Hp.
  rewrite Hrun in Hp. by apply Hp.
Qed.

(** A relaying event is a chat event the handler accepted. *)
Lemma chat_event_relays c t env now a r acts s' env' :
  handle_event_at (EV_ChatReceived c t env) now (a, r) = (Done acts, s') → relays acts env' →
  on_chat_received c t env (put_now now a, r) = (Done acts, s').
Proof.
  unfold handle_event_at, mbind, M_bind, modify, self. cbn [fst snd].
  destruct (ra_state (put_now now a)); try done. cbn [handle_in_transition].
  unfold mbind, M_bind, self. cbn [fst snd].
  destruct (member_has_acked_pending_epoch _ _); [done|].
  intros Hrun (c' & msg & Hin & Hc). exfalso. revert Hrun. unfold reject_during_transition.
  unfold mbind, M_bind, self, try_. cbn [fst snd]. destruct (_ =? _)%N.
  - intros [= <- <-]. by apply elem_of_nil in Hin.
  - destruct (ErrorMessage_new _ _); [|done]. intros [= <- <-]. csimpl in *.
    apply elem_of_cons in Hin as [[= -> ->]|Hin]; [by destruct Hc as [|[|]]|by apply elem_of_nil in Hin].
Qed.

(** C5.  No replay through the room: of two chat-class messages of one sender that
    the room relays, however many events later, the second is of a later epoch or has a
    strictly larger sequence number. *)
Theorem no_envelope_relayed_twice c t env now acts c' t' env' now' acts' s s1 s2 s3 :
  handle_event_at (EV_ChatReceived c t env) now s = (Done acts, s1) → relays acts env →
  steps s1 s2 →
  handle_event_at (EV_ChatReceived c' t' env') now' s2 = (Done acts', s3) → relays acts' env' →
  env_sender_id env' = env_sender_id env →
  (env_epoch env < env_epoch env' ∨
   env_epoch env = env_epoch env' ∧ env_sender_sequence env < env_sender_sequence env')%N.
Proof.
  destruct s as [a r], s2 as [a2 r2]. intros H1 Hr1 Hst H2 Hr2 Hid.
  apply (chat_event_relays _ _ _ _ _ _ _ _ _ H1) in Hr1 as H1'.
  apply (chat_event_relays _ _ _ _ _ _ _ _ _ H2) in Hr2 as H2'.
  pose proof (on_chat_received_wp c t env (put_now now a) r) as Hw1. unfold wp in Hw1.
  rewrite H1' in Hw1. destruct (Hw1 _ _ eq_refl Hr1) as (m & p & Ha1 & _ & He1 & Hl1).
  pose proof (on_chat_received_wp c' t' env' (put_now now' a2) r2) as Hw2. unfold wp in Hw2.
  rewrite H2' in Hw2. destruct (Hw2 _ _ eq_refl Hr2) as (m2 & p2 & Ha2 & _ & _ & _).
  pose proof (acc_epoch _ _ _ _ _ _ Ha1) as Hep1. pose proof (acc_epoch _ _ _ _ _ _ Ha2) as Hep2.
  cbn [fst snd] in *.
  assert (Hm : mark (env_sender_id env) (env_epoch env) (env_sender_sequence env) s1.1).
  { right. split; [congruence|]. exists (env_sender_sequence env). split; [|lia]. by rewrite Hep1. }
  pose proof (steps_mark _ _ _ _ _ Hst Hm) as [Hlt|[Heq (last & Hlast & Hq)]]; cbn [fst] in *.
  - left. rewrite Hep2. exact Hlt.
  - right. split; [by rewrite Hep2|]. pose proof (acc_fresh _ _ _ _ _ _ Ha2 last) as Hf.
    rewrite Hid in Hf. cbn in Hf. rewrite Heq in Hlast. specialize (Hf Hlast). lia.
Qed.
End runs.
