(* ===== verification/RoomGates.v ===== *)
(** What the room lets in: events during a transition, applications to a
    locked room, admission by the host, and the end of the room. *)
From Stdlib Require Import Strings.String.
From S2P Require Export RoomProps.

Lemma closes_drop rs : closes (drop_requests rs) = request_connection <$> rs.
Proof.
  unfold drop_requests, closes. induction rs as [|q l IH]; [done|]. csimpl. by rewrite IH.
Qed.

Lemma sends_drop rs : sends (drop_requests rs) = [].
Proof. unfold drop_requests, sends. induction rs as [|q l IH]; [done|]. csimpl. exact IH. Qed.

Lemma closes_closes l : closes (CloseConnection <$> l) = l.
Proof. unfold closes. induction l as [|x l IH]; [done|]. csimpl. by rewrite IH. Qed.

Lemma sends_closes l : sends (CloseConnection <$> l) = [].
Proof. unfold sends. induction l as [|x l IH]; [done|]. csimpl. exact IH. Qed.

Section gates.
Context `{PR : !Primitives} `{PL : !PrimitiveLaws} `{NF : !Nfc}.

(** ** During a transition *)

(** The events that wait for the transition to end. *)
Definition deferred (ev : RoomEvent) : bool :=
  match ev with
  | EV_EpochAck _ _ | EV_ConnectionLost _ | EV_TimeoutExpired _ _ | EV_EpochMaintenance
  | EV_CloseRequested | EV_TorStopped | EV_HostCommand HC_Requests | EV_ChatReceived _ _ _ => false
  | _ => true
  end.

(** During a transition every event that would need the group key or change
    the membership again is refused with EpochTransitionInProgress and changes nothing
    but the clock; a chat message from a member that has not acknowledged is answered,
    to that member only, by a recoverable error. *)
Theorem transition_defers a r ev now :
  ra_state a = RS_EpochTransition →
  (deferred ev = true →
    handle_event_at ev now (a, r) = (Fail RE_EpochTransitionInProgress, (put_now now a, r))) ∧
  (∀ c t env, ev = EV_ChatReceived c t env → member_has_acked_pending_epoch a c = false →
    ∃ acts, handle_event_at ev now (a, r) = (Done acts, (put_now now a, r)) ∧
      closes acts = [] ∧
      (if decide (c = ra_host_connection a) then sends acts = []
       else ∃ m, sends acts = [(c, M_Error m)] ∧ em_code m = EC_RateLimited)).
Proof.
  intros Hst. unfold handle_event_at, mbind, M_bind, modify, self. cbn [fst snd].
  assert (ra_state (put_now now a) = RS_EpochTransition) as -> by done. split.
  - intros Hd. destruct ev as [| | | | | | | |[]| | | | | |]; done.
  - intros c t env -> Hack. cbn [handle_in_transition]. unfold mbind, M_bind, self. cbn [fst snd].
    change (member_has_acked_pending_epoch (put_now now a) c) with
      (member_has_acked_pending_epoch a c). rewrite Hack.
    unfold reject_during_transition, mbind, M_bind, self. cbn [fst snd].
    change (ra_host_connection (put_now now a)) with (ra_host_connection a).
    destruct (N.eqb_spec c (ra_host_connection a)) as [E|E].
    + eexists. split; [done|]. by rewrite decide_True.
    + assert (∃ m, ErrorMessage_new EC_RateLimited (Some (lit
        "the room was rotating keys; that message was not delivered, please send it again")) = Ok m
        ∧ em_code m = EC_RateLimited) as (m & -> & Hm) by (by eexists).
      eexists. split; [done|]. rewrite decide_False by done. split; [done|]. by exists m.
Qed.

(** ** The locked room *)

(** [set_policy JP_Locked] and [on_new_id] drop every admission. *)
Lemma drop_admissions_run a r :
  room_ok a →
  ∃ acts a', drop_admissions (a, r) = (Done acts, (a', r)) ∧ room_ok a' ∧
    ra_members a' = ra_members a ∧ pending (ra_requests a') = [] ∧
    ra_room_sequence a' = ra_room_sequence a ∧ sends acts = [] ∧
    (∀ c, ra_connections a' !! c =
      if member_at (ra_members a) c then ra_connections a !! c else None) ∧
    (∀ c, is_Some (ra_connections a !! c) → member_at (ra_members a) c = None → c ∈ closes acts).
Proof.
  intros Hok. pose proof (drop_admissions_ok (a, r) Hok) as Hr.
  unfold drop_admissions, mbind, M_bind, self, modify, drain in *. cbn [fst snd] in *.
  unfold wp in Hr. cbn [fst snd] in Hr.
  eexists _, _. split; [done|]. split; [by apply Hr|]. split; [done|]. split; [done|].
  split; [done|].
  assert (Hlook : ∀ c, ra_connections a !! c = None → member_at (ra_members a) c = None).
  { intros c Hc. rewrite <-(conn_member_id_at _ _ _ _ _ _ Hok). unfold conn_member_id. by rewrite Hc. }
  cbn [ra_connections put_connections ra_requests put_requests].
  split_and!.
  - by rewrite sends_app, sends_drop, sends_closes.
  - intros c. rewrite remove_non_members_lookup, remove_all_lookup.
    pose proof (conn_member_id_at _ _ _ _ _ _ Hok c) as Hm. unfold conn_member_id in Hm.
    destruct (ra_connections a !! c) as [e|] eqn:He.
    + unfold is_member_entry. case_bool_decide as Hin.
      * apply list_elem_of_fmap in Hin as (q & -> & Hq).
        by rewrite (pending_not_member _ _ _ _ _ _ Hok).
      * by destruct (role e); rewrite <-Hm.
    + rewrite <-Hm. by case_bool_decide.
  - intros c [e He] Hm. rewrite closes_app, closes_drop, closes_closes. apply elem_of_app.
    destruct (decide (c ∈ (request_connection <$> pending (ra_requests a)))) as [|Hn]; [by left|right].
    apply elem_of_non_member_ids. exists e. rewrite remove_all_lookup, bool_decide_eq_false_2 by done.
    split; [done|]. pose proof (conn_member_id_at _ _ _ _ _ _ Hok c) as Hmc.
    unfold conn_member_id in Hmc. rewrite He in Hmc. unfold is_member_entry.
    destruct (role e); congruence.
Qed.

(** C26.  Locking the room withdraws every pending application, disconnects everyone
    who is not a member, tells every member under the host's signature, and refuses the
    applications that follow. *)
Theorem locking_seals_the_room limits hid mid Ev a r acts s' :
  reachable limits hid mid Ev (a, r) → set_policy JP_Locked (a, r) = (Done acts, s') →
  let a' := s'.1 in
  ra_state a' = RS_Locked ∧ ra_policy a' = JP_Locked ∧ ra_members a' = ra_members a ∧
  (* nobody is left at the door, and those who were are disconnected *)
  pending (ra_requests a') = [] ∧
  (∀ c, is_Some (ra_connections a' !! c) → is_Some (member_at (ra_members a') c)) ∧
  (∀ c, is_Some (ra_connections a !! c) → ra_connections a' !! c = None → c ∈ closes acts) ∧
  (* every member is told, under the host's signature *)
  (∀ m, m ∈ table_members (ra_members a) → is_host m = false →
    ∃ jp, (connection m, M_JoinPolicyChanged jp) ∈ sends acts ∧ jp_open jp = false ∧
      verify_ed25519 (host_ed25519_pubkey (ra_host_identity a'))
        (room_event_transcript 1 (ra_session_id a') (jp_sequence jp) (jp_epoch jp)
           MSG_JOIN_POLICY_CHANGED (join_policy_body false)) (jp_signature jp) = true) ∧
  (* and an application is refused *)
  (∀ c app, on_join_requested c app s' = (Fail RE_PolicyLocked, s')).
Proof.
  intros Hr Hrun. apply reachable_room_ok in Hr as Hok. cbn [fst] in Hok.
  destruct (drop_admissions_run a r Hok) as (acts0 & a0 & Hd & Hok0 & Hm & Hp & Hq & _ & Hc & Hcl).
  revert Hrun. unfold set_policy. rewrite (bool_decide_eq_true_2 (JP_Locked = JP_Locked)) by done.
  unfold mbind at 1, M_bind at 1. rewrite Hd. unfold bump_sequence, mbind, M_bind, modify, self.
  cbn [fst snd]. destruct (succ_u64 _) as [n|]; [|done]. cbn [expect mret M_ret fst snd].
  intros [= <- <-]. cbn [fst].
  set (a' := put_room_sequence n _).
  assert (Hms' : ra_members a' = ra_members a) by done.
  assert (Hcs' : ra_connections a' = ra_connections a0) by done.
  split_and!; [done|done|done|done| | | |intros c app; reflexivity].
  - rewrite Hcs', Hms'. intros c [e He]. rewrite Hc in He. by destruct (member_at _ c).
  - rewrite Hcs'. intros c Hsome Hnone. rewrite closes_app. apply elem_of_app. left.
    apply Hcl; [done|]. rewrite Hc in Hnone. destruct (member_at _ c); [|done].
    destruct Hsome as [e He]. congruence.
  - intros m Hin Hhost.
    set (jp := {| jp_sequence := ra_room_sequence a'; jp_epoch := ra_epoch a'; jp_open := false;
      jp_signature := sign_room_event a' MSG_JOIN_POLICY_CHANGED (join_policy_body false) |}).
    exists jp. split; [|split].
    + rewrite !sends_app. apply elem_of_app. right. apply elem_of_app. left.
      unfold sends. apply list_elem_of_omap.
      exists (SendTo (connection m) (M_JoinPolicyChanged jp)). split; [|reflexivity].
      apply list_elem_of_omap. exists m. split; [simpl; by rewrite Hm|]. by rewrite Hhost.
    + done.
    + cbn [jp_sequence jp_epoch jp_signature]. unfold sign_room_event, verify_ed25519,
        host_ed25519_pubkey, host_sign. apply ed_verify_sign.
Qed.

(** ** The end of the room *)

Lemma sends_shutdown cs :
  sends (flat_map (λ c, [SendTo c M_Shutdown; CloseConnection c]) cs) =
  (λ c, (c, M_Shutdown)) <$> cs.
Proof. unfold sends. induction cs as [|c cs IH]; [done|]. csimpl. by rewrite IH. Qed.

Lemma closes_shutdown cs :
  closes (flat_map (λ c, [SendTo c M_Shutdown; CloseConnection c]) cs) = cs.
Proof. unfold closes. induction cs as [|c cs IH]; [done|]. csimpl. by rewrite IH. Qed.

(** Closing tells and closes every connection exactly once, and afterwards
    every event is refused and changes nothing but the clock. *)
Theorem closing_is_final a r :
  ra_state a ≠ RS_Destroyed →
  ∃ acts, close_room (a, r) = (Done acts, (put_state RS_Destroyed a, r)) ∧
    (* every connection, once, is told and closed *)
    sends acts = (λ c, (c, M_Shutdown)) <$> conn_ids (ra_connections a) ∧
    closes acts = conn_ids (ra_connections a) ∧ NoDup (closes acts) ∧
    (∀ c, c ∈ closes acts ↔ is_Some (ra_connections a !! c)) ∧
    (* and no event changes the room again *)
    ∀ ev now, handle_event_at ev now (put_state RS_Destroyed a, r) =
      (Fail RE_RoomClosed, (put_now now (put_state RS_Destroyed a), r)).
Proof.
  intros Hst. unfold close_room, mbind, M_bind, self, modify. cbn [fst snd].
  rewrite bool_decide_eq_false_2 by done. eexists. split; [done|].
  rewrite sends_app, closes_app, sends_shutdown, closes_shutdown. cbn.
  rewrite !app_nil_r. split_and!; [done|done|apply NoDup_conn_ids| |done].
  intros c. apply elem_of_conn_ids.
Qed.

(** ** Admission *)

(** The host's announcement of [m] and its snapshot of the table, with the
    sequence number [q]. *)
Definition joined_message (a : RoomActor) (q : u64) (m : Member) : MemberJoined := {|
  mj_sequence := q; mj_epoch := ra_epoch a; mj_member_id := member_id m;
  mj_nickname := nickname m; mj_ed25519_pubkey := ed25519_pubkey m;
  mj_signature := host_sign (ra_host_identity a)
    (room_event_transcript 1 (ra_session_id a) q (ra_epoch a) MSG_MEMBER_JOINED
       (member_joined_body (member_id m) (nickname m) (ed25519_pubkey m))) |}.

Definition snapshot_message (a : RoomActor) (q : u64) : MemberSnapshot :=
  let members := snapshot_member <$> table_members (ra_members a) in {|
  ms_sequence := q; ms_epoch := ra_epoch a; ms_members := members;
  ms_signature := host_sign (ra_host_identity a)
    (room_event_transcript 1 (ra_session_id a) q (ra_epoch a) MSG_MEMBER_SNAPSHOT
       (member_snapshot_body (snapshot_body_member <$> members))) |}.

(** What [queue_member_joined] queues, from the sequence number [q] on: the
    broadcast to the others, then the snapshot to the newcomer. *)
Definition announcements (a : RoomActor) (q : u64) (m : Member) : list RoomAction :=
  omap (λ k, if (member_id k =? member_id m)%N then None
             else Some (SendTo (connection k) (M_MemberJoined (joined_message a q m))))
    (table_members (ra_members a)) ++
  [SendTo (connection m) (M_MemberSnapshot (snapshot_message a (q + 1)))].

Lemma queue_joined_run m a r o s' :
  queue_member_joined m (a, r) = (o, s') → o ≠ Panic →
  o = Done tt ∧ eview s'.1 = eview a ∧ ra_session_id s'.1 = ra_session_id a ∧
  ra_pending_membership s'.1 =
    ra_pending_membership a ++ announcements s'.1 (ra_room_sequence a + 1) m.
Proof.
  intros Hrun Ho. pose proof (ekeeps_joined m (a, r)) as Hv. rewrite Hrun in Hv. cbn [fst snd] in Hv.
  revert Hrun. unfold queue_member_joined, queue_member_snapshot, bump_sequence, push_membership,
    mbind, M_bind, self, modify. cbn [fst snd].
  destruct (succ_u64 _) as [n|] eqn:En; cbn [expect mret M_ret panic]; [|by intros [= <- <-]].
  apply succ_u64_Some in En as [-> _]. cbn [fst snd ra_room_sequence put_room_sequence put_pending_membership].
  destruct (succ_u64 _) as [n'|] eqn:En; cbn [expect mret M_ret panic]; [|by intros [= <- <-]].
  apply succ_u64_Some in En as [-> _].
  intros [= <- <-]. split_and!; [done|exact Hv|done|]. cbn [fst].
  unfold announcements. rewrite (assoc_L (++)). reflexivity.
Qed.

Lemma take_join_run a r q :
  room_ok a → q ∈ pending (ra_requests a) →
  ∃ rq, take_request (ra_requests a) (request_id q) = Ok (q, rq) ∧
    take_timeout_request (request_id q) (a, r) = (Done None, (a, r)) ∧
    take_join_request (request_id q) (a, r) = (Done q, (put_requests rq a, r)).
Proof.
  intros Hok Hq. destruct (request_at_takeable a (request_connection q) (request_id q) Hok)
    as (q' & rq & Ht & _).
  { apply request_at_elem; [by destruct Hok|done]. }
  assert (q' = q) as ->.
  { apply take_request_Ok in Ht as (_ & Hid & Hp & _).
    assert (Hq' : q' ∈ pending (ra_requests a)) by (rewrite Hp; apply elem_of_cons; by left).
    destruct Hok as [_ _ _ _ _ Hnd _ _ _ _]. unfold request_ids in Hnd.
    apply list.NoDup_app in Hnd as (Hnd & _).
    pose proof (find_first_key_unique request_id _ _ Hnd Hq) as E1.
    pose proof (find_first_key_unique request_id _ _ Hnd Hq') as E2. rewrite Hid in E2. congruence. }
  exists rq. split; [done|]. split.
  - unfold take_timeout_request, mbind, M_bind, self. cbn [fst snd].
    destruct (remove_first _ _) as [[t ts]|] eqn:E; [|done]. exfalso.
    apply remove_first_Some in E as (E & _). apply find_first_key_Some in E as [Hin Hid].
    destruct Hok as [_ _ _ _ _ Hnd _ _ _ _]. unfold request_ids in Hnd.
    apply list.NoDup_app in Hnd as (_ & Hdis & _). apply (Hdis (request_id q)).
    + by apply list_elem_of_fmap_2.
    + rewrite <-Hid. by apply list_elem_of_fmap_2.
  - unfold take_join_request, mbind, M_bind, self, modify. cbn [fst snd]. by rewrite Ht.
Qed.

Lemma promote_register cs c id :
  conn_member_id (or_same (register cs c) (promote (register cs c) c id)) c = Some id.
Proof.
  unfold promote. destruct (set_role_Some (register cs c) c (CR_Member id)) as [cs' Hcs'].
  { unfold register. destruct (cs !! c) eqn:E; [by rewrite E|]. by rewrite lookup_insert_eq. }
  rewrite Hcs'. simpl. pose proof (role_view_set_role _ _ _ _ c Hcs') as Hv.
  rewrite bool_decide_eq_true_2 in Hv by done. by injection Hv.
Qed.

(** What the host's decision leaves: the applicant is a member, or it is
    turned away. *)
Definition admitted (a a' : RoomActor) (c : ConnectionId) (m : Member) (acts : list RoomAction)
    : Prop :=
  conn_member_id (ra_connections a') c = Some (member_id m) ∧
  ra_state a' = RS_EpochTransition ∧ ra_epoch a' = (ra_epoch a + 1)%N ∧
  ra_session_id a' = ra_session_id a ∧ ra_host_identity a' = ra_host_identity a ∧
  (∃ key wraps, acts = SendTo c (M_JoinAccepted {| ja_member_id := member_id m |})
      :: NotifyHost (HN_MemberJoined (member_id m) (nickname m)) :: wraps ∧
    length key = 32 ∧ (λ p, (pe_epoch p, pe_key p)) <$> ra_pending_epoch a' = Some (ra_epoch a', key) ∧
    Forall2 (wrap_sent a' key) (table_members (ra_members a')) wraps) ∧
  ra_pending_membership a' = announcements a' (ra_room_sequence a + 2) m ∧
  ra_chat_replay a' = retain_epoch (ra_chat_replay a) (ra_epoch a').

Definition turned_away (a a' : RoomActor) (c : ConnectionId) (acts : list RoomAction) : Prop :=
  ra_members a' = ra_members a ∧ ra_connections a' !! c = None ∧ ra_state a' = ra_state a ∧
  (∃ m, sends acts = [(c, M_JoinRejected m)]) ∧ closes acts = [c].

Lemma rejected_message_is reason : ∃ m, rejected_message reason = M_JoinRejected m.
Proof.
  unfold rejected_message. destruct (match reason with Some _ => _ | None => _ end); [|by eexists].
  destruct (JoinRejected_new _); by eexists.
Qed.

Lemma admit_run a r c (m : Member) o s' :
  primitives_total → keys_ok (ra_host_identity a) (table_members (ra_members a)) →
  ra_pending_membership a = [] → connection m = c →
  conn_member_id (ra_connections a) c = Some (member_id m) →
  (actions ← begin_epoch_transition
     [SendTo c (M_JoinAccepted {| ja_member_id := member_id m |});
      NotifyHost (HN_MemberJoined (member_id m) (nickname m))];
   queue_member_joined m;; mret actions) (a, r) = (o, s') → o ≠ Panic →
  ∃ acts, o = Done acts ∧ ra_members s'.1 = ra_members a ∧ ra_requests s'.1 = ra_requests a ∧
    admitted a s'.1 c m acts.
Proof.
  intros Ht Hk Hpm <- Hc Hrun Ho.
  set (acts0 := [SendTo _ _; _]) in *.
  pose proof (begin_wp acts0 a r) as Hb. pose proof (begin_total acts0 a r Ht Hk) as Hf.
  unfold wp in Hb, Hf. revert Hrun. unfold mbind at 1, M_bind at 1.
  destruct (begin_epoch_transition acts0 (a, r)) as [o1 [b r1]]. cbn [fst snd] in *.
  destruct o1 as [acts1|e|]; [|by edestruct Hf|by intros [= <- <-]].
  destruct Hb as (key & wraps & rng & rng' & Hkey & Hre & -> & Hw).
  unfold mbind at 1, M_bind at 1.
  destruct (queue_member_joined m (b, r1)) as [o2 [b2 r2]] eqn:Eq.
  assert (Ho2 : o2 = Panic ∨ o2 ≠ Panic) by (destruct o2; auto). destruct Ho2 as [->|Ho2];
    [by intros [= <- <-]|].
  destruct (queue_joined_run _ _ _ _ _ Eq Ho2) as (-> & Hv & Hsid & Hs).
  cbn [mret M_ret fst] in *. intros [= <- <-]. cbn [fst].
  destruct Hre as (Hfr & H2 & Hq & Hre & H3 & Hp & Hid & Hh & _ & _ & Hpm' & _). unfold eview, frame in *.
  injection Hv as E1 E2 E3 _ _ _ E7 E8 E9 E10 E11 _ _. injection Hfr as F1 F2 F3 _ _ _.
  eexists. split; [done|]. split; [congruence|]. split; [congruence|]. split_and!.
  - by rewrite E2, F2.
  - congruence.
  - congruence.
  - congruence.
  - congruence.
  - exists key, wraps. split; [done|]. split; [by eapply random_bytes_Ok|].
    split; [by rewrite E11, Hp, E8|]. rewrite E1, F1. eapply Forall2_impl; [|exact Hw].
    intros k act. apply wrap_sent_view; congruence.
  - rewrite Hs, Hpm', Hpm, Hq. cbn [app]. f_equal. lia.
  - congruence.
Qed.

Lemma accept_run limits hid mid a r q o s' :
  primitives_total → contributory hid (member_x25519_pubkey mid) →
  reachable limits hid mid (event_ok hid) (a, r) → resting a →
  q ∈ pending (ra_requests a) → on_accept (request_id q) (a, r) = (o, s') → o ≠ Panic →
  let c := request_connection q in
  let app := application q in
  ∃ acts, o = Done acts ∧ pending (ra_requests a) ≡ₚ q :: pending (ra_requests s'.1) ∧
    match add (ra_members a) c (app_nickname app) (app_ed25519_pubkey app)
            (app_x25519_pubkey app) (ra_epoch a + 1) with
    | Some (Ok (m, ms)) => ra_members s'.1 = ms ∧ admitted a s'.1 c m acts
    | Some (Err _) => turned_away a s'.1 c acts
    | None => False
    end.
Proof.
  intros Ht Hx Hr Hrest Hq Hrun Ho c app.
  pose proof (reachable_J hid Ht _ _ _ Hx Hr) as (Hok & Hk & _ & Hst). cbn [fst] in *.
  destruct (take_join_run a r q Hok Hq) as (rq & Htake & Htt & Htj).
  pose proof (taken_keys hid _ _ _ _ Hk Htake) as [Hxq _].
  apply take_request_Ok in Htake as (_ & _ & Hperm & _).
  assert (Hpm : ra_pending_membership a = []).
  { unfold state_ok in Hst. destruct Hrest as [E|E]; rewrite E in Hst; by destruct Hst as (_ & _ & _ & ?). }
  revert Hrun. unfold on_accept. unfold mbind at 1, M_bind at 1. rewrite Htt.
  unfold mbind at 1, M_bind at 1. rewrite Htj. fold c app.
  unfold mbind at 1, M_bind at 1, self at 1. cbn [fst snd].
  change (ra_epoch (put_requests rq a)) with (ra_epoch a).
  destruct (succ_u64 (ra_epoch a)) as [e|] eqn:Ee; [|by intros [= <- <-]].
  apply succ_u64_Some in Ee as [-> _]. cbn [expect]. unfold mbind at 1, M_bind at 1, mret at 1, M_ret at 1.
  change (ra_members (put_requests rq a)) with (ra_members a).
  destruct (add _ _ _ _ _ _) as [[[m ms]|err]|] eqn:Ea; cbn [expect];
    unfold mbind at 1, M_bind at 1; [| |by intros [= <- <-]].
  - unfold mret at 1, M_ret at 1. unfold mbind at 1, M_bind at 1, modify at 1. cbn [fst snd].
    unfold mbind at 1, M_bind at 1, modify at 1. cbn [fst snd].
    unfold mbind at 1, M_bind at 1, modify at 1. cbn [fst snd].
    apply add_Ok in Ea as (_ & _ & _ & _ & _ & Hm & Hms & _).
    intros Hrun. eapply (admit_run _ r c m) in Hrun as (acts & -> & H1 & H2 & H3);
      [|done| |done|by rewrite Hm|apply promote_register|done].
    + exists acts. split; [done|]. rewrite H2, H1. split; [exact Hperm|]. split; [done|exact H3].
    + destruct Hk as (Hid & Hk & _). simpl. rewrite Hid, Hms. unfold keys_ok. simpl.
      apply list.Forall_app. split; [done|]. rewrite Hm. by constructor.
  - unfold mret at 1, M_ret at 1, mbind, M_bind, modify. cbn [fst snd mret M_ret].
    intros [= <- <-]. eexists. split; [done|]. split; [exact Hperm|].
    destruct (rejected_message_is (Some (MemberError_to_string err))) as [rm Hrm].
    unfold turned_away. rewrite Hrm. split_and!; [done| |done| |].
    + simpl. unfold conn_remove. apply lookup_delete_eq.
    + exists rm. destruct (conn_request_id _ _); done.
    + destruct (conn_request_id _ _); done.
Qed.

(** Accepting a pending request at rest consumes it and then either admits the
    applicant (JOIN_ACCEPTED to it alone, a transition for the enlarged table, the
    broadcast and the snapshot queued) or turns it away with its connection closed, as
    the member table decides on the nickname, the key and the capacity. *)
Theorem accept_decides limits hid mid a r q o s' :
  primitives_total → contributory hid (member_x25519_pubkey mid) →
  reachable limits hid mid (event_ok hid) (a, r) → resting a →
  q ∈ pending (ra_requests a) → on_accept (request_id q) (a, r) = (o, s') → o ≠ Panic →
  let c := request_connection q in
  let app := application q in
  ∃ acts, o = Done acts ∧ pending (ra_requests a) ≡ₚ q :: pending (ra_requests s'.1) ∧
    match add (ra_members a) c (app_nickname app) (app_ed25519_pubkey app)
            (app_x25519_pubkey app) (ra_epoch a + 1) with
    | Some (Ok (m, ms)) => ra_members s'.1 = ms ∧ admitted a s'.1 c m acts
    | Some (Err _) => turned_away a s'.1 c acts
    | None => False
    end.
Proof. apply accept_run. Qed.
End gates.
