(* ===== verification/EndToEnd.v ===== *)
(** Client to room to client: what one member's session sends, the room
    relays and the other members' sessions read, and the same on the wire,
    through both connection tasks. *)
From Stdlib Require Import Strings.String.
From S2P Require Export Conn RoomRelay RoomLiveness RoomGates SessionProps.

Section chat.
Context `{PR : !Primitives} `{PL : !PrimitiveLaws} `{NF : !Nfc}.

(** The session of the member [m], whose identity is [identity], is in step
    with the room: same room, same epoch and key, and a sequence the room has
    not seen. *)
Record in_step (a : RoomActor) (m : Member) (identity : MemberIdentity) (s : ChatSession)
    : Prop := {
  st_room : cs_room_session_id s = ra_session_id a;
  st_member : cs_member_id s = member_id m;
  st_identity : ed25519_pubkey m = member_ed25519_pubkey identity;
  st_key : ∃ key, cs_current_epoch s = Some (ra_epoch a, key) ∧
    chat_key a = Some (ra_epoch a, key);
  st_table : by_id (ra_members a) (member_id m) = Some m;
  st_connection : conn_member_id (ra_connections a) (connection m) = Some (member_id m);
  st_sequence : ∀ last, last_accepted (ra_chat_replay a) (member_id m) (ra_epoch a) = Some last →
    (last <= cs_sender_sequence s)%N;
  st_room_left : (cs_sender_sequence s + 1 < u64_limit)%N;
}.

(** The session [s'] follows the sender [m] of [s]: same room, same epoch and
    key, the member known by its key, and no sequence past the sender's. *)
Record follows (s s' : ChatSession) (m : Member) : Prop := {
  fo_room : cs_room_session_id s' = cs_room_session_id s;
  fo_key : cs_current_epoch s' = cs_current_epoch s;
  fo_member : ∃ v, session_member s' (member_id m) = Some v ∧
    mv_ed25519_pubkey v = ed25519_pubkey m;
  fo_sequence : ∀ epoch last, current_epoch s = Some epoch →
    last_accepted (cs_replay s') (member_id m) epoch = Some last →
    (last <= cs_sender_sequence s)%N;
}.

(** A valid non-empty text of Unicode scalars. *)
Definition chat_text_ok (text : rstring) : Prop :=
  text ≠ [] ∧ Forall (λ c, is_scalar c = true) text ∧
  validate_chat_text text Limits_default = Ok tt.

Lemma utf8_non_empty c text : 1 <= length (utf8 (c :: text)).
Proof.
  unfold utf8. cbn [flat_map]. rewrite length_app.
  assert (1 <= length (utf8_char c)); [|lia].
  unfold utf8_char. repeat case_match; simpl; lia.
Qed.

(** A session with a key and sequence numbers left can send any payload that
    fits an envelope. *)
Lemma seal_total identity t p s r epoch key :
  primitives_total → cs_current_epoch s = Some (epoch, key) →
  (cs_sender_sequence s + 1 < u64_limit)%N → 1 <= length p → (N.of_nat (length p) <= 4096)%N →
  ∃ env s', seal identity t p (s, r) = (Done env, s').
Proof.
  intros [Hr Ha] Hk Hq Hmin Hmax. unfold seal, mbind, M_bind, self. cbn [fst snd]. rewrite Hk.
  cbn [ok_or mret M_ret fst snd]. rewrite succ_u64_lt by done. cbn [expect mret M_ret fst snd modify].
  unfold draw_err, seal_envelope, random_bytes. cbn [fst snd].
  destruct (Hr r 24) as [nonce ->]. destruct (Ha key nonce (chat_aad 1 (cs_room_session_id s) epoch
    (cs_member_id s) (cs_sender_sequence s + 1) t) p) as [c Hc]. rewrite Hc.
  apply aead_length in Hc. unfold EncryptedEnvelope_new. cbn [sealed_ciphertext].
  replace (in_range _ _ _) with true; [by eexists _, _|]. symmetry. apply in_range_true.
  rewrite Hc. unfold CHAT_MIN_CIPHERTEXT_LEN, CHAT_MAX_CIPHERTEXT_LEN, XCHACHA_TAG_LEN. lia.
Qed.

(** What a member's session in step with the room sends, the room relays
    unchanged to every other member, and the session of each of them that
    follows the sender reads exactly the sender's text, records it against
    replay, and follows the sender again, as the sender's session is in step
    again while it has numbers left. *)
Theorem chat_end_to_end a m identity s rs text l :
  primitives_total → in_step a m identity s → chat_text_ok text →
  allow (default (RateLimiter_new 5 1) (ra_rate_limits a !! member_id m)) (ra_now a)
    = Some (true, l) →
  ∃ env s1, send_chat identity text (s, rs) = (Done (M_ChatMessage env), s1) ∧
    (∀ r, on_chat_received (connection m) MSG_CHAT env (a, r) =
      (Done (relay (connection m) (M_ChatMessage env) (table_members (ra_members a))), (past_chat env l a, r))) ∧
    ((cs_sender_sequence s + 2 < u64_limit)%N → in_step (past_chat env l a) m identity s1.1) ∧
    ∀ s' rs', follows s s' m →
      receive_chat env (s', rs') = (Done text, (recorded env s', rs')) ∧
      follows s1.1 (recorded env s') m.
Proof.
  intros Ht [Hroom Hmem Hid (key & Hk & Hck) Htab Hcon Hseq Hleft] (Hne & Hsc & Hval) Hallow.
  assert (Hlen : 1 <= length (utf8 text) ∧ (N.of_nat (length (utf8 text)) <= 4096)%N).
  { split; [destruct text; [done|apply utf8_non_empty]|].
    apply validate_chat_text_Ok in Hval as [_ Hb]. exact Hb. }
  destruct (seal_total identity MSG_CHAT (utf8 text) s rs (ra_epoch a) key Ht Hk Hleft
    ltac:(lia) ltac:(lia)) as (env & s1 & Hseal).
  pose proof Hseal as Hrun.
  apply seal_run in Hrun as (key' & r' & Hk' & Hes & Heq & Hs1 & Hopen).
  rewrite Hk in Hk'. injection Hk' as Hep <-. symmetry in Hep.
  exists env, s1. split; [|split; [|split]].
  - unfold send_chat, mbind, M_bind. rewrite Hval. cbn [try_ mret M_ret]. by rewrite Hseal.
  - intros r. eapply relay_run; [|by rewrite Hes, Hmem]. rewrite Hmem in Hes. constructor.
    + by rewrite Hes.
    + by rewrite Hes.
    + done.
    + intros last Hl. rewrite Hes in Hl. rewrite Heq. apply Hseq in Hl. lia.
    + exists (ra_epoch a), key. split; [done|]. by rewrite Hid, <-Hroom, <-Hep.
    + split; [done|]. exists text. split; [by apply from_utf8_utf8|done].
  - intros Hnext. subst s1. constructor; try done; [by exists key| |cbn; lia].
    intros last Hl. cbn. unfold past_chat in Hl. cbn [put_chat_replay ra_chat_replay ra_epoch] in Hl.
    rewrite Hes, Hmem in Hl. apply accept_last in Hl as [->|Hl]; [lia|]. apply Hseq in Hl. lia.
  - intros s' rs' [Hr' Hk' (v & Hv & Hpk) Hf].
    assert (Hop : opens s' MSG_CHAT env key v (utf8 text)).
    { rewrite Hmem in Hes. constructor.
      - by rewrite Hk', Hk, Hep.
      - by rewrite Hes.
      - intros last Hl. rewrite Hes, Hep in Hl. rewrite Heq.
        eapply (Hf (ra_epoch a)) in Hl; [lia|]. unfold current_epoch. by rewrite Hk.
      - by rewrite Hpk, Hid, Hr'. }
    pose proof (open_Done _ _ _ rs' _ _ _ Hop) as Ho. split.
    + unfold receive_chat, mbind, M_bind. rewrite Ho, from_utf8_utf8 by done.
      cbn [ok_or mret M_ret]. by rewrite Hval.
    + subst s1. constructor; [done|done|by exists v|]. intros epoch last He. simpl in *.
      rewrite Hes, Hmem. unfold last_accepted. rewrite Hep in *.
      unfold current_epoch in *. cbn in He. rewrite Hk in He. injection He as <-.
      rewrite lookup_insert_eq. intros [= <-]. lia.
Qed.
End chat.

(** * Admission, as the clients see it *)

Section admission.
Context `{PR : !Primitives} `{PL : !PrimitiveLaws} `{NF : !Nfc}.

(** The session [s] is the member [m]'s, with the private key [im]. *)
Record attached (a : RoomActor) (m : Member) (im : MemberIdentity) (s : ChatSession) : Prop := {
  at_room : cs_room_session_id s = ra_session_id a;
  at_ed : cs_host_ed25519_pubkey s = host_ed25519_pubkey (ra_host_identity a);
  at_x : cs_host_x25519_pubkey s = host_x25519_pubkey (ra_host_identity a);
  at_member : cs_member_id s = member_id m;
  at_identity : x25519_pubkey m = member_x25519_pubkey im;
}.

(** How a client shows a member of the room's table. *)
Definition view_of_member (m : Member) : MemberView := {|
  mv_member_id := member_id m; mv_nickname := nickname m; mv_color := color m;
  mv_is_host := is_host m; mv_ed25519_pubkey := ed25519_pubkey m |}.

(** The session's member list is the room's table. *)
Definition knows (s : ChatSession) (a : RoomActor) : Prop :=
  cs_members s = view_of_member <$> table_members (ra_members a).

Lemma ColorChoice_from_as c : ColorChoice_from_index (ColorChoice_as_index c) = Some c.
Proof. by destruct c. Qed.

Lemma view_of_snapshot_member m : view_of_snapshot (snapshot_member m) = view_of_member m.
Proof. unfold view_of_snapshot, view_of_member. simpl. by rewrite ColorChoice_from_as. Qed.

(** The wrap a member is sent installs the key. *)
Lemma wrap_installs a key m act im s :
  wrap_sent a key m act → attached a m im s → length key = 32 →
  (∀ cur, current_epoch s = Some cur → (cur < ra_epoch a)%N) →
  ∃ wrap, act = SendTo (connection m) (M_EpochWrap wrap) ∧
    ∀ rs, set_epoch_from_wrap im wrap (s, rs) =
      (Done (ra_epoch a), (with_epoch (Some (ra_epoch a, key))
         (retain_epoch (cs_replay s) (ra_epoch a)) s, rs)).
Proof.
  intros (wk & env & rng & rng' & Hwk & Henv & ->) [Hr _ Hx Hm Hid] Hlen Hcur.
  eexists. split; [done|]. intros rs. rewrite Hid in Hwk.
  destruct (epoch_key_roundtrip _ _ _ _ _ _ _ _ _ _ Hlen Hwk Henv) as (wk' & Hwk' & Hun).
  assert (Hlt : match current_epoch s with Some cur => (ra_epoch a <=? cur)%N | None => false end
    = false).
  { destruct (current_epoch s) as [cur|]; [|done]. apply N.leb_gt. by apply Hcur. }
  unfold set_epoch_from_wrap, install_epoch, modify, mbind, M_bind, self. cbn [fst snd ew_epoch ew_nonce ew_ciphertext].
  assert (Hg : match current_epoch s with
      | Some cur => if (ra_epoch a <=? cur)%N then fail (CE_OldEpoch (ra_epoch a) cur) else mret tt
      | None => mret tt
      end (s, rs) = (Done tt, (s, rs)) :> Outcome ChatError unit * _).
  { destruct (current_epoch s) as [cur|]; [by rewrite Hlt|done]. }
  rewrite Hg, Hr, Hx, Hm, Hwk'. cbn [try_ mret M_ret]. rewrite Hun. cbn [try_ mret M_ret fst snd].
  by rewrite Hlt.
Qed.

(** A nickname as admission leaves it: it validates again. *)
Definition nickname_valid (n : rstring) : Prop := ∃ n', validate_nickname n Limits_default = Ok n'.

Lemma validate_rows_table prior ms :
  NoDup (member_id <$> (prior ++ ms)) → NoDup (nickname <$> (prior ++ ms)) →
  NoDup (ed25519_pubkey <$> (prior ++ ms)) → Forall (λ m, nickname_valid (nickname m)) ms →
  validate_rows (snapshot_member <$> prior) (snapshot_member <$> ms) = Ok tt.
Proof.
  revert prior. induction ms as [|m ms IH]; intros prior H1 H2 H3 Hv; [done|]. csimpl.
  apply list.Forall_cons in Hv as [[n ->] Hv]. rewrite ColorChoice_from_as.
  assert (Hne : ∀ {K} (f : Member → K), NoDup (f <$> (prior ++ m :: ms)) →
    ∀ k, k ∈ prior → f k ≠ f m).
  { intros K f Hnd k Hk E. rewrite fmap_app in Hnd. csimpl in Hnd.
    apply list.NoDup_app in Hnd as (_ & Hd & _). apply (Hd (f k)); [by apply list_elem_of_fmap_2|].
    rewrite E. by left. }
  replace (existsb _ _) with false.
  - rewrite <-fmap_snoc. rewrite cons_middle, (assoc_L (++)) in H1, H2, H3. by apply IH.
  - symmetry. apply existsb_false. intros x (k & -> & Hk)%list_elem_of_fmap. unfold same_identity.
    simpl. rewrite (proj2 (N.eqb_neq _ _)) by (by apply Hne).
    by rewrite !bool_decide_eq_false_2 by (by apply Hne).
Qed.

(** The table of a room fits a snapshot. *)
Definition table_shown (t : MemberTable) : Prop :=
  (table_len t <= max_active_members Limits_default)%N ∧
  Forall (λ m, nickname_valid (nickname m)) (table_members t).

Lemma validate_snapshot_table t c m :
  table_ok t → host_row t c → table_shown t → m ∈ table_members t →
  validate_snapshot (snapshot_member <$> table_members t) (member_id m) = Ok tt.
Proof.
  intros Htab (h & ms & Ht & Hh & _ & Hih & Hms) [Hlen Hv] Hm. unfold validate_snapshot.
  rewrite length_fmap. unfold table_len in Hlen. rewrite (proj2 (N.ltb_ge _ _)) by done.
  replace (_ || _) with false; cycle 1.
  { symmetry. apply orb_false_iff. split; [by rewrite Ht|]. apply negb_false_iff, existsb_exists.
    exists (snapshot_member m). split; [|apply N.eqb_refl].
    apply list_elem_of_In. by apply list_elem_of_fmap_2. }
  assert (Hf : Forall (λ k, is_host k = (member_id k =? 0)%N) (table_members t)).
  { rewrite Ht. constructor; [by rewrite Hih, Hh|]. eapply list.Forall_impl; [exact Hms|].
    intros k [-> Hk]. symmetry. apply N.eqb_neq. lia. }
  replace (negb _ || existsb _ _) with false.
  - apply (validate_rows_table []); [by destruct Htab..|done].
  - symmetry. apply orb_false_iff. split.
    + apply negb_false_iff, Nat.eqb_eq. rewrite Ht. csimpl. rewrite Hih, Hh. csimpl. f_equal.
      clear -Hms. induction Hms as [|k ms [Hk _] _ IH]; [done|]. csimpl. by rewrite Hk.
    + apply existsb_false. intros x (k & -> & Hk)%list_elem_of_fmap. simpl.
      rewrite list.Forall_forall in Hf. rewrite Hf by done. by rewrite eqb_reflx.
Qed.

(** A broadcast of the host, signed with the room's identity. *)
Lemma host_signed_timely a m im s b :
  attached a m im s → sg_epoch b = ra_epoch a →
  sg_signature b = host_sign (ra_host_identity a)
    (room_event_transcript 1 (ra_session_id a) (sg_sequence b) (ra_epoch a) (sg_type b) (sg_body b)) →
  (∀ cur, current_epoch s = Some cur → cur = ra_epoch a) →
  (∀ last, cs_last_room_sequence s = Some last → (last < sg_sequence b)%N) → timely s b.
Proof.
  intros [Hr He _ _ _] Hep Hsig Hcur Hlast. constructor.
  - rewrite Hr, He, Hep, Hsig. apply ed_verify_sign.
  - intros cur Hc. by rewrite (Hcur cur Hc).
  - exact Hlast.
Qed.

Lemma snapshot_installs a hc m im s q rs :
  table_ok (ra_members a) → host_row (ra_members a) hc →
  table_shown (ra_members a) → m ∈ table_members (ra_members a) → attached a m im s →
  (∀ cur, current_epoch s = Some cur → cur = ra_epoch a) →
  (∀ last, cs_last_room_sequence s = Some last → (last < q)%N) →
  ∃ s', handle_membership_message (M_MemberSnapshot (snapshot_message a q)) (s, rs)
      = (Done tt, (s', rs)) ∧ knows s' a ∧ cs_current_epoch s' = cs_current_epoch s.
Proof.
  intros Htab Hh Hs Hm Hat Hcur Hlast.
  destruct (handle_decided (M_MemberSnapshot (snapshot_message a q)) _ s rs eq_refl)
    as [(_ & _ & ->)|(Hn & _)].
  - eexists. split; [done|]. split; [|done]. unfold knows. simpl.
    rewrite <-list_fmap_compose. apply list_fmap_ext. intros i k _. apply view_of_snapshot_member.
  - destruct Hn. split.
    + simpl. rewrite (at_member _ _ _ _ Hat). by eapply validate_snapshot_table.
    + by eapply host_signed_timely.
Qed.

Lemma joined_installs a k im s m q rs ms :
  attached a k im s → nickname_valid (nickname m) → cs_members s = view_of_member <$> ms →
  table_members (ra_members a) = ms ++ [m] → table_ok (ra_members a) → member_id m ≠ 0%N →
  color m = ColorChoice_default → is_host m = false →
  (∀ cur, current_epoch s = Some cur → cur = ra_epoch a) →
  (∀ last, cs_last_room_sequence s = Some last → (last < q)%N) →
  ∃ s', handle_membership_message (M_MemberJoined (joined_message a q m)) (s, rs)
      = (Done tt, (s', rs)) ∧ knows s' a ∧ cs_current_epoch s' = cs_current_epoch s.
Proof.
  intros Hat Hv Hms Ht Htab Hid Hcol Hhost Hcur Hlast.
  destruct (handle_decided (M_MemberJoined (joined_message a q m)) _ s rs eq_refl)
    as [(_ & _ & ->)|(Hn & _)].
  - eexists. split; [done|]. split; [|done]. unfold knows. simpl. rewrite Hms, Ht, fmap_snoc.
    unfold view_of_member at 3. by rewrite Hcol, Hhost.
  - destruct Hn. split; [|by eapply host_signed_timely]. simpl. split; [exact Hv|]. split; [done|].
    rewrite Hms. apply list.Forall_forall. intros v (j & -> & Hj)%list_elem_of_fmap. simpl.
    destruct Htab as [H1 H2 _ H4 _ _ _ _]. rewrite Ht in *.
    assert (Hne : ∀ {K} (f : Member → K), NoDup (f <$> (ms ++ [m])) → f j ≠ f m).
    { intros K f Hnd E. rewrite fmap_snoc in Hnd. apply list.NoDup_app in Hnd as (_ & Hd & _).
      apply (Hd (f j)); [by apply list_elem_of_fmap_2|]. rewrite E. by left. }
    split_and!; by apply Hne.
Qed.

(** A client installs the wrap it is sent, then handles the broadcast. *)
Definition learn (im : MemberIdentity) (wrap : EpochWrap) (message : Message) : SM unit :=
  set_epoch_from_wrap im wrap;; handle_membership_message message.

(** [s] learns the room's table and key from a wrap sent now and a broadcast
    sent when the transition ends. *)
Definition synchronised (a : RoomActor) (acts : list RoomAction) (m : Member)
    (im : MemberIdentity) (s : ChatSession) : Prop :=
  ∃ wrap message,
    (connection m, M_EpochWrap wrap) ∈ sends acts ∧
    (connection m, message) ∈ sends (released a) ∧
    ∀ rs, ∃ s', learn im wrap message (s, rs) = (Done tt, (s', rs)) ∧
      knows s' a ∧ cs_current_epoch s' = chat_key a.

Lemma wrap_in_sends a key wraps acts0 m :
  Forall2 (wrap_sent a key) (table_members (ra_members a)) wraps →
  m ∈ table_members (ra_members a) →
  ∃ act, wrap_sent a key m act ∧ ∀ wrap, act = SendTo (connection m) (M_EpochWrap wrap) →
    (connection m, M_EpochWrap wrap) ∈ sends (acts0 ++ wraps).
Proof.
  intros Hw (i & Hi)%list_elem_of_lookup. destruct (Forall2_lookup_l _ _ _ _ _ Hw Hi) as (act & Ha & Hs).
  exists act. split; [done|]. intros wrap ->. unfold sends. apply list_elem_of_omap.
  exists (SendTo (connection m) (M_EpochWrap wrap)). split; [|done].
  apply elem_of_app. right. by eapply list_elem_of_lookup_2.
Qed.

Lemma with_epoch_attached a m im s e t : attached a m im s → attached a m im (with_epoch e t s).
Proof. by intros []. Qed.

(** The wrap, then a broadcast the keyed session accepts. *)
Lemma learn_synchronises a key wraps acts0 k im s message :
  Forall2 (wrap_sent a key) (table_members (ra_members a)) wraps → length key = 32 →
  chat_key a = Some (ra_epoch a, key) → k ∈ table_members (ra_members a) → attached a k im s →
  (∀ cur, current_epoch s = Some cur → (cur < ra_epoch a)%N) →
  (connection k, message) ∈ sends (released a) →
  (∀ t rs, ∃ s', handle_membership_message message (with_epoch (Some (ra_epoch a, key)) t s, rs)
     = (Done tt, (s', rs)) ∧ knows s' a ∧ cs_current_epoch s' = Some (ra_epoch a, key)) →
  synchronised a (acts0 ++ wraps) k im s.
Proof.
  intros Hw Hkey Hck Hk Hat Hcur Hin Hmsg.
  destruct (wrap_in_sends a key wraps acts0 k Hw Hk) as (act & Hact & Hsend).
  destruct (wrap_installs _ _ _ _ _ _ Hact Hat Hkey Hcur) as (wrap & -> & Hrun).
  exists wrap, message. split; [by apply Hsend|]. split; [done|]. intros rs.
  destruct (Hmsg (retain_epoch (cs_replay s) (ra_epoch a)) rs) as (s' & Hm & Hkn & He).
  exists s'. split_and!; [|done|by rewrite He].
  unfold learn, mbind, M_bind. by rewrite Hrun, Hm.
Qed.

Lemma sends_released a c message acts :
  ra_pending_membership a = acts → SendTo c message ∈ acts → (c, message) ∈ sends (released a).
Proof.
  intros <- Hin. unfold released, sends. apply list_elem_of_omap.
  exists (SendTo c message). split; [apply elem_of_app; by left|done].
Qed.

End admission.

Section wire.
Context `{PR : !Primitives} `{PL : !PrimitiveLaws} `{CB : !Cbor} `{CL : !CborLaws} `{NF : !Nfc}.

(** A session whose counters are of their types. *)
Definition session_in_range (s : ChatSession) : Prop :=
  u64_ok (cs_member_id s) ∧ (cs_sender_sequence s + 1 < u64_limit)%N ∧
  ∃ epoch key, cs_current_epoch s = Some (epoch, key) ∧ u64_ok epoch.

(** The sizes of what a session seals. *)
Lemma seal_sizes identity t p s r env s' :
  seal identity t p (s, r) = (Done env, s') → session_in_range s →
  envelope_ok env ∧ length (env_ciphertext env) = length p + 16.
Proof.
  intros Hs (Hid & Hq & epoch & key & Hk & He). revert Hs.
  unfold seal, mbind, M_bind, self. cbn [fst snd]. rewrite Hk. cbn [ok_or mret M_ret fst snd].
  rewrite succ_u64_lt by done. cbn [expect mret M_ret fst snd modify]. unfold draw_err. cbn [fst snd].
  destruct (seal_envelope _ _ _ _ _ _ _ _ _ _) as [[sealed|] r'] eqn:Es; [|done].
  apply seal_open in Es as (_ & Hn & Hc & Hg). unfold EncryptedEnvelope_new.
  destruct (in_range _ _ _) eqn:Er; [|done]. intros [= <- _].
  unfold envelope_ok, sized. cbn. rewrite Hn, Hg. by split_and!.
Qed.

(** A frame that fills one read. *)
Lemma one_frame t body bs d :
  encode_frame t body Limits_default = Ok bs → d = FrameDecoder_new Limits_default →
  bs ≠ [] ∧ feed d bs = (Ok [{| frame_type := t; payload := body |}], d).
Proof.
  intros He ->. assert (Hall : encode_all [{| frame_type := t; payload := body |}] Limits_default = Ok bs).
  { simpl. unfold Frame_encode. simpl. rewrite He. simpl. by rewrite app_nil_r. }
  split; [|by apply feed_encode_all]. apply encode_frame_Ok in He as [_ ->].
  by destruct (be_bytes 4 _).
Qed.

(** What a chat message fills, and the frame it is. *)
Lemma send_chat_sizes identity text s r env s' :
  send_chat identity text (s, r) = (Done (M_ChatMessage env), s') → session_in_range s →
  envelope_ok env ∧ length (env_ciphertext env) = length (utf8 text) + 16.
Proof.
  unfold send_chat, mbind, M_bind. destruct (validate_chat_text text Limits_default); cbn [try_ mret M_ret]; [|done].
  destruct (seal identity MSG_CHAT (utf8 text) (s, r)) as [[e|e|] s1] eqn:E; [|done..]. intros [= -> _] Hr. by eapply seal_sizes.
Qed.

Lemma chat_frame env bs d :
  Message_encode (M_ChatMessage env) Limits_default = Ok bs → d = FrameDecoder_new Limits_default →
  bs ≠ [] ∧ feed d bs = (Ok [frame_of (M_ChatMessage env)], d).
Proof.
  intros Hbs. apply one_frame. unfold Message_encode in Hbs. cbn [Message_type] in Hbs.
  by destruct (encode_frame _ _ _); [injection Hbs as ->|].
Qed.

(** A short one is delivered by the task at the other end of the connection. *)
Lemma short_chat_delivered env bs :
  envelope_ok env → (N.of_nat (length (env_ciphertext env)) <= 4096)%N →
  Message_encode (M_ChatMessage env) Limits_default = Ok bs →
  cs_inbound (conn_task Limits_default [read_event bs]) = [Some (M_ChatMessage env)] ∧
  is_Some (cs_next (conn_task Limits_default [read_event bs])).
Proof.
  intros Henv Hlen Hbs. destruct (chat_frame _ _ _ Hbs eq_refl) as [Hb Hfeed].
  assert (Hd : Forall2 (λ f m, Message_decode f Limits_default = Ok m)
    [frame_of (M_ChatMessage env)] [M_ChatMessage env]).
  { apply (frames_decode [M_ChatMessage env]). constructor; [|done]. by split. }
  assert (Hall : feed_all (FrameDecoder_new Limits_default) [bs] =
    (Ok [frame_of (M_ChatMessage env)], FrameDecoder_new Limits_default)).
  { cbn [feed_all]. by rewrite Hfeed. }
  assert (Hstep : conn_task Limits_default [read_event bs] = {| cs_inbound := [Some (M_ChatMessage env)]; cs_written := [];
      cs_next := Some (FrameDecoder_new Limits_default) |}).
  { apply (reader_reads Limits_default [bs] _ [M_ChatMessage env] _ _ ltac:(by constructor) Hall Hd). }
  rewrite Hstep. by split; [|eexists].
Qed.

(** C29.  Which chat messages arrive: every text the session accepts is sealed and
    sent; one of at most 4080 bytes is delivered by the receiver's connection task as it
    was sealed, and a longer one, though within the text limit, is answered as a
    protocol violation and ends the connection. *)
Theorem chat_on_the_wire identity text s r :
  primitives_total → session_in_range s → chat_text_ok text →
  ∃ env s1, send_chat identity text (s, r) = (Done (M_ChatMessage env), s1) ∧
    ∀ bs, Message_encode (M_ChatMessage env) Limits_default = Ok bs →
      let step := conn_task Limits_default [read_event bs] in
      if (str_len text <=? 4080)%N
      then cs_inbound step = [Some (M_ChatMessage env)] ∧ is_Some (cs_next step)
      else cs_inbound step = [Some violation; None] ∧ cs_next step = None.
Proof.
  intros Ht Hr (Hne & Hsc & Hval). pose proof Hr as (_ & Hq & epoch & key & Hk & _).
  assert (Hmax : (N.of_nat (length (utf8 text)) <= 4096)%N).
  { apply validate_chat_text_Ok in Hval as [_ Hb]. exact Hb. }
  assert (Hmin : 1 <= length (utf8 text)) by (destruct text; [done|apply utf8_non_empty]).
  destruct (seal_total identity MSG_CHAT (utf8 text) s r epoch key Ht Hk Hq Hmin Hmax)
    as (env & s1 & Hseal).
  exists env, s1. split.
  { unfold send_chat, mbind, M_bind. rewrite Hval. cbn [try_ mret M_ret]. by rewrite Hseal. }
  apply seal_sizes in Hseal as [Henv Hlen]; [|done]. intros bs Hbs step.
  unfold str_len. destruct (N.leb_spec (N.of_nat (length (utf8 text))) 4080) as [Hs|Hs].
  - apply short_chat_delivered; [done|lia|done].
  - destruct (chat_frame _ _ _ Hbs eq_refl) as [Hb Hfeed]. pose proof (long_envelope_refused env Henv ltac:(lia)) as Href.
    change {| frame_type := _; payload := _ |} with (frame_of (M_ChatMessage env)) in Href.
    subst step. unfold conn_task. cbn [conn_run]. unfold conn_step. cbn [ev_input read_event].
    unfold read_frames. destruct bs as [|b bs]; [done|]. rewrite Hfeed. cbn [frames_step ev_takes].
    by rewrite Href.
Qed.
End wire.
