(* ===== verification/Meeting.v ===== *)
(** A host and a participant meet: the supervisor of a host session and that
    of a join session, over the connection between them.

    The connection keeps what each side has put into its queue, in order; a
    move is that one side reads the next message, or that the participant
    submits the form. The moves come in any order the connection admits. *)
From Stdlib Require Import Strings.String.
From S2P Require Export Handshake JoinForms HostProps.

(** * The pair *)

Record Pair := {
  pr_host : HostDriver * Rng;
  pr_client : JoinDriver * Rng;
  pr_host_read : nat;
  pr_client_read : nat;
}.

(** What was delivered to the connection [c]. *)
Definition delivered_to (c : ConnectionId) (l : list (ConnectionId * Message)) : list Message :=
  omap (λ p, if (p.1 =? c)%N then Some p.2 else None) l.

Definition to_client (c : ConnectionId) (p : Pair) : list Message :=
  drop (pr_client_read p) (delivered_to c (hd_delivered (pr_host p).1)).
Definition to_host (p : Pair) : list Message := drop (pr_host_read p) (jd_sent (pr_client p).1).

Definition enter : KeyEvent := {| ke_code := KC_Enter; ke_modifiers := KM_None |}.

(** The form is on the screen, at its last field. *)
Definition submittable (a : App) : bool :=
  match app_screen a with
  | SCR_JoinForm form => match jf_focus form with JFF_Introduction => negb (jf_submitted form) | JFF_Nickname => false end
  | _ => false
  end.

Inductive PairMove := PM_HostReads (env : Env) | PM_ClientReads (env : Env) | PM_Submit (env : Env).

Definition move_env (m : PairMove) : Env := match m with PM_HostReads env | PM_ClientReads env | PM_Submit env => env end.

Section pair.
Context `{PR : !Primitives} `{HA : !Hashes} `{NF : !Nfc} `{UP : !UriPrimitives} `{ET : !ErrorTexts}.
Context (c : ConnectionId).

(** A move can be made. *)
Definition pair_ready (m : PairMove) (p : Pair) : bool :=
  match m with
  | PM_HostReads _ => match to_host p with [] => false | _ => true end
  | PM_ClientReads _ => match to_client c p with [] => false | _ => true end
  | PM_Submit _ => submittable (jd_app (pr_client p).1)
  end.

(** The move; [None] where the side that makes it does not go on. *)
Definition pair_move (m : PairMove) (p : Pair) : option Pair :=
  match m with
  | PM_HostReads env =>
      message ← head (to_host p);
      match host_inbound env c (Some message) (pr_host p) with
      | (Done _, host) =>
          Some {| pr_host := host; pr_client := pr_client p; pr_host_read := S (pr_host_read p);
                  pr_client_read := pr_client_read p |}
      | _ => None
      end
  | PM_ClientReads env =>
      message ← head (to_client c p);
      match join_turn env false (JE_Inbound (Some (Some message))) (pr_client p) with
      | (Done _, client) =>
          Some {| pr_host := pr_host p; pr_client := client; pr_host_read := pr_host_read p;
                  pr_client_read := S (pr_client_read p) |}
      | _ => None
      end
  | PM_Submit env =>
      match join_turn env false (JE_Key enter) (pr_client p) with
      | (Done _, client) =>
          Some {| pr_host := pr_host p; pr_client := client; pr_host_read := pr_host_read p;
                  pr_client_read := pr_client_read p |}
      | _ => None
      end
  end.

Fixpoint pair_moves (ms : list PairMove) (p : Pair) : option Pair :=
  match ms with
  | [] => Some p
  | m :: ms => if pair_ready m p then p ← pair_move m p; pair_moves ms p else None
  end.

(** * The host reads *)

(** The flow's step for a message of the handshake. *)
Definition flow_step (m : Message) (s : HostAdmission * Rng) : option (option HostAdmissionReply * (HostAdmission * Rng)) :=
  match m with
  | M_ClientHello hello => '(reply, s) ← answer (on_client_hello hello VIRTUAL_PORT s); Some (Some (HR_Message reply), s)
  | M_TokenVerify _ | M_ChallengeProof _ | M_JoinRequest _ => answer (on_message m JP_Open s)
  | _ => None
  end.

(** What a reply says to the client, and to the room. *)
Definition reply_out (r : option HostAdmissionReply) : list (ConnectionId * Message) :=
  match r with Some (HR_Message m) => [(c, m)] | _ => [] end.

Definition application_event (app : JoinApplication) : RoomEvent :=
  EV_JoinRequested c (app_nickname app) (app_introduction app) (app_ed25519_pubkey app) (app_x25519_pubkey app) (app_signature app).

Definition reply_events (r : option HostAdmissionReply) : list RoomEvent :=
  match r with
  | Some (HR_Message _) => []
  | Some (HR_JoinRequested app) => [application_event app]
  | None => [EV_PasswordVerified c]
  end.

(** What a reading does not touch. *)
Definition host_frame (d : HostDriver) :=
  (hd_chat d, hd_token d, hd_policy d, hd_guard d, hd_network d, hd_app d).

Record host_steps (d d' : HostDriver) (h : HostAdmission) (out : list (ConnectionId * Message)) (evs : list RoomEvent) : Prop := {
  hs_connection : ∃ x, hd_connections d' !! c = Some x ∧ hx_admission x = h ∧ hx_admitted x = false;
  hs_others : ∀ c', c' ≠ c → hd_connections d' !! c' = hd_connections d !! c';
  hs_delivered : hd_delivered d' = hd_delivered d ++ out;
  hs_sent : hd_sent d' = hd_sent d ++ evs;
  hs_frame : host_frame d' = host_frame d;
}.

(** The connection as the flow sees it. *)
Record listening (d : HostDriver) (h : HostAdmission) : Prop := {
  ls_connection : ∃ x, hd_connections d !! c = Some x ∧ hx_admission x = h ∧ hx_admitted x = false;
  ls_policy : hd_policy d = JP_Open;
  ls_peer : is_Some (hn_peers (hd_network d) !! c);
}.

Lemma listening_steps d d' h h' out evs : listening d h → host_steps d d' h' out evs → listening d' h'.
Proof.
  intros [_ Hp Hn] [Hx _ _ _ Hf]. unfold host_frame in Hf. injection Hf as _ _ Hpol _ Hnet _. constructor; congruence.
Qed.

Lemma net_send_sent env m d r :
  sends_all env → is_Some (hn_peers (hd_network d) !! c) →
  net_send env c m (d, r) = (Done (Ok tt), (hd_put_delivered (hd_delivered d ++ [(c, m)]) (hd_put_attempts (S (hd_attempts d)) d), r)).
Proof.
  intros He [w Hw]. unfold net_send, mbind, M_bind, self, modify, send_to. cbn [fst snd]. rewrite Hw, He. done.
Qed.

Lemma reply_sent env m d r :
  sends_all env → is_Some (hn_peers (hd_network d) !! c) →
  reply_or_fail env c m (d, r) = (Done tt, (hd_put_delivered (hd_delivered d ++ [(c, m)]) (hd_put_attempts (S (hd_attempts d)) d), r)).
Proof. intros He Hp. unfold reply_or_fail, mbind at 1, M_bind at 1. by rewrite net_send_sent. Qed.

Lemma with_admission_run {A} x (m : HM A) d r a h' r' :
  hd_connections d !! c = Some x → m (hx_admission x, r) = (Done a, (h', r')) →
  with_admission c x m (d, r) = (Done (Ok a), (hd_put_connections (alter (hx_put_admission h') c (hd_connections d)) d, r')).
Proof. intros Hx Hm. unfold with_admission, zoom. cbn [fst snd]. rewrite Hx. change (default x (Some x)) with x. by rewrite Hm. Qed.

(** The dispatch of a message of the handshake. *)
Lemma dispatch_flow env x m d r reply h' r' :
  sends_all env → hd_connections d !! c = Some x → is_Some (hn_peers (hd_network d) !! c) →
  flow_step m (hx_admission x, r) = Some (reply, (h', r')) →
  ∃ d', dispatch_message env c x m JP_Open (d, r) = (Done tt, (d', r')) ∧
    hd_connections d' = alter (hx_put_admission h') c (hd_connections d) ∧
    hd_delivered d' = hd_delivered d ++ reply_out reply ∧ hd_sent d' = hd_sent d ++ reply_events reply ∧
    host_frame d' = host_frame d.
Proof.
  intros He Hx Hp. set (d1 := hd_put_connections (alter (hx_put_admission h') c (hd_connections d)) d).
  assert (Hsend : ∀ m r, ∃ d', reply_or_fail env c m (d1, r) = (Done tt, (d', r)) ∧
    hd_connections d' = hd_connections d1 ∧ hd_delivered d' = hd_delivered d ++ [(c, m)] ∧ hd_sent d' = hd_sent d ∧
    host_frame d' = host_frame d).
  { intros m' r1. eexists. split; [by apply reply_sent|]. done. }
  assert (Hmsg : ∀ m', flow_step m' (hx_admission x, r) = answer (on_message m' JP_Open (hx_admission x, r)) →
    dispatch_message env c x m' JP_Open = (
      r ← with_admission c x (on_message m' JP_Open);
      reply ← try_ admission_error r;
      match reply with
      | Some (HR_Message reply) => reply_or_fail env c reply
      | Some (HR_JoinRequested app) => room_send (application_event app)
      | None => room_send (EV_PasswordVerified c)
      end) →
    flow_step m' (hx_admission x, r) = Some (reply, (h', r')) →
    ∃ d', dispatch_message env c x m' JP_Open (d, r) = (Done tt, (d', r')) ∧
      hd_connections d' = alter (hx_put_admission h') c (hd_connections d) ∧
      hd_delivered d' = hd_delivered d ++ reply_out reply ∧ hd_sent d' = hd_sent d ++ reply_events reply ∧
      host_frame d' = host_frame d).
  { intros m' Hf Hd Hstep. rewrite Hf in Hstep. destruct (on_message m' JP_Open (hx_admission x, r)) as [[a|e|] [h1 r1]] eqn:E; [|done..].
    injection Hstep as -> -> ->. rewrite Hd. unfold mbind at 1, M_bind at 1. rewrite (with_admission_run x _ d r reply h' r') by done.
    unfold mbind at 1, M_bind at 1. cbn [try_ mret M_ret]. fold d1. destruct reply as [[m1|app]|].
    - destruct (Hsend m1 r') as (d' & -> & H1 & H2 & H3 & H4). exists d'. split; [done|]. rewrite H3. cbn. by rewrite app_nil_r.
    - eexists. split; [reflexivity|]. cbn. by rewrite app_nil_r.
    - eexists. split; [reflexivity|]. cbn. by rewrite app_nil_r. }
  destruct m as [| | | |hello| | | | | | | | | | | | | | | | |]; try done; try (by apply Hmsg).
  cbn [flow_step]. destruct (on_client_hello hello VIRTUAL_PORT (hx_admission x, r)) as [[a|e|] [h1 r1]] eqn:E; [|done..].
  intros [= <- -> ->]. cbn [dispatch_message]. unfold mbind at 1, M_bind at 1. rewrite (with_admission_run x _ d r a h' r') by done.
  unfold mbind at 1, M_bind at 1. cbn [try_ mret M_ret]. fold d1.
  destruct (Hsend a r') as (d' & -> & H1 & H2 & H3 & H4). exists d'. split; [done|]. rewrite H3. cbn. by rewrite app_nil_r.
Qed.

(** The state in which a flow expects a message. *)
Definition expected_state (m : Message) : option HostState :=
  match m with
  | M_ClientHello _ => Some HS_AwaitingHello
  | M_TokenVerify _ => Some HS_AwaitingToken
  | M_ChallengeProof _ => Some HS_AwaitingProof
  | M_JoinRequest _ => Some HS_AwaitingJoinForm
  | _ => None
  end.

Lemma expected_accepted m x :
  expected_state m = Some (ha_state (hx_admission x)) →
  ConnectionState_accepts (connection_state x) (MessageType_class (Message_type m)) = true.
Proof. unfold connection_state. destruct m; try done; cbn [expected_state]; by intros [= <-]. Qed.

Lemma host_reads env m d r h reply h' r' :
  sends_all env → listening d h → expected_state m = Some (ha_state h) → flow_step m (h, r) = Some (reply, (h', r')) →
  ∃ d', host_inbound env c (Some m) (d, r) = (Done tt, (d', r')) ∧ host_steps d d' h' (reply_out reply) (reply_events reply).
Proof.
  intros He [(x & Hx & Hxh & Hxa) Hpol Hpeer] Hexp Hflow. subst h.
  set (x1 := hx_put_times (hx_stage_since x) (ck_instant (env_now env)) (hx_admitted x) x).
  set (d1 := hd_put_connections (alter (λ x, hx_put_times (hx_stage_since x) (ck_instant (env_now env)) (hx_admitted x) x) c
    (hd_connections d)) d).
  assert (Hx1 : hd_connections d1 !! c = Some x1) by (cbn; by rewrite lookup_alter_eq, Hx).
  destruct (dispatch_flow env x1 m d1 r reply h' r' He Hx1 Hpeer Hflow) as (d2 & Hd & Hconn & Hdel & Hsent & Hframe).
  unfold host_inbound. unfold mbind at 1, M_bind at 1, modify at 1. cbn [fst snd]. fold d1.
  unfold mbind at 1, M_bind at 1, self at 1. cbn [fst snd]. unfold mbind at 1, M_bind at 1, zoom. cbn [fst snd].
  change (hd_policy d1) with (hd_policy d). rewrite Hpol.
  assert (Hrun : ∃ d3, handle_host_message env c m JP_Open (d1, r) = (Done tt, (d3, r')) ∧
    hd_connections d3 = alter (λ x, if bool_decide (ha_state (hx_admission x) = ha_state (hx_admission x1)) then x
                 else hx_put_times (ck_instant (env_now env)) (hx_last_seen x) (hx_admitted x) x) c (hd_connections d2) ∧
    hd_delivered d3 = hd_delivered d2 ∧ hd_sent d3 = hd_sent d2 ∧ host_frame d3 = host_frame d2).
  { unfold handle_host_message, mbind at 1, M_bind at 1, self at 1. cbn [fst snd]. rewrite Hx1.
    unfold mbind at 1, M_bind at 1. cbn [ok_or mret M_ret]. rewrite bool_decide_eq_false_2 by done. cbn [andb].
    rewrite (expected_accepted m x1) by done. cbn [negb]. unfold mbind, M_bind. rewrite Hd. unfold modify. cbn [fst snd].
    eexists. split; [reflexivity|done]. }
  change (id d1) with d1. destruct Hrun as (d3 & -> & H1 & H2 & H3 & H4). exists d3. split; [done|]. constructor.
  - rewrite H1, Hconn, !lookup_alter_eq, Hx1. cbn [fmap option_fmap option_map]. eexists. split; [done|].
    case_bool_decide; done.
  - intros c' Hc'. rewrite H1, Hconn, !lookup_alter_ne by done. cbn. by rewrite lookup_alter_ne.
  - by rewrite H2, Hdel.
  - by rewrite H3, Hsent.
  - rewrite H4, Hframe. done.
Qed.

(** * The participant reads *)

(** What a reading does to the participant. *)
Record client_steps (d d' : JoinDriver) (cl : ClientAdmission) (out : list Message)
    (form : option (rstring * option rstring)) : Prop := {
  cs_admission : jd_admission d' = cl;
  cs_sent : jd_sent d' = jd_sent d ++ out;
  cs_form : jd_pending_form d' = form;
  cs_own : jd_own_nickname d' = jd_own_nickname d;
  cs_app : jd_app d' = jd_app d;
}.

(** A message the flow answers without ending. *)
Definition is_flow (m : Message) : bool :=
  match m with M_HostHello _ | M_PasswordChallenge _ | M_JoinAccepted _ => true | _ => false end.

(** A turn that reads a message is the handling of it, but for the clocks. *)
Lemma inbound_turn env m d r (P : JoinDriver → Prop) r' :
  (∀ d1, jd_admission d1 = jd_admission d → jd_pending_form d1 = jd_pending_form d → jd_own_nickname d1 = jd_own_nickname d →
     jd_app d1 = jd_app d → jd_sent d1 = jd_sent d →
     ∃ d2, handle_join_message env m (d1, r) = (Done tt, (d2, r')) ∧ (∀ a b, P (jd_put_times a b d2)) ∧ P d2) →
  ∃ d', join_turn env false (JE_Inbound (Some (Some m))) (d, r) = (Done tt, (d', r')) ∧ P d'.
Proof.
  intros Hf. unfold join_turn, join_event, join_inbound. unfold mbind at 1, M_bind at 1, modify at 1. cbn [fst snd].
  unfold mbind at 1, M_bind at 1, self at 1. cbn [fst snd]. unfold mbind at 1, M_bind at 1.
  destruct (Hf (jd_put_times (jd_stage_since d) (ck_instant (env_now env)) d) eq_refl eq_refl eq_refl eq_refl eq_refl)
    as (d2 & -> & HP & HP'). unfold modify. cbn [fst snd]. eexists. split; [reflexivity|]. by case_bool_decide.
Qed.

Lemma client_turn env m d r (P : JoinDriver → Prop) r' :
  is_flow m = true →
  (∀ d1, jd_admission d1 = jd_admission d → jd_pending_form d1 = jd_pending_form d → jd_own_nickname d1 = jd_own_nickname d →
     jd_app d1 = jd_app d → jd_sent d1 = jd_sent d →
     ∃ d2, flow_message env m (d1, r) = (Done tt, (d2, r')) ∧ (∀ a b, P (jd_put_times a b d2)) ∧ P d2) →
  ∃ d', join_turn env false (JE_Inbound (Some (Some m))) (d, r) = (Done tt, (d', r')) ∧ P d'.
Proof. intros Hm Hf. apply inbound_turn. by destruct m. Qed.

(** A reading with one reply, which is not the challenge's answer. *)
Lemma client_replies env m d r cl r' reply :
  sends_all env → is_flow m = true → on_host_message m (jd_admission d, r) = (Done [reply], (cl, r')) →
  is_challenge_answer reply = false → is_admitted cl = false →
  ∃ d', join_turn env false (JE_Inbound (Some (Some m))) (d, r) = (Done tt, (d', r')) ∧
    client_steps d d' cl [reply] (jd_pending_form d).
Proof.
  intros He Hm Hrun Hreply Hadm. apply client_turn; [done|]. intros d1 Ha Hp Ho Happ Hs.
  unfold flow_message, mbind at 1, M_bind at 1, with_client, zoom. cbn [fst snd]. rewrite Ha, Hrun.
  cbn [send_replies]. unfold mbind, M_bind. rewrite (sent_run _ _ _ _ He). rewrite Hreply. cbn [mret M_ret].
  unfold self. cbn [fst snd jd_admission jd_put_sent jd_put_admission]. rewrite Hadm. eexists. split; [reflexivity|].
  split; [intros a b|]; (constructor; cbn; [done|by rewrite Hs|done..]).
Qed.

(** The challenge's answer, followed by a form that waits. *)
Lemma client_proves env m d r cl r' proof :
  sends_all env → is_flow m = true → on_host_message m (jd_admission d, r) = (Done [M_ChallengeProof proof], (cl, r')) →
  is_admitted cl = false →
  match jd_pending_form d with
  | None => ∃ d', join_turn env false (JE_Inbound (Some (Some m))) (d, r) = (Done tt, (d', r')) ∧
      client_steps d d' cl [M_ChallengeProof proof] None
  | Some (nickname, introduction) => ∀ request cl' r'',
      join_request nickname introduction (cl, r') = (Done request, (cl', r'')) → is_admitted cl' = false →
      ∃ d', join_turn env false (JE_Inbound (Some (Some m))) (d, r) = (Done tt, (d', r'')) ∧
        client_steps d d' cl' [M_ChallengeProof proof; request] None
  end.
Proof.
  intros He Hm Hrun Hadm. destruct (jd_pending_form d) as [[nickname introduction]|] eqn:Ep.
  - intros request cl' r'' Hreq Hadm'. apply client_turn; [done|]. intros d1 Ha Hp Ho Happ Hs.
    unfold flow_message, mbind at 1, M_bind at 1, with_client, zoom. cbn [fst snd]. rewrite Ha, Hrun.
    cbn [send_replies is_challenge_answer]. unfold mbind, M_bind. rewrite (sent_run _ _ _ _ He).
    unfold self at 1. cbn [fst snd jd_pending_form jd_put_sent jd_put_admission]. rewrite Hp, Ep.
    unfold modify at 1, with_client, zoom. cbn [fst snd jd_admission jd_put_sent jd_put_admission jd_put_form]. rewrite Hreq.
    rewrite (sent_run _ _ _ _ He). cbn [mret M_ret]. unfold self. cbn [fst snd jd_admission jd_put_sent jd_put_admission jd_put_form].
    rewrite Hadm'. eexists. split; [reflexivity|].
    split; [intros a b|]; (constructor; cbn; [done|by rewrite Hs, <-app_assoc|done..]).
  - apply client_turn; [done|]. intros d1 Ha Hp Ho Happ Hs.
    unfold flow_message, mbind at 1, M_bind at 1, with_client, zoom. cbn [fst snd]. rewrite Ha, Hrun.
    cbn [send_replies is_challenge_answer]. unfold mbind, M_bind. rewrite (sent_run _ _ _ _ He).
    unfold self at 1. cbn [fst snd jd_pending_form jd_put_sent jd_put_admission]. rewrite Hp, Ep. cbn [mret M_ret].
    unfold self. cbn [fst snd jd_admission jd_put_sent jd_put_admission]. rewrite Hadm. eexists. split; [reflexivity|].
    split; [intros a b|]; (constructor; cbn; [done|by rewrite Hs|congruence..]).
Qed.

(** * The participant submits *)

Definition form_values (form : JoinFormModel) : rstring * option rstring :=
  (tf_text (jf_nickname form),
   if non_empty (tf_text (jf_introduction form)) then Some (tf_text (jf_introduction form)) else None).

(** The screen shows the form, ready to be submitted with [values]. *)
Definition form_ready (values : rstring * option rstring) (a : App) : Prop :=
  ∃ form, app_screen a = SCR_JoinForm form ∧ jf_focus form = JFF_Introduction ∧ jf_submitted form = false ∧ form_values form = values.

Lemma form_ready_submittable values a : form_ready values a → submittable a = true.
Proof. intros (form & Hs & Hf & Hd & _). unfold submittable. by rewrite Hs, Hf, Hd. Qed.

Lemma enter_submits values now a :
  form_ready values a →
  ∃ a', on_key enter now a = Some (AA_JoinFormSubmitted values.1 values.2, a') ∧ app_screen a' = SCR_JoinPending.
Proof.
  intros (form & Hs & Hf & Hd & <-). unfold on_key. rewrite Hs. cbn [screen_key]. unfold on_join_form_key. rewrite Hf.
  cbn [ke_code enter]. rewrite Hd. unfold form_values, tf_submit.
  destruct (tf_text (jf_introduction form)) as [|ch intro] eqn:Et; cbn [non_empty negb fst snd]; [by eexists|].
  destruct (tf_complete (jf_introduction form)); cbn [snd tf_text]; rewrite ?Et; by eexists.
Qed.

(** The submission, by what the flow makes of the application. *)
Lemma client_submits env d r values :
  sends_all env → form_ready values (jd_app d) →
  ∃ d0, jd_admission d0 = jd_admission d ∧ jd_sent d0 = jd_sent d ∧ jd_own_nickname d0 = Some values.1 ∧
    app_screen (jd_app d0) = SCR_JoinPending ∧
    match join_request values.1 values.2 (jd_admission d, r) with
    | (Done request, (cl, r')) => ∃ d', join_turn env false (JE_Key enter) (d, r) = (Done tt, (d', r')) ∧
        client_steps d0 d' cl [request] (jd_pending_form d)
    | (Fail _, (cl, r')) => ∃ d', join_turn env false (JE_Key enter) (d, r) = (Done tt, (d', r')) ∧
        client_steps d0 d' cl [] (Some values)
    | (Panic, _) => True
    end.
Proof.
  intros He Hform. destruct (enter_submits values (env_now env) _ Hform) as (a & Hkey & Ha).
  exists (jd_put_form (jd_pending_form d) (Some values.1) (jd_put_app (show_join_pending a) d)). split_and!; [done..|].
  assert (Hturn : join_turn env false (JE_Key enter) (d, r) = submit_form env values.1 values.2 (jd_put_app a d, r)).
  { unfold join_turn, join_event, join_key. change (is_quit_key enter) with false. cbv iota.
    unfold mbind at 1, M_bind at 1, self at 1. cbn [fst snd]. unfold mbind at 1, M_bind at 1. rewrite Hkey. done. }
  rewrite Hturn. clear Hturn Hkey.
  set (d1 := jd_put_form (jd_pending_form d) (Some values.1) (jd_put_app (show_join_pending a) d)).
  assert (Hw : ∀ x cl r', join_request values.1 values.2 (jd_admission d, r) = (x, (cl, r')) →
    with_client (join_request values.1 values.2) (d1, r) =
      (match x with Done a => Done (Ok a) | Fail e => Done (Err e) | Panic => Panic end, (jd_put_admission cl d1, r'))).
  { intros x cl r' E. unfold with_client, zoom. cbn [fst snd d1 jd_admission jd_put_form jd_put_app]. rewrite E. by destruct x. }
  unfold submit_form, mbind, M_bind, modify. cbn [fst snd].
  match goal with |- context [with_client _ ?s] => change s with (d1, r) end.
  destruct (join_request values.1 values.2 (jd_admission d, r)) as [[request|e|] [cl r']]; [| |done].
  - rewrite (Hw _ _ _ eq_refl). cbn [fst snd]. rewrite (sent_run _ _ _ _ He).
    eexists. split; [reflexivity|]. by constructor.
  - rewrite (Hw _ _ _ eq_refl). cbn [fst snd].
    eexists. split; [reflexivity|]. constructor; cbn; [done|by rewrite app_nil_r|by destruct values|done..].
Qed.

Lemma early_request nickname introduction cl r :
  cl_state cl ≠ CL_AwaitingJoinForm → ∃ e, join_request nickname introduction (cl, r) = (Fail e, (cl, r)).
Proof.
  intros Hs. unfold join_request, mbind, M_bind, self. cbn [fst snd]. rewrite bool_decide_eq_false_2 by done. by eexists.
Qed.
End pair.

(** * The meeting *)

(** The messages of a queue that are still to be read. *)
Definition queued (read : nat) (l q : list Message) : Prop := ∃ done, l = done ++ q ∧ length done = read.

Lemma queued_drop read l q : queued read l q → drop read l = q.
Proof. intros (rd & -> & <-). apply drop_app_length. Qed.

Lemma queued_all read l : queued read l [] → read = length l.
Proof. intros (rd & -> & <-). by rewrite app_nil_r. Qed.

Lemma all_queued read l : read = length l → queued read l [].
Proof. intros ->. exists l. by rewrite app_nil_r. Qed.

Lemma queued_push read l q out : queued read l q → queued read (l ++ out) (q ++ out).
Proof. intros (rd & -> & Hr). exists rd. by rewrite <-app_assoc. Qed.

Lemma queued_pop read l m q : queued read l (m :: q) → queued (S read) l q.
Proof. intros (rd & -> & <-). exists (rd ++ [m]). rewrite <-app_assoc, length_app. split; [done|]. simpl. lia. Qed.

Lemma delivered_to_app c l1 l2 : delivered_to c (l1 ++ l2) = delivered_to c l1 ++ delivered_to c l2.
Proof. apply omap_app. Qed.

Section meeting.
Context `{PR : !Primitives} `{PL : !PrimitiveLaws} `{HA : !Hashes} `{NF : !Nfc} `{UP : !UriPrimitives} `{ET : !ErrorTexts}.
Context (c : ConnectionId) (d0 : HostDriver) (h0 : HostAdmission) (cl0 : ClientAdmission) (password : list byte).
Context (values : rstring * option rstring) (n : rstring).
Context (Htotal : primitives_total) (Hpaired : paired VIRTUAL_PORT password h0 cl0).
Context (Hname : validate_nickname values.1 Limits_default = Ok n) (Hname' : validate_nickname n Limits_default = Ok n).
Context (Hintro : ∀ i, values.2 = Some i → validate_intro i Limits_default = Ok tt).

Inductive FormStatus := FS_Open | FS_Waiting | FS_Sent.

Definition form_is (fs : FormStatus) (j : JoinDriver) : Prop :=
  match fs with
  | FS_Open => jd_pending_form j = None ∧ form_ready values (jd_app j)
  | FS_Waiting => jd_pending_form j = Some values ∧ app_screen (jd_app j) = SCR_JoinPending ∧ jd_own_nickname j = Some values.1
  | FS_Sent => jd_pending_form j = None ∧ app_screen (jd_app j) = SCR_JoinPending ∧ jd_own_nickname j = Some values.1
  end.

(** The pair with both flows, both queues and what the room was told. *)
Record at_stage (fs : FormStatus) (h : HostAdmission) (cl : ClientAdmission) (qh qc : list Message) (evs : list RoomEvent)
    (p : Pair) : Prop := {
  as_host : listening c (pr_host p).1 h;
  as_client : jd_admission (pr_client p).1 = cl;
  as_to_host : queued (pr_host_read p) (jd_sent (pr_client p).1) qh;
  as_to_client : queued (pr_client_read p) (delivered_to c (hd_delivered (pr_host p).1)) qc;
  as_events : hd_sent (pr_host p).1 = hd_sent d0 ++ evs;
  as_frame : host_frame (pr_host p).1 = host_frame d0;
  as_others : ∀ c', c' ≠ c → hd_connections (pr_host p).1 !! c' = hd_connections d0 !! c';
  as_form : form_is fs (pr_client p).1;
}.

Lemma host_advances env m fs h cl qh qc evs p reply h' r' :
  sends_all env → at_stage fs h cl (m :: qh) qc evs p → expected_state m = Some (ha_state h) →
  flow_step m (h, (pr_host p).2) = Some (reply, (h', r')) →
  ∃ p', pair_move c (PM_HostReads env) p = Some p' ∧
    at_stage fs h' cl qh (qc ++ delivered_to c (reply_out c reply)) (evs ++ reply_events c reply) p'.
Proof.
  intros He [H1 H2 H3 H4 H5 H6 H7 H8] Hexp Hflow. destruct p as [[d r] [j rj] nh nc].
  cbn [fst snd pr_host pr_client pr_host_read pr_client_read] in *.
  destruct (host_reads c env m d r h reply h' r' He H1 Hexp Hflow) as (d' & Hrun & Hst).
  unfold pair_move, to_host. cbn [pr_host pr_client pr_host_read pr_client_read fst]. rewrite (queued_drop _ _ _ H3).
  cbn [head mbind option_bind].
  rewrite Hrun. eexists. split; [done|]. pose proof (listening_steps c _ _ _ _ _ _ H1 Hst) as Hl. destruct Hst as [_ Ho Hd Hs Hf].
  constructor; cbn; [done|done|by eapply queued_pop| | |congruence| |done].
  - rewrite Hd, delivered_to_app. by apply queued_push.
  - by rewrite Hs, H5, app_assoc.
  - intros c' Hc'. by rewrite Ho, H7.
Qed.

Lemma client_advances env m fs fs' h cl cl' qh qc evs p out :
  at_stage fs h cl qh (m :: qc) evs p →
  (∃ j' r', join_turn env false (JE_Inbound (Some (Some m))) (pr_client p) = (Done tt, (j', r')) ∧
    jd_admission j' = cl' ∧ jd_sent j' = jd_sent (pr_client p).1 ++ out ∧ form_is fs' j') →
  ∃ p', pair_move c (PM_ClientReads env) p = Some p' ∧ at_stage fs' h cl' (qh ++ out) qc evs p'.
Proof.
  intros [H1 H2 H3 H4 H5 H6 H7 H8] (j' & r' & Hrun & Ha & Hs & Hf). destruct p as [[d r] [j rj] nh nc].
  cbn [fst snd pr_host pr_client pr_host_read pr_client_read] in *.
  unfold pair_move, to_client. cbn [pr_host pr_client pr_host_read pr_client_read fst]. rewrite (queued_drop _ _ _ H4).
  cbn [head mbind option_bind].
  rewrite Hrun. eexists. split; [done|]. constructor; cbn; [done|done| |by eapply queued_pop|done..].
  rewrite Hs. by apply queued_push.
Qed.

(** The states of the two flows between the messages. *)
Definition h_greeted : HostAdmission := ha_put_state HS_AwaitingToken (ha_put_client_nonce (cl_client_nonce cl0) h0).
Definition h_challenged (nonce : list byte) : HostAdmission :=
  ha_put_state HS_AwaitingProof (ha_put_challenge_nonce nonce h_greeted).
Definition h_verified (nonce : list byte) : HostAdmission := ha_put_state HS_AwaitingJoinForm (h_challenged nonce).
Definition h_applied (nonce : list byte) : HostAdmission := ha_put_token [] (ha_put_state HS_Decided (h_verified nonce)).

Definition pinned : HostHelloInfo := info_of (hello_reply VIRTUAL_PORT h0 (cl_client_nonce cl0)).
Definition cl_pinned : ClientAdmission := cl_put_state CL_AwaitingChallenge (cl_put_hello (ha_server_nonce h0) pinned cl0).
Definition cl_proved : ClientAdmission := cl_put_state CL_AwaitingJoinForm (cl_clear_password cl_pinned).
Definition cl_applied : ClientAdmission := cl_put_state CL_AwaitingDecision cl_proved.

Definition the_request : JoinRequestMessage := Handshake.application_of cl0 pinned (ha_server_nonce h0) n values.2.
Definition the_application : JoinApplication := {|
  app_nickname := n; app_introduction := values.2; app_ed25519_pubkey := member_ed25519_pubkey (cl_identity cl0);
  app_x25519_pubkey := member_x25519_pubkey (cl_identity cl0); app_signature := jm_signature the_request |}.

Definition the_proof (nonce : list byte) : Message :=
  M_ChallengeProof {| cp_proof := expected_proof (ha_verifier h0) nonce (cl_client_nonce cl0) |}.

(** Where the pair is; [typed] tells that the form was submitted before the
    flow asked for it. *)
Inductive Stage :=
  | SG_Hello (typed : bool) | SG_Answer (typed : bool) | SG_Token (typed : bool) | SG_Challenge (typed : bool) (nonce : list byte)
  | SG_Proof (sent : bool) (nonce : list byte) | SG_Form (sent : bool) (nonce : list byte) | SG_Done (nonce : list byte).

Definition early_form (typed : bool) : FormStatus := if typed then FS_Waiting else FS_Open.
Definition late_form (sent : bool) : FormStatus := if sent then FS_Sent else FS_Open.
Definition cl_late (sent : bool) : ClientAdmission := if sent then cl_applied else cl_proved.
Definition late_request (sent : bool) : list Message := if sent then [M_JoinRequest the_request] else [].

Definition stage_at (sg : Stage) : Pair → Prop :=
  match sg with
  | SG_Hello typed => at_stage (early_form typed) h0 cl0 [first_message cl0] [] []
  | SG_Answer typed => at_stage (early_form typed) h_greeted cl0 []
      [M_HostHello (hello_reply VIRTUAL_PORT h0 (cl_client_nonce cl0))] []
  | SG_Token typed => at_stage (early_form typed) h_greeted cl_pinned [M_TokenVerify {| tv_token := ha_token h0 |}] [] []
  | SG_Challenge typed nonce => at_stage (early_form typed) (h_challenged nonce) cl_pinned [] [challenge_of h_greeted nonce] []
  | SG_Proof sent nonce =>
      at_stage (late_form sent) (h_challenged nonce) (cl_late sent) (the_proof nonce :: late_request sent) [] []
  | SG_Form sent nonce =>
      at_stage (late_form sent) (h_verified nonce) (cl_late sent) (late_request sent) [] [EV_PasswordVerified c]
  | SG_Done nonce =>
      at_stage FS_Sent (h_applied nonce) cl_applied [] [] [EV_PasswordVerified c; application_event c the_application]
  end.

(** The moves a stage has left. *)
Definition stage_left (sg : Stage) : nat :=
  let open (b : bool) := if b then 0 else 1 in
  match sg with
  | SG_Hello b => 6 + open b | SG_Answer b => 5 + open b | SG_Token b => 4 + open b | SG_Challenge b _ => 3 + open b
  | SG_Proof b _ => 2 + open b | SG_Form b _ => 1 + open b | SG_Done _ => 0
  end.

(** ** The moves of a stage *)

Lemma submit_waits env h cl qh qc evs p :
  sends_all env → at_stage FS_Open h cl qh qc evs p → cl_state cl ≠ CL_AwaitingJoinForm →
  ∃ p', pair_move c (PM_Submit env) p = Some p' ∧ at_stage FS_Waiting h cl qh qc evs p'.
Proof.
  intros He [H1 H2 H3 H4 H5 H6 H7 [H8 H9]] Hcl. destruct p as [[d r] [j rj] nh nc].
  cbn [fst snd pr_host pr_client pr_host_read pr_client_read] in *.
  destruct (client_submits env j rj values He H9) as (j0 & Ha & Hs & Ho & Happ & Hrun). subst cl.
  destruct (early_request values.1 values.2 (jd_admission j) rj Hcl) as [e E]. rewrite E in Hrun.
  destruct Hrun as (j' & Hrun & [F1 F2 F3 F4 F5]). cbn [pair_move pr_client]. rewrite Hrun. eexists. split; [done|].
  constructor; cbn; [done..| |done|done|done|done|].
  - by rewrite F2, app_nil_r, Hs.
  - by rewrite F3, F4, F5.
Qed.

Lemma submit_applies env h qh qc evs p :
  sends_all env → at_stage FS_Open h cl_proved qh qc evs p →
  ∃ p', pair_move c (PM_Submit env) p = Some p' ∧
    at_stage FS_Sent h cl_applied (qh ++ [M_JoinRequest the_request]) qc evs p'.
Proof.
  intros He [H1 H2 H3 H4 H5 H6 H7 [H8 H9]]. destruct p as [[d r] [j rj] nh nc].
  cbn [fst snd pr_host pr_client pr_host_read pr_client_read] in *.
  destruct (client_submits env j rj values He H9) as (j0 & Ha & Hs & Ho & Happ & Hrun). rewrite H2 in Hrun.
  rewrite (request_honest cl_proved rj pinned (ha_server_nonce h0) values.1 values.2 n) in Hrun by done.
  destruct Hrun as (j' & Hrun & [F1 F2 F3 F4 F5]). cbn [pair_move pr_client]. rewrite Hrun. eexists. split; [done|].
  constructor; cbn; [done|done| |done|done|done|done|].
  - rewrite F2, Hs. by apply queued_push.
  - by rewrite F3, F4, F5.
Qed.

(** What is read in each stage. *)
Lemma client_pins env b p :
  sends_all env → stage_at (SG_Answer b) p → ∃ p', pair_move c (PM_ClientReads env) p = Some p' ∧ stage_at (SG_Token b) p'.
Proof.
  intros He H. apply (client_advances env (M_HostHello (hello_reply VIRTUAL_PORT h0 (cl_client_nonce cl0))) (early_form b)
    (early_form b) h_greeted cl0 cl_pinned [] [] [] p [_]); [exact H|].
  destruct H as [_ Ha _ _ _ _ _ Hf]. destruct (pr_client p) as [j r]. cbn [fst snd] in *.
  pose proof (client_replies env (M_HostHello (hello_reply VIRTUAL_PORT h0 (cl_client_nonce cl0))) j r cl_pinned r
    (M_TokenVerify {| tv_token := ha_token h0 |}) He eq_refl) as Hrun. rewrite Ha in Hrun.
  destruct (Hrun (pin_honest VIRTUAL_PORT password h0 _ r Hpaired) eq_refl eq_refl) as (j' & Hjt & [F1 F2 F3 F4 F5]).
  exists j', r. split_and!; [done..|]. unfold form_is in *. rewrite F3, F4, F5. done.
Qed.
Lemma client_answers env b nonce p :
  sends_all env → stage_at (SG_Challenge b nonce) p →
  ∃ p', pair_move c (PM_ClientReads env) p = Some p' ∧ stage_at (SG_Proof b nonce) p'.
Proof.
  intros He H. apply (client_advances env (challenge_of h_greeted nonce) (early_form b) (late_form b) (h_challenged nonce) cl_pinned
    (cl_late b) [] [] [] p (the_proof nonce :: late_request b)); [exact H|].
  pose proof Hpaired as [_ _ _ _ _ _ Hpw (rng & rng' & Hd) _].
  destruct H as [_ Ha _ _ _ _ _ Hf]. destruct (pr_client p) as [j r]. cbn [fst snd] in *.
  pose proof (client_proves env (challenge_of h_greeted nonce) j r cl_proved r
    {| cp_proof := expected_proof (ha_verifier h0) nonce (cl_client_nonce cl0) |} He eq_refl) as Hrun. rewrite Ha in Hrun.
  specialize (Hrun (challenge_honest password (ha_verifier h0) cl_pinned r nonce rng rng' eq_refl Hpw Hd) eq_refl). destruct b.
  - destruct Hf as (Hp & Hs & Ho). rewrite Hp, (surjective_pairing values) in Hrun.
    specialize (Hrun _ _ _ (request_honest cl_proved r pinned (ha_server_nonce h0) values.1 values.2 n eq_refl eq_refl eq_refl
      Hname Hname' Hintro) eq_refl).
    destruct Hrun as (j' & Hrun & [F1 F2 F3 F4 F5]). exists j', r. split_and!; [done..|]. cbn. by rewrite F3, F4, F5.
  - destruct Hf as (Hp & Hs). rewrite Hp in Hrun. destruct Hrun as (j' & Hrun & [F1 F2 F3 F4 F5]).
    exists j', r. split_and!; [done..|]. cbn. by rewrite F3, F5.
Qed.

Lemma host_greets env b p :
  sends_all env → stage_at (SG_Hello b) p → ∃ p', pair_move c (PM_HostReads env) p = Some p' ∧ stage_at (SG_Answer b) p'.
Proof.
  intros He H. destruct (host_advances env _ _ _ _ _ _ _ _ (Some (HR_Message (M_HostHello (hello_reply VIRTUAL_PORT h0 (cl_client_nonce cl0)))))
    h_greeted (pr_host p).2 He H) as (p' & Hm & Hat).
  - by rewrite (pa_host _ _ _ _ Hpaired).
  - cbn [flow_step first_message]. by rewrite (hello_honest VIRTUAL_PORT h0 _ _ (pa_host _ _ _ _ Hpaired)).
  - exists p'. split; [done|]. cbn in Hat. by rewrite N.eqb_refl in Hat.
Qed.

Lemma host_challenges env b p :
  sends_all env → stage_at (SG_Token b) p →
  ∃ p' nonce, pair_move c (PM_HostReads env) p = Some p' ∧ stage_at (SG_Challenge b nonce) p'.
Proof.
  intros He H. destruct (token_honest h_greeted (pr_host p).2 (cl_client_nonce cl0) Htotal eq_refl eq_refl) as (nonce & r' & Htk).
  destruct (host_advances env _ _ _ _ _ _ _ _ (Some (HR_Message (challenge_of h_greeted nonce))) (h_challenged nonce) r' He H)
    as (p' & Hm & Hat); [done| |].
  - cbn [flow_step]. change (ha_token h0) with (ha_token h_greeted). by rewrite Htk.
  - exists p', nonce. split; [done|]. cbn in Hat. by rewrite N.eqb_refl in Hat.
Qed.

Lemma host_verifies env b nonce p :
  sends_all env → stage_at (SG_Proof b nonce) p →
  ∃ p', pair_move c (PM_HostReads env) p = Some p' ∧ stage_at (SG_Form b nonce) p'.
Proof.
  intros He H. apply (host_advances env _ _ _ _ _ [] _ _ None (h_verified nonce) (pr_host p).2 He H); [done|].
  pose proof (proof_honest (h_challenged nonce) (pr_host p).2 (cl_client_nonce cl0) nonce eq_refl eq_refl eq_refl) as E.
  exact (f_equal answer E).
Qed.

Lemma host_receives env nonce p :
  sends_all env → stage_at (SG_Form true nonce) p →
  ∃ p', pair_move c (PM_HostReads env) p = Some p' ∧ stage_at (SG_Done nonce) p'.
Proof.
  intros He H. apply (host_advances env _ _ _ _ [] [] _ _ (Some (HR_JoinRequested the_application)) (h_applied nonce) (pr_host p).2 He H);
    [done|].
  cbn [flow_step]. destruct (application_verified VIRTUAL_PORT password h0 cl0 n values.2 Hpaired) as [Hsig Hwrap].
  by rewrite (application_honest (h_verified nonce) _ (cl_client_nonce cl0) the_request eq_refl eq_refl Hsig Hwrap).
Qed.
(** ** Every stage *)

Lemma at_stage_queues fs h cl qh qc evs p : at_stage fs h cl qh qc evs p → to_host p = qh ∧ to_client c p = qc.
Proof. intros [_ _ H1 H2 _ _ _ _]. by rewrite <-(queued_drop _ _ _ H1), <-(queued_drop _ _ _ H2). Qed.

Lemma at_stage_form fs h cl qh qc evs p :
  at_stage fs h cl qh qc evs p → submittable (jd_app (pr_client p).1) = match fs with FS_Open => true | _ => false end.
Proof.
  intros [_ _ _ _ _ _ _ Hf]. destruct fs; cbn in Hf.
  - destruct Hf as [_ Hf]. by eapply form_ready_submittable.
  - destruct Hf as (_ & Hs & _). unfold submittable. by rewrite Hs.
  - destruct Hf as (_ & Hs & _). unfold submittable. by rewrite Hs.
Qed.

(** Who may move in a stage. *)
Definition stage_allows (sg : Stage) (m : PairMove) : bool :=
  match m, sg with
  | PM_HostReads _, (SG_Hello _ | SG_Token _ | SG_Proof _ _ | SG_Form true _) => true
  | PM_ClientReads _, (SG_Answer _ | SG_Challenge _ _) => true
  | PM_Submit _, (SG_Hello b | SG_Answer b | SG_Token b | SG_Challenge b _ | SG_Proof b _ | SG_Form b _) => negb b
  | _, _ => false
  end.

Lemma stage_ready sg m p : stage_at sg p → pair_ready c m p = stage_allows sg m.
Proof.
  intros H. destruct sg as [b|b|b|b nonce|b nonce|b nonce|nonce]; pose proof (at_stage_queues _ _ _ _ _ _ _ H) as [Hh Hc];
    pose proof (at_stage_form _ _ _ _ _ _ _ H) as Hf; destruct m; unfold pair_ready; rewrite ?Hh, ?Hc, ?Hf; by destruct b || done.
Qed.

(** A submission keeps the stage, with the form sent or waiting. *)
Lemma stage_submit env sg p :
  sends_all env → stage_at sg p → stage_allows sg (PM_Submit env) = true →
  ∃ p' sg', pair_move c (PM_Submit env) p = Some p' ∧ stage_at sg' p' ∧ stage_left sg = S (stage_left sg').
Proof.
  intros He H Ha. pose proof (pa_client _ _ _ _ Hpaired) as Hcl.
  destruct sg as [b|b|b|b nonce|b nonce|b nonce|nonce]; try done; destruct b; try done.
  1: destruct (submit_waits env _ _ _ _ _ _ He H) as (p' & Hm & H'); [by rewrite Hcl|by exists p', (SG_Hello true)].
  1: destruct (submit_waits env _ _ _ _ _ _ He H) as (p' & Hm & H'); [by rewrite Hcl|by exists p', (SG_Answer true)].
  1: destruct (submit_waits env _ _ _ _ _ _ He H) as (p' & Hm & H'); [done|by exists p', (SG_Token true)].
  1: destruct (submit_waits env _ _ _ _ _ _ He H) as (p' & Hm & H'); [done|by exists p', (SG_Challenge true nonce)].
  - destruct (submit_applies env _ _ _ _ _ He H) as (p' & Hm & H'). by exists p', (SG_Proof true nonce).
  - destruct (submit_applies env _ _ _ _ _ He H) as (p' & Hm & H'). by exists p', (SG_Form true nonce).
Qed.

Lemma stage_moves m sg p :
  sends_all (move_env m) → stage_at sg p → stage_allows sg m = true →
  ∃ p' sg', pair_move c m p = Some p' ∧ stage_at sg' p' ∧ stage_left sg = S (stage_left sg').
Proof.
  intros He H Ha. destruct m as [env|env|env]; [| |by apply stage_submit]; cbn [move_env] in He.
  - destruct sg as [b|b|b|b nonce|b nonce|b nonce|nonce]; try done.
    + destruct (host_greets env b p He H) as (p' & Hm & H'). by exists p', (SG_Answer b).
    + destruct (host_challenges env b p He H) as (p' & nonce & Hm & H'). by exists p', (SG_Challenge b nonce).
    + destruct (host_verifies env b nonce p He H) as (p' & Hm & H'). by exists p', (SG_Form b nonce).
    + destruct b; [|done]. destruct (host_receives env nonce p He H) as (p' & Hm & H'). by exists p', (SG_Done nonce).
  - destruct sg as [b|b|b|b nonce|b nonce|b nonce|nonce]; try done.
    + destruct (client_pins env b p He H) as (p' & Hm & H'). by exists p', (SG_Token b).
    + destruct (client_answers env b nonce p He H) as (p' & Hm & H'). by exists p', (SG_Proof b nonce).
Qed.

Lemma stage_runs ms sg p p' :
  Forall (λ m, sends_all (move_env m)) ms → stage_at sg p → pair_moves c ms p = Some p' →
  ∃ sg', stage_at sg' p' ∧ stage_left sg = length ms + stage_left sg'.
Proof.
  intros Hms. revert sg p. induction Hms as [|m ms He Hms IH]; intros sg p H; cbn [pair_moves].
  - intros [= <-]. by exists sg.
  - rewrite (stage_ready sg m p H). destruct (stage_allows sg m) eqn:Ha; [|done].
    destruct (stage_moves m sg p He H Ha) as (p1 & sg1 & -> & H1 & Hl). cbn [mbind option_bind]. intros Hrun.
    destruct (IH sg1 p1 H1 Hrun) as (sg' & H' & Hl'). exists sg'. split; [done|]. rewrite Hl, Hl'. done.
Qed.

(** Before the end somebody can move. *)
Lemma stage_waits env sg : stage_left sg ≠ 0 → ∃ m, move_env m = env ∧ stage_allows sg m = true.
Proof.
  destruct sg as [b|b|b|b nonce|b nonce|b nonce|nonce]; intros Hl;
    [by exists (PM_HostReads env)|by exists (PM_ClientReads env)|by exists (PM_HostReads env)|by exists (PM_ClientReads env)|
     by exists (PM_HostReads env)| |done].
  destruct b; [by exists (PM_HostReads env)|by exists (PM_Submit env)].
Qed.
End meeting.

(** * They meet *)

Section meet.
Context `{PR : !Primitives} `{PL : !PrimitiveLaws} `{HA : !Hashes} `{NF : !Nfc} `{UP : !UriPrimitives} `{ET : !ErrorTexts}.

(** The connection is open, the participant's hello is on its way and the
    form has been filled in with [values]. *)
Record about_to_meet (c : ConnectionId) (password : list byte) (values : rstring * option rstring) (h0 : HostAdmission)
    (p : Pair) : Prop := {
  am_paired : paired VIRTUAL_PORT password h0 (jd_admission (pr_client p).1);
  am_host : listening c (pr_host p).1 h0;
  am_hello : jd_sent (pr_client p).1 = [first_message (jd_admission (pr_client p).1)];
  am_silent : delivered_to c (hd_delivered (pr_host p).1) = [];
  am_unread : pr_host_read p = 0 ∧ pr_client_read p = 0;
  am_form : jd_pending_form (pr_client p).1 = None ∧ form_ready values (jd_app (pr_client p).1);
}.

(** Nothing is in flight. *)
Definition all_read (c : ConnectionId) (p : Pair) : Prop :=
  pr_host_read p = length (jd_sent (pr_client p).1) ∧ pr_client_read p = length (delivered_to c (hd_delivered (pr_host p).1)).

(** The room has the application, and the participant waits for the answer. *)
Record has_met (c : ConnectionId) (values : rstring * option rstring) (n : rstring) (h0 : HostAdmission) (p p' : Pair) : Prop := {
  hm_told : ∃ app, hd_sent (pr_host p').1 = hd_sent (pr_host p).1 ++ [EV_PasswordVerified c; application_event c app] ∧
    app_nickname app = n ∧ app_introduction app = values.2 ∧
    app_ed25519_pubkey app = member_ed25519_pubkey (cl_identity (jd_admission (pr_client p).1)) ∧
    app_x25519_pubkey app = member_x25519_pubkey (cl_identity (jd_admission (pr_client p).1));
  hm_connection : ∃ x, hd_connections (pr_host p').1 !! c = Some x ∧ ha_state (hx_admission x) = HS_Decided ∧
    ha_token (hx_admission x) = [] ∧ hx_admitted x = false;
  hm_client : cl_state (jd_admission (pr_client p').1) = CL_AwaitingDecision ∧ cl_password (jd_admission (pr_client p').1) = [] ∧
    cl_identity (jd_admission (pr_client p').1) = cl_identity (jd_admission (pr_client p).1) ∧
    cl_host_hello (jd_admission (pr_client p').1) =
      Some (info_of (hello_reply VIRTUAL_PORT h0 (cl_client_nonce (jd_admission (pr_client p).1))));
  hm_screen : app_screen (jd_app (pr_client p').1) = SCR_JoinPending ∧ jd_own_nickname (pr_client p').1 = Some values.1 ∧
    jd_pending_form (pr_client p').1 = None;
  hm_read : all_read c p';
  hm_frame : host_frame (pr_host p').1 = host_frame (pr_host p).1 ∧
    ∀ c', c' ≠ c → hd_connections (pr_host p').1 !! c' = hd_connections (pr_host p).1 !! c';
}.

Lemma done_has_met c password values n h0 nonce p p' :
  about_to_meet c password values h0 p →
  stage_at c (pr_host p).1 h0 (jd_admission (pr_client p).1) values n (SG_Done nonce) p' → has_met c values n h0 p p'.
Proof.
  intros [Hpa _ _ _ _ _] H.
  destruct H as [[(x & Hx & Hxh & Hxa) _ _] Hcl Hh Hc Hev Hf Ho Hform]. constructor.
  - eexists. split; [exact Hev|]. done.
  - exists x. by rewrite Hxh.
  - by rewrite Hcl.
  - destruct Hform as (? & ? & ?). done.
  - split; by apply queued_all.
  - done.
Qed.

(** C15.  A host session and a join session that share an invitation and a password
    meet, while the host's policy is open, the form that is submitted holds a valid
    nickname and introduction, the random source and the cipher do not fail and the
    queues of the connection take what they are given: in whatever order the host's
    supervisor and the participant's read their messages and the form is submitted, no
    reading ends a side, somebody can move until seven moves were made, and then the
    room was told that the password is verified and of the application, with the
    participant's nickname, introduction and keys; the host has wiped the token and the
    participant its password, nothing is in flight, and the host's other connections and
    settings are as they were. *)
Theorem drivers_meet c password values n h0 ms p p' :
  primitives_total → about_to_meet c password values h0 p →
  validate_nickname values.1 Limits_default = Ok n → validate_nickname n Limits_default = Ok n →
  (∀ i, values.2 = Some i → validate_intro i Limits_default = Ok tt) →
  Forall (λ m, sends_all (move_env m)) ms → pair_moves c ms p = Some p' →
  (∀ m, sends_all (move_env m) → pair_ready c m p' = true → is_Some (pair_move c m p')) ∧
  length ms ≤ 7 ∧
  (length ms < 7 → ∀ env, ∃ m, move_env m = env ∧ pair_ready c m p' = true) ∧
  (length ms = 7 → has_met c values n h0 p p').
Proof.
  intros Ht Hp Hv Hv' Hi Hms Hrun. pose proof Hp as [Hpa Hl Hs Hd [Hr1 Hr2] Hf].
  set (d0 := (pr_host p).1) in *. set (cl0 := jd_admission (pr_client p).1) in *.
  assert (H0 : stage_at c d0 h0 cl0 values n (SG_Hello false) p).
  { constructor; [done|done| | |by rewrite app_nil_r|done..]; exists []; [by rewrite Hr1|by rewrite Hr2]. }
  destruct (stage_runs c d0 h0 cl0 password values n Ht Hpa Hv Hv' Hi ms _ p p' Hms H0 Hrun) as (sg & H & Hleft).
  change (stage_left (SG_Hello false)) with 7 in Hleft. split_and!.
  - intros m He Hready. rewrite (stage_ready c d0 h0 cl0 values n sg m p' H) in Hready.
    destruct (stage_moves c d0 h0 cl0 password values n Ht Hpa Hv Hv' Hi m sg p' He H Hready) as (p1 & _ & -> & _). done.
  - lia.
  - intros Hlt env. destruct (stage_waits env sg) as (m & Hm & Ha); [lia|]. exists m.
    by rewrite (stage_ready c d0 h0 cl0 values n sg m p' H).
  - intros Hlen. destruct sg as [b|b|b|b nonce|b nonce|b nonce|nonce]; cbn in Hleft; try lia. by apply (done_has_met c password values n h0 nonce).
Qed.
End meet.
