(* ===== verification/Entering.v ===== *)
(** An accepted participant enters: the room's actions through the host's
    supervisor to the connection, and what the participant's supervisor makes
    of them. *)
From Stdlib Require Import Strings.String.
From S2P Require Export Meeting JoinProps EndToEnd.

Create HintDb passes.

(** * The participant reads what the room sends *)

Section participant.
Context `{PR : !Primitives} `{PL : !PrimitiveLaws} `{HA : !Hashes} `{NF : !Nfc} `{ET : !ErrorTexts}.

(** What a reading after admission leaves alone. *)
Definition participant_frame (j : JoinDriver) :=
  (cl_identity (jd_admission j), cl_state (jd_admission j), cl_member_id (jd_admission j),
   screen_kind (jd_app j)).

(** The acceptance opens the room. *)
Lemma acceptance_enters env j r id info :
  cl_state (jd_admission j) = CL_AwaitingDecision → cl_host_hello (jd_admission j) = Some info →
  ∃ j', join_turn env false (JE_Inbound (Some (Some (M_JoinAccepted {| ja_member_id := id |})))) (j, r) = (Done tt, (j', r)) ∧
    jd_sent j' = jd_sent j ∧
    cl_chat (jd_admission j') = Some (ChatSession_new (hi_room_session_id info) (hi_host_ed25519_pubkey info)
      (hi_host_x25519_pubkey info) id) ∧
    participant_frame j' = (cl_identity (jd_admission j), CL_Admitted, Some id,
      SK_Room false (default (lit "you") (jd_own_nickname j))).
Proof.
  intros Hs Hi. apply inbound_turn. intros j1 Ha _ Ho _ Hse.
  cbn [handle_join_message]. unfold flow_message, mbind at 1, M_bind at 1, with_client, zoom. cbn [fst snd].
  unfold on_host_message, mbind, M_bind, self, modify. cbn [fst snd]. rewrite Ha, Hs. cbn [fst snd]. rewrite Hi.
  cbn. rewrite Ho. eexists. split; [reflexivity|]. split; [intros a b|]; split_and!; cbn; try done; by rewrite Ha.
Qed.

(** A wrap is installed and acknowledged. *)
Lemma wrap_is_acknowledged env j r wrap s s' epoch :
  sends_all env → cl_chat (jd_admission j) = Some s →
  set_epoch_from_wrap (cl_identity (jd_admission j)) wrap (s, r) = (Done epoch, (s', r)) →
  ∃ j', join_turn env false (JE_Inbound (Some (Some (M_EpochWrap wrap)))) (j, r) = (Done tt, (j', r)) ∧
    jd_sent j' = jd_sent j ++ [M_EpochAck {| ea_epoch := epoch |}] ∧ cl_chat (jd_admission j') = Some s' ∧
    participant_frame j' = participant_frame j.
Proof.
  intros He Hc Hw. apply inbound_turn. intros j1 Ha _ _ Happ Hse.
  assert (Hrun : on_epoch_wrap wrap (jd_admission j1, r) =
    (Done (M_EpochAck {| ea_epoch := epoch |}), (cl_put_chat (Some s') (jd_admission j), r))).
  { unfold on_epoch_wrap, mbind, M_bind, self, on_chat. cbn [fst snd]. by rewrite Ha, Hc, Hw. }
  cbn [handle_join_message]. unfold mbind at 1, M_bind at 1, with_client, zoom. cbn [fst snd]. rewrite Hrun.
  unfold mbind, M_bind. rewrite (sent_run _ _ _ _ He). unfold join_system, on_join_view, modify. cbn [fst snd].
  eexists. split; [reflexivity|].
  split; [intros a b|]; unfold participant_frame; cbn [jd_put_times jd_put_app jd_put_sent jd_put_admission jd_sent jd_admission
    jd_app cl_put_chat cl_chat cl_identity cl_state cl_member_id]; rewrite Hse, Happ, screen_kind_view by done; done.
Qed.
(** A broadcast of the host that the session accepts is shown: the members on
    the screen are the session's. *)
Lemma broadcast_is_shown env j r message b s s' :
  signed_part message = Some b → cl_chat (jd_admission j) = Some s → is_Some (room_view (jd_app j)) →
  handle_membership_message message (s, r) = (Done tt, (s', r)) →
  ∃ j', join_turn env false (JE_Inbound (Some (Some message))) (j, r) = (Done tt, (j', r)) ∧
    jd_sent j' = jd_sent j ∧ cl_chat (jd_admission j') = Some s' ∧ participant_frame j' = participant_frame j ∧
    rv_members <$> room_view (jd_app j') = Some (member_line <$> cs_members s').
Proof.
  intros Hb Hc [v Hv] Hm. apply inbound_turn. intros j1 Ha _ _ Happ Hse.
  assert (Hh : ∀ s, handle_join_message env message s = membership_message env message s) by (by destruct message).
  rewrite Hh. unfold membership_message, mbind at 1, M_bind at 1, with_client, zoom, on_membership_message, on_chat. cbn [fst snd].
  rewrite Ha, Hc, Hm. unfold sync_join_members, mbind, M_bind, self. cbn [fst snd jd_admission jd_put_admission cl_chat cl_put_chat].
  unfold on_join_view at 1, modify at 1. cbn [fst snd].
  assert (Hscreen : app_screen (jd_app j) = SCR_Room v).
  { revert Hv. unfold room_view. destruct (app_screen _); try done. by intros [= ->]. }
  set (lines := member_line <$> cs_members s').
  set (j2 := jd_put_app (with_room_view (set_members lines) (jd_app j1)) (jd_put_admission (cl_put_chat (Some s') (jd_admission j)) j1)).
  assert (Hshow : ∃ a, show_membership env message (j2, r) = (Done tt, (jd_put_app a j2, r)) ∧
    screen_kind a = screen_kind (jd_app j) ∧ rv_members <$> room_view a = Some lines).
  { assert (Hbase : app_screen (jd_app j2) = SCR_Room (set_members lines v)).
    { unfold j2. cbn [jd_app jd_put_app]. rewrite Happ. unfold with_room_view. by rewrite Hscreen. }
    assert (Hkind : screen_kind (jd_app j2) = screen_kind (jd_app j)) by (unfold screen_kind; by rewrite Hbase, Hscreen).
    assert (Hview : ∀ f, unseen f → (∀ v, rv_members (f v) = rv_members v) →
      screen_kind (with_room_view f (jd_app j2)) = screen_kind (jd_app j) ∧
      rv_members <$> room_view (with_room_view f (jd_app j2)) = Some lines).
    { intros f Hf Hm'. rewrite screen_kind_view by done. split; [done|]. unfold with_room_view. rewrite Hbase. cbn. by rewrite Hm'. }
    destruct message; try done; try (eexists; split; [reflexivity|]; by apply Hview).
    all: exists (jd_app j2); split; [reflexivity|]; split; [done|]; unfold room_view; by rewrite Hbase. }
  destruct Hshow as (a & Hshow & Hk & Hl).
  match goal with |- context [show_membership env message ?x] => change x with (j2, r) end. rewrite Hshow.
  eexists. split; [reflexivity|]. split; [intros x y|]; unfold participant_frame; cbn; rewrite Hk; done.
Qed.
End participant.

(** * The host's supervisor passes the room's actions on *)

Definition sent_to (c : ConnectionId) (acts : list RoomAction) : list Message := delivered_to c (sends acts).

(** What the supervisor does with the actions of a room that admits: nothing
    that ends the session. *)
Definition plain (act : RoomAction) : bool :=
  match act with
  | SendTo c m => if (c =? HOST_CONNECTION)%N then match m with M_EpochWrap _ => true | _ => match signed_part m with Some _ => true | None => false end end else true
  | NotifyHost (HN_MemberJoined _ _) => true
  | _ => false
  end.

Section host.
Context `{PR : !Primitives} `{HA : !Hashes} `{NF : !Nfc} `{UP : !UriPrimitives} `{ET : !ErrorTexts}.
Context (cfg : HostConfig) (env : Env) (c : ConnectionId) (Hsends : sends_all env) (Hc : c ≠ HOST_CONNECTION).

(** The connection [c] stays, and receives [msgs]. *)
Record passed (msgs : list Message) (d d' : HostDriver) : Prop := {
  ps_delivered : delivered_to c (hd_delivered d') = delivered_to c (hd_delivered d) ++ msgs;
  ps_peer : is_Some (hn_peers (hd_network d') !! c);
  ps_connection : ∀ x, hd_connections d !! c = Some x → ∃ x', hd_connections d' !! c = Some x' ∧
    hx_admission x' = hx_admission x ∧ hx_admitted x' = hx_admitted x || existsb is_join_accepted msgs;
  ps_sent : hd_sent d `prefix_of` hd_sent d';
  ps_sequence : cs_sender_sequence (hd_chat d') = cs_sender_sequence (hd_chat d);
  ps_policy : hd_policy d' = hd_policy d;
}.

(** The computation completes, and does that. *)
Definition passes (m : DM unit) (msgs : list Message) : Prop :=
  ∀ d r, is_Some (hn_peers (hd_network d) !! c) → ∃ d' r', m (d, r) = (Done tt, (d', r')) ∧ passed msgs d d'.

Lemma passed_trans m1 m2 d1 d2 d3 : passed m1 d1 d2 → passed m2 d2 d3 → passed (m1 ++ m2) d1 d3.
Proof.
  intros [A1 A2 A3 A4 A5 A6] [B1 B2 B3 B4 B5 B6]. constructor; [by rewrite B1, A1, app_assoc|done| |by etrans|congruence..].
  intros x Hx. destruct (A3 x Hx) as (x2 & Hx2 & E1 & E2). destruct (B3 x2 Hx2) as (x3 & Hx3 & E3 & E4).
  exists x3. split; [done|]. split; [congruence|]. by rewrite E4, E2, existsb_app, orb_assoc.
Qed.

Lemma passes_bind m1 m2 msgs1 msgs2 : passes m1 msgs1 → passes m2 msgs2 → passes (m1;; m2) (msgs1 ++ msgs2).
Proof.
  intros H1 H2 d r Hp. destruct (H1 d r Hp) as (d1 & r1 & E1 & P1). destruct (H2 d1 r1 (ps_peer _ _ _ P1)) as (d2 & r2 & E2 & P2).
  exists d2, r2. split; [unfold mbind, M_bind; by rewrite E1, E2|by eapply passed_trans].
Qed.

Lemma passes_seq m1 m2 : passes m1 [] → passes m2 [] → passes (m1;; m2) [].
Proof. apply passes_bind. Qed.

Lemma passes_modify f msgs : (∀ d, is_Some (hn_peers (hd_network d) !! c) → passed msgs d (f d)) → passes (modify f) msgs.
Proof. intros Hf d r Hp. exists (f d), r. split; [done|by apply Hf]. Qed.

(** A change of what the theorem does not speak of. *)
Lemma passed_quiet d d' :
  (hd_delivered d', hd_network d', hd_connections d', cs_sender_sequence (hd_chat d'), hd_policy d') =
  (hd_delivered d, hd_network d, hd_connections d, cs_sender_sequence (hd_chat d), hd_policy d) →
  hd_sent d `prefix_of` hd_sent d' → is_Some (hn_peers (hd_network d) !! c) → passed [] d d'.
Proof.
  intros [= E1 E2 E3 E4 E5] Hs Hp. constructor; [by rewrite E1, app_nil_r|by rewrite E2| |done..].
  intros x Hx. exists x. rewrite E3. split_and!; [done..|]. cbn. by rewrite orb_false_r.
Qed.

Lemma passes_view f : passes (on_view f) [].
Proof. apply passes_modify. intros d Hp. by apply passed_quiet. Qed.

Lemma passes_send ev : passes (room_send ev) [].
Proof. apply passes_modify. intros d Hp. apply passed_quiet; [done| |done]. cbn. by eexists. Qed.

Lemma passes_ret : passes (mret tt) [].
Proof. intros d r Hp. exists d, r. split; [done|]. by apply passed_quiet. Qed.

Lemma passes_chat f : (∀ s, cs_sender_sequence (f s) = cs_sender_sequence s) → passes (set_chat f) [].
Proof. intros Hf. apply passes_modify. intros d Hp. apply passed_quiet; [|done..]. cbn. by rewrite Hf. Qed.
Hint Resolve passes_view passes_send passes_ret : passes.

Lemma passes_error t : passes (show_error env t) [].
Proof. apply passes_view. Qed.
Lemma passes_system t : passes (show_system env t) [].
Proof. apply passes_view. Qed.
Hint Resolve passes_error passes_system : passes.

Lemma passes_self k : (∀ d0, passes (k d0) []) → passes (self ≫= k) [].
Proof. intros Hk d r Hp. apply (Hk d d r Hp). Qed.

Lemma passes_sync : passes sync_members_from_session [].
Proof. apply passes_self. auto with passes. Qed.

Lemma passes_wrap wrap : passes (install_wrap cfg env wrap) [].
Proof.
  unfold install_wrap. destruct (member_try_wrap_key_for _ _ _ _); [|auto with passes].
  destruct (unwrap_epoch_key _ _ _ _ _); [|auto with passes].
  apply passes_seq; [apply passes_chat; intros s; unfold install_epoch; by case_match|].
  apply passes_seq; auto with passes.
Qed.
Lemma effect_sender message s : cs_sender_sequence (effect message s) = cs_sender_sequence s.
Proof. by destruct message. Qed.

Lemma passes_broadcast message b : signed_part message = Some b → passes (host_message cfg env message) [].
Proof.
  intros Hb.
  assert (Hm : host_message cfg env message = (r ← with_chat (handle_membership_message message);
    match r with Ok _ => sync_members_from_session | Err error => show_error env (chat_error_text error) end))
    by (by destruct message).
  rewrite Hm. intros d r Hp. unfold mbind at 1, M_bind at 1, with_chat, zoom. cbn [fst snd].
  destruct (handle_decided message b (hd_chat d) r Hb) as [(_ & _ & ->)|(_ & e & ->)].
  - set (d1 := hd_put_chat _ d). destruct (passes_sync d1 r Hp) as (d' & r' & -> & P). exists d', r'. split; [done|].
    apply (passed_trans [] [] d d1 d'); [|done]. apply passed_quiet; [|done..]. cbn. by rewrite effect_sender.
  - set (d1 := hd_put_chat _ d). destruct (passes_error (chat_error_text e) d1 r Hp) as (d' & r' & -> & P). exists d', r'.
    split; [done|]. apply (passed_trans [] [] d d1 d'); [|done]. by apply passed_quiet.
Qed.

(** Messages to clients. *)
Lemma passes_other c' m : c' ≠ c → passes (client_message env c' m) [].
Proof.
  intros Hne. unfold client_message, net_send. intros d r Hp. unfold mbind, M_bind, self, modify. cbn [fst snd].
  unfold send_to. destruct (hn_peers (hd_network d) !! c') as [w|] eqn:E.
  - rewrite Hsends. cbn [peer_send mret M_ret].
    assert (Hd : ∀ l, delivered_to c (l ++ [(c', m)]) = delivered_to c l).
    { intros l. rewrite delivered_to_app. cbn. rewrite (proj2 (N.eqb_neq _ _) Hne). apply app_nil_r. }
    destruct (is_join_accepted m); (eexists _, _; split; [reflexivity|]; constructor; [rewrite app_nil_r; exact (Hd _)|cbn|cbn|done..]).
    + by rewrite lookup_alter_ne.
    + intros x Hx. exists x. rewrite lookup_alter_ne by done. split_and!; [done..|]. by rewrite orb_false_r.
    + done.
    + intros x Hx. exists x. split_and!; [done..|]. by rewrite orb_false_r.
  - cbn [mret M_ret]. eexists _, _. split; [reflexivity|]. constructor; cbn; [by rewrite app_nil_r| | |by eexists|done..].
    + by rewrite lookup_delete_ne.
    + intros x Hx. exists x. split_and!; [done..|]. by rewrite orb_false_r.
Qed.

Lemma passes_own m : passes (client_message env c m) [m].
Proof.
  unfold client_message. intros d r Hp. unfold mbind at 1, M_bind at 1. rewrite (net_send_sent c env m d r Hsends Hp).
  assert (Hd : delivered_to c (hd_delivered d ++ [(c, m)]) = delivered_to c (hd_delivered d) ++ [m]).
  { rewrite delivered_to_app. cbn. by rewrite N.eqb_refl. }
  destruct (is_join_accepted m) eqn:Em; unfold mbind, M_bind, modify; cbn [fst snd mret M_ret].
  - eexists _, _. split; [reflexivity|]. constructor; cbn; [exact Hd| | |done..].
    + destruct Hp as [w Hw]. by rewrite lookup_alter_eq, Hw.
    + intros x Hx. rewrite lookup_alter_eq, Hx. eexists. split; [reflexivity|]. cbn. rewrite Em, orb_true_r. done.
  - eexists _, _. split; [reflexivity|]. constructor; cbn; [exact Hd|done| |done..].
    intros x Hx. exists x. rewrite Em. split_and!; [done..|]. by rewrite orb_false_r.
Qed.

Lemma action_passes act : plain act = true → passes (handle_host_action cfg env act) (sent_to c [act]).
Proof.
  intros Hp. destruct act as [c' m|c'|n]; [|done|].
  - cbn [plain handle_host_action] in *.
    assert (Hs : sent_to c [SendTo c' m] = if (c' =? c)%N then [m] else []) 
      by (change (sent_to c [SendTo c' m]) with (match (if (c' =? c)%N then Some m else None) with Some y => [y] | None => [] end);
          by destruct (c' =? c)%N).
    rewrite Hs. clear Hs. destruct (N.eqb_spec c' HOST_CONNECTION) as [->|Hne].
    + rewrite (proj2 (N.eqb_neq _ _)) by done. destruct m; try done; first [apply passes_wrap|by eapply passes_broadcast].
    + destruct (N.eqb_spec c' c) as [->|Hne']; [apply passes_own|by apply passes_other].
  - destruct n; try done. cbn [handle_host_action host_notice]. apply passes_seq; [apply passes_system|apply passes_send].
Qed.

Lemma sent_to_cons act acts : sent_to c (act :: acts) = sent_to c [act] ++ sent_to c acts.
Proof.
  unfold sent_to. rewrite <-delivered_to_app. unfold sends. by rewrite <-omap_app.
Qed.

Lemma actions_pass acts : Forall (λ a, plain a = true) acts → passes (handle_host_actions cfg env acts) (sent_to c acts).
Proof.
  induction 1 as [|act acts Ha _ IH]; [apply passes_ret|]. cbn [handle_host_actions]. rewrite sent_to_cons.
  apply passes_bind; [by apply action_passes|exact IH].
Qed.
(** The host's own wrap is acknowledged at once. *)
Lemma wrap_acks wrap wk key d r :
  member_try_wrap_key_for (hg_client_identity cfg) (host_x25519_pubkey (hg_host_identity cfg)) (hg_session_id cfg) 0 = Ok wk →
  unwrap_epoch_key wk (ew_epoch wrap) (hg_session_id cfg) (ew_nonce wrap) (ew_ciphertext wrap) = Ok key →
  is_Some (hn_peers (hd_network d) !! c) →
  ∃ d' r', handle_host_action cfg env (SendTo HOST_CONNECTION (M_EpochWrap wrap)) (d, r) = (Done tt, (d', r')) ∧
    EV_EpochAck HOST_CONNECTION (ew_epoch wrap) ∈ hd_sent d'.
Proof.
  intros Hk Hu Hp. cbn [handle_host_action host_message]. change (HOST_CONNECTION =? HOST_CONNECTION)%N with true. cbv iota.
  unfold install_wrap. rewrite Hk, Hu. eexists _, _. split; [reflexivity|]. cbn. apply elem_of_app. right. by left.
Qed.

Lemma actions_ack acts wrap wk key d r :
  Forall (λ a, plain a = true) acts → SendTo HOST_CONNECTION (M_EpochWrap wrap) ∈ acts →
  member_try_wrap_key_for (hg_client_identity cfg) (host_x25519_pubkey (hg_host_identity cfg)) (hg_session_id cfg) 0 = Ok wk →
  unwrap_epoch_key wk (ew_epoch wrap) (hg_session_id cfg) (ew_nonce wrap) (ew_ciphertext wrap) = Ok key →
  is_Some (hn_peers (hd_network d) !! c) →
  ∃ d' r', handle_host_actions cfg env acts (d, r) = (Done tt, (d', r')) ∧ passed (sent_to c acts) d d' ∧
    EV_EpochAck HOST_CONNECTION (ew_epoch wrap) ∈ hd_sent d'.
Proof.
  intros Hpl Hin Hk Hu. revert d r. induction Hpl as [|act acts Ha Hacts IH]; intros d r Hp; [by apply not_elem_of_nil in Hin|].
  destruct (action_passes act Ha d r Hp) as (d1 & r1 & E1 & P1). pose proof (ps_peer _ _ _ P1) as Hp1.
  cbn [handle_host_actions]. unfold mbind, M_bind. rewrite E1, sent_to_cons. apply elem_of_cons in Hin as [<-|Hin].
  - destruct (actions_pass acts Hacts d1 r1 Hp1) as (d2 & r2 & E2 & P2). exists d2, r2. split; [done|].
    split; [by eapply passed_trans|]. destruct (wrap_acks wrap wk key d r Hk Hu Hp) as (d1' & r1' & E1' & Hev).
    rewrite E1 in E1'. injection E1' as -> ->. destruct (ps_sent _ _ _ P2) as [l ->]. apply elem_of_app. by left.
  - destruct (IH Hin d1 r1 Hp1) as (d2 & r2 & E2 & P2 & Hev). exists d2, r2. split_and!; [done|by eapply passed_trans|done].
Qed.

(** An acknowledgement of the connection reaches the room. *)
Lemma host_reads_ack ack x d r :
  hd_connections d !! c = Some x → ha_state (hx_admission x) = HS_Decided → hx_admitted x = true →
  is_Some (hn_peers (hd_network d) !! c) →
  ∃ d', host_inbound env c (Some (M_EpochAck ack)) (d, r) = (Done tt, (d', r)) ∧ passed [] d d' ∧
    hd_sent d' = hd_sent d ++ [EV_EpochAck c (ea_epoch ack)].
Proof.
  intros Hx Hs Ha Hp. unfold host_inbound. unfold mbind at 1, M_bind at 1, modify at 1. cbn [fst snd].
  set (f := λ x, hx_put_times (hx_stage_since x) (ck_instant (env_now env)) (hx_admitted x) x).
  set (d1 := hd_put_connections (alter f c (hd_connections d)) d).
  assert (Hx1 : hd_connections d1 !! c = Some (f x)) by (cbn; by rewrite lookup_alter_eq, Hx).
  unfold mbind at 1, M_bind at 1, self at 1. cbn [fst snd]. unfold mbind at 1, M_bind at 1, zoom. cbn [fst snd].
  unfold handle_host_message. unfold mbind at 1, M_bind at 1, self at 1. cbn [fst snd]. change (id d1) with d1. rewrite Hx1.
  cbn [ok_or]. unfold mbind at 1, M_bind at 1, mret at 1, M_ret at 1.
  replace (negb (hx_admitted (f x))) with false by (cbn; by rewrite Ha). rewrite andb_false_r.
  replace (ConnectionState_accepts (connection_state (f x)) (MessageType_class (Message_type (M_EpochAck ack)))) with true
    by (unfold connection_state; cbn; by rewrite Hs, Ha).
  cbn [negb dispatch_message]. unfold mbind, M_bind, room_send, modify, self, mret, M_ret. cbn [fst snd].
  eexists. split; [reflexivity|]. split; [|done]. constructor; cbn; [by rewrite app_nil_r|done| |by eexists|done..].
  intros y Hy. rewrite Hx in Hy. injection Hy as <-. rewrite !lookup_alter_eq, Hx. eexists. split; [reflexivity|].
  case_bool_decide; cbn; by rewrite orb_false_r.
Qed.
End host.

(** The lifetime of messages that the host announces after a transition. *)
Section rebroadcast.
Context `{PR : !Primitives} `{HA : !Hashes} `{NF : !Nfc} `{UP : !UriPrimitives} `{ET : !ErrorTexts}.
Context (cfg : HostConfig) (env : Env) (c : ConnectionId) (Hsends : sends_all env) (Hc : c ≠ HOST_CONNECTION).

Lemma send_timeout_returns identity interval s r :
  is_Some (succ_u64 (cs_sender_sequence s)) → ∃ o s' r', send_timeout_changed identity interval (s, r) = (o, (s', r')) ∧ o ≠ Panic.
Proof.
  intros [n Hn]. unfold send_timeout_changed. unfold mbind at 1, M_bind at 1.
  assert (Hv : ∃ o, (match interval with Some seconds => try_ id (validate_timeout_seconds seconds) | None => mret tt end) (s, r)
    = (o, (s, r)) ∧ (o = Done tt ∨ ∃ e, o = Fail e)).
  { destruct interval as [seconds|]; [|by exists (Done tt); auto].
    destruct (validate_timeout_seconds seconds) as [[]|e]; [by exists (Done tt); auto|by exists (Fail e); eauto]. }
  destruct Hv as (o & -> & [->|[e ->]]); [|by eexists _, _, _].
  unfold seal. unfold mbind, M_bind, self. cbn [fst snd]. destruct (cs_current_epoch s) as [k|]; cbn [ok_or]; [|by eexists _, _, _].
  unfold mret at 1, M_ret at 1. rewrite Hn. cbn [expect]. unfold mret at 1, M_ret at 1, modify, draw_err. cbn [fst snd].
  destruct (seal_envelope _ _ _ _ _ _ _ _ _ _) as [[sealed|e] r1]; [|by eexists _, _, _].
  destruct (EncryptedEnvelope_new _ _ _ _ _ _); by eexists _, _, _.
Qed.

Lemma rebroadcast_passes seconds d r :
  is_Some (succ_u64 (cs_sender_sequence (hd_chat d))) → is_Some (hn_peers (hd_network d) !! c) →
  ∃ d' r', handle_host_action cfg env (NotifyHost (HN_TimeoutRebroadcast seconds)) (d, r) = (Done tt, (d', r')) ∧
    passed c [] d (hd_put_chat (hd_chat d) d').
Proof.
  intros Hseq Hp. cbn [handle_host_action host_notice]. unfold announce_timeout, mbind at 1, M_bind at 1, with_chat, zoom. cbn [fst snd].
  destruct (send_timeout_returns (hg_client_identity cfg) (Some seconds) (hd_chat d) r Hseq) as ([m|e|] & s' & r' & -> & Ho); [| |done].
  - assert (Hm : ∃ d' r'', (match m with
        | M_TimeoutChanged envelope => room_send (EV_ChatReceived HOST_CONNECTION MSG_TIMEOUT_CHANGED envelope);; mret tt
        | _ => mret tt end) (hd_put_chat s' d, r') = (Done tt, (d', r'')) ∧ passed c [] d (hd_put_chat (hd_chat d) d')).
    { destruct m; eexists _, _; (split; [reflexivity|]; apply passed_quiet; [done|first [done|cbn; by eexists]|done]). }
    destruct Hm as (d' & r'' & Hrun & P). exists d', r''. split; [|exact P]. destruct m; exact Hrun.
  - eexists _, _. split; [reflexivity|]. by apply passed_quiet.
Qed.

(** What the end of a transition releases. *)
Lemma released_passes a d r :
  Forall (λ act, plain act = true) (ra_pending_membership a) →
  is_Some (succ_u64 (cs_sender_sequence (hd_chat d))) → is_Some (hn_peers (hd_network d) !! c) →
  ∃ d' r', handle_host_actions cfg env (released a) (d, r) = (Done tt, (d', r')) ∧
    passed c (sent_to c (released a)) d (hd_put_chat (hd_chat d) d').
Proof.
  intros Hpl Hseq Hp.
  assert (Happ : ∀ l1 l2 s, handle_host_actions cfg env (l1 ++ l2) s = (handle_host_actions cfg env l1;; handle_host_actions cfg env l2) s).
  { induction l1 as [|act l1 IH]; intros l2 s; [done|]. cbn [app handle_host_actions]. unfold mbind, M_bind.
    destruct (handle_host_action cfg env act s) as [[[]|e|] s1]; done. }
  destruct (actions_pass cfg env c Hsends Hc _ Hpl d r Hp) as (d1 & r1 & E1 & P1).
  unfold released. rewrite Happ. unfold mbind at 1, M_bind at 1. rewrite E1. destruct (ra_room_timeout a) as [seconds|].
  - destruct (rebroadcast_passes seconds d1 r1) as (d2 & r2 & E2 & P2); [by rewrite (ps_sequence _ _ _ _ P1)|by apply (ps_peer _ _ _ _ P1)|].
    exists d2, r2. cbn [handle_host_actions]. unfold mbind, M_bind. rewrite E2. split; [done|].
    assert (Hs : sent_to c (ra_pending_membership a ++ [NotifyHost (HN_TimeoutRebroadcast seconds)]) =
      sent_to c (ra_pending_membership a) ++ []).
    { unfold sent_to, sends. rewrite omap_app, delivered_to_app. done. }
    rewrite Hs. eapply (passed_trans c _ [] d d1); [done|]. destruct P2 as [Q1 Q2 Q3 Q4 Q5 Q6].
    constructor; try done. cbn in *. symmetry. apply (ps_sequence _ _ _ _ P1).
  - exists d1, r1. rewrite app_nil_r. split; [done|]. destruct P1 as [Q1 Q2 Q3 Q4 Q5 Q6]. by constructor.
Qed.
End rebroadcast.

(** * What an admission sends *)

Section admission.
Context `{PR : !Primitives} `{PL : !PrimitiveLaws} `{NF : !Nfc}.

Lemma sent_to_app c l1 l2 : sent_to c (l1 ++ l2) = sent_to c l1 ++ sent_to c l2.
Proof. unfold sent_to, sends. by rewrite omap_app, delivered_to_app. Qed.

Lemma sent_to_own c m : sent_to c [SendTo c m] = [m].
Proof.
  change (sent_to c [SendTo c m]) with (match (if (c =? c)%N then Some m else None) with Some y => [y] | None => [] end).
  by rewrite N.eqb_refl.
Qed.

Lemma sent_to_other c c' m : c' ≠ c → sent_to c [SendTo c' m] = [].
Proof.
  intros Hne. change (sent_to c [SendTo c' m]) with (match (if (c' =? c)%N then Some m else None) with Some y => [y] | None => [] end).
  by rewrite (proj2 (N.eqb_neq _ _) Hne).
Qed.

Lemma wraps_to_none a key ms wraps c :
  Forall2 (wrap_sent a key) ms wraps → c ∉ (connection <$> ms) → sent_to c wraps = [].
Proof.
  induction 1 as [|m act ms wraps Hact _ IH]; [done|]. csimpl. intros [Hne Hni]%not_elem_of_cons.
  destruct Hact as (wk & env & rng & rng' & _ & _ & ->). rewrite sent_to_cons, sent_to_other by done. by apply IH.
Qed.

(** Each member is sent its own wrap, once. *)
Lemma wraps_to a key ms wraps m :
  Forall2 (wrap_sent a key) ms wraps → NoDup (connection <$> ms) → m ∈ ms →
  ∃ w, sent_to (connection m) wraps = [M_EpochWrap w] ∧ SendTo (connection m) (M_EpochWrap w) ∈ wraps ∧
    wrap_sent a key m (SendTo (connection m) (M_EpochWrap w)).
Proof.
  induction 1 as [|k act ms wraps Hact Hrest IH]; [by intros _ ?%not_elem_of_nil|].
  csimpl. intros [Hni Hnd]%list.NoDup_cons Hin. pose proof Hact as (wk & env & rng & rng' & _ & _ & ->).
  rewrite sent_to_cons. apply elem_of_cons in Hin as [->|Hin].
  - rewrite sent_to_own, (wraps_to_none _ _ _ _ _ Hrest Hni). eexists. split; [done|]. split; [by left|done].
  - rewrite sent_to_other.
    + destruct (IH Hnd Hin) as (w & E & Hw & Hs). exists w. split; [done|]. split; [by right|done].
    + intros E. apply Hni. rewrite E. by apply list_elem_of_fmap_2.
Qed.

Lemma wraps_plain a key ms wraps : Forall2 (wrap_sent a key) ms wraps → Forall (λ act, plain act = true) wraps.
Proof.
  induction 1 as [|m act ms wraps (wk & env & rng & rng' & _ & _ & ->) _ IH]; constructor; [|done].
  cbn. by destruct (_ =? _)%N.
Qed.

Lemma NoDup_fmap_elem {A B} (f : A → B) (l : list A) x y : NoDup (f <$> l) → x ∈ l → y ∈ l → f x = f y → x = y.
Proof.
  intros Hnd (i & Hi)%list_elem_of_lookup (j & Hj)%list_elem_of_lookup E.
  assert (i = j) as ->; [|congruence].
  apply (NoDup_lookup (f <$> l) i j (f x)); [done|by rewrite list_lookup_fmap, Hi|by rewrite list_lookup_fmap, Hj, E].
Qed.

(** The newcomer is told the whole table, and nothing else. *)
Lemma announcements_to a q m :
  m ∈ table_members (ra_members a) → NoDup (connection <$> table_members (ra_members a)) →
  sent_to (connection m) (announcements a q m) = [M_MemberSnapshot (snapshot_message a (q + 1))].
Proof.
  intros Hin Hnd. unfold announcements. rewrite sent_to_app, sent_to_own.
  assert (Hothers : ∀ ms, (∀ k, k ∈ ms → connection k = connection m → member_id k = member_id m) →
    sent_to (connection m) (omap (λ k, if (member_id k =? member_id m)%N then None
      else Some (SendTo (connection k) (M_MemberJoined (joined_message a q m)))) ms) = []).
  { induction ms as [|k ms IH]; intros Hk; [done|]. csimpl.
    assert (IH' := IH (λ k' Hk', Hk k' (list_elem_of_further _ _ _ Hk'))).
    destruct (N.eqb_spec (member_id k) (member_id m)) as [E|Hne]; [exact IH'|].
    rewrite sent_to_cons, sent_to_other, IH'; [done|]. intros E. apply Hne, Hk; [by left|done]. }
  rewrite Hothers; [done|]. intros k Hk E. by rewrite (NoDup_fmap_elem connection _ k m Hnd Hk Hin E).
Qed.

Lemma announcements_plain a q m : Forall (λ act, plain act = true) (announcements a q m).
Proof.
  unfold announcements. apply list.Forall_app. split.
  - apply list.Forall_forall. intros act (k & _ & Hk)%list_elem_of_omap. destruct (_ =? _)%N; [done|]. injection Hk as <-.
    cbn. by destruct (_ =? _)%N.
  - constructor; [|constructor]. cbn. by destruct (_ =? _)%N.
Qed.
End admission.

(** * The two supervisors *)

Section entering.
Context `{PR : !Primitives} `{PL : !PrimitiveLaws} `{HA : !Hashes} `{NF : !Nfc} `{UP : !UriPrimitives} `{ET : !ErrorTexts}.
Context (cfg : HostConfig) (c : ConnectionId) (env : nat → Env) (Hsends : ∀ i, sends_all (env i)).

Definition with_host (h : HostDriver * Rng) (p : Pair) : Pair := {|
  pr_host := h; pr_client := pr_client p; pr_host_read := pr_host_read p; pr_client_read := pr_client_read p |}.

(** Messages on their way to the participant, to the host. *)
Definition to_client_are (p : Pair) (qc : list Message) : Prop :=
  queued (pr_client_read p) (delivered_to c (hd_delivered (pr_host p).1)) qc.
Definition to_host_are (p : Pair) (qh : list Message) : Prop := queued (pr_host_read p) (jd_sent (pr_client p).1) qh.

Lemma client_move e p m qc qh j' r' out ms :
  to_client_are p (m :: qc) → to_host_are p qh →
  join_turn e false (JE_Inbound (Some (Some m))) (pr_client p) = (Done tt, (j', r')) →
  jd_sent j' = jd_sent (pr_client p).1 ++ out →
  ∃ p', pair_moves c (PM_ClientReads e :: ms) p = pair_moves c ms p' ∧ pr_host p' = pr_host p ∧ pr_client p' = (j', r') ∧
    to_client_are p' qc ∧ to_host_are p' (qh ++ out).
Proof.
  intros Hc Hh Hrun Hs. cbn [pair_moves pair_ready pair_move]. unfold to_client. unfold to_client_are in Hc.
  rewrite (queued_drop _ _ _ Hc). cbn [head mbind option_bind]. rewrite Hrun. eexists. split; [reflexivity|].
  split_and!; [done|done|by eapply queued_pop|]. unfold to_host_are in *. cbn. rewrite Hs. by apply queued_push.
Qed.

Lemma host_move e p m qc qh d' r' ms :
  to_client_are p qc → to_host_are p (m :: qh) →
  host_inbound e c (Some m) (pr_host p) = (Done tt, (d', r')) →
  delivered_to c (hd_delivered d') = delivered_to c (hd_delivered (pr_host p).1) →
  ∃ p', pair_moves c (PM_HostReads e :: ms) p = pair_moves c ms p' ∧ pr_host p' = (d', r') ∧ pr_client p' = pr_client p ∧
    to_client_are p' qc ∧ to_host_are p' qh.
Proof.
  intros Hc Hh Hrun Hd. cbn [pair_moves pair_ready pair_move]. unfold to_host. unfold to_host_are in Hh.
  rewrite (queued_drop _ _ _ Hh). cbn [head mbind option_bind]. rewrite Hrun. eexists. split; [reflexivity|].
  split_and!; [done|done| |by eapply queued_pop]. unfold to_client_are in *. cbn. by rewrite Hd.
Qed.

(** The participant waits for the decision on its application [app]. *)
Record awaits_decision (a : RoomActor) (app : JoinApplication) (name : rstring) (j : JoinDriver) : Prop := {
  aw_state : cl_state (jd_admission j) = CL_AwaitingDecision;
  aw_host : ∃ info, cl_host_hello (jd_admission j) = Some info ∧ hi_room_session_id info = ra_session_id a ∧
    hi_host_ed25519_pubkey info = host_ed25519_pubkey (ra_host_identity a) ∧
    hi_host_x25519_pubkey info = host_x25519_pubkey (ra_host_identity a);
  aw_keys : app_x25519_pubkey app = member_x25519_pubkey (cl_identity (jd_admission j)) ∧
    app_ed25519_pubkey app = member_ed25519_pubkey (cl_identity (jd_admission j));
  aw_name : jd_own_nickname j = Some name;
}.

(** So does the connection, with nothing in flight. *)
Record awaits (a : RoomActor) (app : JoinApplication) (name : rstring) (p : Pair) : Prop := {
  aw_client : awaits_decision a app name (pr_client p).1;
  aw_connection : ∃ x, hd_connections (pr_host p).1 !! c = Some x ∧ ha_state (hx_admission x) = HS_Decided;
  aw_peer : is_Some (hn_peers (hd_network (pr_host p).1) !! c);
  aw_read : all_read c p;
}.

(** A session in which nothing was said or read. *)
Definition unspoken (s : ChatSession) : Prop := cs_replay s = ∅ ∧ cs_sender_sequence s = 0%N.

(** The participant has the key, and was told nothing else yet. *)
Record has_key (a : RoomActor) (m : Member) (name : rstring) (im : MemberIdentity) (j : JoinDriver) : Prop := {
  hk_frame : participant_frame j = (im, CL_Admitted, Some (member_id m), SK_Room false name);
  hk_session : ∃ s, cl_chat (jd_admission j) = Some s ∧ attached a m im s ∧
    cs_current_epoch s = chat_key a ∧ current_epoch s = Some (ra_epoch a) ∧ cs_last_room_sequence s = None ∧ unspoken s;
}.

Record keyed (a : RoomActor) (m : Member) (name : rstring) (im : MemberIdentity) (p : Pair) : Prop := {
  kd_client : has_key a m name im (pr_client p).1;
  kd_connection : ∃ x, hd_connections (pr_host p).1 !! c = Some x ∧ hx_admitted x = true;
  kd_peer : is_Some (hn_peers (hd_network (pr_host p).1) !! c);
  kd_read : to_client_are p [] ∧ to_host_are p [];
}.

(** What the actions of an admission of [m] are, in the room [a] they lead to. *)
Record admits (a : RoomActor) (m : Member) (key : EpochKey) (acts : list RoomAction) : Prop := {
  ad_acts : ∃ wraps, acts = SendTo c (M_JoinAccepted {| ja_member_id := member_id m |}) ::
      NotifyHost (HN_MemberJoined (member_id m) (nickname m)) :: wraps ∧
    Forall2 (wrap_sent a key) (table_members (ra_members a)) wraps;
  ad_key : length key = 32 ∧ chat_key a = Some (ra_epoch a, key);
  ad_table : NoDup (connection <$> table_members (ra_members a));
  ad_member : m ∈ table_members (ra_members a) ∧ connection m = c;
  ad_host : ∃ m0, m0 ∈ table_members (ra_members a) ∧ connection m0 = HOST_CONNECTION ∧ member_id m0 = 0%N ∧
    x25519_pubkey m0 = member_x25519_pubkey (hg_client_identity cfg);
  ad_config : hg_host_identity cfg = ra_host_identity a ∧ hg_session_id cfg = ra_session_id a;
  ad_other : c ≠ HOST_CONNECTION;
}.

Lemma admits_sent a m key acts :
  admits a m key acts → ∃ w, sent_to c acts = [M_JoinAccepted {| ja_member_id := member_id m |}; M_EpochWrap w] ∧
    wrap_sent a key m (SendTo c (M_EpochWrap w)).
Proof.
  intros [(wraps & -> & Hw) _ Hnd [Hm Hmc] _ _ _].
  destruct (wraps_to a key _ wraps m Hw Hnd Hm) as (w & E & _ & Hs). rewrite Hmc in E, Hs. exists w. split; [|done].
  rewrite sent_to_cons, sent_to_own, sent_to_cons, E. done.
Qed.

Lemma host_passes_admission e a m key acts d r :
  sends_all e → admits a m key acts → is_Some (hn_peers (hd_network d) !! c) →
  ∃ d' r', handle_host_actions cfg e acts (d, r) = (Done tt, (d', r')) ∧ passed c (sent_to c acts) d d' ∧
    EV_EpochAck HOST_CONNECTION (ra_epoch a) ∈ hd_sent d'.
Proof.
  intros He [(wraps & -> & Hw) [Hlen _] Hnd _ (m0 & Hm0 & Hc0 & Hid0 & Hx0) [Hhid Hsid] Hne] Hp.
  destruct (wraps_to a key _ wraps m0 Hw Hnd Hm0) as (w & _ & Hin & (wk & en & rng & rng' & Hwk & Hen & [= Ew])).
  rewrite Hid0, Hx0 in Hwk. destruct (epoch_key_roundtrip _ _ _ _ _ _ _ _ _ _ Hlen Hwk Hen) as (wk' & Hwk' & Hun).
  rewrite Hc0 in Hin. rewrite <-Hhid, <-Hsid in Hwk'. rewrite <-Hsid in Hun.
  assert (Hep : ew_epoch w = ra_epoch a) by (by rewrite Ew). rewrite <-Hep.
  apply (actions_ack cfg e c He Hne _ w wk' key d r); [|by do 2 right|exact Hwk'|by rewrite Ew|done].
  constructor; [|constructor; [done|by eapply wraps_plain]]. cbn. by rewrite (proj2 (N.eqb_neq _ _) Hne).
Qed.

(** The participant reads the acceptance and its wrap. *)
Lemma participant_keys a m key w app name p1 ms :
  wrap_sent a key m (SendTo c (M_EpochWrap w)) → length key = 32 → chat_key a = Some (ra_epoch a, key) →
  x25519_pubkey m = app_x25519_pubkey app → awaits_decision a app name (pr_client p1).1 →
  to_client_are p1 [M_JoinAccepted {| ja_member_id := member_id m |}; M_EpochWrap w] → to_host_are p1 [] →
  ∃ p3, pair_moves c (PM_ClientReads (env 1) :: PM_ClientReads (env 2) :: ms) p1 = pair_moves c ms p3 ∧ pr_host p3 = pr_host p1 ∧
    to_client_are p3 [] ∧ to_host_are p3 [M_EpochAck {| ea_epoch := ra_epoch a |}] ∧
    has_key a m name (cl_identity (jd_admission (pr_client p1).1)) (pr_client p3).1.
Proof.
  intros Hw Hlen Hck Hxm [Hst (info & Hinfo & I1 & I2 & I3) [Hk _] Hn] Hc1 Hh1. destruct (pr_client p1) as [j rj] eqn:Ej. cbn [fst] in *.
  destruct (acceptance_enters (env 1) j rj (member_id m) info Hst Hinfo) as (j1 & Et1 & Es1 & Hch1 & Hf1).
  rewrite <-Ej in Et1.
  destruct (client_move (env 1) p1 _ _ _ j1 rj [] (PM_ClientReads (env 2) :: ms) Hc1 Hh1 Et1)
    as (p2 & -> & Hph & Hpc & Hc2 & Hh2); [by rewrite Ej, app_nil_r|].
  set (s0 := ChatSession_new _ _ _ _) in Hch1.
  assert (Hat : attached a m (cl_identity (jd_admission j)) s0) by (constructor; cbn; congruence).
  destruct (wrap_installs a key m _ _ s0 Hw Hat Hlen ltac:(done)) as (w' & [= _ <-] & Hset).
  unfold participant_frame in Hf1. injection Hf1 as F1 F2 F3 F4. specialize (Hset rj). rewrite <-F1 in Hset.
  destruct (wrap_is_acknowledged (env 2) j1 rj w s0 _ _ (Hsends 2) Hch1 Hset) as (j2 & Et2 & Es2 & Hch2 & Hf2).
  destruct (client_move (env 2) p2 (M_EpochWrap w) [] [] j2 rj [M_EpochAck {| ea_epoch := ra_epoch a |}] ms Hc2 Hh2)
    as (p3 & -> & Hph3 & Hpc3 & Hc3 & Hh3); [by rewrite Hpc|by rewrite Hpc|].
  exists p3. split; [done|]. split; [by rewrite Hph3|]. split; [done|]. split; [done|]. rewrite Hpc3. constructor.
  - cbn [fst]. rewrite Hf2. unfold participant_frame. by rewrite F1, F2, F3, F4, Hn.
  - eexists. split; [exact Hch2|]. split; [by apply with_epoch_attached|]. rewrite Hck. by split_and!.
Qed.

Lemma admission_keys a m key acts app name p :
  admits a m key acts → x25519_pubkey m = app_x25519_pubkey app → awaits a app name p →
  ∃ d1 r1, handle_host_actions cfg (env 0) acts (pr_host p) = (Done tt, (d1, r1)) ∧
    EV_EpochAck HOST_CONNECTION (ra_epoch a) ∈ hd_sent d1 ∧
    ∃ p2, pair_moves c [PM_ClientReads (env 1); PM_ClientReads (env 2); PM_HostReads (env 3)] (with_host (d1, r1) p) = Some p2 ∧
      hd_sent (pr_host p2).1 = hd_sent d1 ++ [EV_EpochAck c (ra_epoch a)] ∧
      cs_sender_sequence (hd_chat (pr_host p2).1) = cs_sender_sequence (hd_chat (pr_host p).1) ∧
      keyed a m name (cl_identity (jd_admission (pr_client p).1)) p2.
Proof.
  intros Had Hxm [Hwait (x & Hx & Hxs) Hp [Hrh Hrc]].
  destruct (admits_sent _ _ _ _ Had) as (w & Hsent & Hw). destruct (ad_key _ _ _ _ Had) as [Hlen Hck].
  destruct p as [[d r] cl nh nc]. cbn [fst snd pr_host pr_client pr_host_read pr_client_read] in *.
  destruct (host_passes_admission (env 0) a m key acts d r (Hsends 0) Had Hp) as (d1 & r1 & E1 & P1 & Hack).
  exists d1, r1. split; [exact E1|]. split; [exact Hack|]. rewrite Hsent in P1.
  set (p1 := with_host (d1, r1) _).
  assert (Hc1 : to_client_are p1 [M_JoinAccepted {| ja_member_id := member_id m |}; M_EpochWrap w]).
  { unfold to_client_are. cbn. rewrite (ps_delivered _ _ _ _ P1). exact (queued_push _ _ [] _ (all_queued _ _ Hrc)). }
  destruct (participant_keys a m key w app name p1 [PM_HostReads (env 3)] Hw Hlen Hck Hxm Hwait Hc1 (all_queued _ _ Hrh))
    as (p3 & -> & Hph & Hc3 & Hh3 & Hkey).
  destruct (ps_connection _ _ _ _ P1 x Hx) as (x1 & Hx1 & Ex1 & Ax1). rewrite orb_true_r in Ax1.
  destruct (host_reads_ack (env 3) c {| ea_epoch := ra_epoch a |} x1 d1 r1 Hx1 ltac:(by rewrite Ex1) Ax1 (ps_peer _ _ _ _ P1))
    as (d3 & Et3 & P3 & Hev).
  destruct (host_move (env 3) p3 _ _ _ d3 r1 [] Hc3 Hh3) as (p4 & -> & Hph4 & Hpc4 & Hc4 & Hh4).
  { by rewrite Hph. }
  { rewrite Hph, (ps_delivered _ _ _ _ P3). by rewrite app_nil_r. }
  exists p4. split; [done|]. rewrite Hph4. split; [exact Hev|].
  split; [cbn; by rewrite (ps_sequence _ _ _ _ P3), (ps_sequence _ _ _ _ P1)|].
  destruct (ps_connection _ _ _ _ P3 x1 Hx1) as (x3 & Hx3 & _ & Ax3). constructor; rewrite ?Hph4, ?Hpc4; [exact Hkey| | |done].
  - exists x3. split; [done|]. by rewrite Ax3, Ax1.
  - exact (ps_peer _ _ _ _ P3).
Qed.
(** The participant is in the room: its session has the room's table and key,
    and its screen shows the room under its name, with the table's members. *)
Record inside (a : RoomActor) (m : Member) (name : rstring) (j : JoinDriver) : Prop := {
  in_state : cl_state (jd_admission j) = CL_Admitted ∧ cl_member_id (jd_admission j) = Some (member_id m);
  in_session : ∃ s, cl_chat (jd_admission j) = Some s ∧ attached a m (cl_identity (jd_admission j)) s ∧ knows s a ∧
    cs_current_epoch s = chat_key a ∧ unspoken s;
  in_identity : ed25519_pubkey m = member_ed25519_pubkey (cl_identity (jd_admission j));
  in_screen : screen_kind (jd_app j) = SK_Room false name ∧
    rv_members <$> room_view (jd_app j) = Some (member_line ∘ view_of_member <$> table_members (ra_members a));
}.

Lemma broadcast_attached a m im message b s s' r r' :
  signed_part message = Some b → handle_membership_message message (s, r) = (Done tt, (s', r')) → attached a m im s → attached a m im s'.
Proof.
  intros Hb Hrun [H1 H2 H3 H4 H5]. destruct (handle_decided message b s r Hb) as [(_ & _ & E)|(_ & e & E)]; rewrite Hrun in E; [|done].
  injection E as -> _. constructor; [by destruct message..|done].
Qed.

Lemma broadcast_unspoken message b s s' r r' :
  signed_part message = Some b → handle_membership_message message (s, r) = (Done tt, (s', r')) → unspoken s → unspoken s'.
Proof.
  intros Hb Hrun [H1 H2]. destruct (handle_decided message b s r Hb) as [(_ & _ & E)|(_ & e & E)]; rewrite Hrun in E; [|done].
  injection E as -> _. by destruct message.
Qed.

Lemma released_to a q m :
  m ∈ table_members (ra_members a) → connection m = c → NoDup (connection <$> table_members (ra_members a)) →
  ra_pending_membership a = announcements a q m → sent_to c (released a) = [M_MemberSnapshot (snapshot_message a (q + 1))].
Proof.
  intros Hm Hc Hnd Hpm. unfold released. rewrite sent_to_app, Hpm, <-Hc, announcements_to by done. by destruct (ra_room_timeout a).
Qed.

Lemma release_shows a m name im q p :
  keyed a m name im p → ed25519_pubkey m = member_ed25519_pubkey im → table_ok (ra_members a) → host_row (ra_members a) HOST_CONNECTION → table_shown (ra_members a) →
  m ∈ table_members (ra_members a) → connection m = c → c ≠ HOST_CONNECTION →
  ra_pending_membership a = announcements a q m → is_Some (succ_u64 (cs_sender_sequence (hd_chat (pr_host p).1))) →
  ∃ d3 r3, handle_host_actions cfg (env 4) (released a) (pr_host p) = (Done tt, (d3, r3)) ∧
    ∃ p4, pair_moves c [PM_ClientReads (env 5)] (with_host (d3, r3) p) = Some p4 ∧ inside a m name (pr_client p4).1 ∧
      (∃ x, hd_connections (pr_host p4).1 !! c = Some x ∧ hx_admitted x = true) ∧ to_client_are p4 [] ∧ to_host_are p4 [].
Proof.
  intros [[Hf (s & Hch & Hat & Hek & Hce & Hls & Hun)] (x & Hx & Hxa) Hp [Hqc Hqh]] Hed Htab Hhost Hshown Hm Hc Hne Hpm Hseq.
  destruct p as [[d r] [j rj] nh nc]. cbn [fst snd pr_host pr_client pr_host_read pr_client_read] in *.
  assert (Hpl : Forall (λ act, plain act = true) (ra_pending_membership a)) by (rewrite Hpm; apply announcements_plain).
  destruct (released_passes cfg (env 4) c (Hsends 4) Hne a d r Hpl Hseq Hp) as (d3 & r3 & E3 & P3).
  exists d3, r3. split; [exact E3|]. rewrite (released_to a q m Hm Hc (tok_conns _ Htab) Hpm) in P3. set (p3 := with_host (d3, r3) _).
  assert (Hc3 : to_client_are p3 [M_MemberSnapshot (snapshot_message a (q + 1))]).
  { unfold to_client_are. change (hd_delivered (pr_host p3).1) with (hd_delivered (hd_put_chat (hd_chat d) d3)).
    rewrite (ps_delivered _ _ _ _ P3). exact (queued_push _ _ [] _ Hqc). }
  destruct (snapshot_installs a HOST_CONNECTION m im s (q + 1) rj Htab Hhost Hshown Hm Hat) as (s' & Hrun & Hkn & Hep).
  { rewrite Hce. by intros cur [= <-]. }
  { rewrite Hls. done. }
  unfold participant_frame in Hf. injection Hf as F1 F2 F3 F4.
  assert (Hv : is_Some (room_view (jd_app j))).
  { revert F4. unfold screen_kind, room_view. destruct (app_screen (jd_app j)); try done; by eexists. }
  destruct (signed_part (M_MemberSnapshot (snapshot_message a (q + 1)))) as [b|] eqn:Hb; [|done].
  destruct (broadcast_is_shown (env 5) j rj _ b s s' Hb Hch Hv Hrun) as (j' & Et & Es & Hch' & Hf' & Hmem).
  destruct (client_move (env 5) p3 _ [] [] j' rj [] [] Hc3 Hqh Et) as (p4 & -> & Hph & Hpc & Hc4 & Hh4); [cbn; by rewrite app_nil_r|].
  exists p4. split; [done|]. rewrite Hpc, Hph. cbn [fst]. unfold participant_frame in Hf'. injection Hf' as G1 G2 G3 G4.
  split; [constructor|].
  - by rewrite G2, G3.
  - exists s'. split; [done|]. split; [rewrite G1, F1; by eapply broadcast_attached|].
    split; [done|]. split; [congruence|by eapply broadcast_unspoken].
  - by rewrite G1, F1.
  - rewrite Hmem, Hkn, <-list_fmap_compose. split; [congruence|done].
  - destruct (ps_connection _ _ _ _ P3 x Hx) as (x3 & Hx3 & _ & Ax3). split; [|done]. exists x3. split; [exact Hx3|]. by rewrite Ax3, Hxa.
Qed.
End entering.

(** * The theorem *)

Section theorem.
Context `{PR : !Primitives} `{PL : !PrimitiveLaws} `{HA : !Hashes} `{NF : !Nfc} `{UP : !UriPrimitives} `{ET : !ErrorTexts}.

Lemma host_row_key limits hid mid a r :
  reachable limits hid mid (event_ok hid) (a, r) → room_ok a →
  ∃ m0, m0 ∈ table_members (ra_members a) ∧ connection m0 = ra_host_connection a ∧ member_id m0 = 0%N ∧
    x25519_pubkey m0 = member_x25519_pubkey mid.
Proof.
  intros Hr Hok. destruct (sok_host _ _ _ _ _ _ Hok) as (m0 & ms & Ht & H0 & Hc & Hh & _). exists m0.
  assert (Hin : m0 ∈ table_members (ra_members a)) by (rewrite Ht; by left). split_and!; [done..|].
  eapply (reachable_mono _ _ _ _ (λ ev, ∀ a, event_vetted (λ _, True) (λ _, True) a ev)) in Hr; [|intros ev _ a'; by destruct ev].
  eapply reachable_vetted in Hr as [Hm _]; [|reflexivity]. rewrite list.Forall_forall in Hm. specialize (Hm m0 Hin).
  unfold member_vetted in Hm. by rewrite Hh in Hm.
Qed.

(** The room's part of a newcomer that has said nothing yet. *)
Record newcomer (a : RoomActor) (m : Member) (app : JoinApplication) : Prop := {
  nc_keys : x25519_pubkey m = app_x25519_pubkey app ∧ ed25519_pubkey m = app_ed25519_pubkey app;
  nc_table : by_id (ra_members a) (member_id m) = Some m;
  nc_connection : conn_member_id (ra_connections a) (connection m) = Some (member_id m);
  nc_window : ∀ id, last_accepted (ra_chat_replay a) id (ra_epoch a) = None;
}.

(** Its session is in step with the room. *)
Lemma inside_in_step a m name app key j :
  inside a m name j → newcomer a m app → chat_key a = Some (ra_epoch a, key) →
  ∃ s, cl_chat (jd_admission j) = Some s ∧ in_step a m (cl_identity (jd_admission j)) s.
Proof.
  intros [_ (s & Hc & [H1 _ _ H4 _] & _ & He & Hu) Hi _] [_ Ht Hcon Hw] Hk. exists s. split; [done|].
  destruct Hu as [_ Hq]. constructor; try done.
  - exists key. by rewrite He.
  - intros last. by rewrite Hw.
  - rewrite Hq. done.
Qed.

(** The actions of an acceptance that admits [m]. *)
Lemma accepted_admits limits hid mid cfg a r q m ms acts s' :
  primitives_total → contributory hid (member_x25519_pubkey mid) →
  reachable limits hid mid (event_ok hid) (a, r) → resting a → ra_host_connection a = HOST_CONNECTION →
  hg_host_identity cfg = hid → hg_client_identity cfg = mid → hg_session_id cfg = ra_session_id a →
  q ∈ pending (ra_requests a) →
  add (ra_members a) (request_connection q) (app_nickname (application q)) (app_ed25519_pubkey (application q))
    (app_x25519_pubkey (application q)) (ra_epoch a + 1) = Some (Ok (m, ms)) →
  on_accept (request_id q) (a, r) = (Done acts, s') →
  J hid s'.1 ∧ ra_members s'.1 = ms ∧ ra_epoch s'.1 = (ra_epoch a + 1)%N ∧ ra_session_id s'.1 = ra_session_id a ∧
  ra_host_identity s'.1 = ra_host_identity a ∧ ra_state s'.1 = RS_EpochTransition ∧
  host_row (ra_members s'.1) HOST_CONNECTION ∧ newcomer s'.1 m (application q) ∧
  ra_pending_membership s'.1 = announcements s'.1 (ra_room_sequence a + 2) m ∧
  ∃ key, admits cfg (request_connection q) s'.1 m key acts.
Proof.
  intros Ht Hx Hr Hrest Hhc Hc1 Hc2 Hc3 Hq Hadd Hrun. pose proof (reachable_J hid Ht _ _ _ Hx Hr) as HJ.
  pose proof HJ as (Hok & (Hid & _ & _) & Hwin & _). cbn [fst] in *.
  destruct (accept_run _ _ _ _ _ _ _ _ Ht Hx Hr Hrest Hq Hrun ltac:(done)) as (acts' & [= <-] & _ & Hdec). rewrite Hadd in Hdec.
  assert (HJ' : J hid s'.1).
  { pose proof (on_accept_J hid Ht (request_id q) (a, r) HJ) as Hp. unfold wp in Hp. rewrite Hrun in Hp. by apply Hp. }
  destruct Hdec as (Hms & Hcon & Hst & Hep & Hsid & Hhid & (key & wraps & Hacts & Hkey & Hpe & Hw) & Hann & Hrep).
  pose proof (sok_table _ _ _ _ _ _ Hok) as Htab. pose proof (sok_host _ _ _ _ _ _ Hok) as Hhost. rewrite Hhc in Hhost.
  pose proof (add_host_row _ _ _ _ _ _ _ _ _ Htab Hhost Hadd) as (Hhost' & Hin & Hne).
  pose proof (add_preserves_ok _ _ _ _ _ _ _ _ Htab Hadd) as Htab'.
  destruct (host_row_key _ _ _ _ _ Hr Hok) as (m0 & Hm0 & Hmc0 & Hmi0 & Hmx0).
  apply add_Ok in Hadd as (_ & _ & _ & _ & _ & Hm & Ht' & _).
  split_and!; try done; [by rewrite Hms| |].
  { constructor; [by rewrite Hm|rewrite Hms; by apply by_id_elem|by replace (connection m) with (request_connection q) by (by rewrite Hm)|]. intros id. rewrite Hrep, retain_epoch_lookup.
    rewrite bool_decide_eq_true_2 by done. destruct (last_accepted (ra_chat_replay a) id (ra_epoch s'.1)) as [last|] eqn:El; [|done].
    assert (ra_epoch s'.1 = ra_epoch a) by (eapply Hwin; by eexists). lia. }
  exists key. constructor.
  - by exists wraps.
  - split; [done|]. unfold chat_key. destruct (ra_pending_epoch s'.1) as [t|]; [|done]. by injection Hpe as -> ->.
  - rewrite Hms. by apply tok_conns.
  - rewrite Hms. split; [done|]. by rewrite Hm.
  - exists m0. rewrite Hms, Ht'. cbn. split_and!; [apply elem_of_app; by left|congruence|done|congruence].
  - split; congruence.
  - done.
Qed.

Lemma inside_activated a t m name j :
  ra_pending_epoch a = Some t → pe_epoch t = ra_epoch a → inside a m name j → inside (activated t a) m name j.
Proof.
  intros Ht He [H1 (s & H2 & H3 & H4 & H5 & H6) H7 H8]. constructor; [done| |done..]. exists s. split; [done|].
  split; [by destruct H3|]. split; [done|]. split; [|done]. rewrite H5. unfold chat_key. cbn. by rewrite Ht, He.
Qed.

(** C17.  An accepted participant enters the room, through the supervisors of both
    sides, where no other transition begins before this one ends: between the acceptance
    and the release the room is given acknowledgements only. It is also supposed that
    the random source and the cipher do not fail, that the room was reached with keys
    the host can wrap for, that its new table is one a client accepts, that the
    connection's queues take what they are given and that the host has sequence numbers
    left. Then the host's supervisor passes the room's actions to the connection and
    acknowledges its own wrap; the participant reads the acceptance and the wrap, and
    its acknowledgement reaches the room; when every member has acknowledged, in
    whatever order, the room takes up the new key and releases the announcements, which
    the host's supervisor passes on; and with the one the participant reads it is in the
    room: the session has the room's member table and key, and the screen shows the room
    under the name it applied with, with the members of the table, and its session is in
    step with the room, as the theorem on chat asks of a member that types. *)
Theorem accepted_participant_enters cfg env limits hid mid a r q m ms acts s' name p :
  primitives_total → contributory hid (member_x25519_pubkey mid) → (∀ i, sends_all (env i)) →
  reachable limits hid mid (event_ok hid) (a, r) → resting a → ra_host_connection a = HOST_CONNECTION →
  hg_host_identity cfg = hid → hg_client_identity cfg = mid → hg_session_id cfg = ra_session_id a →
  q ∈ pending (ra_requests a) →
  add (ra_members a) (request_connection q) (app_nickname (application q)) (app_ed25519_pubkey (application q))
    (app_x25519_pubkey (application q)) (ra_epoch a + 1) = Some (Ok (m, ms)) →
  table_shown ms → on_accept (request_id q) (a, r) = (Done acts, s') →
  awaits (request_connection q) a (application q) name p →
  is_Some (succ_u64 (cs_sender_sequence (hd_chat (pr_host p).1))) →
  let c := request_connection q in
  ∃ d1 r1 p2 t d3 r3 p4,
    handle_host_actions cfg (env 0) acts (pr_host p) = (Done tt, (d1, r1)) ∧
    EV_EpochAck HOST_CONNECTION (ra_epoch a + 1) ∈ hd_sent d1 ∧
    pair_moves c [PM_ClientReads (env 1); PM_ClientReads (env 2); PM_HostReads (env 3)] (with_host (d1, r1) p) = Some p2 ∧
    hd_sent (pr_host p2).1 = hd_sent d1 ++ [EV_EpochAck c (ra_epoch a + 1)] ∧
    ra_pending_epoch s'.1 = Some t ∧
    (∀ ks, Forall (λ k, k ∈ table_members ms) ks → pe_awaiting t ≡ₚ member_id <$> ks →
       handle_acks (connection <$> ks) (ra_epoch a + 1) s' = (Done (released s'.1), (activated t s'.1, s'.2))) ∧
    handle_host_actions cfg (env 4) (released s'.1) (pr_host p2) = (Done tt, (d3, r3)) ∧
    pair_moves c [PM_ClientReads (env 5)] (with_host (d3, r3) p2) = Some p4 ∧
    inside (activated t s'.1) m name (pr_client p4).1 ∧
    (∃ s, cl_chat (jd_admission (pr_client p4).1) = Some s ∧
       in_step (activated t s'.1) m (cl_identity (jd_admission (pr_client p4).1)) s) ∧
    (∃ x, hd_connections (pr_host p4).1 !! c = Some x ∧ hx_admitted x = true).
Proof.
  intros Ht Hx He Hr Hrest Hhc Hc1 Hc2 Hc3 Hq Hadd Hshown Hrun Haw Hseq c.
  destruct (accepted_admits limits hid mid cfg a r q m ms acts s' Ht Hx Hr Hrest Hhc Hc1 Hc2 Hc3 Hq Hadd Hrun)
    as ((Hok & _ & _ & Hst) & Hms & Hep & Hsid & Hhid & Htr & Hrow & Hnew & Hann & key & Had).
  pose proof (nc_keys _ _ _ Hnew) as [Hxm Hedm].
  assert (Haw' : awaits c s'.1 (application q) name p) by (destruct Haw as [[]]; constructor; [constructor; rewrite ?Hsid, ?Hhid|..]; done).
  destruct (admission_keys cfg c env He s'.1 m key acts (application q) name p Had Hxm Haw')
    as (d1 & r1 & E1 & Hack & p2 & E2 & Hack2 & Hs2 & Hk).
  pose proof (ad_key _ _ _ _ _ _ Had) as [_ Hck]. destruct Had as [_ _ _ [Hm Hmc] _ _ Hne].
  assert (Hed : ed25519_pubkey m = member_ed25519_pubkey (cl_identity (jd_admission (pr_client p).1)))
    by (rewrite Hedm; by destruct Haw as [[? ? [? ?] ?]]).
  destruct (release_shows cfg c env He s'.1 m name _ _ p2 Hk Hed (sok_table _ _ _ _ _ _ Hok) Hrow ltac:(by rewrite Hms) Hm Hmc Hne Hann
    ltac:(by rewrite Hs2)) as (d3 & r3 & E3 & p4 & E4 & Hin & Hadm & _).
  unfold state_ok in Hst. rewrite Htr in Hst. destruct Hst as (t & Hpt & Hpe & Hawait & Hnd & _).
  rewrite Hep in *. exists d1, r1, p2, t, d3, r3, p4. split_and!; try done.
  - intros ks Hks Hperm. rewrite <-Hpe. destruct s' as [a' r']. apply acks_run; [done..| |by rewrite Hms|done].
    intros ->. apply Hawait. by apply Permutation_nil_r in Hperm.
  - by apply inside_activated; [|rewrite Hep|].
  - eapply inside_in_step; [by apply inside_activated; [exact Hpt|rewrite Hep|]| |].
    + destruct Hnew as [N1 N2 N3 N4]. by constructor.
    + unfold chat_key in *. cbn. rewrite Hpt in Hck. by injection Hck as _ ->.
Qed.
End theorem.
