(* ===== verification/Chatting.v ===== *)
(** What a member types, on the others' screens: the line through the
    participant's supervisor, the connection, the host's supervisor, the
    room's task, and back out to every other member. *)
From Stdlib Require Import Strings.String.
From S2P Require Export Entering.

Definition enter_key : KeyEvent := {| ke_code := KC_Enter; ke_modifiers := KM_None |}.

(** The members a message that came on [c] is relayed to. *)
Definition others (c : ConnectionId) (ms : list Member) : list Member := filter (λ m, connection m ≠ c) ms.

Lemma relay_others c message ms : relay c message ms = (λ m, SendTo (connection m) message) <$> others c ms.
Proof.
  induction ms as [|m ms IH]; [done|]. unfold others. rewrite filter_cons. csimpl.
  destruct (N.eqb_spec (connection m) c) as [E|E].
  - rewrite decide_False by auto. exact IH.
  - rewrite decide_True by done. csimpl. by f_equal.
Qed.

(** A participant's screen shows a chat line of [text] under the name and the
    color its session has for the sender. *)
Definition shows_chat (env : Env) (label : rstring * ColorChoice) (text : rstring) (a : App) : App :=
  with_room_view (push_chat label.1 label.2 text (env_now env)) a.

Section participant.
Context `{PR : !Primitives} `{PL : !PrimitiveLaws} `{HA : !Hashes} `{NF : !Nfc} `{ET : !ErrorTexts}.

(** The line a participant has typed. *)
Record typed (v : RoomView) (text : rstring) : Prop := {
  ty_member : rv_is_host v = false;
  ty_line : tf_text (rv_input v) ≠ [];
  ty_chat : parse_line (tf_text (rv_input v)) = Ok (PL_Chat text);
}.

(** What Enter leaves on the screen: the line gone, and shown as the
    participant's own. *)
Definition own_line (env : Env) (text : rstring) (v : RoomView) : RoomView :=
  push_own text (env_now env) (submit_line v).2.

Lemma enter_chats env v text : typed v text → room_enter (env_now env) v = (AA_Room (RUA_Chat text), (submit_line v).2).
Proof.
  intros [H1 H2 H3]. unfold room_enter. replace (negb (non_empty (tf_text (rv_input v)))) with false
    by (by destruct (tf_text (rv_input v))).
  rewrite H3. replace (rv_is_host (submit_line v).2) with (rv_is_host v) by
    (unfold submit_line; by destruct (tf_submit _) as [[|] ?]).
  by rewrite H1.
Qed.

Lemma typed_is_sent env v text j r s s1 r1 envelope :
  sends_all env → app_screen (jd_app j) = SCR_Room v → typed v text → cl_chat (jd_admission j) = Some s →
  send_chat (cl_identity (jd_admission j)) text (s, r) = (Done (M_ChatMessage envelope), (s1, r1)) →
  ∃ j', join_turn env false (JE_Key enter_key) (j, r) = (Done tt, (j', r1)) ∧
    jd_sent j' = jd_sent j ++ [M_ChatMessage envelope] ∧
    jd_admission j' = cl_put_chat (Some s1) (jd_admission j) ∧
    app_screen (jd_app j') = SCR_Room (own_line env text v).
Proof.
  intros He Hv Ht Hc Hs. unfold join_turn, join_event, join_key.
  change (is_quit_key enter_key) with false. cbv iota. unfold mbind at 1, M_bind at 1, self at 1. cbn [fst snd].
  assert (Hk : on_key enter_key (env_now env) (jd_app j) = Some (AA_Room (RUA_Chat text),
    {| app_screen := SCR_Room (submit_line v).2; app_quit := app_quit (jd_app j) || false |})).
  { unfold on_key. rewrite Hv. cbn [screen_key]. unfold on_room_key. cbn [ke_code enter_key]. by rewrite (enter_chats env v text Ht). }
  rewrite Hk. cbn [expect]. unfold mbind at 1, M_bind at 1, mret at 1, M_ret at 1. unfold mbind at 1, M_bind at 1, modify at 1.
  cbn [fst snd]. unfold send_session. unfold mbind at 1, M_bind at 1, with_client, zoom. cbn [fst snd].
  assert (Hrun : client_send_chat text (jd_admission j, r) =
    (Done (M_ChatMessage envelope), (cl_put_chat (Some s1) (jd_admission j), r1))).
  { unfold client_send_chat, mbind, M_bind, self, on_chat. cbn [fst snd]. by rewrite Hc, Hs. }
  change (jd_admission (jd_put_app _ j)) with (jd_admission j). rewrite Hrun.
  unfold mbind at 1, M_bind at 1. rewrite (sent_run _ _ _ _ He). eexists. split; [reflexivity|]. done.
Qed.

(** A chat message is shown under the name the session has for its sender. *)
Lemma chat_is_shown env envelope j r s s' text :
  cl_chat (jd_admission j) = Some s → receive_chat envelope (s, r) = (Done text, (s', r)) →
  ∃ j', join_turn env false (JE_Inbound (Some (Some (M_ChatMessage envelope)))) (j, r) = (Done tt, (j', r)) ∧
    jd_sent j' = jd_sent j ∧ jd_admission j' = cl_put_chat (Some s') (jd_admission j) ∧
    jd_app j' = shows_chat env (sender_label s' (env_sender_id envelope)) text (jd_app j).
Proof.
  intros Hc Hr. apply inbound_turn. intros j1 Ha _ _ Happ Hse. cbn [handle_join_message].
  unfold mbind at 1, M_bind at 1, with_client, zoom. cbn [fst snd].
  assert (Hrun : on_member_message MSG_CHAT envelope (jd_admission j1, r) =
    (Done (Some text), (cl_put_chat (Some s') (jd_admission j), r))).
  { unfold on_member_message, on_chat. cbn [fst snd]. rewrite Ha, Hc. change (MSG_CHAT =? 0x40)%N with true. cbv iota.
    unfold mbind, M_bind. by rewrite Hr. }
  rewrite Hrun. unfold mbind at 1, M_bind at 1, self at 1. cbn [fst snd jd_admission jd_put_admission].
  unfold join_label. cbn [cl_chat cl_put_chat]. destruct (sender_label s' _) as [nickname color].
  eexists. split; [reflexivity|]. split; [intros x y|]; unfold shows_chat; cbn; by rewrite Hse, Happ.
Qed.
End participant.

(** * The host *)

Section host.
Context `{PR : !Primitives} `{PL : !PrimitiveLaws} `{HA : !Hashes} `{NF : !Nfc} `{UP : !UriPrimitives} `{ET : !ErrorTexts}.
Context (cfg : HostConfig) (env : Env) (Hsends : sends_all env).

(** A chat message of a member goes to the room, and nowhere else. *)
Lemma chat_goes_to_room c envelope x d r :
  hd_connections d !! c = Some x → ha_state (hx_admission x) = HS_Decided → hx_admitted x = true →
  ∃ d', host_inbound env c (Some (M_ChatMessage envelope)) (d, r) = (Done tt, (d', r)) ∧
    hd_sent d' = hd_sent d ++ [EV_ChatReceived c MSG_CHAT envelope] ∧
    (hd_delivered d', hd_network d', hd_chat d', hd_app d', hd_policy d') =
      (hd_delivered d, hd_network d, hd_chat d, hd_app d, hd_policy d) ∧
    ∃ x', hd_connections d' !! c = Some x' ∧ hx_admission x' = hx_admission x ∧ hx_admitted x' = true.
Proof.
  intros Hx Hs Ha. unfold host_inbound. unfold mbind at 1, M_bind at 1, modify at 1. cbn [fst snd].
  set (f := λ x, hx_put_times (hx_stage_since x) (ck_instant (env_now env)) (hx_admitted x) x).
  set (d1 := hd_put_connections (alter f c (hd_connections d)) d).
  assert (Hx1 : hd_connections d1 !! c = Some (f x)) by (cbn; by rewrite lookup_alter_eq, Hx).
  unfold mbind at 1, M_bind at 1, self at 1. cbn [fst snd]. unfold mbind at 1, M_bind at 1, zoom. cbn [fst snd].
  unfold handle_host_message. unfold mbind at 1, M_bind at 1, self at 1. cbn [fst snd]. change (id d1) with d1. rewrite Hx1.
  cbn [ok_or]. unfold mbind at 1, M_bind at 1, mret at 1, M_ret at 1.
  replace (negb (hx_admitted (f x))) with false by (cbn; by rewrite Ha). rewrite andb_false_r.
  replace (ConnectionState_accepts (connection_state (f x)) (MessageType_class (Message_type (M_ChatMessage envelope)))) with true
    by (unfold connection_state; cbn; by rewrite Hs, Ha).
  cbn [negb dispatch_message]. unfold mbind, M_bind, room_send, modify, self, mret, M_ret. cbn [fst snd].
  eexists. split; [reflexivity|]. split; [done|]. split; [done|]. cbn.
  rewrite !lookup_alter_eq, Hx. eexists. split; [reflexivity|]. case_bool_decide; done.
Qed.

(** The host's own member reads it on its screen. *)
Lemma host_reads_chat envelope d r s' text :
  receive_chat envelope (hd_chat d, r) = (Done text, (s', r)) →
  handle_host_action cfg env (SendTo HOST_CONNECTION (M_ChatMessage envelope)) (d, r) =
    (Done tt, (hd_put_app (shows_chat env (sender_label s' (env_sender_id envelope)) text (hd_app d)) (hd_put_chat s' d), r)).
Proof.
  intros Hr. cbn [handle_host_action]. rewrite N.eqb_refl. cbn [host_message].
  unfold mbind at 1, M_bind at 1, with_chat, zoom. cbn [fst snd]. rewrite Hr.
  unfold mbind at 1, M_bind at 1, self at 1. cbn [fst snd hd_chat hd_put_chat]. unfold shows_chat.
  destruct (sender_label s' _) as [nickname color]. done.
Qed.

Lemma actions_cons act acts s s1 :
  handle_host_action cfg env act s = (Done tt, s1) →
  handle_host_actions cfg env (act :: acts) s = handle_host_actions cfg env acts s1.
Proof. intros H. cbn [handle_host_actions]. unfold mbind, M_bind. by rewrite H. Qed.

(** The others' connections are each sent it, in the order of the table. *)
Definition has_peers (ms : list Member) (d : HostDriver) : Prop :=
  Forall (λ m, connection m ≠ HOST_CONNECTION ∧ is_Some (hn_peers (hd_network d) !! connection m)) ms.

Lemma relay_is_delivered message ms d r :
  is_join_accepted message = false → has_peers ms d →
  ∃ d', handle_host_actions cfg env ((λ m, SendTo (connection m) message) <$> ms) (d, r) = (Done tt, (d', r)) ∧
    hd_delivered d' = hd_delivered d ++ ((λ m, (connection m, message)) <$> ms) ∧
    (hd_sent d', hd_network d', hd_chat d', hd_app d', hd_policy d', hd_connections d') =
      (hd_sent d, hd_network d, hd_chat d, hd_app d, hd_policy d, hd_connections d).
Proof.
  intros Hm. revert d. induction ms as [|m ms IH]; intros d Hp.
  { exists d. split; [done|]. split; [by rewrite app_nil_r|done]. }
  apply list.Forall_cons in Hp as [[Hne Hpm] Hp]. csimpl. cbn [handle_host_actions handle_host_action].
  rewrite (proj2 (N.eqb_neq _ _) Hne). unfold mbind at 1, M_bind at 1. unfold client_message at 1.
  unfold mbind at 1, M_bind at 1. rewrite (net_send_sent _ env message d r Hsends Hpm), Hm. unfold mret at 1, M_ret at 1.
  edestruct IH as (d' & -> & Hd & Hrest); [exact Hp|]. exists d'. split; [done|]. split; [|exact Hrest].
  rewrite Hd. cbn. by rewrite <-app_assoc.
Qed.
End host.

(** * The room's task *)

Section room.
Context `{PR : !Primitives} `{PL : !PrimitiveLaws} `{NF : !Nfc} `{ET : !ErrorTexts}.

Lemma in_step_now a m identity s now : in_step a m identity s → in_step (put_now now a) m identity s.
Proof. by intros []. Qed.

Lemma task_relays c envelope a r now now' a' acts :
  resting a → acts ≠ [] → on_chat_received c MSG_CHAT envelope (put_now now a, r) = (Done acts, (a', r)) →
  task_event (EV_ChatReceived c MSG_CHAT envelope) now now' (a, r) = (Some acts, (a', r)).
Proof.
  intros Hrest _ Hrun. unfold task_event.
  assert (Hh : handle_event_at (EV_ChatReceived c MSG_CHAT envelope) now (a, r) = (Done acts, (a', r))).
  { unfold handle_event_at. unfold mbind at 1, M_bind at 1, modify at 1. cbn [fst snd].
    unfold mbind at 1, M_bind at 1, self at 1. cbn [fst snd]. cbn [put_now ra_state].
    destruct Hrest as [->| ->]; exact Hrun. }
  by rewrite Hh.
Qed.

Lemma send_chat_sender identity text s r envelope s' :
  send_chat identity text (s, r) = (Done (M_ChatMessage envelope), s') → env_sender_id envelope = cs_member_id s.
Proof.
  unfold send_chat, mbind, M_bind. destruct (try_ _ _ _) as [[[]|e|] s0] eqn:E; [|done..].
  assert (s0 = (s, r)) as ->. { revert E. destruct (validate_chat_text text Limits_default); by intros [=]. }
  destruct (seal identity MSG_CHAT (utf8 text) (s, r)) as [[env|e|] s1] eqn:Es; [|done..]. intros [= -> _].
  by apply seal_run in Es as (_ & _ & _ & H & _).
Qed.

Lemma others_host c ms h rest :
  ms = h :: rest → connection h ≠ c → others c ms = h :: others c rest.
Proof. intros -> Hne. unfold others. by rewrite filter_cons, decide_True. Qed.
End room.

(** * Who follows whom *)

Section insiders.
Context `{PR : !Primitives} `{PL : !PrimitiveLaws} `{NF : !Nfc}.

(** A session that mirrors the room follows each member it has not heard in
    the epoch. *)
Lemma mirror_follows a m s s' :
  table_ok (ra_members a) → m ∈ table_members (ra_members a) → knows s' a →
  cs_room_session_id s' = cs_room_session_id s → cs_current_epoch s' = cs_current_epoch s →
  (∀ epoch, last_accepted (cs_replay s') (member_id m) epoch = None) → follows s s' m.
Proof.
  intros Htab Hm Hk Hr He Hw. constructor; [done|done| |by intros epoch last _; rewrite Hw].
  exists (view_of_member m). split; [|done]. unfold session_member. rewrite Hk.
  change (member_id m) with (mv_member_id (view_of_member m)).
  apply (find_first_key_unique mv_member_id); [|by apply list_elem_of_fmap_2].
  rewrite <-list_fmap_compose. exact (tok_ids _ Htab).
Qed.

(** Two participants that have entered follow each other. *)
Lemma insiders_follow a m name j m' name' j' s s' :
  table_ok (ra_members a) → m ∈ table_members (ra_members a) →
  inside a m name j → inside a m' name' j' →
  cl_chat (jd_admission j) = Some s → cl_chat (jd_admission j') = Some s' → follows s s' m.
Proof.
  intros Htab Hm [_ (s0 & Hs & A1 & _ & E1 & _) _ _] [_ (s0' & Hs' & A2 & K2 & E2 & R2 & _) _ _].
  rewrite Hs, Hs'. intros [= ->] [= ->]. apply (mirror_follows a); try done.
  - by rewrite (at_room _ _ _ _ A1), (at_room _ _ _ _ A2).
  - congruence.
  - intros epoch. by rewrite R2.
Qed.
End insiders.

(** * The theorem *)

Section theorem.
Context `{PR : !Primitives} `{PL : !PrimitiveLaws} `{CB : !Cbor} `{CL : !CborLaws} `{HA : !Hashes} `{NF : !Nfc} `{UP : !UriPrimitives} `{ET : !ErrorTexts}.
Context (cfg : HostConfig).

(** The member [m] of the room [a] is about to send the line it has typed in
    its session [s]. *)
Record about_to_send (a : RoomActor) (m : Member) (s : ChatSession) (v : RoomView) (text : rstring) (j : JoinDriver) : Prop := {
  sk_session : cl_chat (jd_admission j) = Some s;
  sk_step : in_step a m (cl_identity (jd_admission j)) s;
  sk_screen : app_screen (jd_app j) = SCR_Room v;
  sk_typed : typed v text;
  sk_text : chat_text_ok text;
  sk_room : resting a;
  sk_other : connection m ≠ HOST_CONNECTION;
}.

End theorem.
