(* ===== verification/Toy.v ===== *)
(** Concrete primitives and a concrete room: the instances the witnesses of
    the conditional theorems evaluate.

    [toy] is no cryptography: it is the simplest functions that satisfy
    [PrimitiveLaws], so that every hypothesis on the primitives is seen to
    hold of something. *)
From Stdlib Require Import Strings.String Strings.Byte.
From S2P Require Export RoomLiveness RoomRelay RoomGates.

Definition zeros (n : nat) : list byte := replicate n x00.

Definition pad (n : nat) (bs : list byte) : list byte := take n (bs ++ zeros n).

Definition add_bytes (a b : list byte) : list byte :=
  zip_with (λ x y, byte_of (byte_val x + byte_val y)) a b.

Definition toy : Primitives := {|
  getrandom i n := Some (replicate n (byte_of (N.of_nat i)));
  ed_public := λ sk, sk;
  ed_sign sk m := pad 64 sk;
  ed_verify pk m s := bool_decide (s = pad 64 pk);
  x_public := λ sk, sk;
  x_diffie_hellman := add_bytes;
  x_was_contributory s := existsb (λ b, negb (byte_val b =? 0)%N) s;
  hkdf_sha256 salt ikm info n := pad n (ikm ++ info);
  aead_encrypt k n a m := Some (m ++ pad 16 k);
  aead_decrypt k n a c :=
    if bool_decide (drop (length c - 16) c = pad 16 k) then Some (take (length c - 16) c) else None;
|}.

#[export] Instance toy_primitives : Primitives := toy.

#[export] Instance toy_nfc : Nfc := λ s, s.

Lemma length_pad n bs : length (pad n bs) = n.
Proof. unfold pad, zeros. rewrite length_take, length_app, length_replicate. lia. Qed.

Lemma toy_laws : PrimitiveLaws.
Proof.
  constructor; simpl.
  - intros i n bs [= <-]. apply length_replicate.
  - intros. apply length_pad.
  - intros. by apply bool_decide_eq_true_2.
  - intros a b. unfold add_bytes. rewrite <-zip_with_flip.
    apply zip_with_ext; [|done|done]. intros. unfold flip. by rewrite N.add_comm.
  - intros. apply length_pad.
  - intros k n a m c [= <-]. by rewrite length_app, length_pad.
  - intros k n a m c [= <-]. rewrite length_app, length_pad, Nat.add_sub.
    rewrite drop_app_length, bool_decide_eq_true_2 by done. by rewrite take_app_length.
Qed.

#[export] Existing Instance toy_laws.

Lemma toy_total : primitives_total.
Proof. split; intros; by eexists. Qed.

(** * A room *)

Definition key_of (n : N) : list byte := replicate 32 (byte_of n).

Definition host_id : HostIdentity := {| host_ed25519 := key_of 1; host_x25519 := key_of 2 |}.
Definition host_member : MemberIdentity := {| member_ed25519 := key_of 3; member_x25519 := key_of 4 |}.
Definition alice : MemberIdentity := {| member_ed25519 := key_of 5; member_x25519 := key_of 6 |}.
Definition bob : MemberIdentity := {| member_ed25519 := key_of 7; member_x25519 := key_of 8 |}.

(** Runs events at their times; [None] on a panic or where the room cannot
    be created. *)
Fixpoint run_events (evs : list (RoomEvent * Duration)) (s : St) : option St :=
  match evs with
  | [] => Some s
  | (ev, now) :: evs =>
      match handle_event_at ev now s with
      | (Panic, _) => None
      | (_, s') => run_events evs s'
      end
  end.

Definition new_room (limits : Limits) (mid : MemberIdentity) : option St :=
  match create limits HOST_CONNECTION (lit "host") host_id mid Timeouts_default 0 with
  | (Ok a, r) => match start (a, r) with (Done _, s) => Some s | _ => None end
  | _ => None
  end.

Definition demo (limits : Limits) (evs : list (RoomEvent * Duration)) : option St :=
  s ← new_room limits host_member; run_events evs s.

Lemma new_room_reachable limits mid Ev s :
  new_room limits mid = Some s → reachable limits host_id mid Ev s.
Proof.
  unfold new_room. destruct (create _ _ _ _ _ _ _) as [[a|] r] eqn:Ec; [|done].
  destruct (start (a, r)) as [[acts|e|] s'] eqn:Es; [|done..]. intros [= <-].
  by eapply reach_start.
Qed.

Lemma run_events_reachable limits mid (Ev : RoomEvent → Prop) evs s s' :
  reachable limits host_id mid Ev s → Forall (λ p, Ev p.1) evs →
  run_events evs s = Some s' → reachable limits host_id mid Ev s'.
Proof.
  intros Hr Hev. revert s Hr. induction Hev as [|[ev now] evs Hp _ IH]; intros s Hr; simpl;
    [by intros [= <-]|].
  destruct (handle_event_at ev now s) as [o s1] eqn:E. intros Hrun.
  assert (Ho : o ≠ Panic) by (by destruct o).
  apply (IH s1); [by eapply reach_event|by destruct o].
Qed.

Lemma demo_reachable limits (Ev : RoomEvent → Prop) evs s :
  Forall (λ p, Ev p.1) evs → demo limits evs = Some s →
  reachable limits host_id host_member Ev s.
Proof.
  unfold demo. intros Hev. destruct (new_room _ _) as [s0|] eqn:E; [|done]. simpl.
  intros Hrun. eapply run_events_reachable; [by eapply new_room_reachable|done|done].
Qed.

Lemma any_events (evs : list (RoomEvent * Duration)) : Forall (λ p, True) evs.
Proof. by apply list.Forall_forall. Qed.

Lemma is_Some_proj_eq {A} (o : option A) (H : is_Some o) : o = Some (is_Some_proj H).
Proof. by destruct o; [|destruct (is_Some_None H)]. Qed.

(** A check of a run that succeeds is a fact about the room it reaches. *)
Lemma run_check {A} (f : A → bool) (o : option A) :
  f <$> o = Some true → ∃ s, o = Some s ∧ f s = true.
Proof. destruct o as [s|]; [|done]. intros [= H]. by exists s. Qed.

(** ** Scripts *)

(** [who] connects on [c], proves the password and applies. *)
Definition applies (who : MemberIdentity) (name : rstring) (c : ConnectionId)
    : list (RoomEvent * Duration) :=
  [(EV_ClientConnected c, 0%N); (EV_PasswordVerified c, 0%N);
   (EV_JoinRequested c name None (member_ed25519_pubkey who) (member_x25519_pubkey who) [], 0%N)].

Definition ack (c : ConnectionId) (epoch : u64) : RoomEvent * Duration := (EV_EpochAck c epoch, 0%N).

(** The envelope [who] seals as member [id], at position 0 of the random
    stream. *)
Definition sealed (s : St) (who : MemberIdentity) (id seq : u64) (t : u8) (plaintext : list byte)
    : EncryptedEnvelope :=
  let key := default [] (ra_epoch_key s.1) in
  match seal_envelope key who 1 (ra_session_id s.1) (ra_epoch s.1) id seq t plaintext 0 with
  | (Ok e, _) => {| env_epoch := ra_epoch s.1; env_sender_id := id; env_sender_sequence := seq;
      env_nonce := sealed_nonce e; env_ciphertext := sealed_ciphertext e;
      env_signature := sealed_signature e |}
  | (Err _, _) => {| env_epoch := 0; env_sender_id := 0; env_sender_sequence := 0; env_nonce := [];
      env_ciphertext := []; env_signature := [] |}
  end.

(** The host acknowledges, Alice and Bob join, everyone acknowledges. *)
Definition two_members : list (RoomEvent * Duration) :=
  [ack 0 1] ++ applies alice (lit "alice") 1 ++ [(EV_HostAccepted 0, 0%N); ack 0 2; ack 1 2]
  ++ applies bob (lit "bob") 2 ++ [(EV_HostAccepted 1, 0%N); ack 0 3; ack 1 3; ack 2 3].

Example two_members_run :
  (λ s, (ra_state s.1, ra_epoch s.1, member_id <$> table_members (ra_members s.1),
         ra_pending_membership s.1)) <$> demo Limits_default two_members =
  Some (RS_Open, 3%N, [0; 1; 2]%N, []).
Proof. vm_compute. reflexivity. Qed.

Definition second (n : N) : Duration := n * 1000000000.
