(* ===== verification/Witness.v ===== *)
(** The conditional theorems at concrete inputs. *)
From Stdlib Require Import Strings.String Strings.Byte.
From S2P Require Export Toy Frame PasswordGuard Replay Validation.

(** * Wire format *)

Lemma chunking_is_invisible_witness :
  fst (feed_all (FrameDecoder_new Limits_default) [[x00; x00]; [x00]]) =
  fst (feed_all (FrameDecoder_new Limits_default) [[x00]; [x00; x00]]).
Proof. apply (chunking_is_invisible Limits_default). reflexivity. Defined.

Lemma feed_buffer_bound_witness :
  (N.of_nat (length (buf (snd (feed (FrameDecoder_new Limits_default) [x00])))) <
   N.max 8 (4 + max_frame_size Limits_default))%N.
Proof. apply (feed_buffer_bound (FrameDecoder_new Limits_default) [x00] []). reflexivity. Defined.

Definition hello_frames : list Frame :=
  [{| frame_type := MT_Keepalive; payload := [] |};
   {| frame_type := MT_ChatMessage; payload := [x01; x02] |}].

Definition hello_bytes : list byte :=
  match encode_all hello_frames Limits_default with Ok bs => bs | Err _ => [] end.

Lemma frame_roundtrip_witness :
  feed_all (FrameDecoder_new Limits_default) [take 5 hello_bytes; drop 5 hello_bytes] =
    (Ok hello_frames, FrameDecoder_new Limits_default).
Proof.
  apply (frame_roundtrip hello_frames Limits_default
    [take 5 hello_bytes; drop 5 hello_bytes]); reflexivity.
Defined.

Lemma feed_rejects_oversize_witness :
  fst (feed (FrameDecoder_new Limits_default) (be_bytes 4 20000 ++ zeros 4)) =
  Err (FrameTooLarge 20000 16384).
Proof.
  apply (feed_rejects_oversize (FrameDecoder_new Limits_default) (be_bytes 4 20000 ++ zeros 4)).
  - simpl. lia.
  - reflexivity.
Defined.

(** * Transcripts *)

(** Member 3's departure, spelt out. *)
Definition gone_3 : list byte := [x00; x00; x00; x00; x00; x00; x00; x03].

Lemma room_event_transcript_inj_witness : member_gone_body 3 = gone_3.
Proof.
  apply (room_event_transcript_inj 1 (key_of 9) 4 2 MSG_MEMBER_LEFT (member_gone_body 3)
    1 (key_of 9) 4 2 MSG_MEMBER_LEFT gone_3); reflexivity.
Defined.

Lemma chat_transcript_inj_witness :
  (1, key_of 9, 2, 1, 7, MSG_CHAT, zeros 24, utf8 (lit "hi"))%N =
  (1, key_of 9, 2, 1, 7, 64, zeros 24, [x68; x69])%N.
Proof.
  apply (chat_transcript_inj 1 (key_of 9) 2 1 7 MSG_CHAT (zeros 24) (utf8 (lit "hi"))
    1 (key_of 9) 2 1 7 64 (zeros 24) [x68; x69]); reflexivity.
Defined.

Definition body_row_of (id : u64) (nickname : rstring) : SnapshotBodyMember := {|
  sb_member_id := id; sb_nickname := nickname; sb_color_index := 2; sb_is_host := false;
  sb_ed25519_pubkey := key_of 5 |}.

Lemma member_snapshot_body_inj_witness :
  [body_row_of 1 (lit "alice")] = [body_row_of 1 [97; 108; 105; 99; 101]%N].
Proof.
  apply (member_snapshot_body_inj [body_row_of 1 (lit "alice")]
    [body_row_of 1 [97; 108; 105; 99; 101]%N]); try reflexivity; repeat constructor.
Defined.

Lemma transcripts_domain_separated_witness :
  signed_label (Signed_room_event 1 (key_of 9) 4 2 MSG_MEMBER_LEFT (member_gone_body 3)) =
  signed_label (Signed_room_event 1 (key_of 9) 4 2 MSG_MEMBER_LEFT gone_3).
Proof. apply transcripts_domain_separated. reflexivity. Defined.

(** * Password guard, rate limiter, queues *)

Definition guard_after (n : nat) : PasswordGuard :=
  Nat.iter n (λ g, match record_failure g 0 with Some (_, g') => g' | None => g end)
    PasswordGuard_new.

Lemma guessing_is_braked_witness :
  (0 + windows_upto (N.to_nat ((failures (guard_after 4) - 1) / 5)) <= 0)%N.
Proof.
  assert (H : guesses 0 (guard_after 4) 0).
  { assert (Hs : ∀ n, record_failure (guard_after n) 0 = Some (None, guard_after (S n)) →
      is_locked (guard_after n) 0 = false → guesses 0 (guard_after n) 0 →
      guesses 0 (guard_after (S n)) 0).
    { intros n Hr Hl Hg. by eapply (guesses_fail 0 (guard_after n) 0 0 None). }
    do 4 (apply Hs; [reflexivity|reflexivity|]). apply guesses_none. }
  apply (guessing_is_braked 0 _ 0 H). reflexivity.
Defined.

Lemma threshold_failure_locks_witness :
  from_secs 30 = window (lockouts (guard_after 4)).
Proof.
  apply (threshold_failure_locks (guard_after 4) 0 (from_secs 30) (guard_after 5)); reflexivity.
Defined.

Lemma burst_then_deny_witness :
  ∃ l, allow_n (RateLimiter_new 5 1) 0 (5 + 11) = Some (replicate 5 true ++ replicate 11 false, l) ∧
    consecutive_violations l = N.of_nat 11 ∧ (is_abusive l 10 = true ↔ 10 <= 11).
Proof. apply (burst_then_deny 11). reflexivity. Defined.

Lemma denied_until_clock_advances_witness : tokens (drained 1) = tokens (refill (drained 0) 0).
Proof. apply (denied_until_clock_advances (drained 0) 0 (drained 1)). reflexivity. Defined.

Lemma out_run_fifo_witness :
  let '(ins, outs, q) := out_run (OutboundQueue_new 2) [Push 1; Push 2; Push 3; Pop; Push 4] in
  items (OutboundQueue_new 2) ++ ins = outs ++ items q ∧ out_capacity q = 2%N ∧
  (N.of_nat (length (items q)) <= 2)%N.
Proof. apply (out_run_fifo (OutboundQueue_new 2)). simpl. lia. Defined.

Definition demo_application : JoinApplication := {|
  app_nickname := lit "alice"; app_introduction := None; app_ed25519_pubkey := key_of 5;
  app_x25519_pubkey := key_of 6; app_signature := [] |}.

Lemma push_take_witness :
  ∃ r q'', take_request {| queue_limit := 8; queue_next_id := 1; pending :=
      [{| request_id := 0; request_connection := 3; application := demo_application |}] |} 0
      = Ok (r, q'') ∧
    r = {| request_id := 0; request_connection := 3; application := demo_application |} ∧
    pending q'' = pending (with_capacity 8) ∧ take_request q'' 0 = Err (QE_Unknown 0).
Proof. apply (push_take (with_capacity 8) 3 demo_application); [constructor..|reflexivity]. Defined.

(** * The room *)

(** Alice and Bob are members and the room is open. *)
Lemma two_room_runs : is_Some (demo Limits_default two_members).
Proof. vm_compute. by eexists. Qed.

Definition two_room : St := is_Some_proj two_room_runs.

Lemma two_room_reachable (Ev : RoomEvent → Prop) :
  Forall (λ p, Ev p.1) two_members → reachable Limits_default host_id host_member Ev two_room.
Proof. intros H. eapply demo_reachable; [exact H|apply is_Some_proj_eq]. Qed.

Lemma two_members_ok : Forall (λ p, event_ok host_id p.1) two_members.
Proof. unfold two_members, applies. simpl. repeat constructor. Qed.

(** Bob has been accepted and the transition is pending. *)
Definition joining : list (RoomEvent * Duration) := take 11 two_members.

Lemma joining_room_runs : is_Some (demo Limits_default joining).
Proof. vm_compute. by eexists. Qed.

Definition joining_room : St := is_Some_proj joining_room_runs.

Lemma joining_room_reachable :
  reachable Limits_default host_id host_member (event_ok host_id) joining_room.
Proof.
  eapply demo_reachable; [|apply is_Some_proj_eq]. apply Forall_take, two_members_ok.
Qed.

Lemma host_contributory : contributory host_id (member_x25519_pubkey host_member).
Proof. reflexivity. Qed.

Example joining_room_state :
  (ra_state joining_room.1, ra_epoch joining_room.1,
   pe_awaiting <$> ra_pending_epoch joining_room.1) = (RS_EpochTransition, 3%N, Some [0; 1; 2]%N).
Proof. vm_compute. reflexivity. Qed.

Lemma room_population_witness :
  table_ok (ra_members two_room.1) ∧ length (table_members (ra_members two_room.1)) = 3.
Proof.
  split; [|vm_compute; reflexivity].
  apply (room_population Limits_default host_id host_member (λ _, True) two_room).
  apply two_room_reachable, any_events.
Defined.

Lemma room_epoch_lifecycle_witness :
  ra_state joining_room.1 = RS_EpochTransition ∧
  ∃ p, ra_pending_epoch joining_room.1 = Some p ∧ pe_awaiting p ≠ [].
Proof.
  assert (Hst : ra_state joining_room.1 = RS_EpochTransition) by (vm_compute; reflexivity).
  pose proof joining_room_reachable as Hr. revert Hst Hr. generalize joining_room. intros s Hst Hr.
  split; [exact Hst|].
  pose proof (room_epoch_lifecycle Limits_default host_id host_member s toy_total
    host_contributory Hr) as [_ H]. cbv zeta in H. rewrite Hst in H.
  destruct H as (p & Hp & _ & Hne & _). by exists p.
Defined.

(** The outcome and the state of a computation. *)
Definition acts_of {A} (r : Outcome RoomError (list A) * St) : list A :=
  match r.1 with Done acts => acts | _ => [] end.

Definition is_done {A} (r : Outcome RoomError A * St) : bool :=
  match r.1 with Done _ => true | _ => false end.

Lemma run_done {A} (r : Outcome RoomError (list A) * St) : is_done r = true → r = (Done (acts_of r), r.2).
Proof. destruct r as [[]]; done. Qed.

Lemma transition_distributes_key_witness :
  let s' := (begin_epoch_transition [] two_room).2 in
  ra_state s'.1 = RS_EpochTransition ∧ ra_epoch s'.1 = (ra_epoch two_room.1 + 1)%N.
Proof.
  assert (Hd : is_done (begin_epoch_transition [] two_room) = true) by (vm_compute; reflexivity).
  revert Hd. generalize two_room. intros [a r] Hd s'.
  destruct (transition_distributes_key [] a r _ _ (run_done _ Hd)) as (H1 & H2 & _).
  split; [exact H1|exact H2].
Defined.

Definition alice_ref : MemberRef := MR_Nickname (lit "alice").

Lemma kick_excludes_witness :
  ∃ m wraps, resolve_member two_room.1 alice_ref = Ok m ∧
    removed two_room.1 (on_kick alice_ref two_room).2.1 m wraps.
Proof.
  assert (Hd : is_done (on_kick alice_ref two_room) = true) by (vm_compute; reflexivity).
  pose proof (two_room_reachable (λ _, True) (any_events _)) as Hr.
  revert Hd Hr. generalize two_room. intros [a r] Hd Hr.
  destruct (kick_excludes Limits_default host_id host_member (λ _, True) a r alice_ref _ _ Hr
    (run_done _ Hd)) as (m & wraps & H1 & _ & H2 & _).
  exists m, wraps. split; [exact H1|exact H2].
Defined.

(** ** Chat *)

(** Alice's [seq]-th chat message. *)
Definition hi (s : St) (seq : u64) : EncryptedEnvelope :=
  sealed s alice 1 seq MSG_CHAT (utf8 (lit "hi")).

Definition to_others (env : EncryptedEnvelope) : list (ConnectionId * Message) :=
  [(0, M_ChatMessage env); (2, M_ChatMessage env)]%N.

Lemma relays_to_others acts env : sends acts = to_others env → relays acts env.
Proof. intros E. exists 0%N, (M_ChatMessage env). rewrite E. split; [by left|by left]. Qed.

Lemma hi_relayed :
  is_done (on_chat_received 1 MSG_CHAT (hi two_room 1) two_room) = true ∧
  sends (acts_of (on_chat_received 1 MSG_CHAT (hi two_room 1) two_room)) = to_others (hi two_room 1).
Proof. split; vm_compute; reflexivity. Qed.

Lemma chat_relay_sound_witness :
  ∃ m plaintext, accepted two_room.1 1 MSG_CHAT (hi two_room 1) m plaintext.
Proof.
  pose proof hi_relayed as [Hd Hs]. revert Hd Hs. generalize two_room. intros [a r] Hd Hs.
  apply (chat_relay_sound 1 MSG_CHAT (hi (a, r) 1) a r _ _ (hi (a, r) 1) (run_done _ Hd)).
  apply relays_to_others, Hs.
Defined.

Lemma chat_relay_complete_witness :
  ∃ a', on_chat_received 1 MSG_CHAT (hi two_room 1) two_room =
    (Done (relay 1 (M_ChatMessage (hi two_room 1)) (table_members (ra_members two_room.1))),
     (a', two_room.2)).
Proof.
  pose proof hi_relayed as [Hd Hs].
  assert (Hl : fst <$> allow (default (RateLimiter_new 5 1)
    (ra_rate_limits two_room.1 !! env_sender_id (hi two_room 1))) (ra_now two_room.1) = Some true)
    by (vm_compute; reflexivity).
  revert Hd Hs Hl. generalize two_room. intros [a r] Hd Hs Hl.
  pose proof (on_chat_received_wp 1 MSG_CHAT (hi (a, r) 1) a r) as Hw. unfold wp in Hw.
  rewrite (run_done _ Hd) in Hw.
  destruct (Hw _ _ eq_refl (relays_to_others _ _ Hs)) as (m & p & Hacc & _).
  destruct (allow _ _) as [[ok l]|] eqn:El in Hl; [|done]. injection Hl as ->.
  exact (chat_relay_complete 1 (hi (a, r) 1) a r m p l Hacc El).
Defined.

Lemma no_envelope_relayed_twice_witness :
  (env_sender_sequence (hi two_room 1) < env_sender_sequence (hi two_room 2))%N ∨
  (env_epoch (hi two_room 1) < env_epoch (hi two_room 2))%N.
Proof.
  set (run1 := λ s, handle_event_at (EV_ChatReceived 1 MSG_CHAT (hi s 1)) 0 s).
  set (run2 := λ s, handle_event_at (EV_ChatReceived 1 MSG_CHAT (hi s 2)) 0 (run1 s).2).
  assert (H1 : is_done (run1 two_room) = true) by (vm_compute; reflexivity).
  assert (H2 : is_done (run2 two_room) = true) by (vm_compute; reflexivity).
  assert (S1 : sends (acts_of (run1 two_room)) = to_others (hi two_room 1))
    by (vm_compute; reflexivity).
  assert (S2 : sends (acts_of (run2 two_room)) = to_others (hi two_room 2))
    by (vm_compute; reflexivity).
  assert (Hid : env_sender_id (hi two_room 2) = env_sender_id (hi two_room 1))
    by (vm_compute; reflexivity).
  revert H1 H2 S1 S2 Hid. generalize two_room. intros s H1 H2 S1 S2 Hid.
  destruct (no_envelope_relayed_twice 1 MSG_CHAT (hi s 1) 0 _ 1 MSG_CHAT (hi s 2) 0 _
    s _ _ _ (run_done _ H1) (relays_to_others _ _ S1) (steps_refl _) (run_done _ H2)
    (relays_to_others _ _ S2) Hid) as [H|[_ H]]; [right|left]; exact H.
Defined.

(** ** The end of a transition *)

Lemma acks_activate_witness :
  let ms := table_members (ra_members joining_room.1) in
  ∃ p, ra_pending_epoch joining_room.1 = Some p ∧
    handle_acks (connection <$> ms) (pe_epoch p) joining_room =
      (Done (released joining_room.1), (activated p joining_room.1, joining_room.2)).
Proof.
  assert (Hst : ra_state joining_room.1 = RS_EpochTransition) by (vm_compute; reflexivity).
  assert (Haw : pe_awaiting <$> ra_pending_epoch joining_room.1 =
    Some (member_id <$> table_members (ra_members joining_room.1))) by (vm_compute; reflexivity).
  pose proof joining_room_reachable as Hr. revert Hst Haw Hr. generalize joining_room.
  intros [a r] Hst Haw Hr ms.
  destruct (acks_activate Limits_default host_id host_member a r toy_total host_contributory Hr Hst)
    as (p & Hp & H).
  exists p. split; [exact Hp|]. cbn [fst] in Haw. rewrite Hp in Haw. injection Haw as Haw.
  apply H; [by apply list.Forall_forall|]. by rewrite Haw.
Defined.

(** The host has acknowledged, Alice and Bob have not. *)
Definition stalled : list (RoomEvent * Duration) := take 12 two_members.

Lemma stalled_room_runs : is_Some (demo Limits_default stalled).
Proof. vm_compute. by eexists. Qed.

Definition stalled_room : St := is_Some_proj stalled_room_runs.

Lemma stalled_room_reachable :
  reachable Limits_default host_id host_member (event_ok host_id) stalled_room.
Proof.
  eapply demo_reachable; [|apply is_Some_proj_eq]. apply Forall_take, two_members_ok.
Qed.

Lemma stalled_members_are_evicted_witness :
  let '(o, s') := handle_event_at EV_EpochMaintenance (second 3600) stalled_room in
  ra_state s'.1 = RS_EpochTransition ∧ member_id <$> table_members (ra_members s'.1) = [0%N].
Proof.
  assert (Hst : ra_state stalled_room.1 = RS_EpochTransition) by (vm_compute; reflexivity).
  assert (Hp0 : (λ p, (second 3600 - pe_started_at p <? ack_deadline stalled_room.1)%N)
    <$> ra_pending_epoch stalled_room.1 = Some false) by (vm_compute; reflexivity).
  assert (Haw : pe_awaiting <$> ra_pending_epoch stalled_room.1 = Some [1; 2]%N)
    by (vm_compute; reflexivity).
  assert (Hms : member_id <$> List.filter (stays [1; 2]%N) (table_members (ra_members stalled_room.1))
    = [0%N]) by (vm_compute; reflexivity).
  assert (Hce : (ra_epoch stalled_room.1 + 1 < u64_limit)%N) by (apply N.ltb_lt; vm_compute; reflexivity).
  assert (Hcq : (ra_room_sequence stalled_room.1 + 1 + 2 < u64_limit)%N) by (apply N.ltb_lt; vm_compute; reflexivity).
  pose proof stalled_room_reachable as Hr. revert Hst Hp0 Haw Hms Hce Hcq Hr. generalize stalled_room.
  intros [a r] Hst Hp0 Haw Hms Hce Hcq Hr. generalize (second 3600), Hp0. clear Hp0.
  intros now Hp0. destruct (stalled_members_are_evicted Limits_default host_id host_member a r now
    toy_total host_contributory Hr Hst) as (p & Hp & H).
  cbn [fst] in *. rewrite Hp in Hp0, Haw. injection Hp0 as Hp0. injection Haw as Haw.
  destruct (handle_event_at _ _ _) as [o s']. cbv zeta in H.
  rewrite decide_False in H by (by apply N.ltb_ge, N.le_ngt in Hp0). rewrite Haw in H.
  rewrite decide_False in H by (rewrite !elem_of_cons, elem_of_nil; lia).
  destruct (H Hce Hcq) as (acts & wraps & key & _ & _ & _ & Ht & Hs & _).
  split; [exact Hs|]. by rewrite Ht.
Defined.

(** ** Gates *)

(** Bob has applied. *)
Definition applied : list (RoomEvent * Duration) := take 10 two_members.

Lemma applied_room_runs : is_Some (demo Limits_default applied).
Proof. vm_compute. by eexists. Qed.

Definition applied_room : St := is_Some_proj applied_room_runs.

Lemma applied_room_reachable :
  reachable Limits_default host_id host_member (event_ok host_id) applied_room.
Proof.
  eapply demo_reachable; [|apply is_Some_proj_eq]. apply Forall_take, two_members_ok.
Qed.

Lemma accept_decides_witness :
  ∃ acts q, (on_accept 1 applied_room).1 = Done acts ∧
    pending (ra_requests applied_room.1) = [q] ∧
    pending (ra_requests (on_accept 1 applied_room).2.1) = [].
Proof.
  assert (Hst : ra_state applied_room.1 = RS_Open) by (vm_compute; reflexivity).
  assert (Hq : request_id <$> pending (ra_requests applied_room.1) = [1%N])
    by (vm_compute; reflexivity).
  assert (Hd : is_done (on_accept 1 applied_room) = true) by (vm_compute; reflexivity).
  pose proof applied_room_reachable as Hr. revert Hst Hq Hd Hr. generalize applied_room.
  intros [a r] Hst Hq Hd Hr. cbn [fst] in *.
  destruct (pending (ra_requests a)) as [|q [|]] eqn:E; [done| |done]. injection Hq as Hq.
  assert (Hin : q ∈ pending (ra_requests a)) by (rewrite E; by left).
  pose proof (run_done _ Hd) as Hrun. rewrite <-Hq in Hrun |- *.
  destruct (accept_decides Limits_default host_id host_member a r q _ _ toy_total
    host_contributory Hr (or_introl Hst) Hin Hrun ltac:(done)) as (acts & Hacts & Hp & _).
  exists acts, q. split; [by rewrite Hrun|]. split; [done|].
  rewrite E in Hp. apply Permutation_length in Hp.
  simpl in Hp. apply nil_length_inv. simpl. lia.
Defined.

Lemma locking_seals_the_room_witness :
  ra_state (set_policy JP_Locked applied_room).2.1 = RS_Locked ∧
  pending (ra_requests (set_policy JP_Locked applied_room).2.1) = [].
Proof.
  assert (Hd : is_done (set_policy JP_Locked applied_room) = true) by (vm_compute; reflexivity).
  pose proof applied_room_reachable as Hr. revert Hd Hr. generalize applied_room. intros [a r] Hd Hr.
  destruct (locking_seals_the_room Limits_default host_id host_member (event_ok host_id) a r _ _ Hr
    (run_done _ Hd)) as (H1 & _ & _ & H2 & _).
  split; [exact H1|exact H2].
Defined.

Lemma transition_defers_witness :
  handle_event_at (EV_HostCommand HC_NewId) 7 joining_room =
    (Fail RE_EpochTransitionInProgress, (put_now 7 joining_room.1, joining_room.2)).
Proof.
  assert (Hst : ra_state joining_room.1 = RS_EpochTransition) by (vm_compute; reflexivity).
  revert Hst. generalize joining_room. intros [a r] Hst.
  apply (transition_defers a r (EV_HostCommand HC_NewId) 7 Hst). reflexivity.
Defined.

Lemma closing_is_final_witness :
  ∃ acts, close_room two_room = (Done acts, (put_state RS_Destroyed two_room.1, two_room.2)) ∧
    NoDup (closes acts).
Proof.
  assert (Hst : ra_state two_room.1 = RS_Open) by (vm_compute; reflexivity).
  revert Hst. generalize two_room. intros [a r] Hst.
  destruct (closing_is_final a r ltac:(simpl in *; congruence)) as (acts & H1 & _ & _ & H2 & _).
  exists acts. split; [exact H1|exact H2].
Defined.

(** ** Envelopes *)

Lemma chat_envelope_roundtrip_witness :
  ∃ env rng', seal_envelope (key_of 40) alice 1 (key_of 41) 2 1 7 MSG_CHAT [x01; x02] 5
      = (Ok env, rng') ∧
    open_envelope (key_of 40) (member_ed25519_pubkey alice) 1 (key_of 41) 2 1 7 MSG_CHAT
      (sealed_nonce env) (sealed_ciphertext env) (sealed_signature env) = Ok [x01; x02].
Proof.
  eexists _, _. split; [reflexivity|]. eapply chat_envelope_roundtrip. reflexivity.
Defined.
