(* ===== verification/ClientWitness.v ===== *)
(** The theorems on clients and on admission, at concrete inputs. *)
From Stdlib Require Import Strings.String Strings.Byte.
From S2P Require Export EndToEnd Handshake Witness.

(** Hash functions to compute with: truncations of their input. *)
#[export] Instance toy_hashes : Hashes := {|
  sha256 m := pad 32 m;
  hmac_sha256 k m := pad 32 (k ++ drop 27 m);
  argon2id password salt _ _ _ := Some (pad 32 (password ++ salt));
|}.

(** * Sessions *)

Definition view_of (id : MemberId) (name : rstring) (ed : list byte) : MemberView := {|
  mv_member_id := id; mv_nickname := name; mv_color := ColorChoice_default;
  mv_is_host := (id =? 0)%N; mv_ed25519_pubkey := ed |}.

(** A session of a room with Alice and Bob, in epoch 3. *)
Definition client (id : MemberId) : ChatSession := {|
  cs_room_session_id := key_of 9; cs_host_ed25519_pubkey := host_ed25519_pubkey host_id;
  cs_host_x25519_pubkey := host_x25519_pubkey host_id; cs_member_id := id;
  cs_current_epoch := Some (3%N, key_of 10); cs_sender_sequence := 0;
  cs_members := [view_of 1 (lit "alice") (member_ed25519_pubkey alice);
                 view_of 2 (lit "bob") (member_ed25519_pubkey bob)];
  cs_replay := ReplayTracker_new; cs_last_room_sequence := None; cs_join_policy_open := true |}.

Definition no_envelope : EncryptedEnvelope := {|
  env_epoch := 0; env_sender_id := 0; env_sender_sequence := 0; env_nonce := [];
  env_ciphertext := []; env_signature := [] |}.

(** What Alice's session seals when it has sent [n] envelopes. *)
Fixpoint alices_envelope (n : nat) (s : ChatSession * Rng) : EncryptedEnvelope :=
  match Session.seal alice MSG_CHAT (utf8 (lit "hi")) s with
  | (Done env, s') => match n with O => env | S n => alices_envelope n s' end
  | _ => no_envelope
  end.

Definition result_of {E A S} (x : Outcome E A * S) : option A :=
  match x.1 with Done a => Some a | _ => None end.

Lemma done_run {E A S} (x : Outcome E A * S) a : result_of x = Some a → x = (Done a, x.2).
Proof. destruct x as [[]]; cbn; congruence. Qed.

Lemma no_envelope_read_twice_witness :
  let e := λ n, alices_envelope n (client 1, 0) in
  (env_epoch (e O) < env_epoch (e 1%nat) ∨ env_epoch (e O) = env_epoch (e 1%nat) ∧
   env_sender_sequence (e O) < env_sender_sequence (e 1%nat))%N.
Proof.
  intros e. set (x := Session.open MSG_CHAT (e O) (client 2, 0)).
  assert (H1 : result_of x = Some (utf8 (lit "hi"))) by (vm_compute; reflexivity).
  assert (H2 : result_of (Session.open MSG_CHAT (e 1%nat) x.2) = Some (utf8 (lit "hi"))) by (vm_compute; reflexivity).
  assert (Hid : env_sender_id (e 1%nat) = env_sender_id (e O)) by (vm_compute; reflexivity).
  exact (no_envelope_read_twice MSG_CHAT (e O) (client 2) 0 _ x.2 x.2 MSG_CHAT (e 1%nat) _ _
    (done_run _ _ H1) (session_refl _) (done_run _ _ H2) Hid).
Defined.

(** The host's broadcast that its policy changed. *)
Definition policy_signature (seq : u64) (b : bool) : list byte :=
  host_sign host_id (room_event_transcript 1 (key_of 9) seq 3 MSG_JOIN_POLICY_CHANGED
    (join_policy_body b)).

Definition policy_message (seq : u64) (b : bool) : Message := M_JoinPolicyChanged {|
  jp_sequence := seq; jp_epoch := 3; jp_open := b; jp_signature := policy_signature seq b |}.

Definition policy_signed (seq : u64) (b : bool) : Signature := {|
  sg_sequence := seq; sg_epoch := 3; sg_type := MSG_JOIN_POLICY_CHANGED;
  sg_body := join_policy_body b; sg_signature := policy_signature seq b |}.

Lemma membership_spec_witness :
  decided (client 2) 0 (policy_message 1 false) (policy_signed 1 false)
    (handle_membership_message (policy_message 1 false) (client 2, 0)).
Proof. apply (membership_spec (policy_message 1 false)). reflexivity. Defined.

Lemma broadcasts_in_order_witness :
  let x := handle_membership_message (policy_message 1 false) (client 2, 0) in
  timely (client 2) (policy_signed 1 false) ∧ timely x.2.1 (policy_signed 2 true) ∧ (1 < 2)%N.
Proof.
  intros x. set (y := handle_membership_message (policy_message 2 true) x.2).
  assert (H1 : result_of x = Some tt) by (vm_compute; reflexivity).
  assert (H2 : result_of y = Some tt) by (vm_compute; reflexivity).
  exact (broadcasts_in_order (policy_message 1 false) (policy_signed 1 false)
    (policy_message 2 true) (policy_signed 2 true) (client 2, 0) x.2 x.2 y.2 eq_refl eq_refl (done_run _ _ H1) (session_refl _) (done_run _ _ H2)).
Defined.

(** * Admission *)

Definition toy_token : list byte := key_of 20.
Definition toy_password : list byte := utf8 (lit "secret").

Definition invitation : Invitation := {|
  inv_onion_address := lit "room.onion"; inv_port := 80; inv_token := toy_token |}.

Definition toy_host : Result HostAdmission CryptoError * Rng :=
  match PasswordVerifier_derive toy_password 0 with
  | (Ok v, r) => HostAdmission_new (key_of 9) toy_token v host_id (lit "room.onion") r
  | (Err e, r) => (Err e, r)
  end.

Definition toy_client : Result ClientAdmission CryptoError * Rng :=
  ClientAdmission_new invitation toy_password 0.

Lemma toy_pair :
  ∃ v h rh c rc, PasswordVerifier_derive toy_password 0 = (Ok v, 1) ∧
    HostAdmission_new (key_of 9) toy_token v host_id (lit "room.onion") 1 = (Ok h, rh) ∧
    toy_client = (Ok c, rc) ∧ paired 80 toy_password h c.
Proof.
  do 5 eexists. split; [reflexivity|]. split; [reflexivity|]. split; [reflexivity|].
  constructor; try done.
  - simpl. lia.
  - exists 0, 1. reflexivity.
Qed.

Lemma carol_valid : validate_nickname (lit "carol") Limits_default = Ok (lit "carol").
Proof. vm_compute. reflexivity. Qed.

Lemma honest_admission_witness :
  ∃ h rh c rc app h' c', toy_client = (Ok c, rc) ∧
    handshake 80 (lit "carol") None (h, rh) (c, rc) = Some (app, h', c') ∧
    app_nickname app = lit "carol" ∧
    option_map cs_member_id (cl_chat (on_host_message (admission_accept 3) c').2.1) = Some 3%N.
Proof.
  destruct toy_pair as (v & h & rh & c & rc & _ & _ & Hc & Hp).
  destruct (honest_admission 80 toy_password (lit "carol") None (lit "carol") h rh c rc toy_total Hp
    carol_valid carol_valid ltac:(done)) as (app & h' & rh' & c' & Hrun & Hn & _ & _ & _ & _ & _ & Hacc).
  exists h, rh, c, rc, app, (h', rh'), (c', rc). split; [exact Hc|]. split; [exact Hrun|].
  split; [exact Hn|]. destruct (Hacc 3%N) as (c'' & Hm & _ & _ & Hchat).
  rewrite Hm. cbn [snd fst]. by rewrite Hchat.
Defined.

(** The host's flow on a list of inputs, with its trace. *)
Fixpoint host_run (ins : list HostInput) (x : HostAdmission * Rng)
    : list (HostInput * Outcome AdmissionError (option HostAdmissionReply)) * (HostAdmission * Rng) :=
  match ins with
  | [] => ([], x)
  | i :: ins => let '(o, y) := host_input i x in let '(t, z) := host_run ins y in ((i, o) :: t, z)
  end.

Lemma host_run_flow ins x t y :
  host_flow x t y → host_flow x (t ++ (host_run ins y).1) (host_run ins y).2.
Proof.
  revert t y. induction ins as [|i ins IH]; intros t y H; simpl; [by rewrite app_nil_r|].
  destruct (host_input i y) as [o z] eqn:E. specialize (IH (t ++ [(i, o)]) z).
  destruct (host_run ins z) as [t' z'] eqn:Er. simpl. rewrite <-app_assoc in IH. apply IH.
  by eapply host_flow_snoc.
Qed.

Fixpoint client_run (ins : list ClientInput) (x : ClientAdmission * Rng)
    : list (ClientInput * Outcome AdmissionError (list Message)) * (ClientAdmission * Rng) :=
  match ins with
  | [] => ([], x)
  | i :: ins => let '(o, y) := client_input i x in let '(t, z) := client_run ins y in ((i, o) :: t, z)
  end.

Lemma client_run_flow ins x t y :
  client_flow x t y → client_flow x (t ++ (client_run ins y).1) (client_run ins y).2.
Proof.
  revert t y. induction ins as [|i ins IH]; intros t y H; simpl; [by rewrite app_nil_r|].
  destruct (client_input i y) as [o z] eqn:E. specialize (IH (t ++ [(i, o)]) z).
  destruct (client_run ins z) as [t' z'] eqn:Er. simpl. rewrite <-app_assoc in IH. apply IH.
  by eapply client_flow_snoc.
Qed.

(** The inputs of an honest admission, from both sides' own answers. *)
Definition messages {E S} (x : Outcome E (list Message) * S) : list Message :=
  match x.1 with Done ms => ms | _ => [] end.

Definition the_message (ms : list Message) : Message := default M_Keepalive (head ms).

Definition reply_message {E S} (x : Outcome E (option HostAdmissionReply) * S) : Message :=
  match x.1 with Done (Some (HR_Message m)) => m | _ => M_Keepalive end.

Record Exchange := { ex_host : list HostInput; ex_client : list ClientInput }.

(** The host's inputs up to the application, and the client's up to the
    decision. *)
Definition exchange (h : HostAdmission * Rng) (c : ClientAdmission * Rng) : Exchange :=
  let hello := {| ch_version := 1; ch_client_nonce := cl_client_nonce c.1; ch_features := 0 |} in
  let i1 := HI_Hello hello 80 in let h1 := host_input i1 h in
  let j1 := CI_Host (reply_message h1) in let c1 := client_input j1 c in
  let i2 := HI_Message (the_message (messages c1)) JP_Open in let h2 := host_input i2 h1.2 in
  let j2 := CI_Host (reply_message h2) in let c2 := client_input j2 c1.2 in
  let i3 := HI_Message (the_message (messages c2)) JP_Open in let h3 := host_input i3 h2.2 in
  let j3 := CI_Join (lit "carol") None in let c3 := client_input j3 c2.2 in
  let i4 := HI_Message (the_message (messages c3)) JP_Open in
  {| ex_host := [i1; i2; i3; i4];
     ex_client := [j1; j2; j3; CI_Host (admission_accept 3)] |}.

Definition toy_run : option (HostAdmission * Rng * (ClientAdmission * Rng)) :=
  match toy_host, toy_client with
  | (Ok h, rh), (Ok c, rc) => Some (h, rh, (c, rc))
  | _, _ => None
  end.

Definition toy_exchange : option Exchange := (λ p, exchange p.1 p.2) <$> toy_run.

(** The application that ends a host run, and the flow of a client run. *)
Definition applied_in (p : HostAdmission * Rng * (ClientAdmission * Rng)) : option JoinApplication :=
  let y := host_run (take 3 (ex_host (exchange p.1 p.2))) p.1 in
  match host_input (default (HI_Message M_Keepalive JP_Open) (ex_host (exchange p.1 p.2) !! 3%nat))
          y.2 with
  | (Done (Some (HR_JoinRequested app)), _) => Some app
  | _ => None
  end.

Lemma toy_run_eq :
  ∃ v h rh c rc, PasswordVerifier_derive toy_password 0 = (Ok v, 1%nat) ∧
    HostAdmission_new (key_of 9) toy_token v host_id (lit "room.onion") 1 = (Ok h, rh) ∧
    toy_client = (Ok c, rc) ∧ toy_run = Some (h, rh, (c, rc)) ∧ cl_invitation c = invitation.
Proof.
  do 5 eexists. split; [reflexivity|]. split; [reflexivity|]. split; [reflexivity|].
  split; reflexivity.
Qed.

Lemma join_needs_credentials_witness :
  ∃ v proof challenge (nonce : list byte), PasswordVerifier_derive toy_password 0 = (Ok v, 1%nat) ∧
    proof = expected_proof v challenge nonce.
Proof.
  destruct toy_run_eq as (v & h & rh & c & rc & Hv & Hh & _ & Hrun & _).
  assert (Happ : is_Some (toy_run ≫= applied_in)) by (vm_compute; by eexists).
  rewrite Hrun in Happ. destruct Happ as [app Happ]. cbn [mbind option_bind] in Happ.
  unfold applied_in in Happ. cbn [fst snd] in Happ. revert Happ.
  set (ex := exchange (h, rh) (c, rc)). set (i := default _ _). intros Happ.
  destruct (host_input i _) as [[[[m|app']|]|e|] z] eqn:E; try discriminate Happ.
  destruct (join_needs_credentials (key_of 9) toy_token v host_id (lit "room.onion") 1 h rh _ _ _
    app' z Hh (host_run_flow (take 3 (ex_host ex)) _ _ _ (host_flow_nil (h, rh))) E)
    as (hello & port & o & verify & p & challenge & proof & p' & request & _ & _ & _ & _ & Hp & _).
  exists v, (cp_proof proof), challenge, (ch_client_nonce hello). split; [exact Hv|exact Hp].
Defined.

Lemma client_trusts_signed_host_witness :
  ∃ c rc x s hello, toy_client = (Ok c, rc) ∧
    x = (client_run (ex_client (default {| ex_host := []; ex_client := [] |} toy_exchange)) (c, rc)).2 ∧
    cl_chat x.1 = Some s ∧ verify_ed25519 (hello_host_ed25519_pubkey hello)
      (host_hello_transcript (expected_hello c hello)) (hello_host_signature hello) = true.
Proof.
  destruct toy_run_eq as (v & h & rh & c & rc & _ & _ & Hc & Hrun & Hinv).
  set (ins := ex_client _).
  assert (Hs : is_Some ('(p, q) ← toy_run; cl_chat (client_run ins q).2.1)) by (vm_compute; by eexists).
  rewrite Hrun in Hs. destruct Hs as [s Hs]. cbn [mbind option_bind] in Hs.
  destruct (client_run ins (c, rc)) as [trace [c' rc']] eqn:E.
  pose proof (client_run_flow ins _ _ _ (client_flow_nil (c, rc))) as Hf. rewrite E in Hf.
  destruct (client_trusts_signed_host invitation toy_password 0 c rc trace c' rc' Hc Hf) as [H _].
  destruct (H s Hs) as (hello & id & o & o' & _ & Hsig & _).
  exists c, rc, (c', rc'), s, hello. split; [exact Hc|]. rewrite E. split; [done|]. split; [exact Hs|].
  unfold expected_hello. by rewrite Hinv.
Defined.

(** * Chat and admission through the room *)

(** The session of a member of a room, with its table. *)
Definition synced (a : RoomActor) (m : Member) : ChatSession := {|
  cs_room_session_id := ra_session_id a;
  cs_host_ed25519_pubkey := host_ed25519_pubkey (ra_host_identity a);
  cs_host_x25519_pubkey := host_x25519_pubkey (ra_host_identity a);
  cs_member_id := member_id m; cs_current_epoch := chat_key a; cs_sender_sequence := 0;
  cs_members := view_of_member <$> table_members (ra_members a); cs_replay := ReplayTracker_new;
  cs_last_room_sequence := Some (ra_room_sequence a); cs_join_policy_open := true |}.

(** What [in_step] asks of a member of a room in which it has not spoken. *)
Definition speaks (a : RoomActor) (identity : MemberIdentity) (id : MemberId) : bool :=
  match by_id (ra_members a) id, chat_key a with
  | Some m, Some (e, _) =>
      (member_id m =? id)%N && bool_decide (ed25519_pubkey m = member_ed25519_pubkey identity)
      && (e =? ra_epoch a)%N
      && bool_decide (conn_member_id (ra_connections a) (connection m) = Some id)
      && bool_decide (last_accepted (ra_chat_replay a) id (ra_epoch a) = None)
      && bool_decide (fst <$> allow (default (RateLimiter_new 5 1) (ra_rate_limits a !! id)) (ra_now a)
                      = Some true)
  | _, _ => false
  end.

Lemma speaks_in_step a identity id :
  speaks a identity id = true →
  ∃ m l, member_id m = id ∧ in_step a m identity (synced a m) ∧
    allow (default (RateLimiter_new 5 1) (ra_rate_limits a !! member_id m)) (ra_now a)
      = Some (true, l).
Proof.
  unfold speaks. destruct (by_id _ _) as [m|] eqn:Em; [|done].
  destruct (chat_key a) as [[e key]|] eqn:Ek; [|done].
  rewrite !andb_true_iff, !N.eqb_eq, !bool_decide_eq_true.
  intros [[[[[Hid Hed] ->] Hc] Hl] Ha]. subst id.
  destruct (allow _ _) as [[ok l]|] eqn:El; [|done]. injection Ha as ->.
  exists m, l. split; [done|]. split; [|exact El].
  constructor; try done; simpl.
  - by exists key.
  - intros last. by rewrite Hl.
Qed.

Lemma chat_end_to_end_witness :
  ∃ s m env s1, demo Limits_default two_members = Some s ∧
    send_chat alice (lit "hi") (synced s.1 m, 0%nat) = (Done (M_ChatMessage env), s1) ∧
    ∃ l, on_chat_received (connection m) MSG_CHAT env s =
      (Done (relay (connection m) (M_ChatMessage env) (table_members (ra_members s.1))), (past_chat env l s.1, s.2)).
Proof.
  destruct (run_check (λ s, speaks s.1 alice 1) (demo Limits_default two_members))
    as ([a r] & Hs & H); [vm_compute; reflexivity|].
  apply speaks_in_step in H as (m & l & _ & Hstep & Hl).
  assert (Ht : chat_text_ok (lit "hi")).
  { split; [done|]. split; [by repeat constructor|vm_compute; reflexivity]. }
  destruct (chat_end_to_end a m alice (synced a m) 0 (lit "hi") l toy_total Hstep Ht Hl)
    as (env & s1 & Hsend & Hrel & _).
  exists (a, r), m, env, s1. split; [exact Hs|]. split; [exact Hsend|exists l; exact (Hrel r)].
Defined.

(** Accepting Bob succeeds, and the enlarged table fits a snapshot. *)
Definition admits (s : St) : bool :=
  match pending (ra_requests s.1) with
  | [q] =>
      (request_id q =? 1)%N && bool_decide (ra_state s.1 = RS_Open)
      && is_done (on_accept 1 s)
      && match add (ra_members s.1) (request_connection q) (app_nickname (application q))
                 (app_ed25519_pubkey (application q)) (app_x25519_pubkey (application q))
                 (ra_epoch s.1 + 1) with
         | Some (Ok (m, ms)) =>
             (table_len ms <=? max_active_members Limits_default)%N
             && forallb (λ k, match validate_nickname (nickname k) Limits_default with
                              | Ok _ => true | Err _ => false end) (table_members ms)
         | _ => false
         end
  | _ => false
  end.

