(* ===== verification/WireWitness.v ===== *)
(** The theorems on the codec, the connection task and invitations, at
    concrete inputs, with an instance of the CBOR codec to run them on:
    RFC 8949's definite lengths in their shortest form. *)
From Stdlib Require Import Strings.String Strings.Byte.
From S2P Require Export Cbor EndToEnd UriProps ClientWitness.

(** ** Heads *)

Definition head_of (major : N) (n : N) : list byte :=
  if (n <? 24)%N then [byte_of (major * 32 + n)]
  else if (n <? 256)%N then byte_of (major * 32 + 24) :: be_bytes 1 n
  else if (n <? 65536)%N then byte_of (major * 32 + 25) :: be_bytes 2 n
  else if (n <? u32_limit)%N then byte_of (major * 32 + 26) :: be_bytes 4 n
  else byte_of (major * 32 + 27) :: be_bytes 8 n.

(** The [w] bytes of an argument. *)
Definition argument (w : nat) (rest : list byte) : option (N * list byte) :=
  if (length rest <? w)%nat then None else Some (be_value (take w rest), drop w rest).

(** The major type and the argument of a head, [None] for an indefinite
    length. *)
Definition read_head (bs : list byte) : option (N * option N * list byte) :=
  match bs with
  | [] => None
  | b :: rest =>
      let major := (byte_val b / 32)%N in
      let info := (byte_val b mod 32)%N in
      let with_arg w := '(n, rest) ← argument w rest; Some (major, Some n, rest) in
      if (info <? 24)%N then Some (major, Some info, rest)
      else if (info =? 24)%N then with_arg 1%nat
      else if (info =? 25)%N then with_arg 2%nat
      else if (info =? 26)%N then with_arg 4%nat
      else if (info =? 27)%N then with_arg 8%nat
      else if (info =? 31)%N then Some (major, None, rest)
      else None
  end.

Lemma argument_be w n rest :
  (n < 256 ^ N.of_nat w)%N → argument w (be_bytes w n ++ rest) = Some (n, rest).
Proof.
  intros Hn. unfold argument. rewrite (proj2 (Nat.ltb_ge _ _)) by (rewrite length_app, length_be_bytes; lia).
  rewrite take_app_length', drop_app_length' by (by rewrite length_be_bytes).
  by rewrite be_value_bytes_small.
Qed.

Lemma head_byte major i : (major < 8)%N → (i < 32)%N →
  (byte_val (byte_of (major * 32 + i)) / 32 = major ∧ byte_val (byte_of (major * 32 + i)) mod 32 = i)%N.
Proof.
  intros Hm Hi. rewrite byte_val_of, N.mod_small by lia. split.
  - rewrite N.div_add_l by lia. rewrite N.div_small by lia. lia.
  - rewrite N.add_comm, N.Div0.mod_add. by apply N.mod_small.
Qed.

Lemma read_head_of major n rest :
  (major < 8)%N → (n < u64_limit)%N → read_head (head_of major n ++ rest) = Some (major, Some n, rest).
Proof.
  intros Hm Hn. unfold head_of.
  destruct (N.ltb_spec n 24) as [H1|H1]; [|destruct (N.ltb_spec n 256) as [H2|H2];
    [|destruct (N.ltb_spec n 65536) as [H3|H3]; [|destruct (N.ltb_spec n u32_limit) as [H4|H4]]]];
    cbn [app]; unfold read_head.
  - destruct (head_byte major n Hm ltac:(lia)) as [-> ->]. by rewrite (proj2 (N.ltb_lt _ _)).
  - destruct (head_byte major 24 Hm ltac:(lia)) as [-> ->]. cbn -[be_bytes]. by rewrite argument_be.
  - destruct (head_byte major 25 Hm ltac:(lia)) as [-> ->]. cbn -[be_bytes]. by rewrite argument_be.
  - destruct (head_byte major 26 Hm ltac:(lia)) as [-> ->]. cbn -[be_bytes]. by rewrite argument_be.
  - destruct (head_byte major 27 Hm ltac:(lia)) as [-> ->]. cbn -[be_bytes]. by rewrite argument_be.
Qed.

Lemma argument_prefix w rest n rest' x :
  argument w rest = Some (n, rest') → argument w (rest ++ x) = Some (n, rest' ++ x).
Proof.
  unfold argument. destruct (Nat.ltb_spec (length rest) w) as [|Hl]; [done|]. intros [= <- <-].
  rewrite (proj2 (Nat.ltb_ge _ _)) by (rewrite length_app; lia).
  by rewrite take_app_le, drop_app_le by lia.
Qed.

Lemma read_head_prefix bs m o rest x :
  read_head bs = Some (m, o, rest) → read_head (bs ++ x) = Some (m, o, rest ++ x).
Proof.
  destruct bs as [|b bs]; [done|]. cbn [app]. unfold read_head.
  assert (Ha : ∀ w, ('(n, r) ← argument w bs; Some ((byte_val b / 32)%N, Some n, r)) = Some (m, o, rest) →
    ('(n, r) ← argument w (bs ++ x); Some ((byte_val b / 32)%N, Some n, r)) = Some (m, o, rest ++ x)).
  { intros w. destruct (argument w bs) as [[n r]|] eqn:E; [|done]. simpl. intros [= <- <- <-].
    by rewrite (argument_prefix _ _ _ _ x E). }
  repeat (case_match; [first [by intros [= <- <- <-]|apply Ha]|]); done.
Qed.

(** ** Items *)

Definition bad {A} : Result A rstring := Err (lit "unexpected item").

Definition read_uint (limit : N) (bs : list byte) : Result (N * list byte) rstring :=
  match read_head bs with
  | Some (0%N, Some n, rest) => if (n <? limit)%N then Ok (n, rest) else bad
  | _ => bad
  end.

Definition read_length (major : N) (bs : list byte) : Result (option N * list byte) rstring :=
  match read_head bs with
  | Some (m, o, rest) => if (m =? major)%N then Ok (o, rest) else bad
  | None => bad
  end.

Definition read_content (major : N) (bs : list byte) : Result (list byte * list byte) rstring :=
  match read_head bs with
  | Some (m, Some n, rest) =>
      if (m =? major)%N && (N.to_nat n <=? length rest)%nat
      then Ok (take (N.to_nat n) rest, drop (N.to_nat n) rest) else bad
  | _ => bad
  end.

Definition read_simple {A} (f : byte → option A) (bs : list byte) : Result (A * list byte) rstring :=
  match bs with
  | b :: rest => match f b with Some a => Ok (a, rest) | None => bad end
  | [] => bad
  end.

#[export] Instance toy_cbor : Cbor := {|
  cbor_u8 := read_uint 256; cbor_u16 := read_uint 65536; cbor_u32 := read_uint u32_limit;
  cbor_u64 := read_uint u64_limit;
  cbor_bool := read_simple (λ b, match b with xf4 => Some false | xf5 => Some true | _ => None end);
  cbor_null := read_simple (λ b, match b with xf6 => Some tt | _ => None end);
  cbor_str bs := match read_content 3 bs with
    | Ok (s, rest) => match from_utf8 s with Some s => Ok (s, rest) | None => bad end
    | Err e => Err e end;
  cbor_bytes := read_content 2; cbor_map := read_length 5; cbor_array := read_length 4;
  put_u8 := head_of 0; put_u32 := head_of 0; put_u64 := head_of 0;
  put_bool b := [if b then xf5 else xf4];
  put_str s := head_of 3 (str_len s) ++ utf8 s;
  put_bytes bs := head_of 2 (N.of_nat (length bs)) ++ bs;
  put_map := head_of 5; put_array := head_of 4;
|}.

Lemma read_uint_head limit n rest :
  (n < limit)%N → (limit <= u64_limit)%N → read_uint limit (head_of 0 n ++ rest) = Ok (n, rest).
Proof.
  intros Hn Hl. unfold read_uint. rewrite read_head_of by lia. by rewrite (proj2 (N.ltb_lt _ _)).
Qed.

Lemma read_uint_range limit bs n rest : read_uint limit bs = Ok (n, rest) → (n < limit)%N.
Proof.
  unfold read_uint. destruct (read_head bs) as [[[[|m] [k|]] r]|]; try done.
  destruct (N.ltb_spec k limit); [|done]. by intros [= <- _].
Qed.

Lemma read_uint_prefix limit : prefix_read (read_uint limit).
Proof.
  intros bs n rest x. unfold read_uint. destruct (read_head bs) as [[[m o] r]|] eqn:E; [|done].
  rewrite (read_head_prefix _ _ _ _ x E). destruct m as [|m]; [|done]. destruct o as [k|]; [|done].
  destruct (k <? limit)%N; [|done]. by intros [= <- <-].
Qed.

Lemma read_length_prefix major : prefix_read (read_length major).
Proof.
  intros bs n rest x. unfold read_length. destruct (read_head bs) as [[[m o] r]|] eqn:E; [|done].
  rewrite (read_head_prefix _ _ _ _ x E). destruct (m =? major)%N; [|done]. by intros [= <- <-].
Qed.

Lemma read_content_prefix major : prefix_read (read_content major).
Proof.
  intros bs a rest x. unfold read_content. destruct (read_head bs) as [[[m [n|]] r]|] eqn:E; try done.
  rewrite (read_head_prefix _ _ _ _ x E). destruct (m =? major)%N; [|done]. cbn [andb].
  destruct (Nat.leb_spec (N.to_nat n) (length r)) as [Hl|]; [|done]. intros [= <- <-].
  rewrite (proj2 (Nat.leb_le _ _)) by (rewrite length_app; lia).
  by rewrite take_app_le, drop_app_le by lia.
Qed.

Lemma read_content_put major bs rest :
  (major < 8)%N → (N.of_nat (length bs) < u64_limit)%N →
  read_content major ((head_of major (N.of_nat (length bs)) ++ bs) ++ rest) = Ok (bs, rest).
Proof.
  intros Hm Hl. unfold read_content. rewrite <-app_assoc, read_head_of by done.
  rewrite N.eqb_refl, Nat2N.id. rewrite (proj2 (Nat.leb_le _ _)) by (rewrite length_app; lia).
  cbn [andb]. by rewrite take_app_length, drop_app_length.
Qed.

Lemma read_simple_prefix {A} (f : byte → option A) : prefix_read (read_simple f).
Proof.
  intros [|b bs] a rest x; [done|]. simpl. destruct (f b); [|done]. by intros [= <- <-].
Qed.

(** Decoded text is made of scalar values. *)
Lemma scalars_cons (c : N) (o : option (list N)) s :
  (∀ s', o = Some s' → scalars s') → is_scalar c = true → cons c <$> o = Some s → scalars s.
Proof. intros Ho Hc. destruct o as [s'|]; [|done]. intros [= <-]. constructor; [done|by apply Ho]. Qed.

Lemma from_utf8_scalars bs s : from_utf8 bs = Some s → scalars s.
Proof.
  assert (H : ∀ n bs s, length bs <= n → from_utf8 bs = Some s → scalars s);
    [|by apply (H (length bs))].
  clear bs s. induction n as [|n IH]; intros [|b0 t0] s Hl; try (simpl in *; lia); try (intros [= <-]; constructor).
  cbn [from_utf8]. pose proof (byte_val_lt b0). destruct (N.ltb_spec (byte_val b0) 0x80).
  { eapply scalars_cons; [intros; eapply IH; [|done]; simpl in *; lia|]. apply is_scalar_spec. lia. }
  destruct t0 as [|b1 t1]; [done|]. pose proof (byte_val_lt b1).
  destruct (in_range 0xC2 0xDF (byte_val b0)) eqn:E2.
  { apply in_range_true in E2. destruct (is_cont (byte_val b1)) eqn:E1; [|done]. apply in_range_true in E1.
    eapply scalars_cons; [intros; eapply IH; [|done]; simpl in *; lia|]. apply is_scalar_spec. lia. }
  destruct t1 as [|b2 t2]; [done|]. destruct (in_range 0xE0 0xEF (byte_val b0)) eqn:E3.
  { apply in_range_true in E3. destruct (second3 _ _ && is_cont (byte_val b2)) eqn:E1; [|done].
    apply andb_true_iff in E1 as [Es Ec%in_range_true].
    eapply scalars_cons; [intros; eapply IH; [|done]; simpl in *; lia|]. apply is_scalar_spec.
    unfold second3 in Es. destruct (N.eqb_spec (byte_val b0) 0xE0);
      [|destruct (N.eqb_spec (byte_val b0) 0xED)]; apply in_range_true in Es; lia. }
  destruct t2 as [|b3 t3]; [done|]. destruct (in_range 0xF0 0xF4 (byte_val b0)) eqn:E4; [|done].
  apply in_range_true in E4.
  destruct (second4 _ _ && is_cont (byte_val b2) && is_cont (byte_val b3)) eqn:E1; [|done].
  rewrite !andb_true_iff in E1. destruct E1 as [[Es Ec%in_range_true] Ed%in_range_true].
  eapply scalars_cons; [intros; eapply IH; [|done]; simpl in *; lia|]. apply is_scalar_spec.
  unfold second4 in Es. destruct (N.eqb_spec (byte_val b0) 0xF0);
    [|destruct (N.eqb_spec (byte_val b0) 0xF4)]; apply in_range_true in Es; lia.
Qed.

#[export] Instance toy_cbor_laws : CborLaws.
Proof.
  constructor.
  - intros. by apply read_uint_head.
  - intros. by apply read_uint_head.
  - intros. by apply read_uint_head.
  - intros. apply read_uint_head; [unfold u64_limit; lia|done].
  - by intros [] rest.
  - intros s rest Hs Hl. cbn [cbor_str put_str toy_cbor]. unfold str_len in *.
    rewrite read_content_put by done. by rewrite from_utf8_utf8.
  - intros. by apply read_content_put.
  - intros. simpl. unfold read_length. by rewrite read_head_of.
  - intros. simpl. unfold read_length. by rewrite read_head_of.
  - intros bs n rest. apply read_uint_range.
  - intros bs n rest. apply read_uint_range.
  - intros bs n rest. apply read_uint_range.
  - intros bs s rest. simpl. destruct (read_content 3 bs) as [[c r]|]; [|done].
    destruct (from_utf8 c) as [s'|] eqn:E; [|done]. intros [= <- _]. by eapply from_utf8_scalars.
  - apply read_uint_prefix.
  - apply read_uint_prefix.
  - apply read_uint_prefix.
  - apply read_simple_prefix.
  - intros bs s rest x. simpl. destruct (read_content 3 bs) as [[c r]|] eqn:E; [|done].
    rewrite (read_content_prefix _ _ _ _ x E). destruct (from_utf8 c); [|done]. by intros [= <- <-].
  - apply read_content_prefix.
  - apply read_length_prefix.
  - apply read_length_prefix.
Qed.

(** * Messages and connections *)

(** The host's broadcast, as it arrives. *)
Definition policy_frame : Frame := frame_of (policy_message 1 false).

Lemma policy_transmissible : transmissible (policy_message 1 false).
Proof. repeat split; vm_compute; reflexivity. Qed.

Lemma policy_decodes : Message_decode policy_frame Limits_default = Ok (policy_message 1 false).
Proof. vm_compute. reflexivity. Qed.

Lemma decoded_message_ok_witness :
  message_ok (policy_message 1 false) ∧ MT_JoinPolicyChanged = frame_type policy_frame.
Proof. exact (decoded_message_ok policy_frame Limits_default _ policy_decodes).
Defined.

Lemma payload_is_one_item_witness :
  Message_decode {| frame_type := MT_JoinPolicyChanged; payload := payload policy_frame ++ [x00] |}
    Limits_default = Err (PE_Cbor SE_TrailingData).
Proof. by apply (payload_is_one_item policy_frame Limits_default _ [x00] policy_decodes).
Defined.

(** A tick and a broadcast, written and read in pieces of other sizes. *)
Definition writes : list ConnEvent :=
  [{| ev_input := CN_Tick; ev_writes := true; ev_takes := None |};
   {| ev_input := CN_Outbound (Some (policy_message 1 false)); ev_writes := true; ev_takes := None |}].

Definition pieces : list (list byte) :=
  let w := cs_written (conn_task Limits_default writes) in [take 9 w; drop 9 w].

Lemma transport_faithful_witness :
  cs_inbound (conn_task Limits_default (read_event <$> pieces))
    = [Some M_Keepalive; Some (policy_message 1 false)].
Proof.
  rewrite (transport_faithful writes pieces (FrameDecoder_new Limits_default)); [reflexivity| | | | |].
  - repeat constructor; by eexists.
  - repeat constructor; try done; apply policy_transmissible.
  - vm_compute. reflexivity.
  - vm_compute. reflexivity.
  - apply (bool_decide_unpack _). vm_compute. exact I.
Defined.

(** A keepalive with a body, after one without. *)
Definition bad_bytes : list byte :=
  match Frame_encode (frame_of M_Keepalive) Limits_default,
        Frame_encode {| frame_type := MT_JoinPolicyChanged; payload := [x00] |} Limits_default with
  | Ok a, Ok b => a ++ b
  | _, _ => []
  end.

Lemma violation_ends_connection_witness :
  cs_inbound (conn_task Limits_default [read_event bad_bytes; read_event bad_bytes])
    = [Some M_Keepalive; Some violation; None].
Proof.
  set (bad := {| frame_type := MT_JoinPolicyChanged; payload := [x00] |}).
  assert (He : is_ok (Message_decode bad Limits_default) = false) by (vm_compute; reflexivity).
  destruct (Message_decode bad Limits_default) as [|e] eqn:E; [done|].
  unfold conn_task.
  rewrite (violation_ends_connection Limits_default [frame_of M_Keepalive] bad [] [M_Keepalive] e
    bad_bytes _ (FrameDecoder_new Limits_default)); [reflexivity|reflexivity|reflexivity|
    vm_compute; discriminate|vm_compute; reflexivity| |exact E].
  repeat constructor.
Defined.

Lemma chat_on_the_wire_witness :
  ∃ env s1, send_chat alice (lit "hi") (client 1, 0%nat) = (Done (M_ChatMessage env), s1).
Proof.
  assert (Hr : session_in_range (client 1)).
  { split; [done|]. split; [done|]. by exists 3%N, (key_of 10). }
  assert (Ht : chat_text_ok (lit "hi")).
  { split; [done|]. split; [by repeat constructor|vm_compute; reflexivity]. }
  destruct (chat_on_the_wire alice (lit "hi") (client 1) 0 toy_total Hr Ht) as (env & s1 & Hs & _).
  by exists env, s1.
Defined.

(** * Invitations *)

(** Hexadecimal in place of base64, and a digest of the one address below. *)
Definition hex_value (c : N) : option N :=
  if in_range 48 57 c then Some (c - 48)%N
  else if in_range 97 102 c then Some (c - 87)%N else None.

Fixpoint hex_decode (s : rstring) : option (list byte) :=
  match s with
  | [] => Some []
  | a :: b :: s =>
      x ← hex_value a; y ← hex_value b; bs ← hex_decode s; Some (byte_of (x * 16 + y) :: bs)
  | [_] => None
  end.

#[export] Instance toy_uri : UriPrimitives := {|
  base64_encode bs := flat_map (λ b, hex2 (byte_val b)) bs;
  base64_decode := hex_decode;
  sha3_256 bs := pad 32 (map byte_of [205; 14]%N ++ bs);
|}.

Lemma hex_value_digit d : (d < 16)%N → hex_value (hex_digit d) = Some d ∧ is_base64url (hex_digit d) = true.
Proof.
  intros Hd. assert (H : Forall (λ d, hex_value (hex_digit d) = Some d ∧ is_base64url (hex_digit d) = true)
    (N.of_nat <$> seq 0 16)) by (apply (bool_decide_unpack _); vm_compute; exact I).
  rewrite list.Forall_forall in H. apply H, list_elem_of_fmap. exists (N.to_nat d). split; [lia|].
  apply elem_of_seq. lia.
Qed.

#[export] Instance toy_uri_laws : UriPrimitiveLaws.
Proof.
  constructor.
  - intros bs. simpl. induction bs as [|b bs IH]; [done|]. cbn [flat_map hex2 app hex_decode].
    pose proof (byte_val_lt b).
    destruct (hex_value_digit (byte_val b / 16)) as [-> _]; [apply N.Div0.div_lt_upper_bound; lia|].
    destruct (hex_value_digit (byte_val b mod 16)) as [-> _]; [by apply N.mod_lt|]. csimpl. rewrite IH. csimpl.
    rewrite (N.mul_comm _ 16), <-N.div_mod by done. by rewrite byte_of_val.
  - intros bs. simpl. induction bs as [|b bs IH]; [done|]. cbn [flat_map hex2 app]. pose proof (byte_val_lt b).
    constructor; [apply hex_value_digit, N.Div0.div_lt_upper_bound; lia|].
    constructor; [by apply hex_value_digit, N.mod_lt|done].
  - by intros [].
Qed.

Definition onion : rstring := lit "aaaaaaaaaaaaaaaaaaaaaaaaaaaaaaaaaaaaaaaaaaaaaaaaaaam2dqd.onion".

Definition onion_invitation : Invitation :=
  {| inv_onion_address := onion; inv_port := 443; inv_token := take 16 toy_token |}.

Lemma invitation_roundtrip_witness :
  parse_invitation (to_uri_string onion_invitation) = Ok onion_invitation.
Proof.
  assert (H : Invitation_new onion 443 (take 16 toy_token) = Ok onion_invitation) by (vm_compute; reflexivity).
  exact (invitation_roundtrip onion 443 (take 16 toy_token) onion_invitation eq_refl H).
Defined.

Lemma parsed_invitation_valid_witness :
  Invitation_new onion 443 (take 16 toy_token) = Ok onion_invitation ∧ (0 < 443 < 65536)%N.
Proof.
  assert (H : parse_invitation (to_uri_string onion_invitation) = Ok onion_invitation) by (vm_compute; reflexivity).
  exact (parsed_invitation_valid (to_uri_string onion_invitation) onion_invitation H).
Defined.

(** * A connection's queue *)

Definition outbound_event : ConnEvent := {| ev_input := CN_Outbound None; ev_writes := true; ev_takes := None |}.
Definition tick_event : ConnEvent := {| ev_input := CN_Tick; ev_writes := true; ev_takes := None |}.

Definition queued_policy (open : bool) : PeerConnection → PeerConnection := λ p,
  (PeerConnection_send (policy_message 1 open) p).2.

Definition two_queued : PeerConnection :=
  queued_policy false (queued_policy true (PeerConnection_spawn Limits_default)).

Definition one_taken : option (ConnEvent * PeerConnection) := peer_task Limits_default outbound_event two_queued.

Lemma one_taken_runs : is_Some (p ← one_taken; peer_task Limits_default tick_event p.2).
Proof. vm_compute. by eexists. Qed.

(** Two messages queued, one written with a keepalive after it, and the
    handle dropped: the other one is lost. *)
Lemma peer_queue_in_order_witness :
  ∃ evs p p', peer_history Limits_default [policy_message 1 true; policy_message 1 false] evs p ∧
    omap sends_message evs = [policy_message 1 true; M_Keepalive] ∧
    encode_all (frame_of <$> omap sends_message evs) Limits_default = Ok (cs_written (conn_task Limits_default evs)) ∧
    peer_history Limits_default [policy_message 1 true; policy_message 1 false] evs p' ∧
    pc_task p' = None ∧ pc_outbound p' = [policy_message 1 false].
Proof.
  pose proof (ph_spawn Limits_default) as H0.
  pose proof (ph_sent _ _ _ _ (policy_message 1 true) _ H0 eq_refl eq_refl) as H1.
  pose proof (ph_sent _ _ _ _ (policy_message 1 false) _ H1 eq_refl eq_refl) as H2. cbn [app] in H2. fold two_queued in H2.
  destruct one_taken as [[e1 p1]|] eqn:E1; [|by destruct one_taken_runs as [? Hr]; rewrite E1 in Hr].
  pose proof (ph_task _ _ _ _ _ _ _ H2 E1) as H3.
  destruct (peer_task Limits_default tick_event p1) as [[e2 p2]|] eqn:E2;
    [|by destruct one_taken_runs as [? Hr]; rewrite E1 in Hr; cbn in Hr; rewrite E2 in Hr].
  pose proof (ph_task _ _ _ _ _ _ _ H3 E2) as H4.
  assert (Hs : (p ← one_taken; q ← peer_task Limits_default tick_event p.2;
    Some (omap sends_message ([] ++ [p.1] ++ [q.1]), pc_outbound q.2, match pc_task q.2 with Some _ => true | None => false end))
    = Some ([policy_message 1 true; M_Keepalive], [policy_message 1 false], true)) by (vm_compute; reflexivity).
  rewrite E1 in Hs. cbn [mbind option_bind snd] in Hs. rewrite E2 in Hs. cbn [mbind option_bind fst snd] in Hs.
  assert (Hsent : omap sends_message ([] ++ [e1] ++ [e2]) = [policy_message 1 true; M_Keepalive])
    by exact (f_equal (from_option (λ x, x.1.1) []) Hs).
  assert (Hout : pc_outbound p2 = [policy_message 1 false]) by exact (f_equal (from_option (λ x, x.1.2) []) Hs).
  assert (Htask : match pc_task p2 with Some _ => true | None => false end = true) by exact (f_equal (from_option snd false) Hs).
  assert (Hsome : is_Some (pc_task p2)) by (destruct (pc_task p2); [by eexists|discriminate Htask]).
  destruct (peer_queue_in_order _ _ _ _ H4) as (_ & _ & Hw & _ & p3 & H5 & Ho & Ht).
  destruct (Hw Hsome) as [Henc _]. exists ([] ++ [e1] ++ [e2]), p2, p3. rewrite Hout in Ho.
  exact (conj H4 (conj Hsent (conj Henc (conj H5 (conj Ht Ho))))).
Defined.

(** Two connections' messages: the second connection's is read first. *)
Lemma inbound_in_order_witness :
  ∃ n, inbound_run [(1%N, Some M_Keepalive); (2%N, None)] [(2%N, None)] n ∧
    waiting_of 1 n = [Some M_Keepalive] ∧ waiting_of 2 n = [].
Proof.
  pose proof (ir_step _ _ _ (IS_Registered 1) _ _ ir_new eq_refl) as R1.
  pose proof (ir_step _ _ _ (IS_Registered 2) _ _ R1 eq_refl) as R2.
  pose proof (ir_step _ _ _ (IS_Arrives 1 (Some M_Keepalive)) _ _ R2 eq_refl) as R3.
  pose proof (ir_step _ _ _ (IS_Arrives 2 None) _ _ R3 eq_refl) as R4.
  pose proof (ir_step _ _ _ (IS_Takes 2) _ _ R4 eq_refl) as R5.
  pose proof (ir_step _ _ _ (IS_Forwards 2) _ _ R5 eq_refl) as R6.
  pose proof (ir_step _ _ _ IS_Read _ _ R6 eq_refl) as Hrun.
  match type of Hrun with inbound_run _ _ ?x => revert Hrun; generalize x; intros n Hrun; exists n end.
  destruct (inbound_in_order _ _ _ Hrun) as (Ho & _). pose proof (Ho 1%N) as H1. pose proof (Ho 2%N) as H2.
  split; [exact Hrun|]. split; [exact H1|]. by injection H2.
Defined.
