(* ===== verification/IoWitness.v ===== *)
(** The theorems on commands, the Tor control client, the SOCKS handshake,
    the listener, the screens and their drawing, at concrete inputs, keys and
    lines. *)
From Stdlib Require Import Strings.String Strings.Byte Sorting.Sorted.
From Stdlib Require Import Strings.String.
From S2P Require Export Commands TorProps Socks HostNet Input ScreenProps RenderProps.

Lemma command_roundtrip_witness :
  parse_line (lit "/kick bob the builder") = Ok (PL_Command (SC_Kick (KT_Nickname (lit "bob the builder")))).
Proof.
  assert (H : command_ok (SC_Kick (KT_Nickname (lit "bob the builder")))) by (repeat split; done).
  exact (command_roundtrip _ H).
Defined.

Lemma parsed_command_ok_witness : (3600 <= MAX_MESSAGE_TIMEOUT_SECONDS)%N.
Proof.
  assert (H : parse_line (lit "/timeout 3600") = Ok (PL_Command (SC_Timeout (Some 3600%N)))) by (vm_compute; reflexivity).
  exact (proj2 (parsed_command_ok _ _ H)).
Defined.

(** Two commands, one of them answered by a data block with a line that
    starts with a period, the stream cut in the middle of a line. *)
Definition block_reply : WireReply := {|
  w_code := 250; w_block := Some (lit "info/names=", [lit "version"; lit ".hidden"]); w_lines := [];
  w_last := lit "OK" |}.

Definition version_reply : WireReply := {|
  w_code := 250; w_block := None; w_lines := [lit "version=0.4"]; w_last := lit "OK" |}.

Definition two_replies : list byte := flat_map wire_bytes [block_reply; version_reply].

Lemma wire_ok_check w :
  (w_code w <? 1000)%N && forallb (λ l, forallb is_scalar l && negb (existsb (λ c, (c =? 10)%N || (c =? 13)%N) l)
    && (str_len l <? MAX_CONTROL_LINE_BYTES)%N) (wire_lines w)
    && (N.of_nat (length (re_lines (reply_of w))) <=? MAX_REPLY_LINES)%N
    && (lines_bytes (re_lines (reply_of w)) <=? MAX_REPLY_BYTES)%N = true → wire_ok w.
Proof.
  rewrite !andb_true_iff, N.ltb_lt, !N.leb_le. intros [[[H1 H2] H3] H4]. constructor; try done.
  apply list.Forall_forall. intros l Hl%list_elem_of_In. rewrite forallb_forall in H2. specialize (H2 l Hl).
  rewrite !andb_true_iff, negb_true_iff, N.ltb_lt in H2. destruct H2 as [[Hs Hn] Hlen].
  assert (Hno : ∀ c, c ∈ l → c ≠ 10%N ∧ c ≠ 13%N).
  { intros c Hc%list_elem_of_In. rewrite <-!N.eqb_neq, <-orb_false_iff. destruct (_ || _) eqn:E; [|done].
    rewrite <-Hn. symmetry. apply existsb_exists. by exists c. }
  split_and!; [|by intros [H _]%Hno|by intros [_ H]%Hno|done].
  apply list.Forall_forall. intros c Hc%list_elem_of_In. rewrite forallb_forall in Hs. by apply Hs.
Qed.

Lemma commands_in_order_witness :
  (run_commands [lit "GETINFO info/names"; lit "GETINFO version"] ControlClient_connected
    (brings [take 20 two_replies; drop 20 two_replies])).1
    = [Ok (reply_of block_reply); Ok (reply_of version_reply)].
Proof.
  refine (proj1 (commands_in_order _ [block_reply; version_reply] _ _ _ _)).
  - constructor; [split; [reflexivity|apply wire_ok_check; vm_compute; reflexivity]|].
    constructor; [split; [reflexivity|apply wire_ok_check; vm_compute; reflexivity]|constructor].
  - apply (bool_decide_unpack _). vm_compute. exact I.
  - vm_compute. reflexivity.
Defined.

Lemma timeout_poisons_witness :
  (command (lit "GETINFO version") WR_Done (command (lit "QUIT") WR_Pending ControlClient_connected []).1.2 []).1.1
    = Err TC_Desynchronized.
Proof.
  rewrite (timeout_poisons (lit "QUIT") WR_Pending ControlClient_connected []
    (command (lit "QUIT") WR_Pending ControlClient_connected []).1.2 [] eq_refl). reflexivity.
Defined.

Lemma line_reader_bounded_witness :
  reader_bounded (next_line (LineReader_new 4096) [RD_Bytes two_replies]).1.2.
Proof.
  refine (proj1 (line_reader_bounded (LineReader_new 4096) [RD_Bytes two_replies] _ _)).
  - repeat split; simpl; lia.
  - constructor; [|constructor]. apply (bool_decide_unpack _). vm_compute. exact I.
Defined.

Lemma socks_transparent_witness :
  (socks_handshake (lit "host.onion") 443 (true, true)
    (proxy_bytes x00 (BA_Domain [x41; x42]) [x01; x02] 0 ++ [x61])).1 = Ok [x61].
Proof.
  pose proof (socks_transparent (lit "host.onion") 443 x00 (BA_Domain [x41; x42]) [x01; x02] 0 [x61]) as H.
  destruct (socks_handshake _ _ _ _) as [result written].
  apply H; [vm_compute; discriminate|done|simpl; lia|done|done].
Defined.

Definition v4_answer : list byte := proxy_bytes x00 (BA_V4 [x01; x02; x03; x04]) [x01; x02] 0 ++ [x61].

Lemma socks_needs_success_witness :
  ∃ reserved address_type reply, v4_answer = map byte_of [0x05; 0x00]%N
    ++ [byte_of 5; byte_of 0; reserved; byte_of address_type] ++ reply ++ [x61]
  ∧ (address_type = 1 ∨ address_type = 3 ∨ address_type = 4)%N.
Proof. exact (socks_needs_success (lit "host.onion") 443 (true, true) v4_answer [x61] _ eq_refl). Defined.

(** Two clients within a budget of one: the second is taken after the first
    was admitted. *)
Definition admitted_run : list NetEvent :=
  [NE_Accepted; NE_Registered 1; NE_MarkAdmitted 1; NE_Accepted; NE_Registered 2].

Definition after (n : option (ConnectionId * HostNetwork)) : HostNetwork :=
  match n with Some (_, n) => n | None => HostNetwork_new end.

Definition first_client : HostNetwork := after (register_peer (net_accepted 1 HostNetwork_new)).
Definition second_client : HostNetwork := after (register_peer (net_accepted 1 (mark_admitted 1 first_client))).

Lemma admitted_run_ok : net_run 1 admitted_run second_client.
Proof.
  apply (run_step 1 [NE_Accepted; NE_Registered 1; NE_MarkAdmitted 1; NE_Accepted] (net_accepted 1 (mark_admitted 1 first_client)));
    [|by apply step_registered].
  apply (run_step 1 [NE_Accepted; NE_Registered 1; NE_MarkAdmitted 1] (mark_admitted 1 first_client)); [|by apply step_accepted].
  apply (run_step 1 [NE_Accepted; NE_Registered 1] first_client); [|apply step_mark].
  apply (run_step 1 [NE_Accepted] (net_accepted 1 HostNetwork_new)); [|by apply step_registered].
  apply (run_step 1 [] HostNetwork_new); [apply run_new|by apply step_accepted].
Qed.

Lemma listener_safe_witness :
  (pre_auth_connections second_client <= 1)%N ∧ StronglySorted N.lt [1; 2]%N.
Proof.
  destruct (listener_safe 1 admitted_run second_client admitted_run_ok) as (H1 & H2 & _).
  split; [exact H1|exact H2].
Defined.

Lemma secret_refines_witness :
  ∃ f, sf_edits [SE_Paste (lit "secret"); SE_Pop] (SecretField_new 256) = Some f ∧ sf_masked f = 5%nat.
Proof.
  destruct (secret_refines 256 [SE_Paste (lit "secret"); SE_Pop]) as (f & H & _ & Hm & _).
  { repeat constructor. }
  exists f. split; [exact H|exact Hm].
Defined.

Definition press (code : KeyCode) : KeyEvent := {| ke_code := code; ke_modifiers := KM_None |}.

(** A password, a confirmation with a slip, both again, a nickname. *)
Definition setup_keys : list KeyEvent :=
  press <$> (KC_Char <$> lit "secret") ++ [KC_Enter] ++ (KC_Char <$> lit "secrot") ++ [KC_Enter]
    ++ (KC_Char <$> lit "secret") ++ [KC_Enter] ++ (KC_Char <$> lit "hosts") ++ [KC_Backspace; KC_Enter].

Lemma host_form_refines_witness :
  form_keys setup_keys HostSetupModel_new
    = Some (AA_HostSetupSubmitted (utf8 (lit "secret")) (lit "host"), None).
Proof.
  assert (H : Forall key_ok setup_keys) by (repeat constructor).
  etrans; [exact (host_form_refines setup_keys H)|]. vm_compute. reflexivity.
Defined.

Definition at_second (n : N) : Clock := {| ck_instant := from_secs n; ck_system := Some n |}.

(** One line at second 1 and one at second 5, which live for ten. *)
Definition timed_ops : list (ViewOp * Clock) :=
  [(VO_SetTimeout (Some 10%N), at_second 0); (VO_System (lit "first"), at_second 1);
   (VO_System (lit "second"), at_second 5)].

(** A tick at second 12 removes the first. *)
Lemma lines_expire_on_time_witness :
  ∃ v, view_ops timed_ops (RoomView_new true (lit "host") (at_second 0)) = Some v ∧
    rb_lines (rv_messages (tick_message_timeout (at_second 12) v).2)
      = List.filter (alive 10 (from_secs 12)) (rb_lines (rv_messages v)).
Proof.
  destruct (view_ops timed_ops (RoomView_new true (lit "host") (at_second 0))) as [v|] eqn:E;
    [|exfalso; revert E; vm_compute; discriminate].
  exists v. split; [reflexivity|].
  assert (Hi : rv_message_timeout_interval <$> Some v = Some (Some 10%N)) by (rewrite <-E; vm_compute; reflexivity).
  injection Hi as Hi.
  pose proof (lines_expire_on_time true (lit "host") (at_second 0) timed_ops v (at_second 12) E ltac:(reflexivity)) as H.
  rewrite Hi in H. destruct (tick_message_timeout (at_second 12) v) as [removed v']. exact (proj1 (proj2 H)).
Defined.

(** * Drawing *)

(** A layout that gives every constraint the whole area inside the margin,
    and nothing where the margin does not fit; and the widths of
    Latin text and of what is above it. *)
#[local] Instance toy_layouts : Layouts := {| layout_split _ m cs area := replicate (length cs)
  (if ((rc_width area <? 2 * m) || (rc_height area <? 2 * m))%N
   then {| rc_x := 0; rc_y := 0; rc_width := 0; rc_height := 0 |}
   else {| rc_x := rc_x area + m; rc_y := rc_y area + m; rc_width := rc_width area - 2 * m; rc_height := rc_height area - 2 * m |}) |}.

#[local] Instance toy_layout_laws : LayoutLaws.
Proof.
  split; [intros; apply length_replicate|]. intros d cs [x y w h]. apply list.Forall_replicate. cbv [within]. cbn.
  rewrite !(proj2 (N.ltb_ge _ _)) by lia. cbn. lia.
Qed.

Definition toy_width (c : N) : option usize := if (c <? 32)%N then None else Some (if (c <? 0x1100)%N then 1 else 2)%N.

#[local] Instance toy_widths : Widths :=
  {| char_width := toy_width; str_width s := foldr (λ c n, default 0 (toy_width c) + n)%N 0%N s |}.

#[local] Instance toy_width_laws : WidthLaws.
Proof. split. intros c w. unfold char_width, toy_widths, toy_width. repeat case_match; intros [= <-]; lia. Qed.

(** A host's room: a chat line with an escape sequence in it, a pending
    request, and something typed. *)
Definition drawn_inputs : list (AppInput * Clock) :=
  [ (AI_EnterRoom true (lit "host"), at_second 0);
    (AI_View (VO_Chat (lit "bob") Cyan ([0x1B%N] ++ lit "[2J hello, a line that has to be wrapped")), at_second 5);
    (AI_View (VO_ShowRequests [{| rl_request_id := 3%N; rl_nickname := lit "eve"; rl_kind := RK_Timeout 30 |}]), at_second 6);
    (AI_Key (press (KC_Char 47)), at_second 7) ].

Lemma every_screen_is_drawn_witness :
  ∃ app scene, (uses_host_view <$> room_view app) = Some true ∧ length scene = 8%nat ∧
    draw (terminal_area 80 24) (at_second 9) app = Some scene ∧ scene_safe scene.
Proof.
  destruct (app_run drawn_inputs App_new) as [[actions app]|] eqn:E; [|exfalso; revert E; vm_compute; discriminate].
  destruct (every_screen_is_drawn drawn_inputs actions app 80 24 (at_second 9)) as (scene & Hd & Hs);
    [by repeat constructor|exact E|lia..|].
  assert (Ha : (λ r, (uses_host_view <$> room_view r.2, length <$> draw (terminal_area 80 24) (at_second 9) r.2)) <$> Some (actions, app)
    = Some (Some true, Some 8%nat)) by (rewrite <-E; vm_compute; reflexivity).
  cbn [fmap option_fmap option_map snd] in Ha. rewrite Hd in Ha. injection Ha as Hv Hl. exists app, scene. done.
Defined.

(** Bob's line, in a panel of twenty columns. *)
Lemma messages_are_shown_in_full_witness :
  ∃ view rows, length (rb_lines (rv_messages view)) = 3%nat ∧
    Forall2 (λ line rows, lines_chars rows = line_spec line ∧ Forall (λ row, line_cells row <= 20 - 2)%N rows)
      (List.filter (is_shown view) (rb_lines (rv_messages view))) rows.
Proof.
  destruct (app_run drawn_inputs App_new) as [[actions app]|] eqn:E; [|exfalso; revert E; vm_compute; discriminate].
  assert (Ha : (λ r, (λ v, length (rb_lines (rv_messages v))) <$> room_view r.2) <$> Some (actions, app) = Some (Some 3%nat))
    by (rewrite <-E; vm_compute; reflexivity).
  cbn [fmap option_fmap option_map snd] in Ha. destruct (room_view app) as [view|] eqn:Ev; [|discriminate Ha].
  injection Ha as Hl.
  destruct (messages_are_shown_in_full drawn_inputs actions app view (terminal_area 20 10)) as (rows & Hr & _);
    [by repeat constructor|exact E|exact Ev|cbn; lia|]. exists view, rows. split; [exact Hl|exact Hr].
Defined.
