(* ===== verification/DriverWitness.v ===== *)
(** The theorems on the host as a whole, on a join session, on Tor and on
    whole sessions, at concrete sessions: a host, and a client that connects,
    shows the token and the password, applies, and is accepted by what the
    host types; a Tor that is there, a user of its own and a control port
    that answers. *)
From Stdlib Require Import Strings.String Strings.Byte.
From S2P Require Export Queues Chatting ClientWitness WireWitness SessionsProps Program.

#[export] Instance toy_texts : ErrorTexts := {|
  room_error_text _ := lit "room error"; admission_error_text _ := lit "admission error";
  chat_error_text _ := lit "chat error"; crypto_error_text _ := lit "crypto error";
  message_debug _ := lit "message"
|}.

Definition noon (seconds : N) : Clock := {| ck_instant := seconds * 1000000000; ck_system := Some (43200 + seconds)%N |}.

Definition calm (seconds : N) : Env := {|
  env_now := noon seconds; env_queue := λ _, TS_Sent; env_clipboard := Ok tt |}.

Definition session_verifier : PasswordVerifier := {|
  pv_salt := zeros 16; pv_m_cost := ARGON2_M_COST; pv_t_cost := ARGON2_T_COST; pv_p_cost := ARGON2_P_COST;
  pv_derived_key := pad 32 (toy_password ++ zeros 16) |}.

Definition session_config : HostConfig := {|
  hg_session_id := key_of 0; hg_host_identity := host_id; hg_client_identity := host_member;
  hg_verifier := session_verifier; hg_onion_address := onion |}.

Definition start_session (app : App) : option (list RoomAction * System) :=
  match create Limits_default HOST_CONNECTION (lit "host") host_id host_member Timeouts_default 0 with
  | (Ok a, r) =>
      match spawn_started a r with
      | Some (Ok (task, initial)) =>
          match host_begin session_config (calm 0) initial (HostDriver_new session_config (calm 0) (lit "host") app, 100) with
          | (Done _, (d, r2)) =>
              Some (initial, {| sy_driver := d; sy_rng := r2; sy_running := true; sy_task := task;
                sy_events := hd_sent d; sy_batches := []; sy_history := []; sy_handled := [] |})
          | _ => None
          end
      | _ => None
      end
  | _ => None
  end.

Fixpoint run_system (inputs : list SystemInput) (s : System) : option System :=
  match inputs with
  | [] => Some s
  | i :: inputs => s ← system_step session_config i s; run_system inputs s
  end.

(** The client's messages. *)
Definition client_nonce : list byte := replicate 16 (byte_of 50).
Definition session_token : list byte := replicate 32 (byte_of 1).

Definition says (m : Message) : TurnInput := TU_Event (HE_Inbound (Some (1%N, Some m))).
Definition types (code : KeyCode) : TurnInput :=
  TU_Event (HE_Key {| ke_code := code; ke_modifiers := KM_None |}).
Definition turn (i : TurnInput) : SystemInput := SI_Turn (calm 1) false (noon 1) i.
Definition room_turn : SystemInput := SI_Room 1 1.

Definition hello : Message := M_ClientHello {| ch_version := 1; ch_features := 0; ch_client_nonce := client_nonce |}.
Definition verify : Message := M_TokenVerify {| tv_token := session_token |}.
Definition proof : Message := M_ChallengeProof {|
  cp_proof := expected_proof session_verifier (replicate 16 (byte_of 101)) client_nonce |}.
Definition form : Message := M_JoinRequest {|
  jm_nickname := lit "alice"; jm_introduction := None; jm_ed25519_pubkey := member_ed25519_pubkey alice;
  jm_x25519_pubkey := member_x25519_pubkey alice; jm_signature := pad 64 (member_ed25519_pubkey alice) |}.

Definition session_inputs : list SystemInput :=
  [room_turn;
   SI_Accepted; SI_Registered; turn (TU_Event (HE_Connected (Some 1%N))); room_turn;
   turn (says hello); turn (says verify); turn (says proof); room_turn;
   turn (says form); room_turn; turn TU_Batch; room_turn; turn TU_Batch]
  ++ (turn ∘ types ∘ KC_Char <$> lit "/accept 0") ++ [turn (types KC_Enter); room_turn].

Lemma session_runs : is_Some ('(_, s) ← start_session App_new; run_system session_inputs s).
Proof. vm_compute. by eexists. Qed.

(** Alice is in. *)
Definition session : System := is_Some_proj session_runs.

Lemma session_run : ('(_, s) ← start_session App_new; run_system session_inputs s) = Some session.
Proof. apply is_Some_proj_eq. Qed.

Lemma session_start : is_Some (start_session App_new).
Proof. vm_compute. by eexists. Qed.

Definition session_initial : list RoomAction := (is_Some_proj session_start).1.

Lemma start_session_started app initial s :
  start_session app = Some (initial, s) → system_started session_config initial s.
Proof.
  unfold start_session. destruct (create _ _ _ _ _ _ _) as [[a|e] r] eqn:Hc; [|done].
  assert (Hsid : key_of 0 = ra_session_id a).
  { revert Hc. vm_compute. by intros [= <- _]. }
  destruct (spawn_started a r) as [[[task acts]|e]|] eqn:Hs; [|done..].
  destruct (host_begin _ _ _ _) as [[[]|e|] [d r2]] eqn:Hb; [|done..]. intros [= <- <-].
  by eapply system_starts.
Qed.

Lemma run_system_reachable initial inputs s s' :
  system_reachable session_config initial s → run_system inputs s = Some s' → system_reachable session_config initial s'.
Proof.
  revert s. induction inputs as [|i inputs IH]; intros s Hs; cbn; [by intros [= <-]|].
  destruct (system_step session_config i s) as [s1|] eqn:E; [|done]. cbn. apply IH. by eapply sr_step.
Qed.

Lemma session_reachable : system_reachable session_config session_initial session.
Proof.
  pose proof session_run as Hrun.
  pose proof (is_Some_proj_eq _ session_start) as Hstart. unfold session_initial.
  destruct (is_Some_proj session_start) as [initial s0]. rewrite Hstart in Hrun. cbn [mbind option_bind] in Hrun.
  eapply run_system_reachable; [|exact Hrun]. apply sr_start. by eapply start_session_started.
Qed.

Lemma members_were_admitted_witness :
  ∃ m q, m ∈ table_members (ra_members (rt_actor (sy_task session))) ∧ connection m = 1%N ∧
    credentials session_config session_initial (sy_history session) 1 (application q) ∧
    app_nickname (application q) = lit "alice" ∧ host_accepted (sy_history session) (request_id q).
Proof.
  destruct (members_were_admitted session_config session_initial session session_reachable) as [_ H].
  set (ms := table_members _) in *.
  assert (Hm : (λ m, (connection m, is_host m, nickname m)) <$> ms !! 1 = Some (1%N, false, lit "alice"))
    by (vm_compute; reflexivity).
  destruct (ms !! 1) as [m|] eqn:E; [|discriminate]. apply list_elem_of_lookup_2 in E.
  assert (Hmc : connection m = 1%N) by exact (f_equal (from_option (λ x, x.1.1) 0%N) Hm).
  assert (Hmh : is_host m = false) by exact (f_equal (from_option (λ x, x.1.2) false) Hm).
  assert (Hmn : nickname m = lit "alice") by exact (f_equal (from_option snd []) Hm).
  destruct (H m E Hmh) as (q & Hq & Hc & Ha & _). exists m, q.
  rewrite Hmc in Hc. rewrite <-(aa_nickname _ _ Hq), Hmn. exact (conj E (conj Hmc (conj Hc (conj eq_refl Ha)))).
Defined.

(** A message in the wrong state. *)
Lemma inbound_is_confined_witness :
  ∃ d' r', host_inbound (calm 2) 1 (Some hello) (sy_driver session, 7) = (Done tt, (d', r')) ∧
    confined 1 (sy_driver session) d'.
Proof.
  assert (H : result_of (host_inbound (calm 2) 1 (Some hello) (sy_driver session, 7)) = Some tt) by (vm_compute; reflexivity).
  apply done_run in H. destruct ((host_inbound (calm 2) 1 (Some hello) (sy_driver session, 7)).2) as [d' r']. exists d', r'. split; [exact H|].
  exact (inbound_is_confined (calm 2) 1 (Some hello) (sy_driver session) 7 _ d' r' H ltac:(done)).
Defined.

(** An event that fails for good, of another connection than the host's. *)
Definition offends (ev : RoomEvent) (s : St) : bool :=
  match handle_event_at ev 9 s, task_event ev 9 9 s with
  | (Fail e, s1), (Some _, _) => negb (is_transient e) && negb (2 =? ra_host_connection s1.1)%N
  | _, _ => false
  end.

Lemma offends_runs ev s :
  offends ev s = true →
  ∃ e s1 batch s', handle_event_at ev 9 s = (Fail e, s1) ∧ task_event ev 9 9 s = (Some batch, s') ∧
    is_transient e = false ∧ (2 =? ra_host_connection s1.1)%N = false.
Proof.
  unfold offends. destruct (handle_event_at ev 9 s) as [[|e|] s1]; try done.
  destruct (task_event ev 9 9 s) as [[batch|] s']; [|done]. intros [H1 H2]%andb_prop.
  apply negb_true_iff in H1, H2. by eexists _, _, _, _.
Qed.

(** A chat message on Bob's connection that is not his. *)
Lemma offender_is_dropped_witness :
  ∃ e s1 batch s' cleanup,
    handle_event_at (EV_ChatReceived 2 MSG_CHAT no_envelope) 9 two_room = (Fail e, s1) ∧
    batch = [NotifyHost (HN_Error (room_error_text e));
        SendTo 2 (error_message (offence_code e) (room_error_text e)); CloseConnection 2] ++ cleanup ∧
    (forgotten s'.1 2 ∨ ∃ e', handle_event_at (EV_ConnectionLost 2) 9 s1 = (Fail e', s')).
Proof.
  assert (Hf : offends (EV_ChatReceived 2 MSG_CHAT no_envelope) two_room = true) by (vm_compute; reflexivity).
  destruct (offends_runs _ _ Hf) as (e & s1 & batch & s' & E1 & E2 & Ht & Hc).
  pose proof (offender_is_dropped Limits_default host_id host_member (λ _, True) (λ _, Logic.I) two_room
    (EV_ChatReceived 2 MSG_CHAT no_envelope) 9 9 e s1 batch s'
    (two_room_reachable _ (any_events _)) Logic.I E1 E2) as H.
  cbv zeta in H. rewrite Ht in H. cbn [offender] in H. rewrite Hc in H. destruct H as (cleanup & Hb & H).
  exists e, s1, batch, s', cleanup. exact (conj E1 (conj Hb H)).
Defined.

(** The replies of the host's flow to the participant's first messages. *)
Definition toy_token_message : Message := M_TokenVerify {| tv_token := toy_token |}.

Definition host_replies : option (Message * Message) :=
  match toy_host, toy_client with
  | (Ok h, r), (Ok c, _) =>
      match first_message c with
      | M_ClientHello hello =>
          match on_client_hello hello 80 (h, r) with
          | (Done m1, s) =>
              match on_message toy_token_message JP_Open s with
              | (Done (Some (HR_Message m2)), _) => Some (m1, m2)
              | _ => None
              end
          | _ => None
          end
      | _ => None
      end
  | _, _ => None
  end.

Lemma replies_run : is_Some host_replies.
Proof. vm_compute. by eexists. Qed.

Definition host_hello_reply : Message := (is_Some_proj replies_run).1.
Definition challenge_reply : Message := (is_Some_proj replies_run).2.

Definition toy_join_start : option (JoinDriver * Rng) :=
  match ClientAdmission_new invitation toy_password 0 with
  | (Ok c, r) =>
      match join_begin (calm 0) (JoinDriver_new (calm 0) c App_new, r) with
      | (Done _, s) => Some s
      | _ => None
      end
  | _ => None
  end.

Fixpoint run_join (evs : list JoinEvent) (s : JoinDriver * Rng) : option (JoinDriver * Rng) :=
  match evs with
  | [] => Some s
  | ev :: evs => match join_turn (calm 1) false ev s with (Done _, s') => run_join evs s' | _ => None end
  end.

Definition strike (code : KeyCode) : JoinEvent := JE_Key {| ke_code := code; ke_modifiers := KM_None |}.
Definition receive (m : Message) : JoinEvent := JE_Inbound (Some (Some m)).

(** The form, filled in with a nickname and no introduction. *)
Definition fill (name : rstring) : list JoinEvent := (strike ∘ KC_Char <$> name) ++ [strike KC_Enter; strike KC_Enter].

(** Submitted before the host has answered the hello. *)
Definition early : list JoinEvent := fill (lit "alice") ++ [receive host_hello_reply].

Definition accepted : list JoinEvent :=
  early ++ [receive challenge_reply; receive (M_JoinAccepted {| ja_member_id := 1 |})].

(** A name of 33 letters, typed after the challenge. *)
Definition long_name : rstring := replicate 33 97%N.
Definition before_long : list JoinEvent :=
  [receive host_hello_reply; receive challenge_reply] ++ removelast (fill long_name).

Lemma run_join_reachable evs s s' :
  join_reachable invitation toy_password s → run_join evs s = Some s' → join_reachable invitation toy_password s'.
Proof.
  revert s. induction evs as [|ev evs IH]; intros s Hs; cbn [run_join]; [by intros [= <-]|].
  destruct (join_turn (calm 1) false ev s) as [[[]|e|] s1] eqn:E; try done. apply IH. by eapply jr_turn.
Qed.

Lemma start_reachable s : toy_join_start = Some s → join_reachable invitation toy_password s.
Proof.
  unfold toy_join_start. destruct (ClientAdmission_new _ _ _) as [[c|] r] eqn:E1; [|done].
  destruct (join_begin _ _) as [[[]|e|] [d r']] eqn:E2; try done. intros [= <-]. by eapply jr_start.
Qed.

Lemma joins_reachable evs s :
  (s0 ← toy_join_start; run_join evs s0) = Some s → join_reachable invitation toy_password s.
Proof.
  destruct toy_join_start as [s0|] eqn:E; [|done]. cbn [mbind option_bind].
  apply run_join_reachable. by apply start_reachable.
Qed.

Lemma surjective_runs {A B} (P : A * B → Prop) s : P s → P (s.1, s.2).
Proof. by destruct s. Qed.

(** A session that runs: its state, kept folded. *)
Lemma accepted_runs : is_Some (s0 ← toy_join_start; run_join accepted s0).
Proof. vm_compute. by eexists. Qed.
Definition accepted_session : JoinDriver * Rng := is_Some_proj accepted_runs.

Lemma accepted_reachable : join_reachable invitation toy_password accepted_session.
Proof. apply (joins_reachable accepted). apply is_Some_proj_eq. Qed.

Lemma join_session_lifecycle_witness :
  Message_type <$> jd_sent accepted_session.1
    = [MT_ClientHello; MT_TokenVerify; MT_ChallengeProof; MT_JoinRequest] ∧
  is_Some (cl_chat (jd_admission accepted_session.1)) ∧
  ∃ n, screen_kind (jd_app accepted_session.1) = SK_Room false n ∧ applied_as n (jd_sent accepted_session.1).
Proof.
  assert (Hst : cl_state (jd_admission accepted_session.1) = CL_Admitted) by (vm_compute; reflexivity).
  destruct (join_session_lifecycle invitation toy_password accepted_session accepted_reachable) as (_ & Hc & Hs & _).
  rewrite Hst in Hs. split; [vm_compute; reflexivity|]. split; [exact (proj2 Hc Hst)|exact Hs].
Defined.

(** The host's broadcast that [who] has joined as [name]. *)
Definition joined_message (q id : u64) (name : rstring) (who : MemberIdentity) : Message :=
  M_MemberJoined {| mj_sequence := q; mj_epoch := 1; mj_member_id := id; mj_nickname := name;
    mj_ed25519_pubkey := member_ed25519_pubkey who;
    mj_signature := host_sign host_id (room_event_transcript 1 (key_of 9) q 1 MSG_MEMBER_JOINED
      (member_joined_body id name (member_ed25519_pubkey who))) |}.

(** Two more members, and one under a name that is taken. *)
Definition announced : list JoinEvent :=
  accepted ++ [receive (joined_message 1 2 (lit "bob") bob); receive (joined_message 2 3 (lit "carol") alice);
               receive (joined_message 3 4 (lit "bob") alice)].

Lemma announced_runs : is_Some (s0 ← toy_join_start; run_join announced s0).
Proof. vm_compute. by eexists. Qed.
Definition announced_session : JoinDriver * Rng := is_Some_proj announced_runs.

Lemma announced_reachable : join_reachable invitation toy_password announced_session.
Proof. apply (joins_reachable announced). apply is_Some_proj_eq. Qed.

Lemma client_view_preserved_witness :
  ∃ chat, cl_chat (jd_admission announced_session.1) = Some chat ∧
    mv_nickname <$> cs_members chat = [lit "bob"; lit "carol"] ∧ SessionProps.view_ok (cs_members chat).
Proof.
  assert (Hm : (fmap mv_nickname ∘ cs_members) <$> cl_chat (jd_admission announced_session.1) = Some [lit "bob"; lit "carol"])
    by (vm_compute; reflexivity).
  destruct (cl_chat (jd_admission announced_session.1)) as [chat|] eqn:Hc; [|discriminate Hm].
  exists chat. split; [reflexivity|]. split; [exact (f_equal (default []) Hm)|].
  exact (client_view_preserved invitation toy_password announced_session chat announced_reachable Hc).
Defined.

Lemma early_runs : is_Some (s0 ← toy_join_start; run_join early s0).
Proof. vm_compute. by eexists. Qed.
Definition early_session : JoinDriver * Rng := is_Some_proj early_runs.

Lemma early_reachable : join_reachable invitation toy_password early_session.
Proof. apply (joins_reachable early). apply is_Some_proj_eq. Qed.

Definition toy_challenge : PasswordChallenge :=
  match challenge_reply with
  | M_PasswordChallenge m => m
  | _ => {| pc_m_cost := 0; pc_t_cost := 0; pc_p_cost := 0; pc_salt := []; pc_challenge_nonce := [] |}
  end.

Lemma early_form_is_sent_witness :
  ∃ d' request,
    join_turn (calm 2) false (JE_Inbound (Some (Some (M_PasswordChallenge toy_challenge)))) (early_session.1, early_session.2)
      = (Done tt, (d', early_session.2)) ∧
    Message_type <$> drop 2 (jd_sent d') = [MT_ChallengeProof; MT_JoinRequest] ∧
    M_JoinRequest request ∈ jd_sent d'.
Proof.
  assert (Hlen : length (jd_sent early_session.1) = 2) by (vm_compute; reflexivity).
  destruct (early_form_is_sent invitation toy_password early_session.1 early_session.2 (calm 2) toy_challenge
    (lit "alice") None (pad 32 (toy_password ++ pc_salt toy_challenge))) as (d' & request & Hrun & Hsent & _).
  - exact (surjective_runs _ _ early_reachable).
  - intros n. reflexivity.
  - vm_compute. reflexivity.
  - vm_compute. reflexivity.
  - exists (lit "alice"). split; [vm_compute; reflexivity|]. split; [exists (lit "alice"); vm_compute; reflexivity|discriminate].
  - split; [vm_compute; reflexivity|split; vm_compute; reflexivity].
  - vm_compute. reflexivity.
  - exists d', request. split; [exact Hrun|]. rewrite Hsent. split.
    + rewrite drop_app_length'; [reflexivity|exact Hlen].
    + apply elem_of_app. right. right. left.
Defined.

Lemma long_runs : is_Some (s0 ← toy_join_start; run_join before_long s0).
Proof. vm_compute. by eexists. Qed.
Definition long_session : JoinDriver * Rng := is_Some_proj long_runs.

Lemma long_reachable : join_reachable invitation toy_password long_session.
Proof. apply (joins_reachable before_long). apply is_Some_proj_eq. Qed.

Definition enter_key : KeyEvent := {| ke_code := KC_Enter; ke_modifiers := KM_None |}.

(** What comes afterwards does not matter. *)
Definition stalled_events : list JoinEvent := [receive M_Keepalive; strike KC_Enter; strike KC_Esc].

Lemma fst_run {A B} (o : option (A * B)) a : fst <$> o = Some a → ∃ b, o = Some (a, b).
Proof. destruct o as [[a' b]|]; [|done]. intros [= ->]. by exists b. Qed.

Lemma submits :
  ∃ app, on_key enter_key (noon 1) (jd_app long_session.1) = Some (AA_JoinFormSubmitted long_name None, app).
Proof. apply fst_run. vm_compute. reflexivity. Qed.

Lemma run_join_runs evs s s' : run_join evs s = Some s' → join_runs s s'.
Proof.
  revert s. induction evs as [|ev evs IH]; intros s; cbn [run_join]; [intros [= <-]; constructor|].
  destruct (join_turn (calm 1) false ev s) as [[[]|e|] s1] eqn:E; try done. intros H. eapply runs_turn; [exact E|by apply IH].
Qed.

Lemma cons_runs ev evs s s' :
  run_join (ev :: evs) s = Some s' → ∃ s1, join_turn (calm 1) false ev s = (Done tt, s1) ∧ join_runs s1 s'.
Proof.
  cbn [run_join]. destruct (join_turn (calm 1) false ev s) as [[[]|e|] s1]; try done.
  intros H. exists s1. split; [done|by eapply run_join_runs].
Qed.

Lemma stalls : is_Some (run_join (JE_Key enter_key :: stalled_events) long_session).
Proof. vm_compute. by eexists. Qed.

Lemma invalid_form_stalls_witness :
  ∃ s', run_join (JE_Key enter_key :: stalled_events) long_session = Some s' ∧
    jd_sent s'.1 = jd_sent long_session.1 ∧ screen_kind (jd_app s'.1) = SK_Pending.
Proof.
  destruct submits as [app Hkey]. destruct stalls as [s' Hrun]. exists s'. split; [exact Hrun|].
  destruct (cons_runs _ _ _ _ Hrun) as (s1 & E1 & Hruns).
  destruct (invalid_form_stalls invitation toy_password long_session.1 long_session.2 (calm 1) enter_key long_name None
    app s1 s' (NicknameTooLong 32)) as (H1 & _ & H3).
  - exact (surjective_runs _ _ long_reachable).
  - vm_compute. reflexivity.
  - reflexivity.
  - exact Hkey.
  - vm_compute. reflexivity.
  - exact (surjective_runs (λ s, join_turn (calm 1) false (JE_Key enter_key) s = _) _ E1).
  - exact Hruns.
  - split; [exact H1|exact H3].
Defined.

#[export] Instance toy_session_texts : SessionTexts := {|
  tor_error_text _ := lit "tor error"; io_error_text _ := lit "io error"; uri_error_text _ := lit "uri error" |}.

Definition crlf : rstring := [13%N; 10%N].
Definition proc_status : rstring := lit "Name:" ++ [9%N] ++ lit "veilroom" ++ [10%N] ++
  lit "Uid:" ++ [9%N] ++ lit "1000" ++ [9%N] ++ lit "1000" ++ [9%N] ++ lit "1000" ++ [9%N] ++ lit "1000" ++ [10%N].

(** The replies, in the order of the commands: the first poll finds Tor half
    way, the second ready. *)
Definition replies : list (list byte) :=
  [ utf8 (lit "250 OK" ++ crlf);
    utf8 (lit "250-status/bootstrap-phase=NOTICE BOOTSTRAP PROGRESS=50 TAG=loading" ++ crlf ++ lit "250 OK" ++ crlf);
    utf8 (lit "250-status/bootstrap-phase=NOTICE BOOTSTRAP PROGRESS=100 TAG=done" ++ crlf ++ lit "250 OK" ++ crlf);
    utf8 (lit "250-ServiceID=" ++ take 56 onion ++ crlf ++ lit "250 OK" ++ crlf) ].

(** Everything arrives with the first command; the rest waits in the socket. *)
Definition toy_tor : TorEnv := {|
  tv_is_file p := bool_decide (p = lit "/usr/bin/tor");
  tv_path := Some (lit "/usr/local/bin:/usr/bin");
  tv_status := Some proc_status;
  tv_spawn := Ok tt;
  tv_connect n := (if (n <? 2)%nat then Err IO_NotFound else Ok tt, millis 1);
  tv_cookie n := (Ok (replicate 32 x07), millis 1);
  tv_metadata := Ok {| md_is_symlink := false; md_is_dir := false; md_uid := 1000; md_mode := 384 |};
  tv_exited n := Ok false;
  tv_command n := {| ci_write := WR_Done; ci_reads := RD_Bytes <$> (if (n =? 4)%nat then replies else []); ci_took := millis 2 |};
  tv_late n := millis 3;
  tv_wait := CW_TimedOut;
  tv_kill := Ok tt;
  tv_fs c := Ok tt;
|}.

Definition toy_manager : TorManager :=
  {| tm_config := TorConfig_default; tm_paths := session_paths (lit "/run/user/1000/veilroom/session-00");
     tm_child := false; tm_control := None; tm_onion := None |}.

(** ** The start *)

Abbreviation tor_run := (start_with_progress toy_tor (TorSession_new toy_manager 0, 0)).

Lemma pair_run {E A X} (x : Outcome E A * (X * Rng)) a : result_of x = Some a → x = (Done a, (x.2.1, x.2.2)).
Proof. intros H. apply done_run in H. by destruct x as [? []]. Qed.

Lemma tor_runs : tor_run = (Done tt, (tor_run.2.1, tor_run.2.2)).
Proof. apply pair_run. vm_compute. reflexivity. Qed.

Lemma tor_start_ready_witness :
  ts_progress tor_run.2.1 = [50; 100]%N ∧
  ∃ binary cookie_hex k, started toy_tor binary cookie_hex k (TorSession_new toy_manager 0) tor_run.2.1 ∧
    1 <= k <= loop_fuel (bootstrap_timeout (tm_config toy_manager)) (millis 500) ∧ tm_paths (ts_manager tor_run.2.1) = tm_paths toy_manager.
Proof.
  split; [vm_compute; reflexivity|]. exact (tor_start_ready toy_tor toy_manager 0 0 _ _ tor_runs).
Defined.

(** ** The directory *)

Definition runtime_metadata : Metadata :=
  {| md_is_symlink := false; md_is_dir := true; md_uid := 1000; md_mode := 448 |}.

Abbreviation prepare_run :=
  (prepare_with_binary (tv_fs toy_tor) None (Some (lit "/run/user/1000")) (Ok runtime_metadata) (Some proc_status) ([], 0)).

Lemma prepare_done : is_Some (result_of prepare_run).
Proof. vm_compute. by eexists. Qed.
Definition prepared_manager : TorManager := is_Some_proj prepare_done.

Lemma session_dir_is_private_witness :
  (∃ root dir, prepared (tv_fs toy_tor) (Some (lit "/run/user/1000")) (Ok runtime_metadata) (Some proc_status)
     prepared_manager prepare_run.2.1 root dir) ∧
  forallb is_control_safe (chat_socket (tm_paths prepared_manager)) = true.
Proof.
  assert (Hrun : prepare_run = (Done prepared_manager, (prepare_run.2.1, prepare_run.2.2))).
  { apply pair_run. apply is_Some_proj_eq. }
  destruct (session_dir_is_private (tv_fs toy_tor) None (Some (lit "/run/user/1000")) (Ok runtime_metadata)
    (Some proc_status) 0 _ _ _ Hrun) as [H Hall].
  split; [exact H|]. vm_compute. reflexivity.
Defined.

(** ** The onion service *)

Abbreviation onion_run := (add_onion toy_tor 80 tor_run.2).

Lemma onion_done : is_Some (result_of onion_run).
Proof. vm_compute. by eexists. Qed.
Definition onion_service : OnionService := is_Some_proj onion_done.

Lemma onion_service_is_valid_witness :
  on_onion_address onion_service = onion ∧ tm_onion (ts_manager onion_run.2.1) = Some onion_service ∧
  Invitation_new (on_onion_address onion_service) 80 toy_token
    = Ok {| inv_onion_address := on_onion_address onion_service; inv_port := 80; inv_token := toy_token |}.
Proof.
  split; [vm_compute; reflexivity|].
  assert (Hrun : onion_run = (Done onion_service, onion_run.2)) by (apply done_run, is_Some_proj_eq).
  assert (Hsafe : forallb is_control_safe (chat_socket (tm_paths (ts_manager tor_run.2.1))) = true) by (vm_compute; reflexivity).
  destruct (onion_service_is_valid toy_tor 80 tor_run.2 onion_service onion_run.2 Hsafe Hrun) as (_ & _ & H1 & H2 & _).
  split; [exact H1|]. apply H2. vm_compute. reflexivity.
Defined.

(** ** Whole sessions *)

Definition toy_session : SessionEnv := {|
  se_tor := toy_tor; se_runtime_dir := Some (lit "/run/user/1000"); se_metadata := Ok runtime_metadata;
  se_prepared_at := 0; se_draw_fails _ := false; se_listen := Ok tt; se_tunnel := Ok tt |}.

(** One turn, in which the host presses Ctrl-C. *)
Definition quit_turn : HostTurn := {|
  ht_env := calm 1; ht_draw_failed := false; ht_swept_at := noon 1;
  ht_event := HE_Key {| ke_code := KC_Char 99; ke_modifiers := KM_Control |} |}.

Abbreviation host_session_run :=
  (run_host_session toy_session toy_password (lit "host") None (calm 0) (calm 2) [quit_turn] None App_new 0).

Lemma host_session_runs : is_Some host_session_run.
Proof. vm_compute. by eexists. Qed.
Definition quit_session : SessionRun := is_Some_proj host_session_runs.

Lemma quit_tor_runs : is_Some (sr_tor quit_session).
Proof. vm_compute. by eexists. Qed.
Definition quit_tor : TorSession := is_Some_proj quit_tor_runs.

Lemma tor_never_outlives_session_witness :
  sr_end quit_session = Some SE_Quit ∧ tor_gone toy_session (sr_fs quit_session) quit_tor ∧
  existsb (λ a, match a with TA_Spawn _ _ => true | _ => false end) (ts_log quit_tor) = true.
Proof.
  assert (Hend : sr_end quit_session = Some SE_Quit) by (vm_compute; reflexivity).
  split; [exact Hend|]. split; [|vm_compute; reflexivity].
  pose proof (is_Some_proj_eq _ host_session_runs) as Hrun.
  apply (tor_never_outlives_session toy_session None (calm 0) [quit_turn] App_new 0 quit_session SE_Quit quit_tor).
  - left. exists toy_password, (lit "host"), (calm 2), None. exact Hrun.
  - exact Hend.
  - apply is_Some_proj_eq.
Defined.

(** ** The setup *)

Definition setup_state : SessionState * Rng := ({| ss_app := App_new; ss_tor := TorSession_new toy_manager 0 |}, 0).
Abbreviation setup_run := (host_setup toy_session session_verifier (lit "host") setup_state).

Lemma setup_done : is_Some (result_of setup_run).
Proof. vm_compute. by eexists. Qed.
Definition setup_parts : HostConfig * RoomTask * list RoomAction := is_Some_proj setup_done.

Abbreviation begin_run := (host_begin setup_parts.1.1 (calm 0) setup_parts.2
  (HostDriver_new setup_parts.1.1 (calm 0) (lit "host") App_new, 100)).

Lemma host_setup_starts_system_witness :
  system_reachable setup_parts.1.1 setup_parts.2 {| sy_driver := begin_run.2.1; sy_rng := begin_run.2.2; sy_running := true;
    sy_task := setup_parts.1.2; sy_events := hd_sent begin_run.2.1; sy_batches := []; sy_history := []; sy_handled := [] |} ∧
  hg_onion_address setup_parts.1.1 = onion ∧ usable_invitation setup_parts.1.1 begin_run.2.1 ∧
  ∃ t, named_by_tor toy_session t onion.
Proof.
  assert (Hsetup : setup_run = (Done (setup_parts.1.1, setup_parts.1.2, setup_parts.2), setup_run.2)).
  { rewrite <-!surjective_pairing. apply done_run, is_Some_proj_eq. }
  assert (Hbegin : begin_run = (Done tt, (begin_run.2.1, begin_run.2.2))) by (apply pair_run; vm_compute; reflexivity).
  destruct (host_setup_starts_system toy_session session_verifier (lit "host") setup_state _ _ _ _ (calm 0) App_new 100 _ _
    Hsetup Hbegin) as (H1 & _ & (s1 & _ & Hn) & H2 & _).
  assert (Ho : hg_onion_address setup_parts.1.1 = onion) by (vm_compute; reflexivity).
  split; [by apply sr_start|]. split; [exact Ho|]. split; [exact H2|]. exists (ss_tor s1.1). rewrite <-Ho. exact Hn.
Defined.

(** ** The program *)

Definition plain_key (code : KeyCode) : KeyEvent := {| ke_code := code; ke_modifiers := KM_None |}.

(** Hosting from the menu: the password twice, the nickname; the session is
    left with Ctrl-C. *)
Definition hosting_keys : list KeyEvent :=
  plain_key <$> [KC_Enter] ++ (KC_Char <$> lit "secret") ++ [KC_Enter] ++ (KC_Char <$> lit "secret") ++ [KC_Enter]
    ++ (KC_Char <$> lit "host") ++ [KC_Enter].

Definition toy_script : SessionScript := {|
  sp_env := toy_session; sp_begin := calm 0; sp_exit := calm 2; sp_host_turns := [quit_turn]; sp_join_turns := [];
  sp_closing := None; sp_rng := 0 |}.

Definition hosting_turns : list MenuTurn :=
  (λ key, {| mu_draw_failed := false; mu_input := Some (TI_Key key); mu_now := noon 1; mu_session := toy_script |}) <$> hosting_keys.

Definition toy_terminal : TerminalEnv :=
  {| te_raw := true; te_enter := None; te_new := true; te_leave := None; te_cooked := true |}.

Abbreviation program_run := (main toy_terminal [] hosting_turns terminal_normal).

Lemma program_leaves_nothing_behind_witness :
  pe_outcome program_run = PO_Exit true ∧ pe_terminal program_run = terminal_normal ∧
  length (pe_sessions program_run) = 1 ∧ sessions_clean (pe_sessions program_run).
Proof.
  assert (Hout : pe_outcome program_run = PO_Exit true) by (vm_compute; reflexivity).
  assert (Htyped : Forall turn_typed hosting_turns).
  { apply list.Forall_fmap. apply (list.Forall_impl key_ok); [repeat constructor|]. intros key Hk i [= <-]. exact Hk. }
  destruct (program_leaves_nothing_behind toy_terminal [] hosting_turns) as (H1 & _ & H3);
    [reflexivity|reflexivity|by left|exact Htyped|].
  split; [exact Hout|]. split; [apply H1; rewrite Hout; discriminate|]. split; [vm_compute; reflexivity|exact H3].
Defined.

(** A hundred and thirty keys are pressed while the program is busy; then it
    reads the first, leaves, and hangs. *)
Definition key_moves : list InputMove := [IM_Check; IM_Poll (Ok (Some (RV_Key true (plain_key (KC_Char 97))))); IM_Send].
Definition busy_moves : list InputMove := concat (replicate 128 key_moves) ++ take 2 key_moves.
Definition hanging_moves : list InputMove := busy_moves ++ [IM_Recv; IM_Send] ++ take 2 key_moves ++ [IM_Leave].

Lemma hanging_runs : is_Some (input_moves hanging_moves InputSystem_new).
Proof. vm_compute. by eexists. Qed.
Definition hanging : InputSystem := is_Some_proj hanging_runs.

Lemma leaving_waits_for_the_queue_witness :
  is_main hanging = MN_Joining ∧ is_stop hanging = true ∧ ∀ m, input_move m hanging = None.
Proof.
  pose proof (is_Some_proj_eq _ hanging_runs) as Hrun.
  assert (Hm : is_main hanging = MN_Joining) by (vm_compute; reflexivity).
  destruct (leaving_waits_for_the_queue hanging_moves hanging Hrun Hm) as [_ H].
  split; [exact Hm|]. split; [vm_compute; reflexivity|].
  apply (H (TI_Key (plain_key (KC_Char 97)))); vm_compute; reflexivity.
Defined.

(** A host that waits for a connection's hello, and a participant with the
    form filled in. *)
Definition meeting_inputs : list SystemInput :=
  [room_turn; SI_Accepted; SI_Registered; turn (TU_Event (HE_Connected (Some 1%N))); room_turn].

Definition meeting_start : option Pair :=
  '(_, s) ← start_session App_new;
  s ← run_system meeting_inputs s;
  match ClientAdmission_new {| inv_onion_address := onion; inv_port := VIRTUAL_PORT; inv_token := session_token |} toy_password 0 with
  | (Ok cl, r) =>
      match join_begin (calm 0) (JoinDriver_new (calm 0) cl App_new, r) with
      | (Done _, client) =>
          client ← run_join (removelast (fill (lit "alice"))) client;
          Some {| pr_host := (sy_driver s, sy_rng s); pr_client := client; pr_host_read := 0; pr_client_read := 0 |}
      | _ => None
      end
  | _ => None
  end.

Lemma meeting_starts : is_Some meeting_start.
Proof. vm_compute. by eexists. Qed.

Definition meeting : Pair := is_Some_proj meeting_starts.

Lemma meeting_connection : is_Some (hd_connections (pr_host meeting).1 !! 1%N).
Proof. vm_compute. by eexists. Qed.

Definition meeting_host : HostAdmission := hx_admission (is_Some_proj meeting_connection).

Lemma meeting_form :
  match app_screen (jd_app (pr_client meeting).1) with
  | SCR_JoinForm form => (jf_focus form, jf_submitted form, form_values form) = (JFF_Introduction, false, (lit "alice", None))
  | _ => False
  end.
Proof. vm_compute. reflexivity. Qed.

Lemma form_ready_shown values a :
  match app_screen a with
  | SCR_JoinForm form => (jf_focus form, jf_submitted form, form_values form) = (JFF_Introduction, false, values)
  | _ => False
  end → form_ready values a.
Proof. unfold form_ready. destruct (app_screen a); try done. intros [= H1 H2 H3]. by eexists. Qed.

Lemma meeting_about : about_to_meet 1 toy_password (lit "alice", None) meeting_host meeting.
Proof.
  constructor.
  - constructor; [vm_compute; reflexivity..| |vm_compute; reflexivity| |].
    + vm_compute. lia.
    + exists 0, 1. vm_compute. reflexivity.
    + vm_compute. reflexivity.
  - constructor; [|vm_compute; reflexivity|vm_compute; by eexists].
    exists (is_Some_proj meeting_connection). split; [exact (is_Some_proj_eq _ meeting_connection)|].
    split; [unfold meeting_host; exact eq_refl|vm_compute; reflexivity].
  - vm_compute. reflexivity.
  - vm_compute. reflexivity.
  - split; vm_compute; reflexivity.
  - split; [vm_compute; reflexivity|exact (form_ready_shown (lit "alice", None) (jd_app (pr_client meeting).1) meeting_form)].
Qed.

(** The form is submitted while the host still checks the token. *)
Definition meeting_moves : list PairMove :=
  [PM_HostReads (calm 1); PM_ClientReads (calm 2); PM_Submit (calm 3); PM_HostReads (calm 4); PM_ClientReads (calm 5);
   PM_HostReads (calm 6); PM_HostReads (calm 7)].

Lemma meeting_runs : is_Some (pair_moves 1 meeting_moves meeting).
Proof. vm_compute. by eexists. Qed.

Lemma alice_valid : validate_nickname (lit "alice") Limits_default = Ok (lit "alice").
Proof. vm_compute. reflexivity. Qed.

Lemma drivers_meet_witness : has_met 1 (lit "alice", None) (lit "alice") meeting_host meeting (is_Some_proj meeting_runs).
Proof.
  destruct (drivers_meet 1 toy_password (lit "alice", None) (lit "alice") meeting_host meeting_moves meeting (is_Some_proj meeting_runs)
    toy_total meeting_about alice_valid alice_valid ltac:(done) ltac:(by repeat constructor) (is_Some_proj_eq _ _)) as (_ & _ & _ & H).
  exact (H eq_refl).
Defined.

(** The host hears what the participant sent, and the participant what comes
    back. *)
Definition host_hears (i : nat) (sj : System * (JoinDriver * Rng)) : option (System * (JoinDriver * Rng)) :=
  m ← jd_sent sj.2.1 !! i;
  s ← system_step session_config (turn (says m)) sj.1;
  j ← run_join (receive <$> delivered_to 1 (hd_delivered (sy_driver s))) sj.2;
  Some (s, j).

(** Until the room has the application. *)
Definition entering_start : option (System * (JoinDriver * Rng)) :=
  '(_, s) ← start_session App_new;
  s ← run_system meeting_inputs s;
  match ClientAdmission_new {| inv_onion_address := onion; inv_port := VIRTUAL_PORT; inv_token := session_token |} toy_password 0 with
  | (Ok cl, r) =>
      match join_begin (calm 0) (JoinDriver_new (calm 0) cl App_new, r) with
      | (Done _, j) =>
          j ← run_join (fill (lit "alice")) j;
          sj ← host_hears 0 (s, j);
          sj ← host_hears 1 sj;
          sj ← host_hears 2 sj;
          sj ← host_hears 3 sj;
          s ← run_system [room_turn; room_turn] sj.1;
          Some (s, sj.2)
      | _ => None
      end
  | _ => None
  end.

Lemma entering_starts : is_Some entering_start.
Proof. vm_compute. by eexists. Qed.

Lemma host_hears_reachable initial i sj sj' :
  system_reachable session_config initial sj.1 → host_hears i sj = Some sj' → system_reachable session_config initial sj'.1.
Proof.
  unfold host_hears. intros Hr. destruct (jd_sent sj.2.1 !! i) as [m|]; [|done]. cbn [mbind option_bind].
  destruct (system_step _ _ sj.1) as [s|] eqn:E; [|done]. cbn [mbind option_bind].
  destruct (run_join _ _) as [j|]; [|done]. intros [= <-]. by eapply sr_step.
Qed.

Lemma host_hears_then initial i sj (k : System * (JoinDriver * Rng) → option (System * (JoinDriver * Rng))) x :
  system_reachable session_config initial sj.1 →
  (∀ sj', system_reachable session_config initial sj'.1 → k sj' = Some x → system_reachable session_config initial x.1) →
  (host_hears i sj ≫= k) = Some x → system_reachable session_config initial x.1.
Proof.
  intros Hr Hk. destruct (host_hears i sj) as [sj'|] eqn:E; [|done]. apply Hk. by eapply host_hears_reachable.
Qed.

Lemma entering_reachable x : entering_start = Some x → system_reachable session_config session_initial x.1.
Proof.
  unfold entering_start, session_initial. pose proof (is_Some_proj_eq _ session_start) as Hstart.
  destruct (is_Some_proj session_start) as [initial s0]. rewrite Hstart. cbn [mbind option_bind fst].
  pose proof (sr_start _ _ _ (start_session_started _ _ _ Hstart)) as H0.
  destruct (run_system meeting_inputs s0) as [s1|] eqn:E1; [|done]. pose proof (run_system_reachable _ _ _ _ H0 E1) as H1.
  destruct (ClientAdmission_new _ _ _) as [[cl|] r]; [|done]. destruct (join_begin _ _) as [[[]|e|] j0]; try done.
  cbn [mbind option_bind]. destruct (run_join _ j0) as [j1|]; [|done].
  do 4 (apply host_hears_then; [done|]; intros [? ?] ?).
  destruct (run_system [room_turn; room_turn] _) as [s6|] eqn:E6; [|done]. intros [= <-]. by eapply run_system_reachable.
Qed.

(** The room is at rest with the participant's application, which the host
    can accept, and the participant waits. *)
Definition entering_pair (x : System * (JoinDriver * Rng)) : Pair := {|
  pr_host := (sy_driver x.1, sy_rng x.1); pr_client := x.2; pr_host_read := length (jd_sent x.2.1);
  pr_client_read := length (delivered_to 1 (hd_delivered (sy_driver x.1))) |}.

Definition awaits_test (a : RoomActor) (app : JoinApplication) (name : rstring) (p : Pair) : bool :=
  bool_decide (cl_state (jd_admission (pr_client p).1) = CL_AwaitingDecision)
  && match cl_host_hello (jd_admission (pr_client p).1) with
     | Some info => bool_decide (hi_room_session_id info = ra_session_id a)
         && bool_decide (hi_host_ed25519_pubkey info = host_ed25519_pubkey (ra_host_identity a))
         && bool_decide (hi_host_x25519_pubkey info = host_x25519_pubkey (ra_host_identity a))
     | None => false
     end
  && bool_decide (app_x25519_pubkey app = member_x25519_pubkey (cl_identity (jd_admission (pr_client p).1)))
  && bool_decide (app_ed25519_pubkey app = member_ed25519_pubkey (cl_identity (jd_admission (pr_client p).1)))
  && bool_decide (jd_own_nickname (pr_client p).1 = Some name)
  && match hd_connections (pr_host p).1 !! 1%N with
     | Some x => bool_decide (ha_state (hx_admission x) = HS_Decided) | None => false end
  && match hn_peers (hd_network (pr_host p).1) !! 1%N with Some _ => true | None => false end.

Lemma awaits_test_sound a app name x :
  awaits_test a app name (entering_pair x) = true → awaits 1 a app name (entering_pair x).
Proof.
  unfold awaits_test. rewrite !andb_true_iff, !bool_decide_eq_true. intros [[[[[[H1 H2] H3] H3'] H4] H5] H6].
  destruct (cl_host_hello _) as [info|] eqn:Ei; [|done]. rewrite !andb_true_iff, !bool_decide_eq_true in H2. destruct H2 as [[H2 H2'] H2''].
  destruct (hd_connections _ !! _) as [y|] eqn:Ey; [|done]. apply bool_decide_eq_true in H5.
  destruct (hn_peers _ !! _) as [w|] eqn:Ew; [|done]. constructor; [constructor; try done; by exists info|by exists y|done|done].
Qed.

Definition enters (x : System * (JoinDriver * Rng)) : bool :=
  let a := rt_actor (sy_task x.1) in
  match pending (ra_requests a) with
  | [q] =>
      (request_connection q =? 1)%N && bool_decide (ra_state a = RS_Open) && (ra_host_connection a =? HOST_CONNECTION)%N
      && bool_decide (hg_session_id session_config = ra_session_id a)
      && is_done (on_accept (request_id q) (a, rt_rng (sy_task x.1)))
      && match add (ra_members a) (request_connection q) (app_nickname (application q)) (app_ed25519_pubkey (application q))
                 (app_x25519_pubkey (application q)) (ra_epoch a + 1) with
         | Some (Ok (m, ms)) =>
             (table_len ms <=? max_active_members Limits_default)%N
             && forallb (λ k, match validate_nickname (nickname k) Limits_default with Ok _ => true | Err _ => false end) (table_members ms)
         | _ => false
         end
      && awaits_test a (application q) (lit "alice") (entering_pair x)
      && match succ_u64 (cs_sender_sequence (hd_chat (sy_driver x.1))) with Some _ => true | None => false end
  | _ => false
  end.

Lemma entering_enters : option_map enters entering_start = Some true.
Proof. vm_compute. reflexivity. Qed.

Lemma accepted_participant_enters_witness :
  ∃ x q m j a, entering_start = Some x ∧ pending (ra_requests (rt_actor (sy_task x.1))) = [q] ∧
    app_nickname (application q) = nickname m ∧ inside a m (lit "alice") j.
Proof.
  pose proof entering_enters as H. destruct entering_start as [x|] eqn:Ex; [|discriminate]. exists x.
  assert (Hx : enters x = true) by (by injection H). clear H. pose proof (entering_reachable x Ex) as Hs.
  apply system_reachable_ok in Hs as [_ _ Hr _].
  unfold enters in Hx. set (a := rt_actor (sy_task x.1)) in *. destruct (pending (ra_requests a)) as [|q [|]] eqn:Eq; [done| |done].
  destruct (add _ _ _ _ _ _) as [[[m ms]|]|] eqn:Ea; [|by rewrite !andb_false_r in Hx|by rewrite !andb_false_r in Hx].
  destruct (succ_u64 (cs_sender_sequence (hd_chat (sy_driver x.1)))) as [n|] eqn:En; [|by rewrite !andb_false_r in Hx].
  rewrite andb_true_r, !andb_true_iff, !N.eqb_eq, !bool_decide_eq_true, N.leb_le, forallb_forall in Hx.
  destruct Hx as [[[[[[Hc Hst] Hhc] Hsid] Hd] [Hl Hv]] Haw].
  assert (Hshown : table_shown ms).
  { split; [exact Hl|]. apply list.Forall_forall. intros k Hk%list_elem_of_In.
    specialize (Hv k Hk). unfold nickname_valid. destruct (validate_nickname _ _); [by eexists|done]. }
  assert (Hin : q ∈ pending (ra_requests a)) by (rewrite Eq; by left).
  apply awaits_test_sound in Haw. rewrite <-Hc in Haw.
  assert (Hseq : is_Some (succ_u64 (cs_sender_sequence (hd_chat (pr_host (entering_pair x)).1)))) by (exists n; exact En).
  assert (Hsends : ∀ i : nat, sends_all ((λ _, calm 1) i)) by (intros _ k; reflexivity).
  pose proof (run_done _ Hd) as Hrun.
  destruct (accepted_participant_enters session_config (λ _, calm 1) Limits_default host_id host_member a (rt_rng (sy_task x.1))
    q m ms _ _ (lit "alice") (entering_pair x) toy_total host_contributory Hsends Hr (or_introl Hst) Hhc eq_refl eq_refl Hsid Hin Ea Hshown Hrun Haw Hseq) as (d1 & r1 & p2 & t & d3 & r3 & p4 & _ & _ & _ & _ & _ & _ & _ & _ & Hinside & _).
  exists q, m, (pr_client p4).1, (activated t (on_accept (request_id q) (a, rt_rng (sy_task x.1))).2.1).
  split_and!; [done|done|by apply add_Ok in Ea as (_ & _ & _ & _ & _ & -> & _)|exact Hinside].
Defined.

(** * A line typed and shown *)

Definition typing : list JoinEvent := accepted ++ (strike ∘ KC_Char <$> lit "hi").

Lemma typing_runs : is_Some (s0 ← toy_join_start; run_join typing s0).
Proof. vm_compute. by eexists. Qed.
Definition typing_session : JoinDriver * Rng := is_Some_proj typing_runs.

(** The same screen over the session of a member of [two_room]. *)
Definition seated (d : JoinDriver) (identity : MemberIdentity) (s : ChatSession) : JoinDriver :=
  let c := jd_admission d in
  jd_put_admission {| cl_invitation := cl_invitation c; cl_password := cl_password c; cl_identity := identity;
    cl_client_nonce := cl_client_nonce c; cl_server_nonce := cl_server_nonce c; cl_host_hello := cl_host_hello c;
    cl_member_id := Some (cs_member_id s); cl_chat := Some s; cl_state := CL_Admitted |} d.

Definition typed_test (a : App) (text : rstring) : bool :=
  match app_screen a with
  | SCR_Room v => negb (rv_is_host v) && non_empty (tf_text (rv_input v))
      && match parse_line (tf_text (rv_input v)) with Ok (PL_Chat t) => bool_decide (t = text) | _ => false end
  | _ => false
  end.

Lemma typed_test_sound a text : typed_test a text = true → ∃ v, app_screen a = SCR_Room v ∧ typed v text.
Proof.
  unfold typed_test. destruct (app_screen a) as [| | | | | |v| |]; try done. rewrite !andb_true_iff, negb_true_iff.
  intros [[H1 H2] H3]. exists v. split; [done|]. constructor; [done|by destruct (tf_text _)|].
  destruct (parse_line _) as [[|t]|]; [done| |done]. apply bool_decide_eq_true in H3. by subst.
Qed.

(** Bob's session follows Alice's. *)
Definition knows_test (a : RoomActor) (m k : Member) : bool :=
  match session_member (synced a k) (member_id m) with
  | Some v => bool_decide (mv_ed25519_pubkey v = ed25519_pubkey m) | None => false
  end.

Lemma synced_follows a m k : knows_test a m k = true → follows (synced a m) (synced a k) m.
Proof.
  unfold knows_test. destruct (session_member _ _) as [v|] eqn:E; [|done]. intros H%bool_decide_eq_true.
  constructor; [done|done|by exists v|]. intros epoch last _ [=].
Qed.

Definition chatting (a : RoomActor) : bool :=
  match table_members (ra_members a) with
  | [h; m; k] => speaks a alice 1 && (member_id m =? 1)%N && knows_test a m k && (connection h =? HOST_CONNECTION)%N
      && negb (connection m =? HOST_CONNECTION)%N && (member_id h =? 0)%N && (member_id k =? 2)%N
      && bool_decide (ra_state a = RS_Open)
  | _ => false
  end.


(** * The two channels *)

(** A run that leaves out the steps it cannot make. *)
Definition attempt (i : QueueInput) (q : Queues) : Queues := default q (queue_step session_config i q).
Definition attempts (inputs : list QueueInput) (q : Queues) : Queues := foldl (λ q i, attempt i q) q inputs.

Lemma attempts_reachable initial inputs q :
  queues_reachable session_config initial q → queues_reachable session_config initial (attempts inputs q).
Proof.
  unfold attempts. revert q. induction inputs as [|i inputs IH]; intros q Hq; [done|]. apply IH. unfold attempt.
  destruct (queue_step _ i q) as [q'|] eqn:E; [|exact Hq]. by eapply qr_step.
Qed.

Lemma started_attempts_reachable inputs :
  ∃ initial, queues_reachable session_config initial (attempts inputs (queues_start (is_Some_proj session_start).2)).
Proof.
  pose proof (is_Some_proj_eq _ session_start) as Hs. destruct (is_Some_proj session_start) as [initial s]. exists initial.
  apply attempts_reachable, qr_start. by eapply start_session_started.
Qed.

(** The host asks for the requests, 131 times, and reads no answer. *)
Definition queue_turn (event : TurnInput) : QueueInput := QI_Turn (calm 1) false (noon 1) event.
Definition ask : list QueueInput :=
  [queue_turn (TU_Event (HE_Paste (lit "/requests"))); queue_turn (types KC_Enter); QI_Put; QI_Room 1 1; QI_Deliver].

Definition asked_inputs : list QueueInput := [QI_Put; QI_Room 1 1; QI_Deliver] ++ concat (replicate 131 ask).

Definition asked : Queues := attempts asked_inputs (queues_start (is_Some_proj session_start).2).

Lemma asked_reachable : ∃ initial, queues_reachable session_config initial asked.
Proof. exact (started_attempts_reachable asked_inputs). Qed.

Definition blocked_test (q : Queues) : bool :=
  qu_alive q && match qu_outgoing q with [] => false | _ => true end
  && match qu_holding q with Some _ => true | None => false end
  && (length (sy_events (qu_system q)) =? 64)%nat && (length (sy_batches (qu_system q)) =? 64)%nat.

Lemma blocked_test_sound q : blocked_test q = true → blocked q.
Proof.
  unfold blocked_test. rewrite !andb_true_iff, !Nat.eqb_eq. intros [[[[H1 H2] H3] H4] H5]. split_and!; [done| | |done|done].
  - by destruct (qu_outgoing q).
  - by destruct (qu_holding q).
Qed.

(** The deadlock is reached. *)
Lemma turns_end_or_deadlock_witness :
  ∃ initial q, queues_reachable session_config initial q ∧ blocked q ∧
    ∀ js q', queue_run session_config js q = Some q' → blocked q'.
Proof.
  assert (Hb : blocked_test asked = true) by (vm_compute; reflexivity). apply blocked_test_sound in Hb.
  destruct asked_reachable as [initial Hq]. exists initial, asked. split; [exact Hq|]. split; [exact Hb|].
  pose proof (turns_end_or_deadlock session_config initial asked [] asked Hq (List.Forall_nil _) eq_refl) as (_ & _ & _ & _ & H).
  exact (H Hb).
Defined.

Lemma bounded_host_refines_witness :
  ∃ initial s, system_reachable session_config initial s ∧ refines asked s.
Proof.
  destruct asked_reachable as [initial Hq]. exists initial.
  exact (proj1 (proj2 (proj2 (bounded_host_refines session_config initial asked Hq)))).
Defined.

(** Alice's admission over the channels, with all batches taken. *)
Definition queued_input (i : SystemInput) : list QueueInput :=
  match i with
  | SI_Turn env draw_failed swept event => [QI_Turn env draw_failed swept event; QI_Put; QI_Put]
  | SI_Room now now' => [QI_Room now now'; QI_Deliver]
  | i => [QI_Net i]
  end.

Definition quiet_inputs : list QueueInput :=
  concat (queued_input <$> session_inputs ++ concat (replicate 3 [room_turn; turn TU_Batch])).

Definition quiet : Queues := attempts (QI_Put :: quiet_inputs) (queues_start (is_Some_proj session_start).2).

Lemma quiet_reachable : ∃ initial, queues_reachable session_config initial quiet.
Proof. exact (started_attempts_reachable (QI_Put :: quiet_inputs)). Qed.

Definition exit_steps : list QueueInput := [QI_Put; QI_Room 2 2; QI_Deliver].

Lemma exit_runs : is_Some (queue_run session_config exit_steps (begin_exit quiet)).
Proof. vm_compute. by eexists. Qed.

Definition quiet_test (q : Queues) : bool :=
  match untaken q, sy_events (qu_system q), qu_outgoing q with [], [], [] => true | _, _, _ => false end
  && qu_alive q && rt_running (sy_task (qu_system q)) && bool_decide (ra_state (rt_actor (sy_task (qu_system q))) = RS_EpochTransition).

Lemma graceful_exit_witness :
  ∃ q' b rest d', queue_run session_config exit_steps (begin_exit quiet) = Some q' ∧
    sy_batches (qu_system q') = b :: rest ∧ b = closing_batch (sy_task (qu_system quiet)) ∧
    host_exit (calm 2) (Some b) (sy_driver (qu_system q'), 0) = (Done SE_Menu, (d', 0)) ∧
    drop (length (hd_delivered (sy_driver (qu_system quiet)))) (hd_delivered d') = [(1%N, M_Shutdown)].
Proof.
  assert (Hq : quiet_test quiet = true) by (vm_compute; reflexivity).
  assert (Hb : bool_decide (1 <= length (sy_batches (qu_system (is_Some_proj exit_runs)))) = true) by (vm_compute; reflexivity).
  assert (Hf : filter (λ c, is_Some (hn_peers (hd_network (sy_driver (qu_system quiet))) !! c))
    (conn_ids (ra_connections (rt_actor (sy_task (qu_system quiet))))) = [1%N]) by (vm_compute; reflexivity).
  pose proof (is_Some_proj_eq _ exit_runs) as Hrun. revert Hb Hrun. generalize (is_Some_proj exit_runs). intros q' Hb Hrun.
  destruct quiet_reachable as [initial Hr].
  revert Hq Hf Hrun Hr. generalize quiet. intros q Hq Hf Hrun Hr.
  unfold quiet_test in Hq. rewrite !andb_true_iff, bool_decide_eq_true in Hq. destruct Hq as [[[Hq Ha] Hru] Hst].
  destruct (sy_batches (qu_system q')) as [|b rest] eqn:Eb; [by apply bool_decide_eq_true in Hb; cbn in Hb; lia|].
  destruct (graceful_exit session_config initial q exit_steps q' b rest Hr (ltac:(repeat constructor)) Hrun Eb) as (_ & _ & H).
  destruct H as (H1 & H2 & _).
  { by destruct (untaken q). }
  { destruct (untaken q), (sy_events (qu_system q)), (qu_outgoing q); by try constructor. }
  { exact Ha. }
  { split; [exact Hru|]. rewrite Hst. done. }
  destruct (H2 (calm 2) 0 (λ _, eq_refl)) as (d' & E1 & E2). exists q', b, rest, d'.
  split_and!; [exact Hrun|done|exact H1|exact E1|]. rewrite E2, Hf, drop_app_length. done.
Defined.
