(* ===== verification/Findings.v ===== *)
(** Behaviours that differ from what the program's documents say: of the room,
    each shown on a reachable room, and of the program around it. *)
From Stdlib Require Import Strings.String.
From S2P Require Export Program Toy SessionProps.

(** * The combined bound on pending requests *)

(** The room with one member, Alice. *)
Definition with_alice : list (RoomEvent * Duration) :=
  [ack 0 1] ++ applies alice (lit "alice") 1 ++ [(EV_HostAccepted 0, 0%N); ack 0 2; ack 1 2].

(** Alice's [i]-th timeout request, in epoch 2. *)
Definition timeout_request (s : St) (i : N) : RoomEvent * Duration :=
  (EV_ChatReceived 1 MSG_TIMEOUT_REQUEST
     (sealed s alice 1 i MSG_TIMEOUT_REQUEST (be_bytes 8 60)), second i).

Definition crowd : list (RoomEvent * Duration) :=
  flat_map (λ i, applies {| member_ed25519 := key_of (100 + i); member_x25519 := key_of (100 + i) |}
                  (lit "guest") (10 + i)) [1; 2; 3; 4; 5; 6; 7; 8]%N.

(** A script, events sealed in the room it reaches, and a second script. *)
Definition staged (evs : list (RoomEvent * Duration)) (f : St → list (RoomEvent * Duration))
    (evs' : list (RoomEvent * Duration)) : option St :=
  s ← demo Limits_default evs; run_events (f s) s ≫= run_events evs'.

Lemma staged_reachable evs f evs' s :
  staged evs f evs' = Some s → reachable Limits_default host_id host_member (λ _, True) s.
Proof.
  unfold staged. destruct (demo _ evs) as [s0|] eqn:E0; [|done]. simpl.
  destruct (run_events (f s0) s0) as [s1|] eqn:E1; [|done]. simpl. intros E.
  eapply run_events_reachable; [|apply any_events|exact E].
  eapply run_events_reachable; [|apply any_events|exact E1].
  eapply demo_reachable; [apply any_events|exact E0].
Qed.

(** Alice asks for eight timeouts. *)
Definition requests (s : St) : list (RoomEvent * Duration) :=
  timeout_request s <$> [1; 2; 3; 4; 5; 6; 7; 8]%N.

(** Pending joins and pending timeout requests together exceed the limit. *)
Definition over_limit (s : St) : bool :=
  (queue_limit (ra_requests s.1) <?
   queue_len (ra_requests s.1) + N.of_nat (length (ra_timeout_requests s.1)))%N.

(** The limit on pending requests, documented as a bound on join and timeout
    requests together, bounds each queue: a reachable room holds more of both than the
    limit. *)
Theorem combined_bound_not_enforced :
  ∃ s, reachable Limits_default host_id host_member (λ _, True) s ∧
    (queue_limit (ra_requests s.1) = max_pending_requests Limits_default)%N ∧
    (queue_limit (ra_requests s.1) <
       queue_len (ra_requests s.1) + N.of_nat (length (ra_timeout_requests s.1)))%N.
Proof.
  destruct (run_check (λ s, over_limit s && (queue_limit (ra_requests s.1) =? 8)%N)
    (staged with_alice requests crowd)) as (s & Hs & [H1%N.ltb_lt H2%N.eqb_eq]%andb_true_iff);
    [vm_compute; reflexivity|].
  exists s. split; [exact (staged_reachable _ _ _ _ Hs)|split; [exact H2|exact H1]].
Qed.

(** * Broadcasts of a superseded transition *)

(** Bob has been accepted; before the members acknowledge, Alice's connection
    is lost, which starts the next transition; the host acknowledges that. *)
Definition superseded : list (RoomEvent * Duration) :=
  take 11 two_members ++ [(EV_ConnectionLost 1, 0%N); ack 0 4].

(** A snapshot of an older epoch among what is sent to [c]. *)
Definition stale_snapshot (c : ConnectionId) (epoch : u64) (p : ConnectionId * Message)
    : option MemberSnapshot :=
  match p with
  | (c', M_MemberSnapshot snap) =>
      if (c' =? c)%N && (ms_epoch snap <? epoch)%N then Some snap else None
  | _ => None
  end.

(** Bob's acknowledgement ends the transition, and the snapshot he gets is
    the stale one. *)
Definition ends_stale (s : St) : bool :=
  match handle_event_at (EV_EpochAck 2 4) 0 s with
  | (Done acts, s') =>
      bool_decide (ra_state s'.1 = RS_Open) && (ra_epoch s'.1 =? 4)%N
      && match ra_pending_membership s'.1 with [] => true | _ => false end
      && match omap (stale_snapshot 2 4) (sends acts) with [] => false | _ => true end
  | _ => false
  end.

Lemma stale_snapshot_elem c epoch l :
  match omap (stale_snapshot c epoch) l with [] => false | _ => true end = true →
  ∃ snap, (c, M_MemberSnapshot snap) ∈ l ∧ (ms_epoch snap < epoch)%N.
Proof.
  destruct (omap _ l) as [|snap l'] eqn:E; [done|]. intros _.
  assert (Hin : snap ∈ omap (stale_snapshot c epoch) l) by (rewrite E; by left).
  apply list_elem_of_omap in Hin as ([c' m] & Hin & Hm). destruct m; try done. simpl in Hm.
  destruct (N.eqb_spec c' c) as [->|]; [|done]. destruct (N.ltb_spec (ms_epoch m) epoch); [|done].
  injection Hm as <-. by exists m.
Qed.

(** A broadcast queued for a transition that another transition supersedes
    keeps the epoch it was signed for: there is a reachable room that returns to rest by
    sending a newcomer its only member snapshot, of an epoch that is over, and every
    session that has installed the room's current epoch refuses it. *)
Theorem stale_snapshot_rejected :
  ∃ s acts s' snap,
    reachable Limits_default host_id host_member (λ _, True) s ∧
    handle_event_at (EV_EpochAck 2 4) 0 s = (Done acts, s') ∧
    ra_state s'.1 = RS_Open ∧ ra_pending_membership s'.1 = [] ∧
    (2%N, M_MemberSnapshot snap) ∈ sends acts ∧
    ∀ session rs, current_epoch session = Some (ra_epoch s'.1) →
      ∃ e, handle_membership_message (M_MemberSnapshot snap) (session, rs)
        = (Fail e, (session, rs)).
Proof.
  destruct (run_check ends_stale (demo Limits_default superseded)) as (s & Hs & H);
    [vm_compute; reflexivity|].
  unfold ends_stale in H. destruct (handle_event_at _ _ s) as [[acts|e|] s'] eqn:E; [|done..].
  rewrite !andb_true_iff, bool_decide_eq_true, N.eqb_eq in H. destruct H as [[[Hst Hep] Hpm] Hsn].
  apply stale_snapshot_elem in Hsn as (snap & Hin & Hlt).
  exists s, acts, s', snap. split_and!; [|done|done|by destruct (ra_pending_membership _)|done|].
  { eapply demo_reachable; [apply any_events|exact Hs]. }
  intros session rs Hc.
  destruct (handle_decided (M_MemberSnapshot snap) _ session rs eq_refl) as [(_ & Ht & _)|(_ & e & He)].
  - exfalso. rewrite Hep in Hc. apply (tm_epoch _ _ Ht) in Hc. simpl in Hc. lia.
  - by exists e.
Qed.

(** * The program *)

(** The flag is stripped from its own argument as well. *)
Lemma flag_is_stripped_twice :
  main_entry [lit "--tor-binary=--tor-binary=/opt/tor"] = EN_Run (Some (lit "/opt/tor")).
Proof. reflexivity. Qed.

(** An empty path is refused after the sign and taken after a space. *)
Lemma empty_path_is_taken :
  main_entry [lit "--tor-binary="] = EN_MissingPath ∧ main_entry [lit "--tor-binary"; []] = EN_Run (Some []).
Proof. done. Qed.

(** An entry that fails after its first command leaves the alternate screen
    on. *)
Lemma half_entry_is_not_undone raw_new leave :
  let env := {| te_raw := true; te_enter := Some 1%nat; te_new := raw_new; te_leave := leave; te_cooked := true |} in
  terminal_enter env terminal_normal
    = (false, {| tl_raw := false; tl_alternate := true; tl_paste := false; tl_cursor_hidden := false |}).
Proof. reflexivity. Qed.

(** A tool that is there and fails is reported as no tool, where a later one
    is missing. *)
Lemma failure_reported_as_missing env text :
  cl_spawn env (lit "xclip") = Ok tt → cl_write env (lit "xclip") = Ok tt → cl_wait env (lit "xclip") = Ok false →
  cl_spawn env (lit "xsel") = Err IO_NotFound →
  (copy_to_clipboard env false true text).1 = Err CB_NoBackend.
Proof.
  intros H1 H2 H3 H4. unfold copy_to_clipboard, copy_to_clipboard_with_backends. cbn [detect_backends app].
  cbn [try_backends]. unfold spawn_backend. by rewrite H1, H2, H3, H4.
Qed.
